(* ===== verification/_CoqProject ===== *)
-Q . S2P
Prelude.v
RustStr.v
Errors.v
Collections.v
Timestamps.v
Versions.v
Canonical.v
JsonInjective.v
MerkleLog.v
Policy.v
Verdict.v
Evidence.v
Bindings.v
Signature.v
ReferenceValues.v
VerifierCore.v
VerifierSound.v
EvidenceDocuments.v
FixtureVerifier.v
DstackVerifier.v
QuoteInterfaces.v
SevSnp.v
TdxCollateral.v
NrasToken.v
SigstoreRekor.v
SigstoreSct.v
Sigstore.v
ChutesVerifier.v
TinfoilVerifier.v
LiveEvidence.v
LiveFamilies.v
HardwareBackEnds.v
Ppq.v
Redpill.v
Dispatch.v
Registry.v
RegistryReview.v
ProviderRequest.v
Compatibility.v
ClientErrors.v
VerdictCache.v
ChatStream.v
RouteSelection.v
Effects.v
ClientVerify.v
ChatDispatch.v
ClientRun.v
TrustSources.v
ClientBuilder.v
HttpTransport.v
HttpStream.v
HttpProviders.v
ProxyRedaction.v
ProxyHttp.v
Proxy.v
CollateralResolver.v
FetchQueue.v
VcekCache.v
ChutesLive.v
RedpillAdapter.v
Ehbp.v
PpqAdapter.v
