(* ===== verification/Prelude.v ===== *)
(** * Verification of the confidential-inference SDK

    The program is a Rust SDK that sends inference requests to providers only
    after it has verified, from attestation evidence, that the request reaches
    the workload it is meant for. This library models its attestation crate, the
    core of its provider crate, the client of its SDK crate and the HTTP proxy
    around it as executable functions and proves what makes them correct. Paths
    below are under src/crates; "attestation", "providers", "sdk" and "proxy" stand
    for the crates confidential-inference-attestation, -providers, -sdk and -proxy,
    each with its src/.

    ** The parts and how they interact

    A client is built from a registry of routes and from reference values, two
    signed artifacts that are bundled, supplied or fetched. For a request it
    selects the routes that serve the model and fit the policy, and verifies one:
    it asks the provider's adapter for evidence bound to a fresh nonce, chooses the
    quote and GPU back ends for that evidence, and hands everything to the verifier,
    which dispatches on the evidence family and returns a verdict. Verdicts are
    cached and verifications of one key are shared between callers. A request is
    sent only to a route with a current verdict, carries the digest of the evidence,
    and falls back to another route only when the failure proves that no work was
    done. The adapters send it over a connection pinned to the attested key or
    encrypted to the attested end-to-end key. The quote back ends get Intel's
    collateral and AMD's certificates from resolvers that cache them. The proxy
    serves the client over HTTP to callers it has authenticated.

    ** Files

    Shared: Prelude (results, loops, machine integers, orders, tactics and
    the rewrite database [rust_bool]), RustStr (strings and bytes),
    Collections (sorting, [BTreeMap]), Effects (stateful code as functions on a
    world), Errors (attestation/error.rs).

    Data of the attestation crate: Timestamps (the calendar of verifier.rs), Versions
    (compare_artifact_versions), Canonical and JsonInjective (canonical.rs), Policy
    (policy.rs), Verdict (verdict.rs), Evidence and EvidenceDocuments (evidence.rs,
    tinfoil.rs), Bindings (e2ee.rs, tls.rs, tcb.rs), Signature (signature.rs),
    ReferenceValues (reference_values.rs).

    Verification: VerifierCore and VerifierSound (what every family of verifier.rs
    shares), FixtureVerifier, DstackVerifier, ChutesVerifier, TinfoilVerifier,
    LiveEvidence, LiveFamilies (live Chutes and NEAR), Ppq (ppq.rs), Redpill
    (redpill.rs), Dispatch (the entry points). QuoteInterfaces states the traits of
    gpu.rs and tinfoil.rs as classes, against which the families are verified; SevSnp
    (sev_snp.rs), TdxCollateral (tdx.rs) and NrasToken (gpu.rs) are the back ends
    that implement them, and HardwareBackEnds puts both together. MerkleLog (the tree
    and audit paths of RFC 6962), SigstoreRekor (sigstore_rekor.rs), SigstoreSct
    (sigstore_sct.rs) and Sigstore (sigstore.rs) verify where a release comes from.

    Providers: Registry and RegistryReview (registry.rs), ProviderRequest
    (provider.rs), Compatibility (compatibility.rs), HttpTransport (tls.rs and the
    transport of http.rs), HttpStream (the event stream of http.rs), HttpProviders
    (the adapters of http.rs and near.rs), ChutesLive (chutes_live.rs), RedpillAdapter
    (redpill.rs), Ehbp (ehbp.rs), PpqAdapter (ppq.rs), CollateralResolver and FetchQueue
    (dcap_tdx.rs), VcekCache (sev_snp.rs).

    Client (sdk/lib.rs): ClientErrors, RouteSelection, VerdictCache, ClientVerify,
    ChatDispatch, ChatStream, ClientRun, TrustSources, ClientBuilder.

    Proxy (proxy/lib.rs): ProxyRedaction (error texts, also those of provider.rs),
    ProxyHttp (reading requests, writing responses), Proxy (configuration, guards,
    routes).

    ** How the code is modelled

    A fallible function returns [result]; [x ← m; k] is the [?] operator and
    [bail e when c; k] an early return. The text of an error is the source's format
    string with its placeholders, which names the guard that failed. A [u64] is a [Z]
    and a byte a character of a [string]; saturating, wrapping and checked operations
    are written out. Records carry the source's fields. A [BTreeMap] is a [gmap]
    iterated in key order. Async code is a function from the state of the world to a
    result and the next state ([eff]); the concurrent parts (the verdict cache with its
    table of flights, the queue for collateral fetches, the cache of AMD
    certificates) are step relations whose steps are the sections of code between two
    awaits or under one lock.

    Code outside the repository is a parameter, collected in classes: SHA-256 and
    JSON text ([Primitives]), Ed25519 ([SignatureCrypto]), X.509
    ([CertificateReader], [AmdCrypto]), ECDSA and RSA signatures, the DCAP library
    ([DcapLibrary]), token decoding ([TokenCrypto]), request encryption
    ([RequestCrypto], [ChutesCrypto]), Sigstore ([SigstoreCrypto], [SigstoreX509]), PCK
    certificates ([PckReader]), the order of a hash map ([HashOrder]), YAML, gzip,
    JSON decoding, the platform's TLS verifier, the network (a script of exchanges),
    the clocks and the adapters. What a theorem needs of them is a law class
    ([Sha256Laws]: digests have 32 bytes; [JsonStringLaws]: string literals are
    self-delimiting; [RequestCryptoLaws] and [ChutesCryptoLaws]: decryption inverts
    encryption; [BundleJsonLaws]: decoding inverts encoding; [ChunkReaderLaws],
    [TrustArtifactLaws], [VerifiedSends]), and each has an instance in the library.

    ** What the theorems show

    A request is only ever sent on verified evidence: [ClientRun.chat_end_to_end],
    [ChatDispatch.sends_verified_and_never_replayed], the two theorems of
    HttpProviders on where prompts go, [ClientVerify.client_calls_sound],
    [ClientVerify.chutes_bound_to_fresh_nonce]. For Chutes it is encrypted to the key
    of that evidence, under a nonce that is used once ([ChutesLive]), and for PPQ too
    ([PpqAdapter], [Ehbp]); for RedPill an
    answer comes with a receipt for the bytes sent and received
    ([RedpillAdapter.redpill_answers_receipted]).

    A verdict means what it says: [Verdict.enforced_verdict_fail_closed],
    [Dispatch.dispatched_verdict_sound], and per family what an allowed request rests
    on (TinfoilVerifier, LiveFamilies, Ppq, Redpill) or the exact condition for
    allowing it (FixtureVerifier, TinfoilVerifier). HardwareBackEnds carries this down
    to the signatures of AMD, Intel and NVIDIA; the back ends themselves are proved
    equal to declarative specifications. A release measurement is one that a tagged
    workflow signed and whose entry walks to the root of a trusted log
    ([Sigstore.sigstore_release_sound]); such a walk decides inclusion, up to a
    collision between an input hashed on the walk and one of the tree
    ([MerkleLog.inclusion_exact]).

    The cache is safe under every interleaving: [VerdictCache.served_verdicts_usable],
    [single_flight_safe], [cache_hit_fresh]; [TdxCollateral.collateral_cache_safe] for
    collateral. A resolver answers with valid collateral that fits the quote, reuses
    it across quotes and restarts; its queue stays within bounds and never deadlocks, so
    that a call that does not give up waiting is served
    (CollateralResolver, FetchQueue); a certificate is never lost to a failure
    (VcekCache).

    The proxy calls the SDK only for requests that pass its guards, an exposed proxy
    only for authenticated ones, reads bounded requests, those with a head of at most
    64 KiB the same however they arrive in pieces, and writes responses that cannot be split (Proxy, ProxyHttp).

    Trust is not lost over time: updates of registry and reference values never weaken
    the fields the update rules compare (the freshness class of a route is not one of
    them: [Registry.update_may_relax_freshness]), a restart does not roll back what the
    pin still accepts, remote artifacts are signed, pinned and no weaker than the fallback (Registry, ReferenceValues, TrustSources), a built
    client trusts only its operator (ClientBuilder).

    Digests identify documents ([JsonInjective.canonical_json_unambiguous]), cache keys
    identify routes, streams of LF-framed events deliver what was sent however the bytes
    are cut ([HttpStream.chat_stream_delivered]; mixed line endings lose events,
    [HttpStream.mixed_line_endings_lose_events]), encryption and encodings round-trip, and
    loops end.

    ** Bounds and fuel

    Recursion that is not structural has fuel with a theorem that the fuel is enough:
    [DISPATCH_FUEL] is 3, one first attempt and the two refreshes the source allows
    ([ChatDispatch.chat_dispatch_terminates]); [CALL_FUEL] is 8, the sections a
    verification call can pass through ([ClientRun.verification_calls_end]); the two
    event readers get one step per buffered byte and piece
    ([HttpStream.sse_poll_terminates]); the fetch loop gets one turn per attempt
    ([CollateralResolver.fetch_loop_ends]); a chunked response gets one turn per byte
    ([Ehbp.open_chunks_ends]); eviction loops get the size of their map;
    readers of text get its length; printing a number gets 20 digits, enough for a
    [u64].

    ** Not modelled

    The adapters for the fixture families of Chutes and dstack, for Contrast
    and the demo, the NRAS client and the reference-value generator: they
    build requests and collect evidence over the network, and are reached through the
    interfaces above. Of http.rs the lifecycle calls of the Responses API and the
    normalisers of structured evidence, of sdk/lib.rs the builder's setters, the
    metrics and the Responses lifecycle, of dcap_tdx.rs the queue's metrics, and of
    the proxy the accept loop are left out. The FFI bindings and the trust command
    line pass values to the SDK and back. Tracing has no effect on results and is
    dropped throughout. *)

From Stdlib Require Import Ascii String ZArith Lia.
From stdpp Require Import base gmap strings list sorting numbers.

(** ** Results

    [Result<T, E>]: the sources' fallible functions return a value of this type.
    stdpp's [x ← m; k] stands for the [?] operator. *)

Inductive result (E A : Type) : Type :=
| Ok (a : A)
| Err (e : E).

Arguments Ok {E A} a.
Arguments Err {E A} e.

#[export] Instance result_ret {E} : MRet (result E) := λ A a, Ok a.
#[export] Instance result_bind {E} : MBind (result E) := λ A B f m,
  match m with Ok a => f a | Err e => Err e end.
#[export] Instance result_fmap {E} : FMap (result E) := λ A B f m,
  match m with Ok a => Ok (f a) | Err e => Err e end.

Definition is_ok {E A} (r : result E A) : bool :=
  match r with Ok _ => true | Err _ => false end.
Lemma is_ok_inv {E A} (r : result E A) : is_ok r = true → ∃ a, r = Ok a.
Proof. destruct r; [eauto|done]. Qed.

(** [Option::is_some]. *)
Definition is_some {A} (o : option A) : bool := match o with Some _ => true | None => false end.

(** [Option::ok_or_else] and [Result::map_err]. *)
Definition ok_or {E A} (o : option A) (e : E) : result E A :=
  match o with Some a => Ok a | None => Err e end.

Definition map_err {E F A} (f : E → F) (r : result E A) : result F A :=
  match r with Ok a => Ok a | Err e => Err (f e) end.

Declare Scope rust_scope.
Delimit Scope rust_scope with rust.
Open Scope rust_scope.

(** [if cond { return Err(e) }] followed by the rest of the body. *)
Notation "'bail' e 'when' c ; k" := (if c then Err e else k)
  (at level 20, c at level 100, e at level 9, k at level 200, right associativity,
   format "'[v' 'bail'  e  'when'  c ; '/' k ']'") : rust_scope.

(** [PartialEq::eq] on any type with decidable equality. *)
Notation "x '=?=' y" := (bool_decide (x = y)) (at level 70, no associativity) : rust_scope.

(** A loop whose body may return early with an error. *)
Fixpoint for_each {E A} (f : A → result E unit) (l : list A) : result E unit :=
  match l with
  | [] => Ok tt
  | a :: l => _ ← f a; for_each f l
  end.

(** [iter().map(f).collect::<Result<Vec<_>>>()]. *)
Fixpoint collect_results {E A B} (f : A → result E B) (l : list A) : result E (list B) :=
  match l with
  | [] => Ok []
  | a :: l => b ← f a; bs ← collect_results f l; Ok (b :: bs)
  end.

(** A loop that threads a state and may return early. *)
Fixpoint try_fold {E S A} (f : S → A → result E S) (l : list A) (s : S) : result E S :=
  match l with
  | [] => Ok s
  | a :: l => s ← f s a; try_fold f l s
  end.

Lemma bind_Ok {E A B} (m : result E A) (f : A → result E B) b :
  (m ≫= f) = Ok b ↔ ∃ a, m = Ok a ∧ f a = Ok b.
Proof. destruct m; cbn; split; [eauto| by intros (? & [= <-] & ?) | done | by intros (? & ? & ?)]. Qed.

Lemma ok_bind {E A B} (a : A) (f : A → result E B) : (Ok a ≫= f) = f a.
Proof. reflexivity. Qed.
Lemma ok_or_some {E A} (a : A) (e : E) : ok_or (Some a) e = Ok a.
Proof. reflexivity. Qed.

Lemma guard_Ok {E A} (c : bool) (e : E) (k : result E A) a :
  (bail e when c; k) = Ok a ↔ c = false ∧ k = Ok a.
Proof. destruct c; split; [done | by intros [? ?] | done | by intros [? ?]]. Qed.

Lemma ok_or_Ok {E A} (o : option A) (e : E) a : ok_or o e = Ok a ↔ o = Some a.
Proof. destruct o; naive_solver. Qed.

Lemma map_err_Ok {E F A} (f : E → F) (r : result E A) a : map_err f r = Ok a ↔ r = Ok a.
Proof. destruct r; naive_solver. Qed.

Lemma for_each_Ok {E A} (f : A → result E unit) l :
  for_each f l = Ok tt ↔ Forall (λ a, f a = Ok tt) l.
Proof.
  induction l as [|a l IH]; cbn; [by split|].
  rewrite List.Forall_cons_iff, <-IH, bind_Ok. split.
  - by intros ([] & ? & ?).
  - intros [? ?]. by exists tt.
Qed.

Lemma collect_results_Ok {E A B} (f : A → result E B) l bs :
  collect_results f l = Ok bs ↔ Forall2 (λ a b, f a = Ok b) l bs.
Proof.
  revert bs; induction l as [|a l IH]; intros bs; cbn.
  - split; [intros [= <-]; constructor | by inversion 1].
  - rewrite bind_Ok. setoid_rewrite bind_Ok. split.
    + intros (b & ? & bs' & ?%IH & [= <-]). by constructor.
    + inversion 1; subst. naive_solver.
Qed.

Lemma unit_bind_Ok {E A} (m : result E unit) (k : result E A) a :
  (_ ← m; k) = Ok a ↔ m = Ok tt ∧ k = Ok a.
Proof. rewrite bind_Ok. split; [by intros ([] & ? & ?) | by exists tt]. Qed.

Lemma try_fold_snoc {E S A} (f : S → A → result E S) l x s :
  try_fold f (l ++ [x]) s = (s' ← try_fold f l s; f s' x).
Proof.
  revert s. induction l as [|a l IH]; intros s; cbn [app try_fold].
  - rewrite ok_bind. by destruct (f s x).
  - destruct (f s a) as [s'|e]; [apply IH|done].
Qed.

(** Every element of an accepted loop was accepted by the body. *)
Lemma try_fold_steps {E S A} (f : S → A → result E S) l s s' :
  try_fold f l s = Ok s' → Forall (λ a, ∃ s1 s2, f s1 a = Ok s2) l.
Proof.
  revert s. induction l as [|a l IH]; intros s; [constructor|]. cbn [try_fold]. rewrite bind_Ok.
  intros (s1 & H & Hr). constructor; eauto.
Qed.

Lemma Forall2_elem_l {A B} (P : A → B → Prop) l k x :
  Forall2 P l k → x ∈ l → ∃ y, y ∈ k ∧ P x y.
Proof. induction 1; set_solver. Qed.
Lemma Forall2_elem_r {A B} (P : A → B → Prop) l k y :
  Forall2 P l k → y ∈ k → ∃ x, x ∈ l ∧ P x y.
Proof. induction 1; set_solver. Qed.

(** [inv_ok] takes a successful run apart: one equation per [?], one
    [c = false] per early return. *)
Ltac inv_ok_step :=
  match goal with
  | H : (_ ≫= _) = Ok _ |- _ => apply bind_Ok in H; destruct H as (? & ? & H)
  | H : (if _ then Err _ else _) = Ok _ |- _ => apply guard_Ok in H; destruct H as [? H]
  | H : ok_or _ _ = Ok _ |- _ => apply ok_or_Ok in H
  | H : map_err _ _ = Ok _ |- _ => apply map_err_Ok in H
  | H : Ok _ = Ok _ |- _ => injection H as H
  | H : Err _ = Ok _ |- _ => discriminate H
  | u : unit |- _ => destruct u
  end.
Ltac inv_ok := repeat inv_ok_step; subst.

(** Booleans of the source's conditions to propositions. *)
Create Rewrite HintDb rust_bool.
#[export] Hint Rewrite andb_true_iff andb_false_iff orb_true_iff orb_false_iff negb_true_iff
  negb_false_iff bool_decide_eq_true bool_decide_eq_false
  Z.eqb_eq Z.eqb_neq Z.ltb_lt Z.ltb_ge Z.leb_le Z.leb_gt
  Nat.eqb_eq Nat.eqb_neq Nat.ltb_lt Nat.ltb_ge Nat.leb_le Nat.leb_gt
  N.eqb_eq N.eqb_neq N.ltb_lt N.ltb_ge N.leb_le N.leb_gt : rust_bool.
Ltac bools := autorewrite with rust_bool in *.

(** Take disjunctions of the context apart, closing contradictory branches. *)
Ltac split_ors :=
  repeat match goal with H : _ ∨ _ |- _ => destruct H as [H|H]; try discriminate H end;
  try discriminate; try congruence.

(** ** Machine integers

    A [u64] is a [Z] in range; the saturating operations are written out. *)

Definition u64_max : Z := 18446744073709551615.
Definition u32_max : Z := 4294967295.
Definition is_u64 (x : Z) : Prop := (0 ≤ x ≤ u64_max)%Z.

Definition saturating_add (a b : Z) : Z := Z.min (a + b) u64_max.
Definition saturating_mul (a b : Z) : Z := Z.min (a * b) u64_max.
Definition saturating_sub (a b : Z) : Z := Z.max (a - b) 0.

Lemma saturating_add_u64 a b : is_u64 a → is_u64 b → is_u64 (saturating_add a b).
Proof. unfold is_u64, saturating_add. lia. Qed.
Lemma saturating_sub_u64 a b : is_u64 a → is_u64 b → is_u64 (saturating_sub a b).
Proof. unfold is_u64, saturating_sub. lia. Qed.

(** ** Comparisons

    [Ord::cmp] as a function to [comparison]; the laws make it a total order. *)

Class TotalCmp {A} (cmp : A → A → comparison) : Prop := {
  cmp_eq x y : cmp x y = Eq ↔ x = y;
  cmp_opp x y : cmp y x = CompOpp (cmp x y);
  cmp_lt_trans x y z : cmp x y = Lt → cmp y z = Lt → cmp x z = Lt;
}.

Arguments cmp_eq {A} cmp {_} x y.
Arguments cmp_opp {A} cmp {_} x y.
Arguments cmp_lt_trans {A} cmp {_} x y z.

(** [Ordering::then]. *)
Definition cmp_then (c d : comparison) : comparison :=
  match c with Eq => d | _ => c end.

(** Lexicographic order on sequences, a strict prefix first. *)
Fixpoint list_cmp {A} (cmp : A → A → comparison) (l k : list A) : comparison :=
  match l, k with
  | [], [] => Eq
  | [], _ :: _ => Lt
  | _ :: _, [] => Gt
  | x :: l, y :: k => cmp_then (cmp x y) (list_cmp cmp l k)
  end.

Lemma cmp_refl {A} (cmp : A → A → comparison) `{!TotalCmp cmp} x : cmp x x = Eq.
Proof. by apply (cmp_eq cmp). Qed.

Lemma cmp_trans {A} (cmp : A → A → comparison) `{!TotalCmp cmp} x y z :
  cmp x y ≠ Gt → cmp y z ≠ Gt → cmp x z ≠ Gt.
Proof.
  destruct (cmp x y) eqn:E1, (cmp y z) eqn:E2; try done; intros _ _.
  - apply (cmp_eq cmp) in E1 as ->. by rewrite E2.
  - apply (cmp_eq cmp) in E1 as ->. by rewrite E2.
  - apply (cmp_eq cmp) in E2 as <-. by rewrite E1.
  - by rewrite (cmp_lt_trans cmp x y z).
Qed.

Lemma cmp_antisym {A} (cmp : A → A → comparison) `{!TotalCmp cmp} x y :
  cmp x y ≠ Gt → cmp y x ≠ Gt → x = y.
Proof.
  intros H1 H2. rewrite (cmp_opp cmp x y) in H2. apply (cmp_eq cmp).
  by destruct (cmp x y).
Qed.

#[export] Instance N_compare_total : TotalCmp N.compare.
Proof.
  split; [apply N.compare_eq_iff | intros; apply N.compare_antisym | apply N.lt_trans].
Qed.
#[export] Instance nat_compare_total : TotalCmp Nat.compare.
Proof.
  split; [apply Nat.compare_eq_iff | intros; apply Nat.compare_antisym |].
  intros x y z. rewrite !Nat.compare_lt_iff. lia.
Qed.

#[export] Instance list_cmp_total {A} (cmp : A → A → comparison) `{!TotalCmp cmp} :
  TotalCmp (list_cmp cmp).
Proof.
  split.
  - intros l; induction l as [|x l IH]; intros [|y k]; cbn; try naive_solver.
    destruct (cmp x y) eqn:E; cbn.
    + apply (cmp_eq cmp) in E as ->. rewrite IH. naive_solver.
    + split; [done|]. intros [= -> ->]. by rewrite cmp_refl in E.
    + split; [done|]. intros [= -> ->]. by rewrite cmp_refl in E.
  - intros l; induction l as [|x l IH]; intros [|y k]; cbn; try done.
    rewrite (cmp_opp cmp x y), IH. by destruct (cmp x y).
  - intros l; induction l as [|x l IH]; intros [|y k] [|z m]; cbn; try done.
    destruct (cmp x y) eqn:E1, (cmp y z) eqn:E2; cbn; try done.
    + apply (cmp_eq cmp) in E1 as ->. rewrite E2; cbn. apply IH.
    + apply (cmp_eq cmp) in E1 as ->. by rewrite E2.
    + apply (cmp_eq cmp) in E2 as <-. by rewrite E1.
    + by rewrite (cmp_lt_trans cmp x y z).
Qed.

(** Case analysis on the integer comparisons of the goal, impossible branches
    closed by [lia]. *)
Ltac zcases :=
  repeat match goal with
  | |- context [(?a =? ?b)%Z] => destruct (Z.eqb_spec a b); try (exfalso; lia)
  | |- context [(?a <=? ?b)%Z] => destruct (Z.leb_spec a b); try (exfalso; lia)
  | |- context [(?a <? ?b)%Z] => destruct (Z.ltb_spec a b); try (exfalso; lia)
  end.
