(* ===== verification/RustStr.v ===== *)
(** * Rust strings

    A Rust [&str] or byte slice is Stdlib's [string], a sequence of bytes. This
    file models the standard-library string operations the crate calls
    ([is_ascii_digit], [strip_prefix], [trim], [get(..n)], [split],
    [to_ascii_lowercase], [parse], [Ord::cmp], number formatting) on bytes,
    UTF-8 included where an operation depends on it. *)

From Stdlib Require Import Ascii String ZArith Lia.
From stdpp Require Import base strings list numbers.
From S2P Require Import Prelude.

Open Scope string_scope.

(** ** Bytes *)

Definition code (c : ascii) : N := N_of_ascii c.
Definition bytes (s : string) : list ascii := list_ascii_of_string s.
Definition between (lo hi : N) (c : ascii) : bool := (lo <=? code c)%N && (code c <=? hi)%N.

Definition is_ascii_digit : ascii → bool := between 48 57.
Definition is_ascii_uppercase : ascii → bool := between 65 90.
Definition is_ascii_hexdigit (c : ascii) : bool :=
  is_ascii_digit c || between 97 102 c || between 65 70 c.
(** [byte.is_ascii_digit() || (b'a'..=b'f').contains(&byte)]. *)
Definition is_lower_hexdigit (c : ascii) : bool := is_ascii_digit c || between 97 102 c.

Definition is_ascii_alphanumeric (c : ascii) : bool := between 48 57 c || between 65 90 c || between 97 122 c.

Definition all_bytes (p : ascii → bool) (s : string) : bool := forallb p (bytes s).
Definition any_byte (p : ascii → bool) (s : string) : bool := existsb p (bytes s).
Definition is_ascii (s : string) : bool := all_bytes (between 0 127) s.
Definition is_empty (s : string) : bool := match s with "" => true | _ => false end.

Definition to_ascii_lowercase_byte (c : ascii) : ascii :=
  if is_ascii_uppercase c then ascii_of_N (code c + 32) else c.
Fixpoint to_ascii_lowercase (s : string) : string :=
  match s with
  | "" => ""
  | String c s => String (to_ascii_lowercase_byte c) (to_ascii_lowercase s)
  end.
Definition eq_ignore_ascii_case (a b : string) : bool :=
  to_ascii_lowercase a =?= to_ascii_lowercase b.

(** [str::cmp]: bytewise lexicographic. *)
Definition byte_cmp (a b : ascii) : comparison := N.compare (code a) (code b).
Definition str_cmp (a b : string) : comparison := list_cmp byte_cmp (bytes a) (bytes b).

(** ** Slices and prefixes *)

Fixpoint strip_prefix (p s : string) : option string :=
  match p, s with
  | "", _ => Some s
  | String a p, String b s => if a =?= b then strip_prefix p s else None
  | String _ _, "" => None
  end.

(** [&s[from..to]], in range. *)
Definition slice (s : string) (from to : nat) : string := String.substring from (to - from) s.

Fixpoint byte_at (s : string) (i : nat) : option ascii :=
  match s, i with
  | "", _ => None
  | String c _, 0 => Some c
  | String _ s, S i => byte_at s i
  end.

(** A UTF-8 continuation byte: no char boundary before it. *)
Definition is_continuation : ascii → bool := between 128 191.

(** [s.get(..n)]: [None] past the end or inside a character. *)
Definition get_to (s : string) (n : nat) : option string :=
  if (n =? String.length s)%nat then Some s
  else match byte_at s n with
       | Some c => if is_continuation c then None else Some (slice s 0 n)
       | None => None
       end.

Definition starts_with (p s : string) : bool :=
  match strip_prefix p s with Some _ => true | None => false end.
Definition ends_with (s p : string) : bool :=
  (String.length p <=? String.length s)%nat
  && (slice s (String.length s - String.length p) (String.length s) =?= p).

(** [s.find(pattern)], and [windows(n).position(|w| w == pattern)] on bytes. *)
Fixpoint position (pattern s : string) : option nat :=
  if starts_with pattern s then Some O
  else match s with "" => None | String _ s => S <$> position pattern s end.

(** [s.strip_suffix(p)]. *)
Definition strip_suffix (s p : string) : option string :=
  if ends_with s p then Some (slice s 0 (String.length s - String.length p)) else None.

(** [s.split_once(sep)] for a character: at its first occurrence. *)
Fixpoint split_once (sep : ascii) (s : string) : option (string * string) :=
  match s with
  | "" => None
  | String c s =>
      if c =?= sep then Some ("", s)
      else match split_once sep s with Some (l, r) => Some (String c l, r) | None => None end
  end.

(** [s.rsplit_once(sep)]: split at the last occurrence of [sep]. *)
Fixpoint rsplit_once (sep s : string) : option (string * string) :=
  match s with
  | "" => option_map (λ r, ("", r)) (strip_prefix sep "")
  | String c s' =>
      match rsplit_once sep s' with
      | Some (l, r) => Some (String c l, r)
      | None => option_map (λ r, ("", r)) (strip_prefix sep s)
      end
  end.

(** [s.split(sep)] for a one-byte separator: never empty. *)
Fixpoint split_byte (sep : ascii) (s : string) : list string :=
  match s with
  | "" => [""]
  | String c s =>
      if c =?= sep then "" :: split_byte sep s
      else match split_byte sep s with
           | part :: parts => String c part :: parts
           | [] => [String c ""]
           end
  end.

(** [s.trim_start_matches(p)] for a string pattern [p]. *)
Fixpoint trim_start_matches_fuel (fuel : nat) (p s : string) : string :=
  match fuel with
  | 0 => s
  | S fuel =>
      match p, strip_prefix p s with
      | String _ _, Some rest => trim_start_matches_fuel fuel p rest
      | _, _ => s
      end
  end.
Definition trim_start_matches (p s : string) : string :=
  trim_start_matches_fuel (String.length s) p s.

(** [String::from_utf8] succeeds on these bytes. *)
Fixpoint valid_utf8 (s : string) : bool :=
  match s with
  | "" => true
  | String a s1 =>
      if between 0 127 a then valid_utf8 s1
      else match s1 with
      | "" => false
      | String b s2 =>
          if between 194 223 a then is_continuation b && valid_utf8 s2
          else match s2 with
          | "" => false
          | String c s3 =>
              if between 224 239 a
              then (if between 224 224 a then between 160 191 b
                    else if between 237 237 a then between 128 159 b else is_continuation b)
                   && is_continuation c && valid_utf8 s3
              else match s3 with
              | "" => false
              | String d s4 =>
                  between 240 244 a
                  && (if between 240 240 a then between 144 191 b
                      else if between 244 244 a then between 128 143 b else is_continuation b)
                  && is_continuation c && is_continuation d && valid_utf8 s4
              end
          end
      end
  end.

(** ** Whitespace

    [char::is_whitespace] is the Unicode property White_Space, recognised here
    on its UTF-8 encodings. *)

Definition ws1 (a : ascii) : bool := between 9 13 a || between 32 32 a.
Definition ws2 (a b : ascii) : bool :=
  between 194 194 a && (between 133 133 b || between 160 160 b).
Definition ws3 (a b c : ascii) : bool :=
  (between 225 225 a && between 154 154 b && between 128 128 c)
  || (between 226 226 a && between 128 128 b
      && (between 128 138 c || between 168 169 c || between 175 175 c))
  || (between 226 226 a && between 129 129 b && between 159 159 c)
  || (between 227 227 a && between 128 128 b && between 128 128 c).

Fixpoint trim_start (s : string) : string :=
  match s with
  | "" => ""
  | String a s1 =>
      if ws1 a then trim_start s1
      else match s1 with
           | "" => s
           | String b s2 =>
               if ws2 a b then trim_start s2
               else match s2 with
                    | "" => s
                    | String c s3 => if ws3 a b c then trim_start s3 else s
                    end
           end
  end.

Fixpoint trim_end (s : string) : string :=
  match s with
  | "" => ""
  | String c s' => if is_empty (trim_start s) then "" else String c (trim_end s')
  end.

Definition trim (s : string) : string := trim_end (trim_start s).

(** ** Numbers *)

Definition digit_value (c : ascii) : Z := Z.of_N (code c) - 48.

(** The value of a string of ASCII digits. *)
Definition digits_value (s : string) : Z :=
  fold_left (λ acc c, 10 * acc + digit_value c)%Z (bytes s) 0%Z.

(** [s.parse::<uN>()] on a string of ASCII digits: an error on the empty
    string and on overflow. *)
Definition parse_uint (max : Z) (s : string) : option Z :=
  if is_empty s then None
  else let v := digits_value s in if (v <=? max)%Z then Some v else None.

(** [s.parse::<u64>()]: a plus sign may come first. *)
Definition parse_u64 (s : string) : option Z :=
  let digits := match s with String "+" rest => rest | _ => s end in
  if all_bytes is_ascii_digit digits then parse_uint u64_max digits else None.

Definition digit_char (d : Z) : ascii := ascii_of_N (Z.to_N (d + 48)).

(** Decimal digits of a non-negative number, [fuel] of them at most. *)
Fixpoint dec_digits (fuel : nat) (n : Z) (acc : string) : string :=
  let acc := String (digit_char (n mod 10)) acc in
  match fuel with
  | 0 => acc
  | S fuel => if (n <? 10)%Z then acc else dec_digits fuel (n / 10) acc
  end.

(** [n.to_string()] for a 64-bit integer: at most 20 digits. *)
Definition dec_string (n : Z) : string :=
  if (n <? 0)%Z then "-" +:+ dec_digits 20 (- n) "" else dec_digits 20 n "".

Fixpoint zeros (n : nat) : string :=
  match n with 0 => "" | S n => String "0" (zeros n) end.

(** [format!("{n:0width$}")]. *)
Definition zero_pad (width : nat) (n : Z) : string :=
  if (n <? 0)%Z
  then let body := dec_digits 20 (- n) "" in "-" +:+ zeros (width - 1 - String.length body) +:+ body
  else let body := dec_digits 20 n "" in zeros (width - String.length body) +:+ body.

(** [format!("{byte:02x}")] over a byte string. *)
Definition hex_digit (n : N) : ascii :=
  if (n <? 10)%N then ascii_of_N (48 + n) else ascii_of_N (87 + n).
Fixpoint lower_hex (s : string) : string :=
  match s with
  | "" => ""
  | String c s => String (hex_digit (code c / 16)) (String (hex_digit (code c mod 16)) (lower_hex s))
  end.

(** ** Lemmas *)

Lemma append_assoc (a b c : string) : ((a +:+ b) +:+ c = a +:+ (b +:+ c))%string.
Proof. unfold String.append. induction a as [|x a IH]; [done|]. fold String.append in *. by f_equal. Qed.

Lemma append_nil_r (a : string) : (a +:+ "" = a)%string.
Proof. unfold String.append. induction a as [|x a IH]; [done|]. fold String.append in *. by f_equal. Qed.

Lemma append_length (a b : string) :
  String.length (a +:+ b) = (String.length a + String.length b)%nat.
Proof.
  unfold String.append. induction a as [|x a IH]; [done|]. fold String.append in *. cbn. by f_equal.
Qed.

Lemma code_inj a b : code a = code b → a = b.
Proof. unfold code. intros H. by rewrite <-(ascii_N_embedding a), H, ascii_N_embedding. Qed.

#[export] Instance byte_cmp_total : TotalCmp byte_cmp.
Proof.
  split; unfold byte_cmp.
  - intros x y. rewrite N.compare_eq_iff. split; [apply code_inj | by intros ->].
  - intros. apply N.compare_antisym.
  - intros x y z. rewrite !N.compare_lt_iff. lia.
Qed.

Lemma bytes_inj a b : bytes a = bytes b → a = b.
Proof.
  unfold bytes. intros H. by rewrite <-(string_of_list_ascii_of_string a), H,
    string_of_list_ascii_of_string.
Qed.

#[export] Instance str_cmp_total : TotalCmp str_cmp.
Proof.
  split; unfold str_cmp.
  - intros x y. rewrite (cmp_eq (list_cmp byte_cmp)). split; [apply bytes_inj | by intros ->].
  - intros x y. apply (cmp_opp (list_cmp byte_cmp)).
  - intros x y z. apply (cmp_lt_trans (list_cmp byte_cmp)).
Qed.

Lemma all_bytes_cons p c s : all_bytes p (String c s) = p c && all_bytes p s.
Proof. reflexivity. Qed.

Lemma strip_prefix_app p s : strip_prefix p (p +:+ s) = Some s.
Proof.
  unfold String.append. induction p as [|c p IH]; [done|]. fold String.append in *. cbn.
  by rewrite bool_decide_true.
Qed.

Definition no_byte (c : ascii) (s : string) : Prop := any_byte (λ x, x =?= c) s = false.

Lemma starts_with_length p s : starts_with p s = true → (String.length p ≤ String.length s)%nat.
Proof.
  unfold starts_with. revert s. induction p as [|a p IH]; intros [|b s]; cbn; try lia; try done.
  case_bool_decide; [|done]. intros E. specialize (IH s E). lia.
Qed.

Lemma position_bound pattern s i :
  position pattern s = Some i → (i + String.length pattern ≤ String.length s)%nat.
Proof.
  revert i. induction s as [|c s IH]; intros i; cbn [position].
  - unfold starts_with. destruct (strip_prefix pattern "") as [r|] eqn:E; [|done]. intros [= <-].
    destruct pattern; [done|discriminate E].
  - destruct (starts_with pattern (String c s)) eqn:E.
    + intros [= <-]. by apply starts_with_length.
    + destruct (position pattern s) as [j|]; [|done]. intros [= <-]. specialize (IH j eq_refl). cbn. lia.
Qed.

Lemma substring_length n m s : String.length (String.substring n m s) = Nat.min m (String.length s - n).
Proof.
  revert n m. induction s as [|c s IH]; intros [|n] [|m]; cbn; try done; rewrite ?IH; lia.
Qed.
Lemma substring_zero_all n s : (String.length s ≤ n)%nat → String.substring 0 n s = s.
Proof. revert n. induction s as [|a s IH]; intros [|n] H; cbn in *; try done; [lia|]. by rewrite IH by lia. Qed.
Lemma substring_halves n m s :
  String.length s = (n + m)%nat → s = String.substring 0 n s +:+ String.substring n m s.
Proof.
  revert n. induction s as [|a s IH]; intros n H.
  - by destruct n, m.
  - destruct n as [|n].
    + symmetry. apply (substring_zero_all m (String a s)). lia.
    + cbn in H. rewrite (IH n) at 1 by lia. done.
Qed.

Lemma no_byte_cons c x s : no_byte c (String x s) ↔ x ≠ c ∧ no_byte c s.
Proof. unfold no_byte, any_byte. cbn. rewrite orb_false_iff, bool_decide_eq_false. done. Qed.
Lemma no_byte_app c a b : no_byte c (a +:+ b) ↔ no_byte c a ∧ no_byte c b.
Proof.
  induction a as [|x a IH]; cbn; [by split; [split|intros [_ ?]]|].
  change (String x a +:+ b) with (String x (a +:+ b)). rewrite !no_byte_cons, IH. tauto.
Qed.

Lemma strip_prefix_Some p s r : strip_prefix p s = Some r ↔ s = p +:+ r.
Proof.
  revert s. induction p as [|a p IH]; intros s; cbn; [naive_solver|].
  destruct s as [|b s]; [done|]. case_bool_decide as Hab; [subst|].
  - rewrite IH. change (String b p +:+ r) with (String b (p +:+ r)). naive_solver.
  - split; [done|]. change (String a p +:+ r) with (String a (p +:+ r)). congruence.
Qed.
Lemma starts_with_app p s : starts_with p (p +:+ s) = true.
Proof. unfold starts_with. by rewrite (proj2 (strip_prefix_Some p _ s)). Qed.
Lemma starts_with_inv p s : starts_with p s = true → ∃ r, s = p +:+ r.
Proof. unfold starts_with. destruct (strip_prefix p s) eqn:E; [|done]. apply strip_prefix_Some in E. eauto. Qed.

Lemma position_Some pattern s i :
  position pattern s = Some i → ∃ a b, s = a +:+ pattern +:+ b ∧ String.length a = i.
Proof.
  revert i. induction s as [|c s IH]; intros i; cbn [position];
    (destruct (starts_with pattern _) eqn:E; [intros [= <-]; apply starts_with_inv in E as [r ->]; by exists "", r|]);
    [done|].
  destruct (position pattern s) as [j|]; [|done]. intros [= <-]. destruct (IH j eq_refl) as (a & b & -> & <-).
  by exists (String c a), b.
Qed.

Lemma append_prefix a b c d :
  a +:+ b = c +:+ d → (∃ e, a = c +:+ e ∧ d = e +:+ b) ∨ (∃ e, c = a +:+ e ∧ b = e +:+ d ∧ e ≠ "").
Proof.
  revert c. induction a as [|x a IH]; intros [|y c] E.
  - left. by exists "".
  - right. exists (String y c). split; [done|]. by split; [exact E|].
  - left. exists (String x a). split; [done|]. exact (eq_sym E).
  - cbn in E. injection E as -> E. destruct (IH c E) as [(e & -> & ->)|(e & -> & -> & He)].
    + left. by exists e.
    + right. by exists e.
Qed.

Lemma slice_middle (a b c : string) :
  slice (a +:+ b +:+ c) (String.length a) (String.length a + String.length b) = b.
Proof.
  unfold slice. replace (String.length a + String.length b - String.length a)%nat with (String.length b) by lia.
  induction a as [|x a IH]; [|exact IH]. change ("" +:+ b +:+ c) with (b +:+ c).
  induction b as [|x b IH]; [by destruct c|].
  change (String x (String.substring 0 (String.length b) (b +:+ c)) = String x b). f_equal. exact IH.
Qed.

Lemma append_cons c s x : String c s +:+ x = String c (s +:+ x).
Proof. reflexivity. Qed.

Lemma append_inj_length a b x y :
  String.length a = String.length b → a +:+ x = b +:+ y → a = b ∧ x = y.
Proof.
  revert b. induction a as [|c a IH]; intros [|d b]; cbn [String.length]; try done.
  intros [= Hl]. rewrite !append_cons. intros [= -> E]. by destruct (IH _ Hl E) as [-> ->].
Qed.

(** ** More on prefixes, positions and slices *)

Lemma rsplit_byte c s :
  match rsplit_once (String c "") s with
  | Some (a, b) => s = a +:+ String c b ∧ no_byte c b
  | None => no_byte c s
  end.
Proof.
  induction s as [|x s IH]; [done|]. cbn [rsplit_once].
  destruct (rsplit_once _ s) as [[a b]|]; [destruct IH as [-> ?]; done|]. cbn [strip_prefix].
  case_bool_decide as E; cbn; [subst; done|]. apply no_byte_cons. done.
Qed.
Lemma starts_with_prefix p s t :
  (String.length p ≤ String.length s)%nat → starts_with p (s +:+ t) = starts_with p s.
Proof.
  intros Hl. destruct (starts_with p s) eqn:E.
  - apply starts_with_inv in E as [r ->]. rewrite append_assoc. apply starts_with_app.
  - apply not_true_is_false. intros [r Hr]%starts_with_inv.
    destruct (append_prefix _ _ _ _ Hr) as [(e & -> & _)|(e & -> & _ & Hn)].
    + by rewrite starts_with_app in E.
    + rewrite append_length in Hl. destruct e; [done|]. cbn in Hl. lia.
Qed.
Lemma position_app p s t i :
  (i + String.length p ≤ String.length s)%nat → position p (s +:+ t) = Some i ↔ position p s = Some i.
Proof.
  revert i. induction s as [|c s IH]; intros i Hl.
  - assert (p = "") as -> by (destruct p; [done|cbn in Hl; lia]). by destruct t.
  - rewrite append_cons. cbn [position]. rewrite <-(append_cons c s t), starts_with_prefix by lia.
    destruct (starts_with p (String c s)); [done|]. destruct i as [|i].
    + by destruct (position p s), (position p (s +:+ t)).
    + cbn in Hl. rewrite !fmap_Some. split; intros (j & E & [= <-]); exists i; (split; [apply IH; [lia|done]|done]).
Qed.
Lemma slice_app_l a b : slice (a +:+ b) 0 (String.length a) = a.
Proof. exact (slice_middle "" a b). Qed.
Lemma slice_app_r a b n : slice (a +:+ b) (String.length a) (String.length a + n) = slice b 0 n.
Proof.
  unfold slice. replace (String.length a + n - String.length a)%nat with n by lia. rewrite Nat.sub_0_r.
  induction a as [|x a IH]; [done|]. exact IH.
Qed.
Lemma slice_all s n : (String.length s ≤ n)%nat → slice s 0 n = s.
Proof. intros H. unfold slice. rewrite Nat.sub_0_r. by apply substring_zero_all. Qed.
Lemma slice_cut n s : (n ≤ String.length s)%nat → s = slice s 0 n +:+ slice s n (String.length s).
Proof. intros H. unfold slice. rewrite Nat.sub_0_r. apply substring_halves. lia. Qed.
Lemma class_excludes p c s : p c = false → all_bytes p s = true → no_byte c s.
Proof.
  intros Hp. induction s as [|x s IH]; [done|]. rewrite all_bytes_cons. intros [Hx Hs]%andb_true_iff.
  apply no_byte_cons. split; [congruence|by apply IH].
Qed.
Lemma position_miss p x s : starts_with p (String x s) = false → position p (String x s) = S <$> position p s.
Proof. intros H. cbn [position]. by rewrite H. Qed.
Lemma position_at_start c p s :
  starts_with (String c p) s = true → position (String c p) s = Some O.
Proof. intros H. destruct s; [done|]. cbn [position]. by rewrite H. Qed.
