(* ===== verification/Errors.v ===== *)
(** * [AttestationError]

    The error type of the attestation crate (error.rs). The text payload of a
    variant is the format string of the source with its placeholders left in, so
    that it names the failed guard; the values interpolated into the text are not
    carried. Variants with named fields keep them. *)

From Stdlib Require Import String ZArith.
From stdpp Require Import base strings.
From S2P Require Import Prelude RustStr.

Inductive AttestationError : Type :=
| Json (msg : string)
| NonCanonicalFloat
| UnsafeInteger (value : Z)
| InvalidEvidence (msg : string)
| InvalidCertificate (msg : string)
| MissingProviderReference (provider : string)
| MissingRouteReference (route_id : string)
| InvalidReferenceSignature
| InvalidArtifactSignature (msg : string)
| UnsupportedSignatureAlgorithm (alg : string)
| UnknownArtifactSigningKey (signer key_id : string)
| InvalidProviderRegistry (msg : string)
| InvalidRegistryUpdate (msg : string)
| WeakeningRegistryUpdate (msg : string)
| InvalidReferenceValuesUpdate (msg : string)
| WeakeningReferenceValuesUpdate (msg : string)
| InvalidPolicy (msg : string)
| MalformedVerdict (msg : string).

#[export] Instance AttestationError_eq_dec : EqDecision AttestationError.
Proof. solve_decision. Defined.

(** [Display]. *)
Definition error_to_string (e : AttestationError) : string :=
  match e with
  | Json m => "json serialization failed: " +:+ m
  | NonCanonicalFloat => "canonical JSON does not permit floating point numbers"
  | UnsafeInteger v =>
      "JSON integer " +:+ dec_string v +:+ " exceeds the cross-language safe integer limit"
  | InvalidEvidence m => "invalid fixture evidence: " +:+ m
  | InvalidCertificate m => "invalid X.509 certificate: " +:+ m
  | MissingProviderReference p => "reference values are missing provider " +:+ p
  | MissingRouteReference r => "reference values are missing route " +:+ r
  | InvalidReferenceSignature => "reference-values envelope signature metadata is incomplete"
  | InvalidArtifactSignature m => "artifact envelope signature is invalid: " +:+ m
  | UnsupportedSignatureAlgorithm a => "unsupported artifact signature algorithm " +:+ a
  | UnknownArtifactSigningKey s k => "unknown artifact signing key " +:+ s +:+ "/" +:+ k
  | InvalidProviderRegistry m => "provider registry is invalid: " +:+ m
  | InvalidRegistryUpdate m => "provider registry update is invalid: " +:+ m
  | WeakeningRegistryUpdate m => "provider registry update would weaken security: " +:+ m
  | InvalidReferenceValuesUpdate m => "reference values update is invalid: " +:+ m
  | WeakeningReferenceValuesUpdate m => "reference values update would weaken security: " +:+ m
  | InvalidPolicy m => "verification policy is invalid: " +:+ m
  | MalformedVerdict m => "verdict summary conflicts with check map: " +:+ m
  end%string.

Abbreviation Result := (result AttestationError).
