(* ===== verification/Collections.v ===== *)
(** * Vectors and ordered maps

    [Vec::sort] and [Vec::dedup] over a total order, and [BTreeMap<String, V>]
    as a [gmap] that is iterated in key order. *)

From Stdlib Require Import Ascii String ZArith Lia.
From stdpp Require Import base gmap strings list sorting numbers.
From S2P Require Import Prelude RustStr.

(** ** Sorting and deduplication *)

Section Sorting.
Context {A : Type} `{!EqDecision A} (cmp : A → A → comparison).

Definition cmp_le (x y : A) : Prop := cmp x y ≠ Gt.
Definition cmp_lt (x y : A) : Prop := cmp x y = Lt.

#[export] Instance cmp_le_dec x y : Decision (cmp_le x y).
Proof. unfold cmp_le. destruct (cmp x y); (left; done) || (right; congruence). Defined.

(** [v.sort()]: stable, which a total order makes unobservable. *)
Definition sort_by (l : list A) : list A := merge_sort cmp_le l.

(** [v.dedup()]: drop an element equal to the one before it. *)
Fixpoint dedup (l : list A) : list A :=
  match l with
  | [] => []
  | x :: l' =>
      match l' with
      | [] => [x]
      | y :: _ => if x =?= y then dedup l' else x :: dedup l'
      end
  end.

Lemma dedup_cons2 a b l :
  dedup (a :: b :: l) = if a =?= b then dedup (b :: l) else a :: dedup (b :: l).
Proof. reflexivity. Qed.

Lemma dedup_elem_of l x : x ∈ dedup l ↔ x ∈ l.
Proof.
  induction l as [|a [|b l] IH]; [done|done|].
  rewrite dedup_cons2. case_bool_decide as E.
  - subst. rewrite IH. set_solver.
  - rewrite elem_of_cons, IH. set_solver.
Qed.

Context `{!TotalCmp cmp}.

#[export] Instance cmp_le_trans : Transitive cmp_le.
Proof. intros x y z. by apply cmp_trans. Qed.
#[export] Instance cmp_le_total : Total cmp_le.
Proof. intros x y. unfold cmp_le. rewrite (cmp_opp cmp x y). destruct (cmp x y); naive_solver. Qed.
#[export] Instance cmp_le_antisym : AntiSymm (=) cmp_le.
Proof. intros x y. by apply cmp_antisym. Qed.

Lemma cmp_lt_le_ne x y : cmp_lt x y ↔ cmp_le x y ∧ x ≠ y.
Proof.
  unfold cmp_lt, cmp_le. destruct (cmp x y) eqn:E.
  - apply (cmp_eq cmp) in E. naive_solver.
  - split; [|done]. intros _. split; [done|]. intros ->. by rewrite cmp_refl in E.
  - naive_solver.
Qed.

Lemma sort_by_sorted l : StronglySorted cmp_le (sort_by l).
Proof. apply StronglySorted_merge_sort; apply _. Qed.
Lemma sort_by_perm l : sort_by l ≡ₚ l.
Proof. apply merge_sort_Permutation. Qed.

(** Sorting forgets the order of its input. *)
Lemma sort_by_perm_eq l k : l ≡ₚ k → sort_by l = sort_by k.
Proof.
  intros H. apply (StronglySorted_unique cmp_le); [apply sort_by_sorted..|].
  by rewrite !sort_by_perm.
Qed.

Lemma sort_by_id l : StronglySorted cmp_le l → sort_by l = l.
Proof.
  intros H. apply (StronglySorted_unique cmp_le); [apply sort_by_sorted | done |].
  apply sort_by_perm.
Qed.

Lemma dedup_strict l : StronglySorted cmp_le l → StronglySorted cmp_lt (dedup l).
Proof.
  induction l as [|a [|b l] IH]; intros H; [constructor|by repeat constructor|].
  inversion H as [|?? Hs Ha]; subst. rewrite dedup_cons2. case_bool_decide as E.
  - by apply IH.
  - constructor; [by apply IH|]. apply list.Forall_forall. intros x Hx. rewrite dedup_elem_of in Hx.
    apply cmp_lt_le_ne. rewrite list.Forall_forall in Ha. split; [by apply Ha|]. intros ->.
    assert (cmp_le b x) as Hbx.
    { apply elem_of_cons in Hx as [->|Hx]; [unfold cmp_le; by rewrite cmp_refl|].
      inversion Hs as [|?? _ Hb]; subst. rewrite list.Forall_forall in Hb. by apply Hb. }
    apply E. apply (anti_symm cmp_le); [apply Ha; constructor | done].
Qed.

Lemma dedup_id l : StronglySorted cmp_lt l → dedup l = l.
Proof.
  induction l as [|a [|b l] IH]; intros H; [done|done|].
  inversion H as [|?? Hs Ha]; subst. rewrite dedup_cons2. case_bool_decide as E.
  - subst. inversion Ha as [|?? Hab _]; subst. apply cmp_lt_le_ne in Hab. naive_solver.
  - f_equal. by apply IH.
Qed.

Lemma strict_sorted_le l : StronglySorted cmp_lt l → StronglySorted cmp_le l.
Proof.
  induction 1 as [|a l Hs IH Ha]; constructor; [done|].
  eapply Forall_impl; [|exact Ha]. intros x [? _]%cmp_lt_le_ne. done.
Qed.

Lemma strict_sorted_NoDup l : StronglySorted cmp_lt l → NoDup l.
Proof.
  induction 1 as [|a l Hs IH Ha]; constructor; [|done].
  intros Hin. rewrite list.Forall_forall in Ha. specialize (Ha a Hin).
  apply cmp_lt_le_ne in Ha. naive_solver.
Qed.

Lemma sorted_NoDup_strict l :
  StronglySorted cmp_le l → NoDup l → StronglySorted cmp_lt l.
Proof.
  induction 1 as [|a l Hs IH Ha]; intros Hn; [constructor|].
  apply list.NoDup_cons in Hn as [Hnin Hn]. constructor; [by apply IH|].
  apply list.Forall_forall. rewrite list.Forall_forall in Ha.
  intros x Hx. apply cmp_lt_le_ne. split; [by apply Ha|]. by intros ->.
Qed.

(** The source's test for a canonical vector: it equals its sorted,
    deduplicated copy. *)
Lemma sort_dedup_id l : dedup (sort_by l) = l ↔ StronglySorted cmp_lt l.
Proof.
  split.
  - intros <-. apply dedup_strict, sort_by_sorted.
  - intros H. rewrite sort_by_id by by apply strict_sorted_le. by apply dedup_id.
Qed.

(** Sorting and deduplicating keeps exactly the set of elements. *)
Lemma sort_dedup_set l k : (∀ x, x ∈ l ↔ x ∈ k) → dedup (sort_by l) = dedup (sort_by k).
Proof.
  intros H.
  assert (∀ l, StronglySorted cmp_lt (dedup (sort_by l))) as Hs
    by (intros; apply dedup_strict, sort_by_sorted).
  apply (StronglySorted_unique cmp_le); [by apply strict_sorted_le..|].
  apply NoDup_Permutation; [by apply strict_sorted_NoDup..|].
  intros x. rewrite !dedup_elem_of, !sort_by_perm. apply H.
Qed.

Lemma sort_dedup_idemp l : dedup (sort_by (dedup (sort_by l))) = dedup (sort_by l).
Proof. apply sort_dedup_id, dedup_strict, sort_by_sorted. Qed.

Lemma sort_dedup_elem_of l x : x ∈ dedup (sort_by l) ↔ x ∈ l.
Proof. rewrite dedup_elem_of. by rewrite sort_by_perm. Qed.
End Sorting.

(** ** Stable sorting by a key

    [v.sort_by_key(key)]: equal keys keep their order. *)

Section SortByKey.
Context {A : Type} (key : A → Z).

Fixpoint insert_by_key (x : A) (l : list A) : list A :=
  match l with
  | [] => [x]
  | y :: l' => if (key x <=? key y)%Z then x :: l else y :: insert_by_key x l'
  end.
Definition sort_by_key (l : list A) : list A := foldr insert_by_key [] l.

Lemma insert_by_key_perm x l : insert_by_key x l ≡ₚ x :: l.
Proof.
  induction l as [|y l IH]; [done|]. cbn. destruct (_ <=? _)%Z; [done|]. rewrite IH. apply Permutation_swap.
Qed.
Lemma sort_by_key_perm l : sort_by_key l ≡ₚ l.
Proof. induction l as [|x l IH]; [done|]. cbn. rewrite insert_by_key_perm. by constructor. Qed.

Definition key_le (a b : A) : Prop := (key a ≤ key b)%Z.
Lemma insert_by_key_sorted x l : StronglySorted key_le l → StronglySorted key_le (insert_by_key x l).
Proof.
  induction 1 as [|y l Hs IH Hy]; cbn; [repeat constructor|].
  destruct (Z.leb_spec (key x) (key y)) as [H|H].
  - constructor; [by constructor|]. constructor; [done|]. eapply list.Forall_impl; [exact Hy|].
    intros z. unfold key_le. lia.
  - constructor; [done|]. rewrite insert_by_key_perm. constructor; [unfold key_le; lia|done].
Qed.
Lemma sort_by_key_sorted l : StronglySorted key_le (sort_by_key l).
Proof. induction l; [constructor|]. by apply insert_by_key_sorted. Qed.

Lemma insert_by_key_stable k x l :
  List.filter (λ a, (key a =? k)%Z) (insert_by_key x l) = List.filter (λ a, (key a =? k)%Z) (x :: l).
Proof.
  induction l as [|y l IH]; [done|]. cbn [insert_by_key].
  destruct (Z.leb_spec (key x) (key y)) as [H|H]; [done|]. cbn [List.filter] in IH |- *. rewrite IH.
  destruct (Z.eqb_spec (key x) k), (Z.eqb_spec (key y) k); [lia|done..].
Qed.
Lemma sort_by_key_stable k l :
  List.filter (λ a, (key a =? k)%Z) (sort_by_key l) = List.filter (λ a, (key a =? k)%Z) l.
Proof.
  induction l as [|x l IH]; [done|]. change (sort_by_key (x :: l)) with (insert_by_key x (sort_by_key l)).
  rewrite insert_by_key_stable. cbn. by rewrite IH.
Qed.
End SortByKey.

(** ** Least elements

    [Iterator::min_by_key]: the first element that no other precedes. [before] is the
    strict order of the keys. *)

Section MinBy.
Context {A : Type} (before : A → A → bool).

Definition least (best : option A) (e : A) : option A :=
  match best with
  | Some b => if before e b then Some e else Some b
  | None => Some e
  end.
Definition min_by (l : list A) : option A := fold_left least l None.

Class KeyOrder : Prop := {
  key_asym x y : before x y = true → before y x = false;
  key_trans x y z : before y x = false → before z y = false → before z x = false;
}.

Lemma least_Some {order : KeyOrder} l best r :
  fold_left least l best = Some r →
  (r ∈ l ∨ best = Some r) ∧ (∀ e, e ∈ l ∨ best = Some e → before e r = false).
Proof.
  assert (∀ x, before x x = false) as Hrefl.
  { intros x. destruct (before x x) eqn:E; [|done]. by rewrite (key_asym x x E) in E. }
  revert best. induction l as [|x l IH]; intros best H; cbn in H.
  - subst. split; [by right|]. intros e [He|[= <-]]; [by apply elem_of_nil in He|auto].
  - apply IH in H as [Hin Hle]. unfold least in *. setoid_rewrite elem_of_cons. destruct best as [b|].
    + destruct (before x b) eqn:E.
      * pose proof (Hle x (or_intror eq_refl)). split; [naive_solver|]. intros e [[->|He]|[= <-]]; auto.
        eapply key_trans; [done|]. by apply key_asym.
      * pose proof (Hle b (or_intror eq_refl)). split; [naive_solver|]. intros e [[->|He]|[= <-]]; auto.
        by eapply key_trans.
    + split; [naive_solver|]. intros e [[->|He]|?]; auto; done.
Qed.
Lemma min_by_Some {order : KeyOrder} l r : min_by l = Some r → r ∈ l ∧ ∀ e, e ∈ l → before e r = false.
Proof. intros [[Hin|?] Hle]%least_Some; [|done]. split; [done|]. auto. Qed.
Lemma min_by_exists l : l ≠ [] → ∃ r, min_by l = Some r.
Proof.
  unfold min_by. assert (∀ best, (l ≠ [] ∨ best ≠ None) → ∃ r, fold_left least l best = Some r) as H.
  { induction l as [|x l' IH]; intros best H; cbn; [destruct best; naive_solver|].
    apply IH. right. unfold least. destruct best; repeat case_match; done. }
  intros Hl. apply H. by left.
Qed.
Lemma min_by_None l : min_by l = None → l = [].
Proof. intros H. destruct l as [|x l]; [done|]. destruct (min_by_exists (x :: l)) as [r Hr]; [done|congruence]. Qed.
End MinBy.

#[export] Instance number_order {A} (key : A → Z) : KeyOrder (λ x y, (key x <? key y)%Z).
Proof. split; intros *; rewrite ?Z.ltb_lt, ?Z.ltb_ge; lia. Qed.

(** ** [BTreeMap<String, V>] *)

Definition key_cmp {V} (p q : string * V) : comparison := str_cmp p.1 q.1.

(** The entries in key order. *)
Definition btree_iter {V} (m : gmap string V) : list (string * V) :=
  sort_by key_cmp (map_to_list m).

Lemma btree_iter_elem_of {V} (m : gmap string V) k v : (k, v) ∈ btree_iter m ↔ m !! k = Some v.
Proof.
  unfold btree_iter, sort_by. rewrite merge_sort_Permutation. apply elem_of_map_to_list.
Qed.

Lemma btree_iter_length {V} (m : gmap string V) : length (btree_iter m) = size m.
Proof.
  unfold btree_iter, sort_by. rewrite merge_sort_Permutation. apply length_map_to_list.
Qed.

Lemma btree_for_each {E V} (f : string * V → result E unit) (m : gmap string V) :
  for_each f (btree_iter m) = Ok tt ↔ ∀ k v, m !! k = Some v → f (k, v) = Ok tt.
Proof.
  rewrite for_each_Ok, list.Forall_forall. split.
  - intros H k v Hk. by apply H, btree_iter_elem_of.
  - intros H [k v] Hk. by apply H, btree_iter_elem_of.
Qed.

(** [map.iter().any(..)]. *)
Definition btree_any {V} (f : string * V → bool) (m : gmap string V) : bool :=
  existsb f (btree_iter m).

Lemma btree_any_true {V} (f : string * V → bool) (m : gmap string V) :
  btree_any f m = true ↔ ∃ k v, m !! k = Some v ∧ f (k, v) = true.
Proof.
  unfold btree_any. rewrite existsb_exists. split.
  - intros ([k v] & Hin & Hf). exists k, v. split; [|done].
    by apply btree_iter_elem_of, list_elem_of_In.
  - intros (k & v & Hk & Hf). exists (k, v). split; [|done].
    by apply list_elem_of_In, btree_iter_elem_of.
Qed.

Lemma btree_any_false {V} (f : string * V → bool) (m : gmap string V) :
  btree_any f m = false ↔ ∀ k v, m !! k = Some v → f (k, v) = false.
Proof.
  rewrite <-not_true_iff_false, btree_any_true. split.
  - intros H k v Hk. apply not_true_iff_false. naive_solver.
  - intros H (k & v & Hk & Hf). by rewrite H in Hf.
Qed.
