(* ===== verification/Timestamps.v ===== *)
(** * UTC timestamps

    The civil-calendar arithmetic and the RFC 3339 subset of the attestation
    crate (verifier.rs: [parse_utc_timestamp_millis],
    [format_utc_timestamp_millis] and their helpers). Division and remainder are
    Rust's truncating ones. *)

From Stdlib Require Import Ascii String ZArith Lia.
From stdpp Require Import base strings list numbers.
From S2P Require Import Prelude RustStr Errors.

Open Scope Z_scope.

(** ** Definitions *)

Definition is_leap_year (year : Z) : bool :=
  ((Z.rem year 4 =? 0) && negb (Z.rem year 100 =? 0)) || (Z.rem year 400 =? 0).

Definition days_in_month (year month : Z) : Z :=
  match month with
  | 1 | 3 | 5 | 7 | 8 | 10 | 12 => 31
  | 4 | 6 | 9 | 11 => 30
  | 2 => if is_leap_year year then 29 else 28
  | _ => 0
  end.

Definition days_from_civil (year month day : Z) : Z :=
  let year := year - (if month <=? 2 then 1 else 0) in
  let era := Z.quot (if 0 <=? year then year else year - 399) 400 in
  let year_of_era := year - era * 400 in
  let month_prime := month + (if 2 <? month then -3 else 9) in
  let day_of_year := Z.quot (153 * month_prime + 2) 5 + day - 1 in
  let day_of_era :=
    year_of_era * 365 + Z.quot year_of_era 4 - Z.quot year_of_era 100 + day_of_year in
  era * 146097 + day_of_era - 719468.

Definition civil_from_days (days : Z) : Z * Z * Z :=
  let days := days + 719468 in
  let era := Z.quot (if 0 <=? days then days else days - 146096) 146097 in
  let day_of_era := days - era * 146097 in
  let year_of_era :=
    Z.quot (day_of_era - Z.quot day_of_era 1460 + Z.quot day_of_era 36524
            - Z.quot day_of_era 146096) 365 in
  let year := year_of_era + era * 400 in
  let day_of_year :=
    day_of_era - (365 * year_of_era + Z.quot year_of_era 4 - Z.quot year_of_era 100) in
  let month_prime := Z.quot (5 * day_of_year + 2) 153 in
  let day := day_of_year - Z.quot (153 * month_prime + 2) 5 + 1 in
  let month := month_prime + (if month_prime <? 10 then 3 else -9) in
  let year := year + (if month <=? 2 then 1 else 0) in
  (year, month, day).

Definition parse_digits (value : string) : Result Z :=
  if all_bytes is_ascii_digit value
  then ok_or (parse_uint u64_max value) (InvalidEvidence "number is out of range")
  else Err (InvalidEvidence "{value} contains non-digit characters").

Definition not_rfc3339 : AttestationError :=
  InvalidEvidence "timestamp {timestamp} is not canonical UTC RFC3339".

(** The split of a timestamp into its first 19 bytes and its milliseconds. *)
Definition timestamp_parts (timestamp : string) : Result (string * Z) :=
  if (String.length timestamp =? 20)%nat && ends_with timestamp "Z"
  then Ok (slice timestamp 0 19, 0)
  else if (String.length timestamp =? 24)%nat && ends_with timestamp "Z"
          && (byte_at timestamp 19 =?= Some "."%char)
  then millis ← parse_digits (slice timestamp 20 23); Ok (slice timestamp 0 19, millis)
  else Err not_rfc3339.

(** The range checks on the parsed fields, and the instant they denote. *)
Definition timestamp_of_fields (year month day hour minute second millis : Z) : Result Z :=
  bail (InvalidEvidence "timestamp {timestamp} contains an out-of-range component")
    when negb ((1 <=? month) && (month <=? 12)) || (day =? 0)
         || (days_in_month year month <? day) || (23 <? hour) || (59 <? minute) || (59 <? second);
  let days := days_from_civil year month day in
  bail (InvalidEvidence "timestamp {timestamp} is before the Unix epoch") when days <? 0;
  let seconds := days * 86400 + (hour * 3600 + minute * 60 + second) in
  Ok (saturating_add (saturating_mul seconds 1000) millis).

Definition parse_utc_timestamp_millis (timestamp : string) : Result Z :=
  bail not_rfc3339 when negb (is_ascii timestamp);
  parts ← timestamp_parts timestamp;
  let '(main, millis) := parts in
  bail not_rfc3339
    when negb (slice main 4 5 =?= "-") || negb (slice main 7 8 =?= "-")
         || negb (slice main 10 11 =?= "T") || negb (slice main 13 14 =?= ":")
         || negb (slice main 16 17 =?= ":");
  year ← parse_digits (slice main 0 4);
  month ← parse_digits (slice main 5 7);
  day ← parse_digits (slice main 8 10);
  hour ← parse_digits (slice main 11 13);
  minute ← parse_digits (slice main 14 16);
  second ← parse_digits (slice main 17 19);
  timestamp_of_fields year month day hour minute second millis.

Definition format_utc_timestamp_millis (epoch_millis : Z) : string :=
  let total_seconds := Z.quot epoch_millis 1000 in
  let millis := Z.rem epoch_millis 1000 in
  let days := Z.quot total_seconds 86400 in
  let seconds_of_day := Z.rem total_seconds 86400 in
  let hour := Z.quot seconds_of_day 3600 in
  let minute := Z.quot (Z.rem seconds_of_day 3600) 60 in
  let second := Z.rem seconds_of_day 60 in
  let '(year, month, day) := civil_from_days days in
  let main :=
    (zero_pad 4 year +:+ "-" +:+ zero_pad 2 month +:+ "-" +:+ zero_pad 2 day +:+ "T"
     +:+ zero_pad 2 hour +:+ ":" +:+ zero_pad 2 minute +:+ ":" +:+ zero_pad 2 second)%string in
  if millis =? 0 then (main +:+ "Z")%string
  else (main +:+ "." +:+ zero_pad 3 millis +:+ "Z")%string.

(** The last instant of year 9999 in milliseconds, plus one. *)
Definition end_of_year_9999 : Z := 253402300800000.

Example parse_epoch : parse_utc_timestamp_millis "1970-01-01T00:00:00Z" = Ok 0.
Proof. vm_compute. reflexivity. Qed.
Example parse_leap : parse_utc_timestamp_millis "2024-02-29T12:34:56.789Z" = Ok 1709210096789.
Proof. vm_compute. reflexivity. Qed.
Example parse_bad_leap :
  is_ok (parse_utc_timestamp_millis "2023-02-29T12:34:56.789Z") = false.
Proof. vm_compute. reflexivity. Qed.
Example format_leap : format_utc_timestamp_millis 1709210096789 = "2024-02-29T12:34:56.789Z"%string.
Proof. vm_compute. reflexivity. Qed.
Example format_y10k : format_utc_timestamp_millis end_of_year_9999 = "10000-01-01T00:00:00Z"%string.
Proof. vm_compute. reflexivity. Qed.

(** ** The calendar

    Years here start in March, [S y] is the first day of year [y] of a 400-year
    era, and [year_of] the estimate the code inverts it with. *)

Definition year_start (y : Z) : Z := 365 * y + y / 4 - y / 100.
Definition year_of (doe : Z) : Z :=
  (doe - doe / 1460 + doe / 36524 - doe / 146096) / 365.

Lemma year_of_mono a b : 0 ≤ a ≤ b → year_of a ≤ year_of b.
Proof. intros H. unfold year_of. apply Z.div_le_mono; [lia|]. Z.div_mod_to_equations; lia. Qed.

Definition year_of_check (y : Z) : bool :=
  (year_of (year_start y) =? y)
  && (year_of ((if y =? 399 then 146097 else year_start (y + 1)) - 1) =? y).

Lemma year_of_endpoints y : 0 ≤ y < 400 → year_of_check y = true.
Proof.
  intros Hy.
  assert (forallb (λ n, year_of_check (Z.of_nat n)) (seq 0 400) = true) as H
    by (vm_compute; reflexivity).
  rewrite forallb_forall in H. specialize (H (Z.to_nat y)).
  rewrite Z2Nat.id in H by lia. apply H, in_seq. lia.
Qed.

(** The estimate is exact within a year: the days of year [y] of an era are
    those from [year_start y] to the day before [year_start (y + 1)]. *)
Lemma year_of_exact y doe :
  0 ≤ y < 400 → year_start y ≤ doe →
  doe < (if y =? 399 then 146097 else year_start (y + 1)) → year_of doe = y.
Proof.
  intros Hy Hlo Hhi. pose proof (year_of_endpoints y Hy) as H.
  unfold year_of_check in H. bools. destruct H as [H1 H2].
  assert (0 ≤ year_start y) by (unfold year_start; Z.div_mod_to_equations; lia).
  pose proof (year_of_mono (year_start y) doe). 
  pose proof (year_of_mono doe ((if y =? 399 then 146097 else year_start (y + 1)) - 1)). lia.
Qed.

Lemma year_of_spec doe :
  0 ≤ doe < 146097 →
  0 ≤ year_of doe < 400 ∧ year_start (year_of doe) ≤ doe
  ∧ doe < (if year_of doe =? 399 then 146097 else year_start (year_of doe + 1)).
Proof.
  intros H.
  assert (∃ y, 0 ≤ y < 400 ∧ year_start y ≤ doe
               ∧ doe < (if y =? 399 then 146097 else year_start (y + 1))) as (y & Hy & Hl & Hh).
  { pose (c := Z.min (doe / 36524) 3).
    pose (q := Z.min ((doe - 36524 * c) / 1461) 24).
    pose (r := Z.min ((doe - 36524 * c - 1461 * q) / 365) 3).
    exists (100 * c + 4 * q + r).
    assert (0 ≤ c ≤ 3) by (unfold c; Z.div_mod_to_equations; lia).
    assert (36524 * c ≤ doe ∧ (c = 3 ∨ doe < 36524 * (c+1))) by (unfold c; Z.div_mod_to_equations; lia).
    clearbody c.
    assert (0 ≤ q ≤ 24) by (unfold q; Z.div_mod_to_equations; lia).
    assert (36524 * c + 1461 * q ≤ doe ∧ (q = 24 ∨ doe < 36524 * c + 1461 * (q+1)))
      by (unfold q; Z.div_mod_to_equations; lia).
    clearbody q.
    assert (0 ≤ r ≤ 3) by (unfold r; Z.div_mod_to_equations; lia).
    assert (36524 * c + 1461 * q + 365 * r ≤ doe
            ∧ (r = 3 ∨ doe < 36524 * c + 1461 * q + 365 * (r + 1)))
      by (unfold r; Z.div_mod_to_equations; lia).
    clearbody r. unfold year_start.
    destruct (Z.eqb_spec (100 * c + 4 * q + r) 399); Z.div_mod_to_equations; lia. }
  by rewrite (year_of_exact y doe).
Qed.

Lemma civil_from_days_eq days :
  0 ≤ days →
  civil_from_days days =
    let n := days + 719468 in
    let era := n / 146097 in
    let doe := n mod 146097 in
    let yoe := year_of doe in
    let doy := doe - year_start yoe in
    let mp := (5 * doy + 2) / 153 in
    let month := mp + (if mp <? 10 then 3 else -9) in
    (yoe + era * 400 + (if month <=? 2 then 1 else 0), month, doy - (153 * mp + 2) / 5 + 1).
Proof.
  intros H. unfold civil_from_days.
  rewrite (proj2 (Z.leb_le 0 (days + 719468))) by lia.
  rewrite (Z.quot_div_nonneg (days + 719468)) by lia.
  replace (days + 719468 - (days + 719468) / 146097 * 146097) with ((days + 719468) mod 146097)
    by (Z.div_mod_to_equations; lia).
  pose proof (Z.mod_pos_bound (days + 719468) 146097 ltac:(lia)) as Hd.
  pose proof (year_of_spec _ Hd) as (Hy & Hs & _).
  set (doe := (days + 719468) mod 146097) in *. cbv zeta.
  rewrite !(Z.quot_div_nonneg doe) by lia.
  rewrite (Z.quot_div_nonneg (doe - doe / 1460 + doe / 36524 - doe / 146096))
    by (Z.div_mod_to_equations; lia).
  change ((doe - doe / 1460 + doe / 36524 - doe / 146096) / 365) with (year_of doe).
  rewrite !(Z.quot_div_nonneg (year_of doe)) by lia.
  change (365 * year_of doe + year_of doe / 4 - year_of doe / 100) with (year_start (year_of doe)).
  set (doy := doe - year_start (year_of doe)) in *.
  rewrite (Z.quot_div_nonneg (5 * doy + 2)) by lia.
  rewrite (Z.quot_div_nonneg (153 * _ + 2)) by (Z.div_mod_to_equations; lia).
  reflexivity.
Qed.

Lemma days_from_civil_eq year month day :
  0 ≤ year → 1 ≤ month ≤ 12 → (month ≤ 2 → 1 ≤ year) →
  days_from_civil year month day =
    let y := year - (if month <=? 2 then 1 else 0) in
    let mp := month + (if 2 <? month then -3 else 9) in
    y / 400 * 146097 + (year_start (y mod 400) + ((153 * mp + 2) / 5 + day - 1)) - 719468.
Proof.
  intros Hy Hm Hmy. unfold days_from_civil. cbv zeta.
  set (y := year - (if month <=? 2 then 1 else 0)).
  assert (0 ≤ y) by (unfold y; destruct (Z.leb_spec month 2); lia). clearbody y.
  rewrite (proj2 (Z.leb_le 0 y)) by lia.
  rewrite (Z.quot_div_nonneg y 400) by lia.
  replace (y - y / 400 * 400) with (y mod 400) by (Z.div_mod_to_equations; lia).
  pose proof (Z.mod_pos_bound y 400 ltac:(lia)).
  rewrite !(Z.quot_div_nonneg (y mod 400)) by lia.
  rewrite (Z.quot_div_nonneg (153 * _ + 2)) by (destruct (Z.ltb_spec 2 month); lia).
  unfold year_start. lia.
Qed.

Lemma is_leap_year_mod year :
  0 ≤ year →
  is_leap_year year = ((year mod 4 =? 0) && negb (year mod 100 =? 0)) || (year mod 400 =? 0).
Proof. intros. unfold is_leap_year. by rewrite !Z.rem_mod_nonneg by lia. Qed.

(** The days of March-year [y]: 366 exactly when the February that ends it is
    in a leap year. *)
Lemma year_length y :
  0 ≤ y < 400 →
  (if y =? 399 then 146097 else year_start (y + 1)) - year_start y
  = 365 + Z.b2z (((y + 1) mod 4 =? 0) && negb ((y + 1) mod 100 =? 0) || ((y + 1) mod 400 =? 0)).
Proof.
  intros. unfold year_start. destruct (Z.eqb_spec y 399) as [->|]; [reflexivity|].
  destruct (Z.eqb_spec ((y + 1) mod 4) 0), (Z.eqb_spec ((y + 1) mod 100) 0),
    (Z.eqb_spec ((y + 1) mod 400) 0); cbn; Z.div_mod_to_equations; lia.
Qed.

Lemma days_in_month_cases year month :
  1 ≤ month ≤ 12 →
  days_in_month year month =
    if month =? 2 then 28 + Z.b2z (is_leap_year year)
    else if (month =? 4) || (month =? 6) || (month =? 9) || (month =? 11) then 30 else 31.
Proof.
  intros. unfold days_in_month.
  assert (month = 1 ∨ month = 2 ∨ month = 3 ∨ month = 4 ∨ month = 5 ∨ month = 6 ∨ month = 7
          ∨ month = 8 ∨ month = 9 ∨ month = 10 ∨ month = 11 ∨ month = 12) as Hm by lia.
  destruct (is_leap_year year); destruct_or! Hm; subst; reflexivity.
Qed.

(** A calendar date, as the parser accepts it. *)
Definition valid_date (year month day : Z) : Prop :=
  1 ≤ month ≤ 12 ∧ 1 ≤ day ≤ days_in_month year month.

(** The month of a day of the March-year, and the day within it. *)
Lemma month_split doy :
  0 ≤ doy ≤ 365 →
  let mp := (5 * doy + 2) / 153 in
  0 ≤ mp ≤ 11 ∧ (153 * mp + 2) / 5 ≤ doy < (153 * (mp + 1) + 2) / 5.
Proof.
  intros H mp. assert (153 * mp ≤ 5 * doy + 2 < 153 * mp + 153) as Hmp
    by (unfold mp; Z.div_mod_to_equations; lia).
  clearbody mp. repeat split; Z.div_mod_to_equations; lia.
Qed.

Lemma month_join mp d :
  0 ≤ mp ≤ 11 → (153 * mp + 2) / 5 ≤ d < (153 * (mp + 1) + 2) / 5 → (5 * d + 2) / 153 = mp.
Proof. intros. Z.div_mod_to_equations; lia. Qed.

(** A date of March-year [y], month index [mp] counted from March. *)
Lemma valid_march_date y mp d :
  0 ≤ y → 0 ≤ mp ≤ 11 → 1 ≤ d →
  let month := mp + (if mp <? 10 then 3 else -9) in
  let year := y + (if month <=? 2 then 1 else 0) in
  valid_date year month d ↔
  (153 * mp + 2) / 5 + d - 1 < (153 * (mp + 1) + 2) / 5
  ∧ (mp = 11 → d ≤ 28 + Z.b2z (is_leap_year (y + 1))).
Proof.
  intros Hy Hmp Hd.
  assert (mp = 0 ∨ mp = 1 ∨ mp = 2 ∨ mp = 3 ∨ mp = 4 ∨ mp = 5 ∨ mp = 6 ∨ mp = 7 ∨ mp = 8
          ∨ mp = 9 ∨ mp = 10 ∨ mp = 11) as Hm by lia.
  cbv zeta. unfold valid_date.
  destruct_or! Hm; subst mp; zcases; rewrite days_in_month_cases by lia; zcases; cbn [orb];
    try destruct (is_leap_year (y + 1)); cbn [Z.b2z]; Z.div_mod_to_equations; lia.
Qed.

Lemma leap_shift y :
  0 ≤ y → is_leap_year (y + 1) =
  ((y mod 400 + 1) mod 4 =? 0) && negb ((y mod 400 + 1) mod 100 =? 0)
  || ((y mod 400 + 1) mod 400 =? 0).
Proof.
  intros. rewrite is_leap_year_mod by lia.
  assert ((y + 1) mod 4 = (y mod 400 + 1) mod 4) as -> by (Z.div_mod_to_equations; lia).
  assert ((y + 1) mod 100 = (y mod 400 + 1) mod 100) as -> by (Z.div_mod_to_equations; lia).
  by assert ((y + 1) mod 400 = (y mod 400 + 1) mod 400) as -> by (Z.div_mod_to_equations; lia).
Qed.

(** Every day number from the epoch on is a date, and that date has it. *)
Lemma civil_from_days_valid days :
  0 ≤ days →
  let '(year, month, day) := civil_from_days days in
  1970 ≤ year ∧ valid_date year month day ∧ days_from_civil year month day = days.
Proof.
  intros H. rewrite civil_from_days_eq by done. cbv zeta.
  pose proof (Z.mod_pos_bound (days + 719468) 146097 ltac:(lia)) as Hd.
  pose proof (Z.div_mod (days + 719468) 146097 ltac:(lia)) as Hdm.
  pose proof (year_of_spec _ Hd) as (Hy & Hs & Hh).
  set (doe := (days + 719468) mod 146097) in *.
  set (era := (days + 719468) / 146097) in *.
  assert (4 ≤ era) as He by (unfold era; Z.div_mod_to_equations; lia).
  pose proof (year_length (year_of doe) Hy) as Hlen.
  set (yoe := year_of doe) in *. clearbody yoe.
  set (doy := doe - year_start yoe) in *.
  assert ((yoe + era * 400) mod 400 = yoe) as Hmod by (Z.div_mod_to_equations; lia).
  assert ((yoe + era * 400) / 400 = era) as Hdiv by (Z.div_mod_to_equations; lia).
  pose proof (leap_shift (yoe + era * 400) ltac:(lia)) as Hleap. rewrite Hmod in Hleap.
  rewrite <-Hleap in Hlen.
  assert (0 ≤ doy < 365 + Z.b2z (is_leap_year (yoe + era * 400 + 1))) as Hdoy by lia.
  assert (doy ≤ 365) as Hdoy365 by (destruct (is_leap_year _); cbn in Hdoy; lia).
  destruct (month_split doy ltac:(lia)) as [Hmp Hday].
  set (mp := (5 * doy + 2) / 153) in *. clearbody mp.
  assert (year_start yoe + doy = doe) as Hdoe by lia.
  clearbody doy doe era. subst doe.
  assert (1970 ≤ yoe + era * 400 + (if mp + (if mp <? 10 then 3 else -9) <=? 2 then 1 else 0)) as H1970.
  { assert (yoe + era * 400 ≤ 1969 → year_start yoe ≤ 134774)
      by (unfold year_start; Z.div_mod_to_equations; lia).
    assert (mp ≤ 9 → (153 * (mp + 1) + 2) / 5 ≤ 306) by (Z.div_mod_to_equations; lia).
    assert (yoe + era * 400 ≤ 1968 → year_start yoe ≤ 134409)
      by (unfold year_start; Z.div_mod_to_equations; lia).
    destruct (Z.ltb_spec mp 10); zcases; lia. }
  split; [done|]. split.
  - apply valid_march_date; [lia..|]. split; [lia|]. intros ->. change ((153 * 11 + 2) / 5) with 337 in *. lia.
  - rewrite days_from_civil_eq by (destruct (Z.ltb_spec mp 10); zcases; lia). cbv zeta.
    destruct (Z.ltb_spec mp 10); zcases.
    + replace (yoe + era * 400 + 0 - 0) with (yoe + era * 400) by lia.
      rewrite Hdiv, Hmod. replace (mp + 3 + -3) with mp by lia. lia.
    + replace (yoe + era * 400 + 1 - 1) with (yoe + era * 400) by lia.
      rewrite Hdiv, Hmod. replace (mp + -9 + 9) with mp by lia. lia.
Qed.

(** Every date from 1970 on is the date of its day number. *)
Lemma civil_from_days_from_civil year month day :
  1970 ≤ year → valid_date year month day →
  civil_from_days (days_from_civil year month day) = (year, month, day).
Proof.
  intros Hy Hv. pose proof Hv as [Hm Hd].
  set (mp := month + (if 2 <? month then -3 else 9)).
  set (y := year - (if month <=? 2 then 1 else 0)).
  assert (0 ≤ mp ≤ 11 ∧ month = mp + (if mp <? 10 then 3 else -9)) as [Hmp Hmonth].
  { unfold mp. destruct (Z.ltb_spec 2 month).
    - destruct (Z.ltb_spec (month + -3) 10); lia.
    - destruct (Z.ltb_spec (month + 9) 10); lia. }
  assert (1969 ≤ y ∧ (mp < 10 → 1970 ≤ y) ∧ year = y + (if month <=? 2 then 1 else 0))
    as (Hy' & Hy1 & Hyear).
  { unfold y, mp. zcases; lia. }
  assert (days_from_civil year month day
          = y / 400 * 146097 + (year_start (y mod 400) + ((153 * mp + 2) / 5 + day - 1)) - 719468)
    as Hdays by (rewrite days_from_civil_eq by lia; reflexivity).
  rewrite Hyear, Hmonth in Hv. apply valid_march_date in Hv as [Hmd Hleap]; [|lia..].
  clearbody mp y. rewrite leap_shift in Hleap by lia.
  pose proof (Z.mod_pos_bound y 400 ltac:(lia)) as Hyoe.
  pose proof (year_length (y mod 400) Hyoe) as Hlen.
  set (doy := (153 * mp + 2) / 5 + day - 1) in *.
  assert (0 ≤ doy < 365 + Z.b2z (((y mod 400 + 1) mod 4 =? 0) && negb ((y mod 400 + 1) mod 100 =? 0)
                                  || ((y mod 400 + 1) mod 400 =? 0))) as Hdoy.
  { split; [unfold doy; Z.div_mod_to_equations; lia|].
    set (lp := Z.b2z _) in *. assert (0 ≤ lp) by (unfold lp; destruct (_ || _); cbn; lia).
    clearbody lp. destruct (Z.eq_dec mp 11) as [->|].
    - unfold doy. change ((153 * 11 + 2) / 5) with 337 in *. specialize (Hleap eq_refl). lia.
    - assert ((153 * (mp + 1) + 2) / 5 ≤ 337) by (Z.div_mod_to_equations; lia). lia. }
  assert (0 ≤ year_start (y mod 400)) by (unfold year_start; Z.div_mod_to_equations; lia).
  set (doe := year_start (y mod 400) + doy) in *.
  assert (year_of doe = y mod 400) as Hyo by (apply year_of_exact; lia).
  assert (0 ≤ doe < 146097) as Hdoe.
  { split; [lia|]. destruct (Z.eqb_spec (y mod 400) 399); [lia|].
    assert (year_start (y mod 400 + 1) ≤ 146097) by (unfold year_start; Z.div_mod_to_equations; lia).
    lia. }
  assert (0 ≤ days_from_civil year month day).
  { rewrite Hdays. apply (proj2 (Z.le_0_sub _ _)).
    destruct (Z.eq_dec (y / 400) 4) as [He|He]; [|Z.div_mod_to_equations; lia].
    assert (369 ≤ y mod 400 ∧ (mp < 10 → 370 ≤ y mod 400)) as [H1 H2]
      by (Z.div_mod_to_equations; lia).
    assert (134774 ≤ year_start (y mod 400) ∧ (370 ≤ y mod 400 → 135139 ≤ year_start (y mod 400)))
      by (unfold year_start; Z.div_mod_to_equations; lia).
    assert (10 ≤ mp → 306 ≤ doy) by (unfold doy; Z.div_mod_to_equations; lia).
    rewrite He. lia. }
  rewrite civil_from_days_eq by done. cbv zeta.
  assert ((days_from_civil year month day + 719468) / 146097 = y / 400) as ->
    by (rewrite Hdays; Z.div_mod_to_equations; lia).
  assert ((days_from_civil year month day + 719468) mod 146097 = doe) as ->
    by (rewrite Hdays; Z.div_mod_to_equations; lia).
  rewrite Hyo. replace (doe - year_start (y mod 400)) with doy by lia.
  assert ((5 * doy + 2) / 153 = mp) as -> by (apply month_join; unfold doy in *; lia).
  rewrite <-Hmonth. replace (y mod 400 + y / 400 * 400) with y by (Z.div_mod_to_equations; lia).
  rewrite <-Hyear. f_equal. unfold doy. lia.
Qed.

(** ** Digits and fields *)

Lemma digit_char_digit d : 0 ≤ d < 10 → is_ascii_digit (digit_char d) = true.
Proof.
  intros. assert (d = 0 ∨ d = 1 ∨ d = 2 ∨ d = 3 ∨ d = 4 ∨ d = 5 ∨ d = 6 ∨ d = 7 ∨ d = 8 ∨ d = 9)
    as Hd by lia.
  by destruct_or! Hd; subst.
Qed.

Lemma digit_value_char d : 0 ≤ d < 10 → digit_value (digit_char d) = d.
Proof.
  intros. assert (d = 0 ∨ d = 1 ∨ d = 2 ∨ d = 3 ∨ d = 4 ∨ d = 5 ∨ d = 6 ∨ d = 7 ∨ d = 8 ∨ d = 9)
    as Hd by lia.
  by destruct_or! Hd; subst.
Qed.

Lemma digit_value_bounds c : is_ascii_digit c = true → 0 ≤ digit_value c < 10.
Proof. unfold is_ascii_digit, between, digit_value. intros. bools. lia. Qed.

Lemma digit_char_value c : is_ascii_digit c = true → digit_char (digit_value c) = c.
Proof.
  unfold is_ascii_digit, between, digit_value, digit_char, code. intros. bools.
  replace (Z.to_N (Z.of_N (N_of_ascii c) - 48 + 48)) with (N_of_ascii c) by lia.
  apply ascii_N_embedding.
Qed.

Lemma digit_is_ascii c : is_ascii_digit c = true → between 0 127 c = true.
Proof. unfold is_ascii_digit, between. intros. bools. lia. Qed.

#[local] Hint Resolve digit_char_digit digit_is_ascii : core.

Lemma parse_digits_Ok s v :
  parse_digits s = Ok v ↔
  all_bytes is_ascii_digit s = true ∧ s ≠ "" ∧ v = digits_value s ∧ v ≤ u64_max.
Proof.
  unfold parse_digits. destruct (all_bytes _ s); [|naive_solver].
  rewrite ok_or_Ok. unfold parse_uint. destruct s; cbn [is_empty]; [naive_solver|].
  zcases; naive_solver lia.
Qed.

Lemma parse_digits_2 a b :
  is_ascii_digit a = true → is_ascii_digit b = true →
  parse_digits (String a (String b "")) = Ok (10 * digit_value a + digit_value b).
Proof.
  intros Ha Hb. apply parse_digits_Ok. cbn. rewrite Ha, Hb.
  pose proof (digit_value_bounds a Ha). pose proof (digit_value_bounds b Hb).
  unfold digits_value, u64_max; cbn [fold_left bytes list_ascii_of_string]. repeat split; first [done | lia].
Qed.

Lemma parse_digits_3 a b c :
  is_ascii_digit a = true → is_ascii_digit b = true → is_ascii_digit c = true →
  parse_digits (String a (String b (String c "")))
  = Ok (100 * digit_value a + 10 * digit_value b + digit_value c).
Proof.
  intros Ha Hb Hc. apply parse_digits_Ok. cbn. rewrite Ha, Hb, Hc.
  pose proof (digit_value_bounds a Ha). pose proof (digit_value_bounds b Hb).
  pose proof (digit_value_bounds c Hc).
  unfold digits_value, u64_max; cbn [fold_left bytes list_ascii_of_string].
  repeat split; first [done | lia].
Qed.

Lemma parse_digits_4 a b c d :
  is_ascii_digit a = true → is_ascii_digit b = true → is_ascii_digit c = true →
  is_ascii_digit d = true →
  parse_digits (String a (String b (String c (String d ""))))
  = Ok (1000 * digit_value a + 100 * digit_value b + 10 * digit_value c + digit_value d).
Proof.
  intros Ha Hb Hc Hd. apply parse_digits_Ok. cbn. rewrite Ha, Hb, Hc, Hd.
  pose proof (digit_value_bounds a Ha). pose proof (digit_value_bounds b Hb).
  pose proof (digit_value_bounds c Hc). pose proof (digit_value_bounds d Hd).
  unfold digits_value, u64_max; cbn [fold_left bytes list_ascii_of_string].
  repeat split; first [done | lia].
Qed.

(** The shape of a timestamp: fourteen digits with their separators, then [Z]
    or a fraction of three digits and [Z]. *)
Definition text (y m d h i s : string) (tail : string) : string :=
  (y +:+ "-" +:+ m +:+ "-" +:+ d +:+ "T" +:+ h +:+ ":" +:+ i +:+ ":" +:+ s +:+ tail)%string.

Inductive tail_of : string → Z → Prop :=
| tail_seconds : tail_of "Z" 0
| tail_millis a b c :
    is_ascii_digit a = true → is_ascii_digit b = true → is_ascii_digit c = true →
    tail_of (String "." (String a (String b (String c "Z"))))
      (100 * digit_value a + 10 * digit_value b + digit_value c).

Definition two (a b : ascii) : string := String a (String b "").
Definition four (a b c d : ascii) : string := String a (String b (String c (String d ""))).

Lemma parse_text y0 y1 y2 y3 m0 m1 d0 d1 h0 h1 i0 i1 s0 s1 tail millis :
  Forall (λ c, is_ascii_digit c = true) [y0; y1; y2; y3; m0; m1; d0; d1; h0; h1; i0; i1; s0; s1] →
  tail_of tail millis →
  parse_utc_timestamp_millis
    (text (four y0 y1 y2 y3) (two m0 m1) (two d0 d1) (two h0 h1) (two i0 i1) (two s0 s1) tail)
  = timestamp_of_fields
      (1000 * digit_value y0 + 100 * digit_value y1 + 10 * digit_value y2 + digit_value y3)
      (10 * digit_value m0 + digit_value m1) (10 * digit_value d0 + digit_value d1)
      (10 * digit_value h0 + digit_value h1) (10 * digit_value i0 + digit_value i1)
      (10 * digit_value s0 + digit_value s1) millis.
Proof.
  intros Hd Ht. repeat (apply List.Forall_cons_iff in Hd; destruct Hd as [? Hd]).
  set (t := text _ _ _ _ _ _ tail). unfold parse_utc_timestamp_millis.
  assert (is_ascii t = true) as ->.
  { unfold t; destruct Ht;
      cbv [is_ascii all_bytes bytes text four two String.append list_ascii_of_string forallb];
      repeat (apply andb_true_intro; split; [by auto|]); done. }
  assert (timestamp_parts t
          = Ok (text (four y0 y1 y2 y3) (two m0 m1) (two d0 d1) (two h0 h1) (two i0 i1)
                  (two s0 s1) "", millis)) as ->.
  { unfold t; destruct Ht; [reflexivity|].
    transitivity (millis ← parse_digits (String a (String b (String c "")));
                  Ok (text (four y0 y1 y2 y3) (two m0 m1) (two d0 d1) (two h0 h1) (two i0 i1)
                  (two s0 s1) "", millis)); [reflexivity|].
    by rewrite parse_digits_3. }
  transitivity (year ← parse_digits (four y0 y1 y2 y3); month ← parse_digits (two m0 m1);
    day ← parse_digits (two d0 d1); hour ← parse_digits (two h0 h1);
    minute ← parse_digits (two i0 i1); second ← parse_digits (two s0 s1);
    timestamp_of_fields year month day hour minute second millis); [reflexivity|].
  unfold four, two. by rewrite parse_digits_4, !parse_digits_2 by done.
Qed.

(** Zero-padded fields are their digits. *)
Lemma dec_digits_S fuel n acc :
  dec_digits (S fuel) n acc =
    if n <? 10 then String (digit_char (n mod 10)) acc
    else dec_digits fuel (n / 10) (String (digit_char (n mod 10)) acc).
Proof. reflexivity. Qed.

Lemma zero_pad_2 n :
  0 ≤ n < 100 → zero_pad 2 n = two (digit_char (n / 10)) (digit_char (n mod 10)).
Proof.
  intros. unfold zero_pad. zcases. do 2 rewrite dec_digits_S. zcases.
  - by replace (n / 10) with 0 by (Z.div_mod_to_equations; lia).
  - by replace ((n / 10) mod 10) with (n / 10) by (Z.div_mod_to_equations; lia).
  - Z.div_mod_to_equations; lia.
Qed.

Lemma zero_pad_3 n :
  0 ≤ n < 1000 →
  zero_pad 3 n = String (digit_char (n / 100)) (two (digit_char (n / 10 mod 10)) (digit_char (n mod 10))).
Proof.
  intros. unfold zero_pad. zcases. do 3 rewrite dec_digits_S. rewrite !Z.div_div by lia.
  assert (n / (10 * 10) = n / 100) as -> by done.
  zcases.
  - replace (n / 10) with 0 by (Z.div_mod_to_equations; lia).
    by replace (n / 100) with 0 by (Z.div_mod_to_equations; lia).
  - by replace (n / 100) with 0 by (Z.div_mod_to_equations; lia).
  - by replace ((n / 100) mod 10) with (n / 100) by (Z.div_mod_to_equations; lia).
  - Z.div_mod_to_equations; lia.
Qed.

Lemma zero_pad_4 n :
  0 ≤ n < 10000 →
  zero_pad 4 n = four (digit_char (n / 1000)) (digit_char (n / 100 mod 10))
                   (digit_char (n / 10 mod 10)) (digit_char (n mod 10)).
Proof.
  intros. unfold zero_pad. zcases. do 4 rewrite dec_digits_S. rewrite !Z.div_div by lia.
  change (10 * 10) with 100. change (100 * 10) with 1000. change (1000 * 10) with 10000.
  zcases.
  - replace (n / 10) with 0 by (Z.div_mod_to_equations; lia).
    replace (n / 100) with 0 by (Z.div_mod_to_equations; lia).
    by replace (n / 1000) with 0 by (Z.div_mod_to_equations; lia).
  - replace (n / 100) with 0 by (Z.div_mod_to_equations; lia).
    by replace (n / 1000) with 0 by (Z.div_mod_to_equations; lia).
  - by replace (n / 1000) with 0 by (Z.div_mod_to_equations; lia).
  - by replace ((n / 1000) mod 10) with (n / 1000) by (Z.div_mod_to_equations; lia).
  - Z.div_mod_to_equations; lia.
Qed.

(** ** Parsing inverted *)

Lemma string_cons_inv t n :
  String.length t = S n → ∃ c t', t = String c t' ∧ String.length t' = n.
Proof. destruct t; cbn; [done|]. intros [= <-]. eauto. Qed.

Ltac split_string :=
  repeat match goal with
  | H : String.length ?t = S _ |- _ =>
      apply string_cons_inv in H; let c := fresh "c" in destruct H as (c & ? & -> & H)
  | H : String.length ?t = 0%nat |- _ => destruct t; [clear H | discriminate H]
  end.

Lemma parse_digits_two a b v :
  parse_digits (two a b) = Ok v →
  is_ascii_digit a = true ∧ is_ascii_digit b = true ∧ v = 10 * digit_value a + digit_value b.
Proof.
  intros H. pose proof H as [Hd _]%parse_digits_Ok. cbv [all_bytes bytes two list_ascii_of_string forallb] in Hd.
  bools. destruct Hd as (Ha & Hb & _). unfold two in H. rewrite parse_digits_2 in H by done. by inv_ok.
Qed.

Lemma parse_digits_three a b c v :
  parse_digits (String a (two b c)) = Ok v →
  is_ascii_digit a = true ∧ is_ascii_digit b = true ∧ is_ascii_digit c = true
  ∧ v = 100 * digit_value a + 10 * digit_value b + digit_value c.
Proof.
  intros H. pose proof H as [Hd _]%parse_digits_Ok. cbv [all_bytes bytes two list_ascii_of_string forallb] in Hd.
  bools. destruct Hd as (Ha & Hb & Hc & _). unfold two in H. rewrite parse_digits_3 in H by done. by inv_ok.
Qed.

Lemma parse_digits_four a b c d v :
  parse_digits (four a b c d) = Ok v →
  (is_ascii_digit a = true ∧ is_ascii_digit b = true ∧ is_ascii_digit c = true
   ∧ is_ascii_digit d = true)
  ∧ v = 1000 * digit_value a + 100 * digit_value b + 10 * digit_value c + digit_value d.
Proof.
  intros H. pose proof H as [Hd _]%parse_digits_Ok. cbv [all_bytes bytes four list_ascii_of_string forallb] in Hd.
  bools. destruct Hd as (Ha & Hb & Hc & Hd & _). unfold four in H. rewrite parse_digits_4 in H by done. by inv_ok.
Qed.

Lemma timestamp_parts_Ok t main millis :
  timestamp_parts t = Ok (main, millis) →
  ∃ tail, t = (main +:+ tail)%string ∧ String.length main = 19%nat ∧ tail_of tail millis.
Proof.
  unfold timestamp_parts. intros H.
  destruct (_ && _) eqn:E1 in H; [|destruct (_ && _) eqn:E2 in H; [|done]].
  - inv_ok. bools. destruct E1 as [L E1]. split_string.
    cbv [ends_with slice String.length String.substring Nat.sub Nat.leb andb] in E1. bools.
    injection E1 as ->. eexists. split; [reflexivity|]. split; [reflexivity|constructor].
  - bools. destruct E2 as [[L E2] Hdot]. split_string.
    cbv [byte_at] in Hdot. injection Hdot as ->.
    cbv [ends_with slice String.length String.substring Nat.sub Nat.leb andb] in E2. bools.
    injection E2 as ->. inv_ok. cbv [slice String.substring Nat.sub] in *.
    apply parse_digits_three in H0 as (? & ? & ? & ->).
    eexists. split; [reflexivity|]. split; [reflexivity|by constructor].
Qed.

(** A timestamp the parser accepts is [text] of its fields. *)
Lemma parse_inv t ms :
  parse_utc_timestamp_millis t = Ok ms →
  ∃ y0 y1 y2 y3 m0 m1 d0 d1 h0 h1 i0 i1 s0 s1 tail millis,
    t = text (four y0 y1 y2 y3) (two m0 m1) (two d0 d1) (two h0 h1) (two i0 i1) (two s0 s1) tail
    ∧ Forall (λ c, is_ascii_digit c = true)
        [y0; y1; y2; y3; m0; m1; d0; d1; h0; h1; i0; i1; s0; s1]
    ∧ tail_of tail millis.
Proof.
  unfold parse_utc_timestamp_millis. intros H. inv_ok. destruct x as [main millis].
  apply timestamp_parts_Ok in H1 as (tail & -> & L & Ht). inv_ok. split_string.
  cbv [slice String.substring Nat.sub] in *. bools.
  destruct H1 as [[[[Hs1 Hs2] Hs3] Hs4] Hs5].
  injection Hs1 as ->. injection Hs2 as ->. injection Hs3 as ->. injection Hs4 as ->.
  injection Hs5 as ->.
  repeat match goal with
  | H : parse_digits (String ?a (String ?b "")) = Ok _ |- _ => apply parse_digits_two in H
  | H : parse_digits (String ?a (String ?b (String ?c (String ?d "")))) = Ok _ |- _ =>
      apply parse_digits_four in H
  end.
  destruct_and!. do 16 eexists. split; [reflexivity|]. split; [|done].
  repeat constructor; done.
Qed.

(** ** Bounds of the calendar *)

Lemma days_closed year month day :
  0 ≤ year → 1 ≤ month ≤ 12 → (month ≤ 2 → 1 ≤ year) →
  let y := year - (if month <=? 2 then 1 else 0) in
  let mp := month + (if 2 <? month then -3 else 9) in
  days_from_civil year month day
  = 365 * y + y / 4 - y / 100 + y / 400 + (153 * mp + 2) / 5 + day - 719469.
Proof.
  intros Hy Hm Hmy y mp. rewrite days_from_civil_eq by done. cbv zeta. fold y mp.
  assert (y / 400 * 146097 + year_start (y mod 400) = 365 * y + y / 4 - y / 100 + y / 400)
    by (unfold year_start; Z.div_mod_to_equations; lia).
  lia.
Qed.

Lemma valid_date_day_le year month day :
  valid_date year month day → day ≤ 31 ∧ (month = 12 → (153 * 9 + 2) / 5 + day ≤ 306).
Proof.
  intros [Hm Hd]. rewrite days_in_month_cases in Hd by done.
  revert Hd. zcases; cbn [orb]; try (destruct (is_leap_year year); cbn [Z.b2z]);
    intros; split; try lia; intros; Z.div_mod_to_equations; lia.
Qed.

Lemma days_before_y10k year month day :
  0 ≤ year ≤ 9999 → valid_date year month day → days_from_civil year month day < 2932897.
Proof.
  intros Hy Hv. pose proof (valid_date_day_le _ _ _ Hv) as [Hd Hdec]. destruct Hv as [Hm _].
  destruct (decide (year = 0 ∧ month ≤ 2)) as [[-> Hm2]|].
  - assert (month = 1 ∨ month = 2) as [-> | ->] by lia.
    + change (days_from_civil 0 1 day) with (-1 * 146097 + (399 * 365 + 99 - 3 + (306 + day - 1)) - 719468).
      lia.
    + change (days_from_civil 0 2 day) with (-1 * 146097 + (399 * 365 + 99 - 3 + (337 + day - 1)) - 719468).
      lia.
  - rewrite days_closed by lia. zcases; Z.div_mod_to_equations; lia.
Qed.

Lemma days_after_y10k year month day :
  10000 ≤ year → 1 ≤ month ≤ 12 → 1 ≤ day → 2932897 ≤ days_from_civil year month day.
Proof. intros. rewrite days_closed by lia. zcases; Z.div_mod_to_equations; lia. Qed.

Lemma civil_year_bound days :
  0 ≤ days < 2932897 → (civil_from_days days).1.1 ≤ 9999.
Proof.
  intros H. pose proof (civil_from_days_valid days ltac:(lia)) as Hv.
  destruct (civil_from_days days) as [[y m] d]; cbn. destruct Hv as (Hy & [Hm Hd] & Heq).
  destruct (Z.le_gt_cases y 9999); [done|].
  pose proof (days_after_y10k y m d). lia.
Qed.

Lemma timestamp_of_fields_Ok year month day hour minute second millis ms :
  0 ≤ year ≤ 9999 → 0 ≤ day → 0 ≤ hour → 0 ≤ minute → 0 ≤ second → 0 ≤ millis < 1000 →
  timestamp_of_fields year month day hour minute second millis = Ok ms ↔
  valid_date year month day ∧ hour ≤ 23 ∧ minute ≤ 59 ∧ second ≤ 59
  ∧ 0 ≤ days_from_civil year month day
  ∧ ms = (days_from_civil year month day * 86400 + (hour * 3600 + minute * 60 + second)) * 1000
         + millis.
Proof.
  intros Hy Hd0 Hh Hi Hs Hms. unfold timestamp_of_fields. cbv zeta.
  pose proof (days_before_y10k year month day Hy) as Hup.
  set (days := days_from_civil year month day) in *. clearbody days.
  rewrite !guard_Ok. unfold valid_date in *.
  unfold saturating_add, saturating_mul, u64_max. split.
  - intros (H1 & H2 & [= <-]). bools. split; [lia|]. repeat split; lia.
  - intros (H1 & H2 & H3 & H4 & H5 & ->). specialize (Hup H1). bools.
    repeat split; [lia..|]. f_equal. lia.
Qed.

Lemma tail_of_bounds tail millis : tail_of tail millis → 0 ≤ millis < 1000.
Proof.
  destruct 1 as [|a b c Ha Hb Hc]; [lia|].
  pose proof (digit_value_bounds a Ha). pose proof (digit_value_bounds b Hb).
  pose proof (digit_value_bounds c Hc). lia.
Qed.

(** ** Round trips *)

(** The fields [format_utc_timestamp_millis] prints. *)
Lemma format_text ms :
  0 ≤ ms < end_of_year_9999 →
  let sod := ms / 1000 mod 86400 in
  let '(year, month, day) := civil_from_days (ms / 86400000) in
  format_utc_timestamp_millis ms
  = text (zero_pad 4 year) (zero_pad 2 month) (zero_pad 2 day) (zero_pad 2 (sod / 3600))
      (zero_pad 2 (sod mod 3600 / 60)) (zero_pad 2 (sod mod 60))
      (if ms mod 1000 =? 0 then "Z" else ("." +:+ zero_pad 3 (ms mod 1000) +:+ "Z")%string).
Proof.
  intros H sod. unfold format_utc_timestamp_millis.
  rewrite !(Z.quot_div_nonneg ms) by lia. rewrite !(Z.rem_mod_nonneg ms) by lia.
  assert (0 ≤ ms / 1000) by (Z.div_mod_to_equations; lia).
  rewrite !(Z.quot_div_nonneg (ms / 1000)) by lia. rewrite !(Z.rem_mod_nonneg (ms / 1000)) by lia.
  fold sod. assert (0 ≤ sod) by (unfold sod; Z.div_mod_to_equations; lia). clearbody sod.
  rewrite !(Z.rem_mod_nonneg sod) by lia. rewrite !(Z.quot_div_nonneg sod) by lia.
  rewrite Z.quot_div_nonneg by (Z.div_mod_to_equations; lia).
  rewrite Z.div_div by lia. change (1000 * 86400) with 86400000.
  destruct (civil_from_days (ms / 86400000)) as [[y m] d]. unfold text.
  destruct (ms mod 1000 =? 0); rewrite !append_assoc; reflexivity.
Qed.

Lemma digits_4 n :
  0 ≤ n < 10000 →
  1000 * digit_value (digit_char (n / 1000)) + 100 * digit_value (digit_char (n / 100 mod 10))
  + 10 * digit_value (digit_char (n / 10 mod 10)) + digit_value (digit_char (n mod 10)) = n.
Proof. intros. rewrite !digit_value_char by (Z.div_mod_to_equations; lia). Z.div_mod_to_equations; lia. Qed.

Lemma digits_2 n :
  0 ≤ n < 100 →
  10 * digit_value (digit_char (n / 10)) + digit_value (digit_char (n mod 10)) = n.
Proof. intros. rewrite !digit_value_char by (Z.div_mod_to_equations; lia). Z.div_mod_to_equations; lia. Qed.

Lemma digits_3 n :
  0 ≤ n < 1000 →
  100 * digit_value (digit_char (n / 100)) + 10 * digit_value (digit_char (n / 10 mod 10))
  + digit_value (digit_char (n mod 10)) = n.
Proof. intros. rewrite !digit_value_char by (Z.div_mod_to_equations; lia). Z.div_mod_to_equations; lia. Qed.

(** Parsing the text of printed fields. *)
Lemma parse_printed_fields year month day hour minute second millis :
  0 ≤ year < 10000 → 0 ≤ month < 100 → 0 ≤ day < 100 → 0 ≤ hour < 100 → 0 ≤ minute < 100 →
  0 ≤ second < 100 → 0 ≤ millis < 1000 →
  parse_utc_timestamp_millis
    (text (zero_pad 4 year) (zero_pad 2 month) (zero_pad 2 day) (zero_pad 2 hour)
       (zero_pad 2 minute) (zero_pad 2 second)
       (if millis =? 0 then "Z" else ("." +:+ zero_pad 3 millis +:+ "Z")%string))
  = timestamp_of_fields year month day hour minute second millis.
Proof.
  intros. rewrite zero_pad_4, !zero_pad_2 by lia.
  rewrite (parse_text _ _ _ _ _ _ _ _ _ _ _ _ _ _ _ millis).
  - by rewrite digits_4, !digits_2 by lia.
  - repeat constructor; apply digit_char_digit; Z.div_mod_to_equations; lia.
  - destruct (Z.eqb_spec millis 0) as [->|]; [constructor|].
    rewrite zero_pad_3 by lia. rewrite <-(digits_3 millis) at 4 by lia.
    constructor; apply digit_char_digit; Z.div_mod_to_equations; lia.
Qed.

Lemma parse_format ms :
  0 ≤ ms < end_of_year_9999 → parse_utc_timestamp_millis (format_utc_timestamp_millis ms) = Ok ms.
Proof.
  intros H. pose proof (format_text ms H) as Hf. cbv zeta in Hf.
  unfold end_of_year_9999 in H.
  pose proof (civil_from_days_valid (ms / 86400000) ltac:(Z.div_mod_to_equations; lia)) as Hv.
  pose proof (civil_year_bound (ms / 86400000) ltac:(Z.div_mod_to_equations; lia)) as Hy9.
  destruct (civil_from_days (ms / 86400000)) as [[y m] d]; cbn in Hy9.
  destruct Hv as (Hy & Hv & Hdays). pose proof (valid_date_day_le _ _ _ Hv) as [Hd31 _].
  pose proof Hv as [Hm Hd]. rewrite Hf.
  assert (0 ≤ ms / 1000 mod 86400 < 86400) by (Z.div_mod_to_equations; lia).
  rewrite parse_printed_fields by (Z.div_mod_to_equations; lia).
  apply timestamp_of_fields_Ok; [Z.div_mod_to_equations; lia..|]. rewrite Hdays.
  repeat split; try done; Z.div_mod_to_equations; lia.
Qed.

(** Every instant from the epoch to the end of year 9999 is read back from
    the timestamp it is printed as. *)
Theorem parse_format_roundtrip ms :
  0 ≤ ms < end_of_year_9999 → parse_utc_timestamp_millis (format_utc_timestamp_millis ms) = Ok ms.
Proof. apply parse_format. Qed.

Lemma days_before_epoch year month day :
  0 ≤ year < 1970 → valid_date year month day → days_from_civil year month day < 0.
Proof.
  intros Hy Hv. pose proof (valid_date_day_le _ _ _ Hv) as [Hd Hdec]. destruct Hv as [Hm _].
  destruct (decide (year = 0 ∧ month ≤ 2)) as [[-> Hm2]|].
  - assert (month = 1 ∨ month = 2) as [-> | ->] by lia.
    + change (days_from_civil 0 1 day) with (-1 * 146097 + (399 * 365 + 99 - 3 + (306 + day - 1)) - 719468).
      lia.
    + change (days_from_civil 0 2 day) with (-1 * 146097 + (399 * 365 + 99 - 3 + (337 + day - 1)) - 719468).
      lia.
  - rewrite days_closed by lia. zcases; Z.div_mod_to_equations; lia.
Qed.

Lemma print_digits_2 a b :
  is_ascii_digit a = true → is_ascii_digit b = true →
  zero_pad 2 (10 * digit_value a + digit_value b) = two a b.
Proof.
  intros Ha Hb. pose proof (digit_value_bounds a Ha). pose proof (digit_value_bounds b Hb).
  rewrite zero_pad_2 by lia.
  replace ((10 * digit_value a + digit_value b) / 10) with (digit_value a)
    by (Z.div_mod_to_equations; lia).
  replace ((10 * digit_value a + digit_value b) mod 10) with (digit_value b)
    by (Z.div_mod_to_equations; lia).
  by rewrite !digit_char_value.
Qed.

Lemma print_digits_3 a b c :
  is_ascii_digit a = true → is_ascii_digit b = true → is_ascii_digit c = true →
  zero_pad 3 (100 * digit_value a + 10 * digit_value b + digit_value c) = String a (two b c).
Proof.
  intros Ha Hb Hc. pose proof (digit_value_bounds a Ha). pose proof (digit_value_bounds b Hb).
  pose proof (digit_value_bounds c Hc). rewrite zero_pad_3 by lia.
  set (n := 100 * digit_value a + 10 * digit_value b + digit_value c).
  replace (n / 100) with (digit_value a) by (unfold n; Z.div_mod_to_equations; lia).
  replace (n / 10 mod 10) with (digit_value b) by (unfold n; Z.div_mod_to_equations; lia).
  replace (n mod 10) with (digit_value c) by (unfold n; Z.div_mod_to_equations; lia).
  by rewrite !digit_char_value.
Qed.

Lemma print_digits_4 a b c d :
  is_ascii_digit a = true → is_ascii_digit b = true → is_ascii_digit c = true →
  is_ascii_digit d = true →
  zero_pad 4 (1000 * digit_value a + 100 * digit_value b + 10 * digit_value c + digit_value d)
  = four a b c d.
Proof.
  intros Ha Hb Hc Hd. pose proof (digit_value_bounds a Ha). pose proof (digit_value_bounds b Hb).
  pose proof (digit_value_bounds c Hc). pose proof (digit_value_bounds d Hd).
  rewrite zero_pad_4 by lia.
  set (n := 1000 * digit_value a + 100 * digit_value b + 10 * digit_value c + digit_value d).
  replace (n / 1000) with (digit_value a) by (unfold n; Z.div_mod_to_equations; lia).
  replace (n / 100 mod 10) with (digit_value b) by (unfold n; Z.div_mod_to_equations; lia).
  replace (n / 10 mod 10) with (digit_value c) by (unfold n; Z.div_mod_to_equations; lia).
  replace (n mod 10) with (digit_value d) by (unfold n; Z.div_mod_to_equations; lia).
  by rewrite !digit_char_value.
Qed.

(** An accepted timestamp as numeric fields: it is the text of those fields. *)
Lemma parse_fields t ms :
  parse_utc_timestamp_millis t = Ok ms →
  ∃ year month day hour minute second tail millis,
    1970 ≤ year ≤ 9999 ∧ valid_date year month day ∧ 0 ≤ hour ≤ 23 ∧ 0 ≤ minute ≤ 59
    ∧ 0 ≤ second ≤ 59 ∧ 0 ≤ millis < 1000 ∧ 0 ≤ days_from_civil year month day < 2932897
    ∧ tail_of tail millis
    ∧ t = text (zero_pad 4 year) (zero_pad 2 month) (zero_pad 2 day) (zero_pad 2 hour)
            (zero_pad 2 minute) (zero_pad 2 second) tail
    ∧ ms = (days_from_civil year month day * 86400 + (hour * 3600 + minute * 60 + second)) * 1000
           + millis.
Proof.
  intros H. pose proof (parse_inv t ms H)
    as (y0&y1&y2&y3&m0&m1&d0&d1&h0&h1&i0&i1&s0&s1&tail&millis& -> & Hd & Ht).
  rewrite (parse_text _ _ _ _ _ _ _ _ _ _ _ _ _ _ _ millis) in H by done.
  do 14 (let Hc := fresh "Hc" in apply List.Forall_cons_iff in Hd as [Hc Hd];
         pose proof (digit_value_bounds _ Hc)).
  pose proof (tail_of_bounds _ _ Ht) as Hms.
  revert H. rewrite <-(print_digits_4 y0 y1 y2 y3), <-(print_digits_2 m0 m1),
    <-(print_digits_2 d0 d1), <-(print_digits_2 h0 h1), <-(print_digits_2 i0 i1),
    <-(print_digits_2 s0 s1) by done.
  set (year := 1000 * _ + 100 * _ + 10 * _ + _). set (month := 10 * _ + digit_value m1).
  set (day := 10 * _ + digit_value d1). set (hour := 10 * _ + digit_value h1).
  set (minute := 10 * _ + digit_value i1). set (second := 10 * _ + digit_value s1).
  assert (0 ≤ year ≤ 9999) as Hy by lia. assert (0 ≤ day ∧ 0 ≤ hour ∧ 0 ≤ minute ∧ 0 ≤ second)
    as (? & ? & ? & ?) by lia. clearbody year month day hour minute second.
  intros (Hv & ? & ? & ? & Hdays & ->)%timestamp_of_fields_Ok; [|done..].
  exists year, month, day, hour, minute, second, tail, millis.
  pose proof (days_before_y10k year month day Hy Hv).
  assert (1970 ≤ year).
  { destruct (Z.le_gt_cases 1970 year); [done|].
    pose proof (days_before_epoch year month day ltac:(lia) Hv). lia. }
  repeat split; try done; try lia; apply Hv.
Qed.

Lemma parsed_in_range t ms :
  parse_utc_timestamp_millis t = Ok ms → 0 ≤ ms < end_of_year_9999.
Proof.
  intros (year & month & day & hour & minute & second & tail & millis & H)%parse_fields.
  destruct_and! H. unfold end_of_year_9999. lia.
Qed.

(** A parsed timestamp is an instant from the epoch to the end of year
    9999: parsing neither overflows a u64 nor saturates. *)
Theorem parse_bounds t ms :
  parse_utc_timestamp_millis t = Ok ms → 0 ≤ ms < end_of_year_9999.
Proof. apply parsed_in_range. Qed.

(** An accepted timestamp that does not spell out a zero fraction is the
    canonical text of its instant, so an instant has one such spelling. *)
Theorem format_parse_canonical t ms :
  parse_utc_timestamp_millis t = Ok ms → String.length t = 20%nat ∨ ms mod 1000 ≠ 0 →
  format_utc_timestamp_millis ms = t.
Proof.
  intros (year & month & day & hour & minute & second & tail & millis & H)%parse_fields Hcanon.
  destruct_and! H. subst t. pose proof (format_text ms) as Hf. cbv zeta in Hf.
  assert (ms / 86400000 = days_from_civil year month day) as Hday
    by (Z.div_mod_to_equations; lia).
  rewrite Hday, civil_from_days_from_civil in Hf by (done || lia).
  assert (ms / 1000 mod 86400 = hour * 3600 + minute * 60 + second) as Hsod
    by (Z.div_mod_to_equations; lia).
  assert (ms mod 1000 = millis) as Hmod by (Z.div_mod_to_equations; lia).
  rewrite Hsod, Hmod in Hf. rewrite Hmod in Hcanon.
  replace ((hour * 3600 + minute * 60 + second) / 3600) with hour in Hf
    by (Z.div_mod_to_equations; lia).
  replace ((hour * 3600 + minute * 60 + second) mod 3600 / 60) with minute in Hf
    by (Z.div_mod_to_equations; lia).
  replace ((hour * 3600 + minute * 60 + second) mod 60) with second in Hf
    by (Z.div_mod_to_equations; lia).
  rewrite Hf by (unfold end_of_year_9999; lia). f_equal.
  match goal with Ht : tail_of tail millis |- _ => destruct Ht as [|a b c Ha Hb Hc] end; [done|].
  destruct (Z.eqb_spec (100 * digit_value a + 10 * digit_value b + digit_value c) 0) as [E|E].
  - exfalso. destruct Hcanon as [Hlen | Hz]; [|done].
    rewrite zero_pad_4, !zero_pad_2 in Hlen; [discriminate Hlen|..];
      match goal with Hv : valid_date _ _ _ |- _ =>
        pose proof (valid_date_day_le _ _ _ Hv) as [? _]; destruct Hv end; lia.
  - by rewrite print_digits_3.
Qed.

(** ** Past year 9999 *)

Lemma dec_digits_all fuel n acc :
  0 ≤ n → all_bytes is_ascii_digit acc = true →
  all_bytes is_ascii_digit (dec_digits fuel n acc) = true
  ∧ (S (String.length acc) ≤ String.length (dec_digits fuel n acc))%nat.
Proof.
  revert n acc. induction fuel as [|fuel IH]; intros n acc Hn Hacc.
  - cbn [dec_digits]. split; [|done]. rewrite all_bytes_cons, Hacc, andb_true_r.
    apply digit_char_digit. Z.div_mod_to_equations; lia.
  - rewrite dec_digits_S.
    assert (all_bytes is_ascii_digit (String (digit_char (n mod 10)) acc) = true) as Hacc'.
    { rewrite all_bytes_cons, Hacc, andb_true_r. apply digit_char_digit. Z.div_mod_to_equations; lia. }
    destruct (Z.ltb_spec n 10); [done|].
    destruct (IH (n / 10) _ ltac:(Z.div_mod_to_equations; lia) Hacc') as [IH1 IH2].
    split; [done|]. cbn in IH2. lia.
Qed.

Lemma byte_at_digits s r i :
  all_bytes is_ascii_digit s = true → (i < String.length s)%nat →
  ∃ c, byte_at (s +:+ r)%string i = Some c ∧ is_ascii_digit c = true.
Proof.
  unfold String.append. revert i. induction s as [|c s IH]; intros i Hd Hi; [cbn in Hi; lia|].
  rewrite all_bytes_cons in Hd. apply andb_true_iff in Hd as [Hc Hd].
  destruct i; [cbn; eauto|]. cbn in Hi |- *. apply IH; [done|lia].
Qed.

Lemma long_year_digit year rest :
  10000 ≤ year → ∃ c, byte_at (zero_pad 4 year +:+ rest)%string 4 = Some c ∧ is_ascii_digit c = true.
Proof.
  intros H. unfold zero_pad. zcases.
  assert (all_bytes is_ascii_digit (dec_digits 20 year "") = true
          ∧ (5 ≤ String.length (dec_digits 20 year ""))%nat) as [Hd Hl].
  { split; [by apply dec_digits_all|].
    do 4 (rewrite dec_digits_S, (proj2 (Z.ltb_ge _ 10)) by (Z.div_mod_to_equations; lia)).
    match goal with |- (_ ≤ String.length (dec_digits 16 ?n ?acc))%nat =>
      assert (0 ≤ n) as Hn by (Z.div_mod_to_equations; lia);
      assert (all_bytes is_ascii_digit acc = true) as Hacc end.
    { rewrite !all_bytes_cons, !digit_char_digit by (Z.div_mod_to_equations; lia). done. }
    apply (dec_digits_all 16 _ _ Hn Hacc). }
  replace (4 - String.length (dec_digits 20 year ""))%nat with 0%nat by lia.
  by apply byte_at_digits.
Qed.

(** From year 10000 on the printed timestamp is no longer one the parser
    accepts, so a validity bound that far out never passes for a short one. *)
Theorem format_past_9999_rejected ms ms' :
  end_of_year_9999 ≤ ms ≤ u64_max →
  parse_utc_timestamp_millis (format_utc_timestamp_millis ms) ≠ Ok ms'.
Proof.
  intros H (year & month & day & hour & minute & second & tail & millis & Hp)%parse_fields.
  destruct Hp as (Hy & _ & _ & _ & _ & _ & _ & _ & Ht & _).
  assert (byte_at (format_utc_timestamp_millis ms) 4 = Some "-"%char) as H4.
  { rewrite Ht, zero_pad_4 by lia. reflexivity. }
  unfold format_utc_timestamp_millis, end_of_year_9999 in *.
  rewrite !(Z.quot_div_nonneg ms) in H4 by lia.
  rewrite (Z.quot_div_nonneg (ms / 1000) 86400) in H4 by (Z.div_mod_to_equations; lia).
  pose proof (civil_from_days_valid (ms / 1000 / 86400) ltac:(Z.div_mod_to_equations; lia)) as Hv.
  destruct (civil_from_days (ms / 1000 / 86400)) as [[y m] d].
  destruct Hv as (Hy1970 & Hv & Hdays).
  assert (10000 ≤ y) as Hlong.
  { destruct (Z.le_gt_cases 10000 y); [done|].
    pose proof (days_before_y10k y m d ltac:(lia) Hv). revert Hdays. Z.div_mod_to_equations; lia. }
  destruct (_ =? _) in H4; rewrite !append_assoc in H4;
    match type of H4 with byte_at (_ +:+ ?r)%string 4 = _ =>
      destruct (long_year_digit y r Hlong) as (c & Hc & Hdig) end;
    rewrite H4 in Hc; injection Hc as <-; discriminate Hdig.
Qed.

Lemma parse_format_roundtrip_witness :
  parse_utc_timestamp_millis (format_utc_timestamp_millis 1709210096789) = Ok 1709210096789.
Proof. apply parse_format_roundtrip. vm_compute. split; congruence. Defined.

Lemma parse_bounds_witness : 0 ≤ 1709210096789 < end_of_year_9999.
Proof. apply (parse_bounds "2024-02-29T12:34:56.789Z"). vm_compute. reflexivity. Defined.

Lemma format_parse_canonical_witness :
  format_utc_timestamp_millis 1709210096789 = "2024-02-29T12:34:56.789Z"%string.
Proof.
  apply format_parse_canonical; [vm_compute; reflexivity | right; vm_compute; congruence].
Defined.

Lemma format_past_9999_rejected_witness :
  parse_utc_timestamp_millis (format_utc_timestamp_millis u64_max) ≠ Ok 0.
Proof. apply format_past_9999_rejected. vm_compute. split; congruence. Defined.
