(* ===== verification/Versions.v ===== *)
(** * Artifact versions

    [compare_artifact_versions] of reference_values.rs: the natural order on
    version strings that every registry, reference-values and pin comparison
    uses. The optimised run-by-run comparison is proved equal to a comparison of
    keys in a total order, which gives antisymmetry and transitivity. *)

From Stdlib Require Import Ascii String ZArith Lia.
From stdpp Require Import base strings list numbers.
From S2P Require Import Prelude RustStr.

(** ** Definitions *)

(** The inner loop: the longest prefix whose bytes are digits, or are not, as
    [digit] says. *)
Fixpoint take_run (digit : bool) (s : string) : string * string :=
  match s with
  | "" => ("", "")
  | String c s' =>
      if Bool.eqb (is_ascii_digit c) digit
      then let '(run, rest) := take_run digit s' in (String c run, rest)
      else ("", s)
  end%string.

Fixpoint runs_fuel (fuel : nat) (s : string) : list (string * bool) :=
  match fuel, s with
  | S fuel, String c s' =>
      let digit := is_ascii_digit c in
      let '(run, rest) := take_run digit s' in (String c run, digit) :: runs_fuel fuel rest
  | _, _ => []
  end.

(** The outer loop consumes a byte at least per round. *)
Definition runs (value : string) : list (string * bool) := runs_fuel (String.length value) value.

(** [s.trim_start_matches('0')]. *)
Fixpoint trim_zeros (s : string) : string :=
  match s with
  | "" => ""
  | String c s' => if c =?= "0"%char then trim_zeros s' else s
  end%string.

Definition run_cmp (left_run right_run : string * bool) : comparison :=
  match left_run, right_run with
  | (left_digits, true), (right_digits, true) =>
      let left := trim_zeros left_digits in
      let right := trim_zeros right_digits in
      cmp_then (Nat.compare (String.length left) (String.length right)) (str_cmp left right)
  | (left_text, _), (right_text, _) => str_cmp left_text right_text
  end.

(** The loop over the zipped runs. *)
Fixpoint zip_cmp (l r : list (string * bool)) : comparison :=
  match l, r with
  | x :: l, y :: r => match run_cmp x y with Eq => zip_cmp l r | ordering => ordering end
  | _, _ => Eq
  end.

Definition compare_artifact_versions (left right : string) : comparison :=
  let left_runs := runs left in
  let right_runs := runs right in
  match zip_cmp left_runs right_runs with
  | Eq => Nat.compare (length left_runs) (length right_runs)
  | ordering => ordering
  end.

Example versions_numeric : compare_artifact_versions "2026.07.9" "2026.07.10" = Lt.
Proof. reflexivity. Qed.
Example versions_zeros : compare_artifact_versions "v01" "v1" = Eq.
Proof. reflexivity. Qed.

(** ** The reference order

    A version is the sequence of its runs; a digit run is the number it spells,
    and sorts between the other runs by its first byte. *)

Definition run_key (run : string * bool) : list N :=
  match run with
  | (digits, true) => [1%N; Z.to_N (digits_value digits)]
  | (text, false) =>
      match text with
      | String c _ => (if (code c <? 48)%N then 0%N else 2%N) :: map code (bytes text)
      | "" => [0%N]
      end
  end%string.

Definition version_key (version : string) : list (list N) := map run_key (runs version).

Definition key_order : list (list N) → list (list N) → comparison :=
  list_cmp (list_cmp N.compare).

(** ** Runs *)

Lemma take_run_spec digit s run rest :
  take_run digit s = (run, rest) →
  all_bytes (λ c, Bool.eqb (is_ascii_digit c) digit) run = true
  ∧ (String.length rest ≤ String.length s)%nat.
Proof.
  revert run rest. induction s as [|c s IH]; intros run rest; cbn [take_run].
  - by intros [= <- <-].
  - destruct (Bool.eqb _ _) eqn:E; [|intros [= <- <-]; done].
    destruct (take_run digit s) as [run' rest']. intros [= <- <-].
    destruct (IH run' rest' eq_refl) as [H1 H2]. rewrite all_bytes_cons, E, H1. cbn. split; [done|lia].
Qed.

(** A run as the loop produces it. *)
Definition wf_run (run : string * bool) : Prop :=
  run.1 ≠ ""%string ∧ all_bytes (λ c, Bool.eqb (is_ascii_digit c) run.2) run.1 = true.

Lemma runs_fuel_wf fuel s : Forall wf_run (runs_fuel fuel s).
Proof.
  revert s. induction fuel as [|fuel IH]; intros [|c s]; cbn; try constructor.
  destruct (take_run (is_ascii_digit c) s) as [run rest] eqn:E.
  constructor; [|apply IH]. split; [done|].
  apply take_run_spec in E as [E _]. cbn [fst snd]. rewrite all_bytes_cons, E.
  by rewrite eqb_reflx.
Qed.

(** ** Digit runs compare as numbers *)

Fixpoint dval (s : string) : Z :=
  match s with
  | ""%string => 0
  | String c s => digit_value c * 10 ^ Z.of_nat (String.length s) + dval s
  end%Z.

Lemma fold_digits_dval s acc :
  (fold_left (λ acc c, 10 * acc + digit_value c) (bytes s) acc
   = acc * 10 ^ Z.of_nat (String.length s) + dval s)%Z.
Proof.
  revert acc. induction s as [|c s IH]; intros acc; cbn [bytes list_ascii_of_string fold_left dval].
  - cbn. lia.
  - unfold bytes in IH. rewrite IH. cbn [String.length].
    rewrite Nat2Z.inj_succ, Z.pow_succ_r by lia. lia.
Qed.

Lemma digits_value_dval s : digits_value s = dval s.
Proof. unfold digits_value. rewrite fold_digits_dval. lia. Qed.

Lemma digit_bounds c : is_ascii_digit c = true → (0 ≤ digit_value c < 10)%Z.
Proof. unfold is_ascii_digit, between, digit_value. intros. bools. lia. Qed.

Lemma dval_bounds s :
  all_bytes is_ascii_digit s = true → (0 ≤ dval s < 10 ^ Z.of_nat (String.length s))%Z.
Proof.
  induction s as [|c s IH]; cbn [dval String.length]; [cbn; lia|].
  rewrite all_bytes_cons. intros [Hc Hs]%andb_true_iff. specialize (IH Hs).
  pose proof (digit_bounds c Hc). rewrite Nat2Z.inj_succ, Z.pow_succ_r by lia. nia.
Qed.

Lemma trim_zeros_spec s :
  all_bytes is_ascii_digit s = true →
  all_bytes is_ascii_digit (trim_zeros s) = true ∧ dval (trim_zeros s) = dval s
  ∧ (trim_zeros s = ""%string
     ∨ (10 ^ (Z.of_nat (String.length (trim_zeros s)) - 1) ≤ dval (trim_zeros s))%Z).
Proof.
  induction s as [|c s IH]; cbn [trim_zeros]; [auto|].
  rewrite all_bytes_cons. intros [Hc Hs]%andb_true_iff. case_bool_decide as E.
  - subst c. destruct (IH Hs) as (H1 & H2 & H3). cbn [dval]. auto with lia.
  - split; [by rewrite all_bytes_cons, Hc, Hs|]. split; [done|]. right.
    cbn [dval String.length]. rewrite Nat2Z.inj_succ. replace (Z.succ _ - 1)%Z with (Z.of_nat (String.length s)) by lia.
    pose proof (dval_bounds s Hs). pose proof (digit_bounds c Hc).
    assert (digit_value c ≠ 0)%Z.
    { intros Hz. apply E. unfold digit_value in Hz. apply code_inj. change (code "0") with 48%N. lia. }
    pose proof (Z.pow_pos_nonneg 10 (Z.of_nat (String.length s))). nia.
Qed.

Lemma digit_code c : is_ascii_digit c = true → code c = Z.to_N (digit_value c + 48).
Proof. unfold digit_value. intros H%digit_bounds. unfold digit_value in H. lia. Qed.

Lemma str_cmp_same_length a b :
  all_bytes is_ascii_digit a = true → all_bytes is_ascii_digit b = true →
  String.length a = String.length b → str_cmp a b = Z.compare (dval a) (dval b).
Proof.
  unfold str_cmp. revert b. induction a as [|c a IH]; intros [|d b]; try done.
  rewrite !all_bytes_cons. intros [Hc Ha]%andb_true_iff [Hd Hb]%andb_true_iff [= Hl].
  cbn [bytes list_ascii_of_string list_cmp dval]. unfold bytes in IH. rewrite (IH b Ha Hb Hl), Hl.
  pose proof (dval_bounds a Ha) as Ba. rewrite Hl in Ba. pose proof (dval_bounds b Hb) as Bb.
  pose proof (digit_bounds c Hc). pose proof (digit_bounds d Hd).
  unfold byte_cmp. rewrite (digit_code c Hc), (digit_code d Hd).
  set (p := (10 ^ Z.of_nat (String.length b))%Z) in *.
  destruct (N.compare_spec (Z.to_N (digit_value c + 48)) (Z.to_N (digit_value d + 48))) as [E|E|E];
    cbn [cmp_then].
  - assert (digit_value c = digit_value d) as -> by lia.
    destruct (Z.compare_spec (dval a) (dval b)); symmetry;
      rewrite ?Z.compare_eq_iff, ?Z.compare_lt_iff, ?Z.compare_gt_iff; lia.
  - symmetry. apply Z.compare_lt_iff. nia.
  - symmetry. apply Z.compare_gt_iff. nia.
Qed.

Lemma digit_runs_numeric a b :
  all_bytes is_ascii_digit a = true → all_bytes is_ascii_digit b = true →
  run_cmp (a, true) (b, true) = Z.compare (dval a) (dval b).
Proof.
  intros Ha Hb. cbn [run_cmp].
  destruct (trim_zeros_spec a Ha) as (Ha1 & <- & Ha3).
  destruct (trim_zeros_spec b Hb) as (Hb1 & <- & Hb3).
  set (x := trim_zeros a) in *. set (y := trim_zeros b) in *.
  pose proof (dval_bounds x Ha1) as Bx. pose proof (dval_bounds y Hb1) as By.
  destruct (Nat.compare_spec (String.length x) (String.length y)) as [E|E|E]; cbn [cmp_then].
  - by apply str_cmp_same_length.
  - symmetry. apply Z.compare_lt_iff. destruct Hb3 as [Hy|Hy]; [rewrite Hy in E; cbn in E; lia|].
    pose proof (Z.pow_le_mono_r 10 (Z.of_nat (String.length x)) (Z.of_nat (String.length y) - 1)). lia.
  - symmetry. apply Z.compare_gt_iff. destruct Ha3 as [Hx|Hx]; [rewrite Hx in E; cbn in E; lia|].
    pose proof (Z.pow_le_mono_r 10 (Z.of_nat (String.length y)) (Z.of_nat (String.length x) - 1)). lia.
Qed.

(** ** Equality with the reference order *)

Lemma list_cmp_map {A B} (f : A → B) (ca : A → A → comparison) (cb : B → B → comparison) l k :
  (∀ x y, ca x y = cb (f x) (f y)) → list_cmp ca l k = list_cmp cb (map f l) (map f k).
Proof.
  intros H. revert k. induction l as [|x l IH]; intros [|y k]; cbn; try done.
  by rewrite H, IH.
Qed.

Lemma str_cmp_codes a b : str_cmp a b = list_cmp N.compare (map code (bytes a)) (map code (bytes b)).
Proof. unfold str_cmp. by apply list_cmp_map. Qed.

Lemma digit_code_bounds c : is_ascii_digit c = true → (48 ≤ code c ≤ 57)%N.
Proof. unfold is_ascii_digit, between. intros. bools. lia. Qed.
Lemma non_digit_code c : is_ascii_digit c = false → (code c < 48 ∨ 57 < code c)%N.
Proof. unfold is_ascii_digit, between. intros. bools. lia. Qed.

Lemma wf_run_inv r b :
  wf_run (r, b) → ∃ c s, r = String c s ∧ is_ascii_digit c = b
                          ∧ all_bytes (λ c, Bool.eqb (is_ascii_digit c) b) r = true.
Proof.
  intros [H1 H2]. destruct r as [|c s]; [done|]. cbn [fst snd] in H2. pose proof H2 as H3.
  rewrite all_bytes_cons in H3. apply andb_true_iff in H3 as [H3%eqb_prop _]. eauto.
Qed.

Lemma all_bytes_digit s :
  all_bytes (λ c, Bool.eqb (is_ascii_digit c) true) s = true → all_bytes is_ascii_digit s = true.
Proof.
  induction s as [|c s IH]; [done|]. rewrite !all_bytes_cons.
  destruct (is_ascii_digit c); [exact IH | done].
Qed.

Lemma run_cmp_key x y :
  wf_run x → wf_run y → run_cmp x y = list_cmp N.compare (run_key x) (run_key y).
Proof.
  destruct x as [a da], y as [b db].
  intros (c & s & -> & Hc & Ha)%wf_run_inv (d & t & -> & Hd & Hb)%wf_run_inv.
  destruct da, db.
  - apply all_bytes_digit in Ha, Hb. rewrite digit_runs_numeric by done.
    pose proof (dval_bounds _ Ha). pose proof (dval_bounds _ Hb).
    unfold run_key. rewrite !digits_value_dval.
    generalize dependent (dval (String c s)); intros v ?.
    generalize dependent (dval (String d t)); intros w ?.
    rewrite <-Z2N.inj_compare by lia. cbn. by destruct (N.compare (Z.to_N v) (Z.to_N w)).
  - apply digit_code_bounds in Hc. apply non_digit_code in Hd.
    cbn [run_cmp run_key]. unfold str_cmp, byte_cmp. cbn [bytes list_ascii_of_string list_cmp].
    destruct (N.ltb_spec (code d) 48).
    + change (N.compare 1 0) with Gt. by rewrite (proj2 (N.compare_gt_iff _ _)) by lia.
    + change (N.compare 1 2) with Lt. by rewrite (proj2 (N.compare_lt_iff _ _)) by lia.
  - apply digit_code_bounds in Hd. apply non_digit_code in Hc.
    cbn [run_cmp run_key]. unfold str_cmp, byte_cmp. cbn [bytes list_ascii_of_string list_cmp].
    destruct (N.ltb_spec (code c) 48).
    + change (N.compare 0 1) with Lt. by rewrite (proj2 (N.compare_lt_iff _ _)) by lia.
    + change (N.compare 2 1) with Gt. by rewrite (proj2 (N.compare_gt_iff _ _)) by lia.
  - apply non_digit_code in Hc, Hd. cbn [run_cmp run_key]. rewrite str_cmp_codes.
    cbn [bytes list_ascii_of_string map list_cmp].
    destruct (N.ltb_spec (code c) 48), (N.ltb_spec (code d) 48); cbn [list_cmp].
    + done.
    + change (N.compare 0 2) with Lt. by rewrite (proj2 (N.compare_lt_iff _ _)) by lia.
    + change (N.compare 2 0) with Gt. by rewrite (proj2 (N.compare_gt_iff _ _)) by lia.
    + done.
Qed.

Lemma zip_cmp_key l k :
  Forall wf_run l → Forall wf_run k →
  match zip_cmp l k with Eq => Nat.compare (length l) (length k) | ordering => ordering end
  = key_order (map run_key l) (map run_key k).
Proof.
  unfold key_order. intros Hl. revert k. induction Hl as [|x l Hx Hl IH]; intros k Hk.
  - by destruct k.
  - destruct Hk as [|y k Hy Hk]; [done|].
    cbn [zip_cmp map list_cmp length]. rewrite <-(IH k Hk), (run_cmp_key x y Hx Hy).
    change (Nat.compare (S (length l)) (S (length k))) with (Nat.compare (length l) (length k)).
    by destruct (list_cmp N.compare _ _).
Qed.

Lemma versions_key a b :
  compare_artifact_versions a b = key_order (version_key a) (version_key b).
Proof. apply zip_cmp_key; apply runs_fuel_wf. Qed.

Definition version_le (a b : string) : Prop := compare_artifact_versions a b ≠ Gt.

#[export] Instance version_le_trans : Transitive version_le.
Proof. intros a b c. unfold version_le. rewrite !versions_key. apply cmp_trans, _. Qed.
#[export] Instance version_le_refl : Reflexive version_le.
Proof. intros a. unfold version_le. rewrite versions_key. unfold key_order. by rewrite cmp_refl by apply _. Qed.

Lemma version_not_lt a b : compare_artifact_versions a b ≠ Lt → version_le b a.
Proof.
  unfold version_le. rewrite !versions_key. intros H.
  rewrite (cmp_opp (list_cmp (list_cmp N.compare))). unfold key_order in *.
  by destruct (list_cmp _ (version_key a) (version_key b)).
Qed.

(** The run-by-run comparison of version strings is the lexicographic
    order on their runs, where a digit run counts as the number it spells. *)
Theorem compare_versions_reference a b :
  compare_artifact_versions a b = key_order (version_key a) (version_key b).
Proof. apply versions_key. Qed.

(** Version comparison is a total preorder: swapping the arguments
    reverses the result, not-newer is transitive, and two versions tie exactly
    when their runs agree up to leading zeros of numbers. *)
Theorem compare_versions_total_preorder a b c :
  compare_artifact_versions b a = CompOpp (compare_artifact_versions a b)
  ∧ (version_le a b → version_le b c → version_le a c)
  ∧ (compare_artifact_versions a b = Eq ↔ version_key a = version_key b).
Proof.
  split; [|split].
  - rewrite !versions_key. apply cmp_opp, _.
  - apply version_le_trans.
  - rewrite versions_key. apply cmp_eq, _.
Qed.
