(* ===== verification/Canonical.v ===== *)
(** * Canonical JSON and digests

    canonical.rs: the writer that turns a [serde_json::Value] into canonical
    JSON (object members sorted by UTF-16 code units, integers only), and the
    SHA-256 digest strings built on it. SHA-256 itself and the JSON string
    literal of [serde_json::to_string] are parameters. *)

From Stdlib Require Import Ascii String ZArith Lia.
From stdpp Require Import base strings list sorting numbers.
From S2P Require Import Prelude RustStr Errors Collections.

(** The cryptographic and serialisation crates the digests call. *)
Class Primitives := {
  (** [Sha256::digest]. *)
  sha256 : string → string;
  (** [serde_json::to_string] of a string: its JSON literal. *)
  json_string : string → string;
}.

(** What the code relies on: a digest is 32 bytes. *)
Class Sha256Laws `{!Primitives} : Prop := {
  sha256_length s : String.length (sha256 s) = 32%nat;
}.

(** [serde_json::Number]: integers are kept as [u64] or, when negative, [i64]. *)
Inductive Number : Type :=
| PosInt (n : Z)
| NegInt (n : Z)
| FloatNumber.

(** [serde_json::Value]. *)
#[warnings="-register-all"]
Inductive Value : Type :=
| VNull
| VBool (b : bool)
| VNumber (n : Number)
| VString (s : string)
| VArray (items : list Value)
| VObject (entries : list (string * Value)).

Definition MAX_SAFE_JSON_INT : Z := 9007199254740991.

(** [str::encode_utf16]. *)
Fixpoint encode_utf16 (s : string) : list N :=
  match s with
  | "" => []
  | String a s1 =>
      if (code a <? 128)%N then code a :: encode_utf16 s1
      else match s1 with
      | "" => [code a]
      | String b s2 =>
          let lo c := (code c mod 64)%N in
          if (code a <? 224)%N then ((code a mod 32) * 64 + lo b)%N :: encode_utf16 s2
          else match s2 with
          | "" => [code a; code b]
          | String c s3 =>
              if (code a <? 240)%N
              then ((code a mod 16) * 4096 + lo b * 64 + lo c)%N :: encode_utf16 s3
              else match s3 with
              | "" => [code a; code b; code c]
              | String d s4 =>
                  let u := ((code a mod 8) * 262144 + lo b * 4096 + lo c * 64 + lo d - 65536)%N in
                  (55296 + u / 1024)%N :: (56320 + u mod 1024)%N :: encode_utf16 s4
              end
          end
      end
  end%string.

Definition utf16_cmp (a b : string) : comparison :=
  list_cmp N.compare (encode_utf16 a) (encode_utf16 b).
Definition member_cmp {A} (p q : string * A) : comparison := utf16_cmp p.1 q.1.

Definition write_number (number : Number) : Result string :=
  match number with
  | PosInt value =>
      bail (UnsafeInteger value) when (MAX_SAFE_JSON_INT <? value)%Z;
      Ok (dec_string value)
  | NegInt value =>
      let abs := Z.abs value in
      bail (UnsafeInteger abs) when (MAX_SAFE_JSON_INT <? abs)%Z;
      Ok (dec_string value)
  | FloatNumber => Err NonCanonicalFloat
  end.

(** Items joined by commas, the first error of an item returned. *)
Fixpoint join_comma (items : list (Result string)) : Result string :=
  match items with
  | [] => Ok ""%string
  | [item] => item
  | item :: items => s ← item; rest ← join_comma items; Ok (s +:+ "," +:+ rest)%string
  end.

Definition write_member `{!Primitives} (member : string * Result string) : Result string :=
  s ← member.2; Ok (json_string member.1 +:+ ":" +:+ s)%string.

Fixpoint write_value `{!Primitives} (value : Value) : Result string :=
  match value with
  | VNull => Ok "null"
  | VBool v => Ok (if v then "true" else "false")
  | VNumber number => write_number number
  | VString value => Ok (json_string value)
  | VArray values =>
      body ← join_comma (map write_value values);
      Ok ("[" +:+ body +:+ "]")
  | VObject values =>
      let members := map (λ '(key, value), (key, write_value value)) values in
      body ← join_comma (map write_member (sort_by member_cmp members));
      Ok ("{" +:+ body +:+ "}")
  end%string.

Definition sha256_digest `{!Primitives} (bytes : string) : string :=
  "sha256:" +:+ lower_hex (sha256 bytes).

Definition canonical_json `{!Primitives} (value : Value) : Result string := write_value value.

Definition canonical_digest `{!Primitives} (value : Value) : Result string :=
  json ← canonical_json value; Ok (sha256_digest json).

(** ** Reading a value *)

(** [value.get(key)]: the last entry of an object, as [serde_json] keeps it. *)
Definition value_get (key : string) (value : Value) : option Value :=
  match value with
  | VObject entries =>
      fold_left (λ found entry, if entry.1 =?= key then Some entry.2 else found) entries None
  | _ => None
  end.
Definition value_as_str (value : Value) : option string :=
  match value with VString s => Some s | _ => None end.
Definition value_as_bool (value : Value) : option bool :=
  match value with VBool b => Some b | _ => None end.
Definition value_as_u64 (value : Value) : option Z :=
  match value with VNumber (PosInt n) => Some n | _ => None end.
Definition value_as_array (value : Value) : option (list Value) :=
  match value with VArray items => Some items | _ => None end.

Definition get_str (key : string) (value : Value) : option string := value_get key value ≫= value_as_str.
Definition get_u64 (key : string) (value : Value) : option Z := value_get key value ≫= value_as_u64.
Definition get_array (key : string) (value : Value) : option (list Value) := value_get key value ≫= value_as_array.

(** ** Member order does not matter

    Two values that list the members of their objects in a different order:
    what [serde] produces for maps and structs. *)

#[warnings="-register-all"]
Inductive value_equiv : Value → Value → Prop :=
| equiv_refl v : value_equiv v v
| equiv_array vs ws : Forall2 value_equiv vs ws → value_equiv (VArray vs) (VArray ws)
| equiv_object vs ws us :
    NoDup (map (λ p : string * Value, encode_utf16 p.1) vs) →
    vs ≡ₚ us →
    Forall2 (λ p q, p.1 = q.1 ∧ value_equiv p.2 q.2) us ws →
    value_equiv (VObject vs) (VObject ws).

Section Order.
Context {prim : Primitives}.

Lemma value_equiv_ind_strong (P : Value → Value → Prop) :
  (∀ v, P v v) →
  (∀ vs ws, Forall2 (λ v w, value_equiv v w ∧ P v w) vs ws → P (VArray vs) (VArray ws)) →
  (∀ vs ws us, NoDup (map (λ p : string * Value, encode_utf16 p.1) vs) → vs ≡ₚ us →
     Forall2 (λ p q, p.1 = q.1 ∧ value_equiv p.2 q.2 ∧ P p.2 q.2) us ws →
     P (VObject vs) (VObject ws)) →
  ∀ v w, value_equiv v w → P v w.
Proof.
  intros Hr Ha Ho. fix IH 3. intros v w Heq. destruct Heq as [v|vs ws Hf|vs ws us Hn Hp Hf].
  - apply Hr.
  - apply Ha. induction Hf as [|v w vs ws Hvw _ IHs]; constructor; [|exact IHs].
    split; [exact Hvw | exact (IH v w Hvw)].
  - apply (Ho vs ws us Hn Hp). clear Hn Hp.
    induction Hf as [|v w us ws Hvw _ IHs]; constructor; [|exact IHs].
    destruct Hvw as [Hk Hvw]. split; [exact Hk|]. split; [exact Hvw | exact (IH _ _ Hvw)].
Qed.

(** Sorting by distinct keys forgets the order of the members. *)
Lemma sort_members_perm {A} (l k : list (string * A)) :
  NoDup (map (λ p, encode_utf16 p.1) l) → l ≡ₚ k →
  sort_by member_cmp l = sort_by member_cmp k.
Proof.
  intros Hn Hp.
  assert (∀ l : list (string * A), StronglySorted (cmp_le member_cmp) (sort_by member_cmp l)) as Hs.
  { intros m. unfold sort_by. apply StronglySorted_merge_sort.
    - intros x y z. unfold cmp_le, member_cmp, utf16_cmp. by apply cmp_trans, _.
    - intros x y. unfold cmp_le, member_cmp, utf16_cmp.
      rewrite (cmp_opp (list_cmp N.compare) (encode_utf16 x.1)).
      destruct (list_cmp _ _ _); naive_solver. }
  apply (StronglySorted_unique_strong (cmp_le member_cmp)); [|apply Hs|apply Hs|].
  - intros x y Hx Hy Hxy Hyx.
    unfold sort_by in Hx, Hy. rewrite merge_sort_Permutation in Hx, Hy. rewrite <-Hp in Hy.
    assert (encode_utf16 x.1 = encode_utf16 y.1) as E.
    { apply (cmp_antisym (list_cmp N.compare)); assumption. }
    apply list_elem_of_lookup in Hx as [i Hi]. apply list_elem_of_lookup in Hy as [j Hj].
    assert (i = j) as ->; [|congruence].
    eapply (NoDup_lookup _ _ _ (encode_utf16 x.1) Hn).
    + by rewrite list_lookup_fmap, Hi.
    + by rewrite list_lookup_fmap, Hj, E.
  - unfold sort_by. by rewrite !merge_sort_Permutation.
Qed.

Lemma write_value_equiv v w : value_equiv v w → write_value v = write_value w.
Proof.
  revert v w. apply value_equiv_ind_strong.
  - done.
  - intros vs ws H. cbn [write_value]. do 2 f_equal.
    induction H as [|v w vs ws [_ Hvw] _ IH]; cbn; [done|]. by rewrite Hvw, IH.
  - intros vs ws us Hn Hp H. cbn [write_value]. do 3 f_equal.
    transitivity (sort_by member_cmp (map (λ '(key, value), (key, write_value value)) us)).
    + apply sort_members_perm.
      * rewrite map_map. erewrite map_ext; [exact Hn|]. by intros [].
      * by rewrite Hp.
    + f_equal. clear Hn Hp. induction H as [|[k v] [k' w] us ws [Hk [_ Hvw]] _ IH]; cbn; [done|].
      cbn in *. by rewrite IH, Hvw, Hk.
Qed.
End Order.
