(* ===== verification/JsonInjective.v ===== *)
(** * Canonical JSON determines the value

    The canonical text of canonical.rs is uniquely decodable: two values with
    the same text differ only in the order of object members. A digest of the
    text therefore pins the value up to a SHA-256 collision. *)

From Stdlib Require Import Ascii String ZArith Lia.
From stdpp Require Import base strings list sorting numbers.
From S2P Require Import Prelude RustStr Errors Collections Versions Timestamps Canonical.

Open Scope string_scope.

(** What the writer relies on: the JSON literal of a string starts with a
    double quote and shows where it ends. *)
Class JsonStringLaws `{!Primitives} : Prop := {
  json_string_quote s : ∃ r, json_string s = String (ascii_of_nat 34) r;
  json_string_delimited a b x y : json_string a +:+ x = json_string b +:+ y → a = b ∧ x = y;
}.

(** ** Values with sorted members *)

#[warnings="-register-all"]
Fixpoint normal_form (value : Value) : Value :=
  match value with
  | VArray values => VArray (map normal_form values)
  | VObject members =>
      VObject (sort_by member_cmp (map (λ '(key, value), (key, normal_form value)) members))
  | other => other
  end.

(** [Number] as [serde_json] builds it: a [u64], or a negative [i64]. *)
Definition wf_number (n : Number) : bool :=
  match n with
  | PosInt n => (0 <=? n)%Z
  | NegInt n => (n <? 0)%Z
  | FloatNumber => true
  end.

Fixpoint wf_value (value : Value) : bool :=
  match value with
  | VNumber n => wf_number n
  | VArray values => forallb wf_value values
  | VObject members => forallb (λ '(_, value), wf_value value) members
  | _ => true
  end.

Lemma Value_ind_strong (P : Value → Prop) :
  P VNull → (∀ b, P (VBool b)) → (∀ n, P (VNumber n)) → (∀ s, P (VString s)) →
  (∀ vs, Forall P vs → P (VArray vs)) →
  (∀ ms : list (string * Value), Forall (λ m, P m.2) ms → P (VObject ms)) →
  ∀ v, P v.
Proof.
  intros H1 H2 H3 H4 H5 H6. fix IH 1. intros [|b|n|s|vs|ms]; [done..| |].
  - apply H5. induction vs as [|v vs IHs]; constructor; [apply IH | exact IHs].
  - apply H6. induction ms as [|m ms IHs]; constructor; [apply IH | exact IHs].
Qed.

(** ** Sorting commutes with a map that respects the order *)

Section SortMap.
Context {A B : Type} (f : A → B) (ca : A → A → comparison) (cb : B → B → comparison).
Hypothesis Hf : ∀ x y, ca x y = cb (f x) (f y).

Lemma list_merge_map l k :
  list_merge (cmp_le cb) (map f l) (map f k) = map f (list_merge (cmp_le ca) l k).
Proof.
  revert k. induction l as [|x l IHl]; intros k; [by destruct k|].
  induction k as [|y k IHk]; [done|].
  cbn [map]. rewrite !list_merge_cons.
  change (f y :: map f k) with (map f (y :: k)). rewrite IHl.
  change (f x :: map f l) with (map f (x :: l)). rewrite IHk.
  assert (cmp_le cb (f x) (f y) ↔ cmp_le ca x y) as E by (unfold cmp_le; by rewrite Hf).
  by destruct (decide (cmp_le cb (f x) (f y))), (decide (cmp_le ca x y)); try naive_solver.
Qed.

Lemma sort_by_map l : sort_by cb (map f l) = map f (sort_by ca l).
Proof.
  unfold sort_by, merge_sort.
  assert (∀ st l, merge_list_to_stack (cmp_le cb) (map (option_map (map f)) st) (map f l)
    = map (option_map (map f)) (merge_list_to_stack (cmp_le ca) st l)) as Hs.
  { intros st. induction st as [|[k|] st IH]; intros k'; cbn; [done| |done].
    by rewrite list_merge_map, IH. }
  assert (∀ st, merge_stack (cmp_le cb) (map (option_map (map f)) st)
    = map f (merge_stack (cmp_le ca) st)) as Hm.
  { intros st. induction st as [|[k|] st IH]; cbn; [done| |done]. by rewrite IH, list_merge_map. }
  change (@nil (option (list B))) with (map (option_map (map f)) (@nil (option (list A)))).
  generalize (@nil (option (list A))). induction l as [|x l IH]; intros st; cbn; [apply Hm|].
  change [f x] with (map f [x]). rewrite Hs. apply IH.
Qed.
End SortMap.

(** ** Unique decodability *)

Definition is_delimiter (c : ascii) : bool := (c =?= ","%char) || (c =?= "]"%char) || (c =?= "}"%char).

(** The text after a value: nothing, or a delimiter. *)
Definition after_value (x : string) : Prop :=
  match x with "" => True | String c _ => is_delimiter c = true end.

Definition opens (s : string) : Prop :=
  match s with "" => False | String c _ => is_delimiter c = false end.

Definition decodable {A} (W : A → Prop) (e : A → Result string) (a : A) : Prop :=
  ∀ b s t x y, W b → e a = Ok s → e b = Ok t → s +:+ x = t +:+ y →
    after_value x → after_value y → a = b ∧ x = y.


Lemma join_comma_cons2 a b items :
  join_comma (a :: b :: items) = (s ← a; rest ← join_comma (b :: items); Ok (s +:+ "," +:+ rest)).
Proof. reflexivity. Qed.

Section Decode.
Context {A : Type} (W : A → Prop) (e : A → Result string) (close : ascii).
Hypothesis Hopens : ∀ a s, W a → e a = Ok s → opens s.
Hypothesis Hclose : is_delimiter close = true ∧ close ≠ ","%char.

Lemma join_head a l s x :
  join_comma (map e (a :: l)) = Ok s →
  ∃ s0 tail, e a = Ok s0 ∧ after_value tail ∧ s +:+ String close x = s0 +:+ tail
    ∧ match l with
      | [] => tail = String close x
      | _ => ∃ s', join_comma (map e l) = Ok s' ∧ tail = String "," (s' +:+ String close x)
      end.
Proof.
  destruct l as [|b l]; cbn [map].
  - cbn [join_comma]. intros H. exists s, (String close x). naive_solver.
  - rewrite join_comma_cons2. intros H. inv_ok.
    eexists _, (String "," (_ +:+ String close x)). split; [done|]. split; [done|].
    split; [|eauto]. by rewrite !append_assoc.
Qed.

Lemma join_nonempty a l s x y :
  W a → join_comma (map e (a :: l)) = Ok s → s +:+ String close x ≠ String close y.
Proof.
  intros Ha (s0 & tail & He & _ & -> & _)%(join_head a l s x) Heq.
  apply Hopens in He; [|done]. destruct s0 as [|c s0]; [done|]. rewrite append_cons in Heq.
  injection Heq as -> _. destruct Hclose as [Hd _]. cbn in He. congruence.
Qed.

Lemma join_decodable l k s t x y :
  Forall (decodable W e) l → Forall W l → Forall W k → join_comma (map e l) = Ok s → join_comma (map e k) = Ok t →
  s +:+ String close x = t +:+ String close y → l = k ∧ x = y.
Proof.
  intros Hl. revert k s t.
  induction Hl as [|a l Ha Hl IH]; intros [|b k] s t Hwl Hwk Hs Ht Heq.
  - cbn in Hs, Ht. injection Hs as <-. injection Ht as <-. by injection Heq as ->.
  - injection Hs as <-. symmetry in Heq. inversion Hwk. by apply (join_nonempty b k) in Heq.
  - injection Ht as <-. inversion Hwl. by apply (join_nonempty a l) in Heq.
  - inversion Hwl as [|?? Hwa Hwl']; inversion Hwk as [|?? Hwb Hwk']; subst.
    apply (join_head a l s x) in Hs as (s0 & tx & Hea & Hx & Es & Hsl).
    apply (join_head b k t y) in Ht as (t0 & ty & Heb & Hy & Et & Htk).
    rewrite Es, Et in Heq. destruct (Ha b s0 t0 tx ty Hwb Hea Heb Heq Hx Hy) as [-> Etail].
    destruct l as [|a' l], k as [|b' k].
    + subst tx ty. by injection Etail as ->.
    + destruct Htk as (s' & _ & ->). subst tx. injection Etail as E _. naive_solver.
    + destruct Hsl as (s' & _ & ->). subst ty. injection Etail as E _. naive_solver.
    + destruct Hsl as (s' & Hs' & ->), Htk as (t' & Ht' & ->). injection Etail as Etail.
      destruct (IH _ _ _ Hwl' Hwk' Hs' Ht' Etail) as [-> ->]. done.
Qed.
End Decode.

(** ** Numbers *)

Fixpoint digit_span (s : string) : string * string :=
  match s with
  | "" => ("", "")
  | String c s' =>
      if is_ascii_digit c then let '(d, r) := digit_span s' in (String c d, r) else ("", s)
  end.

Lemma digit_span_app s x :
  all_bytes is_ascii_digit s = true → after_value x → digit_span (s +:+ x) = (s, x).
Proof.
  intros Hs Hx. induction s as [|c s IH].
  - destruct x as [|c x]; [done|]. cbn in Hx |- *. change ("" +:+ String c x) with (String c x).
    cbn. unfold is_delimiter in Hx. bools. naive_solver.
  - rewrite all_bytes_cons in Hs. apply andb_true_iff in Hs as [Hc Hs].
    rewrite append_cons. cbn. by rewrite Hc, (IH Hs).
Qed.

Lemma dec_digits_dval fuel n acc :
  (0 ≤ n < 10 ^ Z.of_nat (S fuel))%Z →
  dval (dec_digits fuel n acc) = (n * 10 ^ Z.of_nat (String.length acc) + dval acc)%Z.
Proof.
  revert n acc. induction fuel as [|fuel IH]; intros n acc Hn.
  - cbn [dec_digits dval]. rewrite Z.mod_small by lia.
    rewrite digit_value_char by lia. lia.
  - rewrite dec_digits_S. rewrite Nat2Z.inj_succ, Z.pow_succ_r in Hn by lia.
    assert (0 ≤ n mod 10 < 10)%Z as Hm by (Z.div_mod_to_equations; lia).
    destruct (Z.ltb_spec n 10).
    + cbn [dval]. rewrite digit_value_char, Z.mod_small by lia. lia.
    + rewrite IH by (Z.div_mod_to_equations; lia). cbn [dval String.length].
      rewrite digit_value_char, Nat2Z.inj_succ, Z.pow_succ_r by lia.
      rewrite (Z.div_mod n 10) at 3 by lia. lia.
Qed.

#[local] Opaque dec_digits.

Lemma dec_digits_delimited n m x y :
  (0 ≤ n ≤ MAX_SAFE_JSON_INT)%Z → (0 ≤ m ≤ MAX_SAFE_JSON_INT)%Z →
  after_value x → after_value y →
  dec_digits 20 n "" +:+ x = dec_digits 20 m "" +:+ y → n = m ∧ x = y.
Proof.
  unfold MAX_SAFE_JSON_INT. intros Hn Hm Hx Hy Heq. apply (f_equal digit_span) in Heq.
  pose proof (proj1 (dec_digits_all 20 n "" (proj1 Hn) eq_refl)).
  pose proof (proj1 (dec_digits_all 20 m "" (proj1 Hm) eq_refl)).
  rewrite !digit_span_app in Heq by done.
  apply pair_equal_spec in Heq as [Heq ->]. split; [|done]. apply (f_equal dval) in Heq.
  rewrite !dec_digits_dval in Heq by lia. cbn in Heq. lia.
Qed.

Lemma dec_digits_head n : (0 ≤ n)%Z → ∃ c r, dec_digits 20 n "" = String c r ∧ is_ascii_digit c = true.
Proof.
  intros Hn. destruct (dec_digits_all 20 n "" Hn eq_refl) as [Hd Hl].
  destruct (dec_digits 20 n "") as [|c r]; [cbn in Hl; lia|].
  rewrite all_bytes_cons in Hd. apply andb_true_iff in Hd as [Hd _]. eauto.
Qed.

Lemma digit_opens c r : is_ascii_digit c = true → opens (String c r).
Proof. cbn. unfold is_delimiter. intros H. repeat case_bool_decide; subst; done. Qed.

Lemma write_number_Ok n s :
  wf_number n = true → write_number n = Ok s →
  (∃ k, n = PosInt k ∧ s = dec_digits 20 k "" ∧ (0 ≤ k ≤ MAX_SAFE_JSON_INT)%Z)
  ∨ (∃ k, n = NegInt k ∧ s = String "-" (dec_digits 20 (- k) "") ∧ (0 ≤ - k ≤ MAX_SAFE_JSON_INT)%Z).
Proof.
  destruct n as [k|k|]; cbn; intros Hk Hs; [| |done]; inv_ok; bools; unfold dec_string.
  - left. exists k. destruct (Z.ltb_spec k 0); [lia|]. split; [done|]. split; [done|lia].
  - right. exists k. destruct (Z.ltb_spec k 0); [|lia]. split; [done|]. split; [done|lia].
Qed.

(** ** Values *)

Section Injective.
Context {prim : Primitives}.

(** The writer on values whose members are already in order. *)
Fixpoint write_sorted (value : Value) : Result string :=
  match value with
  | VNull => Ok "null"
  | VBool v => Ok (if v then "true" else "false")
  | VNumber number => write_number number
  | VString value => Ok (json_string value)
  | VArray values => body ← join_comma (map write_sorted values); Ok ("[" +:+ body +:+ "]")
  | VObject members =>
      body ← join_comma (map (λ '(key, value), write_member (key, write_sorted value)) members);
      Ok ("{" +:+ body +:+ "}")
  end.

Lemma write_value_sorted v : write_value v = write_sorted (normal_form v).
Proof.
  induction v as [| | | |vs IH|ms IH] using Value_ind_strong; [done..| |]; cbn.
  - do 2 f_equal. rewrite map_map. apply map_ext_Forall, IH.
  - do 2 f_equal.
    rewrite (sort_by_map (λ '(key, value), (key, write_value value)) member_cmp) by (by intros [] []).
    rewrite (sort_by_map (λ '(key, value), (key, normal_form value)) member_cmp) by (by intros [] []).
    rewrite !map_map. apply map_ext_Forall.
    unfold sort_by. rewrite merge_sort_Permutation.
    eapply Forall_impl; [|exact IH]. intros [k v] Hv. cbn in *. by rewrite Hv.
Qed.

Definition write_entry (member : string * Value) : Result string :=
  write_member (member.1, write_sorted member.2).

Lemma write_sorted_object ms :
  write_sorted (VObject ms) = (body ← join_comma (map write_entry ms); Ok ("{" +:+ body +:+ "}")).
Proof.
  cbn [write_sorted]. do 2 f_equal. apply map_ext. by intros [].
Qed.

Context {laws : JsonStringLaws}.

Definition wf (v : Value) : Prop := wf_value v = true.

(** The first byte of a value's text tells its constructor. *)
Definition tag_of (v : Value) : nat :=
  match v with
  | VNull => 0 | VBool true => 1 | VBool false => 2 | VNumber _ => 3 | VString _ => 4
  | VArray _ => 5 | VObject _ => 6
  end.
Definition tag_of_byte (c : ascii) : nat :=
  if c =?= "n"%char then 0 else if c =?= "t"%char then 1 else if c =?= "f"%char then 2
  else if c =?= ascii_of_nat 34 then 4 else if c =?= "["%char then 5
  else if c =?= "{"%char then 6 else if is_delimiter c then 7 else 3.

Lemma digit_tag c : is_ascii_digit c = true → tag_of_byte c = 3%nat.
Proof. intros H. unfold tag_of_byte, is_delimiter. repeat case_bool_decide; subst; done. Qed.

Lemma write_sorted_tag v s :
  wf v → write_sorted v = Ok s → ∃ c r, s = String c r ∧ tag_of_byte c = tag_of v.
Proof.
  destruct v as [|[]|n|t|vs|ms]; intros Hw; rewrite ?write_sorted_object; cbn [write_sorted];
    intros Hs; [| | | | | |]; inv_ok; try by eexists _, _.
  - apply write_number_Ok in Hs as [(k & _ & -> & Hk)|(k & _ & -> & _)]; [|by eexists _, _|exact Hw].
    destruct (dec_digits_head k) as (c & r & -> & Hc); [lia|]. eauto using digit_tag.
  - destruct (json_string_quote t) as [r ->]. by eexists _, _.
Qed.

Lemma write_sorted_opens v s : wf v → write_sorted v = Ok s → opens s.
Proof.
  intros Hw (c & r & -> & Ht)%write_sorted_tag; [|done]. cbn.
  apply not_true_iff_false. intros Hd. unfold is_delimiter in Hd.
  assert (tag_of_byte c = 7%nat) as E; [|by destruct v as [|[]| | | |]; rewrite E in Ht].
  bools. naive_solver.
Qed.

Lemma write_entry_opens m s : write_entry m = Ok s → opens s.
Proof.
  unfold write_entry, write_member. intros Hs. inv_ok. cbn.
  by destruct (json_string_quote m.1) as [r ->].
Qed.

Lemma write_sorted_same_tag v w s t x y :
  wf v → wf w → write_sorted v = Ok s → write_sorted w = Ok t → s +:+ x = t +:+ y →
  tag_of v = tag_of w.
Proof.
  intros Hv Hw (c & r & -> & <-)%write_sorted_tag (d & r' & -> & <-)%write_sorted_tag Heq; [|done..].
  rewrite !append_cons in Heq. by injection Heq as -> _.
Qed.

Lemma wf_array vs : wf (VArray vs) → Forall wf vs.
Proof. unfold wf. cbn. by rewrite forallb_forall, List.Forall_forall. Qed.
Lemma wf_object ms : wf (VObject ms) → Forall (λ m, wf m.2) ms.
Proof.
  unfold wf. cbn. rewrite forallb_forall, List.Forall_forall. intros H [k v] Hin. by apply (H (k, v)).
Qed.

Lemma number_decodable n : wf (VNumber n) → decodable wf write_sorted (VNumber n).
Proof.
  intros Hn b s t x y Hb Hs Ht Heq Hx Hy.
  pose proof (write_sorted_same_tag _ _ _ _ _ _ Hn Hb Hs Ht Heq) as Htag.
  destruct b as [|[]|m| | |]; try discriminate Htag.
  apply write_number_Ok in Hs; [|exact Hn].
  apply write_number_Ok in Ht; [|exact Hb].
  destruct Hs as [(k & -> & -> & Hk)|(k & -> & -> & Hk)],
           Ht as [(j & -> & -> & Hj)|(j & -> & -> & Hj)].
  - apply dec_digits_delimited in Heq as [-> ->]; done.
  - destruct (dec_digits_head k) as (c & r & E & Hc); [lia|]. rewrite E in Heq.
    injection Heq as -> _. done.
  - destruct (dec_digits_head j) as (c & r & E & Hc); [lia|]. rewrite E in Heq.
    injection Heq as <- _. done.
  - rewrite !append_cons in Heq. injection Heq as Heq.
    apply dec_digits_delimited in Heq as [E ->]; [|done..]. by replace k with j by lia.
Qed.

Lemma entry_decodable m :
  decodable wf write_sorted m.2 → decodable (λ m, wf m.2) write_entry m.
Proof.
  destruct m as [k v]. intros Hv [k' v'] s t x y Hb Hs Ht Heq Hx Hy.
  unfold write_entry, write_member in *. cbn in *. inv_ok.
  rewrite !append_assoc in Heq. apply json_string_delimited in Heq as [-> Heq].
  rewrite !append_cons in Heq. injection Heq as Heq.
  by destruct (Hv v' _ _ x y Hb ltac:(eassumption) ltac:(eassumption) Heq Hx Hy) as [-> ->].
Qed.

Lemma write_sorted_decodable v : wf v → decodable wf write_sorted v.
Proof.
  induction v as [|c|n|u|vs IH|ms IH] using Value_ind_strong; intros Hv; try by apply number_decodable.
  all: intros b s t x y Hb Hs Ht Heq Hx Hy.
  all: pose proof (write_sorted_same_tag _ _ _ _ _ _ Hv Hb Hs Ht Heq) as Htag.
  all: try (destruct c); destruct b as [|[]|m|u'|vs'|ms']; try discriminate Htag.
  all: rewrite ?write_sorted_object in Hs, Ht; cbn [write_sorted] in Hs, Ht; inv_ok.
  all: rewrite ?append_assoc in Heq.
  1-3: split; [done|]; by injection Heq.
  - by apply json_string_delimited in Heq as [-> ->].
  - injection Heq as Heq. apply wf_array in Hv, Hb.
    eapply (join_decodable wf write_sorted "]") in Heq as [-> ->]; [done|..];
      eauto using write_sorted_opens.
    rewrite List.Forall_forall in *. naive_solver.
  - injection Heq as Heq. apply wf_object in Hv, Hb.
    eapply (join_decodable (λ m, wf m.2) write_entry "}") in Heq as [-> ->]; [done|..];
      eauto using write_entry_opens.
    rewrite List.Forall_forall in *. intros m Hm. apply entry_decodable. naive_solver.
Qed.

Lemma normal_form_wf v : wf v → wf (normal_form v).
Proof.
  induction v as [| | | |vs IH|ms IH] using Value_ind_strong; [done..| |]; intros Hv.
  - apply wf_array in Hv. unfold wf in *. cbn. rewrite forallb_forall. intros w.
    rewrite List.in_map_iff. intros (v & <- & Hin). rewrite List.Forall_forall in *. naive_solver.
  - apply wf_object in Hv. unfold wf in *. cbn. rewrite forallb_forall. intros [k w] Hin.
    apply list_elem_of_In in Hin. unfold sort_by in Hin. rewrite merge_sort_Permutation in Hin.
    apply list_elem_of_In, List.in_map_iff in Hin as ([k' v] & [= <- <-] & Hin).
    rewrite List.Forall_forall in *. apply (IH _ Hin), (Hv _ Hin).
Qed.

Lemma canonical_json_inj v w s :
  wf v → wf w → canonical_json v = Ok s → canonical_json w = Ok s → normal_form v = normal_form w.
Proof.
  unfold canonical_json. rewrite !write_value_sorted. intros Hv Hw Hs Ht.
  by destruct (write_sorted_decodable (normal_form v) (normal_form_wf v Hv) (normal_form w) s s "" ""
    (normal_form_wf w Hw) Hs Ht eq_refl I I) as [-> _].
Qed.

(** C35: canonical JSON is unambiguous and order-blind: two values the writer
    accepts have the same text exactly when they agree once the members of
    every object are put in order. *)
Theorem canonical_json_unambiguous v w s t :
  wf v → wf w → canonical_json v = Ok s → canonical_json w = Ok t →
  s = t ↔ normal_form v = normal_form w.
Proof.
  intros Hv Hw Hs Ht. split.
  - intros <-. by apply (canonical_json_inj v w s).
  - unfold canonical_json in *. rewrite write_value_sorted in Hs, Ht. congruence.
Qed.

(** A digest pins a value up to a collision of the hash. *)
Definition sha256_collision (a b : string) : Prop := a ≠ b ∧ sha256 a = sha256 b.

(** The canonical texts of two values collide. *)
Definition values_collide (v w : Value) : Prop :=
  ∃ s t, canonical_json v = Ok s ∧ canonical_json w = Ok t ∧ sha256_collision s t.

Lemma lower_hex_inj a b : lower_hex a = lower_hex b → a = b.
Proof.
  revert b. induction a as [|c a IH]; intros [|d b]; cbn; try done.
  intros [= Hhi Hlo Hr%IH]. subst. f_equal. clear -Hhi Hlo. apply code_inj.
  assert (∀ n m, (n < 16)%N → (m < 16)%N → hex_digit n = hex_digit m → n = m) as Hh.
  { intros n m Hn Hm E. apply (f_equal code) in E. unfold hex_digit, code in E.
    destruct (N.ltb_spec n 10), (N.ltb_spec m 10); rewrite !N_ascii_embedding in E by lia; lia. }
  pose proof (N_ascii_bounded c). pose proof (N_ascii_bounded d). unfold code in *.
  apply Hh in Hhi; [|apply N.Div0.div_lt_upper_bound; lia..].
  apply Hh in Hlo; [|apply N.mod_lt; lia..].
  rewrite (N.div_mod' (N_of_ascii c) 16), (N.div_mod' (N_of_ascii d) 16). by rewrite Hhi, Hlo.
Qed.

Lemma sha256_digest_inj s t : sha256_digest s = sha256_digest t → s = t ∨ sha256_collision s t.
Proof.
  unfold sha256_digest. intros Heq.
  assert (lower_hex (sha256 s) = lower_hex (sha256 t)) as E by (by injection Heq).
  apply lower_hex_inj in E. destruct (decide (s = t)) as [->|]; [by left|]. by right.
Qed.

Lemma canonical_digest_inj v w d :
  wf v → wf w → canonical_digest v = Ok d → canonical_digest w = Ok d →
  normal_form v = normal_form w ∨ values_collide v w.
Proof.
  unfold canonical_digest. intros Hv Hw (s & Hs & Es)%bind_Ok (t & Ht & Et)%bind_Ok.
  assert (sha256_digest s = sha256_digest t) as E by congruence.
  destruct (sha256_digest_inj _ _ E) as [->|[Hne E']].
  - left. by eapply canonical_json_inj.
  - right. exists s, t. unfold sha256_collision. naive_solver.
Qed.
End Injective.

(** ** A concrete instance

    A self-delimiting string literal and a 32-byte checksum stand in for
    [serde_json::to_string] and SHA-256. *)

Definition quote : ascii := ascii_of_nat 34.
Fixpoint pad32 (n : nat) (s : string) : string :=
  match n, s with
  | 0, _ => ""
  | S n, "" => String "0" (pad32 n "")
  | S n, String c s => String c (pad32 n s)
  end%nat.

Lemma pad32_length n s : String.length (pad32 n s) = n.
Proof. revert s. induction n as [|n IH]; intros [|c s]; cbn; [done..|by rewrite IH|by rewrite IH]. Qed.

#[export] Instance example_primitives : Primitives := {
  sha256 s := pad32 32 s;
  json_string s := String quote (lower_hex s +:+ String quote "");
}.

#[export] Instance example_sha256_laws : Sha256Laws.
Proof. constructor. exact (pad32_length 32). Qed.

#[export] Instance example_json_laws : JsonStringLaws.
Proof.
  constructor; [by eexists|]. intros a b x y Heq. cbn in Heq. rewrite !append_cons in Heq.
  injection Heq as Heq. rewrite !append_assoc, !append_cons in Heq.
  change ("" +:+ x) with x in Heq. change ("" +:+ y) with y in Heq.
  assert (∀ n, (n < 16)%N → hex_digit n ≠ quote) as Hq.
  { intros n Hn E. apply (f_equal code) in E. unfold hex_digit, code in E.
    destruct (N.ltb_spec n 10); rewrite N_ascii_embedding in E by lia; change (N_of_ascii quote) with 34%N in E; lia. }
  assert (∀ c, (code c / 16 < 16)%N ∧ (code c mod 16 < 16)%N) as Hc.
  { intros c. pose proof (N_ascii_bounded c). unfold code.
    split; [apply N.Div0.div_lt_upper_bound; lia | apply N.mod_lt; lia]. }
  assert (∀ a b, lower_hex a +:+ String quote x = lower_hex b +:+ String quote y →
    lower_hex a = lower_hex b ∧ x = y) as Hd.
  { clear Heq a b. intros a. induction a as [|c a IH]; intros [|d b]; cbn; rewrite ?append_cons.
    all: intros Heq.
    - by injection Heq as ->.
    - injection Heq as E _. by destruct (Hq (code d / 16)%N (proj1 (Hc d))).
    - injection Heq as E _. by destruct (Hq (code c / 16)%N (proj1 (Hc c))).
    - injection Heq as E1 E2 E3. destruct (IH _ E3) as [E ->]. by rewrite E1, E2, E. }
  apply Hd in Heq as [Heq ->]. by apply lower_hex_inj in Heq as ->.
Qed.

Lemma canonical_json_unambiguous_witness :
  let v := VObject [("b", VNumber (PosInt 1)); ("a", VNull)] in
  let w := VObject [("a", VNull); ("b", VNumber (PosInt 1))] in
  normal_form v = normal_form w.
Proof.
  intros v w.
  apply (proj1 (canonical_json_unambiguous v w _ _ eq_refl eq_refl eq_refl eq_refl)). reflexivity.
Defined.
