(* ===== verification/MerkleLog.v ===== *)
(** * Inclusion in a transparency log

    The Merkle tree of RFC 6962 over the leaves of a log, and the walk from a leaf
    to the root along an audit path as sigstore_rekor.rs (verify_proof) takes it:
    the path's lower part follows the bits of the leaf's index, its upper part has
    every sibling on the left. The walk reaches the root from the leaf at the index
    and from no other, unless one of the inputs it hashes collides with one of those
    hashed for the tree. *)

From Stdlib Require Import Ascii String ZArith Lia.
From stdpp Require Import base strings list numbers sets.
From S2P Require Import Prelude RustStr Errors Canonical JsonInjective.

Open Scope string_scope.

(** ** Bits *)

(** [n.count_ones()]. *)
Fixpoint pos_ones (p : positive) : nat :=
  match p with xH => 1 | xO p => pos_ones p | xI p => S (pos_ones p) end%nat.
Definition count_ones (n : N) : nat := match n with N0 => O | Npos p => pos_ones p end.

(** [u64::BITS - (index ^ (size - 1)).leading_zeros()] is the bit length. *)
Definition inner_length (index size : N) : N := N.size (N.lxor index (size - 1)).
Definition border_length (index inner : N) : nat :=
  if (inner =? 64)%N then O else count_ones (N.shiftr index inner).
Definition path_length (index size : N) : nat :=
  let inner := inner_length index size in (N.to_nat inner + border_length index inner)%nat.

(** ** The walk *)

Section Walk.
Context {prim : Primitives}.

Definition leaf_hash (body : string) : string := sha256 (String "000" body).
Definition node_hash (left right : string) : string := sha256 (String "001" (left +:+ right)).

(** Whether the sibling at a level is on the left. *)
Definition sibling_left (index inner level : N) : bool := (inner <=? level)%N || N.testbit index level.
Definition climb (index inner level : N) (current hash : string) : string :=
  if sibling_left index inner level then node_hash hash current else node_hash current hash.
Fixpoint walk (index inner level : N) (current : string) (path : list string) : string :=
  match path with
  | [] => current
  | hash :: path => walk index inner (level + 1) (climb index inner level current hash) path
  end.

(** What the steps of the walk hash. *)
Definition climb_input (index inner level : N) (current hash : string) : string :=
  String "001" (if sibling_left index inner level then hash +:+ current else current +:+ hash).
Fixpoint walk_inputs (index inner level : N) (current : string) (path : list string) : list string :=
  match path with
  | [] => []
  | hash :: path =>
      climb_input index inner level current hash :: walk_inputs index inner (level + 1) (climb index inner level current hash) path
  end.

(** The root of a non-empty list of leaves: the left subtree is the largest full
    one that leaves something on the right. *)
Inductive merkle : list string → string → Prop :=
| merkle_leaf body : merkle [body] (leaf_hash body)
| merkle_node j l r hl hr :
    N.of_nat (length l) = (2 ^ j)%N → (1 ≤ N.of_nat (length r) ≤ 2 ^ j)%N →
    merkle l hl → merkle r hr → merkle (l ++ r) (node_hash hl hr).

(** What is hashed for that root: the leaves and the inner nodes. *)
Inductive tree_input : list string → string → Prop :=
| tree_input_leaf body : tree_input [body] (String "000" body)
| tree_input_node j l r hl hr :
    N.of_nat (length l) = (2 ^ j)%N → (1 ≤ N.of_nat (length r) ≤ 2 ^ j)%N →
    merkle l hl → merkle r hr → tree_input (l ++ r) (String "001" (hl +:+ hr))
| tree_input_left j l r s :
    N.of_nat (length l) = (2 ^ j)%N → (1 ≤ N.of_nat (length r) ≤ 2 ^ j)%N → tree_input l s → tree_input (l ++ r) s
| tree_input_right j l r s :
    N.of_nat (length l) = (2 ^ j)%N → (1 ≤ N.of_nat (length r) ≤ 2 ^ j)%N → tree_input r s → tree_input (l ++ r) s.

(** An input of the walk from a leaf and another one of the tree with the same hash. *)
Definition inputs_collide (inputs : list string) (leaves : list string) : Prop :=
  ∃ a b, a ∈ inputs ∧ tree_input leaves b ∧ sha256_collision a b.
Definition audit_inputs (index size : N) (body : string) (path : list string) : list string :=
  String "000" body :: walk_inputs index (inner_length index size) 0 (leaf_hash body) path.

(** The same root, computed. *)
Definition left_size (n : nat) : nat := N.to_nat (2 ^ N.log2 (N.of_nat n - 1)).
Fixpoint merkle_root (fuel : nat) (leaves : list string) : string :=
  match fuel, leaves with
  | S fuel, _ :: _ :: _ =>
      let k := left_size (length leaves) in
      node_hash (merkle_root fuel (take k leaves)) (merkle_root fuel (drop k leaves))
  | _, body :: _ => leaf_hash body
  | _, [] => sha256 ""
  end.
End Walk.

(** ** Arithmetic of path lengths *)

Lemma count_ones_div2 n : count_ones n = ((if N.odd n then 1 else 0) + count_ones (N.div2 n))%nat.
Proof. by destruct n as [|[p|p|]]. Qed.
Lemma count_ones_ones k : count_ones (N.ones (N.of_nat k)) = k.
Proof.
  induction k as [|k IH]; [done|].
  assert (N.ones (N.of_nat (S k)) = N.succ_double (N.ones (N.of_nat k))) as ->.
  { rewrite Nat2N.inj_succ, !N.ones_equiv, N.pow_succ_r', N.succ_double_spec.
    pose proof (N.pow_nonzero 2 (N.of_nat k) ltac:(done)). lia. }
  rewrite count_ones_div2. destruct (N.ones (N.of_nat k)) eqn:E; cbn in *; by rewrite <-IH.
Qed.
Lemma count_ones_add_pow k x : (x < 2 ^ N.of_nat k)%N → count_ones (2 ^ N.of_nat k + x) = S (count_ones x).
Proof.
  revert x. induction k as [|k IH]; intros x Hx.
  - cbn in Hx. by replace x with 0%N by lia.
  - rewrite Nat2N.inj_succ, N.pow_succ_r' in *. rewrite (count_ones_div2 x), count_ones_div2.
    replace (2 * 2 ^ N.of_nat k + x)%N with (x + 2 * 2 ^ N.of_nat k)%N by lia.
    rewrite N.odd_add_mul_2, !N.div2_div, (N.mul_comm 2), N.div_add by done.
    assert (x / 2 < 2 ^ N.of_nat k)%N by (apply N.Div0.div_lt_upper_bound; lia).
    rewrite N.add_comm, IH by done. destruct (N.odd x); lia.
Qed.

Lemma size_le_bits n j : (∀ k, (j ≤ k)%N → N.testbit n k = false) → (N.size n ≤ j)%N.
Proof.
  intros H. destruct (N.eq_dec n 0%N) as [->|Hn]; [cbn; lia|]. rewrite N.size_log2 by done.
  destruct (N.le_gt_cases j (N.log2 n)) as [Hl|]; [|lia].
  specialize (H _ Hl). by rewrite N.bit_log2 in H.
Qed.
Lemma size_bits n k : (N.size n ≤ k)%N → N.testbit n k = false.
Proof.
  intros H. destruct (N.eq_dec n 0%N) as [->|Hn]; [apply N.bits_0|]. rewrite N.size_log2 in H by done.
  apply N.bits_above_log2. lia.
Qed.
Lemma lt_pow_bits n j k : (n < 2 ^ j)%N → (j ≤ k)%N → N.testbit n k = false.
Proof. intros Hn Hk. rewrite <-(N.mod_small n (2 ^ j)) by done. by apply N.mod_pow2_bits_high. Qed.
Lemma inner_length_le index size j : (index < 2 ^ j)%N → (1 ≤ size ≤ 2 ^ j)%N → (inner_length index size ≤ j)%N.
Proof.
  intros Hi Hs. apply size_le_bits. intros k Hk.
  rewrite N.lxor_spec, (lt_pow_bits index j k), (lt_pow_bits (size - 1) j k); [done|lia|lia|lia|lia].
Qed.

(** A leaf in the full left subtree: the path there has one hash per level, the
    bits of the index choose the sides, and the last sibling is on the right. *)
Lemma ones_bits j k : N.testbit (2 ^ j - 1) k = (k <? j)%N.
Proof.
  replace (2 ^ j - 1)%N with (N.ones j) by (rewrite N.ones_equiv; lia).
  destruct (N.ltb_spec k j); [by apply N.ones_spec_low|by apply N.ones_spec_high].
Qed.
Lemma full_side index j k :
  (inner_length index (2 ^ j) ≤ k < j)%N → N.testbit index k = true.
Proof.
  intros [Hk Hj]. apply size_bits in Hk. rewrite N.lxor_spec, ones_bits in Hk.
  destruct (N.ltb_spec k j); [|lia]. by destruct (N.testbit index k).
Qed.
Lemma full_path_length index j : (index < 2 ^ j)%N → (j < 64)%N → path_length index (2 ^ j) = N.to_nat j.
Proof.
  intros Hi Hj. assert (2 ^ j ≠ 0)%N as Hp by (by apply N.pow_nonzero).
  pose proof (inner_length_le index (2 ^ j) j Hi ltac:(lia)) as Hl. unfold path_length, border_length.
  destruct (N.eqb_spec (inner_length index (2 ^ j)) 64); [lia|].
  set (inner := inner_length index (2 ^ j)) in *.
  assert (N.shiftr index inner = N.ones (j - inner)) as ->.
  { apply N.bits_inj. intros k. rewrite N.shiftr_spec by lia. destruct (N.lt_ge_cases (k + inner) j).
    - rewrite (full_side index j) by lia. by rewrite N.ones_spec_low by lia.
    - rewrite (lt_pow_bits index j) by lia. by rewrite N.ones_spec_high by lia. }
  rewrite <-(N2Nat.id (j - inner)), count_ones_ones. lia.
Qed.
Lemma left_inner_length index j m :
  (index < 2 ^ j)%N → (1 ≤ m ≤ 2 ^ j)%N → inner_length index (2 ^ j + m) = (j + 1)%N.
Proof.
  intros Hi Hm. assert (N.testbit (N.lxor index (2 ^ j + m - 1)) j = true) as Hb.
  { rewrite N.lxor_spec, (lt_pow_bits index j j) by lia.
    replace (2 ^ j + m - 1)%N with (2 ^ j + (m - 1))%N by lia.
    rewrite xorb_false_l, N.testbit_true, N.add_comm. rewrite <-(N.mul_1_l (2 ^ j)) at 1. rewrite N.div_add by (by apply N.pow_nonzero).
    by rewrite N.div_small by lia. }
  apply N.le_antisymm.
  - apply inner_length_le; rewrite N.pow_add_r; lia.
  - unfold inner_length. destruct (N.le_gt_cases (j + 1) (N.size (N.lxor index (2 ^ j + m - 1)))) as [|Hlt]; [done|].
    by rewrite size_bits in Hb by lia.
Qed.
Lemma left_path_length index j m :
  (index < 2 ^ j)%N → (1 ≤ m ≤ 2 ^ j)%N → (j < 63)%N → path_length index (2 ^ j + m) = S (N.to_nat j).
Proof.
  intros Hi Hm Hj. unfold path_length, border_length. rewrite left_inner_length by done.
  destruct (N.eqb_spec (j + 1) 64); [lia|]. rewrite N.shiftr_div_pow2, N.div_small by (rewrite N.pow_add_r; lia). cbn. lia.
Qed.

(** A leaf in the right subtree: its path there, then the left subtree. *)
Lemma pow_add_lxor j x : (x < 2 ^ j)%N → (2 ^ j + x)%N = N.lxor (2 ^ j) x.
Proof.
  intros Hx. apply N.add_nocarry_lxor, N.bits_inj. intros k. rewrite N.land_spec, N.pow2_bits_eqb, N.bits_0.
  destruct (N.eqb_spec j k) as [<-|]; [|done]. by rewrite (lt_pow_bits x j j) by lia.
Qed.
Lemma right_inner_length index j m :
  (index < m)%N → (1 ≤ m ≤ 2 ^ j)%N → inner_length (2 ^ j + index) (2 ^ j + m) = inner_length index m.
Proof.
  intros Hi Hm. unfold inner_length. f_equal. replace (2 ^ j + m - 1)%N with (2 ^ j + (m - 1))%N by lia.
  rewrite !pow_add_lxor by lia. rewrite (N.lxor_comm (2 ^ j) index), N.lxor_assoc.
  by rewrite <-(N.lxor_assoc (2 ^ j)), N.lxor_nilpotent, N.lxor_0_l.
Qed.
Lemma right_path_length index j m :
  (index < m)%N → (1 ≤ m ≤ 2 ^ j)%N → (j < 64)%N →
  path_length (2 ^ j + index) (2 ^ j + m) = S (path_length index m).
Proof.
  intros Hi Hm Hj. unfold path_length, border_length. rewrite right_inner_length by done.
  pose proof (inner_length_le index m j ltac:(lia) Hm) as Hl. set (inner := inner_length index m) in *.
  destruct (N.eqb_spec inner 64); [lia|]. rewrite !N.shiftr_div_pow2.
  assert (2 ^ inner ≠ 0)%N as Hp by (by apply N.pow_nonzero).
  assert (2 ^ j = 2 ^ (j - inner) * 2 ^ inner)%N as E by (rewrite <-N.pow_add_r; f_equal; lia).
  rewrite E, N.add_comm, N.div_add, N.add_comm by done. rewrite <-(N2Nat.id (j - inner)), count_ones_add_pow; [lia|].
  rewrite N2Nat.id. apply N.Div0.div_lt_upper_bound. lia.
Qed.
Lemma right_side index j k : (k < j)%N → (index < 2 ^ j)%N → N.testbit (2 ^ j + index) k = N.testbit index k.
Proof.
  intros Hk Hi. rewrite pow_add_lxor, N.lxor_spec, N.pow2_bits_eqb by done.
  by destruct (N.eqb_spec j k); [lia|destruct (N.testbit index k)].
Qed.

(** ** The walk reaches the root *)

Section Sound.
Context {prim : Primitives} {laws : Sha256Laws}.

Lemma walk_snoc index inner level current path hash :
  walk index inner level current (path ++ [hash])
  = climb index inner (level + N.of_nat (length path)) (walk index inner level current path) hash.
Proof.
  revert level current. induction path as [|h path IH]; intros level current; cbn [app walk length].
  - by rewrite N.add_0_r.
  - rewrite IH. f_equal; lia.
Qed.
Lemma walk_sides index inner index' inner' level current path :
  (∀ k, (level ≤ k < level + N.of_nat (length path))%N → sibling_left index inner k = sibling_left index' inner' k) →
  walk index inner level current path = walk index' inner' level current path.
Proof.
  revert level current. induction path as [|h path IH]; intros level current H; [done|]. cbn [walk length] in *.
  unfold climb. rewrite (H level) by lia. apply IH. intros k Hk. apply H. lia.
Qed.

Lemma climb_hash index inner level current hash : climb index inner level current hash = sha256 (climb_input index inner level current hash).
Proof. unfold climb, climb_input. by destruct (sibling_left _ _ _). Qed.
Lemma inputs_snoc index inner level current path hash :
  walk_inputs index inner level current (path ++ [hash])
  = (walk_inputs index inner level current path
     ++ [climb_input index inner (level + N.of_nat (length path)) (walk index inner level current path) hash])%list.
Proof.
  revert level current. induction path as [|h path IH]; intros level current; cbn [app walk walk_inputs length].
  - by rewrite N.add_0_r.
  - rewrite IH. do 4 f_equal. lia.
Qed.
Lemma inputs_sides index inner index' inner' level current path :
  (∀ k, (level ≤ k < level + N.of_nat (length path))%N → sibling_left index inner k = sibling_left index' inner' k) →
  walk_inputs index inner level current path = walk_inputs index' inner' level current path.
Proof.
  revert level current. induction path as [|h path IH]; intros level current H; [done|]. cbn [walk_inputs length] in *.
  unfold climb, climb_input. rewrite (H level) by lia. f_equal. apply IH. intros k Hk. apply H. lia.
Qed.

(** The walk in a subtree is the first part of the walk in the tree. *)
Lemma left_sides index j k : (index < 2 ^ j)%N → (k < j)%N →
  sibling_left index (j + 1) k = sibling_left index (inner_length index (2 ^ j)) k.
Proof.
  intros Hi Hk. unfold sibling_left. destruct (N.leb_spec (j + 1) k); [lia|].
  destruct (N.leb_spec (inner_length index (2 ^ j)) k) as [Hik|]; [|done]. by rewrite (full_side index j) by lia.
Qed.
Lemma left_top index j : (index < 2 ^ j)%N → sibling_left index (j + 1) j = false.
Proof.
  intros Hi. unfold sibling_left. rewrite (lt_pow_bits index j j) by lia. by destruct (N.leb_spec (j + 1) j); [lia|].
Qed.
Lemma right_sides index j m k : (index < m)%N → (1 ≤ m ≤ 2 ^ j)%N →
  sibling_left (2 ^ j + index) (inner_length index m) k = sibling_left index (inner_length index m) k.
Proof.
  intros Hi Hm. pose proof (inner_length_le index m j ltac:(lia) Hm). unfold sibling_left.
  destruct (N.leb_spec (inner_length index m) k); [done|]. by rewrite right_side by lia.
Qed.
Lemma walk_left index j m current path hash :
  (index < 2 ^ j)%N → (1 ≤ m ≤ 2 ^ j)%N → length path = N.to_nat j →
  let inner := inner_length index (2 ^ j) in
  walk index (inner_length index (2 ^ j + m)) 0 current (path ++ [hash]) = node_hash (walk index inner 0 current path) hash
  ∧ walk_inputs index (inner_length index (2 ^ j + m)) 0 current (path ++ [hash])
    = (walk_inputs index inner 0 current path ++ [String "001" (walk index inner 0 current path +:+ hash)])%list.
Proof.
  intros Hi Hm Hl inner. rewrite walk_snoc, inputs_snoc, left_inner_length by done.
  rewrite (walk_sides index (j + 1) index inner), (inputs_sides index (j + 1) index inner)
    by (intros k Hk; apply left_sides; [done|lia]).
  unfold climb, climb_input. replace (0 + N.of_nat (length path))%N with j by lia. by rewrite left_top.
Qed.
Lemma walk_right index j m current path hash :
  (index < m)%N → (1 ≤ m ≤ 2 ^ j)%N → (inner_length index m ≤ N.of_nat (length path))%N →
  let inner := inner_length index m in
  walk (2 ^ j + index) (inner_length (2 ^ j + index) (2 ^ j + m)) 0 current (path ++ [hash])
    = node_hash hash (walk index inner 0 current path)
  ∧ walk_inputs (2 ^ j + index) (inner_length (2 ^ j + index) (2 ^ j + m)) 0 current (path ++ [hash])
    = (walk_inputs index inner 0 current path ++ [String "001" (hash +:+ walk index inner 0 current path)])%list.
Proof.
  intros Hi Hm Hl inner. rewrite walk_snoc, inputs_snoc, right_inner_length by done. fold inner in Hl |- *.
  rewrite (walk_sides (2 ^ j + index) inner index inner), (inputs_sides (2 ^ j + index) inner index inner)
    by (intros k _; by apply right_sides).
  unfold climb, climb_input, sibling_left. by destruct (N.leb_spec inner (0 + N.of_nat (length path))); [|lia].
Qed.

Lemma merkle_length leaves root : merkle leaves root → (1 ≤ N.of_nat (length leaves))%N ∧ String.length root = 32%nat.
Proof. induction 1; rewrite ?length_app; (split; [cbn in *; lia|apply sha256_length]). Qed.
Lemma walk_length index inner level current path :
  String.length current = 32%nat → String.length (walk index inner level current path) = 32%nat.
Proof.
  revert level current. induction path as [|h path IH]; intros level current H; [done|]. cbn [walk]. apply IH.
  unfold climb. case_match; apply sha256_length.
Qed.
Lemma node_hash_inj a b c d :
  String.length a = String.length c → node_hash a b = node_hash c d →
  (a = c ∧ b = d) ∨ sha256_collision (String "001" (a +:+ b)) (String "001" (c +:+ d)).
Proof.
  intros Hl H. destruct (decide (String "001" (a +:+ b) = String "001" (c +:+ d))) as [E|E]; [|by right].
  left. injection E as E. by apply append_inj_length in E.
Qed.
Lemma leaf_hash_inj a b : leaf_hash a = leaf_hash b → a = b ∨ sha256_collision (String "000" a) (String "000" b).
Proof. intros H. destruct (decide (a = b)); [by left|]. right. split; [congruence|done]. Qed.
(** Inputs of a walk in a subtree are inputs of the walk in the tree. *)
Lemma collide_mono inputs inputs' leaves leaves' :
  (∀ a, a ∈ inputs → a ∈ inputs') → (∀ b, tree_input leaves b → tree_input leaves' b) →
  inputs_collide inputs leaves → inputs_collide inputs' leaves'.
Proof. intros Ha Hb (a & b & Hin & Ht & Hc). exists a, b. auto. Qed.

(** A tree with both its subtrees: how the index and the path's length split. *)
Lemma tree_split j m index :
  (1 ≤ m ≤ 2 ^ j)%N → (2 ^ j + m ≤ 2 ^ 62)%N → (index < 2 ^ j + m)%N →
  ((index < 2 ^ j)%N ∧ path_length index (2 ^ j + m) = S (path_length index (2 ^ j)) ∧ path_length index (2 ^ j) = N.to_nat j)
  ∨ (∃ i, index = (2 ^ j + i)%N ∧ (i < m)%N ∧ path_length index (2 ^ j + m) = S (path_length i m)).
Proof.
  intros Hm Hn Hi. assert (j < 62)%N as Hj by (apply (N.pow_lt_mono_r_iff 2); lia).
  destruct (N.lt_ge_cases index (2 ^ j)) as [Hlt|Hge].
  - left. rewrite left_path_length, full_path_length by (done || lia). done.
  - right. exists (index - 2 ^ j)%N. split; [lia|]. split; [lia|].
    replace index with (2 ^ j + (index - 2 ^ j))%N at 1 by lia. apply right_path_length; lia.
Qed.
Lemma path_inner index m : (inner_length index m ≤ N.of_nat (path_length index m))%N.
Proof. unfold path_length. lia. Qed.
Lemma path_last {A} (path : list A) n : length path = S n → ∃ init hash, path = (init ++ [hash])%list ∧ length init = n.
Proof.
  intros H. destruct (exists_last (l := path)) as (init & hash & ->); [by intros ->|].
  exists init, hash. rewrite length_app in H. cbn in H. split; [done|lia].
Qed.
Lemma forall_snoc {A} (P : A → Prop) init a : Forall P (init ++ [a]) ↔ Forall P init ∧ P a.
Proof. rewrite Forall_app, List.Forall_cons_iff. naive_solver. Qed.

Lemma walk_sound leaves root :
  merkle leaves root → ∀ index path current,
  (N.of_nat (length leaves) ≤ 2 ^ 62)%N → (index < N.of_nat (length leaves))%N →
  length path = path_length index (N.of_nat (length leaves)) → Forall (λ hash, String.length hash = 32%nat) path →
  String.length current = 32%nat →
  let inner := inner_length index (N.of_nat (length leaves)) in
  walk index inner 0 current path = root →
  (∃ body, leaves !! N.to_nat index = Some body ∧ leaf_hash body = current ∧ tree_input leaves (String "000" body))
  ∨ inputs_collide (walk_inputs index inner 0 current path) leaves.
Proof.
  induction 1 as [body|j l r hl hr Hl Hr Ml IHl Mr IHr]; cbn zeta in *; intros index path current Hn Hi Hp Hf Hc Hw.
  - cbn in Hi. replace index with 0%N in * by lia. destruct path; [|done]. left. exists body. split_and!; [done|done|constructor].
  - rewrite length_app, Nat2N.inj_add, Hl in Hn, Hi, Hp, Hw |- *.
    destruct (merkle_length _ _ Ml) as [_ Hhl]. pose proof (tree_input_node j l r hl hr Hl Hr Ml Mr) as Htop.
    destruct (tree_split j _ index Hr Hn Hi) as [(Hlt & E & Ej)|(i & -> & Him & E)]; rewrite E in Hp;
      apply path_last in Hp as (init & hash & -> & Hp); apply forall_snoc in Hf as [Hf Hh].
    + destruct (walk_left index j _ current init hash Hlt Hr) as [Ew Ei]; [congruence|]. rewrite Ew in Hw. rewrite Ei.
      apply node_hash_inj in Hw as [[Hw _]|Hcol]; [| |by rewrite walk_length].
      * rewrite Hl in IHl. destruct (IHl index init current) as [(body & Hb & Hbc & Ht)|Hcol]; [lia|done..| |].
        -- left. exists body. split_and!; [by apply lookup_app_l_Some|done|by eapply tree_input_left].
        -- right. eapply collide_mono; [| |exact Hcol]; [set_solver|intros; by eapply tree_input_left].
      * right. eexists _, _. split; [|split; [exact Htop|exact Hcol]]. set_solver.
    + destruct (walk_right i j _ current init hash Him Hr) as [Ew Ei]; [rewrite Hp; apply path_inner|]. rewrite Ew in Hw. rewrite Ei.
      apply node_hash_inj in Hw as [[_ Hw]|Hcol]; [| |by rewrite Hh].
      * destruct (IHr i init current) as [(body & Hb & Hbc & Ht)|Hcol]; [lia|done..| |].
        -- left. exists body. split_and!; [|done|by eapply tree_input_right].
           rewrite lookup_app_r by lia. by replace (N.to_nat (2 ^ j + i) - length l)%nat with (N.to_nat i) by lia.
        -- right. eapply collide_mono; [| |exact Hcol]; [set_solver|intros; by eapply tree_input_right].
      * right. eexists _, _. split; [|split; [exact Htop|exact Hcol]]. set_solver.
Qed.

Lemma walk_complete leaves root :
  merkle leaves root → ∀ index body,
  (N.of_nat (length leaves) ≤ 2 ^ 62)%N → leaves !! N.to_nat index = Some body →
  ∃ path, length path = path_length index (N.of_nat (length leaves)) ∧ Forall (λ hash, String.length hash = 32%nat) path
    ∧ walk index (inner_length index (N.of_nat (length leaves))) 0 (leaf_hash body) path = root.
Proof.
  induction 1 as [body'|j l r hl hr Hl Hr Ml IHl Mr IHr]; intros index body Hn Hb;
    pose proof (lookup_lt_Some _ _ _ Hb) as Hi.
  - cbn in Hi. replace index with 0%N in * by lia. injection Hb as ->. by exists [].
  - rewrite length_app in Hi, Hn |- *. rewrite Nat2N.inj_add, Hl in Hn |- *.
    destruct (tree_split j _ index Hr Hn ltac:(lia)) as [(Hlt & E & Ej)|(i & -> & Him & E)]; rewrite E.
    + rewrite lookup_app_l in Hb by lia. destruct (IHl index body) as (path & Hp & Hf & Hw); [lia|done|]. rewrite Hl in *.
      exists (path ++ [hr])%list. rewrite length_app, (proj1 (walk_left index j _ (leaf_hash body) path hr Hlt Hr ltac:(congruence))), Hw.
      split; [cbn; lia|]. split; [|done]. apply forall_snoc. split; [done|apply (merkle_length _ _ Mr)].
    + rewrite lookup_app_r in Hb by lia. replace (N.to_nat (2 ^ j + i) - length l)%nat with (N.to_nat i) in Hb by lia.
      destruct (IHr i body) as (path & Hp & Hf & Hw); [lia|done|].
      exists (path ++ [hl])%list. rewrite length_app, (proj1 (walk_right i j _ (leaf_hash body) path hl Him Hr ltac:(rewrite Hp; apply path_inner))), Hw.
      split; [cbn; lia|]. split; [|done]. apply forall_snoc. split; [done|apply (merkle_length _ _ Ml)].
Qed.

(** The computed root is the root. *)
Lemma left_size_spec n : (2 ≤ n)%nat →
  ∃ j, N.of_nat (left_size n) = (2 ^ j)%N ∧ (1 ≤ N.of_nat (n - left_size n) ≤ 2 ^ j)%N ∧ (0 < left_size n < n)%nat.
Proof.
  intros Hn. unfold left_size. exists (N.log2 (N.of_nat n - 1)).
  pose proof (N.log2_spec (N.of_nat n - 1) ltac:(lia)) as [Hlo Hhi]. rewrite N.pow_succ_r' in Hhi.
  set (k := (2 ^ N.log2 (N.of_nat n - 1))%N) in *. lia.
Qed.
Lemma merkle_root_spec fuel leaves : (0 < length leaves ≤ S fuel)%nat → merkle leaves (merkle_root fuel leaves).
Proof.
  revert leaves. induction fuel as [|fuel IH]; intros [|a [|b leaves]] H; cbn [length] in H; try lia; try apply merkle_leaf.
  cbn [merkle_root]. set (l := a :: b :: leaves) in *.
  destruct (left_size_spec (length l)) as (j & Hj & Hm & Hk); [cbn; lia|].
  assert (length l ≤ S (S fuel))%nat by (cbn; lia).
  rewrite <-(take_drop (left_size (length l)) l) at 1. apply (merkle_node j).
  - by rewrite length_take, Nat.min_l by lia.
  - by rewrite length_drop.
  - apply IH. rewrite length_take. lia.
  - apply IH. rewrite length_drop. lia.
Qed.
Lemma merkle_unique leaves root root' : merkle leaves root → merkle leaves root' → root = root'.
Proof.
  intros H. revert root'. induction H as [body|j l r hl hr Hl Hr Ml IHl Mr IHr]; intros root' H'.
  - inversion H' as [|? l' r' ? ? Hl' Hr' Ml' Mr' E]; [done|]. apply merkle_length in Ml' as [Hl1 _], Mr' as [Hr1 _].
    apply (f_equal length) in E. rewrite length_app in E. cbn in E. lia.
  - inversion H' as [? E|j' l' r' hl' hr' Hl' Hr' Ml' Mr' E].
    + apply merkle_length in Ml as [Hl1 _], Mr as [Hr1 _]. apply (f_equal length) in E. rewrite length_app in E. cbn in E. lia.
    + assert (length l' = length l) as El.
      { apply (f_equal length) in E. rewrite !length_app in E.
        assert (j = j') as ->; [|lia]. destruct (N.lt_trichotomy j j') as [Hlt|[|Hlt]]; [|done|];
          apply (N.pow_le_mono_r 2 (N.succ _)) in Hlt || apply N.le_succ_l, (N.pow_le_mono_r 2) in Hlt; try done; rewrite N.pow_succ_r' in Hlt; lia. }
      apply app_inj_1 in E as [-> ->]; [|done]. by rewrite (IHl _ Ml'), (IHr _ Mr').
Qed.

Lemma leaf_at leaves root :
  merkle leaves root → ∀ index path body,
  (N.of_nat (length leaves) ≤ 2 ^ 62)%N → (index < N.of_nat (length leaves))%N →
  length path = path_length index (N.of_nat (length leaves)) → Forall (λ hash, String.length hash = 32%nat) path →
  walk index (inner_length index (N.of_nat (length leaves))) 0 (leaf_hash body) path = root →
  leaves !! N.to_nat index = Some body ∨ inputs_collide (audit_inputs index (N.of_nat (length leaves)) body path) leaves.
Proof.
  intros Hm index path body Hn Hi Hl Hf Hw.
  destruct (walk_sound _ _ Hm index path (leaf_hash body)) as [(body' & Hb & Hh & Ht)|Hcol]; try done; [apply sha256_length| |].
  - destruct (decide (body' = body)) as [->|Hne]; [by left|]. right. exists (String "000" body), (String "000" body').
    split; [by left|]. split; [done|]. split; [congruence|]. symmetry. exact Hh.
  - right. eapply collide_mono; [| |exact Hcol]; [by right|done].
Qed.

(** C18: in a log of at most [2^62] leaves the walk of an audit path decides
    inclusion. From the leaf at the index some path of the expected length reaches
    the root; and when a path reaches the root from the hash of a body, that body is
    the leaf at the index, or one of the inputs hashed on this very walk and another
    one, hashed for the tree of these leaves, have the same SHA-256. *)
Theorem inclusion_exact leaves root index body :
  merkle leaves root → (N.of_nat (length leaves) ≤ 2 ^ 62)%N → (index < N.of_nat (length leaves))%N →
  let size := N.of_nat (length leaves) in
  let inner := inner_length index size in
  let well_formed path := length path = path_length index size ∧ Forall (λ hash, String.length hash = 32%nat) path in
  (leaves !! N.to_nat index = Some body →
     ∃ path, well_formed path ∧ walk index inner 0 (leaf_hash body) path = root)
  ∧ (∀ path, well_formed path → walk index inner 0 (leaf_hash body) path = root →
       leaves !! N.to_nat index = Some body ∨ inputs_collide (audit_inputs index size body path) leaves).
Proof.
  intros Hm Hn Hi size inner well_formed. split.
  - intros Hb. destruct (walk_complete _ _ Hm index body Hn Hb) as (path & Hl & Hf & Hw). by exists path.
  - intros path [Hl Hf] Hw. by apply (leaf_at _ _ Hm index path).
Qed.
End Sound.

(** ** A log of five leaves *)

Definition sample_leaves : list string := ["a"; "b"; "c"; "d"; "e"].
Definition sample_root : string := merkle_root 5 sample_leaves.

(** The paths' lengths: three hashes from the left subtree, one from the last leaf. *)
Example sample_path_lengths : map (λ i, path_length i 5) [0; 1; 2; 3; 4]%N = [3; 3; 3; 3; 1]%nat.
Proof. by vm_compute. Qed.

Lemma inclusion_exact_witness :
  ∃ path, length path = 1%nat ∧ walk 4 (inner_length 4 5) 0 (leaf_hash "e") path = sample_root.
Proof.
  destruct (inclusion_exact sample_leaves sample_root 4 "e") as [H _].
  - apply merkle_root_spec. vm_compute. lia.
  - vm_compute. discriminate.
  - by vm_compute.
  - destruct (H eq_refl) as (path & [Hl _] & Hw). exists path. split; [exact Hl|exact Hw].
Defined.
