(* ===== verification/Policy.v ===== *)
(** * Verification policies

    policy.rs: the requirement types, the policy record with its presets, its
    normal form and its digest. *)

From Stdlib Require Import Ascii String ZArith Lia.
From stdpp Require Import base strings list numbers.
From S2P Require Import Prelude RustStr Errors Collections Canonical JsonInjective.

(** ** Requirements *)

Inductive EnforcementMode := Disabled | Observe | Enforce.
#[export] Instance EnforcementMode_eq_dec : EqDecision EnforcementMode.
Proof. solve_decision. Defined.

Inductive CpuTeeKind := Tdx | SevSnp | Nitro.
#[export] Instance CpuTeeKind_eq_dec : EqDecision CpuTeeKind.
Proof. solve_decision. Defined.

Definition cpu_policy_str (kind : CpuTeeKind) : string :=
  match kind with Tdx => "tdx" | SevSnp => "sev_snp" | Nitro => "nitro" end.

Inductive GpuTeeKind := NvidiaCc.
#[export] Instance GpuTeeKind_eq_dec : EqDecision GpuTeeKind.
Proof. solve_decision. Defined.

Definition gpu_policy_str (kind : GpuTeeKind) : string :=
  match kind with NvidiaCc => "nvidia_cc" end.

(** [sort_by] on the policy strings. *)
Definition cpu_cmp (left right : CpuTeeKind) : comparison :=
  str_cmp (cpu_policy_str left) (cpu_policy_str right).
Definition gpu_cmp (left right : GpuTeeKind) : comparison :=
  str_cmp (gpu_policy_str left) (gpu_policy_str right).

Inductive CpuTeeRequirement :=
| CpuNotRequired
| AnyCpuTee
| CpuOneOf (allowed : list CpuTeeKind).
#[export] Instance CpuTeeRequirement_eq_dec : EqDecision CpuTeeRequirement.
Proof. solve_decision. Defined.

Definition cpu_one_of (allowed : list CpuTeeKind) : CpuTeeRequirement :=
  CpuOneOf (dedup (sort_by cpu_cmp allowed)).

Definition cpu_normalize (requirement : CpuTeeRequirement) : CpuTeeRequirement :=
  match requirement with
  | CpuOneOf allowed => CpuOneOf (dedup (sort_by cpu_cmp allowed))
  | other => other
  end.

Inductive GpuTeeRequirement :=
| GpuNotRequired
| GpuOneOf (allowed : list GpuTeeKind).
#[export] Instance GpuTeeRequirement_eq_dec : EqDecision GpuTeeRequirement.
Proof. solve_decision. Defined.

Definition gpu_one_of (allowed : list GpuTeeKind) : GpuTeeRequirement :=
  GpuOneOf (dedup (sort_by gpu_cmp allowed)).

Definition gpu_normalize (requirement : GpuTeeRequirement) : GpuTeeRequirement :=
  match requirement with
  | GpuOneOf allowed => GpuOneOf (dedup (sort_by gpu_cmp allowed))
  | other => other
  end.

Record HardwareRequirement := {
  hw_cpu : CpuTeeRequirement;
  hw_gpu : GpuTeeRequirement;
}.

Definition any_cpu_tee : HardwareRequirement :=
  {| hw_cpu := AnyCpuTee; hw_gpu := GpuNotRequired |}.
Definition hardware_not_required : HardwareRequirement :=
  {| hw_cpu := CpuNotRequired; hw_gpu := GpuNotRequired |}.
Definition hardware_normalize (hardware : HardwareRequirement) : HardwareRequirement :=
  {| hw_cpu := cpu_normalize (hw_cpu hardware); hw_gpu := gpu_normalize (hw_gpu hardware) |}.

Inductive ChannelBindingRequirement :=
| ChannelNotRequired | AnyAttestedChannel | TeeTerminatedTls | AttestedAppE2ee.
#[export] Instance ChannelBindingRequirement_eq_dec : EqDecision ChannelBindingRequirement.
Proof. solve_decision. Defined.

Definition channel_policy_str (requirement : ChannelBindingRequirement) : string :=
  match requirement with
  | ChannelNotRequired => "not_required"
  | AnyAttestedChannel => "any_attested_channel"
  | TeeTerminatedTls => "tee_terminated_tls"
  | AttestedAppE2ee => "attested_app_e2ee"
  end.

Inductive BoundDataRequirement := DataNotRequired | BoundToAttestedWorkload.
#[export] Instance BoundDataRequirement_eq_dec : EqDecision BoundDataRequirement.
Proof. solve_decision. Defined.

Inductive ResponseIntegrityRequirement :=
| IntegrityNotRequired | AnyBound | IntegrityChannelBound | IntegrityReceiptBound.
#[export] Instance ResponseIntegrityRequirement_eq_dec : EqDecision ResponseIntegrityRequirement.
Proof. solve_decision. Defined.

Inductive ModelBindingRequirement := ModelNotRequired | IfProviderSupports | ModelRequired.
#[export] Instance ModelBindingRequirement_eq_dec : EqDecision ModelBindingRequirement.
Proof. solve_decision. Defined.

Record ProvenanceRequirement := {
  workload_image : bool;
  model_artifacts_required : bool;
  reproducible_build : bool;
  source_attestation : bool;
  dependency_sbom : bool;
}.
Definition provenance_default : ProvenanceRequirement :=
  {| workload_image := false; model_artifacts_required := false; reproducible_build := false;
     source_attestation := false; dependency_sbom := false |}.

(** [Millis(u64)] is its number of milliseconds. *)
Inductive StaleVerdictPolicy := FailClosed | AllowForMillis (millis : Z).

Inductive FreshnessPolicy :=
| PerRequest | PerSession | AllowCachedBindingMillis (millis : Z).
#[export] Instance FreshnessPolicy_eq_dec : EqDecision FreshnessPolicy.
Proof. solve_decision. Defined.

(** ** The policy *)

Record VerificationPolicy := {
  schema : string;
  enforcement : EnforcementMode;
  hardware : HardwareRequirement;
  channel_binding_requirement : ChannelBindingRequirement;
  request_confidentiality_requirement : BoundDataRequirement;
  response_confidentiality_requirement : BoundDataRequirement;
  response_integrity_requirement : ResponseIntegrityRequirement;
  model_binding_requirement : ModelBindingRequirement;
  provenance : ProvenanceRequirement;
  freshness : FreshnessPolicy;
  stale_verdicts : StaleVerdictPolicy;
  verdict_ttl_millis : Z;
  provider_registry_digest : string;
  reference_values_digest : string;
}.

Definition POLICY_SCHEMA : string := "confidential-inference.policy.v1".
Definition SUPPORTED_SCHEMA_MAJOR : Z := 1.
Definition UNRESOLVED_DIGEST : string := "sha256:unresolved".

Definition policy_disabled : VerificationPolicy := {|
  schema := POLICY_SCHEMA;
  enforcement := Disabled;
  hardware := hardware_not_required;
  channel_binding_requirement := ChannelNotRequired;
  request_confidentiality_requirement := DataNotRequired;
  response_confidentiality_requirement := DataNotRequired;
  response_integrity_requirement := IntegrityNotRequired;
  model_binding_requirement := ModelNotRequired;
  provenance := provenance_default;
  freshness := AllowCachedBindingMillis 600000;
  stale_verdicts := AllowForMillis 600000;
  verdict_ttl_millis := 600000;
  provider_registry_digest := UNRESOLVED_DIGEST;
  reference_values_digest := UNRESOLVED_DIGEST;
|}.

Definition require_hardware : VerificationPolicy := {|
  schema := POLICY_SCHEMA;
  enforcement := Enforce;
  hardware := any_cpu_tee;
  channel_binding_requirement := ChannelNotRequired;
  request_confidentiality_requirement := DataNotRequired;
  response_confidentiality_requirement := DataNotRequired;
  response_integrity_requirement := IntegrityNotRequired;
  model_binding_requirement := ModelNotRequired;
  provenance := provenance_default;
  freshness := PerSession;
  stale_verdicts := FailClosed;
  verdict_ttl_millis := 600000;
  provider_registry_digest := UNRESOLVED_DIGEST;
  reference_values_digest := UNRESOLVED_DIGEST;
|}.

(** Field updates of a policy. *)
Definition set_enforcement (p : VerificationPolicy) e : VerificationPolicy :=
  {| schema := schema p; enforcement := e; hardware := hardware p;
     channel_binding_requirement := channel_binding_requirement p;
     request_confidentiality_requirement := request_confidentiality_requirement p;
     response_confidentiality_requirement := response_confidentiality_requirement p;
     response_integrity_requirement := response_integrity_requirement p;
     model_binding_requirement := model_binding_requirement p;
     provenance := provenance p; freshness := freshness p; stale_verdicts := stale_verdicts p;
     verdict_ttl_millis := verdict_ttl_millis p;
     provider_registry_digest := provider_registry_digest p;
     reference_values_digest := reference_values_digest p |}.

Definition set_hardware (p : VerificationPolicy) h : VerificationPolicy :=
  {| schema := schema p; enforcement := enforcement p; hardware := h;
     channel_binding_requirement := channel_binding_requirement p;
     request_confidentiality_requirement := request_confidentiality_requirement p;
     response_confidentiality_requirement := response_confidentiality_requirement p;
     response_integrity_requirement := response_integrity_requirement p;
     model_binding_requirement := model_binding_requirement p;
     provenance := provenance p; freshness := freshness p; stale_verdicts := stale_verdicts p;
     verdict_ttl_millis := verdict_ttl_millis p;
     provider_registry_digest := provider_registry_digest p;
     reference_values_digest := reference_values_digest p |}.

Definition set_bindings (p : VerificationPolicy) channel request response integrity model
    : VerificationPolicy :=
  {| schema := schema p; enforcement := enforcement p; hardware := hardware p;
     channel_binding_requirement := channel;
     request_confidentiality_requirement := request;
     response_confidentiality_requirement := response;
     response_integrity_requirement := integrity;
     model_binding_requirement := model;
     provenance := provenance p; freshness := freshness p; stale_verdicts := stale_verdicts p;
     verdict_ttl_millis := verdict_ttl_millis p;
     provider_registry_digest := provider_registry_digest p;
     reference_values_digest := reference_values_digest p |}.

Definition set_model_binding (p : VerificationPolicy) model : VerificationPolicy :=
  set_bindings p (channel_binding_requirement p) (request_confidentiality_requirement p)
    (response_confidentiality_requirement p) (response_integrity_requirement p) model.

Definition set_provenance (p : VerificationPolicy) pr : VerificationPolicy :=
  {| schema := schema p; enforcement := enforcement p; hardware := hardware p;
     channel_binding_requirement := channel_binding_requirement p;
     request_confidentiality_requirement := request_confidentiality_requirement p;
     response_confidentiality_requirement := response_confidentiality_requirement p;
     response_integrity_requirement := response_integrity_requirement p;
     model_binding_requirement := model_binding_requirement p;
     provenance := pr; freshness := freshness p; stale_verdicts := stale_verdicts p;
     verdict_ttl_millis := verdict_ttl_millis p;
     provider_registry_digest := provider_registry_digest p;
     reference_values_digest := reference_values_digest p |}.

Definition with_artifact_digests (p : VerificationPolicy) (registry reference : string)
    : VerificationPolicy :=
  {| schema := schema p; enforcement := enforcement p; hardware := hardware p;
     channel_binding_requirement := channel_binding_requirement p;
     request_confidentiality_requirement := request_confidentiality_requirement p;
     response_confidentiality_requirement := response_confidentiality_requirement p;
     response_integrity_requirement := response_integrity_requirement p;
     model_binding_requirement := model_binding_requirement p;
     provenance := provenance p; freshness := freshness p; stale_verdicts := stale_verdicts p;
     verdict_ttl_millis := verdict_ttl_millis p;
     provider_registry_digest := registry;
     reference_values_digest := reference |}.

Definition observe : VerificationPolicy := set_enforcement require_hardware Observe.

Definition require_attested_e2ee : VerificationPolicy :=
  set_bindings require_hardware AttestedAppE2ee BoundToAttestedWorkload BoundToAttestedWorkload
    AnyBound IfProviderSupports.

Definition require_hw_verified_tls : VerificationPolicy :=
  set_bindings require_hardware TeeTerminatedTls BoundToAttestedWorkload BoundToAttestedWorkload
    IntegrityChannelBound (model_binding_requirement require_hardware).

Definition require_model_binding : VerificationPolicy :=
  set_model_binding require_hardware ModelRequired.

Definition apply_concrete_channel_binding (p : VerificationPolicy)
    (channel_binding : ChannelBindingRequirement) : Result VerificationPolicy :=
  match channel_binding with
  | TeeTerminatedTls =>
      Ok (set_bindings p TeeTerminatedTls BoundToAttestedWorkload BoundToAttestedWorkload
            IntegrityChannelBound (model_binding_requirement p))
  | AttestedAppE2ee =>
      Ok (set_bindings p AttestedAppE2ee BoundToAttestedWorkload BoundToAttestedWorkload
            AnyBound IfProviderSupports)
  | _ => Err (InvalidPolicy "{helper} requires tee_terminated_tls or attested_app_e2ee, got {}")
  end.

Definition require_full_provenance (channel_binding : ChannelBindingRequirement)
    : Result VerificationPolicy :=
  policy ← apply_concrete_channel_binding require_hardware channel_binding;
  let policy := set_model_binding policy ModelRequired in
  Ok (set_provenance policy
        {| workload_image := true; model_artifacts_required := true; reproducible_build := true;
           source_attestation := true; dependency_sbom := true |}).

Definition require_confidential_gpu_inference (channel_binding : ChannelBindingRequirement)
    : Result VerificationPolicy :=
  policy ← apply_concrete_channel_binding require_hardware channel_binding;
  Ok (set_hardware policy
        {| hw_cpu := hw_cpu (hardware policy); hw_gpu := gpu_one_of [NvidiaCc] |}).

Definition normalized (p : VerificationPolicy) : VerificationPolicy :=
  set_hardware p (hardware_normalize (hardware p)).

(** ** Schema versions

    The three schema validators (policy.rs, verdict.rs, reference_values.rs)
    differ in the prefix and in the error variant they raise. *)

Definition malformed_part (part : string) : bool :=
  is_empty part || any_byte (λ byte, negb (is_ascii_digit byte)) part.

Definition check_schema_major {E} (error : string → E) (prefix value : string)
    : result E unit :=
  match strip_prefix prefix value ≫= strip_prefix ".v" with
  | None => Err (error "{field} must start with {prefix}.v{}")
  | Some version =>
      match split_byte "." version with
      | [] => Err (error "{field} has malformed schema version {value}")
      | major :: parts =>
          bail (error "{field} has malformed schema version {value}") when malformed_part major;
          bail (error "{field} has malformed schema version {value}") when existsb malformed_part parts;
          parsed_major ← ok_or (parse_uint u32_max major)
                           (error "{field} has malformed schema version {value}");
          bail (error "{field} major version {parsed_major} is not supported")
            when negb (parsed_major =? SUPPORTED_SCHEMA_MAJOR)%Z;
          Ok tt
      end
  end%string.

Definition validate_policy_schema_major (value : string) : Result unit :=
  check_schema_major InvalidPolicy "confidential-inference.policy" value.

Example schema_minor_ok : validate_policy_schema_major "confidential-inference.policy.v1.7" = Ok tt.
Proof. reflexivity. Qed.
Example schema_v2_rejected : is_ok (validate_policy_schema_major "confidential-inference.policy.v2") = false.
Proof. reflexivity. Qed.
Example schema_text_rejected : is_ok (validate_policy_schema_major "confidential-inference.policy.v1.x") = false.
Proof. reflexivity. Qed.

(** ** Serialisation and digest

    The [serde] derive: snake-case enum variants, the requirement enums with
    data tagged by [mode], [Millis] transparent. *)

Open Scope string_scope.

Definition millis_value (millis : Z) : Value := VNumber (PosInt millis).

Definition enforcement_value (mode : EnforcementMode) : Value :=
  VString match mode with Disabled => "disabled" | Observe => "observe" | Enforce => "enforce" end.
Definition cpu_kind_value (kind : CpuTeeKind) : Value :=
  VString match kind with Tdx => "tdx" | SevSnp => "sev_snp" | Nitro => "nitro" end.
Definition gpu_kind_value (kind : GpuTeeKind) : Value :=
  VString match kind with NvidiaCc => "nvidia_cc" end.
Definition cpu_value (requirement : CpuTeeRequirement) : Value :=
  match requirement with
  | CpuNotRequired => VObject [("mode", VString "not_required")]
  | AnyCpuTee => VObject [("mode", VString "any_cpu_tee")]
  | CpuOneOf allowed =>
      VObject [("mode", VString "one_of"); ("allowed", VArray (map cpu_kind_value allowed))]
  end.
Definition gpu_value (requirement : GpuTeeRequirement) : Value :=
  match requirement with
  | GpuNotRequired => VObject [("mode", VString "not_required")]
  | GpuOneOf allowed =>
      VObject [("mode", VString "one_of"); ("allowed", VArray (map gpu_kind_value allowed))]
  end.
Definition hardware_value (hardware : HardwareRequirement) : Value :=
  VObject [("cpu", cpu_value (hw_cpu hardware)); ("gpu", gpu_value (hw_gpu hardware))].
Definition channel_requirement_value (requirement : ChannelBindingRequirement) : Value :=
  VString match requirement with
  | ChannelNotRequired => "not_required" | AnyAttestedChannel => "any_attested_channel"
  | TeeTerminatedTls => "tee_terminated_tls" | AttestedAppE2ee => "attested_app_e2ee"
  end.
Definition bound_data_value (requirement : BoundDataRequirement) : Value :=
  VString match requirement with
  | DataNotRequired => "not_required" | BoundToAttestedWorkload => "bound_to_attested_workload"
  end.
Definition integrity_requirement_value (requirement : ResponseIntegrityRequirement) : Value :=
  VString match requirement with
  | IntegrityNotRequired => "not_required" | AnyBound => "any_bound"
  | IntegrityChannelBound => "channel_bound" | IntegrityReceiptBound => "receipt_bound"
  end.
Definition model_requirement_value (requirement : ModelBindingRequirement) : Value :=
  VString match requirement with
  | ModelNotRequired => "not_required" | IfProviderSupports => "if_provider_supports"
  | ModelRequired => "required"
  end.
Definition provenance_value (p : ProvenanceRequirement) : Value :=
  VObject [("workload_image", VBool (workload_image p));
           ("model_artifacts", VBool (model_artifacts_required p));
           ("reproducible_build", VBool (reproducible_build p));
           ("source_attestation", VBool (source_attestation p));
           ("dependency_sbom", VBool (dependency_sbom p))].
Definition freshness_value (freshness : FreshnessPolicy) : Value :=
  match freshness with
  | PerRequest => VObject [("mode", VString "per_request")]
  | PerSession => VObject [("mode", VString "per_session")]
  | AllowCachedBindingMillis millis =>
      VObject [("mode", VString "allow_cached_binding_millis"); ("millis", millis_value millis)]
  end.
Definition stale_value (stale : StaleVerdictPolicy) : Value :=
  match stale with
  | FailClosed => VObject [("mode", VString "fail_closed")]
  | AllowForMillis millis =>
      VObject [("mode", VString "allow_for_millis"); ("millis", millis_value millis)]
  end.

Definition policy_value (p : VerificationPolicy) : Value :=
  VObject [("schema", VString (schema p));
           ("enforcement", enforcement_value (enforcement p));
           ("hardware", hardware_value (hardware p));
           ("channel_binding_requirement", channel_requirement_value (channel_binding_requirement p));
           ("request_confidentiality_requirement", bound_data_value (request_confidentiality_requirement p));
           ("response_confidentiality_requirement", bound_data_value (response_confidentiality_requirement p));
           ("response_integrity_requirement", integrity_requirement_value (response_integrity_requirement p));
           ("model_binding_requirement", model_requirement_value (model_binding_requirement p));
           ("provenance", provenance_value (provenance p));
           ("freshness", freshness_value (freshness p));
           ("stale_verdicts", stale_value (stale_verdicts p));
           ("verdict_ttl_millis", millis_value (verdict_ttl_millis p));
           ("provider_registry_digest", VString (provider_registry_digest p));
           ("reference_values_digest", VString (reference_values_digest p))].

(** [VerificationPolicy::digest]. *)
Definition policy_digest `{!Primitives} (p : VerificationPolicy) : Result string :=
  _ ← validate_policy_schema_major (schema p);
  canonical_digest (policy_value (normalized p)).

(** ** Properties *)

(** The durations of a policy are [u64]s. *)
Definition wf_policy (p : VerificationPolicy) : bool :=
  (0 <=? verdict_ttl_millis p)%Z
  && match freshness p with AllowCachedBindingMillis m => (0 <=? m)%Z | _ => true end
  && match stale_verdicts p with AllowForMillis m => (0 <=? m)%Z | _ => true end.

#[export] Instance cpu_cmp_total : TotalCmp cpu_cmp.
Proof.
  unfold cpu_cmp. split.
  - intros x y. rewrite (cmp_eq str_cmp). by destruct x, y.
  - intros x y. apply (cmp_opp str_cmp).
  - intros x y z. apply (cmp_lt_trans str_cmp).
Qed.
#[export] Instance gpu_cmp_total : TotalCmp gpu_cmp.
Proof.
  unfold gpu_cmp. split.
  - by intros [] [].
  - intros x y. apply (cmp_opp str_cmp).
  - intros x y z. apply (cmp_lt_trans str_cmp).
Qed.

Lemma wf_policy_value p : wf_policy p = true → wf_value (policy_value (normalized p)) = true.
Proof.
  unfold wf_policy. intros [[H1 H2]%andb_true_iff H3]%andb_true_iff.
  assert (∀ l, forallb wf_value (map cpu_kind_value l) = true) as Hc by (induction l as [|[]]; done).
  assert (∀ l, forallb wf_value (map gpu_kind_value l) = true) as Hg by (induction l as [|[]]; done).
  destruct p as [? ? [cpu gpu] ? ? ? ? ? ? fr st ? ? ?]; cbn in *. rewrite H1.
  destruct cpu, gpu, fr, st; cbn in *; by rewrite ?Hc, ?Hg, ?H2, ?H3.
Qed.

Lemma cpu_kinds_inj l k : map normal_form (map cpu_kind_value l) = map normal_form (map cpu_kind_value k) → l = k.
Proof. revert k. induction l as [|[] l IH]; intros [|[] k]; cbn; try done; intros [= ->%IH]; done. Qed.
Lemma gpu_kinds_inj l k : map normal_form (map gpu_kind_value l) = map normal_form (map gpu_kind_value k) → l = k.
Proof. revert k. induction l as [|[] l IH]; intros [|[] k]; cbn; try done; intros [= ->%IH]; done. Qed.


(** The member order of a serialised policy, whatever the members are. *)
Lemma policy_members_sorted {A} (a b c d e f g h i j k l m n : A) :
  sort_by member_cmp
    [("schema", a); ("enforcement", b); ("hardware", c); ("channel_binding_requirement", d);
     ("request_confidentiality_requirement", e); ("response_confidentiality_requirement", f);
     ("response_integrity_requirement", g); ("model_binding_requirement", h); ("provenance", i);
     ("freshness", j); ("stale_verdicts", k); ("verdict_ttl_millis", l);
     ("provider_registry_digest", m); ("reference_values_digest", n)]
  = [("channel_binding_requirement", d); ("enforcement", b); ("freshness", j); ("hardware", c);
     ("model_binding_requirement", h); ("provenance", i); ("provider_registry_digest", m);
     ("reference_values_digest", n); ("request_confidentiality_requirement", e);
     ("response_confidentiality_requirement", f); ("response_integrity_requirement", g);
     ("schema", a); ("stale_verdicts", k); ("verdict_ttl_millis", l)].
Proof. reflexivity. Qed.

Definition policy_members {A} (a b c d e f g h i j k l m n : A) : list (string * A) :=
    [("schema", a); ("enforcement", b); ("hardware", c); ("channel_binding_requirement", d);
     ("request_confidentiality_requirement", e); ("response_confidentiality_requirement", f);
     ("response_integrity_requirement", g); ("model_binding_requirement", h); ("provenance", i);
     ("freshness", j); ("stale_verdicts", k); ("verdict_ttl_millis", l);
     ("provider_registry_digest", m); ("reference_values_digest", n)].

Lemma policy_members_inj {A} (a b c d e f g h i j k l m n a' b' c' d' e' f' g' h' i' j' k' l' m' n' : A) :
  sort_by member_cmp (policy_members a b c d e f g h i j k l m n)
  = sort_by member_cmp (policy_members a' b' c' d' e' f' g' h' i' j' k' l' m' n') →
  (a = a' ∧ b = b' ∧ c = c' ∧ d = d' ∧ e = e' ∧ f = f' ∧ g = g')
  ∧ (h = h' ∧ i = i' ∧ j = j' ∧ k = k' ∧ l = l' ∧ m = m' ∧ n = n').
Proof. unfold policy_members. rewrite !policy_members_sorted. intros [=]. done. Qed.

Lemma mode_sorted {A} (a : A) : sort_by member_cmp [("mode", a)] = [("mode", a)].
Proof. reflexivity. Qed.
Lemma mode_allowed_sorted {A} (a b : A) :
  sort_by member_cmp [("mode", a); ("allowed", b)] = [("allowed", b); ("mode", a)].
Proof. reflexivity. Qed.
Lemma mode_millis_sorted {A} (a b : A) :
  sort_by member_cmp [("mode", a); ("millis", b)] = [("millis", b); ("mode", a)].
Proof. reflexivity. Qed.
Lemma cpu_gpu_sorted {A} (a b : A) :
  sort_by member_cmp [("cpu", a); ("gpu", b)] = [("cpu", a); ("gpu", b)].
Proof. reflexivity. Qed.
Lemma provenance_sorted {A} (a b c d e : A) :
  sort_by member_cmp [("workload_image", a); ("model_artifacts", b); ("reproducible_build", c);
                      ("source_attestation", d); ("dependency_sbom", e)]
  = [("dependency_sbom", e); ("model_artifacts", b); ("reproducible_build", c);
     ("source_attestation", d); ("workload_image", a)].
Proof. reflexivity. Qed.

Lemma cpu_value_inj x y : normal_form (cpu_value x) = normal_form (cpu_value y) → x = y.
Proof.
  destruct x, y; cbn [cpu_value normal_form map]; rewrite ?mode_sorted, ?mode_allowed_sorted; try done.
  by intros [= ->%cpu_kinds_inj].
Qed.
Lemma gpu_value_inj x y : normal_form (gpu_value x) = normal_form (gpu_value y) → x = y.
Proof.
  destruct x, y; cbn [gpu_value normal_form map]; rewrite ?mode_sorted, ?mode_allowed_sorted; try done.
  by intros [= ->%gpu_kinds_inj].
Qed.
Lemma hardware_value_inj x y : normal_form (hardware_value x) = normal_form (hardware_value y) → x = y.
Proof.
  destruct x, y. unfold hardware_value. cbn [normal_form map hw_cpu hw_gpu].
  rewrite !cpu_gpu_sorted. by intros [= ->%cpu_value_inj ->%gpu_value_inj].
Qed.
Lemma provenance_value_inj x y :
  normal_form (provenance_value x) = normal_form (provenance_value y) → x = y.
Proof.
  destruct x, y. unfold provenance_value. cbn [normal_form map]. rewrite !provenance_sorted. cbn.
  by intros [= -> -> -> -> ->].
Qed.
Lemma freshness_value_inj x y :
  normal_form (freshness_value x) = normal_form (freshness_value y) → x = y.
Proof.
  destruct x, y; cbn [freshness_value normal_form map]; rewrite ?mode_sorted, ?mode_millis_sorted; try done.
  by intros [= ->].
Qed.
Lemma stale_value_inj x y : normal_form (stale_value x) = normal_form (stale_value y) → x = y.
Proof.
  destruct x, y; cbn [stale_value normal_form map]; rewrite ?mode_sorted, ?mode_millis_sorted; try done.
  by intros [= ->].
Qed.
Definition leaf_inj {A} (f : A → Value) : Prop :=
  ∀ x y, normal_form (f x) = normal_form (f y) → x = y.
Lemma leaf_values_inj :
  leaf_inj enforcement_value ∧ leaf_inj channel_requirement_value ∧ leaf_inj bound_data_value
  ∧ leaf_inj integrity_requirement_value ∧ leaf_inj model_requirement_value
  ∧ leaf_inj VString ∧ leaf_inj millis_value.
Proof. repeat split; [intros [] []; done..|intros x y [=]; done|intros x y [=]; done]. Qed.

Lemma policy_value_inj p q : normal_form (policy_value p) = normal_form (policy_value q) → p = q.
Proof.
  destruct leaf_values_inj as (He & Hc & Hb & Hi & Hm & Hs & Hn).
  destruct p, q. unfold policy_value. cbn [normal_form map]. intros Heq.
  assert (∀ l k, VObject l = VObject k → l = k) as Hobj by (by intros ?? [=]).
  apply Hobj, policy_members_inj in Heq as
    ((?%Hs & ?%He & ?%hardware_value_inj & ?%Hc & ?%Hb & ?%Hb & ?%Hi)
     & ?%Hm & ?%provenance_value_inj & ?%freshness_value_inj & ?%stale_value_inj & ?%Hn & ?%Hs & ?%Hs).
  cbn in *; subst; reflexivity.
Qed.

Section Digest.
Context {prim : Primitives} {laws : JsonStringLaws}.

(** The policy digest identifies a policy up to the order and repetition
    of its allowed TEE kinds: policies with the same normal form have the same
    digest, and equal digests of different normal forms are a SHA-256
    collision between the two canonical texts. *)
Theorem policy_digest_identifies p q d :
  wf_policy p = true → wf_policy q = true → policy_digest p = Ok d →
  (normalized p = normalized q → policy_digest q = Ok d)
  ∧ (policy_digest q = Ok d → normalized p = normalized q
      ∨ values_collide (policy_value (normalized p)) (policy_value (normalized q))).
Proof.
  unfold policy_digest. intros Hp Hq Hd. inv_ok. split.
  - intros E. assert (schema p = schema q) as Es by apply (f_equal schema E).
    rewrite <-Es, <-E. by destruct (validate_policy_schema_major (schema p)) as [[]|].
  - intros E. inv_ok.
    destruct (canonical_digest_inj _ _ _ (wf_policy_value p Hp) (wf_policy_value q Hq) Hd E) as [E'|];
      [left|by right]. by apply policy_value_inj in E'.
Qed.
End Digest.

(** Normalising is idempotent and depends only on which TEE kinds a
    policy allows, and it keeps exactly those kinds. *)
Theorem cpu_normalize_canonical allowed allowed' kind :
  cpu_normalize (cpu_normalize (CpuOneOf allowed)) = cpu_normalize (CpuOneOf allowed)
  ∧ ((∀ k, k ∈ allowed ↔ k ∈ allowed') ↔ cpu_normalize (CpuOneOf allowed) = cpu_normalize (CpuOneOf allowed'))
  ∧ (kind ∈ dedup (sort_by cpu_cmp allowed) ↔ kind ∈ allowed).
Proof.
  cbn. split; [|split; [split|]].
  - by rewrite sort_dedup_idemp by apply _.
  - intros E. f_equal. by apply (sort_dedup_set cpu_cmp).
  - intros [= E] k. rewrite <-(sort_dedup_elem_of cpu_cmp allowed), E. apply (sort_dedup_elem_of cpu_cmp).
  - apply (sort_dedup_elem_of cpu_cmp).
Qed.

Lemma policy_digest_identifies_witness :
  let p := set_hardware require_hardware
             {| hw_cpu := CpuOneOf [Tdx; SevSnp; Tdx]; hw_gpu := GpuNotRequired |} in
  let q := set_hardware require_hardware
             {| hw_cpu := CpuOneOf [SevSnp; Tdx]; hw_gpu := GpuNotRequired |} in
  ∃ d, policy_digest p = Ok d ∧ policy_digest q = Ok d.
Proof.
  intros p q. destruct (policy_digest p) as [d|e] eqn:E; [|vm_compute in E; discriminate E].
  exists d. split; [done|].
  apply (proj1 (policy_digest_identifies p q d eq_refl eq_refl E)). reflexivity.
Defined.
