(* ===== verification/Verdict.v ===== *)
(** * Attestation verdicts

    verdict.rs: the verdict a verifier emits, and
    [validate_summary_consistency], the audit every verdict passes before it is
    returned or accepted: the summary fields must be backed by the check map. *)

From Stdlib Require Import Ascii String ZArith Lia.
From stdpp Require Import base gmap strings list numbers.
From S2P Require Import Prelude RustStr Errors Collections Timestamps Canonical JsonInjective Policy.

Open Scope string_scope.

(** ** Data *)

Inductive VerificationStatus :=
| StatusVerified | StatusPartial | StatusFailed | StatusUnreachable | StatusDisabled.
#[export] Instance VerificationStatus_eq_dec : EqDecision VerificationStatus.
Proof. solve_decision. Defined.

Inductive TrustTier := HwVerifiedTls | AppE2ee | TeeOnly | TierNone.
#[export] Instance TrustTier_eq_dec : EqDecision TrustTier.
Proof. solve_decision. Defined.

Inductive ChannelBindingKind :=
| KindNotRequired | KindTeeTerminatedTls | KindAttestedAppE2ee | KindAnyAttestedChannel | KindNone.
#[export] Instance ChannelBindingKind_eq_dec : EqDecision ChannelBindingKind.
Proof. solve_decision. Defined.

(** [ChannelBindingKind::satisfies]. *)
Definition channel_satisfies (kind : ChannelBindingKind) (requirement : ChannelBindingRequirement)
    : bool :=
  match requirement with
  | ChannelNotRequired => true
  | AnyAttestedChannel =>
      match kind with KindTeeTerminatedTls | KindAttestedAppE2ee => true | _ => false end
  | TeeTerminatedTls => match kind with KindTeeTerminatedTls => true | _ => false end
  | AttestedAppE2ee => match kind with KindAttestedAppE2ee => true | _ => false end
  end.

Inductive FreshnessClass := FreshPerRequest | FreshPerSession | CachedBinding.
#[export] Instance FreshnessClass_eq_dec : EqDecision FreshnessClass.
Proof. solve_decision. Defined.

Inductive AliasConfidence := Curated | ProviderDeclared | Algorithmic | ManualOverride.
#[export] Instance AliasConfidence_eq_dec : EqDecision AliasConfidence.
Proof. solve_decision. Defined.

Inductive ModelBindingResult := ModelVerified | ModelPartial | ModelNotSupported | ModelFailed.
#[export] Instance ModelBindingResult_eq_dec : EqDecision ModelBindingResult.
Proof. solve_decision. Defined.

Inductive CheckResult := Verified | Failed | NotApplicable | NotSupported | Unknown.
#[export] Instance CheckResult_eq_dec : EqDecision CheckResult.
Proof. solve_decision. Defined.

Record CheckOutcome := {
  co_state : CheckResult;
  co_required : bool;
  co_detail : string;
  co_evidence_refs : list string;
}.

Inductive RoutePartyRole :=
| InferenceProvider | RegistryAuthority | ReferenceValuesAuthority | WorkloadOperator
| TeePlatform | CloudHost.
#[export] Instance RoutePartyRole_eq_dec : EqDecision RoutePartyRole.
Proof. solve_decision. Defined.

Inductive AttributionSource :=
| SignedRegistry | SignedReferenceValues | AttestedEvidence | SourceUnknown.
#[export] Instance AttributionSource_eq_dec : EqDecision AttributionSource.
Proof. solve_decision. Defined.

Record RoutePartyAttribution := {
  pa_role : RoutePartyRole;
  pa_party_id : option string;
  pa_source : AttributionSource;
  pa_detail : string;
  pa_evidence_refs : list string;
}.

Record RouteAttribution := { parties : list RoutePartyAttribution }.

Inductive ConfidentialityResult := ConfChannelBound | EncryptedBound | ConfNotBound | ConfUnknown.
#[export] Instance ConfidentialityResult_eq_dec : EqDecision ConfidentialityResult.
Proof. solve_decision. Defined.

(** [matches!(result, ChannelBound | EncryptedBound)]. *)
Definition confidentiality_bound (result : ConfidentialityResult) : bool :=
  match result with ConfChannelBound | EncryptedBound => true | _ => false end.

(** [ConfidentialityResult::satisfies]. *)
Definition confidentiality_satisfies (result : ConfidentialityResult)
    (requirement : BoundDataRequirement) : bool :=
  match requirement with
  | DataNotRequired => true
  | BoundToAttestedWorkload => confidentiality_bound result
  end.

Inductive ResponseIntegrityResult :=
| RespChannelBound | RespReceiptBound | RespNotBound | RespUnknown.
#[export] Instance ResponseIntegrityResult_eq_dec : EqDecision ResponseIntegrityResult.
Proof. solve_decision. Defined.

(** [ResponseIntegrityResult::satisfies]. *)
Definition integrity_satisfies (result : ResponseIntegrityResult)
    (requirement : ResponseIntegrityRequirement) : bool :=
  match requirement with
  | IntegrityNotRequired => true
  | AnyBound => match result with RespChannelBound | RespReceiptBound => true | _ => false end
  | IntegrityChannelBound => match result with RespChannelBound => true | _ => false end
  | IntegrityReceiptBound => match result with RespReceiptBound => true | _ => false end
  end.

Record AttestedRoute := {
  rt_provider : string;
  rt_route_id : string;
  rt_evidence_family : string;
  rt_requested_model : string;
  rt_provider_model : string;
  rt_canonical_model : string;
  rt_api_endpoint : string;
  rt_evidence_endpoint : string;
  rt_adapter_version : string;
  rt_freshness_class : FreshnessClass;
  rt_channel_binding_kind : ChannelBindingKind;
  rt_trust_tier : TrustTier;
  rt_alias_confidence : AliasConfidence;
  rt_request_confidentiality_requirement : BoundDataRequirement;
  rt_response_confidentiality_requirement : BoundDataRequirement;
  rt_response_integrity_requirement : ResponseIntegrityRequirement;
  rt_streaming_allowed : bool;
}.

Record SignatureMetadata := { sm_signer : string; sm_key_id : string; sm_alg : string }.
#[export] Instance SignatureMetadata_eq_dec : EqDecision SignatureMetadata.
Proof. solve_decision. Defined.

Record ValidityWindow := {
  policy_ttl_until : string;
  collateral_valid_until : string;
  certificate_valid_until : string;
  quote_valid_until : string;
  tcb_valid_until : string;
  reference_values_valid_until : string;
  computed_expires_at : string;
}.

(** [ArtifactDigest] (evidence.rs). *)
Record ArtifactDigest := { ad_kind : string; ad_name : string; ad_digest : string }.
#[export] Instance ArtifactDigest_eq_dec : EqDecision ArtifactDigest.
Proof. solve_decision. Defined.

Record VerdictArtifacts := {
  va_source_url : option string;
  va_tee_measurement : option string;
  va_report_data : option string;
  va_signing_public_key : option string;
  va_e2ee_capability : option string;
  va_model_manifest : option string;
  va_model_artifacts : list ArtifactDigest;
}.

Record VerdictError := { ve_code : string; ve_message : string }.

Record AttestationVerdict := {
  v_schema : string;
  v_required : list string;
  v_policy_schema : string;
  v_reference_values_schema : string;
  v_provider_registry_schema : string;
  v_status : VerificationStatus;
  v_enforcement : EnforcementMode;
  v_request_allowed : bool;
  v_would_block_under_enforce : bool;
  v_trust_tier : TrustTier;
  v_provider : string;
  v_requested_model : string;
  v_provider_model : string;
  v_canonical_model : string;
  v_route_id : string;
  v_evidence_family : string;
  v_alias_confidence : AliasConfidence;
  v_adapter_version : string;
  v_api_endpoint : string;
  v_evidence_endpoint : string;
  v_freshness_class : FreshnessClass;
  v_streaming_allowed : bool;
  v_route_execution_status : string;
  v_chat_executable : bool;
  v_known_unsupported_modes : list string;
  v_channel_binding_kind : ChannelBindingKind;
  v_model_binding_result : ModelBindingResult;
  v_request_channel_bound : bool;
  v_request_confidentiality_result : ConfidentialityResult;
  v_response_confidentiality_result : ConfidentialityResult;
  v_response_channel_bound : bool;
  v_response_integrity_result : ResponseIntegrityResult;
  v_policy_digest : string;
  v_provider_registry_digest : string;
  v_registry_version : string;
  v_registry_source : string;
  v_registry_sync_completed_at : string;
  v_registry_signature : SignatureMetadata;
  v_reference_values_digest : string;
  v_reference_values_version : string;
  v_reference_values_source : string;
  v_reference_values_signature : SignatureMetadata;
  v_raw_evidence_digest : string;
  v_evidence_digest : string;
  v_verified_at : string;
  v_expires_at : string;
  v_expires_at_epoch_ms : Z;
  v_validity : ValidityWindow;
  v_checks : gmap string CheckResult;
  v_check_outcomes : gmap string CheckOutcome;
  v_route_attribution : option RouteAttribution;
  v_artifacts : VerdictArtifacts;
  v_errors : list VerdictError;
}.

Definition VERDICT_SCHEMA : string := "confidential-inference.verdict.v1".

Definition VERDICT_KNOWN_FIELDS : list string :=
  ["schema"; "required"; "policy_schema"; "reference_values_schema"; "provider_registry_schema";
   "status"; "enforcement"; "request_allowed"; "would_block_under_enforce"; "trust_tier";
   "provider"; "requested_model"; "provider_model"; "canonical_model"; "route_id";
   "evidence_family"; "alias_confidence"; "adapter_version"; "api_endpoint"; "evidence_endpoint";
   "freshness_class"; "streaming_allowed"; "route_execution_status"; "chat_executable";
   "known_unsupported_modes"; "channel_binding_kind"; "model_binding_result";
   "request_channel_bound"; "request_confidentiality_result"; "response_confidentiality_result";
   "response_channel_bound"; "response_integrity_result"; "policy_digest";
   "provider_registry_digest"; "registry_version"; "registry_source";
   "registry_sync_completed_at"; "registry_signature"; "reference_values_digest";
   "reference_values_version"; "reference_values_source"; "reference_values_signature";
   "raw_evidence_digest"; "evidence_digest"; "verified_at"; "expires_at"; "expires_at_epoch_ms";
   "validity"; "checks"; "check_outcomes"; "route_attribution"; "artifacts"; "errors"].

Definition VERDICT_EVIDENCE_REFS : list string :=
  ["policy_digest"; "provider_registry_digest"; "reference_values_digest"; "raw_evidence_digest";
   "evidence_digest"].

Definition malformed (msg : string) : AttestationError := MalformedVerdict msg.
Definition contains (l : list string) (s : string) : bool := existsb (λ x, x =?= s) l.

(** ** Field validators *)

Definition validate_evidence_refs (refs : list string) : Result unit :=
  let canonical := dedup (sort_by str_cmp refs) in
  bail (malformed "{field} must be sorted and unique") when negb (canonical =?= refs);
  bail (malformed "{field} contains unsupported evidence reference {unsupported}")
    when existsb (λ reference, negb (contains VERDICT_EVIDENCE_REFS reference)) refs;
  Ok tt.

Definition validate_schema_major (value prefix : string) : Result unit :=
  check_schema_major MalformedVerdict prefix value.

Definition validate_sha256_digest (value : string) : Result unit :=
  match strip_prefix "sha256:" value with
  | None => Err (malformed "{field} must be a canonical sha256 digest")
  | Some hex =>
      bail (malformed "{field} must be a canonical sha256 digest")
        when negb (String.length hex =? 64)%nat
             || any_byte (λ byte, negb (is_ascii_hexdigit byte) || is_ascii_uppercase byte) hex;
      Ok tt
  end.

Definition validate_one_signature (signature : SignatureMetadata) : Result unit :=
  bail (malformed "{field} metadata is incomplete")
    when is_empty (sm_signer signature) || is_empty (sm_key_id signature);
  bail (malformed "{field} uses unsupported signature algorithm {}")
    when negb (sm_alg signature =?= "ed25519");
  Ok tt.

Definition parse_verdict_timestamp (value : string) : Result Z :=
  map_err (λ _, malformed "{field} is not a canonical UTC timestamp: {error}")
    (parse_utc_timestamp_millis value).

Definition cpu_allowed (cpu : CpuTeeKind) (accepted : list CpuTeeKind) : bool :=
  existsb (λ candidate, candidate =?= cpu) accepted.

Definition validate_schema_metadata (v : AttestationVerdict) : Result unit :=
  _ ← validate_schema_major (v_schema v) "confidential-inference.verdict";
  _ ← validate_schema_major (v_policy_schema v) "confidential-inference.policy";
  _ ← validate_schema_major (v_reference_values_schema v) "confidential-inference.reference-values";
  validate_schema_major (v_provider_registry_schema v) "confidential-inference.provider-registry".

Definition validate_digest_metadata (v : AttestationVerdict) : Result unit :=
  _ ← validate_sha256_digest (v_policy_digest v);
  _ ← validate_sha256_digest (v_provider_registry_digest v);
  _ ← validate_sha256_digest (v_reference_values_digest v);
  _ ← validate_sha256_digest (v_raw_evidence_digest v);
  validate_sha256_digest (v_evidence_digest v).

Definition validate_signature_metadata (v : AttestationVerdict) : Result unit :=
  _ ← validate_one_signature (v_registry_signature v);
  validate_one_signature (v_reference_values_signature v).

Definition validate_required_fields (v : AttestationVerdict) : Result unit :=
  for_each (λ field,
    bail (malformed "verdict required list must contain non-empty field names") when is_empty field;
    bail (malformed "verdict declares unsupported required field {field}")
      when negb (contains VERDICT_KNOWN_FIELDS field);
    Ok tt) (v_required v).

(** [into_iter().min()]. *)
Definition minimum (l : list Z) : option Z :=
  match l with [] => None | x :: l => Some (fold_left Z.min l x) end.

(** The six bounds of a validity window. *)
Definition validity_bounds (w : ValidityWindow) : list string :=
  [policy_ttl_until w; collateral_valid_until w; certificate_valid_until w; quote_valid_until w;
   tcb_valid_until w; reference_values_valid_until w].

Definition validate_validity_summary (v : AttestationVerdict) : Result unit :=
  bail (malformed "expires_at must match validity.computed_expires_at")
    when negb (v_expires_at v =?= computed_expires_at (v_validity v));
  expires_at_epoch_ms ← parse_verdict_timestamp (v_expires_at v);
  bail (malformed "expires_at_epoch_ms must match expires_at")
    when negb (expires_at_epoch_ms =? v_expires_at_epoch_ms v)%Z;
  bounds ← collect_results parse_verdict_timestamp (validity_bounds (v_validity v));
  expected_min ← ok_or (minimum bounds) (malformed "validity is empty");
  bail (malformed "validity.computed_expires_at must be the minimum validity bound")
    when negb (expected_min =? expires_at_epoch_ms)%Z;
  Ok tt.

(** [checks.values().any(|check| *check == CheckResult::Failed)]. *)
Definition any_failed (checks : gmap string CheckResult) : bool :=
  btree_any (λ '(_, check), check =?= Failed) checks.

Definition outcome_unproven (outcome : CheckOutcome) : bool :=
  co_required outcome && match co_state outcome with NotSupported | Unknown => true | _ => false end.

Definition validate_status_summary (v : AttestationVerdict) : Result unit :=
  if negb (v_status v =?= StatusVerified) then Ok tt else
  bail (malformed "status=verified but at least one check is failed") when any_failed (v_checks v);
  _ ← for_each (λ '(name, outcome),
        bail (malformed "status=verified but required check {name} is {:?}")
          when outcome_unproven outcome; Ok tt)
      (btree_iter (v_check_outcomes v));
  bail (malformed "status=verified but verdict contains errors")
    when match v_errors v with [] => false | _ => true end;
  bail (malformed "status=verified conflicts with request_allowed=false")
    when negb (v_request_allowed v);
  bail (malformed "status=verified conflicts with would_block_under_enforce=true")
    when v_would_block_under_enforce v;
  Ok tt.

Definition validate_structured_check (outcomes : gmap string CheckOutcome)
    (entry : string * CheckResult) : Result unit :=
  let '(name, state) := entry in
  outcome ← ok_or (outcomes !! name) (malformed "check_outcomes is missing check {name}");
  bail (malformed "check_outcomes.{name}.state conflicts with checks.{name}")
    when negb (co_state outcome =?= state);
  bail (malformed "check_outcomes.{name}.detail must not be empty")
    when is_empty (trim (co_detail outcome));
  bail (malformed "required check_outcomes.{name} cannot be not_applicable")
    when co_required outcome && (co_state outcome =?= NotApplicable);
  validate_evidence_refs (co_evidence_refs outcome).

Definition validate_structured_checks (v : AttestationVerdict) : Result unit :=
  if (size (v_check_outcomes v) =? 0)%nat then Ok tt else
  bail (malformed "check_outcomes must contain exactly the legacy check keys")
    when negb (size (v_check_outcomes v) =? size (v_checks v))%nat;
  for_each (validate_structured_check (v_check_outcomes v)) (btree_iter (v_checks v)).

(** ** Route attribution *)

Definition expected_roles : list RoutePartyRole :=
  [InferenceProvider; RegistryAuthority; ReferenceValuesAuthority; WorkloadOperator; TeePlatform;
   CloudHost].

(** The derived [Ord]: declaration order. *)
Definition role_index (role : RoutePartyRole) : nat :=
  match role with
  | InferenceProvider => 0 | RegistryAuthority => 1 | ReferenceValuesAuthority => 2
  | WorkloadOperator => 3 | TeePlatform => 4 | CloudHost => 5
  end.
Definition role_cmp (a b : RoutePartyRole) : comparison := Nat.compare (role_index a) (role_index b).

Definition validate_party (party : RoutePartyAttribution) : Result unit :=
  bail (malformed "route_attribution {:?} detail must not be empty")
    when is_empty (trim (pa_detail party));
  _ ← match pa_source party, pa_party_id party with
      | SourceUnknown, None => Ok tt
      | SourceUnknown, Some _ =>
          Err (malformed "route_attribution {:?} cannot name a party from an unknown source")
      | _, Some party_id =>
          bail (malformed "route_attribution {:?} requires a non-empty party_id")
            when is_empty (trim party_id); Ok tt
      | _, None => Err (malformed "route_attribution {:?} requires a non-empty party_id")
      end;
  validate_evidence_refs (pa_evidence_refs party).

Definition validate_route_attribution (v : AttestationVerdict) : Result unit :=
  match v_route_attribution v with
  | None => Ok tt
  | Some attribution =>
      bail (malformed "route_attribution must explicitly cover every route-party role")
        when negb (length (parties attribution) =? length expected_roles)%nat;
      let roles := dedup (sort_by role_cmp (map pa_role (parties attribution))) in
      bail (malformed "route_attribution roles are missing or duplicated")
        when negb (roles =?= expected_roles);
      _ ← for_each validate_party (parties attribution);
      match List.find (λ party, pa_role party =?= InferenceProvider) (parties attribution) with
      | None => Err (malformed "role coverage checked above")
      | Some provider =>
          bail (malformed "inference-provider attribution must match the signed registry provider")
            when negb (pa_party_id provider =?= Some (v_provider v))
                 || negb (pa_source provider =?= SignedRegistry);
          Ok tt
      end
  end.

(** ** Summaries *)

Definition check (v : AttestationVerdict) (name : string) : option CheckResult := v_checks v !! name.

Definition require_verified_check (v : AttestationVerdict) (check_name : string) : Result unit :=
  if v_checks v !! check_name =?= Some Verified then Ok tt
  else Err (malformed "{summary} requires {check_name} check to be verified").

Definition integrity_bound (result : ResponseIntegrityResult) : bool :=
  match result with RespChannelBound | RespReceiptBound => true | _ => false end.

Definition validate_trust_tier_summary (v : AttestationVerdict) : Result unit :=
  if negb (v_status v =?= StatusVerified) then Ok tt else
  match v_trust_tier v with
  | AppE2ee =>
      bail (malformed "trust_tier=app-e2ee requires channel_binding_kind=attested_app_e2ee")
        when negb (v_channel_binding_kind v =?= KindAttestedAppE2ee);
      bail (malformed "trust_tier=app-e2ee requires request and response channel binding")
        when negb (v_request_channel_bound v) || negb (v_response_channel_bound v);
      Ok tt
  | HwVerifiedTls =>
      bail (malformed "trust_tier=hw-verified-tls requires channel_binding_kind=tee_terminated_tls")
        when negb (v_channel_binding_kind v =?= KindTeeTerminatedTls);
      _ ← require_verified_check v "tls_binding";
      bail (malformed "trust_tier=hw-verified-tls requires channel-bound request and response confidentiality")
        when negb (v_request_confidentiality_result v =?= ConfChannelBound)
             || negb (v_response_confidentiality_result v =?= ConfChannelBound);
      Ok tt
  | TeeOnly =>
      bail (malformed "trust_tier=tee-only must not report response_channel_bound=true")
        when v_response_channel_bound v;
      Ok tt
  | TierNone =>
      bail (malformed "trust_tier=none conflicts with bound channel or response integrity summaries")
        when v_request_channel_bound v || v_response_channel_bound v
             || integrity_bound (v_response_integrity_result v)
             || confidentiality_bound (v_request_confidentiality_result v)
             || confidentiality_bound (v_response_confidentiality_result v);
      Ok tt
  end.

Definition any_unproven (outcomes : gmap string CheckOutcome) : bool :=
  btree_any (λ '(_, outcome), outcome_unproven outcome) outcomes.

Definition validate_enforcement_summary (v : AttestationVerdict) : Result unit :=
  let would_block := any_failed (v_checks v) || any_unproven (v_check_outcomes v) in
  bail (malformed "failed or required-unproven checks conflict with would_block_under_enforce=false")
    when would_block && negb (v_would_block_under_enforce v);
  bail (malformed "would_block_under_enforce=true but no check is failed or required-unproven")
    when negb would_block && v_would_block_under_enforce v;
  bail (malformed "status=disabled requires disabled enforcement")
    when (v_status v =?= StatusDisabled) && negb (v_enforcement v =?= Disabled);
  match v_enforcement v with
  | Enforce =>
      bail (malformed "enforce verdict would block but request_allowed=true")
        when v_would_block_under_enforce v && v_request_allowed v;
      bail (malformed "enforce verdict allows policy but request_allowed=false")
        when negb (v_would_block_under_enforce v) && negb (v_request_allowed v);
      Ok tt
  | Observe =>
      bail (malformed "non-enforcing verdict must not set request_allowed=false")
        when negb (v_request_allowed v);
      Ok tt
  | Disabled =>
      bail (malformed "non-enforcing verdict must not set request_allowed=false")
        when negb (v_request_allowed v);
      bail (malformed "disabled enforcement must emit status=disabled")
        when negb (v_status v =?= StatusDisabled);
      Ok tt
  end.

(** The request half of the binding summary. *)
Definition validate_request_summary (v : AttestationVerdict) : Result unit :=
  _ ← (if confidentiality_bound (v_request_confidentiality_result v) then
         bail (malformed "bound request_confidentiality_result conflicts with request_channel_bound=false")
           when negb (v_request_channel_bound v);
         _ ← require_verified_check v "request_key_binding";
         require_verified_check v "request_encryption"
       else Ok tt);
  bail (malformed "request_channel_bound conflicts with request_confidentiality_result")
    when v_request_channel_bound v
         && negb (confidentiality_bound (v_request_confidentiality_result v));
  Ok tt.

(** The response half. *)
Definition validate_response_summary (v : AttestationVerdict) : Result unit :=
  _ ← (if confidentiality_bound (v_response_confidentiality_result v) then
         bail (malformed "bound response_confidentiality_result conflicts with response_channel_bound=false")
           when negb (v_response_channel_bound v);
         _ ← require_verified_check v "response_key_binding";
         require_verified_check v "response_encryption"
       else Ok tt);
  bail (malformed "response_channel_bound conflicts with response_confidentiality_result")
    when v_response_channel_bound v
         && negb (confidentiality_bound (v_response_confidentiality_result v));
  bail (malformed "response channel binding must mirror channel-bound response integrity")
    when v_response_channel_bound v
         && negb (v_response_integrity_result v =?= RespChannelBound);
  match v_response_integrity_result v with
  | RespChannelBound =>
      bail (malformed "channel-bound response integrity conflicts with response_channel_bound=false")
        when negb (v_response_channel_bound v);
      require_verified_check v "response_channel_binding"
  | RespReceiptBound => require_verified_check v "response_receipt"
  | RespNotBound | RespUnknown => Ok tt
  end.

Definition validate_summary_consistency (v : AttestationVerdict) : Result unit :=
  _ ← validate_schema_metadata v;
  _ ← validate_required_fields v;
  _ ← validate_digest_metadata v;
  _ ← validate_signature_metadata v;
  _ ← validate_validity_summary v;
  _ ← validate_structured_checks v;
  _ ← validate_route_attribution v;
  bail (malformed "model_binding_result=verified but model_binding check is not verified")
    when (v_model_binding_result v =?= ModelVerified)
         && negb (v_checks v !! "model_binding" =?= Some Verified);
  _ ← validate_request_summary v;
  _ ← validate_response_summary v;
  _ ← validate_trust_tier_summary v;
  _ ← validate_enforcement_summary v;
  validate_status_summary v.

(** ** What a validated verdict guarantees *)

Lemma any_failed_false checks :
  any_failed checks = false ↔ ∀ name state, checks !! name = Some state → state ≠ Failed.
Proof. unfold any_failed. rewrite btree_any_false. setoid_rewrite bool_decide_eq_false. done. Qed.

Lemma any_unproven_false outcomes :
  any_unproven outcomes = false ↔
    ∀ name outcome, outcomes !! name = Some outcome → outcome_unproven outcome = false.
Proof. unfold any_unproven. by rewrite btree_any_false. Qed.

Lemma require_verified_Ok v name :
  require_verified_check v name = Ok tt ↔ v_checks v !! name = Some Verified.
Proof. unfold require_verified_check. case_bool_decide; split; done. Qed.

#[export] Hint Rewrite require_verified_Ok : rust_bool.

(** The parts of a successful validation. *)
Record validated (v : AttestationVerdict) : Prop := {
  ok_digests : validate_digest_metadata v = Ok tt;
  ok_validity : validate_validity_summary v = Ok tt;
  ok_structured : validate_structured_checks v = Ok tt;
  ok_attribution : validate_route_attribution v = Ok tt;
  ok_model : v_model_binding_result v = ModelVerified → v_checks v !! "model_binding" = Some Verified;
  ok_request : validate_request_summary v = Ok tt;
  ok_response : validate_response_summary v = Ok tt;
  ok_tier : validate_trust_tier_summary v = Ok tt;
  ok_enforcement : validate_enforcement_summary v = Ok tt;
  ok_status : validate_status_summary v = Ok tt;
}.

Lemma validate_parts v : validate_summary_consistency v = Ok tt → validated v.
Proof.
  unfold validate_summary_consistency. intros H. inv_ok. constructor; try done.
  intros E. rewrite E in *. bools. naive_solver.
Qed.

Lemma enforcement_summary v :
  validate_enforcement_summary v = Ok tt →
  v_would_block_under_enforce v = any_failed (v_checks v) || any_unproven (v_check_outcomes v)
  ∧ v_request_allowed v
    = match v_enforcement v with Enforce => negb (v_would_block_under_enforce v) | _ => true end
  ∧ (v_status v = StatusDisabled ↔ v_enforcement v = Disabled).
Proof.
  unfold validate_enforcement_summary. generalize (any_failed (v_checks v) || any_unproven (v_check_outcomes v)).
  intros b H. inv_ok.
  destruct b, (v_would_block_under_enforce v), (v_request_allowed v), (v_enforcement v);
    cbn in *; inv_ok; bools; naive_solver.
Qed.

Lemma structured_check v name outcome :
  validate_structured_checks v = Ok tt → v_check_outcomes v !! name = Some outcome →
  v_checks v !! name = Some (co_state outcome) ∧ (co_required outcome = true → co_state outcome ≠ NotApplicable).
Proof.
  unfold validate_structured_checks. intros H Hn.
  destruct (Nat.eqb_spec (size (v_check_outcomes v)) 0) as [E|_].
  { apply map_size_empty_inv in E. rewrite E, lookup_empty in Hn. done. }
  inv_ok. bools. rewrite btree_for_each in H.
  assert (dom (v_checks v) = dom (v_check_outcomes v)) as Hdom.
  { apply leibniz_equiv, set_subseteq_size_equiv; [|rewrite !size_dom; lia].
    intros k [state Hk]%elem_of_dom. apply H in Hk. cbn in Hk. inv_ok. by eapply elem_of_dom_2. }
  assert (is_Some (v_checks v !! name)) as [state Hs].
  { apply elem_of_dom. rewrite Hdom. by eapply elem_of_dom_2. }
  specialize (H name state Hs). cbn in H. rewrite Hn in H. cbn in H. inv_ok. bools. subst state.
  split; [done|]. intros E. destruct H3; [congruence|done].
Qed.

(** C10: a validated enforcing verdict that lets the request through has no
    failed check, and every check its outcome map requires is verified; a
    validated enforcing verdict with a failed or required-unproven check blocks
    the request. *)
Theorem enforced_verdict_fail_closed v :
  validate_summary_consistency v = Ok tt → v_enforcement v = Enforce →
  (v_request_allowed v = true ↔
     (∀ name state, v_checks v !! name = Some state → state ≠ Failed)
     ∧ (∀ name outcome, v_check_outcomes v !! name = Some outcome → co_required outcome = true →
          v_checks v !! name = Some Verified)).
Proof.
  intros V%validate_parts He. pose proof (ok_structured v V) as Hst.
  destruct (enforcement_summary v (ok_enforcement v V)) as (Hw & Ha & _).
  rewrite He, Hw in Ha. rewrite Ha, negb_true_iff, orb_false_iff, any_failed_false, any_unproven_false.
  split; intros [Hf Ho]; (split; [exact Hf|]); intros name outcome Hn.
  - intros Hr. destruct (structured_check v name outcome Hst Hn) as [Hc Hna].
    specialize (Ho _ _ Hn). unfold outcome_unproven in Ho. rewrite Hr in Ho.
    specialize (Hf _ _ Hc). specialize (Hna Hr). rewrite Hc. by destruct (co_state outcome).
  - specialize (Ho _ _ Hn). destruct (structured_check v name outcome Hst Hn) as [Hc _].
    unfold outcome_unproven. destruct (co_required outcome); [|done].
    rewrite Hc in Ho. specialize (Ho eq_refl). injection Ho as ->. done.
Qed.

(** The binding summary of a validated verdict is backed by its checks:
    request data is reported bound exactly when the request channel is, and then
    the request key binding and encryption checks are verified; the response is
    channel-bound exactly when its integrity is, with its three checks verified;
    receipts and model bindings are claimed only when their checks are verified. *)
Theorem validated_bindings_backed v :
  validate_summary_consistency v = Ok tt →
  (confidentiality_bound (v_request_confidentiality_result v) = v_request_channel_bound v)
  ∧ (v_request_channel_bound v = true →
       v_checks v !! "request_key_binding" = Some Verified
       ∧ v_checks v !! "request_encryption" = Some Verified)
  ∧ (confidentiality_bound (v_response_confidentiality_result v) = v_response_channel_bound v)
  ∧ (v_response_channel_bound v = true ↔ v_response_integrity_result v = RespChannelBound)
  ∧ (v_response_channel_bound v = true →
       v_checks v !! "response_key_binding" = Some Verified
       ∧ v_checks v !! "response_encryption" = Some Verified
       ∧ v_checks v !! "response_channel_binding" = Some Verified)
  ∧ (v_response_integrity_result v = RespReceiptBound → v_checks v !! "response_receipt" = Some Verified)
  ∧ (v_model_binding_result v = ModelVerified → v_checks v !! "model_binding" = Some Verified).
Proof.
  intros V%validate_parts.
  pose proof (ok_request v V) as Hreq. pose proof (ok_response v V) as Hresp.
  unfold validate_request_summary in Hreq. unfold validate_response_summary in Hresp.
  destruct (confidentiality_bound (v_request_confidentiality_result v)),
    (v_request_channel_bound v); cbn in Hreq; inv_ok; bools.
  all: destruct (confidentiality_bound (v_response_confidentiality_result v)),
    (v_response_channel_bound v); cbn in Hresp; inv_ok; bools.
  all: destruct (v_response_integrity_result v); cbn in Hresp; inv_ok; bools.
  all: split_ors; pose proof (ok_model v V).
  all: repeat split; intros; try discriminate; try done; auto.
Qed.

(** A validated verdict with status verified has no failed check, no
    error, no required check left unproven, and is allowed whatever the
    enforcement mode; it is never emitted by disabled enforcement. *)
Theorem verified_status_sound v :
  validate_summary_consistency v = Ok tt → v_status v = StatusVerified →
  (∀ name state, v_checks v !! name = Some state → state ≠ Failed)
  ∧ (∀ name outcome, v_check_outcomes v !! name = Some outcome → co_required outcome = true →
       co_state outcome = Verified)
  ∧ v_errors v = [] ∧ v_request_allowed v = true ∧ v_would_block_under_enforce v = false
  ∧ v_enforcement v ≠ Disabled.
Proof.
  intros V%validate_parts Hs.
  pose proof (ok_status v V) as Hst. unfold validate_status_summary in Hst.
  rewrite Hs, bool_decide_true in Hst by done. cbn [negb] in Hst. inv_ok. bools.
  assert (∀ name state, v_checks v !! name = Some state → state ≠ Failed) as Hf
    by (by apply any_failed_false).
  split; [exact Hf|]. split; [|split; [|split; [|split]]].
  - intros name outcome Hn Hr.
    destruct (structured_check v name outcome (ok_structured v V) Hn) as [Hc Hna].
    rewrite btree_for_each in *. specialize (Hf _ _ Hc). specialize (Hna Hr).
    match goal with H : ∀ k o, v_check_outcomes v !! k = Some o → _ |- _ => specialize (H _ _ Hn) end.
    inv_ok. unfold outcome_unproven in *. rewrite Hr in *. by destruct (co_state outcome).
  - by destruct (v_errors v).
  - done.
  - done.
  - destruct (enforcement_summary v (ok_enforcement v V)) as (_ & _ & Hd). rewrite Hs in Hd.
    intros E. apply Hd in E. done.
Qed.

Lemma fold_min l x : (fold_left Z.min l x ≤ x)%Z ∧ Forall (λ y, fold_left Z.min l x ≤ y)%Z l
  ∧ (fold_left Z.min l x = x ∨ fold_left Z.min l x ∈ l).
Proof.
  revert x. induction l as [|y l IH]; intros x; cbn; [split; [lia|]; split; [constructor|by left]|].
  destruct (IH (Z.min x y)) as (H1 & H2 & H3). split; [lia|]. split; [constructor; [lia|done]|].
  rewrite elem_of_cons. destruct (Z.min_spec x y) as [[? E]|[? E]]; rewrite E in *; tauto.
Qed.

Lemma minimum_spec l m : minimum l = Some m → m ∈ l ∧ ∀ x, x ∈ l → (m ≤ x)%Z.
Proof.
  destruct l as [|x l]; [done|]. intros [= <-]. destruct (fold_min l x) as (H1 & H2 & H3). split.
  - rewrite elem_of_cons. tauto.
  - intros y [->|Hy]%elem_of_cons; [done|]. rewrite list.Forall_forall in H2. by apply H2.
Qed.

(** The expiry of a consistent validity summary is its earliest bound. *)
Lemma validity_summary_minimum v :
  validate_validity_summary v = Ok tt →
  parse_utc_timestamp_millis (v_expires_at v) = Ok (v_expires_at_epoch_ms v)
  ∧ (∀ bound, bound ∈ validity_bounds (v_validity v) →
       ∃ ms, parse_utc_timestamp_millis bound = Ok ms ∧ (v_expires_at_epoch_ms v ≤ ms)%Z)
  ∧ (∃ bound, bound ∈ validity_bounds (v_validity v)
       ∧ parse_utc_timestamp_millis bound = Ok (v_expires_at_epoch_ms v)).
Proof.
  unfold validate_validity_summary, parse_verdict_timestamp. intros H. inv_ok. bools. subst.
  match goal with H : collect_results _ _ = Ok ?l |- _ => rename H into Hc; rename l into ms end.
  match goal with H : minimum _ = Some _ |- _ => apply minimum_spec in H as [Hin Hle] end.
  apply collect_results_Ok in Hc. split; [done|]. split.
  - intros bound Hb. destruct (Forall2_elem_l _ _ _ _ Hc Hb) as (y & Hy & E%map_err_Ok).
    exists y. split; [done|]. by apply Hle.
  - destruct (Forall2_elem_r _ _ _ _ Hc Hin) as (bound & Hb & E%map_err_Ok). eauto.
Qed.

(** A validated verdict expires at the earliest of its six validity
    bounds: every bound is a well-formed timestamp no earlier than the expiry,
    and the expiry is one of them. *)
Theorem validated_expiry_is_minimum v :
  validate_summary_consistency v = Ok tt →
  parse_utc_timestamp_millis (v_expires_at v) = Ok (v_expires_at_epoch_ms v)
  ∧ (∀ bound, bound ∈ validity_bounds (v_validity v) →
       ∃ ms, parse_utc_timestamp_millis bound = Ok ms ∧ (v_expires_at_epoch_ms v ≤ ms)%Z)
  ∧ (∃ bound, bound ∈ validity_bounds (v_validity v)
       ∧ parse_utc_timestamp_millis bound = Ok (v_expires_at_epoch_ms v)).
Proof. intros V%validate_parts. apply validity_summary_minimum, (ok_validity v V). Qed.

#[export] Instance role_cmp_total : TotalCmp role_cmp.
Proof.
  unfold role_cmp. split.
  - intros x y. rewrite (cmp_eq Nat.compare). by destruct x, y.
  - intros x y. apply (cmp_opp Nat.compare).
  - intros x y z. apply (cmp_lt_trans Nat.compare).
Qed.

(** A validated route attribution names every party role exactly once,
    never names a party whose source is unknown, and takes the inference
    provider from the signed registry under the verdict's provider id. *)
Theorem validated_attribution v attribution :
  validate_summary_consistency v = Ok tt → v_route_attribution v = Some attribution →
  map pa_role (parties attribution) ≡ₚ expected_roles
  ∧ (∀ party, party ∈ parties attribution → pa_source party = SourceUnknown ↔ pa_party_id party = None)
  ∧ (∃ party, party ∈ parties attribution ∧ pa_role party = InferenceProvider
       ∧ pa_party_id party = Some (v_provider v) ∧ pa_source party = SignedRegistry).
Proof.
  intros V%validate_parts Ha. pose proof (ok_attribution v V) as H.
  unfold validate_route_attribution in H. rewrite Ha in H. inv_ok. bools.
  destruct (List.find _ _) as [p|] eqn:Ef in H; [|done]. inv_ok. bools.
  split; [|split].
  - symmetry. apply submseteq_length_Permutation.
    + apply NoDup_submseteq; [by apply (bool_decide_unpack _)|].
      intros role Hr. apply (sort_dedup_elem_of role_cmp). congruence.
    + rewrite length_map. lia.
  - intros party Hp. rewrite for_each_Ok, list.Forall_forall in *.
    match goal with H : ∀ x, x ∈ parties attribution → _ |- _ => specialize (H _ Hp) end.
    unfold validate_party in *. inv_ok. by destruct (pa_source party), (pa_party_id party).
  - exists p. apply List.find_some in Ef as [Hin Hrole]. bools.
    split; [by apply list_elem_of_In|]. naive_solver.
Qed.

Lemma hex_digit_lower n : (n < 16)%N →
  is_ascii_hexdigit (hex_digit n) = true ∧ is_ascii_uppercase (hex_digit n) = false
  ∧ is_lower_hexdigit (hex_digit n) = true.
Proof.
  intros Hn. unfold is_ascii_hexdigit, is_lower_hexdigit, is_ascii_uppercase, is_ascii_digit, between,
    hex_digit, code.
  destruct (N.ltb_spec n 10); rewrite N_ascii_embedding by lia;
    repeat match goal with |- context [(?a <=? ?b)%N] => destruct (N.leb_spec a b); try lia end; done.
Qed.

Lemma code_nibbles c : (code c / 16 < 16)%N ∧ (code c mod 16 < 16)%N.
Proof.
  pose proof (N_ascii_bounded c). unfold code.
  split; [apply N.Div0.div_lt_upper_bound; lia | apply N.mod_lt; lia].
Qed.

Lemma lower_hex_spec s :
  String.length (lower_hex s) = (2 * String.length s)%nat
  ∧ all_bytes is_lower_hexdigit (lower_hex s) = true
  ∧ any_byte (λ byte, negb (is_ascii_hexdigit byte) || is_ascii_uppercase byte) (lower_hex s) = false.
Proof.
  induction s as [|c s (IH1 & IH2 & IH3)]; [done|].
  destruct (code_nibbles c) as [Hhi Hlo].
  destruct (hex_digit_lower _ Hhi) as (E1 & E2 & E3). destruct (hex_digit_lower _ Hlo) as (E4 & E5 & E6).
  split; [cbn; rewrite IH1; lia|]. split.
  - change (lower_hex (String c s)) with
      (String (hex_digit (code c / 16)) (String (hex_digit (code c mod 16)) (lower_hex s))).
    by rewrite !all_bytes_cons, E3, E6, IH2.
  - unfold any_byte in *. cbn [lower_hex bytes list_ascii_of_string existsb].
    rewrite E1, E2, E4, E5. exact IH3.
Qed.

(** Every digest the crate computes passes the verdict's digest validation. *)
Lemma sha256_digest_valid `{!Primitives, !Sha256Laws} s :
  validate_sha256_digest (sha256_digest s) = Ok tt.
Proof.
  unfold validate_sha256_digest, sha256_digest.
  change (strip_prefix "sha256:" ("sha256:" +:+ lower_hex (sha256 s))) with (Some (lower_hex (sha256 s))).
  destruct (lower_hex_spec (sha256 s)) as (Hl & _ & Ha). by rewrite Hl, Ha, sha256_length.
Qed.

(** ** A concrete verdict *)

Definition sample_timestamp : string := "2026-03-01T10:00:00Z".
Definition sample_digest : string := "sha256:" +:+ zeros 64.
Definition sample_signature : SignatureMetadata :=
  {| sm_signer := "confidential-inference"; sm_key_id := "demo"; sm_alg := "ed25519" |}.
Definition sample_parties : list RoutePartyAttribution :=
  map (λ '(role, party, source),
         {| pa_role := role; pa_party_id := party; pa_source := source; pa_detail := "detail";
            pa_evidence_refs := ["evidence_digest"] |})
    [(InferenceProvider, Some "near", SignedRegistry); (RegistryAuthority, Some "ci", SignedRegistry);
     (ReferenceValuesAuthority, Some "ci", SignedReferenceValues);
     (WorkloadOperator, None, SourceUnknown); (TeePlatform, Some "tdx", AttestedEvidence);
     (CloudHost, None, SourceUnknown)].

Definition sample_verdict : AttestationVerdict := {|
  v_schema := VERDICT_SCHEMA; v_required := ["checks"]; v_policy_schema := POLICY_SCHEMA;
  v_reference_values_schema := "confidential-inference.reference-values.v1";
  v_provider_registry_schema := "confidential-inference.provider-registry.v1.2";
  v_status := StatusVerified; v_enforcement := Enforce; v_request_allowed := true;
  v_would_block_under_enforce := false; v_trust_tier := TeeOnly; v_provider := "near";
  v_requested_model := "m"; v_provider_model := "m"; v_canonical_model := "m"; v_route_id := "r";
  v_evidence_family := "f"; v_alias_confidence := Curated; v_adapter_version := "1";
  v_api_endpoint := "e"; v_evidence_endpoint := "e"; v_freshness_class := FreshPerSession;
  v_streaming_allowed := true; v_route_execution_status := "supported"; v_chat_executable := true;
  v_known_unsupported_modes := []; v_channel_binding_kind := KindNone;
  v_model_binding_result := ModelVerified; v_request_channel_bound := false;
  v_request_confidentiality_result := ConfNotBound;
  v_response_confidentiality_result := ConfNotBound; v_response_channel_bound := false;
  v_response_integrity_result := RespReceiptBound; v_policy_digest := sample_digest;
  v_provider_registry_digest := sample_digest; v_registry_version := "1"; v_registry_source := "s";
  v_registry_sync_completed_at := sample_timestamp; v_registry_signature := sample_signature;
  v_reference_values_digest := sample_digest; v_reference_values_version := "1";
  v_reference_values_source := "s"; v_reference_values_signature := sample_signature;
  v_raw_evidence_digest := sample_digest; v_evidence_digest := sample_digest;
  v_verified_at := "2026-03-01T09:50:00Z"; v_expires_at := sample_timestamp;
  v_expires_at_epoch_ms := 1772359200000;
  v_validity := {| policy_ttl_until := sample_timestamp;
                   collateral_valid_until := "2026-03-01T10:00:00.250Z";
                   certificate_valid_until := sample_timestamp; quote_valid_until := sample_timestamp;
                   tcb_valid_until := "2027-01-01T00:00:00Z";
                   reference_values_valid_until := "2026-04-01T00:00:00Z";
                   computed_expires_at := sample_timestamp |};
  v_checks := {[ "cpu_tee" := Verified; "model_binding" := Verified; "response_receipt" := Verified;
                 "gpu_tee" := NotApplicable ]};
  v_check_outcomes := (λ state, {| co_state := state; co_required := negb (state =?= NotApplicable);
                                    co_detail := "detail"; co_evidence_refs := ["evidence_digest"] |})
    <$> ({[ "cpu_tee" := Verified; "model_binding" := Verified; "response_receipt" := Verified;
            "gpu_tee" := NotApplicable ]} : gmap string CheckResult);
  v_route_attribution := Some {| parties := sample_parties |};
  v_artifacts := {| va_source_url := None; va_tee_measurement := None; va_report_data := None;
                    va_signing_public_key := None; va_e2ee_capability := None;
                    va_model_manifest := None; va_model_artifacts := [] |};
  v_errors := [];
|}.

Example sample_verdict_ok : validate_summary_consistency sample_verdict = Ok tt.
Proof. vm_compute. reflexivity. Qed.

Lemma enforced_verdict_fail_closed_witness :
  v_request_allowed sample_verdict = true
  ∧ (∀ name state, v_checks sample_verdict !! name = Some state → state ≠ Failed).
Proof.
  split; [reflexivity|].
  exact (proj1 (proj1 (enforced_verdict_fail_closed sample_verdict sample_verdict_ok eq_refl) eq_refl)).
Defined.

Lemma validated_bindings_backed_witness : v_checks sample_verdict !! "response_receipt" = Some Verified.
Proof. apply (validated_bindings_backed sample_verdict sample_verdict_ok). reflexivity. Defined.

Lemma verified_status_sound_witness : v_errors sample_verdict = [] ∧ v_request_allowed sample_verdict = true.
Proof.
  destruct (verified_status_sound sample_verdict sample_verdict_ok eq_refl) as (_ & _ & H1 & H2 & _).
  exact (conj H1 H2).
Defined.

Lemma validated_expiry_is_minimum_witness :
  parse_utc_timestamp_millis "2026-03-01T10:00:00Z" = Ok 1772359200000%Z.
Proof. exact (proj1 (validated_expiry_is_minimum sample_verdict sample_verdict_ok)). Defined.

Lemma validated_attribution_witness : map pa_role sample_parties ≡ₚ expected_roles.
Proof.
  exact (proj1 (validated_attribution sample_verdict {| parties := sample_parties |}
                  sample_verdict_ok eq_refl)).
Defined.
