(* ===== verification/Evidence.v ===== *)
(** * Evidence and workload manifests

    evidence.rs: the evidence documents of the provider families and the parser
    of dstack compose files into digest-pinned workload images. The YAML reader
    is a parameter; its value type is the library's. *)

From Stdlib Require Import Ascii String ZArith Lia.
From stdpp Require Import base gmap strings list sorting numbers.
From S2P Require Import Prelude RustStr Errors Collections Timestamps Canonical JsonInjective Policy Verdict.

Open Scope string_scope.

(** ** Workload images *)

Record WorkloadImage := { wi_service : string; wi_reference : string; wi_digest : string }.
#[export] Instance WorkloadImage_eq_dec : EqDecision WorkloadImage.
Proof. solve_decision. Defined.

(** The derived [Ord]: field by field. *)
Definition image_cmp (a b : WorkloadImage) : comparison :=
  cmp_then (str_cmp (wi_service a) (wi_service b))
    (cmp_then (str_cmp (wi_reference a) (wi_reference b)) (str_cmp (wi_digest a) (wi_digest b))).

Definition is_digest_pinned (image : WorkloadImage) : bool :=
  match strip_prefix "sha256:" (wi_digest image) with
  | None => false
  | Some hex =>
      negb (is_empty (trim (wi_service image)))
      && (String.length hex =? 64)%nat
      && all_bytes is_lower_hexdigit hex
      && ends_with (wi_reference image) ("@" +:+ wi_digest image)
  end.

Definition parse_digest_pinned_image (service reference : string) : Result WorkloadImage :=
  let reference := trim reference in
  '(repository, digest_hex) ←
    ok_or (rsplit_once "@sha256:" reference)
      (InvalidEvidence "dstack compose service {service} image is not pinned by sha256 digest");
  bail (InvalidEvidence "dstack compose service {service} has an invalid sha256 image digest")
    when is_empty (trim repository) || negb (String.length digest_hex =? 64)%nat
         || negb (all_bytes is_lower_hexdigit digest_hex);
  let digest := "sha256:" +:+ digest_hex in
  Ok {| wi_service := service; wi_reference := repository +:+ "@" +:+ digest; wi_digest := digest |}.

(** [serde_yaml::Value]. *)
#[warnings="-register-all"]
Inductive Yaml : Type :=
| YNull
| YBool (b : bool)
| YNumber (text : string)
| YString (s : string)
| YSequence (items : list Yaml)
| YMapping (entries : list (Yaml * Yaml))
| YTagged (tag : string) (value : Yaml).

(** [as_str] and [as_mapping] look through tags. *)
Fixpoint untag (value : Yaml) : Yaml :=
  match value with YTagged _ value => untag value | other => other end.
Definition as_str (value : Yaml) : option string :=
  match untag value with YString s => Some s | _ => None end.
Definition as_mapping (value : Yaml) : option (list (Yaml * Yaml)) :=
  match untag value with YMapping m => Some m | _ => None end.
(** [Mapping::get] with a string key. *)
Definition mapping_get (entries : list (Yaml * Yaml)) (key : string) : option Yaml :=
  option_map snd (List.find (λ '(k, _), match k with YString s => s =?= key | _ => false end) entries).

Definition service_image (entry : Yaml * Yaml) : Result (string * string) :=
  let '(service, config) := entry in
  service ← ok_or (match as_str service with
                   | Some name => if is_empty (trim name) then None else Some name
                   | None => None
                   end)
              (InvalidEvidence "dstack compose has an invalid service name");
  config ← ok_or (as_mapping config)
             (InvalidEvidence "dstack compose service {service} is not a mapping");
  image ← ok_or (match mapping_get config "image" with Some v => as_str v | None => None end)
            (InvalidEvidence "dstack compose service {service} has no digest-pinned image");
  Ok (service, image).

(** [Vec::extend] over the results of a loop. *)
Fixpoint concat_results {A} (l : list (Result (list A))) : Result (list A) :=
  match l with
  | [] => Ok []
  | r :: l => xs ← r; ys ← concat_results l; Ok ((xs ++ ys)%list)
  end.

Fixpoint collect_dstack_image_fields (value : Yaml) (path : string) : Result (list (string * string)) :=
  match value with
  | YMapping mapping =>
      concat_results (map (λ '(key, value),
        let key := default "<non-string>" (as_str key) in
        if key =?= "image" then
          image ← ok_or (as_str value)
                    (InvalidEvidence "dstack compose image at {path} is not a string");
          Ok [(path, image)]
        else collect_dstack_image_fields value (path +:+ "." +:+ key)) mapping)
  | YSequence sequence =>
      concat_results ((fix go (index : Z) (items : list Yaml) :=
        match items with
        | [] => []
        | value :: items =>
            collect_dstack_image_fields value (path +:+ "[" +:+ dec_string index +:+ "]")
            :: go (index + 1)%Z items
        end) 0%Z sequence)
  | _ => Ok []
  end.

(** [windows(2).any(|pair| pair[0].service == pair[1].service)]. *)
Fixpoint repeated_service (images : list WorkloadImage) : bool :=
  match images with
  | a :: ((b :: _) as rest) => (wi_service a =?= wi_service b) || repeated_service rest
  | _ => false
  end.

Definition raw_dstack_images (document : Yaml) : Result (list (string * string)) :=
  match document with
  | YMapping root =>
      match mapping_get root "services" with
      | Some services =>
          services ← ok_or (as_mapping services)
                       (InvalidEvidence "dstack app_compose services is not a mapping");
          collect_results service_image services
      | None => collect_dstack_image_fields document "root"
      end
  | _ => collect_dstack_image_fields document "root"
  end.

(** The YAML reader [serde_yaml::from_str]. *)
Class YamlReader := { yaml_from_str : string → option Yaml }.

Definition parse_dstack_workload_images `{!YamlReader} (app_compose : string)
    : Result (list WorkloadImage) :=
  document ← ok_or (yaml_from_str app_compose)
               (InvalidEvidence "dstack app_compose is not valid YAML: {error}");
  raw_images ← raw_dstack_images document;
  images ← collect_results (λ '(service, reference), parse_digest_pinned_image service reference)
             raw_images;
  let images := sort_by image_cmp images in
  bail (InvalidEvidence "dstack compose repeats a workload image service")
    when repeated_service images;
  Ok images.

(** ** Properties *)

#[export] Instance image_cmp_total : TotalCmp image_cmp.
Proof.
  pose (key i := [wi_service i; wi_reference i; wi_digest i]).
  assert (∀ a b, image_cmp a b = list_cmp str_cmp (key a) (key b)) as E.
  { intros a b. unfold image_cmp. cbn.
    by destruct (str_cmp (wi_digest a) (wi_digest b)). }
  split; intros *; rewrite !E.
  - rewrite (cmp_eq (list_cmp str_cmp)). destruct x, y. cbn. split; [by intros [=->->->]|by intros [=->->->]].
  - apply (cmp_opp (list_cmp str_cmp)).
  - apply (cmp_lt_trans (list_cmp str_cmp)).
Qed.

Lemma substring_app n a b :
  String.substring (String.length a + n) (String.length b) (a +:+ b) = String.substring n (String.length b) b.
Proof.
  unfold String.append. induction a as [|c a IH]; [done|]. fold String.append in *. exact IH.
Qed.

Lemma substring_full s : String.substring 0 (String.length s) s = s.
Proof. induction s as [|c s IH]; [done|]. cbn. by rewrite IH. Qed.

Lemma ends_with_app a p : ends_with (a +:+ p) p = true.
Proof.
  unfold ends_with, slice. rewrite append_length.
  assert (String.length a + String.length p - String.length p = String.length a + 0)%nat as -> by lia.
  replace (String.length a + String.length p - (String.length a + 0))%nat with (String.length p) by lia.
  rewrite substring_app, substring_full, bool_decide_true, andb_true_r by done.
  apply Nat.leb_le. lia.
Qed.

Lemma between_false lo hi c : (code c < lo ∨ hi < code c)%N → between lo hi c = false.
Proof. unfold between. intros. destruct (N.leb_spec lo (code c)), (N.leb_spec (code c) hi); done || lia. Qed.

Lemma trim_nonempty c s : between 33 127 c = true → is_empty (trim (String c s)) = false.
Proof.
  intros Hc. assert (ws1 c = false ∧ (∀ d, ws2 c d = false) ∧ (∀ d e, ws3 c d e = false)) as (H1 & H2 & H3).
  { unfold between in Hc. bools. unfold ws1, ws2, ws3.
    repeat split; intros; by rewrite !(between_false _ _ c) by lia. }
  assert (trim_start (String c s) = String c s) as E.
  { cbn. rewrite H1. destruct s as [|d s]; [done|]. rewrite H2. destruct s as [|e s]; [done|]. by rewrite H3. }
  unfold trim. rewrite E. cbn [trim_end]. by rewrite E.
Qed.

Lemma concat_results_Ok {A} (l : list (Result (list A))) xs :
  concat_results l = Ok xs → ∀ x, x ∈ xs → ∃ ys, Ok ys ∈ l ∧ x ∈ ys.
Proof.
  revert xs. induction l as [|r l IH]; intros xs H x Hx; cbn in H; inv_ok; [by apply elem_of_nil in Hx|].
  apply elem_of_app in Hx as [Hx|Hx]; [set_solver|].
  match goal with H : concat_results l = _ |- _ => destruct (IH _ H x Hx) as (ys & ? & ?) end. set_solver.
Qed.

Definition visible (s : string) : Prop := ∃ c r, s = String c r ∧ between 33 127 c = true.

Lemma visible_app s t : visible s → visible (s +:+ t).
Proof. intros (c & r & -> & Hc). exists c, (r +:+ t). done. Qed.

(** Paths of the recursive walk keep their visible first byte. *)
Lemma collect_paths_visible value path images :
  visible path → collect_dstack_image_fields value path = Ok images →
  ∀ p, p ∈ images → visible p.1.
Proof.
  revert value path images. fix IH 1. intros value path images Hpath H p Hp.
  destruct value as [|b|t|s|items|entries|tag v]; cbn in H; inv_ok; try by apply elem_of_nil in Hp.
  - apply (concat_results_Ok _ _ H) in Hp as (ys & Hys & Hp). clear H.
    revert Hys. generalize 0%Z. induction items as [|v items IHs]; intros i Hys; [by apply elem_of_nil in Hys|].
    apply elem_of_cons in Hys as [Hys|Hys]; [|exact (IHs _ Hys)].
    exact (IH v _ ys (visible_app _ _ Hpath) (eq_sym Hys) p Hp).
  - apply (concat_results_Ok _ _ H) in Hp as (ys & Hys & Hp). clear H.
    revert Hys. induction entries as [|[k v] entries IHs]; intros Hys; [by apply elem_of_nil in Hys|].
    apply elem_of_cons in Hys as [Hys|Hys]; [|exact (IHs Hys)].
    symmetry in Hys. destruct (_ =?= "image") in Hys.
    + inv_ok. apply list_elem_of_singleton in Hp as ->. done.
    + exact (IH v _ ys (visible_app _ _ Hpath) Hys p Hp).
Qed.

Lemma raw_images_visible document images :
  raw_dstack_images document = Ok images → ∀ p, p ∈ images → is_empty (trim p.1) = false.
Proof.
  assert (∀ s, visible s → is_empty (trim s) = false) as Hvis
    by (intros s (c & r & -> & Hc); by apply trim_nonempty).
  assert (∀ v ims p, collect_dstack_image_fields v "root" = Ok ims → p ∈ ims → is_empty (trim p.1) = false) as Hwalk.
  { intros v ims p Hc Hp. apply Hvis. apply (collect_paths_visible v "root" ims); [|done..].
    by eexists _, _. }
  unfold raw_dstack_images. intros H p Hp.
  destruct document as [| | | | |root|]; try by eapply Hwalk.
  destruct (mapping_get root "services") as [services|]; [|by eapply Hwalk].
  inv_ok. apply collect_results_Ok in H.
  destruct (Forall2_elem_r _ _ _ _ H Hp) as ([k v] & _ & E). cbn in E. inv_ok. cbn.
  destruct (as_str k) as [name|]; [|done]. destruct (is_empty (trim name)) eqn:En; [done|]. naive_solver.
Qed.

Lemma parse_image_pinned service reference image :
  is_empty (trim service) = false → parse_digest_pinned_image service reference = Ok image →
  is_digest_pinned image = true ∧ wi_service image = service.
Proof.
  unfold parse_digest_pinned_image, is_digest_pinned. intros Hs H. inv_ok.
  match goal with p : string * string |- _ => destruct p as [repo hex] end. inv_ok. bools. cbn [wi_digest wi_service wi_reference].
  rewrite strip_prefix_app, Hs, ends_with_app. split; [|done]. bools. tauto.
Qed.

Lemma services_strict images :
  StronglySorted (cmp_le image_cmp) images → repeated_service images = false →
  StronglySorted (cmp_lt str_cmp) (map wi_service images).
Proof.
  induction 1 as [|a images Hs IH Ha]; intros Hr; [constructor|].
  destruct images as [|b images]; [by repeat constructor|].
  cbn [repeated_service] in Hr. bools. destruct Hr as [Hne Hr]. specialize (IH Hr).
  assert (cmp_lt str_cmp (wi_service a) (wi_service b)) as Hab.
  { inversion Ha as [|?? Hab _]; subst. unfold cmp_le, image_cmp in Hab. unfold cmp_lt.
    destruct (str_cmp (wi_service a) (wi_service b)) eqn:E; [|done|done].
    by apply (cmp_eq str_cmp) in E. }
  constructor; [done|]. cbn [map] in *. constructor; [done|].
  inversion IH as [|?? _ Hb]; subst. eapply Forall_impl; [|exact Hb].
  intros x Hx. by eapply (cmp_lt_trans str_cmp).
Qed.

(** What a caller of the parser may rely on: a manifest ready to be a route's
    reference, with one pinned image per service. *)
Definition canonical_manifest (images : list WorkloadImage) : Prop :=
  Forall (λ image, is_digest_pinned image = true) images
  ∧ NoDup (map wi_service images)
  ∧ dedup (sort_by image_cmp images) = images.

(** The workload images parsed from a dstack compose document form a
    canonical manifest: every image is pinned by a SHA-256 digest its reference
    ends with, no service occurs twice, and the list is sorted and free of
    duplicates; its services are exactly those the document declares. *)
Theorem parsed_workload_images_canonical {reader : YamlReader} app_compose images :
  parse_dstack_workload_images app_compose = Ok images →
  canonical_manifest images
  ∧ ∃ document raw, yaml_from_str app_compose = Some document
      ∧ raw_dstack_images document = Ok raw ∧ map wi_service images ≡ₚ map fst raw.
Proof.
  unfold parse_dstack_workload_images. intros H. inv_ok.
  match goal with H : raw_dstack_images _ = Ok ?r |- _ => rename H into Hraw; rename r into raw end.
  match goal with H : collect_results _ raw = Ok ?l |- _ => rename H into Hc; rename l into ims end.
  apply collect_results_Ok in Hc.
  assert (Forall2 (λ (p : string * string) image, is_digest_pinned image = true ∧ wi_service image = p.1) raw ims)
    as Hp.
  { pose proof (raw_images_visible _ _ Hraw) as Hv. clear -Hc Hv.
    induction Hc as [|[s r] im raw ims Hpi _ IH]; constructor.
    - apply (parse_image_pinned s r); [|done]. apply (Hv (s, r)). constructor.
    - apply IH. set_solver. }
  pose proof (services_strict _ (sort_by_sorted image_cmp ims) ltac:(eassumption)) as Hst.
  apply strict_sorted_NoDup in Hst; [|apply _].
  split; [split; [|split]|].
  - rewrite (sort_by_perm image_cmp). clear -Hp. induction Hp as [|? ? ? ? []]; by constructor.
  - done.
  - apply (sort_dedup_id image_cmp), (sorted_NoDup_strict image_cmp), (NoDup_fmap_1 wi_service _ Hst).
    apply (sort_by_sorted image_cmp).
  - eexists _, raw. split; [done|]. split; [done|]. rewrite (sort_by_perm image_cmp).
    clear -Hp. induction Hp as [|? ? ? ? [_ E] _ IH]; [done|]. cbn. by rewrite E, IH.
Qed.

(** A reader that knows one document: two services, listed out of order. *)
Definition sample_compose : Yaml :=
  YMapping [(YString "services",
    YMapping [(YString "web", YMapping [(YString "image", YString ("repo/web@sha256:" +:+ zeros 64))]);
              (YString "db", YMapping [(YString "image", YString (" repo/db:1@sha256:" +:+ zeros 64))])])].
#[local] Instance sample_reader : YamlReader := {| yaml_from_str s := if s =?= "doc" then Some sample_compose else None |}.

Definition sample_images : list WorkloadImage :=
  let digest := "sha256:" +:+ zeros 64 in
  [{| wi_service := "db"; wi_reference := "repo/db:1@" +:+ digest; wi_digest := digest |};
   {| wi_service := "web"; wi_reference := "repo/web@" +:+ digest; wi_digest := digest |}].

Lemma parsed_workload_images_canonical_witness : canonical_manifest sample_images.
Proof.
  assert (parse_dstack_workload_images "doc" = Ok sample_images) as E by (vm_compute; reflexivity).
  exact (proj1 (parsed_workload_images_canonical "doc" sample_images E)).
Defined.
