(* ===== verification/Bindings.v ===== *)
(** * Report-data bindings

    What the hardware quote's report data says about keys and workloads:
    e2ee.rs (nonce and end-to-end key), tls.rs (certificate key), tcb.rs
    (dstack compose hash). X.509 decoding is a parameter. *)

From Stdlib Require Import Ascii String ZArith Lia.
From stdpp Require Import base strings list numbers.
From S2P Require Import Prelude RustStr Errors Collections Timestamps Canonical JsonInjective Policy Verdict.

Open Scope string_scope.

Definition is_canonical_nonce_hex (value : string) : bool :=
  (String.length value =? 64)%nat && all_bytes is_ascii_hexdigit value.

(** ** End-to-end keys (e2ee.rs) *)

Inductive ChutesE2eeReportDataBinding :=
| E2eeVerified | E2eeInvalidNonce | E2eeMissingPublicKey | E2eeReportDataMismatch.
#[export] Instance ChutesE2eeReportDataBinding_eq_dec : EqDecision ChutesE2eeReportDataBinding.
Proof. solve_decision. Defined.

Inductive ChutesLiveReportDataBinding :=
| LiveVerified | LiveInvalidNonce | LiveMissingPublicKey | LiveInvalidCertificateDigest
| LiveReportDataMismatch.
#[export] Instance ChutesLiveReportDataBinding_eq_dec : EqDecision ChutesLiveReportDataBinding.
Proof. solve_decision. Defined.

Section E2ee.
Context {prim : Primitives}.

(** [sha256_digest(bytes).trim_start_matches("sha256:")]. *)
Definition sha256_hex (bytes : string) : string := trim_start_matches "sha256:" (sha256_digest bytes).

Definition chutes_expected_report_data_prefix (nonce_hex e2e_public_key : string) : option string :=
  if negb (is_canonical_nonce_hex nonce_hex) then None
  else if is_empty e2e_public_key then None
  else Some (sha256_hex (nonce_hex +:+ e2e_public_key)).

Definition chutes_provider_nonce (request_nonce : string) : string :=
  if is_canonical_nonce_hex request_nonce then to_ascii_lowercase request_nonce
  else sha256_hex ("confidential-inference.chutes.nonce.v1:" +:+ request_nonce).

Definition verify_chutes_e2ee_report_data_binding (report_data_hex nonce_hex e2e_public_key : string)
    : ChutesE2eeReportDataBinding :=
  if negb (is_canonical_nonce_hex nonce_hex) then E2eeInvalidNonce
  else if is_empty e2e_public_key then E2eeMissingPublicKey
  else match chutes_expected_report_data_prefix nonce_hex e2e_public_key with
  | None => E2eeReportDataMismatch
  | Some expected =>
      match get_to report_data_hex (String.length expected) with
      | Some prefix =>
          if eq_ignore_ascii_case prefix expected then E2eeVerified else E2eeReportDataMismatch
      | None => E2eeReportDataMismatch
      end
  end.

Definition verify_chutes_live_report_data_binding
    (report_data_hex nonce_hex e2e_public_key_base64 certificate_spki_sha256_hex : string)
    : ChutesLiveReportDataBinding :=
  if negb (is_canonical_nonce_hex nonce_hex) then LiveInvalidNonce
  else if is_empty e2e_public_key_base64 then LiveMissingPublicKey
  else if negb (String.length certificate_spki_sha256_hex =? 64)%nat
          || negb (all_bytes is_ascii_hexdigit certificate_spki_sha256_hex)
  then LiveInvalidCertificateDigest
  else match chutes_expected_report_data_prefix nonce_hex e2e_public_key_base64 with
  | None => LiveReportDataMismatch
  | Some expected_prefix =>
      let expected := expected_prefix +:+ to_ascii_lowercase certificate_spki_sha256_hex in
      if eq_ignore_ascii_case report_data_hex expected then LiveVerified else LiveReportDataMismatch
  end.

(** ** TLS certificate keys (tls.rs) *)

Record TlsSpkiReportDataBinding := {
  tb_spki_sha256 : string;
  tb_report_data_prefix : string;
  tb_matches : bool;
}.

Definition normalize_sha256_hex (value : string) : option string :=
  if (String.length value =? 64)%nat && all_bytes is_ascii_hexdigit value
  then Some (to_ascii_lowercase value) else None.

Definition report_data_sha256_prefix (value : string) : option string :=
  if (String.length value <? 64)%nat then None
  else match get_to value 64 with
       | None => None
       | Some prefix =>
           if all_bytes is_ascii_hexdigit prefix then Some (to_ascii_lowercase prefix) else None
       end.

Definition verify_tls_spki_report_data_binding (report_data_hex spki_sha256_hex : string)
    : option TlsSpkiReportDataBinding :=
  spki_sha256 ← normalize_sha256_hex spki_sha256_hex;
  report_data_prefix ← report_data_sha256_prefix report_data_hex;
  Some {| tb_spki_sha256 := spki_sha256; tb_report_data_prefix := report_data_prefix;
          tb_matches := eq_ignore_ascii_case report_data_prefix spki_sha256 |}.

End E2ee.

(** A decoded X.509 certificate: the DER of its public key, if it re-encodes,
    and its validity in seconds since the epoch. *)
Record Certificate := {
  cert_spki_der : option string;
  cert_not_before_secs : Z;
  cert_not_after_secs : Z;
}.

(** [x509_cert::Certificate::from_der]. *)
Class CertificateReader := { certificate_from_der : string → option Certificate }.

Section Tls.
Context {prim : Primitives} {x509 : CertificateReader}.

Definition certificate_spki_sha256_hex (cert_der : string) : Result string :=
  cert ← ok_or (certificate_from_der cert_der) (InvalidCertificate "{err}");
  spki_der ← ok_or (cert_spki_der cert) (InvalidCertificate "{err}");
  Ok (sha256_hex spki_der).

Definition certificate_validity_epoch_millis (cert_der : string) : Result (Z * Z) :=
  cert ← ok_or (certificate_from_der cert_der) (InvalidCertificate "{err}");
  Ok (saturating_mul (cert_not_before_secs cert) 1000, saturating_mul (cert_not_after_secs cert) 1000).

Definition verify_certificate_spki_report_data_binding (cert_der report_data_hex : string)
    : Result (option TlsSpkiReportDataBinding) :=
  spki_sha256 ← certificate_spki_sha256_hex cert_der;
  Ok (verify_tls_spki_report_data_binding report_data_hex spki_sha256).

End Tls.

(** ** dstack measurements (tcb.rs) *)

Record TdxQuoteMeasurements := { tq_mr_td : string; tq_rtmr0 : string }.
Record DstackTcbInfo := {
  ti_mrtd : string; ti_rtmr0 : string; ti_app_compose : string; ti_compose_hash : string;
}.

Inductive TcbComposeHashBinding :=
| TcbVerified | TcbMissingBinding | TcbMeasurementMismatch | TcbComposeHashMismatch.
#[export] Instance TcbComposeHashBinding_eq_dec : EqDecision TcbComposeHashBinding.
Proof. solve_decision. Defined.

Definition verify_dstack_tcb_compose_hash {prim : Primitives} (tcb_info : option DstackTcbInfo)
    (measurements : option TdxQuoteMeasurements) : TcbComposeHashBinding :=
  match tcb_info, measurements with
  | Some tcb_info, Some measurements =>
      if is_empty (ti_mrtd tcb_info) || is_empty (ti_rtmr0 tcb_info) then TcbMissingBinding
      else if negb (ti_mrtd tcb_info =?= tq_mr_td measurements)
              || negb (ti_rtmr0 tcb_info =?= tq_rtmr0 measurements) then TcbMeasurementMismatch
      else if sha256_hex (ti_app_compose tcb_info) =?= ti_compose_hash tcb_info
      then TcbVerified else TcbComposeHashMismatch
  | _, _ => TcbMissingBinding
  end.

(** ** Properties *)

Section Facts.
Context {prim : Primitives} {laws : Sha256Laws}.

Lemma trim_start_matches_fuel_nil fuel p : trim_start_matches_fuel fuel p "" = "".
Proof. destruct fuel, p; done. Qed.

Lemma sha256_hex_eq x : sha256_hex x = lower_hex (sha256 x).
Proof.
  unfold sha256_hex, trim_start_matches, sha256_digest. rewrite append_length.
  change (String.length "sha256:" + String.length (lower_hex (sha256 x)))%nat
    with (S (6 + String.length (lower_hex (sha256 x)))).
  destruct (lower_hex_spec (sha256 x)) as (_ & Ha & _).
  cbn [trim_start_matches_fuel]. rewrite strip_prefix_app.
  destruct (lower_hex (sha256 x)) as [|c s]; [apply trim_start_matches_fuel_nil|].
  rewrite all_bytes_cons in Ha. cbn [Nat.add trim_start_matches_fuel strip_prefix].
  case_bool_decide as E; [|done]. subst. done.
Qed.

Lemma sha256_hex_length x : String.length (sha256_hex x) = 64%nat.
Proof. rewrite sha256_hex_eq. destruct (lower_hex_spec (sha256 x)) as (-> & _). by rewrite sha256_length. Qed.

Lemma lowercase_lower_hex s : all_bytes is_lower_hexdigit s = true → to_ascii_lowercase s = s.
Proof.
  induction s as [|c s IH]; [done|]. rewrite all_bytes_cons. intros [Hc Hs]%andb_true_iff.
  cbn. rewrite (IH Hs). f_equal. unfold to_ascii_lowercase_byte.
  assert (is_ascii_uppercase c = false) as ->; [|done].
  unfold is_lower_hexdigit, is_ascii_digit, is_ascii_uppercase, between in *. bools.
  destruct (N.leb_spec 65 (code c)), (N.leb_spec (code c) 90); cbn; bools; intuition (done || lia).
Qed.

Lemma sha256_hex_lowercase x : to_ascii_lowercase (sha256_hex x) = sha256_hex x.
Proof. rewrite sha256_hex_eq. apply lowercase_lower_hex, lower_hex_spec. Qed.

Lemma sha256_hex_inj x y : sha256_hex x = sha256_hex y → x = y ∨ sha256_collision x y.
Proof.
  rewrite !sha256_hex_eq. intros E%lower_hex_inj.
  destruct (decide (x = y)) as [->|]; [by left|]. by right.
Qed.

Lemma e2ee_binding_verified report nonce key :
  verify_chutes_e2ee_report_data_binding report nonce key = E2eeVerified ↔
    is_canonical_nonce_hex nonce = true ∧ is_empty key = false
    ∧ ∃ prefix, get_to report 64 = Some prefix
        ∧ to_ascii_lowercase prefix = sha256_hex (nonce +:+ key).
Proof.
  unfold verify_chutes_e2ee_report_data_binding, chutes_expected_report_data_prefix.
  destruct (is_canonical_nonce_hex nonce); cbn [negb]; [|naive_solver].
  destruct (is_empty key); [naive_solver|]. rewrite sha256_hex_length.
  destruct (get_to report 64) as [prefix|]; [|naive_solver].
  unfold eq_ignore_ascii_case. rewrite sha256_hex_lowercase. case_bool_decide; naive_solver.
Qed.

Lemma nonce_length n : is_canonical_nonce_hex n = true → String.length n = 64%nat.
Proof. unfold is_canonical_nonce_hex. intros. bools. tauto. Qed.

Lemma bound_pair_inj n k n' k' :
  is_canonical_nonce_hex n = true → is_canonical_nonce_hex n' = true →
  sha256_hex (n +:+ k) = sha256_hex (n' +:+ k') →
  (n = n' ∧ k = k') ∨ sha256_collision (n +:+ k) (n' +:+ k').
Proof.
  intros Hn%nonce_length Hn'%nonce_length [E|]%sha256_hex_inj; [left|by right].
  apply append_inj_length in E; [done|congruence].
Qed.

(** One quote's report data vouches for at most one nonce and
    end-to-end key: two pairs verified against it are equal, or their
    concatenations are a SHA-256 collision. *)
Theorem e2ee_report_data_binds_key report n k n' k' :
  verify_chutes_e2ee_report_data_binding report n k = E2eeVerified →
  verify_chutes_e2ee_report_data_binding report n' k' = E2eeVerified →
  (n = n' ∧ k = k') ∨ sha256_collision (n +:+ k) (n' +:+ k').
Proof.
  rewrite !e2ee_binding_verified. intros (Hn & _ & p & Hp & E) (Hn' & _ & p' & Hp' & E').
  apply bound_pair_inj; [done..|]. congruence.
Qed.

Lemma lowercase_idemp s : to_ascii_lowercase (to_ascii_lowercase s) = to_ascii_lowercase s.
Proof.
  induction s as [|c s IH]; [done|]. cbn. rewrite IH. f_equal. unfold to_ascii_lowercase_byte at 2 3.
  destruct (is_ascii_uppercase c) eqn:E; unfold to_ascii_lowercase_byte; [|by rewrite E].
  unfold is_ascii_uppercase, between in *. bools. unfold code in *. rewrite N_ascii_embedding by lia.
  destruct (N.leb_spec 65 (N_of_ascii c + 32)), (N.leb_spec (N_of_ascii c + 32) 90); done || lia.
Qed.

Lemma lowercase_length s : String.length (to_ascii_lowercase s) = String.length s.
Proof. induction s as [|c s IH]; [done|]. cbn. by rewrite IH. Qed.

Lemma lowercase_append a b : to_ascii_lowercase (a +:+ b) = to_ascii_lowercase a +:+ to_ascii_lowercase b.
Proof. induction a as [|c a IH]; [done|]. rewrite append_cons. cbn. rewrite append_cons. by rewrite IH. Qed.

(** The live report data of a Chutes instance binds the fresh nonce, the
    end-to-end key and the certificate together: two triples verified against
    the same report data agree, the certificate digest up to letter case, or
    exhibit a SHA-256 collision. *)
Theorem live_report_data_binds_all report n k c n' k' c' :
  verify_chutes_live_report_data_binding report n k c = LiveVerified →
  verify_chutes_live_report_data_binding report n' k' c' = LiveVerified →
  to_ascii_lowercase c = to_ascii_lowercase c'
  ∧ ((n = n' ∧ k = k') ∨ sha256_collision (n +:+ k) (n' +:+ k')).
Proof.
  assert (∀ n k c, verify_chutes_live_report_data_binding report n k c = LiveVerified →
    is_canonical_nonce_hex n = true ∧
    to_ascii_lowercase report = sha256_hex (n +:+ k) +:+ to_ascii_lowercase c) as Hv.
  { clear. intros n k c. unfold verify_chutes_live_report_data_binding, chutes_expected_report_data_prefix.
    destruct (is_canonical_nonce_hex n); [|done]. cbn [negb]. destruct (is_empty k); [done|].
    destruct (_ || _); [done|]. unfold eq_ignore_ascii_case.
    rewrite lowercase_append, lowercase_idemp, sha256_hex_lowercase. case_bool_decide; done. }
  intros [Hn E]%Hv [Hn' E']%Hv. rewrite E in E'.
  apply append_inj_length in E' as [E1 E2]; [|by rewrite !sha256_hex_length].
  split; [done|]. by apply bound_pair_inj.
Qed.

Lemma hexdigit_lowercase s :
  all_bytes is_ascii_hexdigit s = true → all_bytes is_ascii_hexdigit (to_ascii_lowercase s) = true.
Proof.
  induction s as [|c s IH]; [done|]. cbn [to_ascii_lowercase]. rewrite !all_bytes_cons.
  intros [Hc Hs]%andb_true_iff. rewrite (IH Hs), andb_true_r. unfold to_ascii_lowercase_byte.
  destruct (is_ascii_uppercase c) eqn:E; [|done].
  unfold is_ascii_hexdigit, is_ascii_uppercase, is_ascii_digit, between in *. bools.
  unfold code in *. rewrite N_ascii_embedding by lia. lia.
Qed.

Lemma lower_hexdigit_hexdigit s :
  all_bytes is_lower_hexdigit s = true → all_bytes is_ascii_hexdigit s = true.
Proof.
  induction s as [|c s IH]; [done|]. rewrite !all_bytes_cons. intros [Hc Hs]%andb_true_iff.
  rewrite (IH Hs), andb_true_r. unfold is_ascii_hexdigit, is_lower_hexdigit in *. by rewrite Hc.
Qed.

Lemma sha256_hex_nonce x : is_canonical_nonce_hex (sha256_hex x) = true.
Proof.
  unfold is_canonical_nonce_hex. rewrite sha256_hex_length, sha256_hex_eq.
  apply lower_hexdigit_hexdigit, lower_hex_spec.
Qed.

(** The nonce sent to a Chutes provider is always a canonical 64-digit
    nonce, lower-case, and deriving it twice changes nothing. *)
Theorem provider_nonce_canonical request_nonce :
  is_canonical_nonce_hex (chutes_provider_nonce request_nonce) = true
  ∧ to_ascii_lowercase (chutes_provider_nonce request_nonce) = chutes_provider_nonce request_nonce
  ∧ chutes_provider_nonce (chutes_provider_nonce request_nonce) = chutes_provider_nonce request_nonce.
Proof.
  assert (is_canonical_nonce_hex (chutes_provider_nonce request_nonce) = true
    ∧ to_ascii_lowercase (chutes_provider_nonce request_nonce) = chutes_provider_nonce request_nonce) as [H1 H2].
  { unfold chutes_provider_nonce. destruct (is_canonical_nonce_hex request_nonce) eqn:E.
    - split; [|apply lowercase_idemp]. unfold is_canonical_nonce_hex in *. bools.
      rewrite lowercase_length. split; [tauto|]. apply hexdigit_lowercase. tauto.
    - split; [apply sha256_hex_nonce | apply sha256_hex_lowercase]. }
  split; [done|]. split; [done|]. unfold chutes_provider_nonce at 1. by rewrite H1.
Qed.

(** A dstack compose binding that verifies ties the TCB info to the
    quote's measurements and, for a given compose hash, to a single compose
    document up to SHA-256 collisions. *)
Theorem tcb_binding_pins_compose info info' quote quote' :
  verify_dstack_tcb_compose_hash (Some info) (Some quote) = TcbVerified →
  verify_dstack_tcb_compose_hash (Some info') (Some quote') = TcbVerified →
  ti_compose_hash info = ti_compose_hash info' →
  ti_mrtd info = tq_mr_td quote ∧ ti_rtmr0 info = tq_rtmr0 quote ∧ ti_mrtd info ≠ ""
  ∧ (ti_app_compose info = ti_app_compose info'
     ∨ sha256_collision (ti_app_compose info) (ti_app_compose info')).
Proof.
  assert (∀ i q, verify_dstack_tcb_compose_hash (Some i) (Some q) = TcbVerified →
    ti_mrtd i = tq_mr_td q ∧ ti_rtmr0 i = tq_rtmr0 q ∧ ti_mrtd i ≠ ""
    ∧ sha256_hex (ti_app_compose i) = ti_compose_hash i) as Hv.
  { clear. intros i q. unfold verify_dstack_tcb_compose_hash.
    destruct (_ || _) eqn:E1; [done|]. destruct (_ || _) eqn:E2 at 1; [done|]. bools.
    case_bool_decide; [|done]. intros _. destruct E1, E2. repeat split; try done. by destruct (ti_mrtd i). }
  intros (H1 & H2 & H3 & H4)%Hv (_ & _ & _ & H4')%Hv E. repeat split; [done..|].
  apply sha256_hex_inj. congruence.
Qed.

Lemma normalize_sha256_hex_digest x : normalize_sha256_hex (sha256_hex x) = Some (sha256_hex x).
Proof.
  unfold normalize_sha256_hex. pose proof (sha256_hex_nonce x) as E. unfold is_canonical_nonce_hex in E.
  by rewrite E, sha256_hex_lowercase.
Qed.

(** A certificate whose key matches the report data is the only one up to
    SHA-256 collisions: two certificates with a matching binding to the same
    report data carry the same public key. *)
Theorem tls_binding_pins_key {x509 : CertificateReader} report cert cert' b b' :
  verify_certificate_spki_report_data_binding cert report = Ok (Some b) → tb_matches b = true →
  verify_certificate_spki_report_data_binding cert' report = Ok (Some b') → tb_matches b' = true →
  ∃ der der', option_map cert_spki_der (certificate_from_der cert) = Some (Some der)
    ∧ option_map cert_spki_der (certificate_from_der cert') = Some (Some der')
    ∧ (der = der' ∨ sha256_collision der der').
Proof.
  assert (∀ cert b, verify_certificate_spki_report_data_binding cert report = Ok (Some b) →
    tb_matches b = true → ∃ der p, option_map cert_spki_der (certificate_from_der cert) = Some (Some der)
      ∧ report_data_sha256_prefix report = Some p ∧ to_ascii_lowercase p = sha256_hex der) as Hv.
  { clear -laws. intros cert b H Hb.
    unfold verify_certificate_spki_report_data_binding, certificate_spki_sha256_hex in H. inv_ok.
    match goal with H : cert_spki_der _ = Some ?d |- _ => rename d into der end.
    unfold verify_tls_spki_report_data_binding in H. rewrite normalize_sha256_hex_digest in H.
    destruct (report_data_sha256_prefix report) as [p|]; [|done]. cbn in H. injection H as <-.
    exists der, p. cbn in Hb. unfold eq_ignore_ascii_case in Hb.
    rewrite sha256_hex_lowercase in Hb. bools. split; [|done].
    destruct (certificate_from_der cert); [|done]. cbn. simplify_eq. congruence. }
  intros H Hb H' Hb'. destruct (Hv _ _ H Hb) as (d & p & Hd & Hp & E).
  destruct (Hv _ _ H' Hb') as (d' & p' & Hd' & Hp' & E'). exists d, d'. repeat split; [done..|].
  apply sha256_hex_inj. congruence.
Qed.
End Facts.

(** ** Concrete inputs *)

Definition sample_nonce : string := zeros 64.
Definition sample_report : string := sha256_hex (sample_nonce +:+ "key").
#[local] Instance sample_x509 : CertificateReader :=
  {| certificate_from_der der :=
       Some {| cert_spki_der := Some der; cert_not_before_secs := 0; cert_not_after_secs := 10 |} |}.

Lemma e2ee_report_data_binds_key_witness :
  (sample_nonce = sample_nonce ∧ "key" = "key")
  ∨ sha256_collision (sample_nonce +:+ "key") (sample_nonce +:+ "key").
Proof.
  exact (e2ee_report_data_binds_key sample_report sample_nonce "key" sample_nonce "key" eq_refl eq_refl).
Defined.

Lemma live_report_data_binds_all_witness :
  to_ascii_lowercase (zeros 62 +:+ "aF") = to_ascii_lowercase (zeros 62 +:+ "Af").
Proof.
  exact (proj1 (live_report_data_binds_all (sample_report +:+ zeros 62 +:+ "AF")
    sample_nonce "key" (zeros 62 +:+ "aF") sample_nonce "key" (zeros 62 +:+ "Af") eq_refl eq_refl)).
Defined.

Definition sample_tcb : DstackTcbInfo :=
  {| ti_mrtd := "m"; ti_rtmr0 := "r"; ti_app_compose := "doc"; ti_compose_hash := sha256_hex "doc" |}.
Definition sample_measurements : TdxQuoteMeasurements := {| tq_mr_td := "m"; tq_rtmr0 := "r" |}.

Lemma tcb_binding_pins_compose_witness : ti_mrtd sample_tcb = "m" ∧ ti_mrtd sample_tcb ≠ "".
Proof.
  assert (verify_dstack_tcb_compose_hash (Some sample_tcb) (Some sample_measurements) = TcbVerified) as E
    by (vm_compute; reflexivity).
  destruct (tcb_binding_pins_compose sample_tcb sample_tcb sample_measurements sample_measurements
              E E eq_refl) as (H1 & _ & H2 & _).
  exact (conj H1 H2).
Defined.

Lemma tls_binding_pins_key_witness :
  ∃ der der', Some (Some "cert") = Some (Some der) ∧ Some (Some "cert") = Some (Some der')
    ∧ (der = der' ∨ sha256_collision der der').
Proof.
  exact (tls_binding_pins_key (sha256_hex "cert") "cert" "cert" _ _ eq_refl eq_refl eq_refl eq_refl).
Defined.
