(* ===== verification/Signature.v ===== *)
(** * Artifact signatures

    signature.rs: the Ed25519 envelope signature over the canonical JSON of a
    payload, checked against a list of trusted keys. Base64 and Ed25519 are
    parameters. *)

From Stdlib Require Import Ascii String ZArith Lia.
From stdpp Require Import base strings list numbers.
From S2P Require Import Prelude RustStr Errors Collections Canonical JsonInjective.

Open Scope string_scope.

Definition DEMO_SIGNING_KEY_ID := "confidential-inference-demo-ed25519-2026".
Definition DEMO_SIGNING_PUBLIC_KEY_BASE64URL := "4oqJcHUzMr1y_vQT5rCy7xtKrdp6osFB8jNxKmh2s1E".
Definition PHASE2_FIXTURE_SIGNING_KEY_ID := "confidential-inference-phase2-fixture-ed25519-2026".
Definition PHASE2_FIXTURE_SIGNING_PUBLIC_KEY_BASE64URL := "cN-eInmtvsbRK_KSEYTJIi6yTthSAFv2QBOfUuWc2a4".
Definition COMPATIBILITY_FIXTURE_SIGNING_KEY_ID := "confidential-inference-compatibility-fixture-ed25519-2026".
Definition COMPATIBILITY_FIXTURE_SIGNING_PUBLIC_KEY_BASE64URL := "bjLBl0Hwr4JgYSrpn9E9ijiURyLgiWTdI5c49VKmFTs".
Definition ALIAS_MATRIX_FIXTURE_SIGNING_KEY_ID := "confidential-inference-alias-matrix-fixture-ed25519-2026".
Definition ALIAS_MATRIX_FIXTURE_SIGNING_PUBLIC_KEY_BASE64URL := "zxs36F3ACu6U8QEIs38VHio3s64qDK53Uh-DSI25xNc".

Record ArtifactSignature := {
  as_signer : string; as_key_id : string; as_alg : string; as_value : string;
}.
Record TrustedSigningKey := {
  tk_signer : string; tk_key_id : string; tk_public_key_base64url : string;
}.

Definition demo : TrustedSigningKey :=
  {| tk_signer := "confidential-inference"; tk_key_id := DEMO_SIGNING_KEY_ID;
     tk_public_key_base64url := DEMO_SIGNING_PUBLIC_KEY_BASE64URL |}.
Definition phase2_fixture : TrustedSigningKey :=
  {| tk_signer := "confidential-inference"; tk_key_id := PHASE2_FIXTURE_SIGNING_KEY_ID;
     tk_public_key_base64url := PHASE2_FIXTURE_SIGNING_PUBLIC_KEY_BASE64URL |}.
Definition compatibility_fixture : TrustedSigningKey :=
  {| tk_signer := "confidential-inference"; tk_key_id := COMPATIBILITY_FIXTURE_SIGNING_KEY_ID;
     tk_public_key_base64url := COMPATIBILITY_FIXTURE_SIGNING_PUBLIC_KEY_BASE64URL |}.
Definition alias_matrix_fixture : TrustedSigningKey :=
  {| tk_signer := "confidential-inference"; tk_key_id := ALIAS_MATRIX_FIXTURE_SIGNING_KEY_ID;
     tk_public_key_base64url := ALIAS_MATRIX_FIXTURE_SIGNING_PUBLIC_KEY_BASE64URL |}.
Definition bundled_fixture_signing_keys : list TrustedSigningKey :=
  [demo; phase2_fixture; compatibility_fixture; alias_matrix_fixture].

(** The crates behind signature verification: base64url without padding,
    [PublicKey::from_slice], [Signature::from_slice] and [PublicKey::verify]. *)
Class SignatureCrypto := {
  base64url_decode : string → option string;
  public_key_from_slice : string → option string;
  signature_from_slice : string → option string;
  ed25519_verify : string → string → string → bool;
}.

Section Signature.
Context {prim : Primitives} {crypto : SignatureCrypto}.

Definition trusted_signing_key (signature : ArtifactSignature) (keys : list TrustedSigningKey)
    : option TrustedSigningKey :=
  List.find (λ key, (as_signer signature =?= tk_signer key) && (as_key_id signature =?= tk_key_id key)) keys.

Definition decode_signature_value (value : string) : Result string :=
  let encoded := default value (strip_prefix "base64url:" value) in
  ok_or (base64url_decode encoded) (InvalidArtifactSignature "signature is not base64url: {err}").

Definition verify_artifact_signature_with_keys (signature : ArtifactSignature) (payload : Value)
    (trusted_signing_keys : list TrustedSigningKey) : Result unit :=
  bail (InvalidArtifactSignature "signature metadata is incomplete")
    when is_empty (as_signer signature) || is_empty (as_key_id signature) || is_empty (as_value signature);
  bail (UnsupportedSignatureAlgorithm (as_alg signature)) when negb (as_alg signature =?= "ed25519");
  signing_key ← ok_or (trusted_signing_key signature trusted_signing_keys)
                  (UnknownArtifactSigningKey (as_signer signature) (as_key_id signature));
  public_key_bytes ← ok_or (base64url_decode (tk_public_key_base64url signing_key))
                       (InvalidArtifactSignature "trusted public key is not base64url: {err}");
  signature_bytes ← decode_signature_value (as_value signature);
  public_key ← ok_or (public_key_from_slice public_key_bytes)
                 (InvalidArtifactSignature "invalid public key: {err}");
  signature ← ok_or (signature_from_slice signature_bytes)
                (InvalidArtifactSignature "invalid signature bytes: {err}");
  payload_json ← canonical_json payload;
  if ed25519_verify public_key payload_json signature then Ok tt
  else Err (InvalidArtifactSignature "{err}").

(** ** Properties *)

(** What acceptance means: a trusted key of the claimed identity signed the
    canonical text. *)
Definition signed_by (signature : ArtifactSignature) (payload : Value) (key : TrustedSigningKey) : Prop :=
  ∃ public_key sig json,
    (base64url_decode (tk_public_key_base64url key) ≫= public_key_from_slice) = Some public_key
    ∧ (base64url_decode (default (as_value signature) (strip_prefix "base64url:" (as_value signature)))
         ≫= signature_from_slice) = Some sig
    ∧ canonical_json payload = Ok json ∧ ed25519_verify public_key json sig = true.

Lemma signature_Ok signature payload keys :
  verify_artifact_signature_with_keys signature payload keys = Ok tt ↔
    (as_signer signature ≠ "" ∧ as_key_id signature ≠ "" ∧ as_value signature ≠ "")
    ∧ as_alg signature = "ed25519"
    ∧ ∃ key, trusted_signing_key signature keys = Some key ∧ key ∈ keys
        ∧ tk_signer key = as_signer signature ∧ tk_key_id key = as_key_id signature
        ∧ signed_by signature payload key.
Proof.
  assert (∀ s, is_empty s = false ↔ s ≠ "") as He by (by intros []).
  unfold verify_artifact_signature_with_keys, decode_signature_value, signed_by. split.
  - intros H. inv_ok. bools. rewrite !He in *. split; [tauto|]. split; [done|].
    match goal with H : trusted_signing_key _ _ = Some ?k |- _ => exists k; pose proof H as Hk end.
    apply List.find_some in Hk as [Hin Hk]. bools. destruct Hk as [E1 E2].
    split; [done|]. split; [by apply list_elem_of_In|]. split; [done|]. split; [done|].
    destruct (ed25519_verify _ _ _) eqn:Ev in H; [|done]. eexists _, _, _.
    split; [|split; [|split; [eassumption|exact Ev]]]; by apply bind_Some; eauto.
  - intros ((H1 & H2 & H3) & Ha & key & Hk & _ & _ & _ & pk & sg & json & Hpk & Hsg & Hj & Hv).
    apply He in H1, H2, H3. rewrite H1, H2, H3, Ha, bool_decide_true, Hk by done. cbn [orb negb].
    apply bind_Some in Hpk as (pkb & Hpk1 & Hpk2). apply bind_Some in Hsg as (sgb & Hsg1 & Hsg2).
    by rewrite ok_or_some, ok_bind, Hpk1, ok_or_some, ok_bind, Hsg1, ok_or_some, ok_bind, Hpk2,
      ok_or_some, ok_bind, Hsg2, ok_or_some, ok_bind, Hj, ok_bind, Hv.
Qed.

(** An artifact signature is accepted exactly when its metadata is
    complete, its algorithm is ed25519, and the first trusted key registered for
    its signer and key id verifies it over the payload's canonical JSON; a
    signature of an untrusted identity is never accepted. *)
Theorem signature_accepted_iff signature payload keys :
  verify_artifact_signature_with_keys signature payload keys = Ok tt ↔
    (as_signer signature ≠ "" ∧ as_key_id signature ≠ "" ∧ as_value signature ≠ "")
    ∧ as_alg signature = "ed25519"
    ∧ ∃ key, trusted_signing_key signature keys = Some key ∧ key ∈ keys
        ∧ tk_signer key = as_signer signature ∧ tk_key_id key = as_key_id signature
        ∧ signed_by signature payload key.
Proof. apply signature_Ok. Qed.
End Signature.
