(* ===== verification/ReferenceValues.v ===== *)
(** * Reference values

    reference_values.rs: the signed payload of accepted measurements and
    per-route references, its activation check, the update rule that must not
    weaken what is already trusted, and the pins a caller may put on it. *)

From Stdlib Require Import Ascii String ZArith Lia.
From stdpp Require Import base gmap strings list numbers relations.
From S2P Require Import Prelude RustStr Errors Collections Timestamps Versions Canonical JsonInjective Policy Verdict Evidence Signature.

Open Scope string_scope.

(** ** Data *)

Record RouteReference := {
  rr_canonical_model : string;
  rr_provider_model : string;
  rr_evidence_family : string;
  rr_channel_binding_kind : ChannelBindingKind;
  rr_trust_tier : TrustTier;
  rr_accepted_cpu_tees : list CpuTeeKind;
  rr_e2ee_public_key_digest : string;
  rr_response_signing_key_digest : option string;
  rr_tls_spki_sha256 : option string;
  rr_workload_images : list WorkloadImage;
  rr_workload_image_digest : string;
  rr_model_artifacts : list ArtifactDigest;
  rr_valid_until : string;
  rr_valid_until_epoch_ms : Z;
}.

Record ProviderReference := {
  pr_accepted_measurements : list string;
  pr_routes : gmap string RouteReference;
}.

Record ReferenceValuesPayload := {
  rv_schema : string;
  rv_version : string;
  rv_issuer : string;
  rv_valid_from : string;
  rv_valid_until : string;
  rv_valid_until_epoch_ms : Z;
  rv_revocation_epoch : Z;
  rv_minimum_acceptable_version : string;
  rv_providers : gmap string ProviderReference;
}.

Record ReferenceValuesEnvelope := {
  env_schema : string;
  env_payload : ReferenceValuesPayload;
  env_signature : ArtifactSignature;
}.

Definition ENVELOPE_SCHEMA : string := "confidential-inference.reference-values-envelope.v1".
Definition REFERENCE_VALUES_SCHEMA : string := "confidential-inference.reference-values.v1".

Record ReferenceValuesPin := {
  pin_digest : option string;
  pin_version : option string;
  pin_minimum_version : option string;
  pin_minimum_revocation_epoch : option Z;
  pin_accepted_signing_identities : list SignatureMetadata;
  pin_max_age_millis : option Z;
}.

Definition invalid (msg : string) : AttestationError := InvalidReferenceValuesUpdate msg.
Definition weakening (msg : string) : AttestationError := WeakeningReferenceValuesUpdate msg.

(** ** Serialisation *)

Definition strings_value (l : list string) : Value := VArray (map VString l).
(** [skip_serializing_if]: the member is left out. *)
Definition optional {A} (key : string) (f : A → Value) (o : option A) : list (string * Value) :=
  match o with Some a => [(key, f a)] | None => [] end.
Definition unless_empty {A} (key : string) (f : A → Value) (l : list A) : list (string * Value) :=
  match l with [] => [] | _ => [(key, VArray (map f l))] end.

Definition channel_kind_value (kind : ChannelBindingKind) : Value :=
  VString match kind with
  | KindNotRequired => "not_required" | KindTeeTerminatedTls => "tee_terminated_tls"
  | KindAttestedAppE2ee => "attested_app_e2ee" | KindAnyAttestedChannel => "any_attested_channel"
  | KindNone => "none"
  end.
Definition trust_tier_value (tier : TrustTier) : Value :=
  VString match tier with
  | HwVerifiedTls => "hw-verified-tls" | AppE2ee => "app-e2ee" | TeeOnly => "tee-only" | TierNone => "none"
  end.
Definition artifact_value (a : ArtifactDigest) : Value :=
  VObject [("kind", VString (ad_kind a)); ("name", VString (ad_name a)); ("digest", VString (ad_digest a))].
Definition image_value (i : WorkloadImage) : Value :=
  VObject [("service", VString (wi_service i)); ("reference", VString (wi_reference i));
           ("digest", VString (wi_digest i))].
Definition u64_value (n : Z) : Value := VNumber (PosInt n).

Definition route_reference_value (r : RouteReference) : Value :=
  VObject
    ([("canonical_model", VString (rr_canonical_model r));
      ("provider_model", VString (rr_provider_model r));
      ("evidence_family", VString (rr_evidence_family r));
      ("channel_binding_kind", channel_kind_value (rr_channel_binding_kind r));
      ("trust_tier", trust_tier_value (rr_trust_tier r));
      ("accepted_cpu_tees", VArray (map cpu_kind_value (rr_accepted_cpu_tees r)));
      ("e2ee_public_key_digest", VString (rr_e2ee_public_key_digest r))]
     ++ optional "response_signing_key_digest" VString (rr_response_signing_key_digest r)
     ++ optional "tls_spki_sha256" VString (rr_tls_spki_sha256 r)
     ++ unless_empty "workload_images" image_value (rr_workload_images r)
     ++ [("workload_image_digest", VString (rr_workload_image_digest r));
         ("model_artifacts", VArray (map artifact_value (rr_model_artifacts r)));
         ("valid_until", VString (rr_valid_until r));
         ("valid_until_epoch_ms", u64_value (rr_valid_until_epoch_ms r))])%list.

Definition provider_reference_value (p : ProviderReference) : Value :=
  VObject [("accepted_measurements", strings_value (pr_accepted_measurements p));
           ("routes", VObject (map (λ '(k, r), (k, route_reference_value r)) (btree_iter (pr_routes p))))].

Definition reference_payload_value (p : ReferenceValuesPayload) : Value :=
  VObject [("schema", VString (rv_schema p)); ("version", VString (rv_version p));
           ("issuer", VString (rv_issuer p)); ("valid_from", VString (rv_valid_from p));
           ("valid_until", VString (rv_valid_until p));
           ("valid_until_epoch_ms", u64_value (rv_valid_until_epoch_ms p));
           ("revocation_epoch", u64_value (rv_revocation_epoch p));
           ("minimum_acceptable_version", VString (rv_minimum_acceptable_version p));
           ("providers", VObject (map (λ '(k, r), (k, provider_reference_value r))
                                    (btree_iter (rv_providers p))))].

(** ** Activation *)

Definition parse_reference_values_timestamp (value : string) : Result Z :=
  map_err (λ _, invalid "{field} is not a valid reference-values timestamp: {error}")
    (parse_utc_timestamp_millis value).

Definition validate_reference_values_schema_major (value : string) : Result unit :=
  check_schema_major InvalidReferenceValuesUpdate "confidential-inference.reference-values" value.

Definition route_validate_for_activation (r : RouteReference) : Result unit :=
  valid_until ← parse_reference_values_timestamp (rr_valid_until r);
  bail (invalid "route {provider_id}/{route_id} valid_until_epoch_ms {} does not match valid_until {}")
    when negb (valid_until =? rr_valid_until_epoch_ms r)%Z;
  match rr_workload_images r with
  | [] => Ok tt
  | images =>
      bail (invalid "route {provider_id}/{route_id} contains an unpinned workload image")
        when existsb (λ image, negb (is_digest_pinned image)) images;
      let canonical := dedup (sort_by image_cmp images) in
      bail (invalid "route {provider_id}/{route_id} workload_images are not sorted and unique")
        when negb (canonical =?= images);
      Ok tt
  end.

Definition validate_for_activation (p : ReferenceValuesPayload) : Result unit :=
  _ ← validate_reference_values_schema_major (rv_schema p);
  valid_from ← parse_reference_values_timestamp (rv_valid_from p);
  valid_until ← parse_reference_values_timestamp (rv_valid_until p);
  bail (invalid "valid_until_epoch_ms {} does not match valid_until {}")
    when negb (valid_until =? rv_valid_until_epoch_ms p)%Z;
  bail (invalid "valid_from {} must be before valid_until {}") when (valid_until <=? valid_from)%Z;
  for_each (λ '(_, provider),
    for_each (λ '(_, route), route_validate_for_activation route) (btree_iter (pr_routes provider)))
    (btree_iter (rv_providers p)).

Definition reference_digest `{!Primitives} (p : ReferenceValuesPayload) : Result string :=
  _ ← validate_for_activation p;
  canonical_digest (reference_payload_value p).

(** ** Updates *)

Definition fail_if_changed {A} `{!EqDecision A} (current candidate : A) : Result unit :=
  if current =?= candidate then Ok tt
  else Err (weakening "{scope} changed {field} from {current:?} to {candidate:?}").

Definition fail_if_new_values {A} `{!EqDecision A} (current candidate : list A) : Result unit :=
  match List.find (λ value, negb (existsb (λ c, c =?= value) current)) candidate with
  | Some _ => Err (weakening "{scope} added unreviewed {field} value {new_value:?}")
  | None => Ok tt
  end.

Definition fail_if_missing_values {A} `{!EqDecision A} (current candidate : list A) : Result unit :=
  match List.find (λ value, negb (existsb (λ c, c =?= value) candidate)) current with
  | Some _ => Err (weakening "{scope} removed required {field} value {missing_value:?}")
  | None => Ok tt
  end.

(** An optional pin: once set it may neither change nor disappear. *)
Definition pinned_option_kept (removed : string) (current candidate : option string) : Result unit :=
  match current, candidate with
  | Some current, Some candidate => fail_if_changed current candidate
  | Some _, None => Err (weakening removed)
  | None, _ => Ok tt
  end.

Definition verify_not_weakened_by (r candidate : RouteReference) : Result unit :=
  _ ← fail_if_changed (rr_canonical_model r) (rr_canonical_model candidate);
  _ ← fail_if_changed (rr_provider_model r) (rr_provider_model candidate);
  _ ← fail_if_changed (rr_evidence_family r) (rr_evidence_family candidate);
  _ ← fail_if_changed (rr_channel_binding_kind r) (rr_channel_binding_kind candidate);
  _ ← fail_if_changed (rr_trust_tier r) (rr_trust_tier candidate);
  _ ← fail_if_changed (rr_e2ee_public_key_digest r) (rr_e2ee_public_key_digest candidate);
  _ ← pinned_option_kept "{route_id} removed required response_signing_key_digest value {current:?}"
        (rr_response_signing_key_digest r) (rr_response_signing_key_digest candidate);
  _ ← pinned_option_kept "{route_id} removed required tls_spki_sha256 value {current:?}"
        (rr_tls_spki_sha256 r) (rr_tls_spki_sha256 candidate);
  _ ← match rr_workload_images r with
      | [] => Ok tt
      | images => fail_if_changed images (rr_workload_images candidate)
      end;
  _ ← fail_if_changed (rr_workload_image_digest r) (rr_workload_image_digest candidate);
  _ ← fail_if_new_values (rr_accepted_cpu_tees r) (rr_accepted_cpu_tees candidate);
  fail_if_missing_values (rr_model_artifacts r) (rr_model_artifacts candidate).

Definition is_less (c : comparison) : bool := match c with Lt => true | _ => false end.

Definition verify_provider_update (candidate : ReferenceValuesPayload)
    (entry : string * ProviderReference) : Result unit :=
  let '(provider_id, current_provider) := entry in
  candidate_provider ← ok_or (rv_providers candidate !! provider_id)
                         (weakening "provider {provider_id} was removed");
  _ ← fail_if_new_values (pr_accepted_measurements current_provider)
        (pr_accepted_measurements candidate_provider);
  for_each (λ '(route_id, current_route),
    candidate_route ← ok_or (pr_routes candidate_provider !! route_id)
                        (weakening "route {route_id} was removed");
    verify_not_weakened_by current_route candidate_route)
    (btree_iter (pr_routes current_provider)).

Definition verify_update_to (current candidate : ReferenceValuesPayload) : Result unit :=
  _ ← validate_for_activation current;
  bail (invalid "unsupported reference values schema {}")
    when negb (rv_schema candidate =?= REFERENCE_VALUES_SCHEMA);
  _ ← validate_for_activation candidate;
  bail (invalid "candidate issuer {} does not match current issuer {}")
    when negb (rv_issuer candidate =?= rv_issuer current);
  bail (invalid "candidate reference values version {} is older than current {}")
    when is_less (compare_artifact_versions (rv_version candidate) (rv_version current));
  bail (invalid "candidate reference values version {} is older than minimum acceptable {}")
    when is_less (compare_artifact_versions (rv_version candidate) (rv_minimum_acceptable_version current));
  bail (weakening "minimum acceptable version moved backward from {} to {}")
    when is_less (compare_artifact_versions (rv_minimum_acceptable_version candidate)
                    (rv_minimum_acceptable_version current));
  bail (invalid "candidate revocation epoch {} is older than current {}")
    when (rv_revocation_epoch candidate <? rv_revocation_epoch current)%Z;
  for_each (verify_provider_update candidate) (btree_iter (rv_providers current)).

(** ** Envelopes *)

Section Envelope.
Context {prim : Primitives} {crypto : SignatureCrypto}.

Definition verify_signature_with_keys (envelope : ReferenceValuesEnvelope)
    (keys : list TrustedSigningKey) : Result unit :=
  bail InvalidReferenceSignature when negb (env_schema envelope =?= ENVELOPE_SCHEMA);
  _ ← validate_for_activation (env_payload envelope);
  verify_artifact_signature_with_keys (env_signature envelope)
    (reference_payload_value (env_payload envelope)) keys.

Definition into_verified_payload_with_keys (envelope : ReferenceValuesEnvelope)
    (keys : list TrustedSigningKey) : Result ReferenceValuesPayload :=
  _ ← verify_signature_with_keys envelope keys;
  Ok (env_payload envelope).

Definition into_verified_update_from_with_keys (envelope : ReferenceValuesEnvelope)
    (current : ReferenceValuesPayload) (keys : list TrustedSigningKey)
    : Result ReferenceValuesPayload :=
  _ ← verify_signature_with_keys envelope keys;
  _ ← verify_update_to current (env_payload envelope);
  Ok (env_payload envelope).
End Envelope.

(** ** Pins *)

Definition pin_new : ReferenceValuesPin :=
  {| pin_digest := None; pin_version := None; pin_minimum_version := None;
     pin_minimum_revocation_epoch := None; pin_accepted_signing_identities := [];
     pin_max_age_millis := None |}.

Definition verify_with_digest_at (pin : ReferenceValuesPin) (p : ReferenceValuesPayload)
    (digest : string) (now_epoch_millis : Z) : Result unit :=
  _ ← match pin_digest pin with
      | Some expected =>
          bail (invalid "reference values digest pin mismatch: expected {expected_digest}, got {digest}")
            when negb (digest =?= expected); Ok tt
      | None => Ok tt
      end;
  _ ← match pin_version pin with
      | Some expected =>
          bail (invalid "reference values version pin mismatch: expected {expected_version}, got {}")
            when negb (rv_version p =?= expected); Ok tt
      | None => Ok tt
      end;
  _ ← match pin_minimum_version pin with
      | Some minimum =>
          bail (invalid "reference values version {} is older than pinned minimum {minimum_version}")
            when is_less (compare_artifact_versions (rv_version p) minimum); Ok tt
      | None => Ok tt
      end;
  _ ← match pin_minimum_revocation_epoch pin with
      | Some minimum =>
          bail (invalid "reference values revocation epoch {} is older than pinned minimum {minimum_revocation_epoch}")
            when (rv_revocation_epoch p <? minimum)%Z; Ok tt
      | None => Ok tt
      end;
  match pin_max_age_millis pin with
  | Some max_age_millis =>
      valid_from ← map_err (λ _, invalid "reference values valid_from is invalid: {error}")
                     (parse_utc_timestamp_millis (rv_valid_from p));
      bail (invalid "reference values valid_from {} is in the future") when (now_epoch_millis <? valid_from)%Z;
      let age_millis := saturating_sub now_epoch_millis valid_from in
      bail (invalid "reference values age {age_millis}ms exceeds pinned maximum {max_age_millis}ms")
        when (max_age_millis <? age_millis)%Z;
      Ok tt
  | None => Ok tt
  end.

(** [verify] and [verify_with_digest] read the clock; [now] is its value. *)
Definition pin_verify `{!Primitives} (pin : ReferenceValuesPin) (p : ReferenceValuesPayload) (now : Z)
    : Result unit :=
  digest ← reference_digest p;
  verify_with_digest_at pin p digest now.

Definition identity_accepted (pin : ReferenceValuesPin) (signature : ArtifactSignature) : bool :=
  existsb (λ identity, (sm_signer identity =?= as_signer signature)
                       && (sm_key_id identity =?= as_key_id signature)
                       && (sm_alg identity =?= as_alg signature))
    (pin_accepted_signing_identities pin).

Definition verify_envelope_with_digest_at (pin : ReferenceValuesPin)
    (envelope : ReferenceValuesEnvelope) (digest : string) (now_epoch_millis : Z) : Result unit :=
  bail (invalid "reference values signing identity pin mismatch: got {}/{}/{}")
    when match pin_accepted_signing_identities pin with
         | [] => false
         | _ => negb (identity_accepted pin (env_signature envelope))
         end;
  verify_with_digest_at pin (env_payload envelope) digest now_epoch_millis.

(** ** Specification of an update

    What a later payload must keep of an earlier one. *)

Record route_kept (r c : RouteReference) : Prop := {
  kept_canonical_model : rr_canonical_model c = rr_canonical_model r;
  kept_provider_model : rr_provider_model c = rr_provider_model r;
  kept_evidence_family : rr_evidence_family c = rr_evidence_family r;
  kept_channel_binding : rr_channel_binding_kind c = rr_channel_binding_kind r;
  kept_trust_tier : rr_trust_tier c = rr_trust_tier r;
  kept_e2ee_key : rr_e2ee_public_key_digest c = rr_e2ee_public_key_digest r;
  kept_response_key k :
    rr_response_signing_key_digest r = Some k → rr_response_signing_key_digest c = Some k;
  kept_tls_key k : rr_tls_spki_sha256 r = Some k → rr_tls_spki_sha256 c = Some k;
  kept_images : rr_workload_images r ≠ [] → rr_workload_images c = rr_workload_images r;
  kept_image_digest : rr_workload_image_digest c = rr_workload_image_digest r;
  kept_cpu_tees : rr_accepted_cpu_tees c ⊆ rr_accepted_cpu_tees r;
  kept_artifacts : rr_model_artifacts r ⊆ rr_model_artifacts c;
}.

Definition provider_kept (p c : ProviderReference) : Prop :=
  pr_accepted_measurements c ⊆ pr_accepted_measurements p
  ∧ ∀ id r, pr_routes p !! id = Some r → ∃ r', pr_routes c !! id = Some r' ∧ route_kept r r'.

Record not_weakened (p c : ReferenceValuesPayload) : Prop := {
  nw_issuer : rv_issuer c = rv_issuer p;
  nw_version : version_le (rv_version p) (rv_version c);
  nw_minimum : version_le (rv_minimum_acceptable_version p) (rv_minimum_acceptable_version c);
  nw_epoch : (rv_revocation_epoch p ≤ rv_revocation_epoch c)%Z;
  nw_providers id q : rv_providers p !! id = Some q →
    ∃ q', rv_providers c !! id = Some q' ∧ provider_kept q q';
}.

(** ** Lemmas *)

Lemma fail_if_changed_Ok {A} `{!EqDecision A} (a b : A) : fail_if_changed a b = Ok tt ↔ b = a.
Proof. unfold fail_if_changed. case_bool_decide; split; congruence. Qed.

Lemma find_absent_None {A} `{!EqDecision A} (l k : list A) :
  List.find (λ value, negb (existsb (λ c, c =?= value) l)) k = None ↔ k ⊆ l.
Proof.
  split.
  - intros H x Hx. apply list_elem_of_In in Hx. apply (List.find_none _ _ H) in Hx.
    apply negb_false_iff, existsb_exists in Hx as (y & Hy & E). bools. subst. by apply list_elem_of_In.
  - intros H. destruct (List.find _ _) as [x|] eqn:E; [|done].
    apply List.find_some in E as [Hx E]. apply list_elem_of_In, H in Hx.
    apply negb_true_iff, not_true_iff_false in E. destruct E.
    apply existsb_exists. exists x. split; [by apply list_elem_of_In|]. by apply bool_decide_eq_true.
Qed.

Lemma fail_if_new_values_Ok {A} `{!EqDecision A} (l k : list A) : fail_if_new_values l k = Ok tt ↔ k ⊆ l.
Proof. unfold fail_if_new_values. rewrite <-find_absent_None. by destruct (List.find _ _). Qed.
Lemma fail_if_missing_values_Ok {A} `{!EqDecision A} (l k : list A) : fail_if_missing_values l k = Ok tt ↔ l ⊆ k.
Proof. unfold fail_if_missing_values. rewrite <-find_absent_None. by destruct (List.find _ _). Qed.

Lemma pinned_option_kept_Ok msg a b : pinned_option_kept msg a b = Ok tt ↔ ∀ k, a = Some k → b = Some k.
Proof. destruct a, b; cbn; rewrite ?fail_if_changed_Ok; naive_solver. Qed.

Lemma is_less_false a b : is_less (compare_artifact_versions a b) = false ↔ version_le b a.
Proof.
  unfold is_less, version_le. rewrite !versions_key.
  rewrite (cmp_opp (list_cmp (list_cmp N.compare)) (version_key a)). unfold key_order.
  by destruct (list_cmp _ (version_key a) (version_key b)).
Qed.

Lemma route_update_Ok r c : verify_not_weakened_by r c = Ok tt ↔ route_kept r c.
Proof.
  unfold verify_not_weakened_by. rewrite !unit_bind_Ok, !fail_if_changed_Ok, !pinned_option_kept_Ok,
    fail_if_new_values_Ok, fail_if_missing_values_Ok.
  assert (match rr_workload_images r with
          | [] => Ok tt | images => fail_if_changed images (rr_workload_images c) end = Ok tt
          ↔ (rr_workload_images r ≠ [] → rr_workload_images c = rr_workload_images r)) as ->.
  { destruct (rr_workload_images r) as [|i l]; [naive_solver|]. rewrite fail_if_changed_Ok. naive_solver. }
  split; [intros; destruct_and!; by constructor | intros []; by repeat split].
Qed.

Lemma provider_update_Ok c id p :
  verify_provider_update c (id, p) = Ok tt ↔ ∃ p', rv_providers c !! id = Some p' ∧ provider_kept p p'.
Proof.
  unfold verify_provider_update, provider_kept. rewrite bind_Ok. setoid_rewrite ok_or_Ok.
  setoid_rewrite unit_bind_Ok. setoid_rewrite fail_if_new_values_Ok. setoid_rewrite btree_for_each.
  setoid_rewrite bind_Ok. setoid_rewrite ok_or_Ok. setoid_rewrite route_update_Ok. done.
Qed.

Lemma update_Ok p c :
  verify_update_to p c = Ok tt ↔
    (validate_for_activation p = Ok tt ∧ rv_schema c = REFERENCE_VALUES_SCHEMA
     ∧ validate_for_activation c = Ok tt)
    ∧ version_le (rv_minimum_acceptable_version p) (rv_version c) ∧ not_weakened p c.
Proof.
  unfold verify_update_to.
  rewrite !unit_bind_Ok, !guard_Ok, !unit_bind_Ok, !guard_Ok, !negb_false_iff, !bool_decide_eq_true,
    !is_less_false, Z.ltb_ge, btree_for_each. setoid_rewrite provider_update_Ok.
  split.
  - intros; destruct_and!. split; [done|]. split; [done|]. by constructor.
  - intros [? [? []]]. destruct_and!. by repeat split.
Qed.

#[export] Instance route_kept_refl : Reflexive route_kept.
Proof. intros r. by constructor. Qed.
#[export] Instance route_kept_trans : Transitive route_kept.
Proof.
  intros a b c [] []. constructor; try congruence; try (etrans; eassumption); auto.
  intros Ha. rewrite <-kept_images0 by done. apply kept_images1. by rewrite kept_images0.
Qed.
#[export] Instance provider_kept_refl : Reflexive provider_kept.
Proof. intros p. split; [done|]. intros id r Hr. by exists r. Qed.
#[export] Instance provider_kept_trans : Transitive provider_kept.
Proof.
  intros a b c [H1 H2] [H3 H4]. split; [by etrans|]. intros id r (r' & Hr' & K)%H2.
  apply H4 in Hr' as (r'' & ? & ?). exists r''. split; [done|]. by etrans.
Qed.
#[export] Instance not_weakened_refl : Reflexive not_weakened.
Proof. intros p. constructor; try done. intros id q Hq. by exists q. Qed.
#[export] Instance not_weakened_trans : Transitive not_weakened.
Proof.
  intros a b c [] []. constructor; [congruence|by etrans|by etrans|lia|].
  intros id q (q' & Hq' & K)%nw_providers0. apply nw_providers1 in Hq' as (q'' & ? & ?).
  exists q''. split; [done|]. by etrans.
Qed.

(** An update of the reference values is accepted exactly when both
    payloads are activatable, the candidate carries the current schema, is not
    below the current minimum version, and weakens nothing: same issuer, no older
    version, minimum or revocation epoch, no provider or route dropped, no new
    measurement or CPU TEE, no model artifact removed, and every pinned route
    field unchanged. *)
Theorem update_accepted_iff p c :
  verify_update_to p c = Ok tt ↔
    (validate_for_activation p = Ok tt ∧ rv_schema c = REFERENCE_VALUES_SCHEMA
     ∧ validate_for_activation c = Ok tt)
    ∧ version_le (rv_minimum_acceptable_version p) (rv_version c) ∧ not_weakened p c.
Proof. apply update_Ok. Qed.

(** No sequence of accepted updates weakens the reference values: what
    [not_weakened] keeps across one step is kept across any chain of them. *)
Theorem update_chain_not_weakened p c :
  rtc (λ a b, verify_update_to a b = Ok tt) p c → not_weakened p c.
Proof.
  induction 1 as [p|p q c Hpq _ IH]; [reflexivity|]. apply update_Ok in Hpq as (_ & _ & K). by etrans.
Qed.

(** A measurement outside the accepted set stays outside under every
    chain of accepted updates, and a key pinned for a route stays pinned to the
    same value. *)
Theorem update_chain_keeps_pins p c id q route r :
  rtc (λ a b, verify_update_to a b = Ok tt) p c →
  rv_providers p !! id = Some q → pr_routes q !! route = Some r →
  ∃ q' r', rv_providers c !! id = Some q' ∧ pr_routes q' !! route = Some r'
    ∧ (∀ m, m ∉ pr_accepted_measurements q → m ∉ pr_accepted_measurements q')
    ∧ (∀ k, rr_tls_spki_sha256 r = Some k → rr_tls_spki_sha256 r' = Some k)
    ∧ rr_e2ee_public_key_digest r' = rr_e2ee_public_key_digest r
    ∧ rr_trust_tier r' = rr_trust_tier r.
Proof.
  intros H Hq Hr. assert (not_weakened p c) as K.
  { clear Hq Hr. induction H as [p|p x c Hpx _ IH]; [reflexivity|].
    apply update_Ok in Hpx as (_ & _ & K). by etrans. }
  destruct (nw_providers p c K id q Hq) as (q' & Hq' & Hm & Hroutes).
  destruct (Hroutes route r Hr) as (r' & Hr' & Kr). exists q', r'. destruct Kr. set_solver.
Qed.

Lemma option_pin_Ok {E A} (o : option A) (test : A → bool) (e : E) :
  match o with Some a => bail e when test a; Ok tt | None => Ok tt end = Ok tt ↔
    ∀ a, o = Some a → test a = false.
Proof. destruct o as [a|]; [rewrite guard_Ok; naive_solver|naive_solver]. Qed.

(** A pin accepts reference values exactly when each of its constraints
    holds: the digest and version are the pinned ones, version and revocation
    epoch are not below their pinned minima, and the values are not from the
    future and no older than the pinned maximum age. *)
Theorem pin_accepts_iff pin p digest now :
  verify_with_digest_at pin p digest now = Ok tt ↔
    (∀ d, pin_digest pin = Some d → digest = d)
    ∧ (∀ v, pin_version pin = Some v → rv_version p = v)
    ∧ (∀ v, pin_minimum_version pin = Some v → version_le v (rv_version p))
    ∧ (∀ e, pin_minimum_revocation_epoch pin = Some e → (e ≤ rv_revocation_epoch p)%Z)
    ∧ (∀ age, pin_max_age_millis pin = Some age →
         ∃ from, parse_utc_timestamp_millis (rv_valid_from p) = Ok from
           ∧ (from ≤ now)%Z ∧ (now - from ≤ age)%Z).
Proof.
  unfold verify_with_digest_at. rewrite !unit_bind_Ok, !option_pin_Ok.
  setoid_rewrite negb_false_iff. setoid_rewrite bool_decide_eq_true.
  setoid_rewrite is_less_false. setoid_rewrite Z.ltb_ge.
  destruct (pin_max_age_millis pin) as [age|]; [|naive_solver].
  rewrite bind_Ok. setoid_rewrite map_err_Ok. setoid_rewrite guard_Ok. setoid_rewrite Z.ltb_ge.
  unfold saturating_sub. split.
  - intros (? & ? & ? & ? & from & Hf & Hle & [Hage%Z.ltb_ge _]%guard_Ok). split_and!; try done.
    intros ? [= <-]. exists from. split; [done|]. lia.
  - intros (? & ? & ? & ? & H). destruct (H age eq_refl) as (from & Hf & ?). split_and!; try done.
    exists from. split; [done|]. split; [lia|]. apply guard_Ok. split; [|done]. apply Z.ltb_ge. lia.
Qed.

Section Adoption.
Context {prim : Primitives} {crypto : SignatureCrypto}.

(** Reference values adopted as an update are the envelope's own payload,
    signed by a trusted key over its canonical JSON, activatable, and no weaker
    than the values they replace. *)
Theorem adopted_update_signed_and_not_weakened envelope current keys payload :
  into_verified_update_from_with_keys envelope current keys = Ok payload →
  payload = env_payload envelope ∧ env_schema envelope = ENVELOPE_SCHEMA
  ∧ validate_for_activation payload = Ok tt ∧ not_weakened current payload
  ∧ ∃ key, key ∈ keys ∧ tk_signer key = as_signer (env_signature envelope)
      ∧ tk_key_id key = as_key_id (env_signature envelope)
      ∧ signed_by (env_signature envelope) (reference_payload_value payload) key.
Proof.
  unfold into_verified_update_from_with_keys, verify_signature_with_keys. intros H. inv_ok. bools.
  match goal with H : verify_update_to _ _ = _ |- _ => apply update_Ok in H end.
  match goal with H : verify_artifact_signature_with_keys _ _ _ = _ |- _ =>
    apply signature_Ok in H as (_ & _ & key & _ & Hin & E1 & E2 & Hs) end.
  split_and!; try done; [tauto|by exists key].
Qed.
End Adoption.

(** ** Concrete inputs *)

Definition sample_route (tees : list CpuTeeKind) (artifacts : list string) : RouteReference := {|
  rr_canonical_model := "m"; rr_provider_model := "pm"; rr_evidence_family := "f";
  rr_channel_binding_kind := KindTeeTerminatedTls; rr_trust_tier := HwVerifiedTls;
  rr_accepted_cpu_tees := tees; rr_e2ee_public_key_digest := "k";
  rr_response_signing_key_digest := None; rr_tls_spki_sha256 := Some "spki";
  rr_workload_images := sample_images; rr_workload_image_digest := "d";
  rr_model_artifacts := map (λ d, {| ad_kind := "weights"; ad_name := "w"; ad_digest := d |}) artifacts;
  rr_valid_until := sample_timestamp; rr_valid_until_epoch_ms := 1772359200000 |}.

Definition sample_provider ms tees artifacts : ProviderReference :=
  {| pr_accepted_measurements := ms; pr_routes := {[ "r" := sample_route tees artifacts ]} |}.

Definition sample_payload (version minimum : string) (epoch : Z) (p : ProviderReference)
    : ReferenceValuesPayload := {|
  rv_schema := REFERENCE_VALUES_SCHEMA; rv_version := version; rv_issuer := "ci";
  rv_valid_from := "2026-01-01T00:00:00Z"; rv_valid_until := sample_timestamp;
  rv_valid_until_epoch_ms := 1772359200000; rv_revocation_epoch := epoch;
  rv_minimum_acceptable_version := minimum; rv_providers := {[ "near" := p ]} |}.

Definition payload_1 : ReferenceValuesPayload :=
  sample_payload "2026.9" "2026.1" 1 (sample_provider ["a"; "b"] [Tdx; SevSnp] ["x"]).
Definition payload_2 : ReferenceValuesPayload :=
  sample_payload "2026.10" "2026.1" 1 (sample_provider ["a"; "b"] [Tdx] ["x"; "y"]).
Definition payload_3 : ReferenceValuesPayload :=
  sample_payload "2026.10.1" "2026.9" 4 (sample_provider ["b"] [Tdx] ["x"; "y"]).

Example update_1_2 : verify_update_to payload_1 payload_2 = Ok tt.
Proof. vm_compute. reflexivity. Qed.
Example update_2_3 : verify_update_to payload_2 payload_3 = Ok tt.
Proof. vm_compute. reflexivity. Qed.
Example update_3_2_rejected : is_ok (verify_update_to payload_3 payload_2) = false.
Proof. vm_compute. reflexivity. Qed.

Lemma sample_chain : rtc (λ a b, verify_update_to a b = Ok tt) payload_1 payload_3.
Proof. eapply rtc_l; [exact update_1_2|]. eapply rtc_l; [exact update_2_3|]. apply rtc_refl. Qed.

Lemma update_chain_not_weakened_witness : not_weakened payload_1 payload_3.
Proof. exact (update_chain_not_weakened payload_1 payload_3 sample_chain). Defined.

Lemma update_chain_keeps_pins_witness :
  ∃ q' r', rv_providers payload_3 !! "near" = Some q' ∧ pr_routes q' !! "r" = Some r'
    ∧ rr_tls_spki_sha256 r' = Some "spki".
Proof.
  destruct (update_chain_keeps_pins payload_1 payload_3 "near"
    (sample_provider ["a"; "b"] [Tdx; SevSnp] ["x"]) "r" (sample_route [Tdx; SevSnp] ["x"])
    sample_chain eq_refl eq_refl) as (q' & r' & H1 & H2 & _ & H3 & _).
  exists q', r'. split; [exact H1|]. split; [exact H2|]. apply H3. reflexivity.
Defined.

(** A signature scheme for the witness: the signature is the message. *)
#[local] Instance sample_crypto : SignatureCrypto := {|
  base64url_decode s := Some s; public_key_from_slice s := Some s;
  signature_from_slice s := Some s; ed25519_verify _ message signature := message =?= signature |}.

Definition sample_envelope : ReferenceValuesEnvelope := {|
  env_schema := ENVELOPE_SCHEMA; env_payload := payload_2;
  env_signature := {| as_signer := "confidential-inference"; as_key_id := DEMO_SIGNING_KEY_ID;
                      as_alg := "ed25519";
                      as_value := match canonical_json (reference_payload_value payload_2) with
                                  | Ok s => "base64url:" +:+ s | Err _ => "" end |} |}.

Lemma adopted_update_signed_and_not_weakened_witness : not_weakened payload_1 payload_2.
Proof.
  assert (into_verified_update_from_with_keys sample_envelope payload_1 bundled_fixture_signing_keys
          = Ok payload_2) as E by (vm_compute; reflexivity).
  destruct (adopted_update_signed_and_not_weakened _ _ _ _ E) as (_ & _ & _ & H & _). exact H.
Defined.
