(* ===== verification/VerifierCore.v ===== *)
(** * Verifier: shared parts

    verifier.rs, the parts every evidence family uses: the request, the check
    map under construction with its errors, what a policy requires of a check,
    the enforcement rule, the validity bounds, the outcome and attribution
    records, and the verdict built from them. *)

From Stdlib Require Import Ascii String ZArith Lia.
From stdpp Require Import base gmap strings list numbers.
From S2P Require Import Prelude RustStr Errors Collections Timestamps Versions Canonical JsonInjective Policy Verdict Evidence Bindings Signature ReferenceValues.

Open Scope string_scope.

(** ** Requests *)

Record VerificationRequest := {
  rq_route : AttestedRoute;
  rq_route_execution_status : string;
  rq_chat_executable : bool;
  rq_known_unsupported_modes : list string;
  rq_expected_freshness_nonce : option string;
  rq_policy : VerificationPolicy;
  rq_reference_values : ReferenceValuesPayload;
  rq_reference_signature : SignatureMetadata;
  rq_reference_values_digest : string;
  rq_registry_digest : string;
  rq_registry_version : string;
  rq_registry_source : string;
  rq_registry_sync_completed_at : string;
  rq_registry_signature : SignatureMetadata;
  rq_reference_values_source : string;
  rq_raw_evidence : string;
}.

(** The references of the requested provider and route. *)
Definition find_references (request : VerificationRequest)
    : Result (ProviderReference * RouteReference) :=
  provider_reference ← ok_or (rv_providers (rq_reference_values request) !! rt_provider (rq_route request))
                         (MissingProviderReference (rt_provider (rq_route request)));
  route_reference ← ok_or (pr_routes provider_reference !! rt_route_id (rq_route request))
                      (MissingRouteReference (rt_route_id (rq_route request)));
  Ok (provider_reference, route_reference).

(** ** Checks under construction

    The sources thread [&mut checks] and [&mut errors] through every step. *)

Record Audit := { checks : gmap string CheckResult; errors : list VerdictError }.

Definition no_checks : Audit := {| checks := ∅; errors := [] |}.

(** [checks.insert(name, state)]. *)
Definition insert_check (name : string) (state : CheckResult) (a : Audit) : Audit :=
  {| checks := <[name := state]> (checks a); errors := errors a |}.

Definition push_check (name : string) (ok : bool) (message : string) (a : Audit) : Audit :=
  if ok then insert_check name Verified a
  else {| checks := <[name := Failed]> (checks a);
          errors := (errors a ++ [{| ve_code := name; ve_message := message |}])%list |}.

Definition mark_request_route_unproven (a : Audit) : Audit :=
  insert_check "route_binding" NotSupported (insert_check "request_route_binding" NotSupported a).

(** ** What the policy requires *)

Definition provenance_required (p : ProvenanceRequirement) : bool :=
  workload_image p || model_artifacts_required p || reproducible_build p || source_attestation p
  || dependency_sbom p.

Definition cpu_required (policy : VerificationPolicy) : bool :=
  match hw_cpu (hardware policy) with CpuNotRequired => false | _ => true end.
Definition gpu_required (policy : VerificationPolicy) : bool :=
  match hw_gpu (hardware policy) with GpuNotRequired => false | _ => true end.
Definition channel_required (policy : VerificationPolicy) : bool :=
  negb (channel_binding_requirement policy =?= ChannelNotRequired).
Definition per_request (policy : VerificationPolicy) : bool := freshness policy =?= PerRequest.

Definition check_is_required (name : string) (state : CheckResult) (policy : VerificationPolicy) : bool :=
  if state =?= Failed then true
  else if state =?= NotApplicable then false
  else
  let provenance_required := provenance_required (provenance policy) in
  if contains ["route_metadata_binding"; "tcb_compose_hash"; "response_signing_key_binding"] name then true
  else if contains ["cpu_tee"; "cpu_measurement_reference"] name then cpu_required policy
  else if contains ["gpu_tee"] name then gpu_required policy
  else if contains ["tls_binding"; "e2ee_key_binding"; "e2ee_key_reference_match"] name
  then channel_required policy
  else if contains ["request_key_binding"; "request_encryption"] name
  then negb (request_confidentiality_requirement policy =?= DataNotRequired)
  else if contains ["response_key_binding"; "response_encryption"] name
  then negb (response_confidentiality_requirement policy =?= DataNotRequired)
  else if contains ["response_channel_binding"; "response_receipt"] name
  then negb (response_integrity_requirement policy =?= IntegrityNotRequired)
  else if contains ["nonce_binding"; "per_request_freshness"] name then per_request policy
  else if contains ["model_binding"] name
  then (model_binding_requirement policy =?= ModelRequired)
       || ((model_binding_requirement policy =?= IfProviderSupports)
           && negb (match state with NotSupported | NotApplicable => true | _ => false end))
  else if contains ["workload_manifest_binding"; "image_provenance"] name
  then workload_image (provenance policy) || provenance_required
  else if contains ["model_artifact_provenance"] name
  then model_artifacts_required (provenance policy) || provenance_required
  else if contains ["sigstore"] name then reproducible_build (provenance policy)
  else if contains ["contrast_manifest"] name
  then source_attestation (provenance policy) || dependency_sbom (provenance policy)
  else false.

(** A check that blocks the request under enforcement. *)
Definition check_blocks (policy : VerificationPolicy) (entry : string * CheckResult) : bool :=
  let '(name, state) := entry in
  (state =?= Failed)
  || (match state with NotSupported | Unknown => true | _ => false end
      && check_is_required name state policy).

Definition enforcement_would_block (checks : gmap string CheckResult) (policy : VerificationPolicy)
    : bool := btree_any (check_blocks policy) checks.

(** ** Outcomes *)

Definition check_evidence_refs (name : string) : list string :=
  let refs := ["policy_digest"] in
  let refs :=
    if contains ["route_metadata_binding"; "request_route_binding"; "route_binding";
                 "cpu_measurement_reference"; "e2ee_key_reference_match"; "image_provenance";
                 "model_artifact_provenance"; "response_signing_key_binding"; "tls_binding"] name
    then (refs ++ ["provider_registry_digest"; "reference_values_digest"])%list else refs in
  let refs :=
    if contains ["request_route_binding"; "route_binding"] name then refs
    else (refs ++ ["raw_evidence_digest"])%list in
  dedup (sort_by str_cmp refs).

Definition default_detail (state : CheckResult) : string :=
  match state with
  | Verified => "check verified against the cited evidence"
  | Failed => "required check failed without detail"
  | NotApplicable => "check is not applicable to the active policy and route"
  | NotSupported => "the selected evidence path cannot directly prove this check"
  | Unknown => "available evidence is insufficient to determine this check"
  end.

Definition check_outcome (errors : list VerdictError) (policy : VerificationPolicy) (name : string)
    (state : CheckResult) : CheckOutcome :=
  {| co_state := state;
     co_required := check_is_required name state policy;
     co_detail := match List.find (λ error, ve_code error =?= name) errors with
                  | Some error => ve_message error
                  | None => default_detail state
                  end;
     co_evidence_refs := check_evidence_refs name |}.

Definition build_check_outcomes (checks : gmap string CheckResult) (errors : list VerdictError)
    (policy : VerificationPolicy) : gmap string CheckOutcome :=
  map_imap (λ name state, Some (check_outcome errors policy name state)) checks.

(** ** Attribution *)

Definition unknown_party (role : RoutePartyRole) (detail : string) : RoutePartyAttribution :=
  {| pa_role := role; pa_party_id := None; pa_source := SourceUnknown; pa_detail := detail;
     pa_evidence_refs := [] |}.

Definition build_route_attribution (request : VerificationRequest) (tee_platform : option string)
    : RouteAttribution :=
  {| parties :=
       [{| pa_role := InferenceProvider; pa_party_id := Some (rt_provider (rq_route request));
           pa_source := SignedRegistry;
           pa_detail := "provider identity is selected directly from the signed registry route";
           pa_evidence_refs := ["provider_registry_digest"] |};
        {| pa_role := RegistryAuthority; pa_party_id := Some (sm_signer (rq_registry_signature request));
           pa_source := SignedRegistry;
           pa_detail := "authority identity is taken from the verified registry signature metadata";
           pa_evidence_refs := ["provider_registry_digest"] |};
        {| pa_role := ReferenceValuesAuthority;
           pa_party_id := Some (rv_issuer (rq_reference_values request));
           pa_source := SignedReferenceValues;
           pa_detail := "authority identity is taken from the signed reference-values issuer";
           pa_evidence_refs := ["reference_values_digest"] |};
        unknown_party WorkloadOperator
          "workload-operator identity is not directly asserted by the current evidence";
        match tee_platform with
        | None => unknown_party TeePlatform "the evidence does not identify a TEE platform directly"
        | Some platform =>
            {| pa_role := TeePlatform; pa_party_id := Some platform; pa_source := AttestedEvidence;
               pa_detail := "TEE kind is taken directly from parsed evidence; consult the hardware checks for verification state";
               pa_evidence_refs := ["raw_evidence_digest"] |}
        end;
        unknown_party CloudHost "cloud-host identity is not directly asserted by the current evidence"] |}.

(** ** Checks shared by the families *)

Definition push_model_binding_check (requirement : ModelBindingRequirement)
    (provider_supports_model_binding model_binding_verified : bool) (a : Audit)
    : Audit * ModelBindingResult :=
  let attempt :=
    let verified := provider_supports_model_binding && model_binding_verified in
    (push_check "model_binding" verified
       "attested model identity does not match the requested canonical model" a,
     if verified then ModelVerified else ModelFailed) in
  match requirement with
  | ModelNotRequired => (insert_check "model_binding" NotApplicable a, ModelNotSupported)
  | IfProviderSupports =>
      if negb provider_supports_model_binding
      then (insert_check "model_binding" NotSupported a, ModelNotSupported)
      else attempt
  | ModelRequired => attempt
  end.

Definition push_unsupported_provenance_checks (policy : VerificationPolicy) (a : Audit) : Audit :=
  let a :=
    if reproducible_build (provenance policy)
    then push_check "sigstore" false
           "reproducible-build provenance is required but no verified build attestation is present" a
    else insert_check "sigstore" NotApplicable a in
  if source_attestation (provenance policy) || dependency_sbom (provenance policy)
  then push_check "contrast_manifest" false
         "source-attestation or dependency-SBOM provenance is required but no verified evidence is present" a
  else insert_check "contrast_manifest" NotApplicable a.

Definition push_per_request_freshness_check (policy : VerificationPolicy) (a : Audit) : Audit :=
  if negb (freshness policy =?= PerRequest) then a
  else
    let freshness_verified :=
      (checks a !! "nonce_binding" =?= Some Verified)
      || (checks a !! "response_receipt" =?= Some Verified) in
    push_check "per_request_freshness" freshness_verified
      "per-request freshness policy requires a verified nonce binding or response receipt" a.

Definition freshness_nonce_matches_policy (policy : VerificationPolicy) (expected_nonce : option string)
    (evidence_nonce : string) : bool :=
  match expected_nonce with
  | Some expected_nonce => expected_nonce =?= evidence_nonce
  | None => negb (freshness policy =?= PerRequest)
  end.

Definition strip_sha256_prefix (value : string) : option string :=
  let hex := default value (strip_prefix "sha256:" value) in
  if (String.length hex =? 64)%nat && all_bytes is_ascii_hexdigit hex then Some hex else None.

(** The route metadata check every family starts with. *)
Definition route_metadata_matches (provider route_id evidence_family : string) (route : AttestedRoute)
    (reference : RouteReference) : bool :=
  (provider =?= rt_provider route) && (route_id =?= rt_route_id route)
  && (evidence_family =?= rt_evidence_family route)
  && (rr_provider_model reference =?= rt_provider_model route)
  && (rr_canonical_model reference =?= rt_canonical_model route)
  && (rr_evidence_family reference =?= rt_evidence_family route).

Definition push_route_metadata (provider route_id evidence_family : string) (route : AttestedRoute)
    (reference : RouteReference) (a : Audit) : Audit :=
  mark_request_route_unproven
    (push_check "route_metadata_binding"
       (route_metadata_matches provider route_id evidence_family route reference)
       "evidence route metadata does not match registry/reference route" a).

Definition measurement_accepted (provider : ProviderReference) (measurement : string) : bool :=
  existsb (λ m, m =?= measurement) (pr_accepted_measurements provider).

(** The policy's CPU requirement against a claimed kind and measurement. *)
Definition cpu_reference_match (requirement : CpuTeeRequirement) (cpu : CpuTeeKind)
    (measurement : string) (provider : ProviderReference) (route : RouteReference) : bool :=
  match requirement with
  | CpuNotRequired => true
  | AnyCpuTee => cpu_allowed cpu (rr_accepted_cpu_tees route) && measurement_accepted provider measurement
  | CpuOneOf allowed =>
      existsb (λ candidate, candidate =?= cpu) allowed
      && cpu_allowed cpu (rr_accepted_cpu_tees route) && measurement_accepted provider measurement
  end.

(** Families whose hardware claims come with a verified quote: the check is
    made; the flag tells whether the hardware requirement is met. *)
Definition push_verified_cpu (requirement : CpuTeeRequirement) (ok : bool) (any_message one_of_message : string)
    (a : Audit) : Audit * bool :=
  match requirement with
  | CpuNotRequired => (insert_check "cpu_tee" NotApplicable a, true)
  | AnyCpuTee => (push_check "cpu_tee" ok any_message a, ok)
  | CpuOneOf _ => (push_check "cpu_tee" ok one_of_message a, ok)
  end.

(** Families that only compare claims: a required CPU TEE always fails. *)
Definition push_claimed_cpu (requirement : CpuTeeRequirement) (reference_match : bool) (message : string)
    (a : Audit) : Audit * bool :=
  match requirement with
  | CpuNotRequired =>
      (insert_check "cpu_measurement_reference" NotApplicable (insert_check "cpu_tee" NotApplicable a), true)
  | _ =>
      let a := push_check "cpu_tee" false message a in
      (push_check "cpu_measurement_reference" reference_match
         "claimed CPU TEE kind or measurement is not accepted by policy/reference values" a, false)
  end.

Definition bound_or_not (bound : bool) (result : ConfidentialityResult) : ConfidentialityResult :=
  if bound then result else ConfNotBound.
Definition integrity_or_not (bound : bool) : ResponseIntegrityResult :=
  if bound then RespChannelBound else RespNotBound.

(** The six request and response checks of a family with a channel verdict:
    key bindings against the policy, encryption by the evidence alone. *)
Definition push_data_checks (policy : VerificationPolicy)
    (request_result response_result : ConfidentialityResult) (integrity : ResponseIntegrityResult)
    (request_bound response_bound : bool) (a : Audit) : Audit :=
  let a := push_check "request_key_binding"
             (confidentiality_satisfies request_result (request_confidentiality_requirement policy))
             "request confidentiality is not bound to the attested workload" a in
  let a := insert_check "request_encryption" (if request_bound then Verified else Failed) a in
  let a := push_check "response_key_binding"
             (confidentiality_satisfies response_result (response_confidentiality_requirement policy))
             "response confidentiality is not bound to the attested workload" a in
  let a := insert_check "response_encryption" (if response_bound then Verified else Failed) a in
  let a := push_check "response_channel_binding"
             (integrity_satisfies integrity (response_integrity_requirement policy))
             "response bytes are not cryptographically bound as required by policy" a in
  insert_check "response_receipt" NotApplicable a.

Definition artifacts_present (expected actual : list ArtifactDigest) : bool :=
  forallb (λ e, existsb (λ a, a =?= e) actual) expected.

(** Image and model-artifact provenance against the route reference. *)
Definition push_provenance_checks (policy : VerificationPolicy) (image_ok artifacts_ok : bool)
    (a : Audit) : Audit :=
  if provenance_required (provenance policy) then
    push_check "model_artifact_provenance" artifacts_ok
      "model artifact digests do not match reference values"
      (push_check "image_provenance" image_ok "workload image digest does not match reference values" a)
  else insert_check "model_artifact_provenance" NotApplicable
         (insert_check "image_provenance" NotApplicable a).

(** The closing checks of every family. *)
Definition push_final_checks (policy : VerificationPolicy) (a : Audit) : Audit :=
  push_per_request_freshness_check policy (push_unsupported_provenance_checks policy a).

(** ** Validity *)

Record ComputedValidityBounds := {
  cv_policy_ttl_until : string;
  cv_expires_at : string;
  cv_expires_at_epoch_ms : Z;
}.

Definition earlier (current candidate : Z * string) : Z * string :=
  if (candidate.1 <? current.1)%Z then candidate else current.

(** [now] is the wall clock in milliseconds. *)
Definition compute_validity_bounds (now : Z) (issued_at : string) (policy_ttl_millis : Z)
    (wall_clock_ttl_bound : option Z) (candidates : list (Z * string)) : Result ComputedValidityBounds :=
  issued ← parse_utc_timestamp_millis issued_at;
  let policy_ttl_epoch_ms := saturating_add issued policy_ttl_millis in
  let policy_ttl_until := format_utc_timestamp_millis policy_ttl_epoch_ms in
  let expires := fold_left earlier candidates (policy_ttl_epoch_ms, policy_ttl_until) in
  let expires :=
    match wall_clock_ttl_bound with
    | Some ttl_millis =>
        let wall_clock_epoch_ms := saturating_add now ttl_millis in
        earlier expires (wall_clock_epoch_ms, format_utc_timestamp_millis wall_clock_epoch_ms)
    | None => expires
    end in
  Ok {| cv_policy_ttl_until := policy_ttl_until; cv_expires_at := expires.2;
        cv_expires_at_epoch_ms := expires.1 |}.

(** The candidates of every family: evidence, route reference, payload. *)
Definition validity_candidates (expires_at_epoch_ms : Z) (expires_at : string) (route : RouteReference)
    (p : ReferenceValuesPayload) : list (Z * string) :=
  [(expires_at_epoch_ms, expires_at); (rr_valid_until_epoch_ms route, rr_valid_until route);
   (rv_valid_until_epoch_ms p, rv_valid_until p)].

(** ** The verdict *)

Definition request_allowed (mode : EnforcementMode) (would_block : bool) : bool :=
  match mode with Disabled | Observe => true | Enforce => negb would_block end.

Definition verdict_status (mode : EnforcementMode) (would_block proved : bool) : VerificationStatus :=
  match mode with
  | Disabled => StatusDisabled
  | _ => if would_block then StatusFailed else if proved then StatusVerified else StatusPartial
  end.

(** What the families fill into the common verdict literal. *)
Record VerdictParts := {
  vp_audit : Audit;
  vp_tee_platform : option string;
  vp_proved : bool;
  vp_trust_tier : TrustTier;
  vp_model_binding_result : ModelBindingResult;
  vp_request_channel_bound : bool;
  vp_request_confidentiality_result : ConfidentialityResult;
  vp_response_confidentiality_result : ConfidentialityResult;
  vp_response_channel_bound : bool;
  vp_response_integrity_result : ResponseIntegrityResult;
  vp_policy_digest : string;
  vp_raw_evidence_digest : string;
  vp_evidence_digest : string;
  vp_issued_at : string;
  vp_validity : ComputedValidityBounds;
  vp_evidence_until : string;
  vp_artifacts : VerdictArtifacts;
}.

Definition build_verdict (request : VerificationRequest) (p : VerdictParts) : AttestationVerdict :=
  let route := rq_route request in
  let policy := rq_policy request in
  let checks := checks (vp_audit p) in
  let would_block := enforcement_would_block checks policy in {|
  v_schema := VERDICT_SCHEMA; v_required := []; v_policy_schema := POLICY_SCHEMA;
  v_reference_values_schema := REFERENCE_VALUES_SCHEMA;
  v_provider_registry_schema := "confidential-inference.provider-registry.v1";
  v_status := verdict_status (enforcement policy) would_block (vp_proved p);
  v_enforcement := enforcement policy;
  v_request_allowed := request_allowed (enforcement policy) would_block;
  v_would_block_under_enforce := would_block;
  v_trust_tier := vp_trust_tier p;
  v_provider := rt_provider route; v_requested_model := rt_requested_model route;
  v_provider_model := rt_provider_model route; v_canonical_model := rt_canonical_model route;
  v_route_id := rt_route_id route; v_evidence_family := rt_evidence_family route;
  v_alias_confidence := rt_alias_confidence route; v_adapter_version := rt_adapter_version route;
  v_api_endpoint := rt_api_endpoint route; v_evidence_endpoint := rt_evidence_endpoint route;
  v_freshness_class := rt_freshness_class route; v_streaming_allowed := rt_streaming_allowed route;
  v_route_execution_status := rq_route_execution_status request;
  v_chat_executable := rq_chat_executable request;
  v_known_unsupported_modes := rq_known_unsupported_modes request;
  v_channel_binding_kind := rt_channel_binding_kind route;
  v_model_binding_result := vp_model_binding_result p;
  v_request_channel_bound := vp_request_channel_bound p;
  v_request_confidentiality_result := vp_request_confidentiality_result p;
  v_response_confidentiality_result := vp_response_confidentiality_result p;
  v_response_channel_bound := vp_response_channel_bound p;
  v_response_integrity_result := vp_response_integrity_result p;
  v_policy_digest := vp_policy_digest p;
  v_provider_registry_digest := rq_registry_digest request;
  v_registry_version := rq_registry_version request; v_registry_source := rq_registry_source request;
  v_registry_sync_completed_at := rq_registry_sync_completed_at request;
  v_registry_signature := rq_registry_signature request;
  v_reference_values_digest := rq_reference_values_digest request;
  v_reference_values_version := rv_version (rq_reference_values request);
  v_reference_values_source := rq_reference_values_source request;
  v_reference_values_signature := rq_reference_signature request;
  v_raw_evidence_digest := vp_raw_evidence_digest p; v_evidence_digest := vp_evidence_digest p;
  v_verified_at := vp_issued_at p; v_expires_at := cv_expires_at (vp_validity p);
  v_expires_at_epoch_ms := cv_expires_at_epoch_ms (vp_validity p);
  v_validity := {|
    policy_ttl_until := cv_policy_ttl_until (vp_validity p);
    collateral_valid_until := vp_evidence_until p; certificate_valid_until := vp_evidence_until p;
    quote_valid_until := vp_evidence_until p; tcb_valid_until := vp_evidence_until p;
    reference_values_valid_until := rv_valid_until (rq_reference_values request);
    computed_expires_at := cv_expires_at (vp_validity p) |};
  v_checks := checks;
  v_check_outcomes := build_check_outcomes checks (errors (vp_audit p)) policy;
  v_route_attribution := Some (build_route_attribution request (vp_tee_platform p));
  v_artifacts := vp_artifacts p; v_errors := errors (vp_audit p) |}.

(** [verdict.validate_summary_consistency()?; Ok(verdict)]. *)
Definition finish_verdict (request : VerificationRequest) (p : VerdictParts) : Result AttestationVerdict :=
  let verdict := build_verdict request p in
  _ ← validate_summary_consistency verdict;
  Ok verdict.

(** ** The enforcement rule *)

Section Enforcement.
Context (policy : VerificationPolicy).

Lemma would_block_false m :
  enforcement_would_block m policy = false ↔
    ∀ name state, m !! name = Some state → check_blocks policy (name, state) = false.
Proof. apply btree_any_false. Qed.

Lemma would_block_insert m name state :
  m !! name = None →
  enforcement_would_block (<[name := state]> m) policy
  = check_blocks policy (name, state) || enforcement_would_block m policy.
Proof.
  intros Hn. apply eq_bool_prop_intro. rewrite !Is_true_true. unfold enforcement_would_block.
  rewrite orb_true_iff, !btree_any_true. split.
  - intros (k & s & Hk & Hb). apply lookup_insert_Some in Hk as [[<- <-]|[? ?]]; eauto.
  - intros [Hb|(k & s & Hk & Hb)].
    + exists name, state. by rewrite lookup_insert_eq.
    + exists k, s. split; [|done]. apply lookup_insert_Some. right. split; [congruence|done].
Qed.

Lemma would_block_empty : enforcement_would_block ∅ policy = false.
Proof. reflexivity. Qed.

(** A check that does not block: not failed, and verified when required. *)
Lemma check_blocks_false name state :
  check_blocks policy (name, state) = false ↔
    state ≠ Failed ∧ (check_is_required name state policy = true → state = Verified).
Proof.
  unfold check_blocks.
  assert (check_is_required name NotApplicable policy = false) as Hna by reflexivity.
  destruct state; (case_bool_decide; [|]; try done); cbn [andb orb]; rewrite ?Hna.
  all: try (by split).
  all: clear Hna; destruct (check_is_required _ _ policy); intuition congruence.
Qed.
End Enforcement.

(** ** The built verdict *)

Lemma outcomes_lookup m errs policy name :
  build_check_outcomes m errs policy !! name = check_outcome errs policy name <$> (m !! name).
Proof.
  unfold build_check_outcomes. rewrite map_lookup_imap. by destruct (m !! name).
Qed.

Lemma outcomes_size m errs policy : size (build_check_outcomes m errs policy) = size m.
Proof.
  rewrite <-!size_dom. f_equal. apply leibniz_equiv. intros x.
  by rewrite !elem_of_dom, outcomes_lookup, fmap_is_Some.
Qed.

(** The two readings of the enforcement rule agree: the verifier's, on checks
    and policy, and the verdict audit's, on checks and outcomes. *)
Lemma would_block_outcomes m errs policy :
  enforcement_would_block m policy = any_failed m || any_unproven (build_check_outcomes m errs policy).
Proof.
  apply eq_bool_prop_intro. rewrite !Is_true_true, orb_true_iff.
  unfold enforcement_would_block, any_failed, any_unproven. rewrite !btree_any_true. split.
  - intros (k & s & Hk & [Hb|Hb]%orb_true_iff); [left; eauto|right].
    exists k, (check_outcome errs policy k s). rewrite outcomes_lookup, Hk. split; [done|].
    unfold outcome_unproven. cbn. apply andb_true_iff in Hb as [Hs Hr]. by rewrite Hr, Hs.
  - intros [(k & s & Hk & Hb)|(k & o & Hk & Hb)].
    + exists k, s. split; [done|]. cbn. by rewrite Hb.
    + rewrite outcomes_lookup in Hk. destruct (m !! k) as [s|] eqn:E; [|done]. injection Hk as <-.
      exists k, s. split; [done|]. unfold outcome_unproven in Hb. cbn in Hb |- *.
      apply andb_true_iff in Hb as [Hr Hs]. rewrite Hr, Hs. apply orb_true_r.
Qed.

Lemma built_enforcement_ok request p : validate_enforcement_summary (build_verdict request p) = Ok tt.
Proof.
  unfold validate_enforcement_summary. cbn.
  rewrite <-would_block_outcomes. unfold request_allowed, verdict_status.
  destruct (enforcement_would_block _ _), (enforcement (rq_policy request)), (vp_proved p); reflexivity.
Qed.

Lemma evidence_refs_ok name : validate_evidence_refs (check_evidence_refs name) = Ok tt.
Proof.
  unfold check_evidence_refs.
  destruct (contains ["route_metadata_binding"; _; _; _; _; _; _; _; _] name),
    (contains ["request_route_binding"; _] name); vm_compute; reflexivity.
Qed.

Definition messages_ok (errs : list VerdictError) : Prop :=
  Forall (λ e, is_empty (trim (ve_message e)) = false) errs.

Lemma outcome_detail_ok errs policy name state :
  messages_ok errs → is_empty (trim (co_detail (check_outcome errs policy name state))) = false.
Proof.
  intros H. cbn. destruct (List.find _ errs) as [e|] eqn:E; [|by destruct state].
  apply List.find_some in E as [Hin _]. unfold messages_ok in H. rewrite List.Forall_forall in H. by apply H.
Qed.

Lemma built_structured_ok request p :
  messages_ok (errors (vp_audit p)) → validate_structured_checks (build_verdict request p) = Ok tt.
Proof.
  intros Hm. unfold validate_structured_checks. cbn [v_check_outcomes v_checks build_verdict].
  rewrite outcomes_size. destruct (_ =? 0)%nat; [done|]. rewrite Nat.eqb_refl. cbn [negb].
  apply btree_for_each. intros name state Hn. unfold validate_structured_check.
  rewrite outcomes_lookup, Hn. cbn [fmap option_fmap option_map ok_or].
  rewrite ok_bind, (outcome_detail_ok _ _ _ _ Hm), bool_decide_true by done. cbn [negb].
  cbn [check_outcome co_required co_state co_evidence_refs].
  rewrite evidence_refs_ok. destruct state; rewrite ?andb_false_r; done.
Qed.

Lemma named_party_ok role id source detail refs :
  source ≠ SourceUnknown → is_empty (trim id) = false → is_empty (trim detail) = false →
  validate_evidence_refs refs = Ok tt →
  validate_party {| pa_role := role; pa_party_id := Some id; pa_source := source; pa_detail := detail;
                    pa_evidence_refs := refs |} = Ok tt.
Proof.
  intros Hs Hid Hd Hr. unfold validate_party.
  cbn [pa_detail pa_source pa_party_id pa_evidence_refs]. rewrite Hd, Hid. by destruct source.
Qed.

Lemma built_attribution_ok request p :
  is_empty (trim (rt_provider (rq_route request))) = false →
  is_empty (trim (sm_signer (rq_registry_signature request))) = false →
  is_empty (trim (rv_issuer (rq_reference_values request))) = false →
  (∀ t, vp_tee_platform p = Some t → is_empty (trim t) = false) →
  validate_route_attribution (build_verdict request p) = Ok tt.
Proof.
  intros H1 H2 H3 H4. unfold validate_route_attribution.
  cbn [v_route_attribution build_verdict build_route_attribution parties v_provider].
  match goal with |- context [for_each validate_party ?l] =>
    assert (for_each validate_party l = Ok tt) as ->; [|assert (map pa_role l = expected_roles) as ->] end.
  - apply for_each_Ok. repeat constructor;
      try (apply named_party_ok; [done | done | vm_compute; reflexivity..]).
    destruct (vp_tee_platform p) as [t|]; [|vm_compute; reflexivity].
    apply named_party_ok; [done | by apply H4 | vm_compute; reflexivity..].
  - by destruct (vp_tee_platform p).
  - change (dedup (sort_by role_cmp expected_roles)) with expected_roles. cbn.
    by rewrite !bool_decide_true.
Qed.

(** The digests of a built verdict are well formed when the request's are. *)
Definition digests_ok (request : VerificationRequest) : Prop :=
  validate_sha256_digest (rq_registry_digest request) = Ok tt
  ∧ validate_sha256_digest (rq_reference_values_digest request) = Ok tt
  ∧ validate_one_signature (rq_registry_signature request) = Ok tt
  ∧ validate_one_signature (rq_reference_signature request) = Ok tt.

(** ** What any family's verdict guarantees *)

Lemma finish_Ok request p v :
  finish_verdict request p = Ok v → v = build_verdict request p ∧ validate_summary_consistency v = Ok tt.
Proof. unfold finish_verdict. intros H. by inv_ok. Qed.

Lemma finished_allowed request p v :
  finish_verdict request p = Ok v → enforcement (rq_policy request) = Enforce →
  v_request_allowed v = negb (enforcement_would_block (checks (vp_audit p)) (rq_policy request)).
Proof. intros [-> _]%finish_Ok He. cbn. by rewrite He. Qed.

(** ** Step-by-step reading of an audit

    For each step: which checks it leaves alone, and when it makes the audit
    block. *)

Definition fresh (name : string) (a : Audit) : Prop := checks a !! name = None.
Definition all_fresh (names : list string) (a : Audit) : Prop := Forall (λ n, fresh n a) names.
Definition blocked (policy : VerificationPolicy) (a : Audit) : bool :=
  enforcement_would_block (checks a) policy.

Section Steps.
Context (policy : VerificationPolicy).

Lemma lookup_insert_check name n state a :
  checks (insert_check n state a) !! name = if name =?= n then Some state else checks a !! name.
Proof.
  cbn. case_bool_decide; subst; [apply lookup_insert_eq | by apply lookup_insert_ne].
Qed.
Lemma lookup_push_check name n ok msg a :
  checks (push_check n ok msg a) !! name
  = if name =?= n then Some (if ok then Verified else Failed) else checks a !! name.
Proof. destruct ok; apply (lookup_insert_check name n). Qed.

Lemma blocked_insert name state a :
  fresh name a → blocked policy (insert_check name state a) = check_blocks policy (name, state) || blocked policy a.
Proof. apply would_block_insert. Qed.
Lemma blocked_push name ok msg a :
  fresh name a → blocked policy (push_check name ok msg a) = negb ok || blocked policy a.
Proof.
  intros H. destruct ok; [apply (blocked_insert name Verified a H) | apply (blocked_insert name Failed a H)].
Qed.
Lemma blocked_na name a :
  fresh name a → blocked policy (insert_check name NotApplicable a) = blocked policy a.
Proof. apply blocked_insert. Qed.
Lemma blocked_bool name (b : bool) a :
  fresh name a → blocked policy (insert_check name (if b then Verified else Failed) a) = negb b || blocked policy a.
Proof. intros H. rewrite blocked_insert by done. by destruct b. Qed.
End Steps.

(** [fresh_tac]: a name not touched so far. *)
Create Rewrite HintDb audit_lookup.
#[export] Hint Rewrite lookup_insert_check lookup_push_check : audit_lookup.
Ltac fresh_tac :=
  unfold all_fresh, fresh in *;
  repeat match goal with H : Forall _ (_ :: _) |- _ => apply List.Forall_cons_iff in H as [? H] end;
  autorewrite with audit_lookup; cbn; try done; try assumption.

Lemma lookup_route_metadata name p r f route reference a :
  contains ["route_metadata_binding"; "request_route_binding"; "route_binding"] name = false →
  checks (push_route_metadata p r f route reference a) !! name = checks a !! name.
Proof.
  unfold push_route_metadata, mark_request_route_unproven. intros H. autorewrite with audit_lookup.
  cbn in H. bools. rewrite !bool_decide_false by intuition congruence. done.
Qed.
Lemma blocked_route_metadata policy p r f route reference a :
  all_fresh ["route_metadata_binding"; "request_route_binding"; "route_binding"] a →
  blocked policy (push_route_metadata p r f route reference a)
  = negb (route_metadata_matches p r f route reference) || blocked policy a.
Proof.
  intros H. unfold push_route_metadata, mark_request_route_unproven.
  rewrite !blocked_insert, blocked_push by fresh_tac. done.
Qed.

Lemma lookup_data_checks name policy rq rs i b1 b2 a :
  contains ["request_key_binding"; "request_encryption"; "response_key_binding"; "response_encryption";
            "response_channel_binding"; "response_receipt"] name = false →
  checks (push_data_checks policy rq rs i b1 b2 a) !! name = checks a !! name.
Proof.
  unfold push_data_checks. intros H. autorewrite with audit_lookup.
  cbn in H. bools. rewrite !bool_decide_false by intuition congruence. done.
Qed.
Lemma blocked_data_checks policy rq rs i b1 b2 a :
  all_fresh ["request_key_binding"; "request_encryption"; "response_key_binding"; "response_encryption";
             "response_channel_binding"; "response_receipt"] a →
  blocked policy (push_data_checks policy rq rs i b1 b2 a)
  = negb (confidentiality_satisfies rq (request_confidentiality_requirement policy) && b1
          && confidentiality_satisfies rs (response_confidentiality_requirement policy) && b2
          && integrity_satisfies i (response_integrity_requirement policy))
    || blocked policy a.
Proof.
  intros H. unfold push_data_checks.
  rewrite blocked_na, blocked_push, blocked_bool, blocked_push, blocked_bool, blocked_push by fresh_tac.
  by destruct (confidentiality_satisfies rq _), b1, (confidentiality_satisfies rs _), b2, (integrity_satisfies i _).
Qed.

Lemma lookup_provenance name policy i m a :
  contains ["image_provenance"; "model_artifact_provenance"] name = false →
  checks (push_provenance_checks policy i m a) !! name = checks a !! name.
Proof.
  unfold push_provenance_checks. intros H. cbn in H. bools.
  destruct (provenance_required (provenance policy)); autorewrite with audit_lookup;
    by rewrite !bool_decide_false by intuition congruence.
Qed.
Lemma blocked_provenance policy i m a :
  all_fresh ["image_provenance"; "model_artifact_provenance"] a →
  blocked policy (push_provenance_checks policy i m a)
  = (provenance_required (provenance policy) && negb (i && m)) || blocked policy a.
Proof.
  intros H. unfold push_provenance_checks. destruct (provenance_required _).
  - rewrite !blocked_push by fresh_tac. by destruct i, m.
  - by rewrite !blocked_na by fresh_tac.
Qed.

(** When the model requirement is met. *)
Definition model_requirement_met (requirement : ModelBindingRequirement) (supports verified : bool) : bool :=
  match requirement with
  | ModelNotRequired => true
  | IfProviderSupports => negb supports || verified
  | ModelRequired => supports && verified
  end.

Lemma lookup_model_binding name r s v a :
  contains ["model_binding"] name = false →
  checks (push_model_binding_check r s v a).1 !! name = checks a !! name.
Proof.
  intros H. cbn in H. bools. destruct H as [H _].
  unfold push_model_binding_check. destruct r, s; cbn [negb fst]; autorewrite with audit_lookup;
    by rewrite bool_decide_false by congruence.
Qed.
Lemma blocked_model_binding policy s v a :
  fresh "model_binding" a →
  blocked policy (push_model_binding_check (model_binding_requirement policy) s v a).1
  = negb (model_requirement_met (model_binding_requirement policy) s v) || blocked policy a.
Proof.
  intros H. unfold push_model_binding_check.
  destruct (model_binding_requirement policy) eqn:E, s; cbn [negb fst andb model_requirement_met];
    rewrite ?blocked_na, ?blocked_push by done; try done.
  rewrite blocked_insert by done. unfold check_blocks, check_is_required. rewrite E. done.
Qed.

Lemma lookup_final name policy a :
  contains ["sigstore"; "contrast_manifest"; "per_request_freshness"] name = false →
  checks (push_final_checks policy a) !! name = checks a !! name.
Proof.
  intros H. cbn in H. bools. unfold push_final_checks, push_per_request_freshness_check,
    push_unsupported_provenance_checks.
  destruct (negb (freshness policy =?= PerRequest)), (reproducible_build (provenance policy)),
    (source_attestation (provenance policy) || dependency_sbom (provenance policy));
    autorewrite with audit_lookup; by rewrite !bool_decide_false by intuition congruence.
Qed.
Lemma blocked_final policy a :
  all_fresh ["sigstore"; "contrast_manifest"; "per_request_freshness"] a →
  blocked policy (push_final_checks policy a)
  = (reproducible_build (provenance policy) || source_attestation (provenance policy)
     || dependency_sbom (provenance policy)
     || (per_request policy
         && negb ((checks a !! "nonce_binding" =?= Some Verified)
                  || (checks a !! "response_receipt" =?= Some Verified))))
    || blocked policy a.
Proof.
  intros H. unfold push_final_checks, push_per_request_freshness_check,
    push_unsupported_provenance_checks, per_request.
  destruct (freshness policy =?= PerRequest) eqn:Ef; cbn [negb].
  - rewrite blocked_push by (destruct (reproducible_build _), (_ || _); fresh_tac).
    destruct (reproducible_build _), (source_attestation _), (dependency_sbom _); cbn [orb];
      rewrite ?blocked_push, ?blocked_na, ?blocked_push, ?blocked_na by fresh_tac;
      autorewrite with audit_lookup; cbn; by rewrite ?orb_true_r.
  - destruct (reproducible_build _), (source_attestation _), (dependency_sbom _); cbn [orb];
      rewrite ?blocked_push, ?blocked_na, ?blocked_push, ?blocked_na by fresh_tac; done.
Qed.

Lemma blocked_verified_cpu policy ok m1 m2 a :
  fresh "cpu_tee" a →
  blocked policy (push_verified_cpu (hw_cpu (hardware policy)) ok m1 m2 a).1
  = (cpu_required policy && negb ok) || blocked policy a.
Proof.
  intros H. unfold push_verified_cpu, cpu_required.
  destruct (hw_cpu (hardware policy)); cbn [fst]; by rewrite ?blocked_na, ?blocked_push by done.
Qed.
Lemma lookup_verified_cpu name r ok m1 m2 a :
  contains ["cpu_tee"] name = false →
  checks (push_verified_cpu r ok m1 m2 a).1 !! name = checks a !! name.
Proof.
  intros H. cbn in H. bools. unfold push_verified_cpu. destruct r; cbn [fst]; autorewrite with audit_lookup;
    by rewrite bool_decide_false by intuition congruence.
Qed.

(** The end-to-end key check: not applicable unless the policy asks for a
    channel. *)
Definition push_channel_key (requirement : ChannelBindingRequirement) (verified : bool) (message : string)
    (a : Audit) : Audit :=
  match requirement with
  | ChannelNotRequired => insert_check "e2ee_key_binding" NotApplicable a
  | _ => push_check "e2ee_key_binding" verified message a
  end.

Lemma blocked_channel_key policy verified message a :
  fresh "e2ee_key_binding" a →
  blocked policy (push_channel_key (channel_binding_requirement policy) verified message a)
  = (channel_required policy && negb verified) || blocked policy a.
Proof.
  intros H. unfold push_channel_key, channel_required.
  destruct (channel_binding_requirement policy); rewrite ?blocked_na, ?blocked_push by done; done.
Qed.
Lemma lookup_channel_key name r verified message a :
  contains ["e2ee_key_binding"] name = false →
  checks (push_channel_key r verified message a) !! name = checks a !! name.
Proof.
  intros H. cbn in H. bools. unfold push_channel_key.
  destruct r; autorewrite with audit_lookup; by rewrite bool_decide_false by intuition congruence.
Qed.

Lemma blocked_claimed_cpu policy ok m a :
  all_fresh ["cpu_tee"; "cpu_measurement_reference"] a →
  blocked policy (push_claimed_cpu (hw_cpu (hardware policy)) ok m a).1
  = cpu_required policy || blocked policy a.
Proof.
  intros H. unfold push_claimed_cpu, cpu_required.
  destruct (hw_cpu (hardware policy)); cbn [fst]; rewrite ?blocked_na, ?blocked_push by fresh_tac;
    cbn [negb orb]; by rewrite ?orb_true_r.
Qed.
Lemma lookup_claimed_cpu name r ok m a :
  contains ["cpu_tee"; "cpu_measurement_reference"] name = false →
  checks (push_claimed_cpu r ok m a).1 !! name = checks a !! name.
Proof.
  intros H. cbn in H. bools. unfold push_claimed_cpu. destruct r; cbn [fst]; autorewrite with audit_lookup;
    by rewrite !bool_decide_false by intuition congruence.
Qed.

Lemma lookup_insert_check_ne name n state a :
  (name =?= n) = false → checks (insert_check n state a) !! name = checks a !! name.
Proof. intros H. by rewrite lookup_insert_check, H. Qed.
Lemma lookup_push_check_ne name n ok msg a :
  (name =?= n) = false → checks (push_check n ok msg a) !! name = checks a !! name.
Proof. intros H. by rewrite lookup_push_check, H. Qed.

(** [audit_lookup]: drop the steps that do not touch the name looked up. *)
Ltac audit_step :=
  first [ rewrite lookup_insert_check_ne by reflexivity
        | rewrite lookup_push_check_ne by reflexivity
        | rewrite lookup_route_metadata by reflexivity
        | rewrite lookup_verified_cpu by reflexivity
        | rewrite lookup_claimed_cpu by reflexivity
        | rewrite lookup_channel_key by reflexivity
        | rewrite lookup_data_checks by reflexivity
        | rewrite lookup_model_binding by reflexivity
        | rewrite lookup_provenance by reflexivity
        | rewrite lookup_final by reflexivity ].
Ltac audit_fresh :=
  unfold all_fresh, fresh; repeat (apply List.Forall_cons; [|]); try apply List.Forall_nil;
  repeat audit_step; try reflexivity; try assumption.

Lemma lookup_insert_check_eq n state a : checks (insert_check n state a) !! n = Some state.
Proof. by rewrite lookup_insert_check, bool_decide_true. Qed.
Lemma lookup_push_check_eq n ok msg a :
  checks (push_check n ok msg a) !! n = Some (if ok then Verified else Failed).
Proof. by rewrite lookup_push_check, bool_decide_true. Qed.
Lemma lookup_data_receipt policy rq rs i b1 b2 a :
  checks (push_data_checks policy rq rs i b1 b2 a) !! "response_receipt" = Some NotApplicable.
Proof. apply lookup_insert_check_eq. Qed.
Lemma no_checks_pass policy : blocked policy no_checks = false.
Proof. reflexivity. Qed.

(** Data bound by one channel verdict [b] meets the policy exactly when it is
    bound and no receipt is demanded. *)
Definition no_receipt_demanded (policy : VerificationPolicy) : bool :=
  negb (response_integrity_requirement policy =?= IntegrityReceiptBound).

Lemma bound_data_ok policy (b1 b2 : bool) result :
  confidentiality_bound result = true →
  (confidentiality_satisfies (bound_or_not b1 result) (request_confidentiality_requirement policy) && b1
   && confidentiality_satisfies (bound_or_not b2 result) (response_confidentiality_requirement policy) && b2
   && integrity_satisfies (integrity_or_not b2) (response_integrity_requirement policy))
  = b1 && b2 && no_receipt_demanded policy.
Proof.
  intros Hr. unfold confidentiality_satisfies, no_receipt_demanded.
  destruct b1, b2; cbn [bound_or_not integrity_or_not]; rewrite ?andb_false_r, ?andb_false_l; try done.
  rewrite Hr. by destruct (request_confidentiality_requirement policy),
    (response_confidentiality_requirement policy), (response_integrity_requirement policy).
Qed.

(** The requirement on the CPU is met by a reference match. *)
Lemma cpu_match_required policy cpu m provider reference :
  cpu_required policy && negb (cpu_reference_match (hw_cpu (hardware policy)) cpu m provider reference)
  = negb (cpu_reference_match (hw_cpu (hardware policy)) cpu m provider reference).
Proof. unfold cpu_required. by destruct (hw_cpu (hardware policy)). Qed.

(** Provenance the evidence families cannot deliver. *)
Definition unsupported_provenance (p : ProvenanceRequirement) : bool :=
  reproducible_build p || source_attestation p || dependency_sbom p.

Ltac audit_eval :=
  repeat first [ audit_step | rewrite lookup_insert_check_eq | rewrite lookup_push_check_eq
               | rewrite lookup_data_receipt ].

Lemma required_iff (b c : bool) : b && negb c = false ↔ (b = true → c = true).
Proof. destruct b, c; naive_solver. Qed.

(** ** Runs of check steps

    The audits a verifier can build: from the empty one, every check name
    written once, every failure with a message. *)

Inductive built : Audit → Prop :=
| built_none : built no_checks
| built_insert name state a :
    built a → fresh name a → built (insert_check name state a)
| built_push name ok message a :
    built a → fresh name a → is_empty (trim message) = false → built (push_check name ok message a).

(** Every recorded error belongs to a failed check. *)
Lemma built_errors_backed a :
  built a → Forall (λ e, checks a !! ve_code e = Some Failed) (errors a).
Proof.
  induction 1 as [|name state a _ IH Hf|name ok message a _ IH Hf _]; [constructor| |].
  - eapply Forall_impl; [|exact IH]. intros e He. rewrite lookup_insert_check_ne; [done|].
    apply bool_decide_eq_false. intros E. unfold fresh in Hf. congruence.
  - assert (Forall (λ e, checks (push_check name ok message a) !! ve_code e = Some Failed) (errors a)) as IH'.
    { eapply Forall_impl; [|exact IH]. intros e He. rewrite lookup_push_check_ne; [done|].
      apply bool_decide_eq_false. intros E. unfold fresh in Hf. congruence. }
    destruct ok; [exact IH'|]. cbn [errors push_check]. apply List.Forall_app. split; [exact IH'|].
    constructor; [|constructor]. cbn [ve_code]. exact (lookup_push_check_eq name false message a).
Qed.

Lemma built_messages_ok a : built a → messages_ok (errors a).
Proof.
  induction 1 as [|name state a _ IH _|name ok message a _ IH _ Hm]; [constructor|exact IH|].
  destruct ok; [exact IH|]. apply List.Forall_app. split; [exact IH|]. by repeat constructor.
Qed.

(** An audit that passes has no errors. *)
Lemma passing_no_errors policy a : built a → blocked policy a = false → errors a = [].
Proof.
  intros Hb Hp. pose proof (built_errors_backed a Hb) as He. destruct (errors a) as [|e l]; [done|].
  inversion He as [|?? Hf _]; subst. unfold blocked in Hp. rewrite would_block_false in Hp.
  specialize (Hp _ _ Hf). done.
Qed.

Ltac visible_message := vm_compute; reflexivity.
Ltac built_tac :=
  repeat first
    [ assumption | apply built_none
    | apply built_push; [|fresh_tac; repeat audit_step; try reflexivity; try assumption|visible_message]
    | apply built_insert; [|fresh_tac; repeat audit_step; try reflexivity; try assumption] ].

Lemma built_route_metadata p r f route reference a :
  all_fresh ["route_metadata_binding"; "request_route_binding"; "route_binding"] a →
  built a → built (push_route_metadata p r f route reference a).
Proof. intros Hf Hb. unfold push_route_metadata, mark_request_route_unproven. built_tac. Qed.

Lemma built_verified_cpu r ok m1 m2 a :
  is_empty (trim m1) = false → is_empty (trim m2) = false → fresh "cpu_tee" a →
  built a → built (push_verified_cpu r ok m1 m2 a).1.
Proof. intros H1 H2 Hf Hb. destruct r; [by apply built_insert|by apply built_push..]. Qed.

Lemma built_claimed_cpu r ok m a :
  is_empty (trim m) = false → all_fresh ["cpu_tee"; "cpu_measurement_reference"] a →
  built a → built (push_claimed_cpu r ok m a).1.
Proof.
  intros H1 Hf Hb. unfold push_claimed_cpu.
  destruct r; cbn [fst]; [by built_tac|..]; (apply built_push; [|fresh_tac|visible_message]);
    (apply built_push; [done|fresh_tac|done]).
Qed.

Lemma built_channel_key r ok m a :
  is_empty (trim m) = false → fresh "e2ee_key_binding" a →
  built a → built (push_channel_key r ok m a).
Proof. intros H1 Hf Hb. destruct r; [by apply built_insert|by apply built_push..]. Qed.

Lemma built_data_checks policy rq rs i b1 b2 a :
  all_fresh ["request_key_binding"; "request_encryption"; "response_key_binding"; "response_encryption";
             "response_channel_binding"; "response_receipt"] a →
  built a → built (push_data_checks policy rq rs i b1 b2 a).
Proof. intros Hf Hb. unfold push_data_checks. built_tac. Qed.

Lemma built_model_binding r s v a :
  fresh "model_binding" a → built a → built (push_model_binding_check r s v a).1.
Proof. intros Hf Hb. unfold push_model_binding_check. destruct r, s; cbn [negb fst]; built_tac. Qed.

Lemma built_provenance policy i m a :
  all_fresh ["image_provenance"; "model_artifact_provenance"] a →
  built a → built (push_provenance_checks policy i m a).
Proof.
  intros Hf Hb. unfold push_provenance_checks. destruct (provenance_required (provenance policy)); built_tac.
Qed.

Lemma built_final policy a :
  all_fresh ["sigstore"; "contrast_manifest"; "per_request_freshness"] a →
  built a → built (push_final_checks policy a).
Proof.
  intros Hf Hb. unfold push_final_checks, push_per_request_freshness_check, push_unsupported_provenance_checks.
  destruct (negb (freshness policy =?= PerRequest)), (reproducible_build (provenance policy)),
    (source_attestation (provenance policy) || dependency_sbom (provenance policy)); built_tac.
Qed.
