(* ===== verification/VerifierSound.v ===== *)
(** * Verifier: soundness and progress of the common ending

    What holds of every verdict a family builds from a run of check steps:
    the enforcement, outcome and status summaries are always consistent, so the
    final audit can only reject bad metadata, digests or validity bounds. *)

From Stdlib Require Import Ascii String ZArith Lia.
From stdpp Require Import base gmap strings list numbers.
From S2P Require Import Prelude RustStr Errors Collections Timestamps Canonical JsonInjective Policy Verdict Evidence Bindings Signature ReferenceValues VerifierCore.

Open Scope string_scope.

Lemma built_status_ok request p :
  built (vp_audit p) → validate_status_summary (build_verdict request p) = Ok tt.
Proof.
  intros Hb. unfold validate_status_summary. case_bool_decide as Hs; [|done]. cbn [negb].
  cbn [v_status build_verdict] in Hs. unfold verdict_status in Hs.
  destruct (enforcement_would_block (checks (vp_audit p)) (rq_policy request)) eqn:Hw;
    [by destruct (enforcement (rq_policy request))|].
  pose proof (would_block_outcomes (checks (vp_audit p)) (errors (vp_audit p)) (rq_policy request)) as Ho.
  rewrite Hw in Ho. symmetry in Ho. apply orb_false_iff in Ho as [Hf Hu].
  cbn [v_checks v_check_outcomes v_errors v_request_allowed v_would_block_under_enforce build_verdict].
  rewrite Hf, Hw, (passing_no_errors (rq_policy request) _ Hb Hw).
  assert (for_each (λ '(name, outcome),
      bail (malformed "status=verified but required check {name} is {:?}") when outcome_unproven outcome; Ok tt)
    (btree_iter (build_check_outcomes (checks (vp_audit p)) (errors (vp_audit p)) (rq_policy request))) = Ok tt)
    as Hfe.
  { apply btree_for_each. intros k o Hk. rewrite any_unproven_false in Hu. by rewrite (Hu k o Hk). }
  rewrite (passing_no_errors (rq_policy request) _ Hb Hw) in Hfe. rewrite Hfe.
  by destruct (enforcement (rq_policy request)).
Qed.

(** Names and signatures of the request that the verdict repeats. *)
Record metadata_ok (request : VerificationRequest) (p : VerdictParts) : Prop := {
  mo_provider : is_empty (trim (rt_provider (rq_route request))) = false;
  mo_signer : is_empty (trim (sm_signer (rq_registry_signature request))) = false;
  mo_issuer : is_empty (trim (rv_issuer (rq_reference_values request))) = false;
  mo_platform t : vp_tee_platform p = Some t → is_empty (trim t) = false;
  mo_digests : digests_ok request;
  mo_policy_digest : validate_sha256_digest (vp_policy_digest p) = Ok tt;
  mo_raw_digest : validate_sha256_digest (vp_raw_evidence_digest p) = Ok tt;
  mo_evidence_digest : validate_sha256_digest (vp_evidence_digest p) = Ok tt;
}.

(** The summary fields a family derives from its own checks. *)
Record summary_ok (request : VerificationRequest) (p : VerdictParts) : Prop := {
  so_validity : validate_validity_summary (build_verdict request p) = Ok tt;
  so_model : vp_model_binding_result p = ModelVerified →
    checks (vp_audit p) !! "model_binding" = Some Verified;
  so_request : validate_request_summary (build_verdict request p) = Ok tt;
  so_response : validate_response_summary (build_verdict request p) = Ok tt;
  so_tier : validate_trust_tier_summary (build_verdict request p) = Ok tt;
}.

Lemma finish_progress request p :
  built (vp_audit p) → metadata_ok request p → summary_ok request p →
  finish_verdict request p = Ok (build_verdict request p).
Proof.
  intros Hb [] []. destruct mo_digests0 as (Hd1 & Hd2 & Hs1 & Hs2).
  unfold finish_verdict, validate_summary_consistency.
  assert (validate_schema_metadata (build_verdict request p) = Ok tt) as -> by reflexivity.
  assert (validate_required_fields (build_verdict request p) = Ok tt) as -> by reflexivity.
  assert (validate_digest_metadata (build_verdict request p) = Ok tt) as ->.
  { unfold validate_digest_metadata. cbn [build_verdict v_policy_digest v_provider_registry_digest
      v_reference_values_digest v_raw_evidence_digest v_evidence_digest].
    by rewrite mo_policy_digest0, Hd1, Hd2, mo_raw_digest0, mo_evidence_digest0. }
  assert (validate_signature_metadata (build_verdict request p) = Ok tt) as ->.
  { unfold validate_signature_metadata. cbn [build_verdict v_registry_signature v_reference_values_signature].
    by rewrite Hs1, Hs2. }
  rewrite so_validity0, (built_structured_ok request p (built_messages_ok _ Hb)),
    (built_attribution_ok request p mo_provider0 mo_signer0 mo_issuer0 mo_platform0).
  assert ((v_model_binding_result (build_verdict request p) =?= ModelVerified)
    && negb (v_checks (build_verdict request p) !! "model_binding" =?= Some Verified) = false) as Hm.
  { apply required_iff. rewrite !bool_decide_eq_true. exact so_model0. }
  cbn [mbind result_bind]. rewrite Hm, so_request0, so_response0, so_tier0, built_enforcement_ok,
    (built_status_ok request p Hb). reflexivity.
Qed.

(** ** Validity bounds *)

(** A bound whose text spells its instant. *)
Definition spells (bound : Z * string) : Prop := parse_utc_timestamp_millis bound.2 = Ok bound.1.

Lemma earlier_spells x y : spells x → spells y → spells (earlier x y).
Proof. unfold earlier. by case_match. Qed.

Lemma fold_earlier l x :
  (fold_left earlier l x).1 = fold_left Z.min (map fst l) x.1
  ∧ (spells x → Forall spells l → spells (fold_left earlier l x)).
Proof.
  revert x. induction l as [|y l IH]; intros x; cbn; [done|].
  destruct (IH (earlier x y)) as [H1 H2]. split.
  - rewrite H1. f_equal. unfold earlier. destruct (Z.ltb_spec y.1 x.1); lia.
  - intros Hx Hl. inversion Hl; subst. apply H2; [by apply earlier_spells | done].
Qed.

(** The computed expiry: no later than the policy TTL, any candidate, and the
    wall-clock bound, and equal to one of them. *)
Lemma validity_bounds_spec now issued_at ttl wall candidates b :
  compute_validity_bounds now issued_at ttl wall candidates = Ok b →
  ∃ issued, parse_utc_timestamp_millis issued_at = Ok issued
    ∧ (cv_expires_at_epoch_ms b ≤ saturating_add issued ttl)%Z
    ∧ (∀ c, c ∈ candidates → (cv_expires_at_epoch_ms b ≤ c.1)%Z)
    ∧ (∀ w, wall = Some w → (cv_expires_at_epoch_ms b ≤ saturating_add now w)%Z)
    ∧ cv_policy_ttl_until b = format_utc_timestamp_millis (saturating_add issued ttl).
Proof.
  unfold compute_validity_bounds. intros H. inv_ok.
  match goal with H : parse_utc_timestamp_millis _ = Ok ?i |- _ => exists i; rename i into issued end.
  cbn [cv_expires_at_epoch_ms cv_policy_ttl_until].
  set (start := (saturating_add issued ttl, _)).
  destruct (fold_earlier candidates start) as [Hf _].
  destruct (fold_min (map fst candidates) start.1) as (Hs & Hc & _). rewrite <-Hf in Hs, Hc.
  rewrite list.Forall_forall in Hc.
  assert (∀ c, c ∈ candidates → ((fold_left earlier candidates start).1 ≤ c.1)%Z) as Hc'.
  { intros c Hin. apply Hc. apply list_elem_of_In, List.in_map. by apply list_elem_of_In. }
  change start.1 with (saturating_add issued ttl) in Hs.
  generalize dependent (fold_left earlier candidates start). intros [ms text] _ Hs _ Hc. cbn [fst snd] in *.
  split; [done|]. destruct wall as [w|]; [|by split_and!].
  unfold earlier. cbn [fst]. destruct (Z.ltb_spec (saturating_add now w) ms); cbn [fst snd].
  - split_and!; [lia| |intros ? [= <-]; lia|done]. intros c Hin. specialize (Hc c Hin). lia.
  - split_and!; [lia|done|intros ? [= <-]; lia|done].
Qed.

(** The validity window of a family that reports its expiry as the evidence
    bound: consistent when the texts of the bounds spell their instants and no
    printed bound lies past year 9999. *)
Lemma validity_summary_ok request p now issued_at issued ttl wall candidates :
  compute_validity_bounds now issued_at ttl wall candidates = Ok (vp_validity p) →
  vp_evidence_until p = cv_expires_at (vp_validity p) →
  parse_utc_timestamp_millis issued_at = Ok issued →
  (0 ≤ saturating_add issued ttl < end_of_year_9999)%Z →
  (∀ w, wall = Some w → 0 ≤ saturating_add now w < end_of_year_9999)%Z →
  Forall spells candidates →
  (rv_valid_until_epoch_ms (rq_reference_values request), rv_valid_until (rq_reference_values request)) ∈ candidates →
  validate_validity_summary (build_verdict request p) = Ok tt.
Proof.
  intros Hb Hu Hi Httl Hwall Hsp Href.
  destruct (validity_bounds_spec _ _ _ _ _ _ Hb) as (i & Hi' & Hle1 & Hle2 & Hle3 & Httl_text).
  rewrite Hi in Hi'. injection Hi' as <-.
  assert (spells (cv_expires_at_epoch_ms (vp_validity p), cv_expires_at (vp_validity p))) as Hexp.
  { unfold compute_validity_bounds in Hb. rewrite Hi in Hb. cbn [mbind result_bind] in Hb.
    injection Hb as Hb. rewrite <-Hb. cbn [cv_expires_at cv_expires_at_epoch_ms].
    set (start := (saturating_add issued ttl, _)).
    assert (spells (fold_left earlier candidates start)) as Hfold
      by (apply fold_earlier; [by apply parse_format | done]).
    destruct wall as [w|]; rewrite <-surjective_pairing; [|done].
    apply earlier_spells; [done|]. apply parse_format. by apply Hwall. }
  unfold spells in Hexp. cbn [fst snd] in Hexp.
  assert (parse_utc_timestamp_millis (rv_valid_until (rq_reference_values request))
    = Ok (rv_valid_until_epoch_ms (rq_reference_values request))) as Hr
    by (rewrite List.Forall_forall in Hsp; exact (Hsp _ (proj1 (list_elem_of_In _ _) Href))).
  specialize (Hle2 _ Href). cbn [fst] in Hle2.
  unfold validate_validity_summary, parse_verdict_timestamp.
  cbn [v_expires_at v_validity v_expires_at_epoch_ms build_verdict computed_expires_at validity_bounds
       policy_ttl_until collateral_valid_until certificate_valid_until quote_valid_until tcb_valid_until
       reference_values_valid_until collect_results].
  rewrite bool_decide_true by done. cbn [negb].
  rewrite Hu, Hexp, Httl_text, (parse_format _ Httl), Hr.
  cbn [map_err mbind result_bind minimum fold_left ok_or]. rewrite Z.eqb_refl. cbn [negb].
  rewrite (proj2 (Z.eqb_eq _ _)); [done|]. lia.
Qed.

(** ** Data summaries *)

Definition data_names : list string :=
  ["request_key_binding"; "request_encryption"; "response_key_binding"; "response_encryption";
   "response_channel_binding"].

Lemma data_checks_lookup policy rq rs i b1 b2 a :
  let m := checks (push_data_checks policy rq rs i b1 b2 a) in
  m !! "request_key_binding" = Some (if confidentiality_satisfies rq (request_confidentiality_requirement policy)
                                     then Verified else Failed)
  ∧ m !! "request_encryption" = Some (if b1 then Verified else Failed)
  ∧ m !! "response_key_binding" = Some (if confidentiality_satisfies rs (response_confidentiality_requirement policy)
                                        then Verified else Failed)
  ∧ m !! "response_encryption" = Some (if b2 then Verified else Failed)
  ∧ m !! "response_channel_binding" = Some (if integrity_satisfies i (response_integrity_requirement policy)
                                            then Verified else Failed).
Proof. cbn zeta. unfold push_data_checks. split_and!; by audit_eval. Qed.

(** A family that reports one channel result per direction. *)
Record reports_channel (p : VerdictParts) (policy : VerificationPolicy) (b1 b2 : bool)
    (result : ConfidentialityResult) (a : Audit) : Prop := {
  rc_checks name : name ∈ data_names →
    checks (vp_audit p) !! name
    = checks (push_data_checks policy (bound_or_not b1 result) (bound_or_not b2 result)
                (integrity_or_not b2) b1 b2 a) !! name;
  rc_request : vp_request_confidentiality_result p = bound_or_not b1 result;
  rc_request_bound : vp_request_channel_bound p = b1;
  rc_response : vp_response_confidentiality_result p = bound_or_not b2 result;
  rc_response_bound : vp_response_channel_bound p = b2;
  rc_integrity : vp_response_integrity_result p = integrity_or_not b2;
}.

Lemma satisfies_any result requirement :
  confidentiality_bound result = true → confidentiality_satisfies result requirement = true.
Proof. by destruct requirement. Qed.

Lemma channel_request_summary request p policy b1 b2 result a :
  confidentiality_bound result = true → reports_channel p policy b1 b2 result a →
  validate_request_summary (build_verdict request p) = Ok tt.
Proof.
  intros Hr [Hc H1 H2 H3 H4 H5]. unfold validate_request_summary, require_verified_check.
  cbn [build_verdict v_request_confidentiality_result v_request_channel_bound v_checks]. rewrite H1, H2.
  destruct b1; cbn [bound_or_not]; [|reflexivity]. rewrite Hr.
  destruct (data_checks_lookup policy (bound_or_not true result) (bound_or_not b2 result)
              (integrity_or_not b2) true b2 a) as (L1 & L2 & _).
  rewrite !Hc by (unfold data_names; set_solver). rewrite L1, L2. cbn [bound_or_not].
  by rewrite satisfies_any by done.
Qed.

Lemma channel_response_summary request p policy b1 b2 result a :
  confidentiality_bound result = true → reports_channel p policy b1 b2 result a →
  (b2 = true → no_receipt_demanded policy = true) →
  validate_response_summary (build_verdict request p) = Ok tt.
Proof.
  intros Hr [Hc H1 H2 H3 H4 H5] Hn. unfold validate_response_summary, require_verified_check.
  cbn [build_verdict v_response_confidentiality_result v_response_channel_bound v_response_integrity_result v_checks].
  rewrite H3, H4, H5. destruct b2; [|reflexivity]. specialize (Hn eq_refl).
  cbn [bound_or_not integrity_or_not]. rewrite Hr.
  destruct (data_checks_lookup policy (bound_or_not b1 result) (bound_or_not true result)
              (integrity_or_not true) b1 true a) as (_ & _ & L3 & L4 & L5).
  rewrite !Hc by (unfold data_names; set_solver). rewrite L3, L4, L5. cbn [bound_or_not integrity_or_not].
  rewrite satisfies_any by done. unfold no_receipt_demanded in Hn.
  by destruct (response_integrity_requirement policy).
Qed.

(** A receipt cannot be demanded of a channel-bound family: the verdict would
    claim channel-bound integrity over a failed check. *)
Lemma channel_receipt_rejected request p policy b1 b2 result a :
  confidentiality_bound result = true → reports_channel p policy b1 b2 result a →
  b2 = true → response_integrity_requirement policy = IntegrityReceiptBound →
  is_ok (finish_verdict request p) = false.
Proof.
  intros Hr [Hc H1 H2 H3 H4 H5] -> Hn.
  destruct (finish_verdict request p) as [v|] eqn:E; [|done]. exfalso.
  apply finish_Ok in E as [-> V%validate_parts]. pose proof (ok_response _ V) as Hresp.
  destruct (data_checks_lookup policy (bound_or_not b1 result) (bound_or_not true result)
              (integrity_or_not true) b1 true a) as (_ & _ & _ & _ & L5).
  rewrite <-Hc, Hn in L5 by (unfold data_names; set_solver).
  unfold validate_response_summary in Hresp.
  cbn [build_verdict v_response_confidentiality_result v_response_channel_bound v_response_integrity_result v_checks] in Hresp.
  rewrite H3, H4, H5 in Hresp. cbn [bound_or_not integrity_or_not] in Hresp. rewrite Hr in Hresp.
  clear H1 H2 H3 H4 H5. inv_ok. apply require_verified_Ok in Hresp. cbn [build_verdict v_checks] in Hresp.
  by rewrite L5 in Hresp.
Qed.

Lemma model_verified_check r s v a :
  (push_model_binding_check r s v a).2 = ModelVerified →
  checks (push_model_binding_check r s v a).1 !! "model_binding" = Some Verified.
Proof.
  unfold push_model_binding_check. destruct r, s, v; cbn [negb fst snd andb]; try done; intros _;
    apply lookup_push_check_eq.
Qed.

(** ** Requests in good order

    What a caller controls: names present, digests and signatures well formed,
    references whose texts spell their instants. *)
Record request_ok (request : VerificationRequest) (reference : RouteReference) : Prop := {
  ro_provider : is_empty (trim (rt_provider (rq_route request))) = false;
  ro_signer : is_empty (trim (sm_signer (rq_registry_signature request))) = false;
  ro_issuer : is_empty (trim (rv_issuer (rq_reference_values request))) = false;
  ro_digests : digests_ok request;
  ro_route_until : spells (rr_valid_until_epoch_ms reference, rr_valid_until reference);
  ro_payload_until :
    spells (rv_valid_until_epoch_ms (rq_reference_values request), rv_valid_until (rq_reference_values request));
}.

Lemma cpu_platform_named kind : is_empty (trim (cpu_policy_str kind)) = false.
Proof. by destruct kind. Qed.

Lemma canonical_digest_valid {prim : Primitives} {laws : Sha256Laws} v d :
  canonical_digest v = Ok d → validate_sha256_digest d = Ok tt.
Proof. unfold canonical_digest. intros H. inv_ok. apply sha256_digest_valid. Qed.

Lemma policy_digest_valid {prim : Primitives} {laws : Sha256Laws} p d :
  policy_digest p = Ok d → validate_sha256_digest d = Ok tt.
Proof. unfold policy_digest. intros H. inv_ok. by eapply canonical_digest_valid. Qed.

Lemma compute_validity_Ok now issued_at issued ttl wall candidates :
  parse_utc_timestamp_millis issued_at = Ok issued →
  ∃ b, compute_validity_bounds now issued_at ttl wall candidates = Ok b.
Proof. unfold compute_validity_bounds. intros ->. cbn. eauto. Qed.

(** ** Concrete requests *)

Definition sample_attested_route (family : string) (kind : ChannelBindingKind) (tier : TrustTier)
    : AttestedRoute := {|
  rt_provider := "near"; rt_route_id := "r"; rt_evidence_family := family; rt_requested_model := "m";
  rt_provider_model := "pm"; rt_canonical_model := "m"; rt_api_endpoint := "https://api";
  rt_evidence_endpoint := "https://evidence"; rt_adapter_version := "1";
  rt_freshness_class := FreshPerSession; rt_channel_binding_kind := kind; rt_trust_tier := tier;
  rt_alias_confidence := Curated; rt_request_confidentiality_requirement := BoundToAttestedWorkload;
  rt_response_confidentiality_requirement := BoundToAttestedWorkload;
  rt_response_integrity_requirement := AnyBound; rt_streaming_allowed := true |}.

Definition sample_reference (family : string) (kind : ChannelBindingKind) (tier : TrustTier)
    (until : string) (until_ms : Z) : RouteReference := {|
  rr_canonical_model := "m"; rr_provider_model := "pm"; rr_evidence_family := family;
  rr_channel_binding_kind := kind; rr_trust_tier := tier; rr_accepted_cpu_tees := [Tdx];
  rr_e2ee_public_key_digest := "k"; rr_response_signing_key_digest := None;
  rr_tls_spki_sha256 := Some (sha256_hex "cert"); rr_workload_images := sample_images;
  rr_workload_image_digest := "d"; rr_model_artifacts := [];
  rr_valid_until := until; rr_valid_until_epoch_ms := until_ms |}.

Definition sample_request (policy : VerificationPolicy) (route : AttestedRoute)
    (reference : RouteReference) (nonce : option string) (raw : string) : VerificationRequest := {|
  rq_route := route; rq_route_execution_status := "supported"; rq_chat_executable := true;
  rq_known_unsupported_modes := []; rq_expected_freshness_nonce := nonce; rq_policy := policy;
  rq_reference_values :=
    sample_payload "2026.1" "2026.1" 1 {| pr_accepted_measurements := ["tdx:1"]; pr_routes := {[ "r" := reference ]} |};
  rq_reference_signature := sample_signature; rq_reference_values_digest := sample_digest;
  rq_registry_digest := sample_digest; rq_registry_version := "1"; rq_registry_source := "s";
  rq_registry_sync_completed_at := sample_timestamp; rq_registry_signature := sample_signature;
  rq_reference_values_source := "s"; rq_raw_evidence := raw |}.
