(* ===== verification/EvidenceDocuments.v ===== *)
(** * Evidence documents

    The evidence structures of evidence.rs and tinfoil.rs, their JSON form
    (what the evidence digests hash), and the readers that decode raw bytes. *)

From Stdlib Require Import Ascii String ZArith Lia.
From stdpp Require Import base gmap strings list numbers.
From S2P Require Import Prelude RustStr Errors Canonical Policy Verdict Evidence Bindings ReferenceValues.

Open Scope string_scope.

Record EvidenceHardware := { eh_cpu : CpuTeeKind; eh_gpu : option GpuTeeKind }.

Record NvidiaGpuAttestationEvidence := {
  ng_schema : string;
  ng_attestation_format : string;
  ng_nonce : string;
  ng_arch : option string;
  ng_payload_sha256 : option string;
  ng_raw_payload_base64 : option string;
  ng_nras_token : option string;
}.
Definition NVIDIA_EVIDENCE_SCHEMA := "confidential-inference.nvidia-gpu-attestation.v1".

Record ChannelBindingEvidence := {
  cb_kind : ChannelBindingKind;
  cb_public_key_digest : string;
  cb_request_bound : bool;
  cb_response_bound : bool;
}.

Record FixtureEvidence := {
  fe_schema : string;
  fe_provider : string;
  fe_route_id : string;
  fe_evidence_family : string;
  fe_tee_measurement : string;
  fe_hardware : EvidenceHardware;
  fe_channel_binding : ChannelBindingEvidence;
  fe_attested_model : string;
  fe_workload_image_digest : string;
  fe_model_artifacts : list ArtifactDigest;
  fe_issued_at : string;
  fe_expires_at : string;
  fe_expires_at_epoch_ms : Z;
}.
Definition FIXTURE_SCHEMA := "confidential-inference.fixture-evidence.v1".

Record TinfoilTlsEvidence := {
  tt_schema : string;
  tt_provider : string;
  tt_route_id : string;
  tt_evidence_family : string;
  tt_tee_measurement : string;
  tt_hardware : EvidenceHardware;
  tt_report_data : string;
  tt_leaf_certificate_der_base64 : string;
  tt_attested_model : string;
  tt_workload_image_digest : string;
  tt_model_artifacts : list ArtifactDigest;
  tt_issued_at : string;
  tt_expires_at : string;
  tt_expires_at_epoch_ms : Z;
}.
Definition TINFOIL_TLS_SCHEMA := "confidential-inference.tinfoil-tls-evidence.v1".

Record ChutesE2eeEvidence := {
  ce_schema : string;
  ce_provider : string;
  ce_route_id : string;
  ce_evidence_family : string;
  ce_tee_measurement : string;
  ce_hardware : EvidenceHardware;
  ce_gpu_attestation : option NvidiaGpuAttestationEvidence;
  ce_report_data : string;
  ce_nonce : string;
  ce_e2e_public_key : string;
  ce_attested_model : option string;
  ce_workload_image_digest : string;
  ce_model_artifacts : list ArtifactDigest;
  ce_issued_at : string;
  ce_expires_at : string;
  ce_expires_at_epoch_ms : Z;
}.
Definition CHUTES_E2EE_SCHEMA := "confidential-inference.chutes-e2ee-evidence.v1".

Record ChutesLiveEvidence := {
  cl_schema : string;
  cl_provider : string;
  cl_route_id : string;
  cl_evidence_family : string;
  cl_requested_model : string;
  cl_policy_digest : string;
  cl_request_nonce : string;
  cl_evidence_endpoint : string;
  cl_chute_id : string;
  cl_instance_id : string;
  cl_e2e_public_key_base64 : string;
  cl_quote_base64 : string;
  cl_certificate_der_base64 : string;
  cl_gpu_attestation : option NvidiaGpuAttestationEvidence;
}.
Definition CHUTES_LIVE_SCHEMA := "confidential-inference.chutes-live-evidence.v1".

Record TinfoilLiveCaptureEvidence := {
  tl_schema : string;
  tl_provider : string;
  tl_route_id : string;
  tl_evidence_family : string;
  tl_requested_model : string;
  tl_policy_digest : string;
  tl_nonce : option string;
  tl_evidence_endpoint : string;
  tl_live_tls_spki_sha256 : string;
  tl_live_tls_leaf_certificate_der_base64 : string;
  tl_raw_attestation_body_base64 : string;
}.
Definition TINFOIL_LIVE_SCHEMA := "confidential-inference.tinfoil-live-capture.v1".

Record NearLiveEvidence := {
  nl_schema : string;
  nl_provider : string;
  nl_route_id : string;
  nl_evidence_family : string;
  nl_requested_model : string;
  nl_policy_digest : string;
  nl_request_nonce : string;
  nl_evidence_endpoint : string;
  nl_live_tls_spki_sha256 : string;
  nl_live_tls_leaf_certificate_der_base64 : string;
  nl_raw_attestation_body_base64 : string;
  nl_gpu_attestation : option NvidiaGpuAttestationEvidence;
}.
Definition NEAR_LIVE_SCHEMA := "confidential-inference.near-live-evidence.v1".

Record DstackEvidence := {
  de_schema : string;
  de_provider : string;
  de_route_id : string;
  de_evidence_family : string;
  de_tee_measurement : string;
  de_hardware : EvidenceHardware;
  de_quote_measurements : TdxQuoteMeasurements;
  de_tcb_info : DstackTcbInfo;
  de_channel_binding : ChannelBindingEvidence;
  de_attested_model : option string;
  de_workload_images : list WorkloadImage;
  de_workload_image_digest : string;
  de_model_artifacts : list ArtifactDigest;
  de_issued_at : string;
  de_expires_at : string;
  de_expires_at_epoch_ms : Z;
}.
Definition DSTACK_SCHEMA := "confidential-inference.dstack-evidence.v1".

(** What a quote verifier returns (tinfoil.rs). *)
Record VerifiedTinfoilQuote := {
  vq_attestation_format : string;
  vq_hardware : EvidenceHardware;
  vq_tee_measurement : string;
  vq_report_data : string;
  vq_issued_at : string;
  vq_expires_at : string;
  vq_expires_at_epoch_ms : Z;
  vq_attested_model : option string;
  vq_workload_image_digest : option string;
  vq_model_artifacts : list ArtifactDigest;
}.

Record VerifiedTdxQuote := {
  td_tee_measurement : string;
  td_mr_td : string;
  td_mr_config_id : string;
  td_rtmr0 : string;
  td_rtmr1 : string;
  td_rtmr2 : string;
  td_rtmr3 : string;
  td_report_data : string;
  td_issued_at : string;
  td_expires_at : string;
  td_expires_at_epoch_ms : Z;
}.

(** ** Serialisation *)

Definition hardware_evidence_value (h : EvidenceHardware) : Value :=
  VObject (("cpu", cpu_kind_value (eh_cpu h)) :: optional "gpu" gpu_kind_value (eh_gpu h)).
Definition nvidia_value (n : NvidiaGpuAttestationEvidence) : Value :=
  VObject ([("schema", VString (ng_schema n)); ("attestation_format", VString (ng_attestation_format n));
            ("nonce", VString (ng_nonce n))]
           ++ optional "arch" VString (ng_arch n)
           ++ optional "payload_sha256" VString (ng_payload_sha256 n)
           ++ optional "raw_payload_base64" VString (ng_raw_payload_base64 n)
           ++ optional "nras_token" VString (ng_nras_token n))%list.
Definition channel_evidence_value (c : ChannelBindingEvidence) : Value :=
  VObject [("kind", channel_kind_value (cb_kind c));
           ("public_key_digest", VString (cb_public_key_digest c));
           ("request_bound", VBool (cb_request_bound c));
           ("response_bound", VBool (cb_response_bound c))].
Definition artifacts_value (l : list ArtifactDigest) : Value := VArray (map artifact_value l).

Definition fixture_value (e : FixtureEvidence) : Value :=
  VObject [("schema", VString (fe_schema e)); ("provider", VString (fe_provider e));
           ("route_id", VString (fe_route_id e)); ("evidence_family", VString (fe_evidence_family e));
           ("tee_measurement", VString (fe_tee_measurement e));
           ("hardware", hardware_evidence_value (fe_hardware e));
           ("channel_binding", channel_evidence_value (fe_channel_binding e));
           ("attested_model", VString (fe_attested_model e));
           ("workload_image_digest", VString (fe_workload_image_digest e));
           ("model_artifacts", artifacts_value (fe_model_artifacts e));
           ("issued_at", VString (fe_issued_at e)); ("expires_at", VString (fe_expires_at e));
           ("expires_at_epoch_ms", u64_value (fe_expires_at_epoch_ms e))].

Definition tinfoil_tls_value (e : TinfoilTlsEvidence) : Value :=
  VObject [("schema", VString (tt_schema e)); ("provider", VString (tt_provider e));
           ("route_id", VString (tt_route_id e)); ("evidence_family", VString (tt_evidence_family e));
           ("tee_measurement", VString (tt_tee_measurement e));
           ("hardware", hardware_evidence_value (tt_hardware e));
           ("report_data", VString (tt_report_data e));
           ("leaf_certificate_der_base64", VString (tt_leaf_certificate_der_base64 e));
           ("attested_model", VString (tt_attested_model e));
           ("workload_image_digest", VString (tt_workload_image_digest e));
           ("model_artifacts", artifacts_value (tt_model_artifacts e));
           ("issued_at", VString (tt_issued_at e)); ("expires_at", VString (tt_expires_at e));
           ("expires_at_epoch_ms", u64_value (tt_expires_at_epoch_ms e))].

Definition chutes_e2ee_value (e : ChutesE2eeEvidence) : Value :=
  VObject ([("schema", VString (ce_schema e)); ("provider", VString (ce_provider e));
            ("route_id", VString (ce_route_id e)); ("evidence_family", VString (ce_evidence_family e));
            ("tee_measurement", VString (ce_tee_measurement e));
            ("hardware", hardware_evidence_value (ce_hardware e))]
           ++ optional "gpu_attestation" nvidia_value (ce_gpu_attestation e)
           ++ [("report_data", VString (ce_report_data e)); ("nonce", VString (ce_nonce e));
               ("e2e_pubkey", VString (ce_e2e_public_key e))]
           ++ optional "attested_model" VString (ce_attested_model e)
           ++ [("workload_image_digest", VString (ce_workload_image_digest e));
               ("model_artifacts", artifacts_value (ce_model_artifacts e));
               ("issued_at", VString (ce_issued_at e)); ("expires_at", VString (ce_expires_at e));
               ("expires_at_epoch_ms", u64_value (ce_expires_at_epoch_ms e))])%list.

Definition chutes_live_value (e : ChutesLiveEvidence) : Value :=
  VObject ([("schema", VString (cl_schema e)); ("provider", VString (cl_provider e));
            ("route_id", VString (cl_route_id e)); ("evidence_family", VString (cl_evidence_family e));
            ("requested_model", VString (cl_requested_model e));
            ("policy_digest", VString (cl_policy_digest e));
            ("request_nonce", VString (cl_request_nonce e));
            ("evidence_endpoint", VString (cl_evidence_endpoint e));
            ("chute_id", VString (cl_chute_id e)); ("instance_id", VString (cl_instance_id e));
            ("e2e_public_key_base64", VString (cl_e2e_public_key_base64 e));
            ("quote_base64", VString (cl_quote_base64 e));
            ("certificate_der_base64", VString (cl_certificate_der_base64 e))]
           ++ optional "gpu_attestation" nvidia_value (cl_gpu_attestation e))%list.

Definition tinfoil_live_value (e : TinfoilLiveCaptureEvidence) : Value :=
  VObject ([("schema", VString (tl_schema e)); ("provider", VString (tl_provider e));
            ("route_id", VString (tl_route_id e)); ("evidence_family", VString (tl_evidence_family e));
            ("requested_model", VString (tl_requested_model e));
            ("policy_digest", VString (tl_policy_digest e))]
           ++ optional "nonce" VString (tl_nonce e)
           ++ [("evidence_endpoint", VString (tl_evidence_endpoint e));
               ("live_tls_spki_sha256", VString (tl_live_tls_spki_sha256 e));
               ("live_tls_leaf_certificate_der_base64", VString (tl_live_tls_leaf_certificate_der_base64 e));
               ("raw_attestation_body_base64", VString (tl_raw_attestation_body_base64 e))])%list.

Definition near_live_value (e : NearLiveEvidence) : Value :=
  VObject ([("schema", VString (nl_schema e)); ("provider", VString (nl_provider e));
            ("route_id", VString (nl_route_id e)); ("evidence_family", VString (nl_evidence_family e));
            ("requested_model", VString (nl_requested_model e));
            ("policy_digest", VString (nl_policy_digest e));
            ("request_nonce", VString (nl_request_nonce e));
            ("evidence_endpoint", VString (nl_evidence_endpoint e));
            ("live_tls_spki_sha256", VString (nl_live_tls_spki_sha256 e));
            ("live_tls_leaf_certificate_der_base64", VString (nl_live_tls_leaf_certificate_der_base64 e));
            ("raw_attestation_body_base64", VString (nl_raw_attestation_body_base64 e))]
           ++ optional "gpu_attestation" nvidia_value (nl_gpu_attestation e))%list.

Definition tdx_measurements_value (m : TdxQuoteMeasurements) : Value :=
  VObject [("mr_td", VString (tq_mr_td m)); ("rtmr0", VString (tq_rtmr0 m))].
Definition tcb_info_value (t : DstackTcbInfo) : Value :=
  VObject [("mrtd", VString (ti_mrtd t)); ("rtmr0", VString (ti_rtmr0 t));
           ("app_compose", VString (ti_app_compose t)); ("compose_hash", VString (ti_compose_hash t))].

Definition dstack_value (e : DstackEvidence) : Value :=
  VObject ([("schema", VString (de_schema e)); ("provider", VString (de_provider e));
            ("route_id", VString (de_route_id e)); ("evidence_family", VString (de_evidence_family e));
            ("tee_measurement", VString (de_tee_measurement e));
            ("hardware", hardware_evidence_value (de_hardware e));
            ("quote_measurements", tdx_measurements_value (de_quote_measurements e));
            ("tcb_info", tcb_info_value (de_tcb_info e));
            ("channel_binding", channel_evidence_value (de_channel_binding e))]
           ++ optional "attested_model" VString (de_attested_model e)
           ++ unless_empty "workload_images" image_value (de_workload_images e)
           ++ [("workload_image_digest", VString (de_workload_image_digest e));
               ("model_artifacts", artifacts_value (de_model_artifacts e));
               ("issued_at", VString (de_issued_at e)); ("expires_at", VString (de_expires_at e));
               ("expires_at_epoch_ms", u64_value (de_expires_at_epoch_ms e))])%list.

Definition verified_tinfoil_quote_value (q : VerifiedTinfoilQuote) : Value :=
  VObject ([("attestation_format", VString (vq_attestation_format q));
            ("hardware", hardware_evidence_value (vq_hardware q));
            ("tee_measurement", VString (vq_tee_measurement q));
            ("report_data", VString (vq_report_data q)); ("issued_at", VString (vq_issued_at q));
            ("expires_at", VString (vq_expires_at q));
            ("expires_at_epoch_ms", u64_value (vq_expires_at_epoch_ms q))]
           ++ optional "attested_model" VString (vq_attested_model q)
           ++ optional "workload_image_digest" VString (vq_workload_image_digest q)
           ++ unless_empty "model_artifacts" artifact_value (vq_model_artifacts q))%list.

Definition verified_tdx_quote_value (q : VerifiedTdxQuote) : Value :=
  VObject [("tee_measurement", VString (td_tee_measurement q)); ("mr_td", VString (td_mr_td q));
           ("mr_config_id", VString (td_mr_config_id q)); ("rtmr0", VString (td_rtmr0 q));
           ("rtmr1", VString (td_rtmr1 q)); ("rtmr2", VString (td_rtmr2 q));
           ("rtmr3", VString (td_rtmr3 q)); ("report_data", VString (td_report_data q));
           ("issued_at", VString (td_issued_at q)); ("expires_at", VString (td_expires_at q));
           ("expires_at_epoch_ms", u64_value (td_expires_at_epoch_ms q))].

(** ** Readers

    [serde_json::from_slice] for each document, and standard base64. *)

Class EvidenceReaders := {
  value_from_slice : string → option Value;
  fixture_from_slice : string → option FixtureEvidence;
  tinfoil_tls_from_slice : string → option TinfoilTlsEvidence;
  chutes_e2ee_from_slice : string → option ChutesE2eeEvidence;
  chutes_live_from_slice : string → option ChutesLiveEvidence;
  tinfoil_live_from_slice : string → option TinfoilLiveCaptureEvidence;
  near_live_from_slice : string → option NearLiveEvidence;
  dstack_from_slice : string → option DstackEvidence;
  base64_decode : string → option string;
}.

(** [serde_json] failures become [AttestationError::Json]. *)
Definition json_error : AttestationError := Json "{error}".
