(* ===== verification/FixtureVerifier.v ===== *)
(** * The fixture family

    [verify_fixture_evidence] of verifier.rs: offline evidence whose hardware
    and channel claims are compared with the signed reference values. *)

From Stdlib Require Import Ascii String ZArith Lia.
From stdpp Require Import base gmap strings list numbers.
From S2P Require Import Prelude RustStr Errors Collections Timestamps Canonical JsonInjective Policy Verdict Evidence Bindings Signature ReferenceValues VerifierCore VerifierSound EvidenceDocuments.

Open Scope string_scope.

Section Fixture.
Context {prim : Primitives} {readers : EvidenceReaders}.

Definition fixture_cpu_match (policy : VerificationPolicy) (e : FixtureEvidence)
    (provider : ProviderReference) (reference : RouteReference) : bool :=
  cpu_reference_match (hw_cpu (hardware policy)) (eh_cpu (fe_hardware e)) (fe_tee_measurement e)
    provider reference.

Definition fixture_channel_verified (request : VerificationRequest) (e : FixtureEvidence)
    (reference : RouteReference) : bool :=
  let requirement := channel_binding_requirement (rq_policy request) in
  channel_satisfies (rt_channel_binding_kind (rq_route request)) requirement
  && channel_satisfies (cb_kind (fe_channel_binding e)) requirement
  && (cb_kind (fe_channel_binding e) =?= rr_channel_binding_kind reference)
  && (cb_public_key_digest (fe_channel_binding e) =?= rr_e2ee_public_key_digest reference).

Definition fixture_request_result (e : FixtureEvidence) : ConfidentialityResult :=
  bound_or_not (cb_request_bound (fe_channel_binding e)) EncryptedBound.
Definition fixture_response_result (e : FixtureEvidence) : ConfidentialityResult :=
  bound_or_not (cb_response_bound (fe_channel_binding e)) EncryptedBound.
Definition fixture_integrity (e : FixtureEvidence) : ResponseIntegrityResult :=
  integrity_or_not (cb_response_bound (fe_channel_binding e)).

(** Route metadata and hardware: the audit and [hardware_verified]. *)
Definition fixture_hardware_audit (request : VerificationRequest) (e : FixtureEvidence)
    (provider : ProviderReference) (reference : RouteReference) : Audit * bool :=
  let policy := rq_policy request in
  let a := push_route_metadata (fe_provider e) (fe_route_id e) (fe_evidence_family e) (rq_route request)
             reference no_checks in
  let '(a, hardware_verified) :=
    push_verified_cpu (hw_cpu (hardware policy)) (fixture_cpu_match policy e provider reference)
      "CPU TEE or measurement is not accepted by reference values"
      "CPU TEE kind or measurement is not accepted by policy/reference values" a in
  (insert_check "tls_binding" NotApplicable (insert_check "gpu_tee" NotApplicable a), hardware_verified).

(** The channel key. *)
Definition fixture_channel_audit (request : VerificationRequest) (e : FixtureEvidence)
    (reference : RouteReference) (a : Audit) : Audit :=
  push_channel_key (channel_binding_requirement (rq_policy request))
    (fixture_channel_verified request e reference)
    "attested channel key is missing or does not match reference values" a.

(** Request and response data. *)
Definition fixture_data_audit (request : VerificationRequest) (e : FixtureEvidence) (a : Audit) : Audit :=
  let a := push_data_checks (rq_policy request) (fixture_request_result e) (fixture_response_result e)
             (fixture_integrity e) (cb_request_bound (fe_channel_binding e))
             (cb_response_bound (fe_channel_binding e)) a in
  insert_check "nonce_binding" NotApplicable a.

Definition fixture_model_verified (request : VerificationRequest) (e : FixtureEvidence)
    (reference : RouteReference) : bool :=
  (fe_attested_model e =?= rt_canonical_model (rq_route request))
  && (rr_canonical_model reference =?= rt_canonical_model (rq_route request)).

(** Model binding, provenance and freshness. *)
Definition fixture_closing_audit (request : VerificationRequest) (e : FixtureEvidence)
    (reference : RouteReference) (a : Audit) : Audit * ModelBindingResult :=
  let policy := rq_policy request in
  let '(a, model) := push_model_binding_check (model_binding_requirement policy) true
                       (fixture_model_verified request e reference) a in
  let a := push_provenance_checks policy
             (fe_workload_image_digest e =?= rr_workload_image_digest reference)
             (artifacts_present (rr_model_artifacts reference) (fe_model_artifacts e)) a in
  (push_final_checks policy a, model).

Definition fixture_audit (request : VerificationRequest) (e : FixtureEvidence)
    (provider : ProviderReference) (reference : RouteReference) : Audit * bool * ModelBindingResult :=
  let '(a, hardware_verified) := fixture_hardware_audit request e provider reference in
  let a := fixture_data_audit request e (fixture_channel_audit request e reference a) in
  let '(a, model) := fixture_closing_audit request e reference a in
  (a, hardware_verified, model).

(** The fields of the fixture verdict. *)
Definition fixture_parts (request : VerificationRequest) (e : FixtureEvidence)
    (provider : ProviderReference) (reference : RouteReference) (policy_digest evidence_digest : string)
    (validity : ComputedValidityBounds) : VerdictParts :=
  let '(audit, hardware_verified, model) := fixture_audit request e provider reference in {|
    vp_audit := audit;
    vp_tee_platform := Some (cpu_policy_str (eh_cpu (fe_hardware e)));
    vp_proved := hardware_verified && fixture_channel_verified request e reference;
    vp_trust_tier := rt_trust_tier (rq_route request);
    vp_model_binding_result := model;
    vp_request_channel_bound := cb_request_bound (fe_channel_binding e);
    vp_request_confidentiality_result := fixture_request_result e;
    vp_response_confidentiality_result := fixture_response_result e;
    vp_response_channel_bound := cb_response_bound (fe_channel_binding e);
    vp_response_integrity_result := fixture_integrity e;
    vp_policy_digest := policy_digest;
    vp_raw_evidence_digest := sha256_digest (rq_raw_evidence request);
    vp_evidence_digest := evidence_digest;
    vp_issued_at := fe_issued_at e;
    vp_validity := validity;
    vp_evidence_until := cv_expires_at validity;
    vp_artifacts := {|
      va_source_url := Some (rt_evidence_endpoint (rq_route request));
      va_tee_measurement := Some (fe_tee_measurement e);
      va_report_data := Some (cb_public_key_digest (fe_channel_binding e));
      va_signing_public_key := None;
      va_e2ee_capability := Some "fixture-e2ee";
      va_model_manifest := Some (fe_attested_model e);
      va_model_artifacts := fe_model_artifacts e |} |}.

Definition verify_fixture_evidence (now : Z) (request : VerificationRequest) : Result AttestationVerdict :=
  e ← ok_or (fixture_from_slice (rq_raw_evidence request)) json_error;
  bail (InvalidEvidence "unsupported schema {}") when negb (fe_schema e =?= FIXTURE_SCHEMA);
  '(provider, reference) ← find_references request;
  evidence_digest ← canonical_digest (fixture_value e);
  policy_digest ← policy_digest (rq_policy request);
  validity ← compute_validity_bounds now (fe_issued_at e) (verdict_ttl_millis (rq_policy request)) None
               (validity_candidates (fe_expires_at_epoch_ms e) (fe_expires_at e) reference
                  (rq_reference_values request));
  finish_verdict request
    (fixture_parts request e provider reference policy_digest evidence_digest validity).

(** ** Specification

    What an enforcing policy demands of fixture evidence. *)
Record fixture_satisfies (request : VerificationRequest) (e : FixtureEvidence)
    (provider : ProviderReference) (reference : RouteReference) : Prop := {
  fs_route : route_metadata_matches (fe_provider e) (fe_route_id e) (fe_evidence_family e)
               (rq_route request) reference = true;
  fs_cpu : cpu_reference_match (hw_cpu (hardware (rq_policy request))) (eh_cpu (fe_hardware e))
             (fe_tee_measurement e) provider reference = true;
  fs_channel : channel_required (rq_policy request) = true →
    fixture_channel_verified request e reference = true;
  fs_request_bound : cb_request_bound (fe_channel_binding e) = true;
  fs_response_bound : cb_response_bound (fe_channel_binding e) = true;
  fs_no_receipt : no_receipt_demanded (rq_policy request) = true;
  fs_model : model_requirement_met (model_binding_requirement (rq_policy request)) true
               (fixture_model_verified request e reference) = true;
  fs_provenance : provenance_required (provenance (rq_policy request)) = true →
    fe_workload_image_digest e = rr_workload_image_digest reference
    ∧ artifacts_present (rr_model_artifacts reference) (fe_model_artifacts e) = true;
  fs_unsupported : unsupported_provenance (provenance (rq_policy request)) = false;
  fs_freshness : per_request (rq_policy request) = false;
}.

(** ** The audit blocks exactly when the specification fails *)

Lemma fixture_audit_eq request e provider reference :
  (fixture_audit request e provider reference).1.1 =
    let policy := rq_policy request in
    let a := push_route_metadata (fe_provider e) (fe_route_id e) (fe_evidence_family e) (rq_route request)
               reference no_checks in
    let a := (push_verified_cpu (hw_cpu (hardware policy)) (fixture_cpu_match policy e provider reference)
               "CPU TEE or measurement is not accepted by reference values"
               "CPU TEE kind or measurement is not accepted by policy/reference values" a).1 in
    let a := insert_check "tls_binding" NotApplicable (insert_check "gpu_tee" NotApplicable a) in
    let a := fixture_data_audit request e (fixture_channel_audit request e reference a) in
    let a := (push_model_binding_check (model_binding_requirement policy) true
               (fixture_model_verified request e reference) a).1 in
    push_final_checks policy (push_provenance_checks policy
      (fe_workload_image_digest e =?= rr_workload_image_digest reference)
      (artifacts_present (rr_model_artifacts reference) (fe_model_artifacts e)) a).
Proof.
  unfold fixture_audit, fixture_hardware_audit, fixture_closing_audit.
  destruct (push_verified_cpu _ _ _ _ _) as [a h]. cbn [fst snd].
  by destruct (push_model_binding_check _ _ _ _) as [b m].
Qed.

Lemma fixture_blocked_iff request e provider reference :
  blocked (rq_policy request) (fixture_audit request e provider reference).1.1 = false
  ↔ fixture_satisfies request e provider reference.
Proof.
  rewrite fixture_audit_eq. cbn zeta. unfold fixture_data_audit, fixture_channel_audit.
  rewrite blocked_final by audit_fresh.
  rewrite blocked_provenance by audit_fresh. rewrite blocked_model_binding by audit_fresh.
  rewrite blocked_na by audit_fresh. rewrite blocked_data_checks by audit_fresh.
  rewrite blocked_channel_key by audit_fresh. rewrite !blocked_na by audit_fresh.
  rewrite blocked_verified_cpu by audit_fresh. rewrite blocked_route_metadata by audit_fresh.
  rewrite no_checks_pass. unfold fixture_request_result, fixture_response_result, fixture_integrity.
  rewrite bound_data_ok by done. unfold fixture_cpu_match. rewrite cpu_match_required. audit_eval.
  fold (unsupported_provenance (provenance (rq_policy request))).
  change (negb ((Some NotApplicable =?= Some Verified) || _)) with true. rewrite andb_true_r.
  rewrite !orb_false_iff, !required_iff, !negb_false_iff, !andb_true_iff, bool_decide_eq_true.
  split; [intros H; destruct_and!; by constructor | intros []; by split_and!].
Qed.

Lemma fixture_parts_audit request e provider reference pd ed b :
  vp_audit (fixture_parts request e provider reference pd ed b)
  = (fixture_audit request e provider reference).1.1.
Proof. unfold fixture_parts. by destruct (fixture_audit _ _ _ _) as [[]]. Qed.

(** A fixture verdict under an enforcing policy allows the request
    exactly when the evidence meets the policy: route metadata matches the signed
    reference, CPU kind and measurement are accepted as the policy asks, a
    required channel key is the pinned one, request and response are bound, no
    receipt is demanded, the model is the requested one where required,
    provenance digests match, and no per-request freshness or build provenance is
    demanded. *)
Theorem fixture_enforced_allowed_iff now request v :
  verify_fixture_evidence now request = Ok v → enforcement (rq_policy request) = Enforce →
  ∃ e provider reference,
    fixture_from_slice (rq_raw_evidence request) = Some e ∧ fe_schema e = FIXTURE_SCHEMA
    ∧ find_references request = Ok (provider, reference)
    ∧ (v_request_allowed v = true ↔ fixture_satisfies request e provider reference).
Proof.
  unfold verify_fixture_evidence. intros H He. inv_ok. bools.
  match goal with H : find_references _ = Ok ?p |- _ => destruct p as [provider reference] end.
  match goal with H : fixture_from_slice _ = Some ?x |- _ => rename x into e end.
  inv_ok. exists e, provider, reference. split; [done|]. split; [done|]. split; [done|].
  apply finished_allowed in H; [|done]. rewrite H, negb_true_iff.
  match goal with H : context [fixture_parts _ _ _ _ ?d ?d' ?w] |- _ =>
    rewrite (fixture_parts_audit request e provider reference d d' w) end.
  apply fixture_blocked_iff.
Qed.

(** ** Progress *)

Lemma fixture_audit_built request e provider reference :
  built (fixture_audit request e provider reference).1.1.
Proof.
  rewrite fixture_audit_eq. cbn zeta. unfold fixture_data_audit, fixture_channel_audit.
  apply built_final; [audit_fresh|]. apply built_provenance; [audit_fresh|].
  apply built_model_binding; [audit_fresh|]. apply built_insert; [|audit_fresh].
  apply built_data_checks; [audit_fresh|]. apply built_channel_key; [visible_message|audit_fresh|].
  apply built_insert; [|audit_fresh]. apply built_insert; [|audit_fresh].
  apply built_verified_cpu; [visible_message..|audit_fresh|].
  apply built_route_metadata; [audit_fresh|]. apply built_none.
Qed.

Lemma fixture_hardware_verified request e provider reference :
  fixture_cpu_match (rq_policy request) e provider reference = true →
  (fixture_audit request e provider reference).1.2 = true.
Proof.
  intros H. unfold fixture_audit, fixture_hardware_audit, push_verified_cpu. rewrite H.
  destruct (hw_cpu (hardware (rq_policy request)));
    by destruct (fixture_closing_audit _ _ _ _).
Qed.

Lemma fixture_model request e provider reference pd ed b :
  vp_model_binding_result (fixture_parts request e provider reference pd ed b) = ModelVerified →
  checks (fixture_audit request e provider reference).1.1 !! "model_binding" = Some Verified.
Proof.
  intros H. rewrite fixture_audit_eq. cbn zeta. audit_eval. apply model_verified_check. revert H.
  unfold fixture_parts, fixture_audit, fixture_hardware_audit, fixture_closing_audit.
  destruct (push_verified_cpu _ _ _ _ _) as [a h]. cbn [fst snd].
  destruct (push_model_binding_check _ _ _ _) as [a' m]. done.
Qed.

Lemma fixture_reports request e provider reference pd ed b :
  ∃ a, reports_channel (fixture_parts request e provider reference pd ed b) (rq_policy request)
    (cb_request_bound (fe_channel_binding e)) (cb_response_bound (fe_channel_binding e)) EncryptedBound a.
Proof.
  eexists. constructor.
  - intros name Hn. rewrite fixture_parts_audit, fixture_audit_eq. cbn zeta.
    unfold fixture_data_audit, data_names in *.
    repeat (apply elem_of_cons in Hn as [->|Hn]; [repeat audit_step; reflexivity|]). by apply elem_of_nil in Hn.
  - unfold fixture_parts. by destruct (fixture_audit _ _ _ _) as [[]].
  - unfold fixture_parts. by destruct (fixture_audit _ _ _ _) as [[]].
  - unfold fixture_parts. by destruct (fixture_audit _ _ _ _) as [[]].
  - unfold fixture_parts. by destruct (fixture_audit _ _ _ _) as [[]].
  - unfold fixture_parts. by destruct (fixture_audit _ _ _ _) as [[]].
Qed.
End Fixture.

Section FixtureProgress.
Context {prim : Primitives} {laws : Sha256Laws} {readers : EvidenceReaders}.

Lemma fixture_summary request e provider reference pd ed b now issued :
  request_ok request reference →
  compute_validity_bounds now (fe_issued_at e) (verdict_ttl_millis (rq_policy request)) None
    (validity_candidates (fe_expires_at_epoch_ms e) (fe_expires_at e) reference (rq_reference_values request))
    = Ok b →
  parse_utc_timestamp_millis (fe_issued_at e) = Ok issued →
  (0 ≤ saturating_add issued (verdict_ttl_millis (rq_policy request)) < end_of_year_9999)%Z →
  spells (fe_expires_at_epoch_ms e, fe_expires_at e) →
  no_receipt_demanded (rq_policy request) = true →
  cb_request_bound (fe_channel_binding e) = true → cb_response_bound (fe_channel_binding e) = true →
  rt_trust_tier (rq_route request) = AppE2ee → rt_channel_binding_kind (rq_route request) = KindAttestedAppE2ee →
  summary_ok request (fixture_parts request e provider reference pd ed b).
Proof.
  intros [] Hb Hi Httl Hexp Hn Hb1 Hb2 Htier Hkind.
  destruct (fixture_reports request e provider reference pd ed b) as [a Hrep].
  constructor.
  - eapply validity_summary_ok with (candidates := validity_candidates (fe_expires_at_epoch_ms e)
      (fe_expires_at e) reference (rq_reference_values request)) (wall := None).
    + unfold fixture_parts. destruct (fixture_audit _ _ _ _) as [[]]. exact Hb.
    + unfold fixture_parts. by destruct (fixture_audit _ _ _ _) as [[]].
    + exact Hi.
    + exact Httl.
    + done.
    + by repeat constructor.
    + unfold validity_candidates. set_solver.
  - rewrite fixture_parts_audit. apply fixture_model.
  - eapply channel_request_summary; [|exact Hrep]; done.
  - eapply channel_response_summary; [|exact Hrep|]; done.
  - unfold validate_trust_tier_summary. case_bool_decide; [|done]. cbn [negb].
    destruct Hrep as [_ _ H1 _ H2 _].
    cbn [build_verdict v_trust_tier v_channel_binding_kind v_request_channel_bound v_response_channel_bound].
    rewrite H1, H2, Hb1, Hb2, Hkind. unfold fixture_parts.
    destruct (fixture_audit _ _ _ _) as [[]]. cbn [vp_trust_tier]. by rewrite Htier.
Qed.

(** Good evidence gets through: when decoded fixture evidence meets the
    policy, its channel key is the pinned one, the route is an app-E2EE route, and
    the request and its timestamps are in order, verification returns a verdict,
    with status verified, and the request is allowed. *)
Theorem fixture_complete now request e provider reference pd ed issued :
  fixture_from_slice (rq_raw_evidence request) = Some e → fe_schema e = FIXTURE_SCHEMA →
  find_references request = Ok (provider, reference) →
  fixture_satisfies request e provider reference →
  fixture_channel_verified request e reference = true →
  enforcement (rq_policy request) = Enforce →
  rt_trust_tier (rq_route request) = AppE2ee → rt_channel_binding_kind (rq_route request) = KindAttestedAppE2ee →
  request_ok request reference →
  canonical_digest (fixture_value e) = Ok ed → policy_digest (rq_policy request) = Ok pd →
  parse_utc_timestamp_millis (fe_issued_at e) = Ok issued →
  (0 ≤ saturating_add issued (verdict_ttl_millis (rq_policy request)) < end_of_year_9999)%Z →
  spells (fe_expires_at_epoch_ms e, fe_expires_at e) →
  ∃ v, verify_fixture_evidence now request = Ok v ∧ v_status v = StatusVerified
    ∧ v_request_allowed v = true ∧ v_errors v = [].
Proof.
  intros He Hschema Href Hsat Hch Henf Htier Hkind Hok Hed Hpd Hi Httl Hexp.
  destruct (compute_validity_Ok now (fe_issued_at e) issued (verdict_ttl_millis (rq_policy request)) None
    (validity_candidates (fe_expires_at_epoch_ms e) (fe_expires_at e) reference (rq_reference_values request)) Hi)
    as [b Hb].
  set (p := fixture_parts request e provider reference pd ed b).
  assert (vp_audit p = (fixture_audit request e provider reference).1.1) as Ha by apply fixture_parts_audit.
  pose proof (fixture_audit_built request e provider reference) as Hbuilt. rewrite <-Ha in Hbuilt.
  pose proof (proj2 (fixture_blocked_iff request e provider reference) Hsat) as Hpass. rewrite <-Ha in Hpass.
  assert (finish_verdict request p = Ok (build_verdict request p)) as Hfin.
  { apply finish_progress; [done| |].
    - destruct Hok. constructor; try done.
      + intros t Ht. unfold p, fixture_parts in Ht. destruct (fixture_audit _ _ _ _) as [[]].
        injection Ht as <-. apply cpu_platform_named.
      + unfold p, fixture_parts. destruct (fixture_audit _ _ _ _) as [[]]. by eapply policy_digest_valid.
      + unfold p, fixture_parts. destruct (fixture_audit _ _ _ _) as [[]]. apply sha256_digest_valid.
      + unfold p, fixture_parts. destruct (fixture_audit _ _ _ _) as [[]]. by eapply canonical_digest_valid.
    - destruct Hsat. by eapply fixture_summary. }
  exists (build_verdict request p). split.
  { unfold verify_fixture_evidence. rewrite He, ok_or_some, ok_bind, Hschema, bool_decide_true by done.
    cbn [negb]. rewrite Href, ok_bind, Hed, ok_bind, Hpd, ok_bind, Hb, ok_bind. exact Hfin. }
  unfold blocked in Hpass. cbn [build_verdict v_status v_request_allowed v_errors].
  rewrite Hpass, Henf. cbn [verdict_status request_allowed negb]. split_and!; [|done|].
  - unfold p, fixture_parts. pose proof (fixture_hardware_verified request e provider reference (fs_cpu _ _ _ _ Hsat)) as Hhw.
    destruct (fixture_audit _ _ _ _) as [[]]. cbn in Hhw |- *. by rewrite Hhw, Hch.
  - by eapply passing_no_errors.
Qed.
End FixtureProgress.

(** A policy that demands a response receipt gets an error, not a blocked
    verdict, from fixture evidence whose response is channel-bound: the verdict
    would report channel-bound integrity over a failed check, and its own audit
    rejects it. *)
Theorem fixture_receipt_policy_is_error {prim : Primitives} {readers : EvidenceReaders} now request e :
  fixture_from_slice (rq_raw_evidence request) = Some e →
  cb_response_bound (fe_channel_binding e) = true →
  response_integrity_requirement (rq_policy request) = IntegrityReceiptBound →
  is_ok (verify_fixture_evidence now request) = false.
Proof.
  intros He Hb Hr. destruct (verify_fixture_evidence now request) as [v|] eqn:E; [|done].
  unfold verify_fixture_evidence in E. rewrite He, ok_or_some, ok_bind in E. inv_ok.
  match goal with H : find_references _ = Ok ?p |- _ => destruct p as [provider reference] end. inv_ok.
  match goal with H : finish_verdict _ (fixture_parts _ _ _ _ ?pd ?ed ?b) = _ |- _ =>
    destruct (fixture_reports request e provider reference pd ed b) as [a Hrep] end.
  eapply (channel_receipt_rejected request) in Hrep; [|done..]. by rewrite E in Hrep.
Qed.

(** ** Concrete inputs *)

Definition sample_fixture : FixtureEvidence := {|
  fe_schema := FIXTURE_SCHEMA; fe_provider := "near"; fe_route_id := "r";
  fe_evidence_family := "fixture_dstack"; fe_tee_measurement := "tdx:1";
  fe_hardware := {| eh_cpu := Tdx; eh_gpu := None |};
  fe_channel_binding := {| cb_kind := KindAttestedAppE2ee; cb_public_key_digest := "k";
                           cb_request_bound := true; cb_response_bound := true |};
  fe_attested_model := "m"; fe_workload_image_digest := "d"; fe_model_artifacts := [];
  fe_issued_at := "2026-02-01T00:00:00Z"; fe_expires_at := "2026-02-01T00:05:00Z";
  fe_expires_at_epoch_ms := 1769904300000 |}.

#[local] Instance sample_fixture_readers : EvidenceReaders := {|
  value_from_slice _ := None; fixture_from_slice raw := if raw =?= "fixture" then Some sample_fixture else None;
  tinfoil_tls_from_slice _ := None; chutes_e2ee_from_slice _ := None; chutes_live_from_slice _ := None;
  tinfoil_live_from_slice _ := None; near_live_from_slice _ := None; dstack_from_slice _ := None;
  base64_decode s := Some s |}.

Definition fixture_route := sample_attested_route "fixture_dstack" KindAttestedAppE2ee AppE2ee.
Definition fixture_reference :=
  sample_reference "fixture_dstack" KindAttestedAppE2ee AppE2ee sample_timestamp 1772359200000.
Definition fixture_request : VerificationRequest :=
  sample_request require_attested_e2ee fixture_route fixture_reference None "fixture".

Example fixture_run :
  match verify_fixture_evidence 0 fixture_request with
  | Ok v => v_status v = StatusVerified ∧ v_expires_at v = "2026-02-01T00:05:00Z"
  | Err _ => False
  end.
Proof. vm_compute. split; reflexivity. Qed.

Lemma fixture_enforced_allowed_iff_witness :
  ∃ v, verify_fixture_evidence 0 fixture_request = Ok v ∧ v_request_allowed v = true.
Proof.
  destruct (is_ok_inv (verify_fixture_evidence 0 fixture_request)) as [v E]; [vm_compute; reflexivity|].
  exists v. split; [done|].
  destruct (fixture_enforced_allowed_iff 0 fixture_request v E eq_refl) as (e & p & r & He & _ & Hr & Hiff).
  apply Hiff. vm_compute in He. injection He as <-. vm_compute in Hr. injection Hr as <- <-.
  constructor; vm_compute; done.
Defined.

Lemma fixture_complete_witness :
  ∃ v, verify_fixture_evidence 0 fixture_request = Ok v ∧ v_status v = StatusVerified
    ∧ v_request_allowed v = true ∧ v_errors v = [].
Proof.
  eapply (fixture_complete 0 fixture_request sample_fixture
    {| pr_accepted_measurements := ["tdx:1"]; pr_routes := {[ "r" := fixture_reference ]} |}
    fixture_reference); try (vm_compute; reflexivity).
  - constructor; vm_compute; done.
  - constructor; try (vm_compute; done).
  - vm_compute. split; congruence.
Defined.

Lemma fixture_receipt_policy_is_error_witness :
  let policy := set_bindings require_attested_e2ee AttestedAppE2ee BoundToAttestedWorkload
                  BoundToAttestedWorkload IntegrityReceiptBound ModelNotRequired in
  is_ok (verify_fixture_evidence 0 (sample_request policy fixture_route fixture_reference None "fixture")) = false.
Proof.
  intros policy. apply (fixture_receipt_policy_is_error 0 _ sample_fixture); reflexivity.
Defined.
