(* ===== verification/DstackVerifier.v ===== *)
(** * The dstack family

    [verify_dstack_evidence] of verifier.rs: provider-asserted measurements
    and keys compared with the signed reference values. No quote signature is
    checked, so the family reports nothing it cannot prove. *)

From Stdlib Require Import Ascii String ZArith Lia.
From stdpp Require Import base gmap strings list numbers.
From S2P Require Import Prelude RustStr Errors Collections Timestamps Canonical JsonInjective Policy Verdict Evidence Bindings Signature ReferenceValues VerifierCore VerifierSound EvidenceDocuments.

Open Scope string_scope.

Section Dstack.
Context {prim : Primitives} {readers : EvidenceReaders} {reader : YamlReader}.

Definition dstack_tcb_verified (e : DstackEvidence) : bool :=
  verify_dstack_tcb_compose_hash (Some (de_tcb_info e)) (Some (de_quote_measurements e)) =?= TcbVerified.

(** Route metadata and hardware: the audit and [hardware_verified]. *)
Definition dstack_hardware_audit (request : VerificationRequest) (e : DstackEvidence)
    (provider : ProviderReference) (reference : RouteReference) : Audit * bool :=
  let requirement := hw_cpu (hardware (rq_policy request)) in
  let a := push_route_metadata (de_provider e) (de_route_id e) (de_evidence_family e) (rq_route request)
             reference no_checks in
  let '(a, cpu_verified) :=
    push_claimed_cpu requirement
      (cpu_reference_match requirement (eh_cpu (de_hardware e)) (de_tee_measurement e) provider reference)
      "dstack_app_e2ee evidence does not verify the TDX quote signature, so a required CPU TEE cannot be satisfied by this evidence family"
      a in
  let tcb_verified := dstack_tcb_verified e in
  let a := push_check "tcb_compose_hash" tcb_verified
             "dstack tcb_info is not bound to quote measurements or compose_hash" a in
  (insert_check "tls_binding" NotApplicable (insert_check "gpu_tee" NotApplicable a),
   cpu_verified && tcb_verified).

Definition dstack_channel_reference_matches (request : VerificationRequest) (e : DstackEvidence)
    (reference : RouteReference) : bool :=
  let requirement := channel_binding_requirement (rq_policy request) in
  channel_satisfies (rt_channel_binding_kind (rq_route request)) requirement
  && channel_satisfies (cb_kind (de_channel_binding e)) requirement
  && (cb_kind (de_channel_binding e) =?= rr_channel_binding_kind reference)
  && (cb_public_key_digest (de_channel_binding e) =?= rr_e2ee_public_key_digest reference).

(** The channel key: matched against the reference, never proved. *)
Definition dstack_channel_audit (request : VerificationRequest) (e : DstackEvidence)
    (reference : RouteReference) (a : Audit) : Audit :=
  let a := push_check "e2ee_key_reference_match" (dstack_channel_reference_matches request e reference)
             "channel key metadata does not match signed reference values" a in
  match channel_binding_requirement (rq_policy request) with
  | ChannelNotRequired => insert_check "e2ee_key_binding" NotApplicable a
  | _ => insert_check "e2ee_key_binding" NotSupported a
  end.

Definition dstack_channel_verified (request : VerificationRequest) : bool :=
  channel_binding_requirement (rq_policy request) =?= ChannelNotRequired.

(** Data the evidence cannot speak for: a required binding fails, a required
    encryption is unknown. *)
Definition push_unproved (required : bool) (name message : string) (a : Audit) : Audit :=
  if required then push_check name false message a else insert_check name NotApplicable a.
Definition insert_unproved (required : bool) (name : string) (a : Audit) : Audit :=
  insert_check name (if required then Unknown else NotApplicable) a.

Definition dstack_data_audit (policy : VerificationPolicy) (a : Audit) : Audit :=
  let request_required := negb (request_confidentiality_requirement policy =?= DataNotRequired) in
  let response_required := negb (response_confidentiality_requirement policy =?= DataNotRequired) in
  let integrity_required := negb (response_integrity_requirement policy =?= IntegrityNotRequired) in
  let a := push_unproved request_required "request_key_binding"
             "request confidentiality is not bound to the attested workload" a in
  let a := insert_unproved request_required "request_encryption" a in
  let a := push_unproved response_required "response_key_binding"
             "response confidentiality is not bound to the attested workload" a in
  let a := insert_unproved response_required "response_encryption" a in
  let a := push_unproved integrity_required "response_channel_binding"
             "response bytes are not cryptographically bound as required by policy" a in
  insert_check "nonce_binding" NotApplicable (insert_check "response_receipt" NotApplicable a).

Definition dstack_model_verified (request : VerificationRequest) (e : DstackEvidence)
    (reference : RouteReference) : bool :=
  (de_attested_model e =?= Some (rt_canonical_model (rq_route request)))
  && (rr_canonical_model reference =?= rt_canonical_model (rq_route request)).

(** Workload images: derived from the compose document, digest-pinned, and
    those of the reference. *)
Definition dstack_manifest_bound (e : DstackEvidence) : bool :=
  match parse_dstack_workload_images (ti_app_compose (de_tcb_info e)) with
  | Ok manifest => manifest =?= de_workload_images e
  | Err _ => false
  end.
Definition dstack_images_match (e : DstackEvidence) (reference : RouteReference) : bool :=
  negb (match de_workload_images e with [] => true | _ => false end)
  && forallb is_digest_pinned (de_workload_images e)
  && (de_workload_images e =?= rr_workload_images reference).

Definition dstack_provenance_audit (policy : VerificationPolicy) (e : DstackEvidence)
    (reference : RouteReference) (a : Audit) : Audit :=
  if provenance_required (provenance policy) then
    let a := push_check "workload_manifest_binding" (dstack_manifest_bound e)
               "workload image manifest is not completely derived from the quote-bound compose document" a in
    let a := push_check "image_provenance" (dstack_images_match e reference)
               "complete digest-pinned workload image manifest does not match reference values" a in
    push_check "model_artifact_provenance"
      (artifacts_present (rr_model_artifacts reference) (de_model_artifacts e))
      "model artifact digests do not match reference values" a
  else
    insert_check "model_artifact_provenance" NotApplicable
      (insert_check "image_provenance" NotApplicable
         (insert_check "workload_manifest_binding" NotApplicable a)).

Definition dstack_audit (request : VerificationRequest) (e : DstackEvidence)
    (provider : ProviderReference) (reference : RouteReference) : Audit * bool * ModelBindingResult :=
  let policy := rq_policy request in
  let '(a, hardware_verified) := dstack_hardware_audit request e provider reference in
  let a := dstack_data_audit policy (dstack_channel_audit request e reference a) in
  let '(a, model) := push_model_binding_check (model_binding_requirement policy)
                       (is_some (de_attested_model e)) (dstack_model_verified request e reference) a in
  (push_final_checks policy (dstack_provenance_audit policy e reference a), hardware_verified, model).

(** The fields of the dstack verdict. *)
Definition dstack_parts (request : VerificationRequest) (e : DstackEvidence)
    (provider : ProviderReference) (reference : RouteReference) (policy_digest evidence_digest : string)
    (validity : ComputedValidityBounds) : VerdictParts :=
  let '(audit, hardware_verified, model) := dstack_audit request e provider reference in {|
    vp_audit := audit;
    vp_tee_platform := Some (cpu_policy_str (eh_cpu (de_hardware e)));
    vp_proved := hardware_verified && dstack_channel_verified request;
    vp_trust_tier := if hardware_verified then TeeOnly else TierNone;
    vp_model_binding_result := model;
    vp_request_channel_bound := false;
    vp_request_confidentiality_result := ConfUnknown;
    vp_response_confidentiality_result := ConfUnknown;
    vp_response_channel_bound := false;
    vp_response_integrity_result := RespUnknown;
    vp_policy_digest := policy_digest;
    vp_raw_evidence_digest := sha256_digest (rq_raw_evidence request);
    vp_evidence_digest := evidence_digest;
    vp_issued_at := de_issued_at e;
    vp_validity := validity;
    vp_evidence_until := cv_expires_at validity;
    vp_artifacts := {|
      va_source_url := Some (rt_evidence_endpoint (rq_route request));
      va_tee_measurement := Some (de_tee_measurement e);
      va_report_data := Some (cb_public_key_digest (de_channel_binding e));
      va_signing_public_key := None;
      va_e2ee_capability := Some "dstack-e2ee";
      va_model_manifest := de_attested_model e;
      va_model_artifacts := de_model_artifacts e |} |}.

Definition verify_dstack_evidence (now : Z) (request : VerificationRequest) : Result AttestationVerdict :=
  e ← ok_or (dstack_from_slice (rq_raw_evidence request)) json_error;
  bail (InvalidEvidence "unsupported schema {}") when negb (de_schema e =?= DSTACK_SCHEMA);
  '(provider, reference) ← find_references request;
  evidence_digest ← canonical_digest (dstack_value e);
  policy_digest ← policy_digest (rq_policy request);
  validity ← compute_validity_bounds now (de_issued_at e) (verdict_ttl_millis (rq_policy request))
               (Some (verdict_ttl_millis (rq_policy request)))
               (validity_candidates (de_expires_at_epoch_ms e) (de_expires_at e) reference
                  (rq_reference_values request));
  finish_verdict request (dstack_parts request e provider reference policy_digest evidence_digest validity).

(** ** Specification

    The policies dstack evidence can serve, and what it must show for them. *)
Record dstack_satisfies (request : VerificationRequest) (e : DstackEvidence)
    (reference : RouteReference) : Prop := {
  ds_route : route_metadata_matches (de_provider e) (de_route_id e) (de_evidence_family e)
               (rq_route request) reference = true;
  ds_no_cpu : hw_cpu (hardware (rq_policy request)) = CpuNotRequired;
  ds_tcb : verify_dstack_tcb_compose_hash (Some (de_tcb_info e)) (Some (de_quote_measurements e)) = TcbVerified;
  ds_key_reference : dstack_channel_reference_matches request e reference = true;
  ds_no_channel : channel_binding_requirement (rq_policy request) = ChannelNotRequired;
  ds_no_request : request_confidentiality_requirement (rq_policy request) = DataNotRequired;
  ds_no_response : response_confidentiality_requirement (rq_policy request) = DataNotRequired;
  ds_no_integrity : response_integrity_requirement (rq_policy request) = IntegrityNotRequired;
  ds_model : model_requirement_met (model_binding_requirement (rq_policy request))
               (is_some (de_attested_model e)) (dstack_model_verified request e reference) = true;
  ds_provenance : provenance_required (provenance (rq_policy request)) = true →
    dstack_manifest_bound e = true ∧ dstack_images_match e reference = true
    ∧ artifacts_present (rr_model_artifacts reference) (de_model_artifacts e) = true;
  ds_unsupported : unsupported_provenance (provenance (rq_policy request)) = false;
  ds_freshness : per_request (rq_policy request) = false;
}.

(** ** The audit blocks exactly when the specification fails *)

Lemma blocked_unproved policy required name message a :
  fresh name a → blocked policy (push_unproved required name message a) = required || blocked policy a.
Proof. intros H. destruct required; cbn [push_unproved]; by rewrite ?blocked_push, ?blocked_na by done. Qed.
Lemma lookup_unproved name required n message a :
  (name =?= n) = false → checks (push_unproved required n message a) !! name = checks a !! name.
Proof. intros H. destruct required; cbn [push_unproved]; [by rewrite lookup_push_check_ne | by rewrite lookup_insert_check_ne]. Qed.
Lemma blocked_unknown policy required name a :
  fresh name a → check_blocks policy (name, Unknown) = required →
  blocked policy (insert_unproved required name a) = required || blocked policy a.
Proof.
  intros H E. unfold insert_unproved. destruct required; rewrite ?blocked_na, ?blocked_insert by done;
    [by rewrite E|done].
Qed.

Definition data_audit_names : list string :=
  ["request_key_binding"; "request_encryption"; "response_key_binding"; "response_encryption";
   "response_channel_binding"; "response_receipt"; "nonce_binding"].

Ltac dstack_step := first [audit_step | rewrite lookup_unproved by reflexivity].
Ltac dstack_fresh :=
  unfold all_fresh, fresh, insert_unproved, data_audit_names in *;
  repeat match goal with H : Forall _ (_ :: _) |- _ => apply List.Forall_cons_iff in H as [? H] end;
  repeat (apply List.Forall_cons; [|]); try apply List.Forall_nil;
  repeat dstack_step; try reflexivity; try assumption.

Lemma lookup_dstack_data name policy a :
  contains data_audit_names name = false → checks (dstack_data_audit policy a) !! name = checks a !! name.
Proof.
  intros H. cbn in H. bools. unfold dstack_data_audit, insert_unproved.
  repeat first [ rewrite lookup_insert_check_ne by (apply bool_decide_eq_false; intuition congruence)
               | rewrite lookup_unproved by (apply bool_decide_eq_false; intuition congruence) ].
  done.
Qed.
Lemma blocked_dstack_data policy a :
  all_fresh data_audit_names a →
  blocked policy (dstack_data_audit policy a)
  = negb ((request_confidentiality_requirement policy =?= DataNotRequired)
          && (response_confidentiality_requirement policy =?= DataNotRequired)
          && (response_integrity_requirement policy =?= IntegrityNotRequired)) || blocked policy a.
Proof.
  intros H. unfold dstack_data_audit. rewrite !blocked_na by dstack_fresh.
  rewrite blocked_unproved by dstack_fresh. rewrite blocked_unknown by (dstack_fresh || reflexivity).
  rewrite blocked_unproved by dstack_fresh. rewrite blocked_unknown by (dstack_fresh || reflexivity).
  rewrite blocked_unproved by dstack_fresh.
  by destruct (request_confidentiality_requirement policy =?= DataNotRequired),
    (response_confidentiality_requirement policy =?= DataNotRequired),
    (response_integrity_requirement policy =?= IntegrityNotRequired).
Qed.

Lemma blocked_dstack_channel request e reference a :
  all_fresh ["e2ee_key_reference_match"; "e2ee_key_binding"] a →
  blocked (rq_policy request) (dstack_channel_audit request e reference a)
  = negb (dstack_channel_reference_matches request e reference
          && dstack_channel_verified request) || blocked (rq_policy request) a.
Proof.
  intros H. unfold dstack_channel_audit, dstack_channel_verified.
  destruct (channel_binding_requirement (rq_policy request)) eqn:E;
    rewrite ?blocked_na by dstack_fresh; rewrite ?blocked_insert by dstack_fresh;
    rewrite blocked_push by dstack_fresh.
  2-4: change (check_blocks (rq_policy request) ("e2ee_key_binding", NotSupported))
         with (channel_required (rq_policy request)); unfold channel_required; rewrite E.
  all: destruct (dstack_channel_reference_matches request e reference); reflexivity.
Qed.
Lemma lookup_dstack_channel name request e reference a :
  contains ["e2ee_key_reference_match"; "e2ee_key_binding"] name = false →
  checks (dstack_channel_audit request e reference a) !! name = checks a !! name.
Proof.
  intros H. cbn in H. bools. unfold dstack_channel_audit.
  destruct (channel_binding_requirement (rq_policy request)); autorewrite with audit_lookup;
    by rewrite !bool_decide_false by intuition congruence.
Qed.

Lemma blocked_dstack_provenance policy e reference a :
  all_fresh ["workload_manifest_binding"; "image_provenance"; "model_artifact_provenance"] a →
  blocked policy (dstack_provenance_audit policy e reference a)
  = (provenance_required (provenance policy)
     && negb (dstack_manifest_bound e && dstack_images_match e reference
              && artifacts_present (rr_model_artifacts reference) (de_model_artifacts e)))
    || blocked policy a.
Proof.
  intros H. unfold dstack_provenance_audit. destruct (provenance_required _).
  - rewrite !blocked_push by dstack_fresh.
    by destruct (dstack_manifest_bound e), (dstack_images_match e reference), (artifacts_present _ _).
  - by rewrite !blocked_na by dstack_fresh.
Qed.
Lemma lookup_dstack_provenance name policy e reference a :
  contains ["workload_manifest_binding"; "image_provenance"; "model_artifact_provenance"] name = false →
  checks (dstack_provenance_audit policy e reference a) !! name = checks a !! name.
Proof.
  intros H. cbn in H. bools. unfold dstack_provenance_audit.
  destruct (provenance_required (provenance policy)); autorewrite with audit_lookup;
    by rewrite !bool_decide_false by intuition congruence.
Qed.

Ltac dstack_lookup :=
  first [ dstack_step | rewrite lookup_dstack_data by reflexivity
        | rewrite lookup_dstack_channel by reflexivity | rewrite lookup_dstack_provenance by reflexivity ].
Ltac dstack_untouched :=
  unfold all_fresh, fresh; repeat (apply List.Forall_cons; [|]); try apply List.Forall_nil;
  repeat dstack_lookup; try reflexivity.

Lemma dstack_audit_eq request e provider reference :
  (dstack_audit request e provider reference).1.1 =
    let policy := rq_policy request in
    let requirement := hw_cpu (hardware policy) in
    let a := push_route_metadata (de_provider e) (de_route_id e) (de_evidence_family e) (rq_route request)
               reference no_checks in
    let a := (push_claimed_cpu requirement
      (cpu_reference_match requirement (eh_cpu (de_hardware e)) (de_tee_measurement e) provider reference)
      "dstack_app_e2ee evidence does not verify the TDX quote signature, so a required CPU TEE cannot be satisfied by this evidence family"
      a).1 in
    let a := push_check "tcb_compose_hash" (dstack_tcb_verified e)
               "dstack tcb_info is not bound to quote measurements or compose_hash" a in
    let a := insert_check "tls_binding" NotApplicable (insert_check "gpu_tee" NotApplicable a) in
    let a := dstack_data_audit policy (dstack_channel_audit request e reference a) in
    let a := (push_model_binding_check (model_binding_requirement policy)
                (is_some (de_attested_model e)) (dstack_model_verified request e reference) a).1 in
    push_final_checks policy (dstack_provenance_audit policy e reference a).
Proof.
  unfold dstack_audit, dstack_hardware_audit.
  destruct (push_claimed_cpu _ _ _ _) as [a h]. cbn [fst snd].
  by destruct (push_model_binding_check _ _ _ _) as [b m].
Qed.

Lemma dstack_nonce policy a : checks (dstack_data_audit policy a) !! "nonce_binding" = Some NotApplicable.
Proof. apply lookup_insert_check_eq. Qed.
Lemma dstack_receipt policy a : checks (dstack_data_audit policy a) !! "response_receipt" = Some NotApplicable.
Proof.
  unfold dstack_data_audit. rewrite lookup_insert_check_ne by reflexivity. apply lookup_insert_check_eq.
Qed.

Lemma cpu_not_required_iff policy : cpu_required policy = false ↔ hw_cpu (hardware policy) = CpuNotRequired.
Proof. unfold cpu_required. by destruct (hw_cpu (hardware policy)). Qed.

Lemma dstack_blocked_iff request e provider reference :
  blocked (rq_policy request) (dstack_audit request e provider reference).1.1 = false
  ↔ dstack_satisfies request e reference.
Proof.
  rewrite dstack_audit_eq. cbn zeta.
  rewrite blocked_final by dstack_untouched. rewrite blocked_dstack_provenance by dstack_untouched.
  rewrite blocked_model_binding by dstack_untouched. rewrite blocked_dstack_data by dstack_untouched.
  rewrite blocked_dstack_channel by dstack_untouched. rewrite !blocked_na by dstack_untouched.
  rewrite blocked_push by dstack_untouched. rewrite blocked_claimed_cpu by dstack_untouched.
  rewrite blocked_route_metadata by dstack_untouched. rewrite no_checks_pass.
  repeat dstack_lookup. rewrite dstack_nonce, dstack_receipt.
  change (negb ((Some NotApplicable =?= Some Verified) || _)) with true. rewrite andb_true_r.
  fold (unsupported_provenance (provenance (rq_policy request))).
  unfold dstack_channel_verified, dstack_tcb_verified.
  rewrite !orb_false_iff, !required_iff, !negb_false_iff, !andb_true_iff, !bool_decide_eq_true,
    cpu_not_required_iff.
  split; [intros H; destruct_and!; constructor; tauto | intros []; tauto].
Qed.

Lemma dstack_parts_audit request e provider reference pd ed b :
  vp_audit (dstack_parts request e provider reference pd ed b)
  = (dstack_audit request e provider reference).1.1.
Proof. unfold dstack_parts. by destruct (dstack_audit _ _ _ _) as [[]]. Qed.

(** A dstack verdict under an enforcing policy allows the request exactly
    for policies that require no CPU TEE, no channel, no request or response
    binding, no per-request freshness and no build provenance, and evidence
    whose route metadata, compose hash, channel-key metadata, model and workload
    images match the signed references. *)
Theorem dstack_enforced_allowed_iff now request v :
  verify_dstack_evidence now request = Ok v → enforcement (rq_policy request) = Enforce →
  ∃ e provider reference,
    dstack_from_slice (rq_raw_evidence request) = Some e ∧ de_schema e = DSTACK_SCHEMA
    ∧ find_references request = Ok (provider, reference)
    ∧ (v_request_allowed v = true ↔ dstack_satisfies request e reference).
Proof.
  unfold verify_dstack_evidence. intros H He. inv_ok. bools.
  match goal with H : find_references _ = Ok ?p |- _ => destruct p as [provider reference] end.
  match goal with H : dstack_from_slice _ = Some ?x |- _ => rename x into e end.
  inv_ok. exists e, provider, reference. split; [done|]. split; [done|]. split; [done|].
  apply finished_allowed in H; [|done]. rewrite H, negb_true_iff, dstack_parts_audit.
  apply dstack_blocked_iff.
Qed.

(** Whatever the policy, a dstack verdict never overstates: its tier is at
    most TEE-only, and it claims no request or response binding; the TEE-only
    tier is reported only when the policy asked for no CPU TEE and the compose
    hash was verified. *)
Theorem dstack_never_overstates now request v :
  verify_dstack_evidence now request = Ok v →
  v_request_channel_bound v = false ∧ v_response_channel_bound v = false
  ∧ v_request_confidentiality_result v = ConfUnknown ∧ v_response_confidentiality_result v = ConfUnknown
  ∧ v_response_integrity_result v = RespUnknown
  ∧ (v_trust_tier v = TierNone
     ∨ (v_trust_tier v = TeeOnly ∧ cpu_required (rq_policy request) = false
        ∧ v_checks v !! "tcb_compose_hash" = Some Verified)).
Proof.
  unfold verify_dstack_evidence. intros H. inv_ok.
  match goal with H : find_references _ = Ok ?p |- _ => destruct p as [provider reference] end.
  match goal with H : dstack_from_slice _ = Some ?x |- _ => rename x into e end.
  inv_ok. apply finish_Ok in H as [-> _].
  pose proof (dstack_audit_eq request e provider reference) as Heq. cbn zeta in Heq.
  assert (checks (dstack_audit request e provider reference).1.1 !! "tcb_compose_hash"
          = Some (if dstack_tcb_verified e then Verified else Failed)) as Htcb.
  { rewrite Heq. repeat dstack_lookup. apply lookup_push_check_eq. }
  assert ((dstack_audit request e provider reference).1.2
          = negb (cpu_required (rq_policy request)) && dstack_tcb_verified e) as Hhw.
  { unfold dstack_audit, dstack_hardware_audit, cpu_required, push_claimed_cpu.
    destruct (hw_cpu (hardware (rq_policy request))); by destruct (push_model_binding_check _ _ _ _). }
  unfold dstack_parts. destruct (dstack_audit _ _ _ _) as [[audit hw] model]. cbn [fst snd] in Htcb, Hhw.
  cbn [build_verdict v_request_channel_bound v_response_channel_bound v_request_confidentiality_result
       v_response_confidentiality_result v_response_integrity_result v_trust_tier v_checks
       vp_request_channel_bound vp_response_channel_bound vp_request_confidentiality_result
       vp_response_confidentiality_result vp_response_integrity_result vp_trust_tier vp_audit].
  split_and!; try done. rewrite Htcb, Hhw.
  destruct (cpu_required (rq_policy request)), (dstack_tcb_verified e); cbn [negb andb]; auto.
Qed.
End Dstack.

(** ** Concrete inputs *)

Definition sample_dstack : DstackEvidence := {|
  de_schema := DSTACK_SCHEMA; de_provider := "near"; de_route_id := "r";
  de_evidence_family := "dstack_app_e2ee"; de_tee_measurement := "tdx:1";
  de_hardware := {| eh_cpu := Tdx; eh_gpu := None |};
  de_quote_measurements := {| tq_mr_td := "td"; tq_rtmr0 := "r0" |};
  de_tcb_info := {| ti_mrtd := "td"; ti_rtmr0 := "r0"; ti_app_compose := "doc";
                    ti_compose_hash := sha256_hex "doc" |};
  de_channel_binding := {| cb_kind := KindAttestedAppE2ee; cb_public_key_digest := "k";
                           cb_request_bound := true; cb_response_bound := true |};
  de_attested_model := Some "m"; de_workload_images := sample_images; de_workload_image_digest := "d";
  de_model_artifacts := []; de_issued_at := "2026-02-01T00:00:00Z";
  de_expires_at := "2026-02-01T00:05:00Z"; de_expires_at_epoch_ms := 1769904300000 |}.

#[local] Instance sample_dstack_readers : EvidenceReaders := {|
  value_from_slice _ := None; fixture_from_slice _ := None;
  tinfoil_tls_from_slice _ := None; chutes_e2ee_from_slice _ := None; chutes_live_from_slice _ := None;
  tinfoil_live_from_slice _ := None; near_live_from_slice _ := None;
  dstack_from_slice raw := if raw =?= "dstack" then Some sample_dstack else None;
  base64_decode s := Some s |}.
#[local] Existing Instance sample_reader.

(** Workload images only: no hardware, channel or data requirement. *)
Definition provenance_only_policy : VerificationPolicy :=
  set_provenance (set_hardware require_hardware hardware_not_required)
    {| workload_image := true; model_artifacts_required := false; reproducible_build := false;
       source_attestation := false; dependency_sbom := false |}.

Definition dstack_request (policy : VerificationPolicy) : VerificationRequest :=
  sample_request policy (sample_attested_route "dstack_app_e2ee" KindAttestedAppE2ee AppE2ee)
    (sample_reference "dstack_app_e2ee" KindAttestedAppE2ee AppE2ee sample_timestamp 1772359200000)
    None "dstack".
Definition dstack_now : Z := 1769904000000.

Lemma dstack_enforced_allowed_iff_witness :
  ∃ v, verify_dstack_evidence dstack_now (dstack_request provenance_only_policy) = Ok v
    ∧ v_request_allowed v = true.
Proof.
  destruct (is_ok_inv (verify_dstack_evidence dstack_now (dstack_request provenance_only_policy))) as [v E];
    [vm_compute; reflexivity|].
  exists v. split; [done|].
  destruct (dstack_enforced_allowed_iff dstack_now _ v E eq_refl) as (e & p & r & He & _ & Hr & Hiff).
  apply Hiff. vm_compute in He. injection He as <-. vm_compute in Hr. injection Hr as <- <-.
  constructor; [vm_compute; reflexivity..| |vm_compute; reflexivity|vm_compute; reflexivity].
  intros _. split_and!; vm_compute; reflexivity.
Defined.

Lemma dstack_never_overstates_witness :
  ∃ v, verify_dstack_evidence dstack_now (dstack_request require_attested_e2ee) = Ok v
    ∧ v_request_channel_bound v = false.
Proof.
  destruct (is_ok_inv (verify_dstack_evidence dstack_now (dstack_request require_attested_e2ee))) as [v E];
    [vm_compute; reflexivity|].
  exists v. split; [done|]. apply (dstack_never_overstates dstack_now _ v E).
Defined.
