(* ===== verification/QuoteInterfaces.v ===== *)
(** * Quote and GPU verifier interfaces

    gpu.rs and tinfoil.rs: the traits through which a verifier reaches the
    hardware-quote and NVIDIA back ends, the fail-closed implementations used by
    default, and the decoding of a live Tinfoil capture. *)

From Stdlib Require Import Ascii String ZArith Lia.
From stdpp Require Import base gmap strings list numbers.
From S2P Require Import Prelude RustStr Errors Canonical JsonInjective Policy Verdict Evidence Bindings EvidenceDocuments.

Open Scope string_scope.

(** ** NVIDIA attestation (gpu.rs) *)

Record NvidiaGpuAttestationVerificationRequest := {
  nr_evidence : NvidiaGpuAttestationEvidence;
  nr_expected_nonce : string;
  nr_expected_tee : GpuTeeKind;
  nr_provider : string;
  nr_route_id : string;
}.

Record VerifiedGpuAttestation := {
  vg_tee : GpuTeeKind;
  vg_nonce : string;
  vg_attestation_format : string;
  vg_verifier : string;
}.

(** The trait [GpuAttestationVerifier]. *)
Class GpuAttestationVerifier := {
  verify_nvidia_gpu_attestation :
    NvidiaGpuAttestationVerificationRequest → Result VerifiedGpuAttestation;
}.

Definition FailClosedGpuAttestationVerifier : GpuAttestationVerifier := {|
  verify_nvidia_gpu_attestation _ :=
    Err (InvalidEvidence "NVIDIA GPU attestation verification backend is not configured") |}.

(** ** Tinfoil attestation formats (tinfoil.rs) *)

Definition TINFOIL_TDX_GUEST_V2_FORMAT := "https://tinfoil.sh/predicate/tdx-guest/v2".
Definition TINFOIL_SEV_SNP_GUEST_V2_FORMAT := "https://tinfoil.sh/predicate/sev-snp-guest/v2".
Definition MAX_TINFOIL_ATTESTATION_BODY_BYTES : nat := N.to_nat (1024 * 1024).
Definition MIN_TDX_QUOTE_BYTES : nat := 48.
Definition SNP_REPORT_BYTES : nat := N.to_nat 1184.

Record TinfoilAttestationDoc := { doc_format : string; doc_body : string }.

Inductive TinfoilAttestationFormat := TdxGuestV2 | SevSnpGuestV2.
#[export] Instance TinfoilAttestationFormat_eq_dec : EqDecision TinfoilAttestationFormat.
Proof. solve_decision. Defined.

Definition format_parse (format : string) : Result TinfoilAttestationFormat :=
  if format =?= TINFOIL_TDX_GUEST_V2_FORMAT then Ok TdxGuestV2
  else if format =?= TINFOIL_SEV_SNP_GUEST_V2_FORMAT then Ok SevSnpGuestV2
  else Err (InvalidEvidence "unknown Tinfoil attestation format {other}").

Definition format_as_str (format : TinfoilAttestationFormat) : string :=
  match format with
  | TdxGuestV2 => TINFOIL_TDX_GUEST_V2_FORMAT
  | SevSnpGuestV2 => TINFOIL_SEV_SNP_GUEST_V2_FORMAT
  end.

Definition quote_kind (format : TinfoilAttestationFormat) : string :=
  match format with TdxGuestV2 => "TDX" | SevSnpGuestV2 => "SEV-SNP" end.

Definition cpu_kind (format : TinfoilAttestationFormat) : CpuTeeKind :=
  match format with TdxGuestV2 => Tdx | SevSnpGuestV2 => SevSnp end.

Record ParsedTinfoilLiveCapture := {
  pc_capture : TinfoilLiveCaptureEvidence;
  pc_attestation_doc : TinfoilAttestationDoc;
  pc_attestation_format : TinfoilAttestationFormat;
  pc_quote_bytes : string;
  pc_live_tls_leaf_certificate_der : string;
}.

Record TinfoilQuoteVerificationRequest := {
  tr_capture : TinfoilLiveCaptureEvidence;
  tr_attestation_format : TinfoilAttestationFormat;
  tr_quote_bytes : string;
  tr_live_tls_leaf_certificate_der : string;
  tr_live_tls_spki_sha256 : string;
}.

(** The trait [TinfoilQuoteVerifier]. *)
Class TinfoilQuoteVerifier := {
  verify_tinfoil_quote : TinfoilQuoteVerificationRequest → Result VerifiedTinfoilQuote;
  verify_tdx_quote : string → Result VerifiedTdxQuote;
}.

(** The trait's default for raw TDX quotes. *)
Definition default_verify_tdx_quote (quote_bytes : string) : Result VerifiedTdxQuote :=
  Err (InvalidEvidence "raw TDX quote verification is not configured").

Definition FailClosedTinfoilQuoteVerifier : TinfoilQuoteVerifier := {|
  verify_tinfoil_quote _ :=
    Err (InvalidEvidence "live Tinfoil {} capture requires TDX/SNP quote verification before it can authorize requests");
  verify_tdx_quote := default_verify_tdx_quote |}.

Definition from_verified_quote (attestation_format : TinfoilAttestationFormat) (hardware : EvidenceHardware)
    (tee_measurement report_data issued_at expires_at : string) (expires_at_epoch_ms : Z)
    : VerifiedTinfoilQuote := {|
  vq_attestation_format := format_as_str attestation_format; vq_hardware := hardware;
  vq_tee_measurement := tee_measurement; vq_report_data := report_data; vq_issued_at := issued_at;
  vq_expires_at := expires_at; vq_expires_at_epoch_ms := expires_at_epoch_ms;
  vq_attested_model := None; vq_workload_image_digest := None; vq_model_artifacts := [] |}.

(** Decoders behind a live capture: the attestation JSON, and gzip, as the
    bytes a bounded read of the stream returns. *)
Class TinfoilReaders := {
  attestation_doc_from_slice : string → option TinfoilAttestationDoc;
  gunzip_take : nat → string → option string;
}.

Section Capture.
Context {prim : Primitives} {x509 : CertificateReader} {readers : EvidenceReaders}
        {tinfoil : TinfoilReaders}.

Definition decode_base64_field (value : string) : Result string :=
  ok_or (base64_decode value) (InvalidEvidence "{field} is not valid base64: {err}").

Definition decode_tinfoil_attestation_body (body : string) : Result string :=
  compressed ← decode_base64_field body;
  out ← ok_or (gunzip_take (MAX_TINFOIL_ATTESTATION_BODY_BYTES + 1) compressed)
          (InvalidEvidence "invalid gzip in Tinfoil attestation body: {err}");
  bail (InvalidEvidence "Tinfoil attestation body exceeds {MAX_TINFOIL_ATTESTATION_BODY_BYTES} bytes")
    when (N.of_nat MAX_TINFOIL_ATTESTATION_BODY_BYTES <? N.of_nat (String.length out))%N;
  Ok out.

Definition validate_quote_shape (format : TinfoilAttestationFormat) (len : nat) : Result unit :=
  match format with
  | TdxGuestV2 =>
      bail (InvalidEvidence "decoded TDX quote is too short: {len} bytes")
        when (len <? MIN_TDX_QUOTE_BYTES)%nat; Ok tt
  | SevSnpGuestV2 =>
      bail (InvalidEvidence "decoded SEV-SNP report has wrong size: {len} bytes")
        when negb (len =? SNP_REPORT_BYTES)%nat; Ok tt
  end.

Definition parse_tinfoil_live_capture (raw : string) : Result ParsedTinfoilLiveCapture :=
  capture ← ok_or (tinfoil_live_from_slice raw) json_error;
  bail (InvalidEvidence "unsupported schema {}") when negb (tl_schema capture =?= TINFOIL_LIVE_SCHEMA);
  leaf_der ← decode_base64_field (tl_live_tls_leaf_certificate_der_base64 capture);
  observed_spki ← certificate_spki_sha256_hex leaf_der;
  bail (InvalidEvidence "live TLS SPKI digest does not match captured leaf certificate")
    when negb (eq_ignore_ascii_case observed_spki (tl_live_tls_spki_sha256 capture));
  raw_attestation_body ← decode_base64_field (tl_raw_attestation_body_base64 capture);
  doc ← ok_or (attestation_doc_from_slice raw_attestation_body)
          (InvalidEvidence "invalid Tinfoil attestation JSON: {err}");
  format ← format_parse (doc_format doc);
  quote_bytes ← decode_tinfoil_attestation_body (doc_body doc);
  _ ← validate_quote_shape format (String.length quote_bytes);
  Ok {| pc_capture := capture; pc_attestation_doc := doc; pc_attestation_format := format;
        pc_quote_bytes := quote_bytes; pc_live_tls_leaf_certificate_der := leaf_der |}.

(** ** Properties *)

Lemma format_roundtrip format : format_parse (format_as_str format) = Ok format.
Proof. by destruct format. Qed.

Lemma format_parse_Ok s format : format_parse s = Ok format ↔ s = format_as_str format.
Proof.
  split; [|intros ->; apply format_roundtrip]. unfold format_parse.
  case_bool_decide; [by intros [= <-]|]. case_bool_decide; [by intros [= <-]|done].
Qed.

(** C39: a parsed live capture is bounded and self-consistent: its quote is at
    most one mebibyte and long enough for its format (exactly a report for
    SEV-SNP), its format is the one the document names, and the captured key
    digest is that of the captured certificate. *)
Theorem parsed_capture_consistent raw parsed :
  parse_tinfoil_live_capture raw = Ok parsed →
  (N.of_nat (String.length (pc_quote_bytes parsed)) ≤ N.of_nat MAX_TINFOIL_ATTESTATION_BODY_BYTES)%N
  ∧ match pc_attestation_format parsed with
    | TdxGuestV2 => (MIN_TDX_QUOTE_BYTES ≤ String.length (pc_quote_bytes parsed))%nat
    | SevSnpGuestV2 => String.length (pc_quote_bytes parsed) = SNP_REPORT_BYTES
    end
  ∧ doc_format (pc_attestation_doc parsed) = format_as_str (pc_attestation_format parsed)
  ∧ tl_schema (pc_capture parsed) = TINFOIL_LIVE_SCHEMA
  ∧ (∃ spki, certificate_spki_sha256_hex (pc_live_tls_leaf_certificate_der parsed) = Ok spki
       ∧ eq_ignore_ascii_case spki (tl_live_tls_spki_sha256 (pc_capture parsed)) = true).
Proof.
  unfold parse_tinfoil_live_capture, decode_tinfoil_attestation_body. intros H. inv_ok.
  cbn [pc_quote_bytes pc_attestation_format pc_attestation_doc pc_capture pc_live_tls_leaf_certificate_der].
  match goal with H : format_parse _ = Ok ?f |- _ => rename f into format; apply format_parse_Ok in H end.
  split; [by apply N.ltb_ge|]. split; [|split; [done|]].
  - destruct format; cbn [validate_quote_shape] in *; inv_ok; bools; done.
  - bools. split; [done|]. eauto.
Qed.
End Capture.

(** ** Concrete inputs: a TDX capture of the route ["near"/"r"]. *)

Definition ok_value (r : Result string) : string := match r with Ok d => d | Err _ => "" end.

Definition sample_capture (policy_digest : string) : TinfoilLiveCaptureEvidence := {|
  tl_schema := TINFOIL_LIVE_SCHEMA; tl_provider := "near"; tl_route_id := "r";
  tl_evidence_family := "tinfoil_tls"; tl_requested_model := "m"; tl_policy_digest := policy_digest;
  tl_nonce := None; tl_evidence_endpoint := "https://evidence";
  tl_live_tls_spki_sha256 := sha256_hex "cert"; tl_live_tls_leaf_certificate_der_base64 := "cert";
  tl_raw_attestation_body_base64 := "body" |}.

Definition capture_readers (policy_digest : string) : EvidenceReaders := {|
  value_from_slice raw :=
    if raw =?= "live" then Some (VObject [("schema", VString TINFOIL_LIVE_SCHEMA)]) else None;
  fixture_from_slice _ := None; tinfoil_tls_from_slice _ := None; chutes_e2ee_from_slice _ := None;
  chutes_live_from_slice _ := None;
  tinfoil_live_from_slice raw := if raw =?= "live" then Some (sample_capture policy_digest) else None;
  near_live_from_slice _ := None; dstack_from_slice _ := None; base64_decode s := Some s |}.

Definition sample_x509 : CertificateReader := {|
  certificate_from_der der :=
    if der =?= "cert"
    then Some {| cert_spki_der := Some "cert"; cert_not_before_secs := 0; cert_not_after_secs := 2000000000 |}
    else None |}.

Definition sample_tinfoil_readers : TinfoilReaders := {|
  attestation_doc_from_slice raw :=
    if raw =?= "body" then Some {| doc_format := TINFOIL_TDX_GUEST_V2_FORMAT; doc_body := "zipped" |} else None;
  gunzip_take _ raw := if raw =?= "zipped" then Some (zeros 64) else None |}.

Lemma parsed_capture_consistent_witness :
  ∃ parsed, @parse_tinfoil_live_capture _ sample_x509 (capture_readers "d") sample_tinfoil_readers "live" = Ok parsed
    ∧ (MIN_TDX_QUOTE_BYTES ≤ String.length (pc_quote_bytes parsed))%nat.
Proof.
  destruct (is_ok_inv (@parse_tinfoil_live_capture _ sample_x509 (capture_readers "d") sample_tinfoil_readers "live"))
    as [parsed E]; [vm_compute; reflexivity|].
  exists parsed. split; [done|].
  destruct (@parsed_capture_consistent _ sample_x509 (capture_readers "d") sample_tinfoil_readers "live" parsed E)
    as (_ & H & Hf & _).
  assert (pc_attestation_format parsed = TdxGuestV2) as Ef.
  { vm_compute in E. injection E as <-. reflexivity. }
  by rewrite Ef in H.
Defined.
