(* ===== verification/SevSnp.v ===== *)
(** * SEV-SNP reports

    sev_snp.rs: the Tinfoil back end for AMD SEV-SNP. A report of 1184 bytes is
    checked field by field (version, reserved bytes, guest policy, platform, TCB
    and firmware versions), its signature against the chip's VCEK, the VCEK
    against the pinned AMD Genoa root, the VCEK's extensions against the report,
    and the report data against the live TLS key. X.509 decoding, base64 and the
    two signature schemes are parameters. *)

From Stdlib Require Import Ascii String ZArith Lia.
From stdpp Require Import base strings list sets numbers.
From S2P Require Import Prelude RustStr Errors Timestamps Canonical JsonInjective Verdict Policy Bindings EvidenceDocuments QuoteInterfaces.

Open Scope string_scope.

(** ** Constants *)

Definition REPORT_LEN : nat := 1184.
Definition SIGNED_LEN : nat := 672.
Definition CHIP_ID (report : string) : string := slice report 416 480.
Definition REPORT_DATA (report : string) : string := slice report 80 144.
Definition MEASUREMENT (report : string) : string := slice report 144 192.
Definition REPORTED_TCB (report : string) : string := slice report 384 392.
Definition GENOA_ARK_SHA256 : string := "4c6598d19c18719c5dfd4a7d335f674e5bfe1d8f800cea2cf270c10d103db2f1".
Definition GENOA_ASK_DER_B64 : string :=
  "MIIGiTCCBDigAwIBAgIDAgACMEYGCSqGSIb3DQEBCjA5oA8wDQYJYIZIAWUDBAICBQChHDAa" +:+
  "BgkqhkiG9w0BAQgwDQYJYIZIAWUDBAICBQCiAwIBMKMDAgEBMHsxFDASBgNVBAsMC0VuZ2lu" +:+
  "ZWVyaW5nMQswCQYDVQQGEwJVUzEUMBIGA1UEBwwLU2FudGEgQ2xhcmExCzAJBgNVBAgMAkNB" +:+
  "MR8wHQYDVQQKDBZBZHZhbmNlZCBNaWNybyBEZXZpY2VzMRIwEAYDVQQDDAlBUkstR2Vub2Ew" +:+
  "HhcNMjIxMDMxMTMzMzQ4WhcNNDcxMDMxMTMzMzQ4WjB7MRQwEgYDVQQLDAtFbmdpbmVlcmlu" +:+
  "ZzELMAkGA1UEBhMCVVMxFDASBgNVBAcMC1NhbnRhIENsYXJhMQswCQYDVQQIDAJDQTEfMB0G" +:+
  "A1UECgwWQWR2YW5jZWQgTWljcm8gRGV2aWNlczESMBAGA1UEAwwJU0VWLUdlbm9hMIICIjAN" +:+
  "BgkqhkiG9w0BAQEFAAOCAg8AMIICCgKCAgEAoHJhvk4Fwwkwb03AMfLySXJSXmEaCZMTRbLg" +:+
  "Paj4oEzaD9tGfxCSw/nsCAiXHQaWUt++bnbjJO05TKT5d+Cdrz4/fiRBpbhf0xzvh11O+wJT" +:+
  "BPj3uCzDm48vEZ8l5SXMO4wd/QqwsrejFERPD/Hdfv1mGCMW7ac0ug8trDzqGe+l+p8NMjp/" +:+
  "EqBDY2vd8hLaVLmS+XjAqlYVNRksh9aTzSYL19/cTrBDmqQ2y8k23zNl2lW6q/BtQOpWGVs3" +:+
  "EWvBHb/Qnf3f3S9+lC4H2jdDy9yn7kqyTWq4WCBnE4qhYJRokulYtzMZM1Ilk4Z6RPkOTR1M" +:+
  "J4gdFtj7lKmrkSuOoJYmqhJIsQJ854lAbJybgU7zyzWAwu3uaslkYKUEAQf2ja5Hyl3IBqOz" +:+
  "pqY31SpKzbl8NXveZybRMklwfe4iDLI25T9ku9CVetDYifCbdGeuHdTwZBBemW4NE57L7iEV" +:+
  "8+zz8nxng8OMX//4pXntWqmQbEAnBLv2ToTgd1H2zYRthyDLc3V119/+FnTW17LK6bKzTCgE" +:+
  "nCHQEcAt0hDQLLF799+2lZTxxfBEoduAZax6IjgAMCi6e1ZfKPJSkdvb2m3BwfP8bniG7+AE" +:+
  "Jv1WOEmnBJc1pVQCttbJUodbi07Vfen5JRUqAvSM3ObWQOzSAGzsGnpIigwFpW6m9F7uYVUC" +:+
  "AwEAAaOBozCBoDAdBgNVHQ4EFgQUssZ7pDW7HJVkHAmgQf/F3EmGFVowHwYDVR0jBBgwFoAU" +:+
  "n135/g3Y81rQMxol74EpT74xqFswEgYDVR0TAQH/BAgwBgEB/wIBADAOBgNVHQ8BAf8EBAMC" +:+
  "AQQwOgYDVR0fBDMwMTAvoC2gK4YpaHR0cHM6Ly9rZHNpbnRmLmFtZC5jb20vdmNlay92MS9H" +:+
  "ZW5vYS9jcmwwRgYJKoZIhvcNAQEKMDmgDzANBglghkgBZQMEAgIFAKEcMBoGCSqGSIb3DQEB" +:+
  "CDANBglghkgBZQMEAgIFAKIDAgEwowMCAQEDggIBAIgu3V2tQJOo0/6GvNmwLXbLDrsLKXqH" +:+
  "UqdGyOZUpPHM3ujTaex1G+8bEgBswwBa+wNvl1SQqRqy2x2QwP+i//BcWr3lMrUxci4G7/P8" +:+
  "hZBV821nrAUZtbvfqla5MrRH9AKJXWW/pmtd10czqCHkzdLQNZNjt2dnZHMQAMtGs1AtynRE" +:+
  "HNwEBiH2KAt7gUc/sKWnSCipztKE76puN/XXbSx+Ws+VPiFw6CBAeI9dqnEiQ1tpEgqtWEtc" +:+
  "Km7Ggb1XH6oWbISoowvc00/ADWfNom0xl6v2C6RIWYgUoZ2f7PCyV3Dtbu/fQfyyZvmtVLA4" +:+
  "gB2Ehc6Omjy21Y55WY9IweHlKENMPEUVtRqOvRVI0ml9Wbalf049joCu2j33XPqwp3Irzevm" +:+
  "PBDGpR2Stdm3K66a/g/BSY7Wc9/VeykP3RXlxY1TMMJ8F1lpg6Tmu+c+vow7cliyqOoayAnR" +:+
  "71U8+rWrL3HRHheSVX8GPYOaDNBTt831Z027vDWv3811vMoxYxhuTRaokvNWCSzmJ2EWrPYH" +:+
  "cHOtkjSFKN7ot0Rc70fIRZEYc2rb3ywLSicEq3JQCnnz6iCZ1tMfplzcrJ2LnW2F1C8yRV+o" +:+
  "kylyORlsaxOLKYOWjaDTSFaq1NIwodHp7X9fOG48uRuJWS8GmifD969sC4Ut2FJFoklceBVU" +:+
  "NCHR".
Definition GENOA_ARK_DER_B64 : string :=
  "MIIGYzCCBBKgAwIBAgIDAgAAMEYGCSqGSIb3DQEBCjA5oA8wDQYJYIZIAWUDBAICBQChHDAa" +:+
  "BgkqhkiG9w0BAQgwDQYJYIZIAWUDBAICBQCiAwIBMKMDAgEBMHsxFDASBgNVBAsMC0VuZ2lu" +:+
  "ZWVyaW5nMQswCQYDVQQGEwJVUzEUMBIGA1UEBwwLU2FudGEgQ2xhcmExCzAJBgNVBAgMAkNB" +:+
  "MR8wHQYDVQQKDBZBZHZhbmNlZCBNaWNybyBEZXZpY2VzMRIwEAYDVQQDDAlBUkstR2Vub2Ew" +:+
  "HhcNMjIwMTI2MTUzNDM3WhcNNDcwMTI2MTUzNDM3WjB7MRQwEgYDVQQLDAtFbmdpbmVlcmlu" +:+
  "ZzELMAkGA1UEBhMCVVMxFDASBgNVBAcMC1NhbnRhIENsYXJhMQswCQYDVQQIDAJDQTEfMB0G" +:+
  "A1UECgwWQWR2YW5jZWQgTWljcm8gRGV2aWNlczESMBAGA1UEAwwJQVJLLUdlbm9hMIICIjAN" +:+
  "BgkqhkiG9w0BAQEFAAOCAg8AMIICCgKCAgEA3Cd95S/uFOuRIskW9vz9VDBF69NDQF79oRhL" +:+
  "/L2PVQGhK3YdfEBgpF/JiwWFBsT/fXDhzA01p3LkcT/7LdjcRfKXjHl+0Qq/M4dZkh6QDoUe" +:+
  "KzNBLDcBKDDGWo3v35NyrxbA1DnkYwUKU5AAk4P94tKXLp80oxt84ahyHoLmc/LqsGsp+oq1" +:+
  "Bz4PPsYLwTG4iMKVaaT90/oZ4I8oibSru92vJhlqWO27d/Rxc3iUMyhNeGToOvgx/iUo4gGp" +:+
  "G61NDpkEUvIzuKcaMx8IdTpWg2DF6SwF0IgVMffnvtJmA68BwJNWo1E4PLJdaPfBifcJpuBF" +:+
  "wNVQIPQEVX3aP89HJSp8YbY9lySS6PlVEqTBBtaQmi4ATGmMR+n2K/e+JAhU2Gj7jIpJhOkd" +:+
  "H9firQDnmlA2SFfJ/Cc0mGNzW9RmIhyOUnNFoclmkRhl3/AQU5Ys9Qsan1jT/EiyT+pCpmnA" +:+
  "+y9edvhDCbOG8F2oxHGRdTBkylungrkXJGYiwGrR8kaiqv7NN8QhOBMqYjcbrkEr0f8QMKkl" +:+
  "IS5ruOfqlLMCBw8JLB3LkjpWgtD7OpxkzSsohN47Uom86RY6lp72g8eXHP1qYrnvhzaG1S70" +:+
  "vw6OkbaaC9EjiH/uHgAJQGxon7u0Q7xgoREWA/e7JcBQwLg80Hq/sbRuqesxz7wBWSY254cC" +:+
  "AwEAAaN+MHwwDgYDVR0PAQH/BAQDAgEGMB0GA1UdDgQWBBSfXfn+DdjzWtAzGiXvgSlPvjGo" +:+
  "WzAPBgNVHRMBAf8EBTADAQH/MDoGA1UdHwQzMDEwL6AtoCuGKWh0dHBzOi8va2RzaW50Zi5h" +:+
  "bWQuY29tL3ZjZWsvdjEvR2Vub2EvY3JsMEYGCSqGSIb3DQEBCjA5oA8wDQYJYIZIAWUDBAIC" +:+
  "BQChHDAaBgkqhkiG9w0BAQgwDQYJYIZIAWUDBAICBQCiAwIBMKMDAgEBA4ICAQAdIlPBC7DQ" +:+
  "mvH7kjlOznFx3i21SzOPDs5L7SgFjMC9rR07292GQCA7Z7Ulq97JQaWeD2ofGGse5swj4OQf" +:+
  "KfVv/zaJUFjvosZOnfZ63epu8MjWgBSXJg5QE/Al0zRsZsp53DBTdA+Uv/s33fexdenT1mpK" +:+
  "YzhIg/cKtz4oMxq8JKWJ8Po1CXLzKcfrTphjlbkh8AVKMXeBd2SpM33B1YP4g1BOdk013kqb" +:+
  "7bRHZ1iB2JHG5cMKKbwRCSAAGHLTzASgDcXr9Fp7Z3liDhGu/ci1opGmkp12QNiJuBbkTU+x" +:+
  "DZHm5X8Jm99BX7NEpzlOwIVR8ClgBDyuBkBC2ljtr3ZSaUIYj2xuyWN95KFY49nWxcz90CFa" +:+
  "3Hzmy4zMQmBe9dVyls5eL5p9bkXcgRMDTbgmVZiAf4afe8DLdmQcYcMFQbHhgVzMiyZHGJgc" +:+
  "CrQmA7MkTwEIds1wx/HzMcwU4qqNBAoZV7oeIIPxdqFXfPqHqiRlEbRDfX1TG5NFVaeByX0G" +:+
  "yH6jzYVuezETzruaky6fp2bl2bczxPE8HdS38ijiJmm9vl50RGUeOAXjSuInGR4bsRufeGPB" +:+
  "9peTa9BcBOeTWzstqTUB/F/qaZCIZKr4X6TyfUuSDz/1JDAGl+lxdM0P9+lLaP9NahQjHCVf" +:+
  "0zf1c1salVuGFk2w/wMz1R1BHg==".

(** ** Reading bytes *)

(** [bytes[i]], in range. *)
Definition byte_index (bytes : string) (i : nat) : N := from_option code 0%N (byte_at bytes i).

(** [uN::from_le_bytes]. *)
Fixpoint from_le_bytes (bytes : string) : N :=
  match bytes with "" => 0 | String c bytes => code c + 256 * from_le_bytes bytes end%N.

Definition le_u32 (bytes : string) (offset : nat) : Result N :=
  bail (InvalidEvidence "truncated SEV-SNP report") when (String.length bytes <? offset + 4)%nat;
  Ok (from_le_bytes (slice bytes offset (offset + 4))).

(** [bytes.iter().any(|byte| *byte != 0)]. *)
Definition any_nonzero (bytes : string) : bool := any_byte (λ c, negb (code c =? 0)%N) bytes.

(** ** The fields of a report *)

Definition ensure_vcek_validity (not_before_ms not_after_ms now_ms : Z) : Result unit :=
  bail (InvalidCertificate "Genoa VCEK is outside its validity period")
    when (now_ms <? not_before_ms)%Z || (not_after_ms <=? now_ms)%Z; Ok tt.

Definition validate_report_version (report : string) : Result N :=
  version ← le_u32 report 0;
  bail (InvalidEvidence "unsupported SEV-SNP report version {version}")
    when negb ((2 <=? version) && (version <=? 5))%N;
  Ok version.

Definition reserved_ranges (version : N) : list (nat * nat) :=
  if (version =? 2)%N
  then [(76, 80); (392, 416); (491, 492); (495, 496); (520, 672); (816, REPORT_LEN)]%nat
  else [(76, 80); (395, 416); (491, 492); (495, 496); (520, 672); (816, REPORT_LEN)]%nat.

Definition verify_report_reserved_fields (report : string) (version : N) : Result unit :=
  _ ← for_each (λ '(from, to),
        bail (InvalidEvidence "SEV-SNP report has non-zero reserved bytes")
          when any_nonzero (slice report from to); Ok tt) (reserved_ranges version);
  bail (InvalidEvidence "SEV-SNP P-384 signature has non-zero padding")
    when any_nonzero (slice report 720 744) || any_nonzero (slice report 792 816);
  signer ← le_u32 report 72;
  bail (InvalidEvidence "SEV-SNP report is not signed by a VCEK or has reserved signer bits")
    when negb (N.land signer 4294967294 =? 0)%N;
  Ok tt.

Definition tcb_at_least (candidate minimum : string) : bool :=
  forallb (λ i, (byte_index minimum i <=? byte_index candidate i)%N) [0; 1; 6; 7]%nat.

Definition guest_policy_refused (policy : N) : bool :=
  (N.land policy (N.shiftl 1 16) =? 0)%N
  || (N.land policy (N.shiftl 1 17) =? 0)%N
  || negb (N.land policy (N.shiftl 1 18) =? 0)%N
  || negb (N.land policy (N.shiftl 1 19) =? 0)%N
  || negb (N.land policy (N.shiftl 1 20) =? 0)%N
  || negb (N.shiftr policy 26 =? 0)%N.

Definition platform_refused (platform : N) : bool :=
  (N.land platform 1 =? 0)%N
  || (N.land platform (N.shiftl 1 1) =? 0)%N
  || negb (N.land platform (N.shiftl 3 6) =? 0)%N
  || negb (N.shiftr platform 8 =? 0)%N.

Definition tcb_below_minimum (tcb : string) : bool :=
  ((byte_index tcb 0 <? 7) || (byte_index tcb 6 <? 14) || (byte_index tcb 7 <? 72))%N.

Definition firmware_below_minimum (report : string) : bool :=
  ((byte_index report 490 <? 1)
   || ((byte_index report 490 =? 1) && (byte_index report 489 <? 55))
   || (byte_index report 488 <? 21))%N.

Definition verify_report_policy (report : string) : Result unit :=
  bail (InvalidEvidence "SEV-SNP guest policy does not meet Tinfoil requirements")
    when guest_policy_refused (from_le_bytes (slice report 8 16));
  bail (InvalidEvidence "SEV-SNP platform must have SMT and TSME enabled with reserved/TIO bits clear")
    when platform_refused (from_le_bytes (slice report 64 72));
  let reported_tcb := REPORTED_TCB report in
  let current_tcb := slice report 56 64 in
  let committed_tcb := slice report 480 488 in
  let launch_tcb := slice report 496 504 in
  _ ← for_each (λ tcb,
        bail (InvalidEvidence "SEV-SNP TCB has non-zero reserved SPL bytes")
          when any_nonzero (slice tcb 2 6); Ok tt) [reported_tcb; current_tcb; committed_tcb; launch_tcb];
  bail (InvalidEvidence "SEV-SNP report CURRENT_TCB differs from COMMITTED_TCB")
    when negb (current_tcb =?= committed_tcb);
  bail (InvalidEvidence "SEV-SNP CURRENT_TCB is below the reported TCB")
    when negb (tcb_at_least current_tcb reported_tcb);
  _ ← for_each (λ tcb,
        bail (InvalidEvidence "SEV-SNP reported or launch TCB is below the Tinfoil minimum")
          when tcb_below_minimum tcb; Ok tt) [reported_tcb; launch_tcb];
  bail (InvalidEvidence "SEV-SNP firmware version is below 1.55 build 21") when firmware_below_minimum report;
  bail (InvalidEvidence "SEV-SNP current firmware differs from committed firmware")
    when negb (slice report 488 491 =?= slice report 492 495);
  Ok tt.

(** The two little-endian P-384 limbs as the big-endian pair a verifier takes. *)
Fixpoint reversed (s : string) : string :=
  match s with "" => "" | String c s => reversed s +:+ String c "" end.
Definition report_signature (report : string) : string :=
  reversed (slice (slice report 672 744) 0 48) +:+ reversed (slice (slice report 744 816) 0 48).

(** [u8::from_str_radix(pair, 16)]: a leading plus sign is allowed. *)
Definition hex_value (c : ascii) : option N :=
  if between 48 57 c then Some (code c - 48)%N
  else if between 97 102 c then Some (code c - 87)%N
  else if between 65 70 c then Some (code c - 55)%N
  else None.
Definition u8_from_hex (high low : ascii) : option ascii :=
  l ← hex_value low;
  if high =?= "+"%char then Some (ascii_of_N l)
  else h ← hex_value high; Some (ascii_of_N (16 * h + l)).
Fixpoint hex_bytes_of (value : string) : option string :=
  match value with
  | String high (String low rest) => c ← u8_from_hex high low; s ← hex_bytes_of rest; Some (String c s)
  | _ => Some ""
  end.
Definition decode_hex_32 (value : string) : Result string :=
  bail (InvalidEvidence "TLS SPKI SHA-256 digest must be 32 bytes") when negb (String.length value =? 64)%nat;
  ok_or (hex_bytes_of value) (InvalidEvidence "TLS SPKI digest is not hexadecimal").

(** ** The VCEK's extensions *)

Definition HWID_OID : string := "1.3.6.1.4.1.3704.1.4".
Definition BOOT_LOADER_OID : string := "1.3.6.1.4.1.3704.1.3.1".
Definition TEE_OID : string := "1.3.6.1.4.1.3704.1.3.2".
Definition SNP_OID : string := "1.3.6.1.4.1.3704.1.3.3".
Definition MICROCODE_OID : string := "1.3.6.1.4.1.3704.1.3.8".

(** The flags of the loop: [found_hwid] and the four of [found_tcb]. *)
Record Found := {
  found_hwid : bool; found_boot_loader : bool; found_tee : bool; found_snp : bool; found_microcode : bool;
}.
Definition nothing_found : Found := {|
  found_hwid := false; found_boot_loader := false; found_tee := false; found_snp := false; found_microcode := false |}.

Definition hwid_value (value : string) : Result string :=
  if (String.length value =? 64)%nat then Ok value
  else if (String.length value =? 66)%nat && (slice value 0 2 =?= String "004" "@") then Ok (slice value 2 66)
  else Err (InvalidCertificate "invalid AMD HWID extension").

Definition tcb_value (value : string) : Result ascii :=
  match value with
  | String "002" (String "001" (String value "")) => Ok value
  | String "002" (String "002" (String "000" (String value ""))) => Ok value
  | _ => Err (InvalidCertificate "invalid AMD {part} TCB extension")
  end.

Definition check_tcb_ext (value tcb : string) (found : bool) (i : nat) : Result unit :=
  number ← tcb_value value;
  bail (InvalidEvidence "VCEK AMD {part} TCB extension does not match the report")
    when found || negb (code number =? byte_index tcb i)%N;
  Ok tt.

Definition check_hwid_ext (value hwid : string) (found : bool) : Result unit :=
  decoded ← hwid_value value;
  bail (InvalidEvidence "VCEK AMD HWID extension does not match the report")
    when found || negb (decoded =?= hwid);
  Ok tt.

Definition check_extension (hwid tcb : string) (found : Found) (ext : string * string) : Result Found :=
  let '(oid, value) := ext in
  let '{| found_hwid := h; found_boot_loader := b; found_tee := t; found_snp := s; found_microcode := m |} := found in
  if oid =?= HWID_OID then
    _ ← check_hwid_ext value hwid h;
    Ok {| found_hwid := true; found_boot_loader := b; found_tee := t; found_snp := s; found_microcode := m |}
  else if oid =?= BOOT_LOADER_OID then
    _ ← check_tcb_ext value tcb b 0;
    Ok {| found_hwid := h; found_boot_loader := true; found_tee := t; found_snp := s; found_microcode := m |}
  else if oid =?= TEE_OID then
    _ ← check_tcb_ext value tcb t 1;
    Ok {| found_hwid := h; found_boot_loader := b; found_tee := true; found_snp := s; found_microcode := m |}
  else if oid =?= SNP_OID then
    _ ← check_tcb_ext value tcb s 6;
    Ok {| found_hwid := h; found_boot_loader := b; found_tee := t; found_snp := true; found_microcode := m |}
  else if oid =?= MICROCODE_OID then
    _ ← check_tcb_ext value tcb m 7;
    Ok {| found_hwid := h; found_boot_loader := b; found_tee := t; found_snp := s; found_microcode := true |}
  else Ok found.

(** ** DER keys *)

Definition usize_max : N := 18446744073709551615.

(** The big-endian length of a long-form DER header, with its overflow check. *)
Fixpoint der_long_length (length : N) (bytes : string) : Result N :=
  match bytes with
  | "" => Ok length
  | String byte bytes =>
      bail (InvalidCertificate "DER length overflow") when (usize_max <? length * 256 + code byte)%N;
      der_long_length (length * 256 + code byte) bytes
  end.

(** The content of the element at [pos], and the position after it. *)
Definition der_value (der : string) (pos : nat) (tag : N) : Result (string * nat) :=
  let len := String.length der in
  bail (InvalidCertificate "malformed DER certificate key")
    when negb (bool_decide (code <$> byte_at der pos = Some tag));
  let pos := S pos in
  first ← ok_or (code <$> byte_at der pos) (InvalidCertificate "truncated DER length");
  let pos := S pos in
  '(length, pos) ←
    (if (N.land first 128 =? 0)%N then Ok (first, pos)
     else
       let count := N.to_nat (N.land first 127) in
       bail (InvalidCertificate "invalid DER length")
         when (count =? 0)%nat || (4 <? count)%nat || (len - pos <? count)%nat;
       length ← der_long_length 0 (slice der pos (pos + count));
       Ok (length, pos + count)%nat);
  bail (InvalidCertificate "DER length overflow") when (usize_max <? N.of_nat pos + length)%N;
  bail (InvalidCertificate "truncated DER value") when (N.of_nat len <? N.of_nat pos + length)%N;
  let end_ := (pos + N.to_nat length)%nat in
  Ok (slice der pos end_, end_).

Definition parse_rsa_public_key (der : string) : Result (string * string) :=
  '(sequence, pos) ← der_value der 0 48;
  bail (InvalidCertificate "malformed RSA public key") when negb (pos =? String.length der)%nat;
  '(modulus, inner) ← der_value sequence 0 2;
  '(exponent, inner) ← der_value sequence inner 2;
  bail (InvalidCertificate "malformed RSA public key")
    when negb (inner =? String.length sequence)%nat || is_empty modulus || is_empty exponent;
  let modulus := if (byte_index modulus 0 =? 0)%N then slice modulus 1 (String.length modulus) else modulus in
  Ok (modulus, exponent).

(** ** Certificates and signatures *)

(** What the code reads of an AMD certificate; names in their encoded form. *)
Record AmdCertificate := {
  ac_issuer : string;
  ac_subject : string;
  ac_signature_algorithm : string;
  ac_public_key : option string;
  ac_tbs_der : option string;
  ac_signature : option string;
  ac_extensions : option (list (string * string));
}.

Class AmdCrypto := {
  (** [x509_cert::Certificate::from_der]. *)
  amd_certificate_from_der : string → option AmdCertificate;
  (** [base64::STANDARD.decode]. *)
  amd_base64_decode : string → option string;
  (** ring: ECDSA P-384 with SHA-384 over key, message and fixed-size signature. *)
  ecdsa_p384_verify : string → string → string → bool;
  (** ring: RSA-PSS with SHA-384 over modulus, exponent, message and signature. *)
  rsa_pss_sha384_verify : string → string → string → string → bool;
}.

Section SevSnp.
Context {prim : Primitives} {x509 : CertificateReader} {amd : AmdCrypto}.

Definition verify_rsa_pss_certificate_signature (certificate issuer : AmdCertificate) : Result unit :=
  bail (InvalidCertificate "AMD certificate is not RSASSA-PSS")
    when negb (ac_signature_algorithm certificate =?= "1.2.840.113549.1.1.10");
  key ← ok_or (ac_public_key issuer) (InvalidCertificate "AMD RSA key is not octet-aligned");
  '(modulus, exponent) ← parse_rsa_public_key key;
  tbs_der ← ok_or (ac_tbs_der certificate) (InvalidCertificate "{err}");
  signature ← ok_or (ac_signature certificate) (InvalidCertificate "AMD certificate signature is not octet-aligned");
  bail (InvalidCertificate "AMD certificate signature is invalid")
    when negb (rsa_pss_sha384_verify modulus exponent tbs_der signature);
  Ok tt.

Definition verify_genoa_chain_certs (vcek ask ark : AmdCertificate) (ark_der : string) : Result unit :=
  bail (InvalidCertificate "VCEK does not chain to the pinned AMD Genoa ARK")
    when negb (sha256_digest ark_der =?= "sha256:" +:+ GENOA_ARK_SHA256)
         || negb (ac_subject ark =?= ac_issuer ark)
         || negb (ac_issuer ask =?= ac_subject ark)
         || negb (ac_issuer vcek =?= ac_subject ask);
  _ ← verify_rsa_pss_certificate_signature ark ark;
  _ ← verify_rsa_pss_certificate_signature ask ark;
  verify_rsa_pss_certificate_signature vcek ask.

Definition verify_genoa_certificate_chain (vcek : AmdCertificate) : Result unit :=
  ask_der ← ok_or (amd_base64_decode GENOA_ASK_DER_B64) (InvalidCertificate "{err}");
  ark_der ← ok_or (amd_base64_decode GENOA_ARK_DER_B64) (InvalidCertificate "{err}");
  ask ← ok_or (amd_certificate_from_der ask_der) (InvalidCertificate "{err}");
  ark ← ok_or (amd_certificate_from_der ark_der) (InvalidCertificate "{err}");
  verify_genoa_chain_certs vcek ask ark ark_der.

Definition verify_amd_vcek_extensions (cert : AmdCertificate) (hwid tcb : string) : Result unit :=
  extensions ← ok_or (ac_extensions cert) (InvalidCertificate "VCEK has no AMD KDS extensions");
  found ← try_fold (check_extension hwid tcb) extensions nothing_found;
  bail (InvalidCertificate "VCEK is missing required AMD HWID/TCB extensions")
    when negb (found_hwid found)
         || negb (found_boot_loader found && found_tee found && found_snp found && found_microcode found);
  Ok tt.

(** ** The verifier *)

Definition tls_key_bound (request : TinfoilQuoteVerificationRequest) : Result unit :=
  let report := tr_quote_bytes request in
  spki_sha256 ← certificate_spki_sha256_hex (tr_live_tls_leaf_certificate_der request);
  let expected_spki := default spki_sha256 (strip_prefix "sha256:" spki_sha256) in
  expected ← decode_hex_32 expected_spki;
  bail (InvalidEvidence "SEV-SNP report_data does not bind the live TLS SPKI")
    when negb (forallb (λ '(a, b), a =?= b) (zip (bytes (slice report 80 112)) (bytes expected)));
  bail (InvalidEvidence "live TLS SPKI digest does not match its certificate")
    when negb (eq_ignore_ascii_case (trim_start_matches "sha256:" (tr_live_tls_spki_sha256 request)) expected_spki);
  Ok tt.

Definition verify_tinfoil_quote_with_vcek_at (request : TinfoilQuoteVerificationRequest) (vcek_der : string)
    (now_epoch_ms : Z) : Result VerifiedTinfoilQuote :=
  bail (InvalidEvidence "SEV-SNP verifier received a non-SEV-SNP Tinfoil format")
    when negb (tr_attestation_format request =?= SevSnpGuestV2);
  let report := tr_quote_bytes request in
  bail (InvalidEvidence "SEV-SNP report must be {REPORT_LEN} bytes")
    when negb (String.length report =? REPORT_LEN)%nat;
  report_version ← validate_report_version report;
  algorithm ← le_u32 report 52;
  bail (InvalidEvidence "unsupported SEV-SNP report signature algorithm") when negb (algorithm =? 1)%N;
  _ ← verify_report_reserved_fields report report_version;
  cert ← ok_or (amd_certificate_from_der vcek_der) (InvalidCertificate "{err}");
  _ ← verify_genoa_certificate_chain cert;
  public_key ← ok_or (ac_public_key cert) (InvalidCertificate "VCEK public key is not octet-aligned");
  bail (InvalidEvidence "SEV-SNP report signature is invalid")
    when negb (ecdsa_p384_verify public_key (slice report 0 SIGNED_LEN) (report_signature report));
  _ ← verify_amd_vcek_extensions cert (CHIP_ID report) (REPORTED_TCB report);
  _ ← verify_report_policy report;
  _ ← tls_key_bound request;
  '(vcek_not_before_ms, expires_at_epoch_ms) ← certificate_validity_epoch_millis vcek_der;
  _ ← ensure_vcek_validity vcek_not_before_ms expires_at_epoch_ms now_epoch_ms;
  Ok (from_verified_quote SevSnpGuestV2 {| eh_cpu := SevSnp; eh_gpu := None |}
        ("sev-snp:measurement:" +:+ lower_hex (MEASUREMENT report)) (lower_hex (REPORT_DATA report))
        (format_utc_timestamp_millis now_epoch_ms) (format_utc_timestamp_millis expires_at_epoch_ms)
        expires_at_epoch_ms).

(** The back end at a reading of the clock: [None] when it stands before the
    epoch. *)
Definition verify_tinfoil_quote_with_vcek (request : TinfoilQuoteVerificationRequest) (vcek_der : string)
    (now_epoch_ms : option Z) : Result VerifiedTinfoilQuote :=
  now_epoch_ms ← ok_or now_epoch_ms (InvalidEvidence "system clock is before the Unix epoch");
  bail (InvalidEvidence "system time exceeds supported range") when (u64_max <? now_epoch_ms)%Z;
  verify_tinfoil_quote_with_vcek_at request vcek_der now_epoch_ms.

Definition SevSnpTinfoilQuoteVerifier (vcek_der : string) (now_epoch_ms : option Z) : TinfoilQuoteVerifier := {|
  verify_tinfoil_quote request := verify_tinfoil_quote_with_vcek request vcek_der now_epoch_ms;
  verify_tdx_quote := default_verify_tdx_quote |}.
End SevSnp.

(** ** Specification *)

(** The unsigned little-endian field at an offset. *)
Definition le_field (report : string) (from width : nat) : N := from_le_bytes (slice report from (from + width)).

(** Bytes that must be zero: the reserved ranges and the padding of the two
    signature limbs. *)
Definition must_be_zero (version : N) : list (nat * nat) :=
  (reserved_ranges version ++ [(720, 744); (792, 816)]%nat)%list.
Definition zero_between (report : string) (range : nat * nat) : Prop :=
  ∀ i, (range.1 ≤ i < range.2)%nat → byte_index report i = 0%N.

(** The guest policy: SMT allowed and the bit that must be one, no migration
    agent, no debugging, no single-socket restriction, nothing reserved. *)
Definition guest_policy_accepted (policy : N) : Prop :=
  N.testbit policy 16 = true ∧ N.testbit policy 17 = true ∧ N.testbit policy 18 = false
  ∧ N.testbit policy 19 = false ∧ N.testbit policy 20 = false ∧ (policy < 2 ^ 26)%N.
(** The platform: SMT and TSME on, TIO off, nothing reserved. *)
Definition platform_accepted (platform : N) : Prop :=
  N.testbit platform 0 = true ∧ N.testbit platform 1 = true ∧ (platform < 2 ^ 6)%N.

(** The TCB versions of a report, at its offset: boot loader, TEE, SNP, microcode. *)
Definition tcb_part (report : string) (tcb i : nat) : N := byte_index report (tcb + i).
Definition tcb_minimum (report : string) (tcb : nat) : Prop :=
  (7 ≤ tcb_part report tcb 0 ∧ 14 ≤ tcb_part report tcb 6 ∧ 72 ≤ tcb_part report tcb 7)%N.

Record report_fields (report : string) : Prop := {
  rf_length : String.length report = 1184%nat;
  rf_version : (2 ≤ le_field report 0 4 ≤ 5)%N;
  rf_algorithm : le_field report 52 4 = 1%N;
  rf_zero : Forall (zero_between report) (must_be_zero (le_field report 0 4));
  rf_signer : (le_field report 72 4 ≤ 1)%N;
}.

Record report_policy (report : string) : Prop := {
  rp_guest : guest_policy_accepted (le_field report 8 8);
  rp_platform : platform_accepted (le_field report 64 8);
  rp_reserved : ∀ tcb i, tcb ∈ [384; 56; 480; 496]%nat → (2 ≤ i < 6)%nat → tcb_part report tcb i = 0%N;
  rp_committed : slice report 56 64 = slice report 480 488;
  rp_current : ∀ i, i ∈ [0; 1; 6; 7]%nat → (tcb_part report 384 i ≤ tcb_part report 56 i)%N;
  rp_reported : tcb_minimum report 384;
  rp_launch : tcb_minimum report 496;
  rp_firmware : (2 ≤ byte_index report 490 ∨ byte_index report 490 = 1 ∧ 55 ≤ byte_index report 489)%N ∧ (21 ≤ byte_index report 488)%N;
  rp_firmware_committed : slice report 488 491 = slice report 492 495;
}.

(** The values of the extensions with an identifier. *)
Definition extension_values (oid : string) (exts : list (string * string)) : list string :=
  omap (λ '(o, v), if o =?= oid then Some v else None) exts.
(** Exactly one value, and it is good. *)
Definition exactly_one (good : string → Prop) (l : list string) : Prop := ∃ v, l = [v] ∧ good v.

Definition states_hwid (hwid value : string) : Prop := hwid_value value = Ok hwid.
Definition states_number (n : N) (value : string) : Prop := ∃ c, tcb_value value = Ok c ∧ code c = n.

Record vcek_matches (exts : list (string * string)) (report : string) : Prop := {
  vm_hwid : exactly_one (states_hwid (CHIP_ID report)) (extension_values HWID_OID exts);
  vm_boot_loader : exactly_one (states_number (tcb_part report 384 0)) (extension_values BOOT_LOADER_OID exts);
  vm_tee : exactly_one (states_number (tcb_part report 384 1)) (extension_values TEE_OID exts);
  vm_snp : exactly_one (states_number (tcb_part report 384 6)) (extension_values SNP_OID exts);
  vm_microcode : exactly_one (states_number (tcb_part report 384 7)) (extension_values MICROCODE_OID exts);
}.

(** ** Bytes *)

Lemma byte_at_substring s n m i :
  (i < m)%nat → byte_at (String.substring n m s) i = byte_at s (n + i).
Proof.
  revert n m i. induction s as [|c s IH]; intros [|n] [|m] i Hi; cbn; try lia; try done.
  - destruct i; [done|]. apply (IH 0%nat m). lia.
  - apply IH. lia.
Qed.
Lemma byte_index_slice s from to i : (i < to - from)%nat → byte_index (slice s from to) i = byte_index s (from + i).
Proof. intros H. unfold byte_index, slice. by rewrite byte_at_substring. Qed.
Lemma length_slice s from to : String.length (slice s from to) = Nat.min (to - from) (String.length s - from).
Proof. apply substring_length. Qed.

Lemma any_nonzero_iff s : any_nonzero s = false ↔ ∀ i, (i < String.length s)%nat → byte_index s i = 0%N.
Proof.
  unfold any_nonzero, any_byte. induction s as [|c s IH]; cbn; [split; [intros _ i; lia|done]|].
  rewrite orb_false_iff, IH, negb_false_iff, N.eqb_eq. split.
  - intros [Hc Hs] [|i] Hi; [done|]. apply Hs. lia.
  - intros H. split; [apply (H 0%nat); lia|]. intros i Hi. apply (H (S i)). lia.
Qed.
Lemma slice_zero s from to :
  (to ≤ String.length s)%nat → any_nonzero (slice s from to) = false ↔ zero_between s (from, to).
Proof.
  intros Hl. rewrite any_nonzero_iff, length_slice. unfold zero_between; cbn. split.
  - intros H i Hi. rewrite <-(H (i - from)%nat) by lia. rewrite byte_index_slice by lia. f_equal. lia.
  - intros H i Hi. rewrite byte_index_slice by lia. apply H. lia.
Qed.

Lemma code_lt c : (code c < 256)%N.
Proof. unfold code. apply N_ascii_bounded. Qed.
Lemma from_le_bytes_lt s : (from_le_bytes s < 256 ^ N.of_nat (String.length s))%N.
Proof.
  induction s as [|c s IH]; [done|]. cbn [from_le_bytes String.length]. pose proof (code_lt c).
  rewrite Nat2N.inj_succ, N.pow_succ_r'. lia.
Qed.
Lemma field_lt s from width : (le_field s from width < 256 ^ N.of_nat width)%N.
Proof.
  eapply N.lt_le_trans; [apply from_le_bytes_lt|]. apply N.pow_le_mono_r; [done|]. rewrite length_slice. lia.
Qed.

Lemma land_bit n k : (N.land n (N.shiftl 1 k) =? 0)%N = negb (N.testbit n k).
Proof.
  rewrite N.shiftl_1_l. apply eq_true_iff_eq. rewrite N.eqb_eq, negb_true_iff. split; intros H.
  - assert (N.testbit (N.land n (2 ^ k)) k = false) as Hb by (rewrite H; apply N.bits_0).
    by rewrite N.land_spec, N.pow2_bits_true, andb_true_r in Hb.
  - apply N.bits_inj. intros i. rewrite N.land_spec, N.bits_0, N.pow2_bits_eqb.
    destruct (N.eqb_spec k i) as [<-|]; [by rewrite H|apply andb_false_r].
Qed.
Lemma shiftr_zero n k : (N.shiftr n k =? 0)%N = (n <? 2 ^ k)%N.
Proof.
  apply eq_true_iff_eq. rewrite N.eqb_eq, N.ltb_lt, N.shiftr_div_pow2. apply N.div_small_iff.
  by apply N.pow_nonzero.
Qed.

(** ** The fields of an accepted report *)

Lemma le_u32_Ok s from n : (from + 4 ≤ String.length s)%nat → le_u32 s from = Ok n ↔ n = le_field s from 4.
Proof. intros H. unfold le_u32. destruct (Nat.ltb_spec (String.length s) (from + 4)); [lia|]. by split; [intros [= <-]|intros ->]. Qed.

Lemma guest_policy_Ok policy : guest_policy_refused policy = false ↔ guest_policy_accepted policy.
Proof.
  unfold guest_policy_refused, guest_policy_accepted. rewrite !land_bit, shiftr_zero. bools.
  change (2 ^ 26)%N with 67108864%N. rewrite ?negb_false_iff. tauto.
Qed.
Lemma platform_Ok platform : platform_refused platform = false ↔ platform_accepted platform.
Proof.
  unfold platform_refused, platform_accepted. change 1%N with (N.shiftl 1 0) at 1.
  assert (((N.land platform (N.shiftl 3 6) =? 0) && (N.shiftr platform 8 =? 0))%N = (platform <? 2 ^ 6)%N) as E.
  { rewrite <-(shiftr_zero _ 6). apply eq_true_iff_eq. rewrite andb_true_iff, !N.eqb_eq. split.
    - intros [Hl Hs]. apply N.bits_inj. intros i. rewrite N.shiftr_spec', N.bits_0.
      destruct (N.lt_ge_cases i 2) as [Hi|Hi].
      + assert (N.testbit (N.land platform (N.shiftl 3 6)) (i + 6) = false) as Hb by (rewrite Hl; apply N.bits_0).
        rewrite N.land_spec, N.shiftl_spec_high' in Hb by lia. replace (i + 6 - 6)%N with i in Hb by lia.
        assert (i = 0 ∨ i = 1)%N as [->| ->] by lia; cbn in Hb; by rewrite andb_true_r in Hb.
      + assert (N.testbit (N.shiftr platform 8) (i - 2) = false) as Hb by (rewrite Hs; apply N.bits_0).
        rewrite N.shiftr_spec' in Hb. by replace (i - 2 + 8)%N with (i + 6)%N in Hb by lia.
    - intros Hs. split; apply N.bits_inj; intros i; rewrite N.bits_0.
      + rewrite N.land_spec. destruct (N.lt_ge_cases i 6) as [Hi|Hi].
        * rewrite N.shiftl_spec_low by done. apply andb_false_r.
        * assert (N.testbit (N.shiftr platform 6) (i - 6) = false) as Hb by (rewrite Hs; apply N.bits_0).
          rewrite N.shiftr_spec' in Hb. replace (i - 6 + 6)%N with i in Hb by lia. by rewrite Hb.
      + assert (N.testbit (N.shiftr platform 6) (i + 2) = false) as Hb by (rewrite Hs; apply N.bits_0).
        rewrite N.shiftr_spec' in Hb |- *. by replace (i + 2 + 6)%N with (i + 8)%N in Hb by lia. }
  rewrite !land_bit, <-orb_assoc, <-(negb_andb (N.land platform (N.shiftl 3 6) =? 0)%N), E. bools. tauto.
Qed.

Lemma version_Ok report version :
  String.length report = 1184%nat →
  validate_report_version report = Ok version ↔ version = le_field report 0 4 ∧ (2 ≤ version ≤ 5)%N.
Proof.
  intros Hl. unfold validate_report_version. rewrite bind_Ok. split.
  - intros (v & H & Hv). apply le_u32_Ok in H as ->; [|lia]. inv_ok. bools. tauto.
  - intros [-> Hv]. eexists. split; [apply le_u32_Ok; [lia|done]|]. rewrite guard_Ok. bools. tauto.
Qed.

Lemma signer_bits n : (n < 256 ^ 4)%N → (N.land n 4294967294 =? 0)%N = (n <=? 1)%N.
Proof.
  intros Hn. apply eq_true_iff_eq. rewrite N.eqb_eq, N.leb_le. split.
  - intros H. assert (N.shiftr n 1 = 0%N) as Hz.
    { apply N.bits_inj. intros i. rewrite N.shiftr_spec', N.bits_0.
      destruct (N.lt_ge_cases (i + 1) 32) as [Hi|Hi].
      - assert (N.testbit (N.land n 4294967294) (i + 1) = false) as Hb by (rewrite H; apply N.bits_0).
        rewrite N.land_spec in Hb. change 4294967294%N with (N.shiftl (N.ones 31) 1) in Hb.
        rewrite N.shiftl_spec_high' in Hb by lia. rewrite N.ones_spec_low in Hb by lia. by rewrite andb_true_r in Hb.
      - destruct (N.eq_dec n 0%N) as [->|Hn0]; [apply N.bits_0|].
        apply N.bits_above_log2. apply N.lt_le_trans with 32%N; [|done]. apply N.log2_lt_pow2; [lia|exact Hn]. }
    rewrite N.shiftr_div_pow2 in Hz. apply N.div_small_iff in Hz; [|done]. change (2 ^ 1)%N with 2%N in Hz. lia.
  - intros H. assert (n = 0 ∨ n = 1)%N as [->| ->] by lia; done.
Qed.

Lemma zeros_Ok report version :
  String.length report = 1184%nat →
  verify_report_reserved_fields report version = Ok tt
  ↔ Forall (zero_between report) (must_be_zero version) ∧ (le_field report 72 4 ≤ 1)%N.
Proof.
  intros Hl. unfold verify_report_reserved_fields, must_be_zero.
  rewrite unit_bind_Ok, guard_Ok, bind_Ok, for_each_Ok, Forall_app, orb_false_iff.
  rewrite !slice_zero by lia. rewrite !List.Forall_cons_iff.
  assert (Forall (zero_between report) []) as Hnil by constructor.
  assert (Forall (λ '(from, to), (to ≤ 1184)%nat) (reserved_ranges version)) as Hr.
  { unfold reserved_ranges. destruct (version =? 2)%N; repeat apply List.Forall_cons; try apply List.Forall_nil; unfold REPORT_LEN; lia. }
  assert (Forall (λ r : nat * nat, (let '(from, to) := r in
             bail (InvalidEvidence "SEV-SNP report has non-zero reserved bytes")
               when any_nonzero (slice report from to); Ok tt) = Ok tt) (reserved_ranges version)
          ↔ Forall (zero_between report) (reserved_ranges version)) as ->.
  { rewrite !Forall_forall. rewrite Forall_forall in Hr. split; intros H [from to] Hin; specialize (H _ Hin);
      specialize (Hr _ Hin); cbn in *; rewrite ?guard_Ok in *; rewrite slice_zero in * by lia; tauto. }
  split.
  - intros (Hz & Hp & n & Hn & Hs). apply le_u32_Ok in Hn as ->; [|lia].
    rewrite guard_Ok, negb_false_iff, signer_bits, N.leb_le in Hs by apply (field_lt report 72 4). tauto.
  - intros ((Hz & Hp) & Hs). split_and!; [tauto|tauto|tauto|]. eexists. split; [apply le_u32_Ok; [lia|done]|].
    rewrite guard_Ok, negb_false_iff, signer_bits, N.leb_le by apply (field_lt report 72 4). tauto.
Qed.

Section Tcb.
Context (report : string).

Lemma tcb_slice tcb to i : to = (tcb + 8)%nat → (i < 8)%nat → byte_index (slice report tcb to) i = tcb_part report tcb i.
Proof. intros -> H. apply byte_index_slice. lia. Qed.
Lemma tcb_reserved tcb to :
  to = (tcb + 8)%nat → (to ≤ String.length report)%nat →
  any_nonzero (slice (slice report tcb to) 2 6) = false ↔ ∀ i, (2 ≤ i < 6)%nat → tcb_part report tcb i = 0%N.
Proof.
  intros Ht Hl. rewrite slice_zero by (rewrite length_slice; lia). unfold zero_between; cbn [fst snd].
  split; intros H i Hi; specialize (H i Hi); rewrite (tcb_slice tcb to) in * by lia; done.
Qed.
Lemma tcb_minimum_Ok tcb to :
  to = (tcb + 8)%nat → tcb_below_minimum (slice report tcb to) = false ↔ tcb_minimum report tcb.
Proof. intros Ht. unfold tcb_below_minimum, tcb_minimum. rewrite !(tcb_slice tcb to) by lia. bools. tauto. Qed.
Lemma tcb_at_least_Ok current reported to to' :
  to = (current + 8)%nat → to' = (reported + 8)%nat →
  tcb_at_least (slice report current to) (slice report reported to') = true
  ↔ ∀ i, i ∈ [0; 1; 6; 7]%nat → (tcb_part report reported i ≤ tcb_part report current i)%N.
Proof.
  intros Ht Ht'. unfold tcb_at_least. cbn [forallb].
  rewrite !(tcb_slice current to), !(tcb_slice reported to') by lia. bools. split.
  - intros H i Hi. repeat (apply elem_of_cons in Hi as [->|Hi]; [tauto|]). by apply elem_of_nil in Hi.
  - intros H. split_and!; try done; apply H; rewrite !elem_of_cons; auto.
Qed.

Lemma firmware_Ok :
  firmware_below_minimum report = false
  ↔ (2 ≤ byte_index report 490 ∨ byte_index report 490 = 1 ∧ 55 ≤ byte_index report 489)%N ∧ (21 ≤ byte_index report 488)%N.
Proof. unfold firmware_below_minimum. bools. generalize (byte_index report 490), (byte_index report 489), (byte_index report 488). intros. lia. Qed.

Lemma policy_Ok :
  String.length report = 1184%nat → verify_report_policy report = Ok tt ↔ report_policy report.
Proof.
  intros Hl. unfold verify_report_policy, REPORTED_TCB. cbn zeta. split.
  - intros H. inv_ok.
    repeat match goal with
    | H : for_each _ _ = Ok _ |- _ => apply for_each_Ok in H
    | H : Forall _ (_ :: _) |- _ => apply List.Forall_cons_iff in H as [? H]; inv_ok
    | H : Forall _ [] |- _ => clear H
    end.
    repeat match goal with H : negb _ = false |- _ => apply negb_false_iff in H end.
    repeat match goal with H : bool_decide _ = true |- _ => apply bool_decide_eq_true in H end.
    constructor; try first [by apply guest_policy_Ok|by apply platform_Ok|by apply firmware_Ok
      |by eapply tcb_minimum_Ok|assumption].
    + intros tcb i Ht. repeat (apply elem_of_cons in Ht as [->|Ht]; [revert i; by eapply tcb_reserved; [done|lia|]|]).
      by apply elem_of_nil in Ht.
    + eapply tcb_at_least_Ok; [done..|]. assumption.
  - intros [Hg Hp Hr Hc Hu Hm Hn Hf Hd].
    repeat first [apply guard_Ok; split | apply unit_bind_Ok; split | apply for_each_Ok | apply List.Forall_cons
                 | apply List.Forall_nil | reflexivity].
    all: first [by apply guest_policy_Ok|by apply platform_Ok|by apply firmware_Ok
      |by eapply tcb_minimum_Ok|by apply negb_false_iff, bool_decide_eq_true| idtac].
    all: first [by apply negb_false_iff; eapply tcb_at_least_Ok|idtac].
    all: eapply tcb_reserved; [done|lia|]; intros i Hi; apply Hr; [rewrite !elem_of_cons; auto|done].
Qed.
End Tcb.

(** ** The extension loop *)

Lemma extension_values_cons oid o v exts :
  extension_values oid ((o, v) :: exts) = if o =?= oid then v :: extension_values oid exts else extension_values oid exts.
Proof. unfold extension_values. cbn. by case_bool_decide. Qed.

(** What the loop still asks for, by what it has found already. *)
Definition once (found : bool) (good : string → Prop) (l : list string) : Prop :=
  if found then l = [] else exactly_one good l.
Lemma once_cons found good v l : once found good (v :: l) ↔ (found = false ∧ good v) ∧ once true good l.
Proof.
  unfold once, exactly_one. destruct found; [naive_solver|]. split; [intros (? & [= -> ->] & ?)|intros [[_ ?] ->]]; eauto.
Qed.

Lemma check_tcb_Ok value tcb found i :
  check_tcb_ext value tcb found i = Ok tt ↔ found = false ∧ states_number (byte_index tcb i) value.
Proof.
  unfold check_tcb_ext, states_number. rewrite bind_Ok. setoid_rewrite guard_Ok.
  split; [intros (c & H & Hf & _)|intros (-> & c & H & <-)]; bools; [destruct Hf; eauto|].
  exists c. rewrite N.eqb_refl. done.
Qed.
Lemma check_hwid_Ok value hwid found :
  check_hwid_ext value hwid found = Ok tt ↔ found = false ∧ states_hwid hwid value.
Proof.
  unfold check_hwid_ext, states_hwid. rewrite bind_Ok. setoid_rewrite guard_Ok.
  split; [intros (d & H & Hf & _)|intros (-> & H)]; bools; [destruct Hf; subst; eauto|].
  exists hwid. by rewrite bool_decide_eq_true_2.
Qed.

Definition all_found (f : Found) : bool :=
  found_hwid f && found_boot_loader f && found_tee f && found_snp f && found_microcode f.
Definition remaining (hwid tcb : string) (f : Found) (exts : list (string * string)) : Prop :=
  once (found_hwid f) (states_hwid hwid) (extension_values HWID_OID exts)
  ∧ once (found_boot_loader f) (states_number (byte_index tcb 0)) (extension_values BOOT_LOADER_OID exts)
  ∧ once (found_tee f) (states_number (byte_index tcb 1)) (extension_values TEE_OID exts)
  ∧ once (found_snp f) (states_number (byte_index tcb 6)) (extension_values SNP_OID exts)
  ∧ once (found_microcode f) (states_number (byte_index tcb 7)) (extension_values MICROCODE_OID exts).

Lemma after_check {A} (m : Result unit) (a : A) (P : A → Prop) :
  (∃ b, (_ ← m; Ok a) = Ok b ∧ P b) ↔ m = Ok tt ∧ P a.
Proof. setoid_rewrite unit_bind_Ok. split; [intros (b & [? [= <-]] & ?)|intros []]; eauto. Qed.

(** One turn of the loop keeps what remains to be found. *)
Lemma check_extension_spec hwid tcb f ext exts :
  remaining hwid tcb f (ext :: exts)
  ↔ ∃ f', check_extension hwid tcb f ext = Ok f' ∧ remaining hwid tcb f' exts.
Proof.
  destruct ext as [oid value], f as [h b t s m]. unfold check_extension.
  destruct (decide (oid = HWID_OID)) as [->|]; [|destruct (decide (oid = BOOT_LOADER_OID)) as [->|];
    [|destruct (decide (oid = TEE_OID)) as [->|]; [|destruct (decide (oid = SNP_OID)) as [->|];
    [|destruct (decide (oid = MICROCODE_OID)) as [->|]]]]].
  all: unfold remaining at 1; rewrite !extension_values_cons.
  all: repeat match goal with
       | |- context [bool_decide (?a = ?a)] => rewrite (bool_decide_eq_true_2 (a = a)) by done
       | |- context [bool_decide (?a = ?b)] => rewrite (bool_decide_eq_false_2 (a = b)) by done
       end.
  all: cbn [found_hwid found_boot_loader found_tee found_snp found_microcode].
  6: { split; [intros H; by eexists|by intros (f' & [= <-] & H)]. }
  all: rewrite after_check, once_cons, ?check_hwid_Ok, ?check_tcb_Ok; unfold remaining.
  all: cbn [found_hwid found_boot_loader found_tee found_snp found_microcode]; tauto.
Qed.

Lemma extensions_loop hwid tcb exts f :
  (∃ f', try_fold (check_extension hwid tcb) exts f = Ok f' ∧ all_found f' = true) ↔ remaining hwid tcb f exts.
Proof.
  revert f. induction exts as [|ext exts IH]; intros f.
  - cbn [try_fold]. unfold remaining, all_found. destruct f as [[] [] [] [] []]; cbn; unfold once, exactly_one; naive_solver.
  - rewrite check_extension_spec. setoid_rewrite <-IH. cbn [try_fold]. setoid_rewrite bind_Ok. naive_solver.
Qed.

(** ** DER round trip *)

(** The big-endian bytes of a number, and the shortest DER header for it. *)
Fixpoint be_bytes (count : nat) (n : N) : string :=
  match count with
  | O => ""
  | S count => String (ascii_of_N (n / 256 ^ N.of_nat count mod 256)) (be_bytes count n)
  end.
Definition length_bytes (n : N) : nat :=
  if (n <? 2 ^ 8)%N then 1%nat else if (n <? 2 ^ 16)%N then 2%nat else if (n <? 2 ^ 24)%N then 3%nat else 4%nat.
Definition der_length (n : N) : string :=
  if (n <? 128)%N then String (ascii_of_N n) ""
  else String (ascii_of_N (128 + N.of_nat (length_bytes n))) (be_bytes (length_bytes n) n).
Definition der_element (tag : N) (content : string) : string :=
  String (ascii_of_N tag) (der_length (N.of_nat (String.length content)) +:+ content).

Lemma byte_at_app a b i : byte_at (a +:+ b) (String.length a + i) = byte_at b i.
Proof. induction a as [|c a IH]; [done|exact IH]. Qed.
Lemma code_ascii n : (n < 256)%N → code (ascii_of_N n) = n.
Proof. apply N_ascii_embedding. Qed.
Lemma be_bytes_length count n : String.length (be_bytes count n) = count.
Proof. induction count; cbn; lia. Qed.
Lemma length_bytes_bounds n : (n < 2 ^ 32)%N → (1 ≤ length_bytes n ≤ 4)%nat ∧ (n < 256 ^ N.of_nat (length_bytes n))%N.
Proof. intros H. unfold length_bytes. repeat case_match; bools; split; try lia; cbn; lia. Qed.

Lemma der_long_length_be count n acc :
  (acc * 256 ^ N.of_nat count + n mod 256 ^ N.of_nat count ≤ usize_max)%N →
  der_long_length acc (be_bytes count n) = Ok (acc * 256 ^ N.of_nat count + n mod 256 ^ N.of_nat count)%N.
Proof.
  revert acc. induction count as [|count IH]; intros acc H.
  - cbn. f_equal. rewrite N.mod_1_r. lia.
  - set (p := (256 ^ N.of_nat count)%N) in *. set (d := (n / p mod 256)%N).
    assert (0 < p)%N by (apply N.neq_0_lt_0, N.pow_nonzero; done).
    assert (d < 256)%N by (apply N.mod_lt; done).
    assert (acc * 256 ^ N.of_nat (S count) + n mod 256 ^ N.of_nat (S count) = (acc * 256 + d) * p + n mod p)%N as E.
    { rewrite Nat2N.inj_succ, N.pow_succ_r'. fold p. rewrite (N.mul_comm 256 p), N.Div0.mod_mul_r. fold d. lia. }
    rewrite E in H |- *. cbn [be_bytes der_long_length]. rewrite code_ascii by done. fold p d.
    destruct (N.ltb_spec usize_max (acc * 256 + d)) as [Hlt|_]; [|by apply IH].
    exfalso. apply (N.lt_irrefl usize_max). eapply N.lt_le_trans; [exact Hlt|]. etransitivity; [|exact H].
    etransitivity; [|apply N.le_add_r]. rewrite <-(N.mul_1_r (acc * 256 + d)) at 1. apply N.mul_le_mono_l. lia.
Qed.

Lemma land_high n : (n < 128)%N → (N.land n 128 =? 0)%N = true.
Proof.
  intros H. change 128%N with (N.shiftl 1 7). rewrite land_bit.
  destruct (N.eq_dec n 0%N) as [->|]; [done|]. rewrite N.bits_above_log2; [done|]. by apply N.log2_lt_pow2; [lia|].
Qed.
Lemma land_long k : (1 ≤ k ≤ 4)%nat →
  (N.land (128 + N.of_nat k) 128 =? 0)%N = false ∧ N.to_nat (N.land (128 + N.of_nat k) 127) = k.
Proof. intros H. assert (k = 1 ∨ k = 2 ∨ k = 3 ∨ k = 4)%nat as [->|[->|[->| ->]]] by lia; done. Qed.

(** An element is read back wherever it stands. *)
Lemma der_value_element pre tag content post :
  (tag < 256)%N → (N.of_nat (String.length content) < 2 ^ 32)%N →
  (N.of_nat (String.length (pre +:+ der_element tag content +:+ post)) ≤ usize_max)%N →
  der_value (pre +:+ der_element tag content +:+ post) (String.length pre) tag
  = Ok (content, String.length pre + String.length (der_element tag content))%nat.
Proof.
  intros Ht Hc Hl. set (len := N.of_nat (String.length content)) in *.
  unfold der_element in *. fold len in Hl |- *. unfold der_length in *. unfold der_value.
  set (der := pre +:+ _ +:+ post) in *.
  assert (byte_at der (String.length pre) = Some (ascii_of_N tag)) as ->.
  { rewrite <-(Nat.add_0_r (String.length pre)). apply byte_at_app. }
  cbn [fmap option_fmap option_map]. rewrite code_ascii by done. rewrite bool_decide_eq_true_2 by done. cbn [negb].
  destruct (N.ltb_spec len 128) as [Hs|Hs].
  - set (hdr := pre +:+ String (ascii_of_N tag) (String (ascii_of_N len) "")).
    assert (der = hdr +:+ content +:+ post) as Ed.
    { unfold der, hdr. by rewrite !append_assoc. }
    assert (byte_at der (S (String.length pre)) = Some (ascii_of_N len)) as ->.
    { rewrite <-Nat.add_1_r. apply byte_at_app. }
    cbn [fmap option_fmap option_map ok_or mbind result_bind]. rewrite code_ascii, land_high by lia.
    assert (S (S (String.length pre)) = String.length hdr) as ->.
    { unfold hdr. rewrite append_length. cbn. lia. }
    assert (String.length der = String.length hdr + String.length content + String.length post)%nat as El.
    { rewrite Ed, !append_length. lia. }
    cbn [mbind result_bind]. destruct (N.ltb_spec usize_max (N.of_nat (String.length hdr) + len)); [lia|].
    destruct (N.ltb_spec (N.of_nat (String.length der)) (N.of_nat (String.length hdr) + len)); [lia|].
    unfold len. rewrite Nat2N.id, Ed, slice_middle. do 2 f_equal. unfold hdr.
    repeat (rewrite append_length || cbn [String.length]). lia.
  - destruct (length_bytes_bounds len) as [Hb Hn]; [done|]. set (k := length_bytes len) in *.
    set (hdr0 := pre +:+ String (ascii_of_N tag) (String (ascii_of_N (128 + N.of_nat k)) "")).
    set (hdr := hdr0 +:+ be_bytes k len).
    assert (der = hdr0 +:+ be_bytes k len +:+ (content +:+ post)) as Ed0.
    { unfold der, hdr0. by repeat (rewrite append_assoc || rewrite append_cons). }
    assert (der = hdr +:+ content +:+ post) as Ed by (unfold hdr; by rewrite append_assoc).
    assert (byte_at der (S (String.length pre)) = Some (ascii_of_N (128 + N.of_nat k))) as ->.
    { rewrite <-Nat.add_1_r. apply byte_at_app. }
    destruct (land_long k Hb) as [Hl1 Hl2].
    cbn [fmap option_fmap option_map ok_or mbind result_bind]. rewrite code_ascii, Hl1, Hl2 by lia.
    assert (S (S (String.length pre)) = String.length hdr0) as ->.
    { unfold hdr0. rewrite append_length. cbn. lia. }
    assert (String.length hdr = String.length hdr0 + k)%nat as Eh.
    { unfold hdr. by rewrite append_length, be_bytes_length. }
    assert (String.length der = String.length hdr + String.length content + String.length post)%nat as El.
    { rewrite Ed, !append_length. lia. }
    destruct (Nat.eqb_spec k 0), (Nat.ltb_spec 4 k), (Nat.ltb_spec (String.length der - String.length hdr0) k); try lia.
    cbn [orb]. rewrite Ed0 at 1. rewrite <-(be_bytes_length k len) at 2. rewrite slice_middle.
    rewrite der_long_length_be; rewrite N.mod_small, N.mul_0_l, N.add_0_l by done; [|lia]. cbn [mbind result_bind].
    rewrite <-Eh. destruct (N.ltb_spec usize_max (N.of_nat (String.length hdr) + len)); [lia|].
    destruct (N.ltb_spec (N.of_nat (String.length der)) (N.of_nat (String.length hdr) + len)); [lia|].
    assert (N.to_nat len = String.length content) as -> by apply Nat2N.id. rewrite Ed, slice_middle. do 2 f_equal.
    rewrite Eh. unfold hdr0. repeat (rewrite append_length || cbn [String.length]). rewrite be_bytes_length. lia.
Qed.

(** The DER form of an RSA public key: a positive modulus gets a zero byte in
    front when its first bit is set. *)
Definition der_unsigned (n : string) : string := if (128 <=? byte_index n 0)%N then String "000" n else n.
Definition der_rsa_key (modulus exponent : string) : string :=
  der_element 48 (der_element 2 (der_unsigned modulus) +:+ der_element 2 exponent).

Lemma der_element_length tag content :
  (String.length content < String.length (der_element tag content) ≤ String.length content + 6)%nat.
Proof.
  unfold der_element. cbn [String.length]. rewrite append_length. unfold der_length.
  destruct (_ <? _)%N; cbn [String.length]; [lia|]. rewrite be_bytes_length.
  unfold length_bytes. repeat case_match; lia.
Qed.

(** An RSA key in DER is read back exactly: any modulus without leading
    zero byte and any exponent, up to 2 GiB together. *)
Theorem rsa_key_roundtrip modulus exponent :
  is_empty modulus = false → byte_index modulus 0 ≠ 0%N → is_empty exponent = false →
  (N.of_nat (String.length modulus + String.length exponent) < 2 ^ 31)%N →
  parse_rsa_public_key (der_rsa_key modulus exponent) = Ok (modulus, exponent).
Proof.
  intros Hm Hz He Hl. unfold parse_rsa_public_key, der_rsa_key.
  set (m := der_unsigned modulus). set (sequence := der_element 2 m +:+ der_element 2 exponent).
  assert (String.length m ≤ S (String.length modulus))%nat as Hlm.
  { unfold m, der_unsigned. destruct (_ <=? _)%N; cbn [String.length]; lia. }
  assert (String.length sequence ≤ String.length m + String.length exponent + 12)%nat as Hls.
  { unfold sequence. rewrite append_length. pose proof (der_element_length 2 m).
    pose proof (der_element_length 2 exponent). lia. }
  assert (2 ^ 31 = 2147483648)%N as E31 by done. assert (2 ^ 32 = 4294967296)%N as E32 by done.
  pose proof (der_element_length 48 sequence) as Hd.
  pose proof (der_value_element "" 48 sequence "") as Hv. rewrite append_nil_r in Hv.
  change ("" +:+ ?x) with x in Hv. change (String.length "") with 0%nat in Hv.
  rewrite Hv by (unfold usize_max; lia). cbn [mbind result_bind].
  rewrite Nat.add_0_l. rewrite Nat.eqb_refl. cbn [negb].
  pose proof (der_value_element "" 2 m (der_element 2 exponent)) as Hv1. change ("" +:+ ?x) with x in Hv1.
  change (String.length "") with 0%nat in Hv1. fold sequence in Hv1.
  rewrite Hv1 by (unfold usize_max; lia). cbn [mbind result_bind]. rewrite Nat.add_0_l.
  pose proof (der_value_element (der_element 2 m) 2 exponent "") as Hv2. rewrite append_nil_r in Hv2. fold sequence in Hv2.
  rewrite Hv2 by (unfold usize_max; lia). cbn [mbind result_bind].
  rewrite <-append_length. fold sequence. rewrite Nat.eqb_refl, He. cbn [negb orb].
  unfold m, der_unsigned. destruct (N.leb_spec 128 (byte_index modulus 0)).
  - cbn. rewrite substring_zero_all by lia. done.
  - rewrite Hm. cbn [orb]. destruct (N.eqb_spec (byte_index modulus 0) 0); [lia|done].
Qed.

(** ** Accepted reports *)

Section Accepted.
Context {prim : Primitives} {laws : Sha256Laws} {x509 : CertificateReader} {amd : AmdCrypto}.

Definition amd_signed_by (certificate issuer : AmdCertificate) : Prop :=
  ac_signature_algorithm certificate = "1.2.840.113549.1.1.10"
  ∧ ∃ key modulus exponent tbs_der signature,
      ac_public_key issuer = Some key ∧ parse_rsa_public_key key = Ok (modulus, exponent)
      ∧ ac_tbs_der certificate = Some tbs_der ∧ ac_signature certificate = Some signature
      ∧ rsa_pss_sha384_verify modulus exponent tbs_der signature = true.

(** The certificate is signed by AMD's Genoa intermediate, which is signed by the
    root with the pinned digest. *)
Definition chains_to_genoa (vcek : AmdCertificate) : Prop :=
  ∃ ask_der ark_der ask ark,
    amd_base64_decode GENOA_ASK_DER_B64 = Some ask_der ∧ amd_base64_decode GENOA_ARK_DER_B64 = Some ark_der
    ∧ amd_certificate_from_der ask_der = Some ask ∧ amd_certificate_from_der ark_der = Some ark
    ∧ sha256_digest ark_der = "sha256:" +:+ GENOA_ARK_SHA256
    ∧ ac_subject ark = ac_issuer ark ∧ ac_issuer ask = ac_subject ark ∧ ac_issuer vcek = ac_subject ask
    ∧ amd_signed_by ark ark ∧ amd_signed_by ask ark ∧ amd_signed_by vcek ask.

Lemma amd_signature_Ok certificate issuer :
  verify_rsa_pss_certificate_signature certificate issuer = Ok tt ↔ amd_signed_by certificate issuer.
Proof.
  unfold verify_rsa_pss_certificate_signature, amd_signed_by. split.
  - intros H. inv_ok. repeat match goal with x : _ * _ |- _ => destruct x end. inv_ok. bools.
    split; [done|]. eexists _, _, _, _, _. split_and!; eassumption.
  - intros (Ha & key & m & e & tbs & s & Hk & Hp & Ht & Hs & Hv).
    rewrite Ha, Hk, Ht, Hs. cbn [ok_or mbind result_bind]. rewrite Hp. cbn [mbind result_bind]. by rewrite Hv.
Qed.
Lemma chain_Ok vcek : verify_genoa_certificate_chain vcek = Ok tt ↔ chains_to_genoa vcek.
Proof.
  unfold verify_genoa_certificate_chain, verify_genoa_chain_certs, chains_to_genoa. split.
  - intros H. inv_ok. bools.
    repeat match goal with H : verify_rsa_pss_certificate_signature _ _ = Ok _ |- _ => apply amd_signature_Ok in H end.
    eexists _, _, _, _. split_and!; try eassumption; tauto.
  - intros (ask_der & ark_der & ask & ark & H1 & H2 & H3 & H4 & H5 & H6 & H7 & H8 & H9 & H10 & H11).
    rewrite H1, H2. cbn [ok_or mbind result_bind]. rewrite H3, H4. cbn [ok_or mbind result_bind].
    apply guard_Ok. split; [by rewrite !bool_decide_eq_true_2|].
    repeat (apply unit_bind_Ok; split); by apply amd_signature_Ok.
Qed.

Lemma vcek_extensions_Ok cert report :
  String.length report = 1184%nat →
  verify_amd_vcek_extensions cert (CHIP_ID report) (REPORTED_TCB report) = Ok tt
  ↔ ∃ exts, ac_extensions cert = Some exts ∧ vcek_matches exts report.
Proof.
  intros Hl. unfold verify_amd_vcek_extensions.
  assert (∀ exts, vcek_matches exts report ↔ remaining (CHIP_ID report) (REPORTED_TCB report) nothing_found exts) as Hm.
  { intros exts. unfold remaining, once; cbn [found_hwid found_boot_loader found_tee found_snp found_microcode nothing_found].
    unfold REPORTED_TCB. rewrite !(tcb_slice report 384 392) by lia. split; [intros []; tauto|intros H; constructor; tauto]. }
  setoid_rewrite Hm. setoid_rewrite <-extensions_loop. split.
  - intros H. inv_ok. eexists. split; [eassumption|]. eexists. split; [eassumption|].
    unfold all_found. bools. tauto.
  - intros (exts & -> & f & Hf & Ha). cbn [ok_or mbind result_bind]. rewrite Hf. cbn [mbind result_bind].
    apply guard_Ok. split; [|done]. unfold all_found in Ha. bools. tauto.
Qed.

(** *** The TLS key *)

Lemma hex_value_digit n : (n < 16)%N → hex_value (hex_digit n) = Some n.
Proof.
  intros H. assert (∀ k, (k < 16)%nat → hex_value (hex_digit (N.of_nat k)) = Some (N.of_nat k)) as Hk.
  { intros k Hk. do 16 (destruct k; [done|]). lia. }
  rewrite <-(N2Nat.id n). apply Hk. lia.
Qed.
Lemma hex_digit_plus n : (n < 16)%N → hex_digit n ≠ "+"%char.
Proof. intros H E. pose proof (hex_value_digit n H) as Hv. by rewrite E in Hv. Qed.
Lemma hex_bytes_of_lower_hex s : hex_bytes_of (lower_hex s) = Some s.
Proof.
  induction s as [|c s IH]; [done|]. cbn [lower_hex hex_bytes_of]. pose proof (code_lt c) as Hc.
  assert (code c / 16 < 16 ∧ code c mod 16 < 16)%N as [Hh Hl].
  { split; [apply N.Div0.div_lt_upper_bound; lia|by apply N.mod_lt]. }
  unfold u8_from_hex. rewrite (hex_value_digit _ Hl). cbn [mbind option_bind].
  rewrite bool_decide_eq_false_2 by by apply hex_digit_plus.
  rewrite (hex_value_digit _ Hh). cbn [mbind option_bind]. rewrite IH. cbn. do 2 f_equal.
  rewrite <-N.div_mod by done. apply ascii_N_embedding.
Qed.

Lemma zip_equal (a b : list ascii) :
  length a = length b → forallb (λ '(x, y), x =?= y) (zip a b) = true ↔ a = b.
Proof.
  revert b. induction a as [|x a IH]; intros [|y b] Hl; cbn in *; try done.
  rewrite andb_true_iff, bool_decide_eq_true, IH by lia. naive_solver.
Qed.
Lemma length_bytes_string s : length (bytes s) = String.length s.
Proof. induction s; cbn; [done|]. by f_equal. Qed.

(** The live certificate's key digest, in the first half of the report data and
    in the capture. *)
Definition binds_tls_key (request : TinfoilQuoteVerificationRequest) : Prop :=
  ∃ cert spki_der,
    certificate_from_der (tr_live_tls_leaf_certificate_der request) = Some cert
    ∧ cert_spki_der cert = Some spki_der
    ∧ slice (tr_quote_bytes request) 80 112 = sha256 spki_der
    ∧ eq_ignore_ascii_case (trim_start_matches "sha256:" (tr_live_tls_spki_sha256 request)) (sha256_hex spki_der) = true.

Lemma stripped_sha256_hex x : default (sha256_hex x) (strip_prefix "sha256:" (sha256_hex x)) = sha256_hex x.
Proof.
  destruct (strip_prefix "sha256:" (sha256_hex x)) as [r|] eqn:E; [|done]. exfalso.
  rewrite sha256_hex_eq in E. apply strip_prefix_Some in E.
  destruct (lower_hex_spec (sha256 x)) as (_ & Ha & _). by rewrite E, append_cons, all_bytes_cons in Ha.
Qed.

Lemma tls_Ok request :
  String.length (tr_quote_bytes request) = 1184%nat → tls_key_bound request = Ok tt ↔ binds_tls_key request.
Proof.
  intros Hl. unfold tls_key_bound, binds_tls_key, certificate_spki_sha256_hex. cbn zeta.
  assert (∀ spki, decode_hex_32 (sha256_hex spki) = Ok (sha256 spki)) as Hd.
  { intros spki. unfold decode_hex_32. rewrite sha256_hex_length. cbn [Nat.eqb negb].
    by rewrite sha256_hex_eq, hex_bytes_of_lower_hex. }
  assert (∀ spki, forallb (λ '(a, b), a =?= b) (zip (bytes (slice (tr_quote_bytes request) 80 112)) (bytes (sha256 spki))) = true
            ↔ slice (tr_quote_bytes request) 80 112 = sha256 spki) as Hz.
  { intros spki. rewrite zip_equal by (rewrite !length_bytes_string, length_slice, sha256_length; lia).
    split; [apply bytes_inj|by intros ->]. }
  split.
  - intros H. inv_ok. rewrite stripped_sha256_hex in *.
    match goal with H : decode_hex_32 _ = Ok _ |- _ => rewrite Hd in H; injection H as <- end.
    repeat match goal with H : negb _ = false |- _ => apply negb_false_iff in H end.
    eexists _, _. split_and!; [eassumption..|by apply Hz|done].
  - intros (cert & spki & Hc & Hs & Hr & He). rewrite Hc. cbn [ok_or mbind result_bind]. rewrite Hs.
    cbn [ok_or mbind result_bind]. rewrite stripped_sha256_hex, Hd. cbn [mbind result_bind].
    by rewrite (proj2 (Hz spki) Hr), He.
Qed.

(** *** The whole verifier *)

(** When a report is accepted: its fields and policy, a VCEK that chains to AMD's
    root, signed this report and states its chip and TCB, the live TLS key, and
    the time. *)
Record snp_accepted (request : TinfoilQuoteVerificationRequest) (vcek_der : string) (now : Z)
    (certificate : Certificate) : Prop := {
  sn_format : tr_attestation_format request = SevSnpGuestV2;
  sn_fields : report_fields (tr_quote_bytes request);
  sn_policy : report_policy (tr_quote_bytes request);
  sn_signed : ∃ vcek key exts,
    amd_certificate_from_der vcek_der = Some vcek ∧ chains_to_genoa vcek
    ∧ ac_public_key vcek = Some key
    ∧ ecdsa_p384_verify key (slice (tr_quote_bytes request) 0 672) (report_signature (tr_quote_bytes request)) = true
    ∧ ac_extensions vcek = Some exts ∧ vcek_matches exts (tr_quote_bytes request);
  sn_tls : binds_tls_key request;
  sn_certificate : certificate_from_der vcek_der = Some certificate;
  sn_valid : (saturating_mul (cert_not_before_secs certificate) 1000 ≤ now
              < saturating_mul (cert_not_after_secs certificate) 1000)%Z;
}.

(** The quote reported for an accepted report. *)
Definition snp_quote (report : string) (now expires : Z) : VerifiedTinfoilQuote :=
  from_verified_quote SevSnpGuestV2 {| eh_cpu := SevSnp; eh_gpu := None |}
    ("sev-snp:measurement:" +:+ lower_hex (slice report 144 192)) (lower_hex (slice report 80 144))
    (format_utc_timestamp_millis now) (format_utc_timestamp_millis expires) expires.

Lemma snp_quote_iff request vcek_der now q :
  verify_tinfoil_quote_with_vcek_at request vcek_der now = Ok q
  ↔ ∃ certificate, snp_accepted request vcek_der now certificate
      ∧ q = snp_quote (tr_quote_bytes request) now (saturating_mul (cert_not_after_secs certificate) 1000).
Proof.
  unfold verify_tinfoil_quote_with_vcek_at, certificate_validity_epoch_millis, ensure_vcek_validity. cbn zeta. split.
  - intros H. inv_ok. repeat match goal with x : _ * _ |- _ => destruct x end. inv_ok. cbn [fst snd] in *.
    repeat match goal with H : (_, _) = (_, _) |- _ => injection H as <- <- end.
    match goal with H : negb (String.length _ =? REPORT_LEN)%nat = false |- _ =>
      apply negb_false_iff, Nat.eqb_eq in H; change REPORT_LEN with 1184%nat in H; rename H into Hl end.
    match goal with H : validate_report_version _ = Ok _ |- _ => apply (version_Ok _ _ Hl) in H as [-> Hv] end.
    match goal with H : le_u32 _ 52 = Ok _ |- _ => apply le_u32_Ok in H as ->; [|lia] end.
    match goal with H : verify_report_reserved_fields _ _ = Ok _ |- _ => apply (zeros_Ok _ _ Hl) in H as [Hz Hs] end.
    match goal with H : verify_genoa_certificate_chain _ = Ok _ |- _ => apply chain_Ok in H end.
    match goal with H : verify_amd_vcek_extensions _ _ _ = Ok _ |- _ =>
      apply (vcek_extensions_Ok _ _ Hl) in H as (exts & Hx & Hm) end.
    match goal with H : verify_report_policy _ = Ok _ |- _ => apply (policy_Ok _ Hl) in H end.
    match goal with H : tls_key_bound _ = Ok _ |- _ => apply (tls_Ok _ Hl) in H end.
    bools. eexists. split; [|reflexivity]. constructor; try done.
    eexists _, _, _. split_and!; eassumption.
  - intros (certificate & [Hf [Hl Hv Ha Hz Hs] Hp (vcek & key & exts & Hc & Hch & Hk & He & Hx & Hm) Ht Hcert Hvalid] & ->).
    rewrite Hf, bool_decide_eq_true_2 by done. change REPORT_LEN with 1184%nat. rewrite Hl, Nat.eqb_refl. cbn [negb].
    rewrite (proj2 (version_Ok _ _ Hl) (conj eq_refl Hv)). cbn [mbind result_bind].
    rewrite (proj2 (le_u32_Ok (tr_quote_bytes request) 52 _ ltac:(lia)) eq_refl). cbn [mbind result_bind]. rewrite Ha, N.eqb_refl. cbn [negb].
    rewrite (proj2 (zeros_Ok _ _ Hl) (conj Hz Hs)). cbn [mbind result_bind].
    rewrite Hc. cbn [ok_or mbind result_bind]. rewrite (proj2 (chain_Ok _) Hch). cbn [mbind result_bind].
    rewrite Hk. cbn [ok_or mbind result_bind]. unfold SIGNED_LEN. rewrite He. cbn [negb].
    rewrite (proj2 (vcek_extensions_Ok _ _ Hl) (ex_intro _ exts (conj Hx Hm))). cbn [mbind result_bind].
    rewrite (proj2 (policy_Ok _ Hl) Hp). cbn [mbind result_bind]. rewrite (proj2 (tls_Ok _ Hl) Ht). cbn [mbind result_bind].
    rewrite Hcert. cbn [ok_or mbind result_bind].
    destruct (Z.ltb_spec now (saturating_mul (cert_not_before_secs certificate) 1000)); [lia|].
    destruct (Z.leb_spec (saturating_mul (cert_not_after_secs certificate) 1000) now); [lia|]. done.
Qed.

Lemma snp_verifier_quote request vcek_der now q :
  verify_tinfoil_quote_with_vcek request vcek_der now = Ok q
  ↔ ∃ t certificate, now = Some t ∧ (t ≤ u64_max)%Z ∧ snp_accepted request vcek_der t certificate
      ∧ q = snp_quote (tr_quote_bytes request) t (saturating_mul (cert_not_after_secs certificate) 1000).
Proof.
  unfold verify_tinfoil_quote_with_vcek. split.
  - intros H. inv_ok. apply snp_quote_iff in H as (certificate & Ha & ->). bools. eauto 6.
  - intros (t & certificate & -> & Ht & Ha & ->). cbn [ok_or mbind result_bind].
    destruct (Z.ltb_spec u64_max t); [lia|]. apply snp_quote_iff. eauto.
Qed.

(** C14: the SEV-SNP back end accepts exactly the reports of [snp_accepted],
    at a clock inside the [u64] range, and reports their measurement, report data
    and the end of the VCEK's validity. *)
Theorem snp_verifier_accepts_iff request vcek_der now q :
  verify_tinfoil_quote_with_vcek request vcek_der now = Ok q
  ↔ ∃ t certificate, now = Some t ∧ (t ≤ u64_max)%Z ∧ snp_accepted request vcek_der t certificate
      ∧ q = snp_quote (tr_quote_bytes request) t (saturating_mul (cert_not_after_secs certificate) 1000).
Proof. apply snp_verifier_quote. Qed.
End Accepted.

(** ** Concrete inputs *)

#[local] Instance snp_x509 : CertificateReader := {|
  certificate_from_der der :=
    Some {| cert_spki_der := Some der; cert_not_before_secs := 0; cert_not_after_secs := 10 |} |}.

(** A report from its non-zero bytes. *)
Definition report_of (bytes : list (nat * N)) : string :=
  string_of_list_ascii (map (λ i, from_option ascii_of_N "000"%char
    (snd <$> List.find (λ '(j, _), (i =? j)%nat) bytes)) (seq 0 1184)).
Definition put_bytes (i : nat) (s : string) : list (nat * N) := imap (λ k c, ((i + k)%nat, code c)) (bytes s).
Definition tcb_bytes (i : nat) : list (nat * N) := [(i, 7%N); ((i + 6)%nat, 14%N); ((i + 7)%nat, 72%N)].
Definition firmware_bytes (major minor build : N) : list (nat * N) :=
  [(488, build); (489, minor); (490, major); (492, build); (493, minor); (494, major)]%nat.

Definition snp_report (firmware : list (nat * N)) : string :=
  report_of (firmware ++ [(0%nat, 2%N); (10%nat, 3%N); (52%nat, 1%N); (64%nat, 3%N)] ++ tcb_bytes 56 ++ tcb_bytes 384 ++ tcb_bytes 480 ++ tcb_bytes 496
             ++ put_bytes 80 (sha256 "cert"))%list.
Definition sample_snp_report : string := snp_report (firmware_bytes 1 55 21).

Definition amd_key : string := der_rsa_key "modulus" "exponent".
Definition amd_sample_certificate (issuer subject key : string) (exts : list (string * string)) : AmdCertificate := {|
  ac_issuer := issuer; ac_subject := subject; ac_signature_algorithm := "1.2.840.113549.1.1.10";
  ac_public_key := Some key; ac_tbs_der := Some subject; ac_signature := Some issuer; ac_extensions := Some exts |}.
Definition sample_exts : list (string * string) :=
  [(HWID_OID, string_of_list_ascii (replicate 64 "000"%char));
   (BOOT_LOADER_OID, String "002" (String "001" (String "007" "")));
   (TEE_OID, String "002" (String "001" (String "000" "")));
   (SNP_OID, String "002" (String "001" (String "014" "")));
   (MICROCODE_OID, String "002" (String "002" (String "000" (String "072" ""))))].
Definition ark_der : string := default "" (hex_bytes_of GENOA_ARK_SHA256).
#[local] Instance sample_amd : AmdCrypto := {|
  amd_certificate_from_der der :=
    if der =?= "ask" then Some (amd_sample_certificate "ark" "ask" amd_key [])
    else if der =?= ark_der then Some (amd_sample_certificate "ark" "ark" amd_key [])
    else if der =?= "vcek" then Some (amd_sample_certificate "ask" "vcek" "vcek key" sample_exts)
    else None;
  amd_base64_decode s := Some (if s =?= GENOA_ASK_DER_B64 then "ask" else ark_der);
  ecdsa_p384_verify key _ signature := (key =?= "vcek key") && (String.length signature =? 96)%nat;
  rsa_pss_sha384_verify modulus exponent _ _ := (modulus =?= "modulus") && (exponent =?= "exponent") |}.
Definition snp_request (report : string) : TinfoilQuoteVerificationRequest := {|
  tr_capture := {| tl_schema := ""; tl_provider := ""; tl_route_id := ""; tl_evidence_family := "";
                   tl_requested_model := ""; tl_policy_digest := ""; tl_nonce := None; tl_evidence_endpoint := "";
                   tl_live_tls_spki_sha256 := ""; tl_live_tls_leaf_certificate_der_base64 := "";
                   tl_raw_attestation_body_base64 := "" |};
  tr_attestation_format := SevSnpGuestV2; tr_quote_bytes := report; tr_live_tls_leaf_certificate_der := "cert";
  tr_live_tls_spki_sha256 := sha256_hex "cert" |}.

(** The sample report is accepted during the VCEK's validity and not at its end. *)
Example snp_sample_accepted :
  is_ok (verify_tinfoil_quote_with_vcek (snp_request sample_snp_report) "vcek" (Some 9999%Z)) = true
  ∧ verify_tinfoil_quote_with_vcek (snp_request sample_snp_report) "vcek" (Some 10000%Z)
    = Err (InvalidCertificate "Genoa VCEK is outside its validity period").
Proof. by vm_compute. Qed.

(** Debugging, another chip, a lower TCB and another TLS key are each refused. *)
Example snp_sample_refused :
  verify_report_policy (snp_report ((10%nat, 11%N) :: firmware_bytes 1 55 21)) ≠ Ok tt
  ∧ verify_amd_vcek_extensions (amd_sample_certificate "" "" "" sample_exts) "" (REPORTED_TCB sample_snp_report) ≠ Ok tt
  ∧ verify_report_policy (snp_report (firmware_bytes 1 54 21)) ≠ Ok tt.
Proof. by vm_compute. Qed.

(** Firmware newer than 1.55 is refused when its own build number is below 21,
    as being below 1.55 build 21: the three numbers are not compared as one
    version. *)
Example newer_firmware_refused :
  verify_tinfoil_quote_with_vcek (snp_request (snp_report (firmware_bytes 1 56 20))) "vcek" (Some 0%Z)
  = Err (InvalidEvidence "SEV-SNP firmware version is below 1.55 build 21")
  ∧ verify_tinfoil_quote_with_vcek (snp_request (snp_report (firmware_bytes 2 0 0))) "vcek" (Some 0%Z)
    = Err (InvalidEvidence "SEV-SNP firmware version is below 1.55 build 21").
Proof. by vm_compute. Qed.

Lemma rsa_key_roundtrip_witness :
  parse_rsa_public_key (der_rsa_key "modulus" "exponent") = Ok ("modulus", "exponent").
Proof. apply rsa_key_roundtrip; done. Defined.

(** The sample report is accepted, with its certificate's chain. *)
Lemma snp_verifier_accepts_iff_witness :
  ∃ t certificate, snp_accepted (snp_request sample_snp_report) "vcek" t certificate.
Proof.
  destruct (is_ok_inv (verify_tinfoil_quote_with_vcek (snp_request sample_snp_report) "vcek" (Some 9999%Z)))
    as [q Hq]; [vm_compute; reflexivity|].
  destruct (proj1 (snp_verifier_accepts_iff (snp_request sample_snp_report) "vcek" (Some 9999%Z) q) Hq)
    as (t & certificate & _ & _ & H & _). by exists t, certificate.
Defined.
