(* ===== verification/TdxCollateral.v ===== *)
(** * TDX quotes and DCAP collateral

    tdx.rs: bundles of Intel collateral with their validity, the signed envelope
    around a bundle, the bounded cache of bundles by quote, and the Tinfoil back end
    that verifies a TDX quote against collateral. The DCAP library (its quote
    parser, its verification and its collateral record), JSON and CRL decoding are
    parameters. *)

From Stdlib Require Import Ascii String ZArith Lia.
From stdpp Require Import base gmap strings list sets numbers.
From S2P Require Import Prelude RustStr Errors Collections Timestamps Canonical JsonInjective Policy Verdict Signature ReferenceValues EvidenceDocuments QuoteInterfaces.

Open Scope string_scope.

(** ** Collateral *)

(** What the code reads of [dcap_qvl::QuoteCollateralV3], and the rest of it as
    a JSON value. *)
Record QuoteCollateralV3 := {
  qc_tcb_info : string;
  qc_qe_identity : string;
  qc_root_ca_crl : string;
  qc_pck_crl : string;
  qc_pck_certificate_chain : option string;
  qc_rest : Value;
}.

(** [dcap_qvl::quote]: the reports of a parsed quote. *)
Record TDReport10 := {
  tr_mr_td : string; tr_mr_config_id : string; tr_rt_mr0 : string; tr_rt_mr1 : string; tr_rt_mr2 : string;
  tr_rt_mr3 : string; tr_report_data : string;
}.
Record TDReport15 := { tr15_base : TDReport10 }.
Record TDReport15Ex := { tr15ex_base : TDReport15 }.
Inductive QuoteReport :=
| TD10 (report : TDReport10)
| TD15 (report : TDReport15)
| TD15Ex (report : TDReport15Ex)
| SgxEnclave.

(** What the code reads of [dcap_qvl::verify::VerifiedReport]. *)
Record VerifiedReport := {
  vr_status : string;
  vr_platform_up_to_date : bool;
  vr_qe_up_to_date : bool;
  vr_advisory_ids : list string;
}.
(** The outcome of the library's verification, run under [catch_unwind]. *)
Inductive DcapOutcome := DcapPanicked | DcapFailed | DcapVerified (report : VerifiedReport).

Class DcapLibrary := {
  (** [dcap_qvl::verify::verify] of a quote, at a time in seconds. *)
  dcap_verify : string → QuoteCollateralV3 → Z → DcapOutcome;
  (** [Quote::parse]. *)
  quote_parse : string → option QuoteReport;
  (** [serde_json::from_str] of a collateral field. *)
  collateral_json : string → option Value;
  (** [CertificateList::from_der] and its [next_update] in seconds. *)
  crl_next_update : string → option (option Z);
  (** What the whole collateral serialises to. *)
  collateral_value : QuoteCollateralV3 → Value;
}.

Record DcapTdxCollateralSource := { cs_kind : string; cs_url : option string }.
Definition offline_bundle : DcapTdxCollateralSource := {| cs_kind := "offline_bundle"; cs_url := None |}.
Definition pccs (url : string) : DcapTdxCollateralSource := {| cs_kind := "pccs"; cs_url := Some url |}.

Record DcapTdxCollateralBundle := {
  cb_schema : string;
  cb_source : DcapTdxCollateralSource;
  cb_fetched_at : string;
  cb_fetched_at_epoch_ms : Z;
  cb_valid_until : string;
  cb_valid_until_epoch_ms : Z;
  cb_quote_sha256 : option string;
  cb_collateral : QuoteCollateralV3;
}.

Definition BUNDLE_SCHEMA : string := "confidential-inference.dcap-tdx-collateral-bundle.v1".
Definition COLLATERAL_ENVELOPE_SCHEMA : string := "confidential-inference.dcap-tdx-collateral-bundle-envelope.v1".
Definition DCAP_COLLATERAL_CACHE_MAX_BUNDLES : nat := 256.

Record DcapTdxCollateralBundleEnvelope := {
  ce_schema : string;
  ce_payload : DcapTdxCollateralBundle;
  ce_signature : ArtifactSignature;
}.

(** The serialised bundle. *)
Definition source_value (s : DcapTdxCollateralSource) : Value :=
  VObject (("kind", VString (cs_kind s)) :: optional "url" VString (cs_url s)).

Section Tdx.
Context {prim : Primitives} {crypto : SignatureCrypto} {dcap : DcapLibrary}.

Definition bundle_value (b : DcapTdxCollateralBundle) : Value :=
  VObject ([("schema", VString (cb_schema b)); ("source", source_value (cb_source b));
            ("fetched_at", VString (cb_fetched_at b)); ("fetched_at_epoch_ms", u64_value (cb_fetched_at_epoch_ms b));
            ("valid_until", VString (cb_valid_until b)); ("valid_until_epoch_ms", u64_value (cb_valid_until_epoch_ms b))]
           ++ optional "quote_sha256" VString (cb_quote_sha256 b)
           ++ [("collateral", collateral_value (cb_collateral b))])%list.

(** ** How long collateral is valid *)

Definition collateral_json_next_update_epoch_millis (json : string) : Result Z :=
  value ← ok_or (collateral_json json) (InvalidEvidence "invalid TDX collateral JSON field: {err}");
  next_update ← ok_or (get_str "nextUpdate" value) (InvalidEvidence "TDX collateral JSON is missing nextUpdate");
  parse_utc_timestamp_millis next_update.

Definition crl_next_update_epoch_millis (crl_der : string) : Result (option Z) :=
  crl ← ok_or (crl_next_update crl_der) (InvalidEvidence "invalid DCAP CRL: {err}");
  Ok (option_map (λ secs, saturating_mul secs 1000) crl).

Definition dcap_collateral_valid_until_epoch_millis (collateral : QuoteCollateralV3) : Result Z :=
  expires_at ← try_fold (λ expires_at json,
                 next_update ← collateral_json_next_update_epoch_millis json;
                 Ok (Z.min expires_at next_update))
                 [qc_tcb_info collateral; qc_qe_identity collateral] u64_max;
  expires_at ← try_fold (λ expires_at crl_der,
                 next_update ← crl_next_update_epoch_millis crl_der;
                 Ok (match next_update with Some next_update => Z.min expires_at next_update | None => expires_at end))
                 [qc_root_ca_crl collateral; qc_pck_crl collateral] expires_at;
  bail (InvalidEvidence "TDX DCAP collateral does not contain an expiration bound") when (expires_at =? u64_max)%Z;
  Ok expires_at.

(** ** Bundles *)

Definition from_collateral_at (collateral : QuoteCollateralV3) (fetched_at_epoch_ms : Z)
    (source : DcapTdxCollateralSource) (quote_bytes : option string) : Result DcapTdxCollateralBundle :=
  valid_until_epoch_ms ← dcap_collateral_valid_until_epoch_millis collateral;
  Ok {| cb_schema := BUNDLE_SCHEMA; cb_source := source;
        cb_fetched_at := format_utc_timestamp_millis fetched_at_epoch_ms; cb_fetched_at_epoch_ms := fetched_at_epoch_ms;
        cb_valid_until := format_utc_timestamp_millis valid_until_epoch_ms;
        cb_valid_until_epoch_ms := valid_until_epoch_ms;
        cb_quote_sha256 := option_map sha256_digest quote_bytes; cb_collateral := collateral |}.

Definition bundle_validate (b : DcapTdxCollateralBundle) : Result unit :=
  bail (InvalidEvidence "unsupported TDX DCAP collateral bundle schema {}")
    when negb (cb_schema b =?= BUNDLE_SCHEMA);
  computed_valid_until ← dcap_collateral_valid_until_epoch_millis (cb_collateral b);
  bail (InvalidEvidence "TDX DCAP collateral bundle validity does not match bundled collateral")
    when negb (computed_valid_until =? cb_valid_until_epoch_ms b)%Z
         || negb (format_utc_timestamp_millis computed_valid_until =?= cb_valid_until b);
  bail (InvalidEvidence "TDX DCAP collateral bundle fetched_at fields are inconsistent")
    when negb (format_utc_timestamp_millis (cb_fetched_at_epoch_ms b) =?= cb_fetched_at b);
  bail (InvalidEvidence "TDX DCAP collateral bundle quote_sha256 is not a sha256 digest")
    when match cb_quote_sha256 b with
         | Some digest => negb (starts_with "sha256:" digest) || negb (String.length digest =? 7 + 64)%nat
         | None => false
         end;
  Ok tt.

Definition is_valid_at (b : DcapTdxCollateralBundle) (now_epoch_millis : Z) : bool :=
  (now_epoch_millis <? cb_valid_until_epoch_ms b)%Z.

(** [from_json], for what [serde_json] decoded. *)
Definition bundle_from_json (decoded : option DcapTdxCollateralBundle) : Result DcapTdxCollateralBundle :=
  bundle ← ok_or decoded (InvalidEvidence "invalid TDX DCAP collateral bundle JSON: {err}");
  _ ← bundle_validate bundle;
  Ok bundle.

(** ** The quote verifier *)

Definition validate_tcb_status (verified : VerifiedReport) : Result unit :=
  bail (InvalidEvidence "TDX DCAP collateral status is not UpToDate: {}")
    when negb (vr_status verified =?= "UpToDate");
  bail (InvalidEvidence "TDX DCAP component TCB status is not UpToDate: platform={}, qe={}")
    when negb (vr_platform_up_to_date verified) || negb (vr_qe_up_to_date verified);
  bail (InvalidEvidence "TDX DCAP quote returned advisories: {:?}")
    when negb (bool_decide (vr_advisory_ids verified = []));
  Ok tt.

Definition tdx_report (quote : QuoteReport) : Result TDReport10 :=
  match quote with
  | TD10 report => Ok report
  | TD15 report => Ok (tr15_base report)
  | TD15Ex report => Ok (tr15_base (tr15ex_base report))
  | SgxEnclave => Err (InvalidEvidence "TDX verifier received an SGX quote")
  end.

Definition verified_quote (report : TDReport10) (now_epoch_millis expires_at_epoch_ms : Z) : VerifiedTdxQuote := {|
  td_tee_measurement :=
    "tdx:mr_td:" +:+ lower_hex (tr_mr_td report) +:+ ":rtmr0:" +:+ lower_hex (tr_rt_mr0 report)
    +:+ ":rtmr1:" +:+ lower_hex (tr_rt_mr1 report) +:+ ":rtmr2:" +:+ lower_hex (tr_rt_mr2 report)
    +:+ ":rtmr3:" +:+ lower_hex (tr_rt_mr3 report);
  td_mr_td := lower_hex (tr_mr_td report); td_mr_config_id := lower_hex (tr_mr_config_id report);
  td_rtmr0 := lower_hex (tr_rt_mr0 report); td_rtmr1 := lower_hex (tr_rt_mr1 report);
  td_rtmr2 := lower_hex (tr_rt_mr2 report); td_rtmr3 := lower_hex (tr_rt_mr3 report);
  td_report_data := lower_hex (tr_report_data report);
  td_issued_at := format_utc_timestamp_millis now_epoch_millis;
  td_expires_at := format_utc_timestamp_millis expires_at_epoch_ms;
  td_expires_at_epoch_ms := expires_at_epoch_ms |}.

Definition dcap_verify_tdx_quote (collateral : QuoteCollateralV3) (now_epoch_millis : Z) (quote_bytes : string)
    : Result VerifiedTdxQuote :=
  expires_at_epoch_ms ← dcap_collateral_valid_until_epoch_millis collateral;
  bail (InvalidEvidence "TDX DCAP collateral expired at {}") when (expires_at_epoch_ms <=? now_epoch_millis)%Z;
  verified ← match dcap_verify quote_bytes collateral (now_epoch_millis / 1000) with
             | DcapPanicked => Err (InvalidEvidence "TDX DCAP quote verification panicked")
             | DcapFailed => Err (InvalidEvidence "TDX DCAP quote verification failed: {err}")
             | DcapVerified report => Ok report
             end;
  _ ← validate_tcb_status verified;
  quote ← ok_or (quote_parse quote_bytes) (InvalidEvidence "TDX quote parse failed: {err}");
  report ← tdx_report quote;
  Ok (verified_quote report now_epoch_millis expires_at_epoch_ms).

Definition dcap_verify_tinfoil_quote (collateral : QuoteCollateralV3) (now_epoch_millis : Z)
    (request : TinfoilQuoteVerificationRequest) : Result VerifiedTinfoilQuote :=
  bail (InvalidEvidence "DCAP TDX verifier cannot verify {} Tinfoil captures")
    when negb (tr_attestation_format request =?= TdxGuestV2);
  verified ← dcap_verify_tdx_quote collateral now_epoch_millis (tr_quote_bytes request);
  Ok (from_verified_quote TdxGuestV2 {| eh_cpu := Tdx; eh_gpu := None |} (td_tee_measurement verified)
        (td_report_data verified) (td_issued_at verified) (td_expires_at verified) (td_expires_at_epoch_ms verified)).

Definition DcapTdxTinfoilQuoteVerifier (collateral : QuoteCollateralV3) (now_epoch_millis : Z)
    : TinfoilQuoteVerifier := {|
  verify_tinfoil_quote := dcap_verify_tinfoil_quote collateral now_epoch_millis;
  verify_tdx_quote := dcap_verify_tdx_quote collateral now_epoch_millis |}.

Definition verifier_at (b : DcapTdxCollateralBundle) (now_epoch_millis : Z) : Result TinfoilQuoteVerifier :=
  _ ← bundle_validate b;
  bail (InvalidEvidence "TDX DCAP collateral bundle expired at {}")
    when (cb_valid_until_epoch_ms b <=? now_epoch_millis)%Z;
  Ok (DcapTdxTinfoilQuoteVerifier (cb_collateral b) now_epoch_millis).

(** ** Signed bundles *)

Definition validate_envelope (e : DcapTdxCollateralBundleEnvelope) : Result unit :=
  bail (InvalidEvidence "unsupported TDX DCAP collateral bundle envelope schema {}")
    when negb (ce_schema e =?= COLLATERAL_ENVELOPE_SCHEMA);
  bundle_validate (ce_payload e).

Definition envelope_from_json (decoded : option DcapTdxCollateralBundleEnvelope)
    : Result DcapTdxCollateralBundleEnvelope :=
  envelope ← ok_or decoded (InvalidEvidence "invalid TDX DCAP collateral bundle envelope JSON: {err}");
  _ ← validate_envelope envelope;
  Ok envelope.

Definition bundle_verify_signature_with_keys (e : DcapTdxCollateralBundleEnvelope) (keys : list TrustedSigningKey)
    : Result unit :=
  _ ← validate_envelope e;
  verify_artifact_signature_with_keys (ce_signature e) (bundle_value (ce_payload e)) keys.

Definition into_verified_bundle_with_keys (e : DcapTdxCollateralBundleEnvelope) (keys : list TrustedSigningKey)
    : Result DcapTdxCollateralBundle :=
  _ ← bundle_verify_signature_with_keys e keys;
  Ok (ce_payload e).

Definition verifier_at_with_keys (e : DcapTdxCollateralBundleEnvelope) (now_epoch_millis : Z)
    (keys : list TrustedSigningKey) : Result TinfoilQuoteVerifier :=
  _ ← bundle_verify_signature_with_keys e keys;
  verifier_at (ce_payload e) now_epoch_millis.

(** ** The collateral cache *)

Abbreviation CollateralCache := (gmap string DcapTdxCollateralBundle).

(** [min_by_key]: the first entry with the least key. *)
Definition expires_first (e b : string * DcapTdxCollateralBundle) : bool :=
  (cb_valid_until_epoch_ms e.2 <? cb_valid_until_epoch_ms b.2)%Z
  || ((cb_valid_until_epoch_ms e.2 =? cb_valid_until_epoch_ms b.2)
      && (cb_fetched_at_epoch_ms e.2 <? cb_fetched_at_epoch_ms b.2))%Z.

Definition make_bundle_room (key : string) (cache : CollateralCache) : CollateralCache :=
  if negb (is_some (cache !! key)) && (DCAP_COLLATERAL_CACHE_MAX_BUNDLES <=? size cache)%nat
  then match min_by expires_first (btree_iter cache) with
       | Some (evict_key, _) => delete evict_key cache
       | None => cache
       end
  else cache.

Definition insert_for_quote (quote_bytes : string) (bundle : DcapTdxCollateralBundle) (cache : CollateralCache)
    : Result CollateralCache :=
  let key := sha256_digest quote_bytes in
  bail (InvalidEvidence "TDX DCAP collateral bundle quote digest does not match cache key")
    when match cb_quote_sha256 bundle with Some bundle_key => negb (bundle_key =?= key) | None => false end;
  _ ← bundle_validate bundle;
  Ok (<[key := bundle]> (make_bundle_room key cache)).

Definition insert_signed_bundle_for_quote (quote_bytes : string) (envelope : DcapTdxCollateralBundleEnvelope)
    (keys : list TrustedSigningKey) (cache : CollateralCache) : Result CollateralCache :=
  bundle ← into_verified_bundle_with_keys envelope keys;
  insert_for_quote quote_bytes bundle cache.

Definition bundle_for_quote (quote_bytes : string) (cache : CollateralCache) : option DcapTdxCollateralBundle :=
  cache !! sha256_digest quote_bytes.

Definition remove_for_quote (quote_bytes : string) (cache : CollateralCache) : CollateralCache :=
  delete (sha256_digest quote_bytes) cache.

Definition verifier_for_quote_at (quote_bytes : string) (now_epoch_millis : Z) (cache : CollateralCache)
    : Result (option TinfoilQuoteVerifier) :=
  match bundle_for_quote quote_bytes cache with
  | Some bundle => verifier ← verifier_at bundle now_epoch_millis; Ok (Some verifier)
  | None => Ok None
  end.

(** ** Validity of collateral *)

Lemma json_next_update_bounds json n :
  collateral_json_next_update_epoch_millis json = Ok n → (0 ≤ n < end_of_year_9999)%Z.
Proof. unfold collateral_json_next_update_epoch_millis. intros H. inv_ok. by apply parsed_in_range in H. Qed.
Lemma crl_next_update_bounds crl n :
  crl_next_update_epoch_millis crl = Ok (Some n) → (n ≤ u64_max)%Z.
Proof.
  unfold crl_next_update_epoch_millis, saturating_mul. intros H. inv_ok.
  match goal with H : option_map _ ?o = Some _ |- _ => destruct o; inversion H; subst; lia end.
Qed.

(** The collateral is valid until the first of its next updates: the two JSON
    documents always give one, a revocation list may. *)
Lemma valid_until_iff c n :
  dcap_collateral_valid_until_epoch_millis c = Ok n
  ↔ ∃ tcb qe root pck,
      collateral_json_next_update_epoch_millis (qc_tcb_info c) = Ok tcb
      ∧ collateral_json_next_update_epoch_millis (qc_qe_identity c) = Ok qe
      ∧ crl_next_update_epoch_millis (qc_root_ca_crl c) = Ok root
      ∧ crl_next_update_epoch_millis (qc_pck_crl c) = Ok pck
      ∧ n = Z.min (Z.min tcb qe) (Z.min (default u64_max root) (default u64_max pck)).
Proof.
  unfold dcap_collateral_valid_until_epoch_millis. cbn [try_fold].
  assert (end_of_year_9999 < u64_max)%Z as He by done. split.
  - intros H. inv_ok. bools.
    repeat match goal with H : collateral_json_next_update_epoch_millis _ = Ok _ |- _ =>
      pose proof (json_next_update_bounds _ _ H); revert H end.
    repeat match goal with H : crl_next_update_epoch_millis _ = Ok _ |- _ => revert H end. intros.
    eexists _, _, _, _. split_and!; [eassumption..|].
    repeat case_match; cbn;
      repeat match goal with H : crl_next_update_epoch_millis _ = Ok (Some _) |- _ =>
        apply crl_next_update_bounds in H end; lia.
  - intros (tcb & qe & root & pck & Ht & Hq & Hr & Hp & ->).
    pose proof (json_next_update_bounds _ _ Ht). pose proof (json_next_update_bounds _ _ Hq).
    rewrite Ht. cbn [mbind result_bind]. rewrite Hq. cbn [mbind result_bind]. rewrite Hr. cbn [mbind result_bind].
    rewrite Hp. cbn [mbind result_bind].
    assert (∀ crl o, crl_next_update_epoch_millis crl = Ok o → (default u64_max o ≤ u64_max)%Z) as Hcrl.
    { intros crl [x|] Ho; cbn; [by apply crl_next_update_bounds in Ho|lia]. }
    specialize (Hcrl _ _ Hr) as Hr'. specialize (Hcrl _ _ Hp) as Hp'.
    apply guard_Ok. split; [bools|f_equal]; destruct root, pck; cbn in *; lia.
Qed.

Lemma valid_until_bounds c n : dcap_collateral_valid_until_epoch_millis c = Ok n → (n < end_of_year_9999)%Z.
Proof.
  intros (tcb & qe & root & pck & Ht & _ & _ & _ & ->)%valid_until_iff.
  apply json_next_update_bounds in Ht. lia.
Qed.

(** The platform and the quoting enclave are both current and nothing is
    advised against them. *)
Definition up_to_date (v : VerifiedReport) : Prop :=
  vr_status v = "UpToDate" ∧ vr_platform_up_to_date v = true ∧ vr_qe_up_to_date v = true ∧ vr_advisory_ids v = [].
Lemma tcb_status_Ok v : validate_tcb_status v = Ok tt ↔ up_to_date v.
Proof. unfold validate_tcb_status, up_to_date. rewrite !guard_Ok. bools. tauto. Qed.

Lemma dcap_quote_iff collateral now quote q :
  dcap_verify_tdx_quote collateral now quote = Ok q
  ↔ ∃ expires v parsed report,
      dcap_collateral_valid_until_epoch_millis collateral = Ok expires ∧ (now < expires)%Z
      ∧ dcap_verify quote collateral (now / 1000) = DcapVerified v ∧ up_to_date v
      ∧ quote_parse quote = Some parsed ∧ tdx_report parsed = Ok report
      ∧ q = verified_quote report now expires.
Proof.
  unfold dcap_verify_tdx_quote. split.
  - intros H. inv_ok. destruct (dcap_verify _ _ _) as [| |v] eqn:Ev; inv_ok. bools.
    match goal with H : validate_tcb_status _ = Ok _ |- _ => apply tcb_status_Ok in H end.
    eexists _, _, _, _. split_and!; try eassumption; done.
  - intros (expires & v & parsed & report & He & Hn & Hv & Hu & Hp & Hr & ->). rewrite He. cbn [mbind result_bind].
    destruct (Z.leb_spec expires now); [lia|]. rewrite Hv. cbn [mbind result_bind].
    rewrite (proj2 (tcb_status_Ok v) Hu). cbn [mbind result_bind]. rewrite Hp. cbn [ok_or mbind result_bind]. by rewrite Hr.
Qed.

(** C15: the DCAP back end accepts a TDX quote exactly when the collateral has not
    reached the first of its next updates, the library verifies the quote against it
    at that second with platform, quoting enclave and overall status current and no
    advisory, and the quote is a TD report; it reports that report's registers and
    the collateral's end. *)
Theorem dcap_quote_accepted_iff collateral now quote q :
  dcap_verify_tdx_quote collateral now quote = Ok q
  ↔ ∃ tcb qe root pck v parsed report,
      collateral_json_next_update_epoch_millis (qc_tcb_info collateral) = Ok tcb
      ∧ collateral_json_next_update_epoch_millis (qc_qe_identity collateral) = Ok qe
      ∧ crl_next_update_epoch_millis (qc_root_ca_crl collateral) = Ok root
      ∧ crl_next_update_epoch_millis (qc_pck_crl collateral) = Ok pck
      ∧ (now < tcb ∧ now < qe ∧ (∀ t, root = Some t → now < t) ∧ (∀ t, pck = Some t → now < t))%Z
      ∧ dcap_verify quote collateral (now / 1000) = DcapVerified v ∧ up_to_date v
      ∧ quote_parse quote = Some parsed ∧ tdx_report parsed = Ok report
      ∧ q = verified_quote report now (Z.min (Z.min tcb qe) (Z.min (default u64_max root) (default u64_max pck))).
Proof.
  rewrite dcap_quote_iff. setoid_rewrite valid_until_iff. split.
  - intros (expires & v & parsed & report & (tcb & qe & root & pck & Ht & Hq & Hr & Hp & ->) & Hn & H).
    destruct_and! H. exists tcb, qe, root, pck, v, parsed, report. split_and!; try done; try lia;
      intros t ->; cbn in Hn; lia.
  - intros (tcb & qe & root & pck & v & parsed & report & Ht & Hq & Hr & Hp & (Ht' & Hq' & Hr' & Hp') & H).
    destruct_and! H. exists (Z.min (Z.min tcb qe) (Z.min (default u64_max root) (default u64_max pck))), v, parsed, report.
    split_and!; try done; [eauto 10|].
    pose proof (json_next_update_bounds _ _ Ht). assert (end_of_year_9999 < u64_max)%Z by done.
    destruct root as [r|], pck as [p|]; cbn; try specialize (Hr' _ eq_refl); try specialize (Hp' _ eq_refl); lia.
Qed.

(** ** Bundles *)

Record bundle_valid (b : DcapTdxCollateralBundle) : Prop := {
  bv_schema : cb_schema b = BUNDLE_SCHEMA;
  bv_until : dcap_collateral_valid_until_epoch_millis (cb_collateral b) = Ok (cb_valid_until_epoch_ms b);
  bv_until_text : cb_valid_until b = format_utc_timestamp_millis (cb_valid_until_epoch_ms b);
  bv_fetched_text : cb_fetched_at b = format_utc_timestamp_millis (cb_fetched_at_epoch_ms b);
  bv_digest : ∀ d, cb_quote_sha256 b = Some d → (∃ hex, d = "sha256:" +:+ hex ∧ String.length hex = 64%nat);
}.

Lemma digest_shape d :
  negb (starts_with "sha256:" d) || negb (String.length d =? 7 + 64)%nat = false
  ↔ ∃ hex, d = "sha256:" +:+ hex ∧ String.length hex = 64%nat.
Proof.
  rewrite orb_false_iff, !negb_false_iff, Nat.eqb_eq. unfold starts_with. split.
  - destruct (strip_prefix "sha256:" d) as [hex|] eqn:E; [|by intros []]. apply strip_prefix_Some in E as ->.
    intros [_ H]. exists hex. split; [done|]. rewrite append_length in H. cbn in H. lia.
  - intros (hex & -> & Hh). by rewrite strip_prefix_app, append_length, Hh.
Qed.

Lemma validate_Ok b : bundle_validate b = Ok tt ↔ bundle_valid b.
Proof.
  unfold bundle_validate. split.
  - intros H. inv_ok. bools.
    repeat match goal with H : _ ∧ _ |- _ => destruct H end. subst. constructor; try done.
    intros d Hd. apply digest_shape. by rewrite Hd in *.
  - intros [Hs Hu Ht Hf Hd]. rewrite Hs, bool_decide_eq_true_2 by done. cbn [negb]. rewrite Hu. cbn [mbind result_bind].
    rewrite Z.eqb_refl, <-Ht, <-Hf, !bool_decide_eq_true_2 by done. cbn [negb orb].
    destruct (cb_quote_sha256 b) as [d|]; [|done]. by rewrite (proj2 (digest_shape d) (Hd d eq_refl)).
Qed.

Lemma sha256_digest_shape {laws : Sha256Laws} x : ∃ hex, sha256_digest x = "sha256:" +:+ hex ∧ String.length hex = 64%nat.
Proof.
  unfold sha256_digest. eexists. split; [done|]. destruct (lower_hex_spec (sha256 x)) as (-> & _).
  by rewrite sha256_length.
Qed.

(** A bundle made from collateral passes its own validation, is accepted for
    the quote it was made for, and gives a verifier until its collateral ends. *)
Theorem made_bundle_usable {laws : Sha256Laws} collateral fetched source quote b :
  from_collateral_at collateral fetched source quote = Ok b →
  bundle_validate b = Ok tt
  ∧ (∀ q cache, quote = Some q → is_ok (insert_for_quote q b cache) = true)
  ∧ (∀ now, is_ok (verifier_at b now) = is_valid_at b now).
Proof.
  unfold from_collateral_at. intros H. inv_ok.
  match goal with |- bundle_validate ?b = _ ∧ _ => assert (bundle_validate b = Ok tt) as Hv end.
  { apply validate_Ok. constructor; try done. cbn. intros d. destruct quote as [q|]; [|done].
    intros [= <-]. apply sha256_digest_shape. }
  split; [exact Hv|]. split.
  - intros q cache ->. unfold insert_for_quote. rewrite Hv. cbn [cb_quote_sha256 option_map].
    by rewrite bool_decide_eq_true_2.
  - intros now. unfold verifier_at, is_valid_at. rewrite Hv. cbn. rewrite Z.leb_antisym. by destruct (_ <? _)%Z.
Qed.

(** ** The cache *)

(** The order eviction goes by. *)
Definition expires_no_later (a b : DcapTdxCollateralBundle) : Prop :=
  (cb_valid_until_epoch_ms a < cb_valid_until_epoch_ms b)%Z
  ∨ (cb_valid_until_epoch_ms a = cb_valid_until_epoch_ms b
     ∧ cb_fetched_at_epoch_ms a ≤ cb_fetched_at_epoch_ms b)%Z.

Lemma expires_first_false e b : expires_first e b = false ↔ expires_no_later b.2 e.2.
Proof.
  unfold expires_first, expires_no_later.
  destruct (Z.ltb_spec (cb_valid_until_epoch_ms e.2) (cb_valid_until_epoch_ms b.2)),
    (Z.eqb_spec (cb_valid_until_epoch_ms e.2) (cb_valid_until_epoch_ms b.2)),
    (Z.ltb_spec (cb_fetched_at_epoch_ms e.2) (cb_fetched_at_epoch_ms b.2)); cbn; split; intros; try done; lia.
Qed.
#[export] Instance expiry_order : KeyOrder expires_first.
Proof.
  split; intros *; rewrite ?expires_first_false; unfold expires_no_later; [|lia].
  rewrite <-not_false_iff_true, expires_first_false. unfold expires_no_later. lia.
Qed.

(** Making room: nothing changes, or a full cache without the key loses one
    entry, which ends no later than any other. *)
Lemma make_bundle_room_spec key cache :
  make_bundle_room key cache = cache ∧ (is_Some (cache !! key) ∨ (size cache < 256)%nat)
  ∨ ∃ k b, cache !! k = Some b ∧ cache !! key = None ∧ make_bundle_room key cache = delete k cache
      ∧ (256 ≤ size cache)%nat ∧ ∀ k' b', cache !! k' = Some b' → expires_no_later b b'.
Proof.
  unfold make_bundle_room, DCAP_COLLATERAL_CACHE_MAX_BUNDLES.
  destruct (cache !! key) as [x|] eqn:Ek; [left; cbn; eauto|]. cbn [is_some negb andb].
  destruct (Nat.leb_spec 256 (size cache)) as [Hs|Hs]; [|by left; auto].
  right. destruct (min_by_exists expires_first (btree_iter cache)) as [[k b] Hf].
  { intros E. pose proof (btree_iter_length cache) as Hl. rewrite E in Hl. cbn [length] in Hl. lia. }
  rewrite Hf. apply min_by_Some in Hf as [Hin Hle]; [|apply _].
  exists k, b. split_and!; try done; [by apply btree_iter_elem_of|].
  intros k' b' Hk'. apply (expires_first_false (k', b') (k, b)), Hle. by apply btree_iter_elem_of.
Qed.

Lemma insert_Ok quote bundle cache cache' :
  insert_for_quote quote bundle cache = Ok cache'
  ↔ (∀ d, cb_quote_sha256 bundle = Some d → d = sha256_digest quote) ∧ bundle_valid bundle
    ∧ cache' = <[sha256_digest quote := bundle]> (make_bundle_room (sha256_digest quote) cache).
Proof.
  unfold insert_for_quote. rewrite guard_Ok, unit_bind_Ok, validate_Ok. split.
  - intros (Hd & Hv & [= <-]). split_and!; try done. intros d Ed. rewrite Ed in Hd. by bools.
  - intros (Hd & Hv & ->). split_and!; try done. destruct (cb_quote_sha256 bundle) as [d|]; [|done].
    by rewrite (Hd d eq_refl), bool_decide_eq_true_2.
Qed.

(** What a cache holds: few bundles, all valid, each for its own quote. *)
Record cache_ok (cache : CollateralCache) : Prop := {
  co_size : (size cache ≤ 256)%nat;
  co_valid k b : cache !! k = Some b → bundle_valid b;
  co_pinned k b d : cache !! k = Some b → cb_quote_sha256 b = Some d → d = k;
}.

Lemma room_lookup key cache k b : make_bundle_room key cache !! k = Some b → cache !! k = Some b.
Proof.
  destruct (make_bundle_room_spec key cache) as [[-> _]|(k' & b' & _ & _ & -> & _)]; [done|].
  by intros [_ ?]%lookup_delete_Some.
Qed.
Lemma room_size key bundle cache :
  (size cache ≤ 256)%nat → (size (<[key := bundle]> (make_bundle_room key cache)) ≤ 256)%nat.
Proof.
  intros Hs. destruct (make_bundle_room_spec key cache) as [[-> [[x Hx]|Hlt]]|(k & b & Hk & Hn & -> & Hf & _)].
  - rewrite map_size_insert, Hx. exact Hs.
  - rewrite map_size_insert. destruct (cache !! key); [exact Hs|lia].
  - rewrite map_size_insert, map_size_delete, Hk. destruct (delete k cache !! key); unfold id; lia.
Qed.

Lemma insert_keeps quote bundle cache cache' :
  cache_ok cache → insert_for_quote quote bundle cache = Ok cache' → cache_ok cache'.
Proof.
  intros [Hs Hv Hp] (Hd & Hb & ->)%insert_Ok. constructor; [by apply room_size| |].
  - intros k b [[<- <-]|[_ Hk%room_lookup]]%lookup_insert_Some; eauto.
  - intros k b d [[<- <-]|[_ Hk%room_lookup]]%lookup_insert_Some; eauto.
Qed.

(** The operations of a cache's life. *)
Inductive CacheOp :=
| InsertBundle (quote : string) (bundle : DcapTdxCollateralBundle)
| InsertSignedBundle (quote : string) (envelope : DcapTdxCollateralBundleEnvelope) (keys : list TrustedSigningKey)
| RemoveBundle (quote : string).
Definition cache_step (cache : CollateralCache) (op : CacheOp) : CollateralCache :=
  let kept r := match r with Ok cache' => cache' | Err _ => cache end in
  match op with
  | InsertBundle quote bundle => kept (insert_for_quote quote bundle cache)
  | InsertSignedBundle quote envelope keys => kept (insert_signed_bundle_for_quote quote envelope keys cache)
  | RemoveBundle quote => remove_for_quote quote cache
  end.

Lemma cache_step_ok cache op : cache_ok cache → cache_ok (cache_step cache op).
Proof.
  intros Hok. destruct op as [quote bundle|quote envelope keys|quote]; cbn.
  - destruct (insert_for_quote _ _ _) eqn:E; [by eapply insert_keeps|done].
  - destruct (insert_signed_bundle_for_quote _ _ _ _) eqn:E; [|done].
    unfold insert_signed_bundle_for_quote in E. inv_ok. by eapply insert_keeps.
  - destruct Hok as [Hs Hv Hp]. unfold remove_for_quote. constructor.
    + rewrite map_size_delete. destruct (cache !! _); unfold id; lia.
    + intros k b [_ Hk]%lookup_delete_Some. eauto.
    + intros k b d [_ Hk]%lookup_delete_Some. eauto.
Qed.

(** Whatever is inserted, signed or not, and removed: the cache holds at most
    256 bundles, each valid and for the quote it is kept under, and a verifier it
    gives for a quote uses the collateral of that quote's bundle, before its end. *)
Theorem collateral_cache_safe ops :
  let cache := fold_left cache_step ops ∅ in
  cache_ok cache
  ∧ ∀ quote now verifier, verifier_for_quote_at quote now cache = Ok (Some verifier) →
      ∃ b, cache !! sha256_digest quote = Some b ∧ bundle_valid b
        ∧ (∀ d, cb_quote_sha256 b = Some d → d = sha256_digest quote)
        ∧ (now < cb_valid_until_epoch_ms b)%Z
        ∧ verifier = DcapTdxTinfoilQuoteVerifier (cb_collateral b) now.
Proof.
  intros cache. assert (cache_ok cache) as Hok.
  { unfold cache. assert (cache_ok ∅) as H0.
    { constructor; [rewrite map_size_empty; lia|by intros k b; rewrite lookup_empty|by intros k b d; rewrite lookup_empty]. }
    revert H0. generalize (∅ : CollateralCache).
    induction ops as [|op ops IH]; intros c Hc; [done|]. apply IH. by apply cache_step_ok. }
  split; [done|]. intros quote now verifier. unfold verifier_for_quote_at, bundle_for_quote.
  destruct (cache !! _) as [b|] eqn:Eb; [|done]. unfold verifier_at. intros H. inv_ok. bools.
  exists b. split_and!; try done; [by eapply co_valid|]. intros d Hd. by eapply co_pinned.
Qed.

(** An accepted bundle is found again, and nothing else is lost but, from a
    full cache, one bundle that ends no later than any other. *)
Theorem insert_evicts_earliest quote bundle cache cache' :
  insert_for_quote quote bundle cache = Ok cache' →
  bundle_for_quote quote cache' = Some bundle
  ∧ (∀ k b, k ≠ sha256_digest quote → cache' !! k = Some b → cache !! k = Some b)
  ∧ (∀ k b, k ≠ sha256_digest quote → cache !! k = Some b → cache' !! k = None →
       (256 ≤ size cache)%nat ∧ cache !! sha256_digest quote = None
       ∧ (∀ k' b', cache !! k' = Some b' → expires_no_later b b')
       ∧ (∀ k', k' ≠ k → k' ≠ sha256_digest quote → cache' !! k' = cache !! k')).
Proof.
  intros (_ & _ & ->)%insert_Ok. set (key := sha256_digest quote). split_and!.
  - apply lookup_insert_eq.
  - intros k b Hk. rewrite lookup_insert_ne by done. apply room_lookup.
  - intros k b Hk Hb. rewrite lookup_insert_ne by done.
    destruct (make_bundle_room_spec key cache) as [[-> _]|(k0 & b0 & Hk0 & Hn & -> & Hf & Hle)]; [congruence|].
    intros Hd. destruct (decide (k0 = k)) as [->|Hne]; [|rewrite lookup_delete_ne in Hd by done; congruence].
    assert (b0 = b) as -> by congruence. split_and!; try done.
    intros k' Hk' Hkey. by rewrite lookup_insert_ne, lookup_delete_ne by done.
Qed.

(** A signed bundle is inserted exactly when a trusted key signed it and the
    insertion accepts it. *)
Lemma signed_insert_Ok quote envelope keys cache cache' :
  insert_signed_bundle_for_quote quote envelope keys cache = Ok cache' ↔
    ce_schema envelope = COLLATERAL_ENVELOPE_SCHEMA
    ∧ verify_artifact_signature_with_keys (ce_signature envelope) (bundle_value (ce_payload envelope)) keys = Ok tt
    ∧ insert_for_quote quote (ce_payload envelope) cache = Ok cache'.
Proof.
  unfold insert_signed_bundle_for_quote, into_verified_bundle_with_keys, bundle_verify_signature_with_keys, validate_envelope.
  split.
  - intros H. inv_ok. bools. tauto.
  - intros (Hs & Hv & Hi). rewrite Hs, bool_decide_eq_true_2 by done. cbn [negb].
    pose proof Hi as (_ & Hb & _)%insert_Ok. rewrite (proj2 (validate_Ok _) Hb). cbn [mbind result_bind]. by rewrite Hv.
Qed.
End Tdx.

(** ** Concrete inputs *)

#[local] Instance bundle_dcap : DcapLibrary := {|
  dcap_verify _ _ _ := DcapFailed; quote_parse _ := None;
  collateral_json json := Some (VObject [("nextUpdate", VString json)]);
  crl_next_update der := Some (if is_empty der then None else Some 1772323200%Z); collateral_value := qc_rest |}.
#[local] Instance bundle_crypto : SignatureCrypto := {|
  base64url_decode s := Some s; public_key_from_slice s := Some s; signature_from_slice s := Some s;
  ed25519_verify _ _ _ := true |}.
Definition bundle_collateral : QuoteCollateralV3 := {|
  qc_tcb_info := "2026-03-02T00:00:00Z"; qc_qe_identity := "2026-04-01T00:00:00.500Z"; qc_root_ca_crl := "crl";
  qc_pck_crl := ""; qc_pck_certificate_chain := None; qc_rest := VNull |}.

(** The earliest of the four times wins. *)
Example bundle_collateral_until :
  dcap_collateral_valid_until_epoch_millis bundle_collateral = Ok 1772323200000%Z.
Proof. by vm_compute. Qed.

Definition made_bundle : Result DcapTdxCollateralBundle :=
  from_collateral_at bundle_collateral 1769904000000 (pccs "https://pccs") (Some "quote").

Lemma made_bundle_usable_witness :
  ∃ b, made_bundle = Ok b ∧ is_ok (verifier_at b 1772323199999) = true ∧ is_ok (verifier_at b 1772323200000) = false.
Proof.
  destruct (is_ok_inv made_bundle) as [b E]; [vm_compute; reflexivity|]. exists b. split; [done|].
  destruct (made_bundle_usable _ _ _ _ b E) as (_ & _ & H). rewrite !H.
  vm_compute in E. injection E as <-. by vm_compute.
Defined.

Lemma insert_evicts_earliest_witness :
  ∃ b cache, made_bundle = Ok b ∧ insert_for_quote "quote" b ∅ = Ok cache ∧ bundle_for_quote "quote" cache = Some b.
Proof.
  destruct (is_ok_inv made_bundle) as [b E]; [vm_compute; reflexivity|].
  destruct (is_ok_inv (insert_for_quote "quote" b ∅)) as [cache H].
  { vm_compute in E. injection E as <-. by vm_compute. }
  exists b, cache. split; [exact E|]. split; [exact H|]. apply (insert_evicts_earliest _ _ _ _ H).
Defined.

Definition sample_cache_ops : list CacheOp :=
  match made_bundle with Ok b => [InsertBundle "quote" b; RemoveBundle "other"; InsertBundle "other" b] | Err _ => [] end.
Lemma collateral_cache_safe_witness :
  ∃ verifier b, verifier_for_quote_at "quote" 1770000000000 (fold_left cache_step sample_cache_ops ∅) = Ok (Some verifier)
    ∧ fold_left cache_step sample_cache_ops ∅ !! sha256_digest "quote" = Some b ∧ bundle_valid b.
Proof.
  assert (match verifier_for_quote_at "quote" 1770000000000 (fold_left cache_step sample_cache_ops ∅) with
          | Ok (Some _) => true | _ => false end = true) as H by (vm_compute; reflexivity).
  destruct (verifier_for_quote_at _ _ _) as [[verifier|]|] eqn:E; [|done..].
  destruct (collateral_cache_safe sample_cache_ops) as [_ Hs]. destruct (Hs _ _ _ E) as (b & Hb & Hv & _).
  exists verifier, b. split; [reflexivity|]. split; [exact Hb|exact Hv].
Defined.
