(* ===== verification/NrasToken.v ===== *)
(** * NVIDIA attestation tokens

    gpu.rs: the NRAS token, a compact JWT signed with ES384, checked against a
    configured key set: signature, issuer, nonce, claims version, overall result and
    lifetime. ECDSA P-384, base64url and JSON decoding are parameters. *)

From Stdlib Require Import Ascii String ZArith Lia.
From stdpp Require Import base strings list numbers.
From S2P Require Import Prelude RustStr Errors Canonical Policy Verdict Signature EvidenceDocuments QuoteInterfaces.

Open Scope string_scope.

Definition NVIDIA_NRAS_ISSUER : string := "https://nras.attestation.nvidia.com".
Definition NVIDIA_NRAS_CLAIMS_VERSION : string := "3.0".

Record NvidiaNrasJwtVerifier := {
  nv_jwks : Value;
  nv_issuer : string;
  nv_required_claims_version : string;
}.

Record VerifiedNvidiaNrasJwt := {
  vj_nonce : string;
  vj_issuer : string;
  vj_key_id : option string;
  vj_claims_version : option string;
}.

Record JwtHeader := { jh_alg : string; jh_kid : option string }.

(** [VerifiedGpuAttestation::nvidia_cc]. *)
Definition nvidia_cc (nonce attestation_format verifier : string) : VerifiedGpuAttestation :=
  {| vg_tee := NvidiaCc; vg_nonce := nonce; vg_attestation_format := attestation_format; vg_verifier := verifier |}.

Class TokenCrypto := {
  (** [URL_SAFE_NO_PAD.decode]. *)
  url_safe_decode : string → option string;
  (** [serde_json]: the token's header, and any value. *)
  jwt_header_from_slice : string → option JwtHeader;
  token_value_from_slice : string → option Value;
  (** ring: ECDSA P-384 with SHA-384 over key, message and fixed-size signature. *)
  es384_verify : string → string → string → bool;
}.

(** The two readings of the clock, in seconds since the epoch; [None] when the
    clock stands before it. *)
Record TokenClock := { at_nbf : option Z; at_exp : option Z }.

Section Nras.
Context {token_crypto : TokenCrypto}.

Definition token_decode (value : string) : Result string :=
  ok_or (url_safe_decode value) (InvalidEvidence "{field} is not base64url: {error}").

Definition string_claim (claims : Value) (name : string) : Result string :=
  ok_or (value ← get_str name claims; if is_empty value then None else Some value)
    (InvalidEvidence "NRAS JWT missing {name} claim").

Definition validate_optional_time_claim (claims : Value) (name : string) (valid : Z → Z → bool) (now : option Z)
    : Result unit :=
  match value_get name claims with
  | None => Ok tt
  | Some claim =>
      claim ← ok_or (value_as_u64 claim) (InvalidEvidence "NRAS JWT {name} claim is not an integer");
      now ← ok_or now (InvalidEvidence "system time is before UNIX epoch: {error}");
      if valid claim now then Ok tt
      else Err (InvalidEvidence "NRAS JWT {name} claim is not valid at current time")
  end.

Definition validate_jwks_shape (jwks : Value) : Result unit :=
  keys ← ok_or (get_array "keys" jwks) (InvalidEvidence "NRAS JWKS is missing keys array");
  bail (InvalidEvidence "NRAS JWKS has no keys") when bool_decide (length keys = 0%nat);
  Ok tt.

Definition select_jwk (jwks : Value) (kid : option string) : Result Value :=
  keys ← ok_or (get_array "keys" jwks) (InvalidEvidence "NRAS JWKS has no keys");
  match kid, keys with
  | Some kid, _ =>
      ok_or (List.find (λ key, bool_decide (get_str "kid" key = Some kid)) keys)
        (InvalidEvidence "NRAS JWKS has no key for kid {kid}")
  | None, [key] => Ok key
  | None, _ => Err (InvalidEvidence "NRAS JWT header missing kid while JWKS has multiple keys")
  end.

Definition p384_public_key_from_jwk (jwk : Value) : Result string :=
  bail (InvalidEvidence "NRAS JWK is not an EC key") when negb (bool_decide (get_str "kty" jwk = Some "EC"));
  bail (InvalidEvidence "NRAS JWK is not a P-384 key") when negb (bool_decide (get_str "crv" jwk = Some "P-384"));
  bail (InvalidEvidence "NRAS JWK alg {alg} is not ES384")
    when match get_str "alg" jwk with Some alg => negb (alg =?= "ES384") | None => false end;
  x ← string_claim jwk "x";
  x ← token_decode x;
  y ← string_claim jwk "y";
  y ← token_decode y;
  bail (InvalidEvidence "NRAS P-384 JWK coordinates must be 48 bytes")
    when negb (String.length x =? 48)%nat || negb (String.length y =? 48)%nat;
  Ok (String "004" (x +:+ y)).

(** The checks on the decoded claims. *)
Definition check_claims (claims : Value) (expected_nonce expected_issuer expected_claims_version : string)
    (clock : TokenClock) : Result unit :=
  issuer ← string_claim claims "iss";
  bail (InvalidEvidence "NRAS JWT issuer {issuer} does not match expected issuer {expected_issuer}")
    when negb (issuer =?= expected_issuer);
  nonce ← string_claim claims "eat_nonce";
  bail (InvalidEvidence "NRAS JWT nonce does not match expected nonce") when negb (nonce =?= expected_nonce);
  claims_version ← string_claim claims "x-nvidia-ver";
  bail (InvalidEvidence "NRAS JWT claims version {claims_version} does not match requested version {expected_claims_version}")
    when negb (claims_version =?= expected_claims_version);
  overall ← ok_or (value_get "x-nvidia-overall-att-result" claims ≫= value_as_bool)
              (InvalidEvidence "NRAS JWT missing x-nvidia-overall-att-result boolean claim");
  bail (InvalidEvidence "NRAS JWT overall attestation result is false") when negb overall;
  _ ← validate_optional_time_claim claims "nbf" (λ claim now, claim <=? now)%Z (at_nbf clock);
  bail (InvalidEvidence "NRAS JWT missing exp claim") when negb (is_some (value_get "exp" claims));
  validate_optional_time_claim claims "exp" (λ claim now, now <? claim)%Z (at_exp clock).

Definition verify_nvidia_nras_jwt_with_jwks (token : string) (jwks : Value)
    (expected_nonce expected_issuer expected_claims_version : string) (clock : TokenClock)
    : Result VerifiedNvidiaNrasJwt :=
  match split_byte "." token with
  | [header_part; claims_part; signature_part] =>
      header_bytes ← token_decode header_part;
      claims_bytes ← token_decode claims_part;
      signature ← token_decode signature_part;
      bail (InvalidEvidence "NRAS ES384 signature has wrong size: {} bytes")
        when negb (String.length signature =? 96)%nat;
      header ← ok_or (jwt_header_from_slice header_bytes) json_error;
      bail (InvalidEvidence "unsupported NRAS JWT alg {}") when negb (jh_alg header =?= "ES384");
      jwk ← select_jwk jwks (jh_kid header);
      public_key ← p384_public_key_from_jwk jwk;
      let signing_input := header_part +:+ "." +:+ claims_part in
      bail (InvalidEvidence "NRAS JWT signature is invalid")
        when negb (es384_verify public_key signing_input signature);
      claims ← ok_or (token_value_from_slice claims_bytes) json_error;
      _ ← check_claims claims expected_nonce expected_issuer expected_claims_version clock;
      Ok {| vj_nonce := expected_nonce; vj_issuer := expected_issuer; vj_key_id := jh_kid header;
            vj_claims_version := Some expected_claims_version |}
  | _ => Err (InvalidEvidence "NRAS token is not a compact JWT")
  end.

(** ** The verifier *)

Definition from_jwks_json_with_issuer_and_claims_version (jwks_json issuer required_claims_version : string)
    : Result NvidiaNrasJwtVerifier :=
  jwks ← ok_or (token_value_from_slice jwks_json) json_error;
  _ ← validate_jwks_shape jwks;
  bail (InvalidEvidence "required NRAS claims version is empty") when is_empty (trim required_claims_version);
  Ok {| nv_jwks := jwks; nv_issuer := issuer; nv_required_claims_version := required_claims_version |}.

Definition from_jwks_json_with_issuer (jwks_json issuer : string) : Result NvidiaNrasJwtVerifier :=
  from_jwks_json_with_issuer_and_claims_version jwks_json issuer NVIDIA_NRAS_CLAIMS_VERSION.

Definition from_jwks_json (jwks_json : string) : Result NvidiaNrasJwtVerifier :=
  from_jwks_json_with_issuer jwks_json NVIDIA_NRAS_ISSUER.

Definition verify_token (v : NvidiaNrasJwtVerifier) (token expected_nonce : string) (clock : TokenClock)
    : Result VerifiedNvidiaNrasJwt :=
  verify_nvidia_nras_jwt_with_jwks token (nv_jwks v) expected_nonce (nv_issuer v) (nv_required_claims_version v) clock.

Definition verify_nvidia_nras_jwt_with_jwks_json (token jwks_json expected_nonce : string) (clock : TokenClock)
    : Result VerifiedNvidiaNrasJwt :=
  verifier ← from_jwks_json jwks_json;
  verify_token verifier token expected_nonce clock.

Definition nras_verify_gpu (v : NvidiaNrasJwtVerifier) (clock : TokenClock)
    (request : NvidiaGpuAttestationVerificationRequest) : Result VerifiedGpuAttestation :=
  bail (InvalidEvidence "NVIDIA NRAS verifier can only verify nvidia_cc GPU TEE evidence")
    when negb (nr_expected_tee request =?= NvidiaCc);
  token ← ok_or (ng_nras_token (nr_evidence request))
            (InvalidEvidence "NVIDIA GPU attestation evidence is missing NRAS token");
  verified ← verify_token v token (nr_expected_nonce request) clock;
  Ok (nvidia_cc (vj_nonce verified) (ng_attestation_format (nr_evidence request))
        (match vj_key_id verified with Some kid => "nvidia-nras-jwt:" +:+ kid | None => "nvidia-nras-jwt" end)).

(** The implementation of the trait, at the clock's readings. *)
Definition nras_back_end (v : NvidiaNrasJwtVerifier) (clock : TokenClock) : GpuAttestationVerifier := {|
  verify_nvidia_gpu_attestation := nras_verify_gpu v clock |}.

(** ** Specification *)

(** A non-empty string member of an object. *)
Definition claims_string (claims : Value) (name value : string) : Prop :=
  get_str name claims = Some value ∧ value ≠ "".

(** The key a header selects: by its identifier, or the only one. *)
Definition selects (jwks : Value) (kid : option string) (jwk : Value) : Prop :=
  ∃ keys, get_array "keys" jwks = Some keys
    ∧ match kid with
      | Some kid => ∃ before after, keys = (before ++ jwk :: after)%list ∧ get_str "kid" jwk = Some kid
                      ∧ Forall (λ key, get_str "kid" key ≠ Some kid) before
      | None => keys = [jwk]
      end.

Record p384_key (jwk : Value) (key : string) : Prop := {
  pk_kty : get_str "kty" jwk = Some "EC";
  pk_crv : get_str "crv" jwk = Some "P-384";
  pk_alg alg : get_str "alg" jwk = Some alg → alg = "ES384";
  pk_point : ∃ x y xb yb, claims_string jwk "x" x ∧ claims_string jwk "y" y
    ∧ url_safe_decode x = Some xb ∧ url_safe_decode y = Some yb
    ∧ String.length xb = 48%nat ∧ String.length yb = 48%nat ∧ key = String "004" (xb +:+ yb);
}.

(** What the claims say: who issued them, for which nonce, with a positive
    result, and that they are in force. *)
Record claims_accepted (claims : Value) (nonce issuer version : string) (clock : TokenClock) : Prop := {
  ca_issuer : claims_string claims "iss" issuer;
  ca_nonce : claims_string claims "eat_nonce" nonce;
  ca_version : claims_string claims "x-nvidia-ver" version;
  ca_result : value_get "x-nvidia-overall-att-result" claims = Some (VBool true);
  ca_not_before v : value_get "nbf" claims = Some v →
    ∃ t now, v = VNumber (PosInt t) ∧ at_nbf clock = Some now ∧ (t ≤ now)%Z;
  ca_expires : ∃ t now, value_get "exp" claims = Some (VNumber (PosInt t)) ∧ at_exp clock = Some now ∧ (now < t)%Z;
}.

(** An accepted token: three parts without a dot, the first two signed by the
    selected key. *)
Record token_accepted (token : string) (jwks : Value) (nonce issuer version : string) (clock : TokenClock)
    (header : JwtHeader) : Prop := {
  ta_parts : ∃ h c s hb cb sb jwk key claims,
    token = h +:+ "." +:+ c +:+ "." +:+ s
    ∧ no_byte "." h ∧ no_byte "." c ∧ no_byte "." s
    ∧ url_safe_decode h = Some hb ∧ url_safe_decode c = Some cb ∧ url_safe_decode s = Some sb
    ∧ String.length sb = 96%nat
    ∧ jwt_header_from_slice hb = Some header
    ∧ selects jwks (jh_kid header) jwk ∧ p384_key jwk key
    ∧ es384_verify key (h +:+ "." +:+ c) sb = true
    ∧ token_value_from_slice cb = Some claims ∧ claims_accepted claims nonce issuer version clock;
  ta_alg : jh_alg header = "ES384";
}.

(** ** Parts *)

Lemma split_byte_not_nil sep s : split_byte sep s ≠ [].
Proof. destruct s as [|c s]; cbn; [done|]. case_bool_decide; [done|]. by destruct (split_byte sep s). Qed.
Lemma split_byte_cons sep s part rest :
  split_byte sep s = part :: rest
  ↔ no_byte sep part ∧ (rest = [] ∧ s = part ∨ ∃ s', rest = split_byte sep s' ∧ s = part +:+ String sep s').
Proof.
  revert part rest. induction s as [|c s IH]; intros part rest; cbn.
  - split.
    + intros [= <- <-]. split; [done|]. by left.
    + intros (_ & [[-> <-]|(s' & _ & E)]); [done|]. by destruct part.
  - case_bool_decide as Hc.
    + subst. split.
      * intros [= <- <-]. split; [done|]. right. by exists s.
      * intros (Hn & [[-> <-]|(s' & -> & E)]); [by apply no_byte_cons in Hn as [? _]|].
        destruct part as [|x part]; [by injection E as <-|]. injection E as <- E. by apply no_byte_cons in Hn as [? _].
    + destruct (split_byte sep s) as [|p ps] eqn:E; [by apply split_byte_not_nil in E|]. split.
      * intros [= <- <-]. destruct (proj1 (IH p ps) eq_refl) as (Hn & H).
        split; [by apply no_byte_cons|]. destruct H as [[-> ->]|(s' & -> & ->)]; [by left|right; by exists s'].
      * intros (Hn & H). destruct part as [|x part].
        { destruct H as [[_ H]|(s' & _ & H)]; [done|]. by injection H as -> _. }
        apply no_byte_cons in Hn as [Hx Hn].
        assert (p :: ps = part :: rest) as [= -> ->].
        { apply IH. split; [done|]. destruct H as [[-> [= -> ->]]|(s' & -> & [= -> ->])]; [by left|right; by exists s']. }
        destruct H as [[_ [= -> _]]|(s' & _ & [= -> _])]; done.
Qed.
Lemma split_three sep s a b c :
  split_byte sep s = [a; b; c]
  ↔ no_byte sep a ∧ no_byte sep b ∧ no_byte sep c ∧ s = a +:+ String sep (b +:+ String sep c).
Proof.
  rewrite split_byte_cons. split.
  - intros (Ha & [[? _]|(s' & E & ->)]); [done|]. symmetry in E. apply split_byte_cons in E as (Hb & [[? _]|(s'' & E & ->)]); [done|].
    symmetry in E. apply split_byte_cons in E as (Hc & [[_ ->]|(s3 & E & _)]); [done|].
    symmetry in E. by apply split_byte_not_nil in E.
  - intros (Ha & Hb & Hc & ->). split; [done|]. right. eexists. split; [|done]. symmetry. apply split_byte_cons.
    split; [done|]. right. eexists. split; [|done]. symmetry. apply split_byte_cons. split; [done|]. by left.
Qed.

Lemma string_claim_Ok claims name value : string_claim claims name = Ok value ↔ claims_string claims name value.
Proof.
  unfold string_claim, claims_string. rewrite ok_or_Ok. destruct (get_str name claims) as [s|]; cbn; [|naive_solver].
  destruct s; cbn; naive_solver.
Qed.
Lemma time_claim_Ok claims name valid now :
  validate_optional_time_claim claims name valid now = Ok tt
  ↔ ∀ v, value_get name claims = Some v → ∃ t n, v = VNumber (PosInt t) ∧ now = Some n ∧ valid t n = true.
Proof.
  unfold validate_optional_time_claim. destruct (value_get name claims) as [v|]; [|naive_solver]. split.
  - intros H. inv_ok. intros v' [= <-].
    match goal with H : value_as_u64 _ = Some ?t |- _ => destruct v as [| |[] | | |]; try done; injection H as -> end.
    destruct (valid _ _) eqn:E in H; [|done]. eauto.
  - intros H. destruct (H v eq_refl) as (t & n & -> & -> & Hv). cbn. by rewrite Hv.
Qed.

Lemma claims_Ok claims nonce issuer version clock :
  check_claims claims nonce issuer version clock = Ok tt ↔ claims_accepted claims nonce issuer version clock.
Proof.
  unfold check_claims. split.
  - intros H. inv_ok.
    repeat match goal with H : string_claim _ _ = Ok _ |- _ => apply string_claim_Ok in H end.
    repeat match goal with H : negb _ = false |- _ => apply negb_false_iff in H end.
    repeat match goal with H : bool_decide _ = true |- _ => apply bool_decide_eq_true in H end. subst.
    match goal with H : (value_get _ _ ≫= value_as_bool) = Some _ |- _ => apply bind_Some in H as (r & Hr & Hb) end.
    destruct r; try done. injection Hb as ->.
    match goal with H : validate_optional_time_claim _ "nbf" _ _ = Ok _ |- _ => rename H into Hnbf end.
    match goal with H : validate_optional_time_claim _ "exp" _ _ = Ok _ |- _ => rename H into Hexp end.
    rewrite time_claim_Ok in Hnbf, Hexp.
    constructor; try done.
    + intros v Hv. destruct (Hnbf v Hv) as (t & n & -> & Hn & Hle). bools. eauto.
    + destruct (value_get "exp" claims) as [v|]; [|done]. destruct (Hexp v eq_refl) as (t & n & -> & Hn & Hlt). bools. eauto.
  - intros [Hi Hn Hv Hr Hnbf (t & now & He & Hc & Hlt)].
    rewrite (proj2 (string_claim_Ok _ _ _) Hi). cbn [mbind result_bind]. rewrite bool_decide_eq_true_2 by done. cbn [negb].
    rewrite (proj2 (string_claim_Ok _ _ _) Hn). cbn [mbind result_bind]. rewrite bool_decide_eq_true_2 by done. cbn [negb].
    rewrite (proj2 (string_claim_Ok _ _ _) Hv). cbn [mbind result_bind]. rewrite bool_decide_eq_true_2 by done. cbn [negb].
    rewrite Hr. cbn [mbind option_bind value_as_bool ok_or result_bind negb].
    apply unit_bind_Ok. split.
    + apply time_claim_Ok. intros v Hv'. destruct (Hnbf v Hv') as (t' & n' & -> & Hn' & Hle). exists t', n'.
      split_and!; try done. by apply Z.leb_le.
    + rewrite He. cbn [is_some negb]. apply time_claim_Ok. intros v [= <-]%(eq_trans (eq_sym He)). exists t, now.
      split_and!; try done. by apply Z.ltb_lt.
Qed.

Lemma select_Ok jwks kid jwk : select_jwk jwks kid = Ok jwk ↔ selects jwks kid jwk.
Proof.
  unfold select_jwk, selects. destruct (get_array "keys" jwks) as [keys|]; cbn; [|naive_solver].
  destruct kid as [kid|].
  - rewrite ok_or_Ok. split.
    + intros H. eexists. split; [done|]. induction keys as [|k keys IH]; [done|]. cbn in H.
      case_bool_decide as E.
      * injection H as <-. exists [], keys. by split_and!.
      * destruct (IH H) as (b & a & -> & Ek & Hb). exists (k :: b), a. split_and!; [done..|by constructor].
    + intros (? & [= <-] & b & a & -> & Ek & Hb). induction Hb as [|k b Hk Hb IH]; cbn.
      * by rewrite bool_decide_eq_true_2.
      * by rewrite bool_decide_eq_false_2.
  - destruct keys as [|k [|]]; naive_solver.
Qed.

Lemma p384_Ok jwk key : p384_public_key_from_jwk jwk = Ok key ↔ p384_key jwk key.
Proof.
  unfold p384_public_key_from_jwk, token_decode. split.
  - intros H. inv_ok. bools.
    repeat match goal with H : string_claim _ _ = Ok _ |- _ => apply string_claim_Ok in H end.
    constructor; try done.
    + intros alg Ha. match goal with H : match get_str "alg" _ with _ => _ end = false |- _ => rewrite Ha in H; by bools end.
    + eexists _, _, _, _. split_and!; try eassumption; tauto.
  - intros [Ht Hc Ha (x & y & xb & yb & Hx & Hy & Hxb & Hyb & Hlx & Hly & ->)].
    rewrite Ht, Hc, !bool_decide_eq_true_2 by done. cbn [negb].
    assert (match get_str "alg" jwk with Some alg => negb (alg =?= "ES384") | None => false end = false) as ->.
    { destruct (get_str "alg" jwk) as [alg|] eqn:E; [|done]. by rewrite (Ha alg eq_refl). }
    rewrite (proj2 (string_claim_Ok _ _ _) Hx). cbn [mbind result_bind]. rewrite Hxb. cbn [ok_or mbind result_bind].
    rewrite (proj2 (string_claim_Ok _ _ _) Hy). cbn [mbind result_bind]. rewrite Hyb. cbn [ok_or mbind result_bind].
    by rewrite Hlx, Hly.
Qed.

Lemma token_iff token jwks nonce issuer version clock v :
  verify_nvidia_nras_jwt_with_jwks token jwks nonce issuer version clock = Ok v
  ↔ ∃ header, token_accepted token jwks nonce issuer version clock header
      ∧ v = {| vj_nonce := nonce; vj_issuer := issuer; vj_key_id := jh_kid header; vj_claims_version := Some version |}.
Proof.
  unfold verify_nvidia_nras_jwt_with_jwks, token_decode. split.
  - destruct (split_byte "." token) as [|h [|c [|s [|]]]] eqn:E; try done. apply split_three in E as (Hh & Hc & Hs & E).
    intros H. inv_ok. bools.
    match goal with H : select_jwk _ _ = Ok _ |- _ => apply select_Ok in H end.
    match goal with H : p384_public_key_from_jwk _ = Ok _ |- _ => apply p384_Ok in H end.
    match goal with H : check_claims _ _ _ _ _ = Ok _ |- _ => apply claims_Ok in H end.
    eexists. split; [|reflexivity]. constructor; [|done].
    exists h, c, s. eexists _, _, _, _, _, _. split_and!; try eassumption; done.
  - intros (header & [(h & c & s & hb & cb & sb & jwk & key & claims & -> & H) Ha] & ->). destruct_and! H.
    rewrite (proj2 (split_three "." _ h c s)) by (split_and!; done).
    repeat match goal with H : url_safe_decode _ = Some _ |- _ => rewrite H; clear H; cbn [ok_or mbind result_bind] end.
    match goal with H : String.length sb = _ |- _ => rewrite H end. cbn [Nat.eqb negb].
    match goal with H : jwt_header_from_slice _ = _ |- _ => rewrite H end. cbn [ok_or mbind result_bind].
    rewrite Ha, bool_decide_eq_true_2 by done. cbn [negb].
    match goal with H : selects _ _ _ |- _ => rewrite (proj2 (select_Ok _ _ _) H) end. cbn [mbind result_bind].
    match goal with H : p384_key _ _ |- _ => rewrite (proj2 (p384_Ok _ _) H) end. cbn [mbind result_bind].
    match goal with H : es384_verify _ _ _ = true |- _ => rewrite H end. cbn [negb].
    match goal with H : token_value_from_slice _ = _ |- _ => rewrite H end. cbn [ok_or mbind result_bind].
    match goal with H : claims_accepted _ _ _ _ _ |- _ => by rewrite (proj2 (claims_Ok _ _ _ _ _) H) end.
Qed.

Lemma nras_iff verifier clock request verified :
  verify_nvidia_gpu_attestation (GpuAttestationVerifier := nras_back_end verifier clock) request = Ok verified
  ↔ nr_expected_tee request = NvidiaCc
    ∧ ∃ token header, ng_nras_token (nr_evidence request) = Some token
        ∧ token_accepted token (nv_jwks verifier) (nr_expected_nonce request) (nv_issuer verifier)
            (nv_required_claims_version verifier) clock header
        ∧ verified = nvidia_cc (nr_expected_nonce request) (ng_attestation_format (nr_evidence request))
            (match jh_kid header with Some kid => "nvidia-nras-jwt:" +:+ kid | None => "nvidia-nras-jwt" end).
Proof.
  cbn. unfold nras_verify_gpu, verify_token. split.
  - intros H. inv_ok. bools. split; [done|].
    match goal with H : verify_nvidia_nras_jwt_with_jwks _ _ _ _ _ _ = Ok _ |- _ =>
      apply token_iff in H as (header & Ha & ->) end. eauto 6.
  - intros (Ht & token & header & Htok & Ha & ->). rewrite Ht, bool_decide_eq_true_2 by done. cbn [negb].
    rewrite Htok. cbn [ok_or mbind result_bind]. rewrite (proj2 (token_iff _ _ _ _ _ _ _)) by eauto. done.
Qed.

(** The NRAS back end confirms a GPU attestation exactly when it is asked for
    an NVIDIA confidential GPU and the evidence carries a token of three parts,
    signed with ES384 by the configured key its header selects, issued by the
    configured issuer for the expected nonce with the configured claims version and
    a positive result, already in force and not expired. *)
Theorem nras_attestation_accepted_iff verifier clock request verified :
  verify_nvidia_gpu_attestation (GpuAttestationVerifier := nras_back_end verifier clock) request = Ok verified
  ↔ nr_expected_tee request = NvidiaCc
    ∧ ∃ token header, ng_nras_token (nr_evidence request) = Some token
        ∧ token_accepted token (nv_jwks verifier) (nr_expected_nonce request) (nv_issuer verifier)
            (nv_required_claims_version verifier) clock header
        ∧ verified = nvidia_cc (nr_expected_nonce request) (ng_attestation_format (nr_evidence request))
            (match jh_kid header with Some kid => "nvidia-nras-jwt:" +:+ kid | None => "nvidia-nras-jwt" end).
Proof. apply nras_iff. Qed.
End Nras.

(** ** Concrete inputs *)

Definition coordinate : string := zeros 48.
Definition sample_jwk (kid : string) : Value :=
  VObject [("kid", VString kid); ("kty", VString "EC"); ("crv", VString "P-384"); ("x", VString coordinate);
           ("y", VString coordinate)].
Definition sample_jwks : Value := VObject [("keys", VArray [sample_jwk "k1"; sample_jwk "k2"])].
Definition token_claims (nonce : string) (result : bool) (exp : list (string * Value)) : Value :=
  VObject ([("iss", VString NVIDIA_NRAS_ISSUER); ("eat_nonce", VString nonce); ("x-nvidia-ver", VString "3.0");
            ("x-nvidia-overall-att-result", VBool result); ("nbf", VNumber (PosInt 100))] ++ exp)%list.
(** A decoder for four tokens, and signatures that name their key. *)
#[local] Instance sample_token_crypto : TokenCrypto := {|
  url_safe_decode s := Some s;
  jwt_header_from_slice s := Some {| jh_alg := "ES384"; jh_kid := if s =?= "anonymous" then None else Some s |};
  token_value_from_slice s :=
    if s =?= "jwks" then Some sample_jwks
    else if s =?= "good" then Some (token_claims "nonce" true [("exp", VNumber (PosInt 200))])
    else if s =?= "failed" then Some (token_claims "nonce" false [("exp", VNumber (PosInt 200))])
    else if s =?= "eternal" then Some (token_claims "nonce" true [])
    else None;
  es384_verify key message signature := (String.length key =? 97)%nat && (signature =?= zeros 96) |}.

Definition token_of (header claims : string) : string := header +:+ "." +:+ claims +:+ "." +:+ zeros 96.
Definition token_verifies (header claims nonce : string) (now : Z) : bool :=
  is_ok (verify_nvidia_nras_jwt_with_jwks_json (token_of header claims) "jwks" nonce
           {| at_nbf := Some now; at_exp := Some now |}).

(** Accepted between its two times, for its nonce, with a positive result, an
    expiry and a key that can be told; refused otherwise. *)
Example nras_tokens :
  token_verifies "k2" "good" "nonce" 199 = true
  ∧ token_verifies "k2" "good" "nonce" 200 = false ∧ token_verifies "k2" "good" "nonce" 99 = false
  ∧ token_verifies "k2" "good" "other" 150 = false ∧ token_verifies "k2" "failed" "nonce" 150 = false
  ∧ token_verifies "k2" "eternal" "nonce" 150 = false ∧ token_verifies "k3" "good" "nonce" 150 = false
  ∧ token_verifies "anonymous" "good" "nonce" 150 = false.
Proof. by vm_compute. Qed.
