(* ===== verification/SigstoreRekor.v ===== *)
(** * Rekor entries

    sigstore_rekor.rs: the entry of a DSSE envelope in a Rekor transparency log is
    checked against the envelope and the signing certificate, its promise and its
    checkpoint against the key of a trusted log, and its inclusion proof against the
    checkpoint's root. Base64, JSON, signatures and calendar arithmetic are
    parameters. *)

From Stdlib Require Import Ascii String ZArith Lia.
From stdpp Require Import base strings list numbers.
From S2P Require Import Prelude RustStr Errors Canonical JsonInjective MerkleLog.

Open Scope string_scope.

Class SigstoreCrypto := {
  (** [base64::STANDARD.decode]. *)
  standard_decode : string → option string;
  (** [serde_json::from_slice] and [serde_json_canonicalizer::to_vec]. *)
  sig_value_from_slice : string → option Value;
  sig_jcs_to_vec : Value → option string;
  (** [DateTime::new(..).unix_duration().as_secs()]: year to second. *)
  date_time_secs : Z → Z → Z → Z → Z → Z → option Z;
  (** ring: verification over key, message and signature. *)
  ecdsa_p256_verify_asn1 : string → string → string → bool;
  ecdsa_p384_verify_asn1 : string → string → string → bool;
  ring_ed25519_verify : string → string → string → bool;
}.

Abbreviation RekorResult := (result string).

(** [value[key]]: null when there is no such member. *)
Definition value_index (key : string) (value : Value) : Value := default VNull (value_get key value).

(** [str::lines]: at line feeds, a carriage return before one dropped, no last
    empty line. *)
Definition LINE_FEED : ascii := "010".
Definition drop_cr (line : string) : string := default line (strip_suffix line (String "013" "")).
Definition lines (s : string) : list string :=
  let parts := split_byte LINE_FEED s in
  let complete := map drop_cr (removelast parts) in
  match List.last parts "" with "" => complete | rest => complete ++ [rest] end.

(** [s.split_once("\n\n")]. *)
Definition split_blank_line (s : string) : option (string * string) :=
  i ← position (String LINE_FEED (String LINE_FEED "")) s;
  Some (slice s 0 i, slice s (i + 2) (String.length s)).

Section Rekor.
Context {prim : Primitives} {sig : SigstoreCrypto}.

Definition rekor_field (value : Value) (name : string) : RekorResult string :=
  ok_or (get_str name value) ("missing or invalid Rekor " +:+ name).
Definition decode (value : string) : RekorResult string := ok_or (standard_decode value) "invalid Rekor base64".

Definition number (value : Value) (name : string) : RekorResult N :=
  v ← ok_or (value_get name value) ("missing Rekor " +:+ name);
  let n := Z.to_N <$> match value_as_str v with Some s => parse_u64 s | None => value_as_u64 v end in
  n ← ok_or n ("invalid Rekor " +:+ name);
  bail ("invalid Rekor " +:+ name) when (9007199254740991 <? n)%N;
  Ok n.

(** A part of a time: digits only. *)
Definition time_part (value : string) (from to : nat) : RekorResult Z :=
  let part := slice value from to in
  bail "invalid Rekor key validity time" when negb (all_bytes is_ascii_digit part);
  ok_or (parse_uint 65535 part) "invalid time".
Definition byte_is (value : string) (i : nat) (c : ascii) : bool := byte_at value i =?= Some c.
Definition time (value : string) : RekorResult Z :=
  bail "unsupported Rekor key validity time"
    when negb ((String.length value =? 20)%nat && byte_is value 4 "-" && byte_is value 7 "-" && byte_is value 10 "T"
               && byte_is value 13 ":" && byte_is value 16 ":" && byte_is value 19 "Z");
  year ← time_part value 0 4; month ← time_part value 5 7; day ← time_part value 8 10;
  hour ← time_part value 11 13; minute ← time_part value 14 16; second ← time_part value 17 19;
  ok_or (date_time_secs year month day hour minute second) "invalid Rekor key validity time".

(** The DER prefixes of a P-256 and an Ed25519 public key. *)
Definition bytes_of (codes : list N) : string := string_of_list_ascii (map ascii_of_N codes).
Definition P256 : string :=
  bytes_of [0x30; 0x59; 0x30; 0x13; 0x06; 0x07; 0x2a; 0x86; 0x48; 0xce; 0x3d; 0x02; 0x01; 0x06; 0x08;
            0x2a; 0x86; 0x48; 0xce; 0x3d; 0x03; 0x01; 0x07; 0x03; 0x42; 0x00]%N.
Definition ED25519 : string :=
  bytes_of [0x30; 0x2a; 0x30; 0x05; 0x06; 0x03; 0x2b; 0x65; 0x70; 0x03; 0x21; 0x00]%N.

Definition verify_signature (key details message signature : string) : RekorResult unit :=
  verify ←
    (if (details =?= "PKIX_ECDSA_P256_SHA_256") && (String.length key =? String.length P256 + 65)%nat
     then raw ← ok_or (strip_prefix P256 key) "invalid Rekor P-256 key"; Ok (ecdsa_p256_verify_asn1 raw)
     else if (details =?= "PKIX_ED25519") && (String.length key =? String.length ED25519 + 32)%nat
     then raw ← ok_or (strip_prefix ED25519 key) "invalid Rekor Ed25519 key"; Ok (ring_ed25519_verify raw)
     else Err "unsupported Rekor key");
  bail "invalid Rekor signature" when negb (verify message signature : bool);
  Ok tt.

(** ** The entry's body speaks of the envelope and its certificate *)

Definition strip_newlines (s : string) : string :=
  string_of_list_ascii (List.filter (λ c, negb (c =?= LINE_FEED) && negb (c =?= "013"%char)) (bytes s)).
Definition line (s : string) : string := s +:+ String LINE_FEED "".
(** The item of an array of one. *)
Definition single {A} (items : list A) : option A := match items with [item] => Some item | _ => None end.

Definition verify_binding (body envelope : Value) (certificate : string) : RekorResult unit :=
  kind ← rekor_field body "kind";
  bail "unsupported Rekor entry kind" when negb (kind =?= "dsse");
  version ← rekor_field body "apiVersion";
  bail "unsupported Rekor entry kind" when negb (version =?= "0.0.1");
  let spec := value_index "spec" body in
  let payload_hash := value_index "payloadHash" spec in
  algorithm ← rekor_field payload_hash "algorithm";
  bail "Rekor payload hash mismatch" when negb (algorithm =?= "sha256");
  hash ← rekor_field payload_hash "value";
  payload ← rekor_field envelope "payload";
  payload ← decode payload;
  bail "Rekor payload hash mismatch" when negb (hash =?= lower_hex (sha256 payload));
  envelope_algorithm ← rekor_field (value_index "envelopeHash" spec) "algorithm";
  bail "invalid Rekor envelope hash" when negb (envelope_algorithm =?= "sha256");
  envelope_hash ← rekor_field (value_index "envelopeHash" spec) "value";
  bail "invalid Rekor envelope hash"
    when negb (String.length envelope_hash =? 64)%nat || negb (all_bytes is_ascii_hexdigit envelope_hash);
  signatures ← ok_or (value_as_array (value_index "signatures" spec)) "missing Rekor signatures";
  env_signatures ← ok_or (value_as_array (value_index "signatures" envelope)) "missing DSSE signatures";
  signature ← ok_or (single signatures) "Rekor DSSE signature mismatch";
  env_signature ← ok_or (single env_signatures) "Rekor DSSE signature mismatch";
  logged ← rekor_field signature "signature";
  logged ← decode logged;
  signed ← rekor_field env_signature "sig";
  signed ← decode signed;
  bail "Rekor DSSE signature mismatch" when negb (logged =?= signed);
  verifier ← rekor_field signature "verifier";
  pem ← decode verifier;
  bail "invalid Rekor certificate PEM" when negb (valid_utf8 pem);
  contents ← ok_or (rest ← strip_prefix (line "-----BEGIN CERTIFICATE-----") pem;
                    strip_suffix rest (line "-----END CERTIFICATE-----")) "invalid Rekor certificate PEM";
  der ← decode (strip_newlines contents);
  bail "Rekor certificate mismatch" when negb (der =?= certificate);
  Ok tt.

(** ** The inclusion proof *)

(** The loop over the proof's hashes. *)
Fixpoint walk_hashes (index inner level : N) (current : string) (hashes : list Value) : RekorResult string :=
  match hashes with
  | [] => Ok current
  | hash :: hashes =>
      hash ← ok_or (value_as_str hash) "invalid Rekor inclusion hash";
      hash ← decode hash;
      bail "invalid Rekor inclusion hash length" when negb (String.length hash =? 32)%nat;
      walk_hashes index inner (level + 1) (climb index inner level current hash) hashes
  end.

(** The loop over the checkpoint's signature lines. *)
Fixpoint checkpoint_signed (key details log_id signed : string) (signatures : list string) : RekorResult bool :=
  match signatures with
  | [] => Ok false
  | line :: signatures =>
      rest ← ok_or (strip_prefix "— " line) "invalid checkpoint signature line";
      '(_, encoded) ← ok_or (split_once " " rest) "invalid checkpoint signature";
      signature ← decode encoded;
      if (4 <? String.length signature)%nat && (slice signature 0 4 =?= slice log_id 0 4)
         && is_ok (verify_signature key details signed (slice signature 4 (String.length signature)))
      then Ok true
      else checkpoint_signed key details log_id signed signatures
  end.

Definition verify_checkpoint (checkpoint key details log_id : string) (size : N) (current : string) : RekorResult unit :=
  '(text, signatures) ← ok_or (split_blank_line checkpoint) "invalid Rekor checkpoint";
  bail "too many Rekor checkpoint signature lines" when (8 <? length (lines signatures))%nat;
  origin ← ok_or (lines text !! 0%nat) "missing checkpoint origin";
  bail "Rekor checkpoint does not match proof" when is_empty origin;
  bail "Rekor checkpoint does not match proof" when negb ((lines text !! 1%nat ≫= parse_u64) =?= Some (Z.of_N size));
  encoded_root ← ok_or (lines text !! 2%nat) "missing checkpoint root";
  root ← decode encoded_root;
  bail "Rekor checkpoint does not match proof" when negb (root =?= current);
  bail "Rekor checkpoint does not match proof" when is_some (lines text !! 3%nat);
  valid ← checkpoint_signed key details log_id (line text) (lines signatures);
  bail "invalid Rekor checkpoint signature" when negb valid;
  Ok tt.

Definition verify_proof (proof : Value) (body key details log_id : string) : RekorResult unit :=
  index ← number proof "logIndex";
  size ← number proof "treeSize";
  bail "invalid Rekor inclusion index" when (size <=? index)%N;
  hashes ← ok_or (value_as_array (value_index "hashes" proof)) "missing Rekor inclusion hashes";
  let inner := inner_length index size in
  bail "invalid Rekor inclusion path length"
    when negb (length hashes =? N.to_nat inner + border_length index inner)%nat;
  current ← walk_hashes index inner 0 (leaf_hash body) hashes;
  root ← rekor_field proof "rootHash";
  root ← decode root;
  bail "Rekor inclusion root mismatch" when negb (current =?= root);
  checkpoint ← rekor_field (value_index "checkpoint" proof) "envelope";
  verify_checkpoint checkpoint key details log_id size current.

(** ** The entry *)

Definition log_key_id (log : Value) : option string :=
  s ← get_str "keyId" (value_index "logId" log); standard_decode s.

Definition set_payload (body_base64 : string) (integrated index : N) (id : string) : Value :=
  VObject [("body", VString body_base64); ("integratedTime", VNumber (PosInt (Z.of_N integrated)));
           ("logIndex", VNumber (PosInt (Z.of_N index))); ("logID", VString (lower_hex id))].

(** Whether a key is valid at a time; a missing end is no end. *)
Definition check_key_period (valid : Value) (integrated : N) : RekorResult unit :=
  bail "Rekor key not valid at integrated time" when (integrated =? 0)%N;
  start ← rekor_field valid "start";
  start ← time start;
  bail "Rekor key not valid at integrated time" when (Z.of_N integrated <? start)%Z;
  match value_get "end" valid with
  | None => Ok tt
  | Some _ =>
      finish ← rekor_field valid "end";
      finish ← time finish;
      bail "Rekor key not valid at integrated time" when (finish <? Z.of_N integrated)%Z;
      Ok tt
  end.

Definition verify_rekor (entry envelope : Value) (certificate_der : string) (trusted_root : Value) : RekorResult Z :=
  body_base64 ← rekor_field entry "canonicalizedBody";
  body ← decode body_base64;
  parsed ← ok_or (sig_value_from_slice body) "invalid Rekor body";
  kind ← rekor_field (value_index "kindVersion" entry) "kind";
  bail "unsupported Rekor kind/version" when negb (kind =?= "dsse");
  version ← rekor_field (value_index "kindVersion" entry) "version";
  bail "unsupported Rekor kind/version" when negb (version =?= "0.0.1");
  _ ← verify_binding parsed envelope certificate_der;
  id ← rekor_field (value_index "logId" entry) "keyId";
  id ← decode id;
  bail "invalid Rekor log ID" when negb (String.length id =? 32)%nat;
  logs ← ok_or (value_as_array (value_index "tlogs" trusted_root)) "missing trusted Rekor logs";
  log ← ok_or (List.find (λ log, log_key_id log =?= Some id) logs) "untrusted Rekor log";
  algorithm ← rekor_field log "hashAlgorithm";
  bail "unsupported Rekor hash" when negb (algorithm =?= "SHA2_256");
  let public_key := value_index "publicKey" log in
  key ← rekor_field public_key "rawBytes";
  key ← decode key;
  bail "Rekor key ID mismatch" when negb (sha256 key =?= id);
  details ← rekor_field public_key "keyDetails";
  integrated ← number entry "integratedTime";
  _ ← check_key_period (value_index "validFor" public_key) integrated;
  index ← number entry "logIndex";
  payload ← ok_or (sig_jcs_to_vec (set_payload body_base64 integrated index id)) "invalid Rekor SET payload";
  promise ← rekor_field (value_index "inclusionPromise" entry) "signedEntryTimestamp";
  promise ← decode promise;
  _ ← verify_signature key details payload promise;
  proof ← ok_or (value_get "inclusionProof" entry) "missing Rekor inclusion proof";
  _ ← verify_proof proof body key details id;
  Ok (Z.of_N integrated).
End Rekor.

(** ** What an accepted entry rests on *)

(** The certificate an entry's body carries, and a field in base64. *)
Definition logged_certificate `{!SigstoreCrypto} (signature : Value) : option string :=
  verifier ← get_str "verifier" signature;
  pem ← standard_decode verifier;
  rest ← strip_prefix (line "-----BEGIN CERTIFICATE-----") pem;
  contents ← strip_suffix rest (line "-----END CERTIFICATE-----");
  standard_decode (strip_newlines contents).
Definition decoded_field `{!SigstoreCrypto} (name : string) (value : Value) : option string :=
  s ← get_str name value; standard_decode s.

Section Accepted.
Context {prim : Primitives} {sig : SigstoreCrypto} {laws : Sha256Laws}.

(** The body names the envelope's payload and signature and the certificate. *)
Definition entry_binds (body : string) (envelope : Value) (certificate : string) : Prop :=
  ∃ parsed payload logged signed signature,
    sig_value_from_slice body = Some parsed
    ∧ decoded_field "payload" envelope = Some payload
    ∧ get_str "value" (value_index "payloadHash" (value_index "spec" parsed)) = Some (lower_hex (sha256 payload))
    ∧ value_as_array (value_index "signatures" (value_index "spec" parsed)) = Some [logged]
    ∧ value_as_array (value_index "signatures" envelope) = Some [signed]
    ∧ decoded_field "sig" signed = Some signature ∧ decoded_field "signature" logged = Some signature
    ∧ logged_certificate logged = Some certificate.

(** A log of the trusted root with a key that is valid at a time. *)
Definition trusted_log (trusted_root : Value) (id key details : string) (at_time : N) : Prop :=
  ∃ logs log, value_as_array (value_index "tlogs" trusted_root) = Some logs ∧ In log logs
    ∧ log_key_id log = Some id ∧ sha256 key = id
    ∧ decoded_field "rawBytes" (value_index "publicKey" log) = Some key
    ∧ get_str "keyDetails" (value_index "publicKey" log) = Some details
    ∧ check_key_period (value_index "validFor" (value_index "publicKey" log)) at_time = Ok tt.

(** The log's key signed a checkpoint with a tree's size and root, and an audit path of
    the right length leads from the body's leaf to that root. So the body is a leaf:
    any leaves of that size and root have it at the index, unless an input hashed along
    this path collides with one of their tree. *)
Definition log_contains (key details body : string) : Prop :=
  ∃ text signature index size root path,
    verify_signature key details (line text) signature = Ok tt
    ∧ (lines text !! 1%nat ≫= parse_u64) = Some (Z.of_N size) ∧ (lines text !! 2%nat ≫= standard_decode) = Some root
    ∧ (index < size)%N ∧ length path = path_length index size
    ∧ walk index (inner_length index size) 0 (leaf_hash body) path = root
    ∧ ∀ leaves, N.of_nat (length leaves) = size → merkle leaves root →
        leaves !! N.to_nat index = Some body ∨ inputs_collide (audit_inputs index size body path) leaves.

Lemma field_Ok value name s : rekor_field value name = Ok s ↔ get_str name value = Some s.
Proof. unfold rekor_field. apply ok_or_Ok. Qed.
Lemma decode_Ok s b : decode s = Ok b ↔ standard_decode s = Some b.
Proof. unfold decode. apply ok_or_Ok. Qed.
Lemma decoded_field_Some value name s b :
  rekor_field value name = Ok s → decode s = Ok b → decoded_field name value = Some b.
Proof. intros H1%field_Ok H2%decode_Ok. unfold decoded_field. by rewrite H1. Qed.
Lemma single_Some {A} (items : list A) item : single items = Some item → items = [item].
Proof. destruct items as [|a [|b items]]; [done| |done]. by intros [= ->]. Qed.

Lemma walk_hashes_Ok index inner level current hashes root :
  walk_hashes index inner level current hashes = Ok root →
  ∃ path, length path = length hashes ∧ Forall (λ hash, String.length hash = 32%nat) path
    ∧ walk index inner level current path = root.
Proof.
  revert level current. induction hashes as [|hash hashes IH]; intros level current H; cbn [walk_hashes] in H.
  - injection H as <-. by exists [].
  - inv_ok. bools. apply IH in H as (path & Hl & Hf & Hw). eexists (_ :: path). cbn. rewrite Hl.
    split; [done|]. split; [|exact Hw]. by constructor.
Qed.
Lemma checkpoint_signed_Ok key details log_id signed signatures :
  checkpoint_signed key details log_id signed signatures = Ok true →
  ∃ signature, verify_signature key details signed signature = Ok tt.
Proof.
  induction signatures as [|l signatures IH]; cbn [checkpoint_signed]; [done|]. intros H. inv_ok.
  destruct x0 as [name encoded]. inv_ok. case_match eqn:E; [|by apply IH]. bools.
  destruct E as [_ [[] E]%is_ok_inv]. by eexists.
Qed.
Lemma number_small value name n : number value name = Ok n → (n ≤ 9007199254740991)%N.
Proof. unfold number. intros H. inv_ok. by apply N.ltb_ge. Qed.

Lemma verify_checkpoint_Ok checkpoint key details log_id size current :
  verify_checkpoint checkpoint key details log_id size current = Ok tt →
  ∃ text signature, verify_signature key details (line text) signature = Ok tt
    ∧ (lines text !! 1%nat ≫= parse_u64) = Some (Z.of_N size) ∧ (lines text !! 2%nat ≫= standard_decode) = Some current.
Proof.
  unfold verify_checkpoint. intros H. inv_ok. destruct x as [text signatures]. inv_ok. bools. subst.
  match goal with E : decode _ = Ok _ |- _ => apply decode_Ok in E; rename E into Ed end.
  match goal with E : checkpoint_signed _ _ _ _ _ = Ok _ |- _ => apply checkpoint_signed_Ok in E as [signature Hs] end.
  exists text, signature. split; [done|]. split; [done|]. by match goal with E : lines text !! 2%nat = _ |- _ => rewrite E end.
Qed.

Lemma verify_proof_contains proof body key details log_id :
  verify_proof proof body key details log_id = Ok tt → log_contains key details body.
Proof.
  unfold verify_proof. intros H. inv_ok. apply verify_checkpoint_Ok in H as (text & signature & Hs & Hsize & Hroot).
  match goal with E : walk_hashes _ _ _ _ _ = _ |- _ => apply walk_hashes_Ok in E as (path & Hl & Hf & Hw) end.
  exists text, signature, x, x0, x2, path. bools. unfold path_length. split_and!; try done; [lia..|].
  intros leaves <- Hm. match goal with E : number _ "treeSize" = _ |- _ => apply number_small in E end.
  apply (leaf_at leaves x2 Hm x path); try done; [|unfold path_length; lia].
  assert (9007199254740991 ≤ 2 ^ 62)%N by done. lia.
Qed.

Lemma verify_binding_Ok body parsed envelope certificate :
  sig_value_from_slice body = Some parsed → verify_binding parsed envelope certificate = Ok tt →
  entry_binds body envelope certificate.
Proof.
  intros Hb. unfold verify_binding. intros H. inv_ok. bools. subst.
  repeat match goal with E : single _ = Some _ |- _ => apply single_Some in E; subst end.
  match goal with E : (strip_prefix _ _ ≫= _) = Some _ |- _ => apply bind_Some in E as (rest & Hp & Hsx) end.
  unfold entry_binds. eexists parsed, _, _, _, _. split; [done|]. split; [by eapply decoded_field_Some|].
  split; [by apply field_Ok|]. split; [done|]. split; [done|].
  split; [by eapply decoded_field_Some|]. split; [by eapply decoded_field_Some|].
  apply bind_Some. eexists. split; [by apply field_Ok|]. apply bind_Some. eexists. split; [by apply decode_Ok|].
  apply bind_Some. eexists. split; [exact Hp|]. apply bind_Some. eexists. split; [exact Hsx|by apply decode_Ok].
Qed.

Lemma period_nonzero valid t : check_key_period valid t = Ok tt → t ≠ 0%N.
Proof. unfold check_key_period. intros H. inv_ok. by apply N.eqb_neq. Qed.
Lemma verify_rekor_Ok entry envelope certificate trusted_root t :
  verify_rekor entry envelope certificate trusted_root = Ok t →
  ∃ body_base64 body id key details integrated,
    t = Z.of_N integrated ∧ integrated ≠ 0%N
    ∧ get_str "canonicalizedBody" entry = Some body_base64 ∧ standard_decode body_base64 = Some body
    ∧ entry_binds body envelope certificate
    ∧ trusted_log trusted_root id key details integrated
    ∧ (∃ index payload promise, sig_jcs_to_vec (set_payload body_base64 integrated index id) = Some payload
         ∧ verify_signature key details payload promise = Ok tt)
    ∧ log_contains key details body.
Proof.
  unfold verify_rekor. intros H. inv_ok. bools. subst.
  repeat match goal with u : unit |- _ => destruct u end.
  match goal with E : List.find _ _ = Some _ |- _ => apply List.find_some in E as [Hin Hid]; apply bool_decide_eq_true in Hid end.
  match goal with E : rekor_field entry "canonicalizedBody" = _, E2 : decode _ = Ok ?b, E3 : sig_value_from_slice ?b = _ |- _ =>
    apply field_Ok in E; apply decode_Ok in E2 end.
  do 6 eexists. split; [done|]. split; [by eapply period_nonzero|]. split; [done|]. split; [done|].
  split; [by eapply verify_binding_Ok|]. split; [|split; [by do 3 eexists|by eapply verify_proof_contains]].
  do 2 eexists. split; [done|]. split; [done|]. split; [done|]. split; [done|].
  split; [by eapply decoded_field_Some|]. split; [by apply field_Ok|done].
Qed.

(** An accepted Rekor entry is one of a trusted log. Its body names the
    payload, the signature and the certificate of the envelope; the log's key, valid
    at the integrated time, signed the promise over that body and time and a
    checkpoint of a tree that has the body as a leaf. *)
Theorem rekor_entry_sound entry envelope certificate trusted_root t :
  verify_rekor entry envelope certificate trusted_root = Ok t →
  ∃ body_base64 body id key details integrated,
    t = Z.of_N integrated ∧ integrated ≠ 0%N
    ∧ get_str "canonicalizedBody" entry = Some body_base64 ∧ standard_decode body_base64 = Some body
    ∧ entry_binds body envelope certificate
    ∧ trusted_log trusted_root id key details integrated
    ∧ (∃ index payload promise, sig_jcs_to_vec (set_payload body_base64 integrated index id) = Some payload
         ∧ verify_signature key details payload promise = Ok tt)
    ∧ log_contains key details body.
Proof. apply verify_rekor_Ok. Qed.
End Accepted.

(** ** A concrete entry *)

Definition strings (members : list (string * string)) : Value := VObject (map (λ m, (m.1, VString m.2)) members).
Definition sample_log_key : string := ED25519 +:+ zeros 32.
Definition sample_log_id : string := sha256 sample_log_key.
Definition sample_entry_body : Value :=
  VObject [("kind", VString "dsse"); ("apiVersion", VString "0.0.1");
    ("spec", VObject
      [("payloadHash", strings [("algorithm", "sha256"); ("value", lower_hex (sha256 "payload"))]);
       ("envelopeHash", strings [("algorithm", "sha256"); ("value", zeros 64)]);
       ("signatures", VArray [strings
          [("signature", "signature");
           ("verifier", line "-----BEGIN CERTIFICATE-----" +:+ line "leaf" +:+ line "-----END CERTIFICATE-----")]])])].
Definition sample_statement : Value :=
  VObject [("_type", VString "https://in-toto.io/Statement/v1");
    ("predicateType", VString "https://tinfoil.sh/predicate/snp-tdx-multiplatform/v1");
    ("subject", VArray [VObject [("digest", strings [("sha256", zeros 64)])]]);
    ("predicate", VObject [("tdx_measurement", strings [("rtmr1", "1"); ("rtmr2", "2")]);
                           ("snp_measurement", VString (zeros 95 +:+ "A"))])].
#[export] Instance sample_sigstore : SigstoreCrypto := {|
  standard_decode := Some;
  sig_value_from_slice s :=
    if s =?= "body" then Some sample_entry_body else if s =?= "payload" then Some sample_statement else None;
  sig_jcs_to_vec _ := Some "promise payload";
  date_time_secs _ _ _ _ _ _ := Some 0%Z;
  ecdsa_p256_verify_asn1 _ _ _ := true; ecdsa_p384_verify_asn1 _ _ _ := true; ring_ed25519_verify _ _ _ := true |}.

Definition sample_envelope : Value :=
  VObject [("payloadType", VString "application/vnd.in-toto+json"); ("payload", VString "payload");
           ("signatures", VArray [strings [("sig", "signature")]])].
Definition sample_rekor_root : string := leaf_hash "body".
Definition sample_entry : Value :=
  VObject [("canonicalizedBody", VString "body"); ("kindVersion", strings [("kind", "dsse"); ("version", "0.0.1")]);
    ("logId", strings [("keyId", sample_log_id)]); ("integratedTime", VString "5"); ("logIndex", VNumber (PosInt 7));
    ("inclusionPromise", strings [("signedEntryTimestamp", "promise")]);
    ("inclusionProof", VObject
      [("logIndex", VNumber (PosInt 0)); ("treeSize", VString "1"); ("hashes", VArray []);
       ("rootHash", VString sample_rekor_root);
       ("checkpoint", strings [("envelope",
          line "log" +:+ line "1" +:+ line sample_rekor_root +:+ String LINE_FEED ""
          +:+ line ("— log " +:+ slice sample_log_id 0 4 +:+ "signed"))])])].
Definition sample_trusted_logs : list (string * Value) :=
  [("tlogs", VArray [VObject
      [("hashAlgorithm", VString "SHA2_256"); ("logId", strings [("keyId", sample_log_id)]);
       ("publicKey", VObject [("rawBytes", VString sample_log_key); ("keyDetails", VString "PKIX_ED25519");
                              ("validFor", strings [("start", "1970-01-01T00:00:00Z")])])]])].

Example sample_entry_accepted :
  verify_rekor sample_entry sample_envelope "leaf" (VObject sample_trusted_logs) = Ok 5%Z
  ∧ verify_rekor sample_entry sample_envelope "other" (VObject sample_trusted_logs) = Err "Rekor certificate mismatch"
  ∧ verify_rekor sample_entry sample_envelope "leaf" (strings []) = Err "missing trusted Rekor logs".
Proof. by vm_compute. Qed.

Lemma rekor_entry_sound_witness : ∃ key details, log_contains key details "body".
Proof.
  destruct (rekor_entry_sound sample_entry sample_envelope "leaf" (VObject sample_trusted_logs) 5%Z)
    as (b & body & id & key & details & n & _ & _ & Hb & Hd & _ & _ & _ & H); [vm_compute; reflexivity|].
  exists key, details. assert (body = "body") as <-; [|exact H].
  vm_compute in Hb. injection Hb as <-. vm_compute in Hd. by injection Hd as <-.
Defined.
