(* ===== verification/SigstoreSct.v ===== *)
(** * Signed certificate timestamps

    sigstore_sct.rs: the certificate-transparency timestamps embedded in a signing
    certificate. The precertificate that was logged is rebuilt by taking the
    timestamp list out of the extensions, and one timestamp must be signed by the
    key of a trusted log that was valid at the time. *)

From Stdlib Require Import Ascii String ZArith Lia.
From stdpp Require Import base strings list numbers.
From S2P Require Import Prelude RustStr Errors Canonical JsonInjective MerkleLog SigstoreRekor.

Open Scope string_scope.

(** What the code reads of a certificate; names and algorithms in their encoded form. *)
Record SigstoreExtension := {
  se_oid : string;
  se_critical : bool;
  se_value : string;
  (** [ext.to_der()]. *)
  se_der : option string;
}.
Record SigstoreCertificate := {
  sc_issuer : string;
  sc_subject : string;
  sc_signature_algorithm : string;
  sc_tbs_signature_algorithm : string;
  sc_signature_oid : string;
  sc_not_before_secs : Z;
  sc_not_after_secs : Z;
  sc_spki_der : option string;
  sc_public_key : option string;
  sc_signature : option string;
  sc_tbs_der : option string;
  sc_extensions : option (list SigstoreExtension);
}.

(** The X.509 decoders of x509_cert. *)
Class SigstoreX509 := {
  sigstore_certificate_from_der : string → option SigstoreCertificate;
  octet_string_from_der : string → option string;
  utf8_string_from_der : string → option string;
  (** The usages named, the digital-signature bit, the CA flag. *)
  extended_key_usage_from_der : string → option (list string);
  key_usage_digital_signature : string → option bool;
  basic_constraints_ca : string → option bool;
  (** The names, a URI or something else. *)
  subject_alt_names_from_der : string → option (list (option string));
}.

Definition SCT_OID : string := "1.3.6.1.4.1.11129.2.4.2".
Definition POISON_OID : string := "1.3.6.1.4.1.11129.2.4.3".
Definition P256_SPKI_PREFIX : string := P256.

(** ** Bytes read from the front *)

(** [u16::from_be_bytes] and the like. *)
Definition be_value (s : string) : N := fold_left (λ acc c, (256 * acc + code c)%N) (bytes s) 0%N.
(** The last [n] bytes of the big-endian form. *)
Fixpoint be_bytes (n : nat) (value : N) : string :=
  match n with
  | O => ""
  | S n => be_bytes n (value / 256) +:+ String (ascii_of_N (value mod 256)) ""
  end.

Definition take_bytes (input : string) (len : nat) : RekorResult (string * string) :=
  bail "truncated SCT" when (String.length input <? len)%nat;
  Ok (slice input 0 len, slice input len (String.length input)).
Definition vector16 (input : string) : RekorResult (string * string) :=
  '(n, input) ← take_bytes input 2;
  take_bytes input (N.to_nat (be_value n)).

(** ** Times *)

(** [number]: digits accumulated. *)
Definition digits_number (s : string) : option Z := if all_bytes is_ascii_digit s then Some (digits_value s) else None.
Section Times.
Context {sig : SigstoreCrypto}.
Definition timestamp_ns (s : string) : option Z :=
  let n := String.length s in
  if negb ((20 <=? n)%nat && byte_is s 4 "-" && byte_is s 7 "-" && byte_is s 10 "T"
           && byte_is s 13 ":" && byte_is s 16 ":" && byte_is s (n - 1) "Z") then None
  else
    year ← digits_number (slice s 0 4); month ← digits_number (slice s 5 7); day ← digits_number (slice s 8 10);
    hour ← digits_number (slice s 11 13); minute ← digits_number (slice s 14 16); second ← digits_number (slice s 17 19);
    secs ← date_time_secs year month day hour minute second;
    nanos ←
      match slice s 19 (n - 1) with
      | "" => Some 0%Z
      | String c digits as fraction =>
          if negb (c =?= "."%char) || (String.length fraction <? 2)%nat || (10 <? String.length fraction)%nat then None
          else value ← digits_number digits;
               Some (value * 10 ^ Z.of_nat (10 - String.length fraction))%Z
      end;
    Some (secs * 1000000000 + nanos)%Z.
End Times.

(** ** DER *)

(** The contents of the one value that fills the input. *)
Definition sct_der_value (input : string) (tag : ascii) : RekorResult string :=
  match input with
  | String t (String first rest) =>
      bail "invalid certificate DER" when negb (t =?= tag);
      '(len, header) ←
        (if (code first <? 128)%N then Ok (code first, 2%nat)
         else let count := N.to_nat (N.land (code first) 127) in
              bail "invalid certificate DER length"
                when (count =? 0)%nat || (8 <? count)%nat || (String.length input <? 2 + count)%nat;
              let len := be_value (slice input 2 (2 + count)) in
              bail "invalid certificate DER length" when (Z.to_N u64_max <? len)%N;
              Ok (len, (2 + count)%nat));
      bail "invalid certificate DER length" when negb (N.of_nat (String.length input - header) =? len)%N;
      Ok (slice input header (String.length input))
  | _ => Err "invalid certificate DER"
  end.

Fixpoint trim_zero_bytes (s : string) : string :=
  match s with String "000" rest => trim_zero_bytes rest | _ => s end.
(** The bytes of a length without its leading zeros, at least one. *)
Definition der_length_bytes (len : nat) : string :=
  let all := be_bytes 8 (N.of_nat len) in
  match trim_zero_bytes all with "" => slice all 7 8 | s => s end.
Definition der_wrap (tag : ascii) (content : string) : string :=
  let len := String.length content in
  String tag
    (if (len <? 128)%nat then String (ascii_of_N (N.of_nat len)) content
     else let size := der_length_bytes len in
          String (ascii_of_N (N.lor 128 (N.of_nat (String.length size)))) (size +:+ content)).

(** ** One timestamp *)

Record Sct := {
  sct_log_id : string;
  sct_timestamp : string;
  sct_extensions : string;
  sct_signature : string;
}.
Definition parse_sct (input : string) : RekorResult Sct :=
  '(version, input) ← take_bytes input 1;
  bail "unsupported SCT version" when negb (version =?= String "000" "");
  '(id, input) ← take_bytes input 32;
  '(timestamp, input) ← take_bytes input 8;
  '(extensions, input) ← vector16 input;
  '(algorithm, input) ← take_bytes input 2;
  bail "unsupported SCT signature algorithm" when negb (algorithm =?= String "004" (String "003" ""));
  '(signature, input) ← vector16 input;
  bail "trailing SCT data" when negb (is_empty input);
  Ok {| sct_log_id := id; sct_timestamp := timestamp; sct_extensions := extensions; sct_signature := signature |}.

(** The bytes the log signed. *)
Definition signed_bytes (sct : Sct) (tbs issuer_hash : string) : string :=
  String "000" (String "000" (sct_timestamp sct)) +:+ String "000" (String "001" issuer_hash)
  +:+ be_bytes 3 (N.of_nat (String.length tbs)) +:+ tbs
  +:+ be_bytes 2 (N.of_nat (String.length (sct_extensions sct))) +:+ sct_extensions sct.

(** [value.pointer("/a/b")] on objects. *)
Definition pointer2 (a b : string) (value : Value) : option Value := inner ← value_get a value; value_get b inner.

Section Timestamps.
Context {prim : Primitives} {sig : SigstoreCrypto}.

(** The key of a log of the trusted root that may verify a timestamp; [None] where
    the loop continues. *)
Definition sct_log_key (log : Value) (id : string) (millis : N) : option string :=
  algorithm ← get_str "hashAlgorithm" log;
  if negb (algorithm =?= "SHA2_256") then None else
  key ← value_get "publicKey" log;
  details ← get_str "keyDetails" key;
  if negb (details =?= "PKIX_ECDSA_P256_SHA_256") then None else
  raw ← (s ← get_str "rawBytes" key; standard_decode s);
  log_id ← (v ← pointer2 "logId" "keyId" log; s ← value_as_str v; standard_decode s);
  if negb (log_id =?= id) || negb (sha256 raw =?= id)
     || negb (String.length raw =? String.length P256_SPKI_PREFIX + 65)%nat || negb (starts_with P256_SPKI_PREFIX raw)
  then None else
  start ← (v ← pointer2 "validFor" "start" key; s ← value_as_str v; timestamp_ns s);
  let time := (Z.of_N millis * 1000000)%Z in
  if (time <? start)%Z then None else
  match pointer2 "validFor" "end" key with
  | None => Some (slice raw (String.length P256_SPKI_PREFIX) (String.length raw))
  | Some v =>
      finish ← (s ← value_as_str v; timestamp_ns s);
      if (finish <? time)%Z then None else Some (slice raw (String.length P256_SPKI_PREFIX) (String.length raw))
  end.

Definition verify_one (sct tbs issuer_hash : string) (logs : list Value) : RekorResult unit :=
  parsed ← parse_sct sct;
  bail "precertificate too large" when (16777215 <? N.of_nat (String.length tbs))%N;
  let signed := signed_bytes parsed tbs issuer_hash in
  if existsb (λ log,
       match sct_log_key log (sct_log_id parsed) (be_value (sct_timestamp parsed)) with
       | Some key => ecdsa_p256_verify_asn1 key signed (sct_signature parsed)
       | None => false
       end) logs
  then Ok tt else Err "no trusted CT log verified the SCT".
End Timestamps.

(** ** The precertificate *)

(** The encoded extensions, all of them and without the one at an index. *)
Fixpoint encode_extensions (extensions : list SigstoreExtension) (sct_index i : nat) : RekorResult (string * string) :=
  match extensions with
  | [] => Ok ("", "")
  | ext :: extensions =>
      encoded ← ok_or (se_der ext) "{e}";
      '(all_extensions, remaining) ← encode_extensions extensions sct_index (S i);
      Ok (encoded +:+ all_extensions, if (i =? sct_index)%nat then remaining else encoded +:+ remaining)
  end.
Definition extensions_der (content : string) : string := der_wrap "163" (der_wrap "048" content).
Definition precert_tbs (tbs : string) (extensions : list SigstoreExtension) (sct_index : nat) : RekorResult string :=
  body ← sct_der_value tbs "048";
  '(all_extensions, remaining) ← encode_extensions extensions sct_index 0;
  prefix ← ok_or (strip_suffix body (extensions_der all_extensions)) "invalid certificate extensions";
  Ok (der_wrap "048" (prefix +:+ extensions_der remaining)).

(** ** The timestamps of a certificate *)

(** The index of the one timestamp extension; poison and repetition are refused. *)
Fixpoint find_sct (extensions : list SigstoreExtension) (i : nat) (found : option nat) : RekorResult (option nat) :=
  match extensions with
  | [] => Ok found
  | ext :: extensions =>
      bail "final certificate contains CT poison" when se_oid ext =?= POISON_OID;
      if se_oid ext =?= SCT_OID then
        bail "invalid SCT extension" when is_some found || se_critical ext;
        find_sct extensions (S i) (Some i)
      else find_sct extensions (S i) found
  end.

Section Scts.
Context {prim : Primitives} {sig : SigstoreCrypto} {x509 : SigstoreX509}.

(** The loop over the list; every element shortens it by at least two bytes. *)
Fixpoint verify_scts (fuel : nat) (scts tbs issuer_hash : string) (logs : list Value) (verified : bool)
    : RekorResult bool :=
  match fuel, scts with
  | _, "" => Ok verified
  | O, _ => Err "out of fuel"
  | S fuel, _ =>
      '(sct, scts) ← vector16 scts;
      verify_scts fuel scts tbs issuer_hash logs (is_ok (verify_one sct tbs issuer_hash logs) || verified)
  end.

Definition verify_sct (cert_der issuer_der : string) (trusted_root : Value) : RekorResult unit :=
  cert ← ok_or (sigstore_certificate_from_der cert_der) "invalid SCT certificate: {e}";
  issuer ← ok_or (sigstore_certificate_from_der issuer_der) "invalid SCT issuer: {e}";
  issuer_spki ← ok_or (sc_spki_der issuer) "{e}";
  let issuer_hash := sha256 issuer_spki in
  extensions ← ok_or (sc_extensions cert) "missing SCT extension";
  found ← find_sct extensions 0 None;
  sct_index ← ok_or found "missing SCT extension";
  ext ← ok_or (extensions !! sct_index) "missing SCT extension";
  sct_list ← ok_or (octet_string_from_der (se_value ext)) "invalid SCT extension: {e}";
  '(scts, rest) ← vector16 sct_list;
  bail "invalid SCT list" when negb (is_empty rest) || is_empty scts;
  encoded_tbs ← ok_or (sc_tbs_der cert) "{e}";
  tbs ← precert_tbs encoded_tbs extensions sct_index;
  logs ← ok_or (value_get "ctlogs" trusted_root ≫= value_as_array) "missing trusted CT logs";
  verified ← verify_scts (String.length scts) scts tbs issuer_hash logs false;
  bail "no trusted SCT verified" when negb verified;
  Ok tt.
End Scts.

(** ** Encodings *)

Lemma code_of_N n : (n < 256)%N → code (ascii_of_N n) = n.
Proof. apply N_ascii_embedding. Qed.
Lemma bytes_app a b : bytes (a +:+ b) = (bytes a ++ bytes b)%list.
Proof. induction a as [|c a IH]; [done|]. rewrite append_cons. unfold bytes in *. cbn. by rewrite IH. Qed.
Lemma length_bytes_of s : length (bytes s) = String.length s.
Proof. unfold bytes. induction s as [|c s IH]; [done|]. cbn. by rewrite IH. Qed.
Lemma be_value_app a b : be_value (a +:+ b) = (be_value a * 256 ^ N.of_nat (String.length b) + be_value b)%N.
Proof.
  assert (∀ l acc, fold_left (λ acc c, (256 * acc + code c)%N) l acc
                   = (acc * 256 ^ N.of_nat (length l) + fold_left (λ acc c, (256 * acc + code c)%N) l 0)%N) as H.
  { induction l as [|c l IH]; intros acc; cbn [fold_left length]; [by rewrite N.pow_0_r; lia|].
    rewrite IH, (IH (256 * 0 + code c)%N), Nat2N.inj_succ, N.pow_succ_r'. lia. }
  unfold be_value. by rewrite bytes_app, fold_left_app, H, length_bytes_of.
Qed.
Lemma be_bytes_size n value : String.length (be_bytes n value) = n.
Proof. revert value. induction n as [|n IH]; intros value; [done|]. cbn [be_bytes]. rewrite append_length, IH. cbn. lia. Qed.
Lemma be_bytes_value n value : (value < 256 ^ N.of_nat n)%N → be_value (be_bytes n value) = value.
Proof.
  revert value. induction n as [|n IH]; intros value H; [cbn in *; lia|].
  rewrite Nat2N.inj_succ, N.pow_succ_r' in H. cbn [be_bytes]. rewrite be_value_app, IH.
  - change (N.of_nat (String.length (String (ascii_of_N (value mod 256)) ""))) with 1%N. rewrite N.pow_1_r.
    unfold be_value. cbn [bytes list_ascii_of_string fold_left]. rewrite code_of_N by (by apply N.mod_lt).
    pose proof (N.div_mod value 256). lia.
  - apply N.Div0.div_lt_upper_bound. lia.
Qed.

Lemma slice_suffix a b : slice (a +:+ b) (String.length a) (String.length a + String.length b) = b.
Proof. rewrite slice_app_r. by apply slice_all. Qed.
Lemma trim_zero_value s : be_value (trim_zero_bytes s) = be_value s.
Proof.
  induction s as [|c s IH]; [done|]. cbn [trim_zero_bytes].
  destruct (decide (c = "000"%char)) as [->|Hc].
  - rewrite IH. done.
  - by destruct c as [[] [] [] [] [] [] [] []].
Qed.
Lemma trim_zero_length s : (String.length (trim_zero_bytes s) ≤ String.length s)%nat.
Proof.
  induction s as [|c s IH]; [done|]. cbn [trim_zero_bytes].
  destruct c as [[] [] [] [] [] [] [] []]; cbn [String.length]; lia.
Qed.
Lemma length_bytes_spec len :
  (0 < len)%nat → (N.of_nat len < 256 ^ 8)%N →
  be_value (der_length_bytes len) = N.of_nat len ∧ (1 ≤ String.length (der_length_bytes len) ≤ 8)%nat.
Proof.
  intros H0 Hl. unfold der_length_bytes. pose proof (be_bytes_value 8 (N.of_nat len) Hl) as Hv.
  pose proof (trim_zero_value (be_bytes 8 (N.of_nat len))) as Ht. pose proof (trim_zero_length (be_bytes 8 (N.of_nat len))) as Hn.
  rewrite be_bytes_size in Hn. destruct (trim_zero_bytes _) as [|c s]; [rewrite Hv in Ht; cbn in Ht; lia|].
  split; [by rewrite Ht|]. cbn [String.length] in *. lia.
Qed.
Lemma long_form_count n :
  (1 ≤ n ≤ 8)%nat → (128 ≤ code (ascii_of_N (N.lor 128 (N.of_nat n))))%N
  ∧ N.to_nat (N.land (code (ascii_of_N (N.lor 128 (N.of_nat n)))) 127) = n.
Proof. intros H. do 9 (destruct n as [|n]; [vm_compute; try (split; [discriminate|done]); lia|]). lia. Qed.

(** DER values round-trip: the contents wrapped under a tag are what reading
    the value under that tag gives back, at every length a [u64] can hold. *)
Theorem der_roundtrip tag content :
  (N.of_nat (String.length content) < 256 ^ 8)%N → sct_der_value (der_wrap tag content) tag = Ok content.
Proof.
  intros Hl. unfold der_wrap. destruct (Nat.ltb_spec (String.length content) 128) as [Hs|Hs]; unfold sct_der_value.
  - rewrite bool_decide_true by done. cbn [negb]. rewrite code_of_N by lia.
    destruct (N.ltb_spec (N.of_nat (String.length content)) 128); [|lia]. cbn [mbind result_bind].
    set (c := ascii_of_N _). change (String tag (String c content)) with (String tag (String c "") +:+ content).
    rewrite append_length. cbn [String.length]. replace (2 + String.length content - 2)%nat with (String.length content) by lia.
    rewrite N.eqb_refl. cbn [negb]. f_equal.
    exact (slice_suffix (String tag (String c "")) content).
  - destruct (length_bytes_spec (String.length content)) as [Hv Hn]; [lia|done|].
    destruct (long_form_count _ Hn) as [Hc Hcount]. set (size := der_length_bytes (String.length content)) in *.
    set (c := ascii_of_N (N.lor 128 _)) in *. rewrite bool_decide_true by done. cbn [negb].
    destruct (N.ltb_spec (code c) 128); [lia|]. rewrite Hcount.
    assert (String.length (String tag (String c (size +:+ content))) = 2 + String.length size + String.length content)%nat as Hlen
      by (cbn; rewrite append_length; lia).
    assert (slice (String tag (String c (size +:+ content))) 2 (2 + String.length size) = size) as Hsz.
    { exact (slice_middle (String tag (String c "")) size content). }
    rewrite Hlen, Hsz, Hv. destruct (Nat.eqb_spec (String.length size) 0); [lia|].
    destruct (Nat.ltb_spec 8 (String.length size)); [lia|].
    destruct (Nat.ltb_spec (2 + String.length size + String.length content) (2 + String.length size)); [lia|]. cbn [orb mbind result_bind].
    change (Z.to_N u64_max) with 18446744073709551615%N. change (256 ^ 8)%N with 18446744073709551616%N in Hl.
    destruct (N.ltb_spec 18446744073709551615 (N.of_nat (String.length content))); [lia|]. cbn [mbind result_bind].
    replace (2 + String.length size + String.length content - (2 + String.length size))%nat with (String.length content) by lia.
    rewrite N.eqb_refl. cbn [negb]. f_equal.
    change (String tag (String c (size +:+ content))) with ((String tag (String c "") +:+ size) +:+ content).
    pose proof (slice_suffix (String tag (String c "") +:+ size) content) as H'. by rewrite append_length in H'.
Qed.

(** ** The loop over the list ends *)

Lemma take_bytes_Ok input len a rest :
  take_bytes input len = Ok (a, rest) → input = a +:+ rest ∧ String.length a = len.
Proof.
  unfold take_bytes. intros H. inv_ok. bools. split; [apply slice_cut; lia|].
  unfold slice. rewrite substring_length. lia.
Qed.
Lemma vector16_Ok input a rest :
  vector16 input = Ok (a, rest) →
  ∃ n, input = n +:+ a +:+ rest ∧ String.length n = 2%nat ∧ N.of_nat (String.length a) = be_value n.
Proof.
  unfold vector16. intros H. inv_ok. destruct x as [n input']. apply take_bytes_Ok in H as [-> Hl], H0 as [-> Hn].
  exists n. split; [done|]. split; [done|]. lia.
Qed.
Lemma take_bytes_error input len e : take_bytes input len = Err e → e = "truncated SCT".
Proof. unfold take_bytes. destruct (String.length input <? len)%nat; [by intros [= <-]|done]. Qed.
Lemma vector16_error input e : vector16 input = Err e → e = "truncated SCT".
Proof.
  unfold vector16. destruct (take_bytes input 2) as [[n rest]|] eqn:E; cbn; [by apply take_bytes_error|].
  intros [= <-]. by apply take_bytes_error in E.
Qed.

Section Sound.
Context {prim : Primitives} {sig : SigstoreCrypto} {x509 : SigstoreX509}.

(** The fuel given is enough: the loop ends, and fails only on a truncated list. *)
Lemma verify_scts_ends fuel scts tbs issuer_hash logs verified e :
  (String.length scts ≤ fuel)%nat → verify_scts fuel scts tbs issuer_hash logs verified = Err e → e = "truncated SCT".
Proof.
  revert scts verified. induction fuel as [|fuel IH]; intros scts verified Hl H; destruct scts as [|c scts]; try done; [cbn in Hl; lia|].
  cbn [verify_scts] in H. destruct (vector16 (String c scts)) as [[sct rest]|e'] eqn:E.
  - apply vector16_Ok in E as (n & E & Hn & _). apply (IH rest) in H; [done|].
    apply (f_equal String.length) in E. rewrite !append_length in E. cbn in E, Hl. lia.
  - apply vector16_error in E as ->. by injection H as <-.
Qed.

Lemma verify_scts_found fuel scts tbs issuer_hash logs :
  verify_scts fuel scts tbs issuer_hash logs false = Ok true → ∃ sct, verify_one sct tbs issuer_hash logs = Ok tt.
Proof.
  enough (∀ verified, verify_scts fuel scts tbs issuer_hash logs verified = Ok true →
            verified = true ∨ ∃ sct, verify_one sct tbs issuer_hash logs = Ok tt) as H.
  { intros E. by destruct (H false E). }
  revert scts. induction fuel as [|fuel IH]; intros [|c scts] verified H; try done; try (left; by injection H).
  cbn [verify_scts] in H. inv_ok. destruct x as [sct rest]. apply IH in H as [H|]; [|by right].
  apply orb_true_iff in H as [H|]; [|by left]. right. apply is_ok_inv in H as [[] H]. by exists sct.
Qed.

(** ** The precertificate is the certificate without its timestamps *)

Definition joined (parts : list string) : string := foldr String.append "" parts.

Lemma encode_extensions_Ok extensions sct_index i all_extensions remaining :
  encode_extensions extensions sct_index i = Ok (all_extensions, remaining) →
  ∃ ders, Forall2 (λ ext der, se_der ext = Some der) extensions ders ∧ all_extensions = joined ders
    ∧ remaining = joined (if (i <=? sct_index)%nat then delete (sct_index - i)%nat ders else ders).
Proof.
  revert i all_extensions remaining. induction extensions as [|ext extensions IH]; intros i a r H; cbn [encode_extensions] in H.
  - injection H as <- <-. exists []. split; [constructor|]. split; [done|]. by destruct (_ <=? _)%nat, (sct_index - i)%nat.
  - inv_ok. destruct x0 as [a' r']. inv_ok. destruct (IH (S i) a' r') as (ders & Hf & -> & ->); [done|].
    exists (x :: ders). split; [by constructor|]. split; [done|].
    destruct (Nat.eqb_spec i sct_index) as [->|Hne].
    + rewrite Nat.leb_refl, Nat.sub_diag. by destruct (Nat.leb_spec (S sct_index) sct_index); [lia|].
    + destruct (Nat.leb_spec i sct_index), (Nat.leb_spec (S i) sct_index); try lia; [|done].
      by replace (sct_index - i)%nat with (S (sct_index - S i)) by lia.
Qed.
Lemma strip_suffix_Some s p r : strip_suffix s p = Some r → s = r +:+ p.
Proof.
  unfold strip_suffix, ends_with. destruct (_ && _) eqn:E; [|done]. intros [= <-]. apply andb_true_iff in E as [E1 E2].
  apply Nat.leb_le in E1. apply bool_decide_eq_true in E2.
  rewrite (slice_cut (String.length s - String.length p) s) at 1 by lia. by rewrite E2.
Qed.

(** The certificate of which a precertificate is rebuilt: a prefix and the encoded
    extensions; the precertificate has the same without the one at the index. *)
Definition precertificate_of (tbs : string) (extensions : list SigstoreExtension) (index : nat) (precert : string) : Prop :=
  ∃ prefix ders, sct_der_value tbs "048" = Ok (prefix +:+ extensions_der (joined ders))
    ∧ Forall2 (λ ext der, se_der ext = Some der) extensions ders
    ∧ precert = der_wrap "048" (prefix +:+ extensions_der (joined (delete index ders))).
Lemma precert_tbs_Ok tbs extensions index precert :
  precert_tbs tbs extensions index = Ok precert → precertificate_of tbs extensions index precert.
Proof.
  unfold precert_tbs. intros H. inv_ok. destruct x0 as [a r]. inv_ok.
  match goal with E : strip_suffix _ _ = Some _ |- _ => apply strip_suffix_Some in E as -> end.
  match goal with E : encode_extensions _ _ _ = _ |- _ => apply encode_extensions_Ok in E as (ders & Hf & -> & ->) end.
  rewrite Nat.sub_0_r. eexists _, ders. by split_and!.
Qed.

Lemma find_sct_Ok extensions i found index :
  find_sct extensions i found = Ok (Some index) →
  Forall (λ ext, se_oid ext ≠ POISON_OID) extensions
  ∧ match found with
    | Some j => index = j ∧ Forall (λ ext, se_oid ext ≠ SCT_OID) extensions
    | None => ∃ ext, extensions !! (index - i)%nat = Some ext ∧ (i ≤ index)%nat ∧ se_oid ext = SCT_OID ∧ se_critical ext = false
                ∧ Forall (λ e, se_oid e ≠ SCT_OID) (delete (index - i)%nat extensions)
    end.
Proof.
  revert i found. induction extensions as [|ext extensions IH]; intros i found H; cbn [find_sct] in H.
  - injection H as ->. by split; [constructor|split; [|constructor]].
  - inv_ok. case_bool_decide as Ho.
    + inv_ok. apply IH in H as [Hp [-> Hs]]. bools. destruct_and?. destruct found; [done|]. split; [by constructor|].
      exists ext. rewrite Nat.sub_diag. by split_and!.
    + apply IH in H as [Hp H]. bools. split; [by constructor|]. destruct found as [j|].
      * destruct H as [-> Hs]. by split; [|constructor].
      * destruct H as (e & He & Hi & Hoid & Hc & Hs). exists e.
        replace (index - i)%nat with (S (index - S i)) by lia. split_and!; try done; [lia|]. by constructor.
Qed.

(** What an accepted certificate's timestamps rest on. *)
Definition sct_backed (cert_der issuer_der : string) (trusted_root : Value) : Prop :=
  ∃ cert issuer spki extensions index ext tbs precert logs log sct key,
    sigstore_certificate_from_der cert_der = Some cert ∧ sigstore_certificate_from_der issuer_der = Some issuer
    ∧ sc_spki_der issuer = Some spki ∧ sc_extensions cert = Some extensions ∧ sc_tbs_der cert = Some tbs
    ∧ extensions !! index = Some ext ∧ se_oid ext = SCT_OID ∧ Forall (λ e, se_oid e ≠ POISON_OID) extensions
    ∧ Forall (λ e, se_oid e ≠ SCT_OID) (delete index extensions)
    ∧ precertificate_of tbs extensions index precert
    ∧ (value_get "ctlogs" trusted_root ≫= value_as_array) = Some logs ∧ In log logs
    ∧ sct_log_key log (sct_log_id sct) (be_value (sct_timestamp sct)) = Some key
    ∧ ecdsa_p256_verify_asn1 key (signed_bytes sct precert (sha256 spki)) (sct_signature sct) = true.

Lemma verify_one_Ok sct tbs issuer_hash logs :
  verify_one sct tbs issuer_hash logs = Ok tt →
  ∃ parsed log key, In log logs ∧ sct_log_key log (sct_log_id parsed) (be_value (sct_timestamp parsed)) = Some key
    ∧ ecdsa_p256_verify_asn1 key (signed_bytes parsed tbs issuer_hash) (sct_signature parsed) = true.
Proof.
  unfold verify_one. intros H. inv_ok. destruct (existsb _ logs) eqn:E; [|done].
  apply existsb_exists in E as (log & Hin & E). destruct (sct_log_key _ _ _) as [key|] eqn:Ek; [|done].
  by exists x, log, key.
Qed.

Lemma verify_sct_Ok cert_der issuer_der trusted_root :
  verify_sct cert_der issuer_der trusted_root = Ok tt → sct_backed cert_der issuer_der trusted_root.
Proof.
  unfold verify_sct. intros H. inv_ok.
  match goal with x : string * string |- _ => destruct x as [scts rest] end. inv_ok. bools. subst.
  match goal with E : verify_scts _ _ _ _ _ _ = _ |- _ => apply verify_scts_found in E as [sct E]; apply verify_one_Ok in E as (parsed & log & key & Hin & Hk & Hv) end.
  match goal with E : find_sct _ _ _ = _ |- _ => apply find_sct_Ok in E as (Hp & ext & He & _ & Ho & _ & Hd) end.
  rewrite Nat.sub_0_r in He, Hd. match goal with E : precert_tbs _ _ _ = _ |- _ => apply precert_tbs_Ok in E end.
  simplify_eq. do 12 eexists. by split_and!.
Qed.
End Sound.

(** A log's signature over a timestamp is over one certificate: equal signed
    bytes have the same time, issuer, precertificate and extensions. *)
Theorem signed_bytes_unambiguous s s' tbs tbs' issuer issuer' :
  String.length (sct_timestamp s) = String.length (sct_timestamp s') → String.length issuer = String.length issuer' →
  (N.of_nat (String.length tbs) < 256 ^ 3)%N → (N.of_nat (String.length tbs') < 256 ^ 3)%N →
  (N.of_nat (String.length (sct_extensions s)) < 256 ^ 2)%N → (N.of_nat (String.length (sct_extensions s')) < 256 ^ 2)%N →
  signed_bytes s tbs issuer = signed_bytes s' tbs' issuer' →
  sct_timestamp s = sct_timestamp s' ∧ issuer = issuer' ∧ tbs = tbs' ∧ sct_extensions s = sct_extensions s'.
Proof.
  intros Ht Hi Hb Hb' He He' E. unfold signed_bytes in E.
  apply append_inj_length in E as [Et E]; [|cbn; by rewrite Ht].
  apply append_inj_length in E as [Ei E]; [|cbn; by rewrite Hi].
  apply append_inj_length in E as [En E]; [|by rewrite !be_bytes_size].
  apply (f_equal be_value) in En. rewrite !be_bytes_value in En by done.
  apply append_inj_length in E as [Eb E]; [|lia].
  apply append_inj_length in E as [_ E]; [|by rewrite !be_bytes_size].
  injection Et as Et. injection Ei as Ei. done.
Qed.
Lemma der_roundtrip_witness : sct_der_value (der_wrap "048" (zeros 200)) "048" = Ok (zeros 200).
Proof. apply (der_roundtrip "048" (zeros 200)). vm_compute. reflexivity. Defined.
