(* ===== verification/Sigstore.v ===== *)
(** * Sigstore provenance of a release

    sigstore.rs: a Sigstore bundle is verified offline and the SNP measurement of the
    release it attests is returned. The signing certificate chains to a trusted
    authority at the time the transparency log recorded, names a tagged workflow of
    the repository, and its key signed the statement, which names the artifact. *)

From Stdlib Require Import Ascii String ZArith Lia.
From stdpp Require Import base strings list numbers.
From S2P Require Import Prelude RustStr Errors Canonical JsonInjective Policy EvidenceDocuments QuoteInterfaces MerkleLog SigstoreRekor SigstoreSct.

Open Scope string_scope.

Definition sigstore_invalid (message : string) : AttestationError := InvalidEvidence ("Sigstore: " +:+ message).

Section Sigstore.
Context {prim : Primitives} {sig : SigstoreCrypto} {x509 : SigstoreX509}.

Definition base64_value (value : Value) : Result string :=
  s ← ok_or (value_as_str value) (sigstore_invalid "missing base64 field");
  ok_or (standard_decode s) (sigstore_invalid "invalid base64 field").
Definition sigstore_certificate (der : string) : Result SigstoreCertificate :=
  ok_or (sigstore_certificate_from_der der) (sigstore_invalid "invalid certificate: {e}").

(** ** Certificates *)

Definition check_time (cert : SigstoreCertificate) (time : Z) : Result unit :=
  bail (sigstore_invalid "certificate is not valid at integrated time")
    when (time <? 0)%Z || (time <? sc_not_before_secs cert)%Z || (sc_not_after_secs cert <? time)%Z;
  Ok tt.

Definition check_issued (cert issuer : SigstoreCertificate) : Result unit :=
  bail (sigstore_invalid "certificate issuer or signature algorithm mismatch")
    when negb (sc_issuer cert =?= sc_subject issuer)
         || negb (sc_signature_algorithm cert =?= sc_tbs_signature_algorithm cert)
         || negb (sc_signature_oid cert =?= "1.2.840.10045.4.3.3");
  key ← ok_or (sc_public_key issuer) (sigstore_invalid "invalid issuer public key");
  signature ← ok_or (sc_signature cert) (sigstore_invalid "invalid certificate signature");
  tbs ← ok_or (sc_tbs_der cert) (sigstore_invalid "invalid certificate encoding");
  bail (sigstore_invalid "certificate signature mismatch") when negb (ecdsa_p384_verify_asn1 key tbs signature);
  Ok tt.

(** The value of an extension, at most one of which may be there. *)
Fixpoint find_extension (oid : string) (found : option string) (extensions : list SigstoreExtension) : Result (option string) :=
  match extensions with
  | [] => Ok found
  | ext :: extensions =>
      if se_oid ext =?= oid then
        bail (sigstore_invalid "duplicate certificate extension") when is_some found;
        find_extension oid (Some (se_value ext)) extensions
      else find_extension oid found extensions
  end.
Definition extension (cert : SigstoreCertificate) (oid : string) : Result (option string) :=
  find_extension oid None (default [] (sc_extensions cert)).
Definition required_extension (cert : SigstoreCertificate) (oid : string) : Result string :=
  found ← extension cert oid;
  ok_or found (sigstore_invalid ("missing certificate extension " +:+ oid)).
Definition utf8_extension (value : string) : Result string :=
  ok_or (utf8_string_from_der value) (sigstore_invalid "invalid Fulcio UTF8 extension").

(** ** Identity *)

Definition repository_valid (repo : string) : bool :=
  match split_once "/" repo with
  | None => false
  | Some (owner, name) =>
      negb (is_empty owner) && negb (is_empty name)
      && all_bytes (λ b, is_ascii_alphanumeric b || existsb (λ c, b =?= c) ["-"; "_"; "."; "/"]%char) repo
      && negb (any_byte (λ b, b =?= "/"%char) name)
  end.

(** The loop over the extensions: none twice, none critical that is unknown. *)
Fixpoint check_extensions (seen : list string) (extensions : list SigstoreExtension) : Result unit :=
  match extensions with
  | [] => Ok tt
  | ext :: extensions =>
      bail (sigstore_invalid "duplicate certificate extension") when existsb (λ oid, oid =?= se_oid ext) seen;
      bail (sigstore_invalid "unrecognized critical certificate extension")
        when se_critical ext && negb (existsb (λ oid, se_oid ext =?= oid) ["2.5.29.15"; "2.5.29.17"; "2.5.29.19"; "2.5.29.37"]);
      check_extensions (se_oid ext :: seen) extensions
  end.

(** [refs/tags/] and a tag. *)
Definition is_tag_ref (reference : string) : bool :=
  match strip_prefix "refs/tags/" reference with Some tag => negb (is_empty tag) | None => false end.
Definition workflow_prefix (repo : string) : string := "https://github.com/" +:+ repo +:+ "/.github/workflows/".
Definition workflow_matches (repo uri : string) : bool :=
  match strip_prefix (workflow_prefix repo) uri ≫= split_once "@" with
  | Some (workflow, reference) => negb (is_empty workflow) && is_tag_ref reference
  | None => false
  end.

Definition OIDC_ISSUER : string := "https://token.actions.githubusercontent.com".
(** A claim the certificate may make raw under one extension and as UTF-8 under
    another, at least one of them. *)
Definition check_claim (cert : SigstoreCertificate) (raw_oid raw utf8_oid text mismatch missing : string) : Result unit :=
  first ← extension cert raw_oid;
  bail (sigstore_invalid mismatch) when match first with Some value => negb (value =?= raw) | None => false end;
  second ← extension cert utf8_oid;
  _ ← match second with
      | Some value => found ← utf8_extension value; bail (sigstore_invalid mismatch) when negb (found =?= text); Ok tt
      | None => Ok tt
      end;
  bail (sigstore_invalid missing) when negb (is_some first || is_some second);
  Ok tt.

Definition check_usage (cert : SigstoreCertificate) : Result unit :=
  eku_value ← required_extension cert "2.5.29.37";
  eku ← ok_or (extended_key_usage_from_der eku_value) (sigstore_invalid "invalid extended key usage");
  bail (sigstore_invalid "certificate is not valid for code signing")
    when negb (existsb (λ oid, oid =?= "1.3.6.1.5.5.7.3.3") eku);
  usage_value ← required_extension cert "2.5.29.15";
  digital_signature ← ok_or (key_usage_digital_signature usage_value) (sigstore_invalid "invalid key usage");
  bail (sigstore_invalid "certificate cannot sign") when negb (digital_signature : bool);
  constraints ← extension cert "2.5.29.19";
  match constraints with
  | None => Ok tt
  | Some value =>
      ca ← ok_or (basic_constraints_ca value) (sigstore_invalid "invalid basic constraints");
      bail (sigstore_invalid "signer is a CA") when (ca : bool);
      Ok tt
  end.

Definition check_identity (cert : SigstoreCertificate) (repo : string) : Result unit :=
  bail (sigstore_invalid "invalid repository") when negb (repository_valid repo);
  extensions ← ok_or (sc_extensions cert) (sigstore_invalid "missing certificate extensions");
  _ ← check_extensions [] extensions;
  _ ← check_usage cert;
  san_value ← required_extension cert "2.5.29.17";
  san ← ok_or (subject_alt_names_from_der san_value) (sigstore_invalid "invalid SAN");
  bail (sigstore_invalid "certificate workflow identity mismatch")
    when negb (existsb (λ name, match name with Some uri => workflow_matches repo uri | None => false end) san);
  _ ← check_claim cert "1.3.6.1.4.1.57264.1.1" OIDC_ISSUER "1.3.6.1.4.1.57264.1.8" OIDC_ISSUER
        "OIDC issuer mismatch" "missing OIDC issuer";
  _ ← check_claim cert "1.3.6.1.4.1.57264.1.5" repo "1.3.6.1.4.1.57264.1.12" ("https://github.com/" +:+ repo)
        "source repository mismatch" "missing source repository";
  ref_value ← required_extension cert "1.3.6.1.4.1.57264.1.14";
  reference ← utf8_extension ref_value;
  bail (sigstore_invalid "source repository ref is not a tag") when negb (is_tag_ref reference);
  Ok tt.

(** ** The chain *)

(** [certs.windows(2)], each issued by the next. *)
Fixpoint chain_issued (certs : list SigstoreCertificate) : bool :=
  match certs with
  | cert :: ((issuer :: _) as rest) => is_ok (check_issued cert issuer) && chain_issued rest
  | _ => true
  end.

(** One authority of the loop: its first certificate, nothing when the loop goes on. *)
Definition try_authority (leaf : SigstoreCertificate) (time : Z) (authority : Value) : Result (option string) :=
  start ← ok_or (v ← pointer2 "validFor" "start" authority; s ← value_as_str v; timestamp_ns s)
            (sigstore_invalid "invalid trusted CA validity start");
  finish ← match pointer2 "validFor" "end" authority with
           | None => Ok None
           | Some v => Some <$> ok_or (s ← value_as_str v; timestamp_ns s) (sigstore_invalid "invalid trusted CA validity end")
           end;
  bail (sigstore_invalid "invalid trusted CA validity range")
    when match finish with Some finish => (finish <? start)%Z | None => false end;
  let time_ns := (time * 1000000000)%Z in
  if (time_ns <? start)%Z || match finish with Some finish => (finish <? time_ns)%Z | None => false end then Ok None else
  chain ← ok_or (value_as_array (value_index "certificates" (value_index "certChain" authority)))
            (sigstore_invalid "invalid trusted CA chain");
  match chain with
  | [] => Ok None
  | _ =>
      ders ← collect_results (λ c, base64_value (value_index "rawBytes" c)) chain;
      certs ← collect_results sigstore_certificate ders;
      match ders, certs with
      | der :: _, issuer :: _ =>
          if is_ok (check_time leaf time) && is_ok (check_issued leaf issuer)
             && forallb (λ cert, is_ok (check_time cert time)) certs && chain_issued certs
          then Ok (Some der) else Ok None
      | _, _ => Ok None
      end
  end.
Fixpoint try_authorities (leaf : SigstoreCertificate) (time : Z) (authorities : list Value) : Result string :=
  match authorities with
  | [] => Err (sigstore_invalid "no trusted Fulcio certificate chain")
  | authority :: authorities =>
      found ← try_authority leaf time authority;
      match found with Some der => Ok der | None => try_authorities leaf time authorities end
  end.
Definition verify_chain (leaf : SigstoreCertificate) (time : Z) (root : Value) : Result string :=
  authorities ← ok_or (value_as_array (value_index "certificateAuthorities" root)) (sigstore_invalid "invalid trusted root");
  bail (sigstore_invalid "invalid integrated time") when (time <? 0)%Z;
  try_authorities leaf time authorities.

(** ** The bundle *)

(** [format!("DSSEv1 {} {} {} ", ..)] and the payload. *)
Definition dsse_pae (payload_type payload : string) : string :=
  "DSSEv1 " +:+ dec_string (Z.of_nat (String.length payload_type)) +:+ " " +:+ payload_type +:+ " "
  +:+ dec_string (Z.of_nat (String.length payload)) +:+ " " +:+ payload.

Definition is_sha256_hex (n : nat) (s : string) : bool := (String.length s =? n)%nat && all_bytes is_ascii_hexdigit s.

(** What the signed statement says of the release. *)
Definition release_measurement (statement : Value) (digest : string) : Result string :=
  bail (sigstore_invalid "unsupported attestation statement")
    when negb (get_str "_type" statement =?= Some "https://in-toto.io/Statement/v1")
         || negb (get_str "predicateType" statement =?= Some "https://tinfoil.sh/predicate/snp-tdx-multiplatform/v1");
  subjects ← ok_or (value_as_array (value_index "subject" statement)) (sigstore_invalid "missing subjects");
  bail (sigstore_invalid "artifact digest mismatch")
    when negb (existsb (λ subject, match get_str "sha256" (value_index "digest" subject) with
                                   | Some v => eq_ignore_ascii_case v digest | None => false end) subjects);
  let predicate := value_index "predicate" statement in
  bail (sigstore_invalid "invalid TDX measurement")
    when negb (forallb (λ name, is_some (get_str name (value_index "tdx_measurement" predicate))) ["rtmr1"; "rtmr2"]);
  measurement ← ok_or (get_str "snp_measurement" predicate) (sigstore_invalid "missing SNP measurement");
  bail (sigstore_invalid "invalid SNP measurement") when negb (is_sha256_hex 96 measurement);
  Ok (to_ascii_lowercase measurement).

(** [root] is the trusted root the crate carries. *)
Definition verify_tinfoil_sigstore_bundle (root bundle : Value) (repo digest : string) : Result string :=
  bail (sigstore_invalid "unsupported bundle media type")
    when negb (get_str "mediaType" bundle =?= Some "application/vnd.dev.sigstore.bundle.v0.3+json");
  bail (sigstore_invalid "invalid artifact SHA-256") when negb (is_sha256_hex 64 digest);
  let envelope := value_index "dsseEnvelope" bundle in
  let material := value_index "verificationMaterial" bundle in
  leaf_der ← base64_value (value_index "rawBytes" (value_index "certificate" material));
  leaf ← sigstore_certificate leaf_der;
  entries ← ok_or (value_as_array (value_index "tlogEntries" material)) (sigstore_invalid "missing transparency log");
  entry ← ok_or (single entries) (sigstore_invalid "expected exactly one transparency entry");
  time ← map_err sigstore_invalid (verify_rekor entry envelope leaf_der root);
  issuer_der ← verify_chain leaf time root;
  _ ← check_identity leaf repo;
  _ ← map_err sigstore_invalid (verify_sct leaf_der issuer_der root);
  payload_type ← ok_or (get_str "payloadType" envelope) (sigstore_invalid "missing DSSE payload type");
  bail (sigstore_invalid "unexpected DSSE payload type") when negb (payload_type =?= "application/vnd.in-toto+json");
  payload ← base64_value (value_index "payload" envelope);
  signatures ← ok_or (value_as_array (value_index "signatures" envelope)) (sigstore_invalid "missing DSSE signature");
  signature ← ok_or (single signatures) (sigstore_invalid "expected exactly one DSSE signature");
  signature ← base64_value (value_index "sig" signature);
  key ← ok_or (sc_public_key leaf) (sigstore_invalid "invalid signer public key");
  bail (sigstore_invalid "invalid DSSE signature")
    when negb (ecdsa_p256_verify_asn1 key (dsse_pae payload_type payload) signature);
  statement ← ok_or (sig_value_from_slice payload) EvidenceDocuments.json_error;
  release_measurement statement digest.

Definition verify_tinfoil_release_measurement (measurement : string) (quote : VerifiedTinfoilQuote) : Result unit :=
  bail (sigstore_invalid "release measurement requires an SNP quote")
    when negb (eh_cpu (vq_hardware quote) =?= SevSnp)
         || negb (vq_attestation_format quote =?= TINFOIL_SEV_SNP_GUEST_V2_FORMAT);
  bail (sigstore_invalid "invalid SNP release measurement") when negb (is_sha256_hex 96 measurement);
  actual ← ok_or (strip_prefix "sev-snp:measurement:" (vq_tee_measurement quote)) (sigstore_invalid "invalid quote measurement");
  bail (sigstore_invalid "quote measurement differs from release") when negb (eq_ignore_ascii_case actual measurement);
  Ok tt.
End Sigstore.

(** ** What an accepted bundle rests on *)

Section Accepted.
Context {prim : Primitives} {sig : SigstoreCrypto} {x509 : SigstoreX509} {laws : Sha256Laws}.
















(** The check of a quote against a release: an SNP quote with that measurement. *)
Lemma release_quote_iff measurement quote :
  verify_tinfoil_release_measurement measurement quote = Ok tt ↔
  eh_cpu (vq_hardware quote) = SevSnp ∧ vq_attestation_format quote = TINFOIL_SEV_SNP_GUEST_V2_FORMAT
  ∧ is_sha256_hex 96 measurement = true
  ∧ ∃ actual, vq_tee_measurement quote = "sev-snp:measurement:" +:+ actual ∧ to_ascii_lowercase actual = to_ascii_lowercase measurement.
Proof.
  unfold verify_tinfoil_release_measurement, eq_ignore_ascii_case. split.
  - intros H. inv_ok. bools. destruct_and?. split_and!; try done. eexists. split; [by apply strip_prefix_Some|done].
  - intros (-> & -> & -> & actual & -> & E). rewrite !bool_decide_true, strip_prefix_app by done. cbn [negb orb ok_or mbind result_bind].
    by rewrite bool_decide_true.
Qed.
End Accepted.

(** ** A concrete bundle *)

Definition ct_key : string := P256 +:+ zeros 65.
Definition ct_id : string := sha256 ct_key.
Definition vector (s : string) : string := be_bytes 2 (N.of_nat (String.length s)) +:+ s.
Definition sample_sct : string :=
  String "000" ct_id +:+ be_bytes 8 0 +:+ vector "" +:+ String "004" (String "003" (vector "s")).
Definition sample_repo : string := "owner/name".
Definition sample_extension (oid value : string) : SigstoreExtension :=
  {| se_oid := oid; se_critical := false; se_value := value; se_der := Some oid |}.
Definition leaf_extensions (reference : string) : list SigstoreExtension :=
  [sample_extension "2.5.29.17" (workflow_prefix sample_repo +:+ "build.yml@" +:+ reference);
   sample_extension "2.5.29.37" "1.3.6.1.5.5.7.3.3"; sample_extension "2.5.29.15" "";
   sample_extension "1.3.6.1.4.1.57264.1.1" OIDC_ISSUER; sample_extension "1.3.6.1.4.1.57264.1.5" sample_repo;
   sample_extension "1.3.6.1.4.1.57264.1.14" reference; sample_extension SCT_OID (vector (vector sample_sct))].
Definition sample_sigstore_certificate (issuer subject : string) (extensions : list SigstoreExtension) : SigstoreCertificate := {|
  sc_issuer := issuer; sc_subject := subject; sc_signature_algorithm := "a"; sc_tbs_signature_algorithm := "a";
  sc_signature_oid := "1.2.840.10045.4.3.3"; sc_not_before_secs := 0; sc_not_after_secs := 10;
  sc_spki_der := Some "spki"; sc_public_key := Some "key"; sc_signature := Some "s";
  sc_tbs_der := Some (der_wrap "048" ("prefix" +:+ extensions_der (joined (map se_oid extensions))));
  sc_extensions := Some extensions |}.
#[local] Instance sample_sigstore_x509 : SigstoreX509 := {|
  sigstore_certificate_from_der der :=
    if der =?= "leaf" then Some (sample_sigstore_certificate "ca" "leaf" (leaf_extensions "refs/tags/v1"))
    else if der =?= "ca" then Some (sample_sigstore_certificate "ca" "ca" []) else None;
  octet_string_from_der := Some; utf8_string_from_der := Some;
  extended_key_usage_from_der value := Some [value]; key_usage_digital_signature _ := Some true;
  basic_constraints_ca _ := Some false; subject_alt_names_from_der value := Some [Some value] |}.
Definition sample_period : Value := strings [("start", "1970-01-01T00:00:00Z")].
Definition sample_sigstore_root : Value :=
  VObject (sample_trusted_logs ++
    [("certificateAuthorities", VArray [VObject
        [("validFor", sample_period); ("certChain", VObject [("certificates", VArray [strings [("rawBytes", "ca")]])])]]);
     ("ctlogs", VArray [VObject
        [("hashAlgorithm", VString "SHA2_256"); ("logId", strings [("keyId", ct_id)]);
         ("publicKey", VObject [("rawBytes", VString ct_key); ("keyDetails", VString "PKIX_ECDSA_P256_SHA_256");
                                ("validFor", sample_period)])]])]).
Definition sample_bundle : Value :=
  VObject [("mediaType", VString "application/vnd.dev.sigstore.bundle.v0.3+json"); ("dsseEnvelope", sample_envelope);
    ("verificationMaterial", VObject [("certificate", strings [("rawBytes", "leaf")]); ("tlogEntries", VArray [sample_entry])])].

(** The bundle yields the measurement in lower case; another digest, another
    repository and a branch instead of a tag are refused. *)
Example sample_bundle_verified :
  verify_tinfoil_sigstore_bundle sample_sigstore_root sample_bundle sample_repo (zeros 64) = Ok (zeros 95 +:+ "a")
  ∧ verify_tinfoil_sigstore_bundle sample_sigstore_root sample_bundle sample_repo (zeros 63 +:+ "1")
    = Err (sigstore_invalid "artifact digest mismatch")
  ∧ verify_tinfoil_sigstore_bundle sample_sigstore_root sample_bundle "owner/other" (zeros 64)
    = Err (sigstore_invalid "certificate workflow identity mismatch")
  ∧ check_identity (sample_sigstore_certificate "ca" "leaf" (leaf_extensions "refs/heads/main")) sample_repo
    = Err (sigstore_invalid "certificate workflow identity mismatch").
Proof. by vm_compute. Qed.

