(* ===== verification/ChutesVerifier.v ===== *)
(** * The Chutes end-to-end family

    [verify_chutes_e2ee_evidence_with_gpu_attestation_verifier] of verifier.rs:
    report data that binds a nonce and an end-to-end key, compared with the
    signed references, and an NVIDIA attestation checked by the GPU verifier. *)

From Stdlib Require Import Ascii String ZArith Lia.
From stdpp Require Import base gmap strings list numbers.
From S2P Require Import Prelude RustStr Errors Collections Timestamps Canonical JsonInjective Policy Verdict Evidence Bindings Signature ReferenceValues VerifierCore VerifierSound EvidenceDocuments QuoteInterfaces.

Open Scope string_scope.

Section Chutes.
Context {prim : Primitives} {readers : EvidenceReaders}.

(** ** The GPU requirement

    These helpers fail with the text of the check's error. *)

Definition verify_chutes_nvidia_gpu_attestation (gpu : GpuAttestationVerifier) (e : ChutesE2eeEvidence)
    (provider route_id : string) : result string unit :=
  gpu_attestation ← ok_or (ce_gpu_attestation e) "NVIDIA GPU attestation evidence is missing";
  bail ("unsupported NVIDIA GPU attestation schema " +:+ ng_schema gpu_attestation)
    when negb (ng_schema gpu_attestation =?= NVIDIA_EVIDENCE_SCHEMA);
  bail "NVIDIA GPU attestation nonce does not match Chutes E2EE nonce"
    when negb (ng_nonce gpu_attestation =?= ce_nonce e);
  verified ← map_err (λ error, "NVIDIA GPU attestation verification failed: " +:+ error_to_string error)
               (verify_nvidia_gpu_attestation
                  {| nr_evidence := gpu_attestation; nr_expected_nonce := ce_nonce e;
                     nr_expected_tee := NvidiaCc; nr_provider := provider; nr_route_id := route_id |});
  bail "NVIDIA GPU attestation verified a different GPU TEE kind" when negb (vg_tee verified =?= NvidiaCc);
  bail "NVIDIA GPU attestation verified a different nonce" when negb (vg_nonce verified =?= ce_nonce e);
  bail "NVIDIA GPU attestation format changed during verification"
    when negb (vg_attestation_format verified =?= ng_attestation_format gpu_attestation);
  Ok tt.

Definition verify_chutes_gpu_tee (gpu : GpuAttestationVerifier) (e : ChutesE2eeEvidence)
    (allowed : list GpuTeeKind) (provider route_id : string) : result string unit :=
  actual ← ok_or (eh_gpu (ce_hardware e)) "GPU TEE kind is not present";
  bail "GPU TEE kind is not accepted by policy" when negb (existsb (λ candidate, candidate =?= actual) allowed);
  match actual with
  | NvidiaCc => verify_chutes_nvidia_gpu_attestation gpu e provider route_id
  end.

(** [gpu_check.err().unwrap_or_else(...)]. *)
Definition gpu_check_message (gpu_check : result string unit) : string :=
  match gpu_check with Err message => message | Ok _ => "GPU TEE attestation verified" end.

Definition push_chutes_gpu (gpu : GpuAttestationVerifier) (request : VerificationRequest)
    (e : ChutesE2eeEvidence) (a : Audit) : Audit * bool :=
  match hw_gpu (hardware (rq_policy request)) with
  | GpuNotRequired => (insert_check "gpu_tee" NotApplicable a, true)
  | GpuOneOf allowed =>
      let gpu_check := verify_chutes_gpu_tee gpu e allowed (rt_provider (rq_route request))
                         (rt_route_id (rq_route request)) in
      (push_check "gpu_tee" (is_ok gpu_check) (gpu_check_message gpu_check) a, is_ok gpu_check)
  end.

(** ** The audit *)

(** Route metadata and hardware: the audit, [hardware_verified], [gpu_verified]. *)
Definition chutes_hardware_audit (gpu : GpuAttestationVerifier) (request : VerificationRequest)
    (e : ChutesE2eeEvidence) (provider : ProviderReference) (reference : RouteReference)
    : Audit * bool * bool :=
  let requirement := hw_cpu (hardware (rq_policy request)) in
  let a := push_route_metadata (ce_provider e) (ce_route_id e) (ce_evidence_family e) (rq_route request)
             reference no_checks in
  let '(a, hardware_verified) :=
    push_claimed_cpu requirement
      (cpu_reference_match requirement (eh_cpu (ce_hardware e)) (ce_tee_measurement e) provider reference)
      "chutes_e2ee evidence does not verify the TDX quote signature, so a required CPU TEE cannot be satisfied by this evidence family"
      a in
  let '(a, gpu_verified) := push_chutes_gpu gpu request e a in
  (insert_check "tls_binding" NotApplicable a, hardware_verified, gpu_verified).

Definition chutes_report_data_binding (e : ChutesE2eeEvidence) : ChutesE2eeReportDataBinding :=
  verify_chutes_e2ee_report_data_binding (ce_report_data e) (ce_nonce e) (ce_e2e_public_key e).
Definition chutes_freshness_nonce_matches (request : VerificationRequest) (e : ChutesE2eeEvidence) : bool :=
  freshness_nonce_matches_policy (rq_policy request) (rq_expected_freshness_nonce request) (ce_nonce e).
Definition chutes_nonce_binding_verified (request : VerificationRequest) (e : ChutesE2eeEvidence) : bool :=
  (chutes_report_data_binding e =?= E2eeVerified) && chutes_freshness_nonce_matches request e.

Definition chutes_channel_verified (request : VerificationRequest) (e : ChutesE2eeEvidence)
    (reference : RouteReference) : bool :=
  let requirement := channel_binding_requirement (rq_policy request) in
  channel_satisfies (rt_channel_binding_kind (rq_route request)) requirement
  && (rr_channel_binding_kind reference =?= rt_channel_binding_kind (rq_route request))
  && channel_satisfies (rr_channel_binding_kind reference) requirement
  && chutes_nonce_binding_verified request e
  && (sha256_digest (ce_e2e_public_key e) =?= rr_e2ee_public_key_digest reference).

Definition chutes_e2ee_binding_error (binding : ChutesE2eeReportDataBinding) : string :=
  match binding with
  | E2eeVerified => "Chutes E2EE report data is bound to nonce and public key"
  | E2eeInvalidNonce => "Chutes E2EE nonce is not canonical hex"
  | E2eeMissingPublicKey => "Chutes E2EE public key is missing"
  | E2eeReportDataMismatch => "Chutes E2EE report data does not bind nonce and public key"
  end.

(** The end-to-end key and its nonce. *)
Definition chutes_channel_audit (request : VerificationRequest) (e : ChutesE2eeEvidence)
    (reference : RouteReference) (a : Audit) : Audit :=
  let a := push_channel_key (channel_binding_requirement (rq_policy request))
             (chutes_channel_verified request e reference)
             "Chutes E2EE key is not bound to report data and reference values" a in
  push_check "nonce_binding" (chutes_nonce_binding_verified request e)
    (if chutes_freshness_nonce_matches request e
     then chutes_e2ee_binding_error (chutes_report_data_binding e)
     else "Chutes E2EE nonce does not match expected per-request freshness nonce") a.

(** Request and response data. *)
Definition chutes_data_audit (policy : VerificationPolicy) (channel_verified : bool) (a : Audit) : Audit :=
  push_data_checks policy (bound_or_not channel_verified EncryptedBound)
    (bound_or_not channel_verified EncryptedBound) (integrity_or_not channel_verified)
    channel_verified channel_verified a.

Definition chutes_model_verified (request : VerificationRequest) (e : ChutesE2eeEvidence)
    (reference : RouteReference) : bool :=
  (ce_attested_model e =?= Some (rt_canonical_model (rq_route request)))
  && (rr_canonical_model reference =?= rt_canonical_model (rq_route request)).

(** Model binding, provenance and freshness. *)
Definition chutes_closing_audit (request : VerificationRequest) (e : ChutesE2eeEvidence)
    (reference : RouteReference) (a : Audit) : Audit * ModelBindingResult :=
  let policy := rq_policy request in
  let '(a, model) := push_model_binding_check (model_binding_requirement policy)
                       (is_some (ce_attested_model e)) (chutes_model_verified request e reference) a in
  let a := push_provenance_checks policy
             (ce_workload_image_digest e =?= rr_workload_image_digest reference)
             (artifacts_present (rr_model_artifacts reference) (ce_model_artifacts e)) a in
  (push_final_checks policy a, model).

Definition chutes_audit (gpu : GpuAttestationVerifier) (request : VerificationRequest)
    (e : ChutesE2eeEvidence) (provider : ProviderReference) (reference : RouteReference)
    : Audit * bool * bool * ModelBindingResult :=
  let '(a, hardware_verified, gpu_verified) := chutes_hardware_audit gpu request e provider reference in
  let a := chutes_channel_audit request e reference a in
  let a := chutes_data_audit (rq_policy request) (chutes_channel_verified request e reference) a in
  let '(a, model) := chutes_closing_audit request e reference a in
  (a, hardware_verified, gpu_verified, model).

(** The fields of the Chutes verdict. *)
Definition chutes_parts (gpu : GpuAttestationVerifier) (request : VerificationRequest)
    (e : ChutesE2eeEvidence) (provider : ProviderReference) (reference : RouteReference)
    (policy_digest evidence_digest : string) (validity : ComputedValidityBounds) : VerdictParts :=
  let '(audit, hardware_verified, gpu_verified, model) := chutes_audit gpu request e provider reference in
  let channel_verified := chutes_channel_verified request e reference in {|
    vp_audit := audit;
    vp_tee_platform := Some (cpu_policy_str (eh_cpu (ce_hardware e)));
    vp_proved := hardware_verified && gpu_verified && channel_verified;
    vp_trust_tier := if channel_verified then AppE2ee else if hardware_verified then TeeOnly else TierNone;
    vp_model_binding_result := model;
    vp_request_channel_bound := channel_verified;
    vp_request_confidentiality_result := bound_or_not channel_verified EncryptedBound;
    vp_response_confidentiality_result := bound_or_not channel_verified EncryptedBound;
    vp_response_channel_bound := channel_verified;
    vp_response_integrity_result := integrity_or_not channel_verified;
    vp_policy_digest := policy_digest;
    vp_raw_evidence_digest := sha256_digest (rq_raw_evidence request);
    vp_evidence_digest := evidence_digest;
    vp_issued_at := ce_issued_at e;
    vp_validity := validity;
    vp_evidence_until := cv_expires_at validity;
    vp_artifacts := {|
      va_source_url := Some (rt_evidence_endpoint (rq_route request));
      va_tee_measurement := Some (ce_tee_measurement e);
      va_report_data := Some (ce_report_data e);
      va_signing_public_key := Some (sha256_digest (ce_e2e_public_key e));
      va_e2ee_capability := Some "chutes-e2ee";
      va_model_manifest := ce_attested_model e;
      va_model_artifacts := ce_model_artifacts e |} |}.

Definition verify_chutes_e2ee_evidence_with_gpu_attestation_verifier (gpu : GpuAttestationVerifier)
    (now : Z) (request : VerificationRequest) : Result AttestationVerdict :=
  e ← ok_or (chutes_e2ee_from_slice (rq_raw_evidence request)) json_error;
  bail (InvalidEvidence "unsupported schema {}") when negb (ce_schema e =?= CHUTES_E2EE_SCHEMA);
  '(provider, reference) ← find_references request;
  evidence_digest ← canonical_digest (chutes_e2ee_value e);
  policy_digest ← policy_digest (rq_policy request);
  validity ← compute_validity_bounds now (ce_issued_at e) (verdict_ttl_millis (rq_policy request))
               (Some (verdict_ttl_millis (rq_policy request)))
               (validity_candidates (ce_expires_at_epoch_ms e) (ce_expires_at e) reference
                  (rq_reference_values request));
  finish_verdict request (chutes_parts gpu request e provider reference policy_digest evidence_digest validity).

Definition verify_chutes_e2ee_evidence (now : Z) (request : VerificationRequest) : Result AttestationVerdict :=
  verify_chutes_e2ee_evidence_with_gpu_attestation_verifier FailClosedGpuAttestationVerifier now request.

(** ** Specification *)

(** What it takes to meet a GPU requirement: a kind the policy accepts, and an
    attestation of the right schema for the evidence's nonce, which the GPU
    verifier confirms for that nonce and format. *)
Record gpu_attested (gpu : GpuAttestationVerifier) (e : ChutesE2eeEvidence) (allowed : list GpuTeeKind)
    (provider route_id : string) (attestation : NvidiaGpuAttestationEvidence) : Prop := {
  ga_kind : eh_gpu (ce_hardware e) = Some NvidiaCc;
  ga_allowed : NvidiaCc ∈ allowed;
  ga_present : ce_gpu_attestation e = Some attestation;
  ga_schema : ng_schema attestation = NVIDIA_EVIDENCE_SCHEMA;
  ga_nonce : ng_nonce attestation = ce_nonce e;
  ga_verified : ∃ verified,
    verify_nvidia_gpu_attestation
      {| nr_evidence := attestation; nr_expected_nonce := ce_nonce e; nr_expected_tee := NvidiaCc;
         nr_provider := provider; nr_route_id := route_id |} = Ok verified
    ∧ vg_tee verified = NvidiaCc ∧ vg_nonce verified = ce_nonce e
    ∧ vg_attestation_format verified = ng_attestation_format attestation;
}.

Definition gpu_requirement_met (gpu : GpuAttestationVerifier) (request : VerificationRequest)
    (e : ChutesE2eeEvidence) : Prop :=
  match hw_gpu (hardware (rq_policy request)) with
  | GpuNotRequired => True
  | GpuOneOf allowed => ∃ attestation,
      gpu_attested gpu e allowed (rt_provider (rq_route request)) (rt_route_id (rq_route request)) attestation
  end.

Record chutes_satisfies (gpu : GpuAttestationVerifier) (request : VerificationRequest)
    (e : ChutesE2eeEvidence) (reference : RouteReference) : Prop := {
  cs_route : route_metadata_matches (ce_provider e) (ce_route_id e) (ce_evidence_family e)
               (rq_route request) reference = true;
  cs_no_cpu : hw_cpu (hardware (rq_policy request)) = CpuNotRequired;
  cs_gpu : gpu_requirement_met gpu request e;
  cs_kind : channel_satisfies (rt_channel_binding_kind (rq_route request))
              (channel_binding_requirement (rq_policy request)) = true
            ∧ rr_channel_binding_kind reference = rt_channel_binding_kind (rq_route request);
  cs_report_data : verify_chutes_e2ee_report_data_binding (ce_report_data e) (ce_nonce e)
                     (ce_e2e_public_key e) = E2eeVerified;
  cs_nonce : match rq_expected_freshness_nonce request with
             | Some expected => ce_nonce e = expected
             | None => freshness (rq_policy request) ≠ PerRequest
             end;
  cs_key : sha256_digest (ce_e2e_public_key e) = rr_e2ee_public_key_digest reference;
  cs_no_receipt : no_receipt_demanded (rq_policy request) = true;
  cs_model : model_requirement_met (model_binding_requirement (rq_policy request))
               (is_some (ce_attested_model e)) (chutes_model_verified request e reference) = true;
  cs_provenance : provenance_required (provenance (rq_policy request)) = true →
    ce_workload_image_digest e = rr_workload_image_digest reference
    ∧ artifacts_present (rr_model_artifacts reference) (ce_model_artifacts e) = true;
  cs_unsupported : unsupported_provenance (provenance (rq_policy request)) = false;
}.

(** ** The audit blocks exactly when the specification fails *)

Lemma chutes_gpu_Ok gpu e allowed provider route_id :
  verify_chutes_gpu_tee gpu e allowed provider route_id = Ok tt
  ↔ ∃ attestation, gpu_attested gpu e allowed provider route_id attestation.
Proof.
  unfold verify_chutes_gpu_tee, verify_chutes_nvidia_gpu_attestation. split.
  - intros H. inv_ok. match goal with k : GpuTeeKind |- _ => destruct k end. inv_ok. bools.
    eexists. constructor; [done| |done..|eauto].
    match goal with H : existsb _ _ = true |- _ => apply existsb_exists in H as (k & Hk & ->%bool_decide_eq_true) end.
    by apply list_elem_of_In.
  - intros (a & [Hk Ha Hp Hs Hn (v & Hv & Ht & Hvn & Hf)]). rewrite Hk, ok_or_some, ok_bind.
    assert (existsb (λ candidate, candidate =?= NvidiaCc) allowed = true) as ->.
    { apply existsb_exists. exists NvidiaCc. split; [by apply list_elem_of_In|done]. }
    cbn [negb]. rewrite Hp, ok_or_some, ok_bind, Hs, Hn, !bool_decide_true by done. cbn [negb].
    rewrite Hv. cbn [map_err]. rewrite ok_bind. by rewrite !bool_decide_true by done.
Qed.

Lemma blocked_chutes_gpu gpu request e a :
  fresh "gpu_tee" a →
  blocked (rq_policy request) (push_chutes_gpu gpu request e a).1 = false
  ↔ gpu_requirement_met gpu request e ∧ blocked (rq_policy request) a = false.
Proof.
  intros H. unfold push_chutes_gpu, gpu_requirement_met.
  destruct (hw_gpu (hardware (rq_policy request))) as [|allowed]; cbn [fst].
  - rewrite blocked_na by done. tauto.
  - rewrite blocked_push, orb_false_iff, negb_false_iff, <-chutes_gpu_Ok by done.
    destruct (verify_chutes_gpu_tee _ _ _ _ _) as [[]|]; cbn [is_ok]; intuition congruence.
Qed.
Lemma lookup_chutes_gpu name gpu request e a :
  contains ["gpu_tee"] name = false →
  checks (push_chutes_gpu gpu request e a).1 !! name = checks a !! name.
Proof.
  intros H. cbn in H. bools. unfold push_chutes_gpu.
  destruct (hw_gpu (hardware (rq_policy request))); cbn [fst]; autorewrite with audit_lookup;
    by rewrite !bool_decide_false by intuition congruence.
Qed.

Lemma chutes_audit_eq gpu request e provider reference :
  (chutes_audit gpu request e provider reference).1.1.1 =
    let policy := rq_policy request in
    let requirement := hw_cpu (hardware policy) in
    let a := push_route_metadata (ce_provider e) (ce_route_id e) (ce_evidence_family e) (rq_route request)
               reference no_checks in
    let a := (push_claimed_cpu requirement
      (cpu_reference_match requirement (eh_cpu (ce_hardware e)) (ce_tee_measurement e) provider reference)
      "chutes_e2ee evidence does not verify the TDX quote signature, so a required CPU TEE cannot be satisfied by this evidence family"
      a).1 in
    let a := insert_check "tls_binding" NotApplicable (push_chutes_gpu gpu request e a).1 in
    let a := chutes_data_audit policy (chutes_channel_verified request e reference)
               (chutes_channel_audit request e reference a) in
    let a := (push_model_binding_check (model_binding_requirement policy)
                (is_some (ce_attested_model e)) (chutes_model_verified request e reference) a).1 in
    push_final_checks policy (push_provenance_checks policy
      (ce_workload_image_digest e =?= rr_workload_image_digest reference)
      (artifacts_present (rr_model_artifacts reference) (ce_model_artifacts e)) a).
Proof.
  unfold chutes_audit, chutes_hardware_audit, chutes_closing_audit.
  destruct (push_claimed_cpu _ _ _ _) as [a h]. cbn [fst snd].
  destruct (push_chutes_gpu _ _ _ _) as [b g]. cbn [fst snd].
  by destruct (push_model_binding_check _ _ _ _) as [c m].
Qed.

Ltac chutes_step := first [audit_step | rewrite lookup_chutes_gpu by reflexivity].
Ltac chutes_fresh :=
  unfold all_fresh, fresh; repeat (apply List.Forall_cons; [|]); try apply List.Forall_nil;
  repeat chutes_step; try reflexivity.

Lemma nonce_matches_iff policy expected nonce :
  freshness_nonce_matches_policy policy expected nonce = true ↔
    match expected with Some n => nonce = n | None => freshness policy ≠ PerRequest end.
Proof.
  unfold freshness_nonce_matches_policy. destruct expected.
  - rewrite bool_decide_eq_true. intuition congruence.
  - rewrite negb_true_iff, bool_decide_eq_false. done.
Qed.

(** The channel verdict, spelled out. *)
Lemma chutes_channel_iff request e reference :
  chutes_channel_verified request e reference = true ↔
    (channel_satisfies (rt_channel_binding_kind (rq_route request))
       (channel_binding_requirement (rq_policy request)) = true
     ∧ rr_channel_binding_kind reference = rt_channel_binding_kind (rq_route request))
    ∧ (verify_chutes_e2ee_report_data_binding (ce_report_data e) (ce_nonce e) (ce_e2e_public_key e) = E2eeVerified
       ∧ freshness_nonce_matches_policy (rq_policy request) (rq_expected_freshness_nonce request) (ce_nonce e) = true)
    ∧ sha256_digest (ce_e2e_public_key e) = rr_e2ee_public_key_digest reference.
Proof.
  unfold chutes_channel_verified, chutes_nonce_binding_verified, chutes_report_data_binding,
    chutes_freshness_nonce_matches.
  rewrite !andb_true_iff, !bool_decide_eq_true. split; [tauto|].
  intros ((Hk & Hr) & Hn & Hd). rewrite Hr. tauto.
Qed.

Lemma channel_verified_nonce request e reference :
  chutes_channel_verified request e reference = true → chutes_nonce_binding_verified request e = true.
Proof. unfold chutes_channel_verified. intros H. bools. tauto. Qed.

Lemma chutes_blocked_eq gpu request e provider reference :
  blocked (rq_policy request) (chutes_audit gpu request e provider reference).1.1.1 = false ↔
    (unsupported_provenance (provenance (rq_policy request)) = false
     ∧ (provenance_required (provenance (rq_policy request)) = true →
        ce_workload_image_digest e = rr_workload_image_digest reference
        ∧ artifacts_present (rr_model_artifacts reference) (ce_model_artifacts e) = true)
     ∧ model_requirement_met (model_binding_requirement (rq_policy request))
         (is_some (ce_attested_model e)) (chutes_model_verified request e reference) = true)
    ∧ (chutes_channel_verified request e reference = true ∧ no_receipt_demanded (rq_policy request) = true)
    ∧ gpu_requirement_met gpu request e ∧ cpu_required (rq_policy request) = false
    ∧ route_metadata_matches (ce_provider e) (ce_route_id e) (ce_evidence_family e)
        (rq_route request) reference = true.
Proof.
  rewrite chutes_audit_eq. cbn zeta. unfold chutes_data_audit, chutes_channel_audit.
  rewrite blocked_final by chutes_fresh. rewrite blocked_provenance by chutes_fresh.
  rewrite blocked_model_binding by chutes_fresh. rewrite blocked_data_checks by chutes_fresh.
  rewrite blocked_push by chutes_fresh. rewrite blocked_channel_key by chutes_fresh.
  rewrite blocked_na by chutes_fresh. rewrite bound_data_ok by done.
  repeat chutes_step. rewrite lookup_push_check_eq.
  fold (unsupported_provenance (provenance (rq_policy request))).
  rewrite !orb_false_iff, !required_iff, !negb_false_iff, !andb_true_iff, bool_decide_eq_true.
  rewrite blocked_chutes_gpu, blocked_claimed_cpu, blocked_route_metadata, no_checks_pass by chutes_fresh.
  rewrite !orb_false_iff, negb_false_iff.
  pose proof (channel_verified_nonce request e reference) as Hn.
  destruct (chutes_channel_verified request e reference); [|intuition congruence].
  rewrite (Hn eq_refl). cbn. tauto.
Qed.

Lemma chutes_blocked_iff gpu request e provider reference :
  blocked (rq_policy request) (chutes_audit gpu request e provider reference).1.1.1 = false
  ↔ chutes_satisfies gpu request e reference.
Proof.
  rewrite chutes_blocked_eq, chutes_channel_iff, nonce_matches_iff.
  assert (cpu_required (rq_policy request) = false ↔ hw_cpu (hardware (rq_policy request)) = CpuNotRequired) as ->
    by (unfold cpu_required; by destruct (hw_cpu (hardware (rq_policy request)))).
  split; [intros H; destruct_and!; by constructor | intros []; tauto].
Qed.

Lemma chutes_parts_audit gpu request e provider reference pd ed b :
  vp_audit (chutes_parts gpu request e provider reference pd ed b)
  = (chutes_audit gpu request e provider reference).1.1.1.
Proof. unfold chutes_parts. by destruct (chutes_audit _ _ _ _ _) as [[[]]]. Qed.

(** A Chutes verdict under an enforcing policy allows the request exactly
    when the policy requires no CPU TEE, a GPU requirement is met by an
    attestation the GPU verifier confirms for the evidence's nonce, the report
    data binds the expected nonce and the pinned end-to-end key, no receipt is
    demanded, and route metadata, model and provenance match. *)
Theorem chutes_enforced_allowed_iff gpu now request v :
  verify_chutes_e2ee_evidence_with_gpu_attestation_verifier gpu now request = Ok v →
  enforcement (rq_policy request) = Enforce →
  ∃ e provider reference,
    chutes_e2ee_from_slice (rq_raw_evidence request) = Some e ∧ ce_schema e = CHUTES_E2EE_SCHEMA
    ∧ find_references request = Ok (provider, reference)
    ∧ (v_request_allowed v = true ↔ chutes_satisfies gpu request e reference).
Proof.
  unfold verify_chutes_e2ee_evidence_with_gpu_attestation_verifier. intros H He. inv_ok. bools.
  match goal with H : find_references _ = Ok ?p |- _ => destruct p as [provider reference] end.
  match goal with H : chutes_e2ee_from_slice _ = Some ?x |- _ => rename x into e end.
  inv_ok. exists e, provider, reference. split; [done|]. split; [done|]. split; [done|].
  apply finished_allowed in H; [|done]. rewrite H, negb_true_iff, chutes_parts_audit.
  apply chutes_blocked_iff.
Qed.
End Chutes.

(** Without a configured GPU verifier, a policy with a GPU requirement
    always blocks Chutes evidence. *)
Theorem chutes_gpu_fails_closed {prim : Primitives} {readers : EvidenceReaders} now request v allowed :
  verify_chutes_e2ee_evidence now request = Ok v →
  enforcement (rq_policy request) = Enforce → hw_gpu (hardware (rq_policy request)) = GpuOneOf allowed →
  v_request_allowed v = false ∧ v_checks v !! "gpu_tee" = Some Failed.
Proof.
  unfold verify_chutes_e2ee_evidence, verify_chutes_e2ee_evidence_with_gpu_attestation_verifier.
  intros H He Hg. inv_ok.
  match goal with H : find_references _ = Ok ?p |- _ => destruct p as [provider reference] end.
  match goal with H : chutes_e2ee_from_slice _ = Some ?x |- _ => rename x into e end.
  inv_ok. pose proof (finished_allowed _ _ _ H He) as Ha. apply finish_Ok in H as [-> _]. split.
  - rewrite Ha, negb_false_iff, chutes_parts_audit. apply not_false_iff_true. intros Hb.
    apply (chutes_blocked_iff FailClosedGpuAttestationVerifier request e provider reference) in Hb.
    destruct Hb as [_ _ Hgpu _ _ _ _ _ _ _ _]. unfold gpu_requirement_met in Hgpu. rewrite Hg in Hgpu.
    by destruct Hgpu as (? & [_ _ _ _ _ (? & ? & _)]).
  - cbn [build_verdict v_checks]. rewrite chutes_parts_audit, chutes_audit_eq. cbn zeta.
    unfold chutes_data_audit, chutes_channel_audit, push_chutes_gpu. repeat audit_step. rewrite Hg. cbn [fst].
    rewrite lookup_push_check_eq.
    destruct (verify_chutes_gpu_tee _ _ _ _ _) as [[]|] eqn:Eg; [|done].
    apply chutes_gpu_Ok in Eg. by destruct Eg as (? & [_ _ _ _ _ (? & ? & _)]).
Qed.

(** ** Concrete inputs *)

Definition sample_nonce : string := zeros 64.
Definition sample_gpu_evidence : NvidiaGpuAttestationEvidence := {|
  ng_schema := NVIDIA_EVIDENCE_SCHEMA; ng_attestation_format := "nras-jwt"; ng_nonce := sample_nonce;
  ng_arch := None; ng_payload_sha256 := None; ng_raw_payload_base64 := None; ng_nras_token := Some "token" |}.

(** A verifier that confirms what it is shown. *)
Definition sample_gpu_verifier : GpuAttestationVerifier := {|
  verify_nvidia_gpu_attestation r :=
    if ng_nras_token (nr_evidence r) =?= Some "token"
    then Ok {| vg_tee := nr_expected_tee r; vg_nonce := nr_expected_nonce r;
               vg_attestation_format := ng_attestation_format (nr_evidence r); vg_verifier := "sample" |}
    else Err (InvalidEvidence "unknown token") |}.

Definition sample_chutes : ChutesE2eeEvidence := {|
  ce_schema := CHUTES_E2EE_SCHEMA; ce_provider := "near"; ce_route_id := "r";
  ce_evidence_family := "chutes_e2ee"; ce_tee_measurement := "tdx:1";
  ce_hardware := {| eh_cpu := Tdx; eh_gpu := Some NvidiaCc |};
  ce_gpu_attestation := Some sample_gpu_evidence;
  ce_report_data := sha256_hex (sample_nonce +:+ "key"); ce_nonce := sample_nonce; ce_e2e_public_key := "key";
  ce_attested_model := Some "m"; ce_workload_image_digest := "d"; ce_model_artifacts := [];
  ce_issued_at := "2026-02-01T00:00:00Z"; ce_expires_at := "2026-02-01T00:05:00Z";
  ce_expires_at_epoch_ms := 1769904300000 |}.

#[local] Instance sample_chutes_readers : EvidenceReaders := {|
  value_from_slice _ := None; fixture_from_slice _ := None; tinfoil_tls_from_slice _ := None;
  chutes_e2ee_from_slice raw := if raw =?= "chutes" then Some sample_chutes else None;
  chutes_live_from_slice _ := None; tinfoil_live_from_slice _ := None; near_live_from_slice _ := None;
  dstack_from_slice _ := None; base64_decode s := Some s |}.

Definition pin_key (reference : RouteReference) (digest : string) : RouteReference := {|
  rr_canonical_model := rr_canonical_model reference; rr_provider_model := rr_provider_model reference;
  rr_evidence_family := rr_evidence_family reference;
  rr_channel_binding_kind := rr_channel_binding_kind reference; rr_trust_tier := rr_trust_tier reference;
  rr_accepted_cpu_tees := rr_accepted_cpu_tees reference; rr_e2ee_public_key_digest := digest;
  rr_response_signing_key_digest := rr_response_signing_key_digest reference;
  rr_tls_spki_sha256 := rr_tls_spki_sha256 reference; rr_workload_images := rr_workload_images reference;
  rr_workload_image_digest := rr_workload_image_digest reference;
  rr_model_artifacts := rr_model_artifacts reference; rr_valid_until := rr_valid_until reference;
  rr_valid_until_epoch_ms := rr_valid_until_epoch_ms reference |}.

Definition gpu_policy : VerificationPolicy :=
  set_hardware require_attested_e2ee {| hw_cpu := CpuNotRequired; hw_gpu := GpuOneOf [NvidiaCc] |}.
Definition chutes_request (policy : VerificationPolicy) : VerificationRequest :=
  sample_request policy (sample_attested_route "chutes_e2ee" KindAttestedAppE2ee AppE2ee)
    (pin_key (sample_reference "chutes_e2ee" KindAttestedAppE2ee AppE2ee sample_timestamp 1772359200000)
       (sha256_digest "key"))
    (Some sample_nonce) "chutes".

Lemma chutes_enforced_allowed_iff_witness :
  ∃ v, verify_chutes_e2ee_evidence_with_gpu_attestation_verifier sample_gpu_verifier 1769904000000
         (chutes_request gpu_policy) = Ok v ∧ v_request_allowed v = true.
Proof.
  destruct (is_ok_inv (verify_chutes_e2ee_evidence_with_gpu_attestation_verifier sample_gpu_verifier
    1769904000000 (chutes_request gpu_policy))) as [v E]; [vm_compute; reflexivity|].
  exists v. split; [done|].
  destruct (chutes_enforced_allowed_iff sample_gpu_verifier _ _ v E eq_refl) as (e & p & r & He & _ & Hr & Hiff).
  apply Hiff. vm_compute in He. injection He as <-. vm_compute in Hr. injection Hr as <- <-.
  constructor; try (vm_compute; reflexivity).
  - exists sample_gpu_evidence. constructor; try reflexivity; [by apply list_elem_of_singleton|].
    eexists. split_and!; reflexivity.
  - split; vm_compute; reflexivity.
  - discriminate.
Defined.

Lemma chutes_gpu_fails_closed_witness :
  ∃ v, verify_chutes_e2ee_evidence 1769904000000 (chutes_request gpu_policy) = Ok v
    ∧ v_request_allowed v = false.
Proof.
  destruct (is_ok_inv (verify_chutes_e2ee_evidence 1769904000000 (chutes_request gpu_policy))) as [v E];
    [vm_compute; reflexivity|].
  exists v. split; [done|]. apply (chutes_gpu_fails_closed _ _ v [NvidiaCc] E); reflexivity.
Defined.
