(* ===== verification/TinfoilVerifier.v ===== *)
(** * The Tinfoil TLS family

    verifier.rs: structured Tinfoil evidence, which only states claims, and
    live captures, whose quote goes through the quote verifier; both end in
    [verify_tinfoil_verified_evidence]. *)

From Stdlib Require Import Ascii String ZArith Lia.
From stdpp Require Import base gmap strings list numbers.
From S2P Require Import Prelude RustStr Errors Collections Timestamps Canonical JsonInjective Policy Verdict Evidence Bindings Signature ReferenceValues VerifierCore VerifierSound EvidenceDocuments QuoteInterfaces.

Open Scope string_scope.

Record VerifiedTinfoilTlsEvidence := {
  vt_provider : string;
  vt_route_id : string;
  vt_evidence_family : string;
  vt_tee_measurement : string;
  vt_hardware : EvidenceHardware;
  vt_report_data : string;
  vt_leaf_certificate_der_base64 : string;
  vt_attested_model : option string;
  vt_workload_image_digest : option string;
  vt_model_artifacts : list ArtifactDigest;
  vt_issued_at : string;
  vt_expires_at : string;
  vt_expires_at_epoch_ms : Z;
  vt_evidence_digest : string;
  vt_cpu_quote_verified : bool;
}.

Section Tinfoil.
Context {prim : Primitives} {x509 : CertificateReader} {readers : EvidenceReaders}
        {tinfoil : TinfoilReaders}.

(** ** From documents to evidence *)

Definition from_structured (e : TinfoilTlsEvidence) : Result VerifiedTinfoilTlsEvidence :=
  evidence_digest ← canonical_digest (tinfoil_tls_value e);
  Ok {| vt_provider := tt_provider e; vt_route_id := tt_route_id e;
        vt_evidence_family := tt_evidence_family e; vt_tee_measurement := tt_tee_measurement e;
        vt_hardware := tt_hardware e; vt_report_data := tt_report_data e;
        vt_leaf_certificate_der_base64 := tt_leaf_certificate_der_base64 e;
        vt_attested_model := Some (tt_attested_model e);
        vt_workload_image_digest := Some (tt_workload_image_digest e);
        vt_model_artifacts := tt_model_artifacts e; vt_issued_at := tt_issued_at e;
        vt_expires_at := tt_expires_at e; vt_expires_at_epoch_ms := tt_expires_at_epoch_ms e;
        vt_evidence_digest := evidence_digest; vt_cpu_quote_verified := false |}.

Definition live_verified_digest_value (capture : TinfoilLiveCaptureEvidence)
    (verified_quote : VerifiedTinfoilQuote) : Value :=
  VObject [("schema", VString "confidential-inference.tinfoil-live-verified-evidence.v1");
           ("capture", tinfoil_live_value capture);
           ("verified_quote", verified_tinfoil_quote_value verified_quote)].

Definition from_live_capture (parsed : ParsedTinfoilLiveCapture) (q : VerifiedTinfoilQuote)
    : Result VerifiedTinfoilTlsEvidence :=
  returned_format ← format_parse (vq_attestation_format q);
  bail (InvalidEvidence "Tinfoil quote verifier returned a different attestation format")
    when negb (returned_format =?= pc_attestation_format parsed);
  bail (InvalidEvidence "Tinfoil quote verifier returned {} hardware for {} capture")
    when negb (eh_cpu (vq_hardware q) =?= cpu_kind (pc_attestation_format parsed));
  bail (InvalidEvidence "Tinfoil quote verifier returned an empty TEE measurement")
    when is_empty (trim (vq_tee_measurement q));
  evidence_digest ← canonical_digest (live_verified_digest_value (pc_capture parsed) q);
  Ok {| vt_provider := tl_provider (pc_capture parsed); vt_route_id := tl_route_id (pc_capture parsed);
        vt_evidence_family := tl_evidence_family (pc_capture parsed);
        vt_tee_measurement := vq_tee_measurement q; vt_hardware := vq_hardware q;
        vt_report_data := vq_report_data q;
        vt_leaf_certificate_der_base64 := tl_live_tls_leaf_certificate_der_base64 (pc_capture parsed);
        vt_attested_model := vq_attested_model q;
        vt_workload_image_digest := vq_workload_image_digest q;
        vt_model_artifacts := vq_model_artifacts q; vt_issued_at := vq_issued_at q;
        vt_expires_at := vq_expires_at q; vt_expires_at_epoch_ms := vq_expires_at_epoch_ms q;
        vt_evidence_digest := evidence_digest; vt_cpu_quote_verified := true |}.

Definition validate_tinfoil_live_capture_binding (parsed : ParsedTinfoilLiveCapture)
    (request : VerificationRequest) : Result unit :=
  let capture := pc_capture parsed in
  let route := rq_route request in
  policy_digest ← policy_digest (rq_policy request);
  bail (InvalidEvidence "live Tinfoil capture metadata does not match verification request")
    when negb (tl_provider capture =?= rt_provider route)
         || negb (tl_route_id capture =?= rt_route_id route)
         || negb (tl_evidence_family capture =?= rt_evidence_family route)
         || negb (tl_requested_model capture =?= rt_requested_model route)
         || negb (tl_evidence_endpoint capture =?= rt_evidence_endpoint route)
         || negb (tl_policy_digest capture =?= policy_digest);
  Ok tt.

(** ** The audit *)

(** Route metadata and CPU. A verified quote is compared with the references;
    mere claims never satisfy a required CPU TEE. *)
Definition tinfoil_hardware_audit (request : VerificationRequest) (e : VerifiedTinfoilTlsEvidence)
    (provider : ProviderReference) (reference : RouteReference) : Audit * bool :=
  let requirement := hw_cpu (hardware (rq_policy request)) in
  let reference_match := cpu_reference_match requirement (eh_cpu (vt_hardware e)) (vt_tee_measurement e)
                           provider reference in
  let a := push_route_metadata (vt_provider e) (vt_route_id e) (vt_evidence_family e) (rq_route request)
             reference no_checks in
  let '(a, hardware_verified) :=
    if vt_cpu_quote_verified e
    then push_verified_cpu requirement reference_match
           "CPU TEE or measurement is not accepted by reference values"
           "CPU TEE kind or measurement is not accepted by policy/reference values" a
    else push_claimed_cpu requirement reference_match
           "tinfoil-tls-evidence claims do not verify the quote signature, so a required CPU TEE cannot be satisfied by this evidence schema"
           a in
  (insert_check "e2ee_key_binding" NotApplicable (insert_check "gpu_tee" NotApplicable a), hardware_verified).

Definition report_data_binds (report_data spki_sha256 : string) : bool :=
  match verify_tls_spki_report_data_binding report_data spki_sha256 with
  | Some binding => tb_matches binding
  | None => false
  end.

Definition reference_spki_matches (reference : RouteReference) (spki_sha256 : string) : bool :=
  match rr_tls_spki_sha256 reference with
  | Some pinned => match strip_sha256_prefix pinned with
                   | Some expected => eq_ignore_ascii_case expected spki_sha256
                   | None => false
                   end
  | None => false
  end.

Definition tls_binding_verified (request : VerificationRequest) (e : VerifiedTinfoilTlsEvidence)
    (reference : RouteReference) (spki_sha256 : string) : bool :=
  let requirement := channel_binding_requirement (rq_policy request) in
  channel_satisfies (rt_channel_binding_kind (rq_route request)) requirement
  && (rr_channel_binding_kind reference =?= rt_channel_binding_kind (rq_route request))
  && channel_satisfies (rr_channel_binding_kind reference) requirement
  && report_data_binds (vt_report_data e) spki_sha256
  && reference_spki_matches reference spki_sha256.

(** The TLS key, then request and response data. *)
Definition tinfoil_channel_audit (policy : VerificationPolicy) (tls_verified : bool) (a : Audit) : Audit :=
  let a := push_check "tls_binding" tls_verified
             "TLS certificate SPKI is not bound to attested report data and reference values" a in
  let a := push_data_checks policy (bound_or_not tls_verified ConfChannelBound)
             (bound_or_not tls_verified ConfChannelBound) (integrity_or_not tls_verified)
             tls_verified tls_verified a in
  insert_check "nonce_binding" NotApplicable a.

Definition tinfoil_model_verified (request : VerificationRequest) (e : VerifiedTinfoilTlsEvidence)
    (reference : RouteReference) : bool :=
  match vt_attested_model e with
  | Some model => (model =?= rt_canonical_model (rq_route request))
                  && (rr_canonical_model reference =?= rt_canonical_model (rq_route request))
  | None => false
  end.

(** The model check, which this family writes out. *)
Definition tinfoil_model_audit (requirement : ModelBindingRequirement) (attested_model : option string)
    (model_binding_verified : bool) (a : Audit) : Audit * ModelBindingResult :=
  let attempt :=
    (push_check "model_binding" model_binding_verified
       "attested model identity does not match the requested canonical model" a,
     if model_binding_verified then ModelVerified else ModelFailed) in
  match requirement, attested_model with
  | ModelNotRequired, _ => (insert_check "model_binding" NotApplicable a, ModelNotSupported)
  | IfProviderSupports, None => (insert_check "model_binding" NotSupported a, ModelNotSupported)
  | _, _ => attempt
  end.

Definition tinfoil_audit (request : VerificationRequest) (e : VerifiedTinfoilTlsEvidence)
    (provider : ProviderReference) (reference : RouteReference) (spki_sha256 : string)
    : Audit * bool * ModelBindingResult :=
  let policy := rq_policy request in
  let '(a, hardware_verified) := tinfoil_hardware_audit request e provider reference in
  let a := tinfoil_channel_audit policy (tls_binding_verified request e reference spki_sha256) a in
  let '(a, model) := tinfoil_model_audit (model_binding_requirement policy) (vt_attested_model e)
                       (tinfoil_model_verified request e reference) a in
  let a := push_provenance_checks policy
             (vt_workload_image_digest e =?= Some (rr_workload_image_digest reference))
             (artifacts_present (rr_model_artifacts reference) (vt_model_artifacts e)) a in
  (push_final_checks policy a, hardware_verified, model).

(** The fields of the Tinfoil verdict. *)
Definition tinfoil_parts (request : VerificationRequest) (e : VerifiedTinfoilTlsEvidence)
    (provider : ProviderReference) (reference : RouteReference)
    (raw_evidence_digest spki_sha256 policy_digest : string) (validity : ComputedValidityBounds)
    : VerdictParts :=
  let '(audit, hardware_verified, model) := tinfoil_audit request e provider reference spki_sha256 in
  let tls_verified := tls_binding_verified request e reference spki_sha256 in {|
    vp_audit := audit;
    vp_tee_platform := Some (cpu_policy_str (eh_cpu (vt_hardware e)));
    vp_proved := hardware_verified && tls_verified;
    vp_trust_tier := if tls_verified then rt_trust_tier (rq_route request)
                     else if hardware_verified then TeeOnly else TierNone;
    vp_model_binding_result := model;
    vp_request_channel_bound := tls_verified;
    vp_request_confidentiality_result := bound_or_not tls_verified ConfChannelBound;
    vp_response_confidentiality_result := bound_or_not tls_verified ConfChannelBound;
    vp_response_channel_bound := tls_verified;
    vp_response_integrity_result := integrity_or_not tls_verified;
    vp_policy_digest := policy_digest;
    vp_raw_evidence_digest := raw_evidence_digest;
    vp_evidence_digest := vt_evidence_digest e;
    vp_issued_at := vt_issued_at e;
    vp_validity := validity;
    vp_evidence_until := cv_expires_at validity;
    vp_artifacts := {|
      va_source_url := Some (rt_evidence_endpoint (rq_route request));
      va_tee_measurement := Some (vt_tee_measurement e);
      va_report_data := Some (vt_report_data e);
      va_signing_public_key := Some ("sha256:" +:+ spki_sha256);
      va_e2ee_capability := None;
      va_model_manifest := vt_attested_model e;
      va_model_artifacts := vt_model_artifacts e |} |}.

Definition verify_tinfoil_verified_evidence (now : Z) (request : VerificationRequest)
    (e : VerifiedTinfoilTlsEvidence) (raw_evidence_digest : string) : Result AttestationVerdict :=
  '(provider, reference) ← find_references request;
  certificate_der ← ok_or (base64_decode (vt_leaf_certificate_der_base64 e))
                      (InvalidEvidence "leaf certificate DER is not base64: {err}");
  spki_sha256 ← certificate_spki_sha256_hex certificate_der;
  policy_digest ← policy_digest (rq_policy request);
  let ttl := verdict_ttl_millis (rq_policy request) in
  validity ← compute_validity_bounds now (vt_issued_at e) ttl
               (if vt_cpu_quote_verified e then None else Some ttl)
               (validity_candidates (vt_expires_at_epoch_ms e) (vt_expires_at e) reference
                  (rq_reference_values request));
  finish_verdict request
    (tinfoil_parts request e provider reference raw_evidence_digest spki_sha256 policy_digest validity).

Definition quote_request (parsed : ParsedTinfoilLiveCapture) : TinfoilQuoteVerificationRequest := {|
  tr_capture := pc_capture parsed; tr_attestation_format := pc_attestation_format parsed;
  tr_quote_bytes := pc_quote_bytes parsed;
  tr_live_tls_leaf_certificate_der := pc_live_tls_leaf_certificate_der parsed;
  tr_live_tls_spki_sha256 := tl_live_tls_spki_sha256 (pc_capture parsed) |}.

Definition verify_tinfoil_live_capture_with_quote_verifier (quotes : TinfoilQuoteVerifier) (now : Z)
    (request : VerificationRequest) : Result AttestationVerdict :=
  let raw_evidence_digest := sha256_digest (rq_raw_evidence request) in
  parsed ← parse_tinfoil_live_capture (rq_raw_evidence request);
  _ ← validate_tinfoil_live_capture_binding parsed request;
  verified_quote ← verify_tinfoil_quote (quote_request parsed);
  e ← from_live_capture parsed verified_quote;
  verify_tinfoil_verified_evidence now request e raw_evidence_digest.

Definition raw_schema (raw : string) : option string :=
  match value_from_slice raw with
  | Some value => match value_get "schema" value with Some v => value_as_str v | None => None end
  | None => None
  end.

Definition verify_tinfoil_tls_evidence_with_quote_verifier (quotes : TinfoilQuoteVerifier) (now : Z)
    (request : VerificationRequest) : Result AttestationVerdict :=
  if raw_schema (rq_raw_evidence request) =?= Some TINFOIL_LIVE_SCHEMA
  then verify_tinfoil_live_capture_with_quote_verifier quotes now request
  else
  e ← ok_or (tinfoil_tls_from_slice (rq_raw_evidence request)) json_error;
  bail (InvalidEvidence "unsupported schema {}") when negb (tt_schema e =?= TINFOIL_TLS_SCHEMA);
  let raw_evidence_digest := sha256_digest (rq_raw_evidence request) in
  e ← from_structured e;
  verify_tinfoil_verified_evidence now request e raw_evidence_digest.

Definition verify_tinfoil_tls_evidence (now : Z) (request : VerificationRequest) : Result AttestationVerdict :=
  verify_tinfoil_tls_evidence_with_quote_verifier FailClosedTinfoilQuoteVerifier now request.

(** ** Specification *)

Record tinfoil_satisfies (request : VerificationRequest) (e : VerifiedTinfoilTlsEvidence)
    (provider : ProviderReference) (reference : RouteReference) (spki_sha256 : string) : Prop := {
  ts_route : route_metadata_matches (vt_provider e) (vt_route_id e) (vt_evidence_family e)
               (rq_route request) reference = true;
  ts_cpu : cpu_required (rq_policy request) = true →
    vt_cpu_quote_verified e = true
    ∧ cpu_reference_match (hw_cpu (hardware (rq_policy request))) (eh_cpu (vt_hardware e))
        (vt_tee_measurement e) provider reference = true;
  ts_kind : channel_satisfies (rt_channel_binding_kind (rq_route request))
              (channel_binding_requirement (rq_policy request)) = true
            ∧ rr_channel_binding_kind reference = rt_channel_binding_kind (rq_route request);
  ts_report_data : report_data_binds (vt_report_data e) spki_sha256 = true;
  ts_pinned : reference_spki_matches reference spki_sha256 = true;
  ts_no_receipt : no_receipt_demanded (rq_policy request) = true;
  ts_model : model_requirement_met (model_binding_requirement (rq_policy request))
               (is_some (vt_attested_model e)) (tinfoil_model_verified request e reference) = true;
  ts_provenance : provenance_required (provenance (rq_policy request)) = true →
    vt_workload_image_digest e = Some (rr_workload_image_digest reference)
    ∧ artifacts_present (rr_model_artifacts reference) (vt_model_artifacts e) = true;
  ts_unsupported : unsupported_provenance (provenance (rq_policy request)) = false;
  ts_freshness : per_request (rq_policy request) = false;
}.

(** Where the evidence of a verdict came from. *)
Inductive tinfoil_source (quotes : TinfoilQuoteVerifier) (request : VerificationRequest)
    : VerifiedTinfoilTlsEvidence → Prop :=
| source_claims document e :
    tinfoil_tls_from_slice (rq_raw_evidence request) = Some document →
    tt_schema document = TINFOIL_TLS_SCHEMA → from_structured document = Ok e →
    tinfoil_source quotes request e
| source_quote parsed quote e :
    parse_tinfoil_live_capture (rq_raw_evidence request) = Ok parsed →
    validate_tinfoil_live_capture_binding parsed request = Ok tt →
    verify_tinfoil_quote (quote_request parsed) = Ok quote →
    from_live_capture parsed quote = Ok e →
    tinfoil_source quotes request e.

(** ** The audit blocks exactly when the specification fails *)

(** The written-out model check is the shared one. *)
Lemma tinfoil_model_audit_eq requirement model verified a :
  (verified = true → is_some model = true) →
  tinfoil_model_audit requirement model verified a
  = push_model_binding_check requirement (is_some model) verified a.
Proof.
  intros H. unfold tinfoil_model_audit, push_model_binding_check.
  destruct requirement, model; cbn [is_some negb andb]; try done.
  destruct verified; [by discriminate H|done].
Qed.

Lemma tinfoil_model_attested request e reference :
  tinfoil_model_verified request e reference = true → is_some (vt_attested_model e) = true.
Proof. unfold tinfoil_model_verified. by destruct (vt_attested_model e). Qed.

Lemma tinfoil_audit_eq request e provider reference spki :
  (tinfoil_audit request e provider reference spki).1.1 =
    let policy := rq_policy request in
    let a := (tinfoil_hardware_audit request e provider reference).1 in
    let a := tinfoil_channel_audit policy (tls_binding_verified request e reference spki) a in
    let a := (push_model_binding_check (model_binding_requirement policy)
                (is_some (vt_attested_model e)) (tinfoil_model_verified request e reference) a).1 in
    push_final_checks policy (push_provenance_checks policy
      (vt_workload_image_digest e =?= Some (rr_workload_image_digest reference))
      (artifacts_present (rr_model_artifacts reference) (vt_model_artifacts e)) a).
Proof.
  unfold tinfoil_audit. destruct (tinfoil_hardware_audit _ _ _ _) as [a h]. cbn [fst snd].
  rewrite tinfoil_model_audit_eq by apply tinfoil_model_attested.
  by destruct (push_model_binding_check _ _ _ _) as [b m].
Qed.

Definition tinfoil_hardware_names : list string :=
  ["route_metadata_binding"; "request_route_binding"; "route_binding"; "cpu_tee"; "cpu_measurement_reference";
   "gpu_tee"; "e2ee_key_binding"].

Lemma tinfoil_hardware_fresh request e provider reference name :
  contains tinfoil_hardware_names name = false →
  fresh name (tinfoil_hardware_audit request e provider reference).1.
Proof.
  intros H. unfold fresh, tinfoil_hardware_audit.
  assert (contains ["cpu_tee"] name = false
    ∧ contains ["cpu_tee"; "cpu_measurement_reference"] name = false
    ∧ contains ["route_metadata_binding"; "request_route_binding"; "route_binding"] name = false
    ∧ (name =?= "e2ee_key_binding") = false ∧ (name =?= "gpu_tee") = false) as (H1 & H2 & H3 & H4 & H5).
  { cbn in H |- *. bools. intuition. }
  destruct (vt_cpu_quote_verified e);
    [destruct (push_verified_cpu _ _ _ _ _) as [a h] eqn:E | destruct (push_claimed_cpu _ _ _ _) as [a h] eqn:E];
    cbn [fst]; rewrite !lookup_insert_check_ne by done;
    apply (f_equal (λ p, checks (fst p) !! name)) in E; cbn [fst] in E; rewrite <-E;
    rewrite ?lookup_verified_cpu, ?lookup_claimed_cpu, lookup_route_metadata by done; reflexivity.
Qed.

Lemma blocked_tinfoil_hardware request e provider reference :
  blocked (rq_policy request) (tinfoil_hardware_audit request e provider reference).1 = false ↔
    (cpu_required (rq_policy request) = true →
       vt_cpu_quote_verified e = true
       ∧ cpu_reference_match (hw_cpu (hardware (rq_policy request))) (eh_cpu (vt_hardware e))
           (vt_tee_measurement e) provider reference = true)
    ∧ route_metadata_matches (vt_provider e) (vt_route_id e) (vt_evidence_family e)
        (rq_route request) reference = true.
Proof.
  unfold tinfoil_hardware_audit.
  set (a0 := push_route_metadata _ _ _ _ _ _).
  set (m := cpu_reference_match _ _ _ _ _).
  assert (blocked (rq_policy request) a0
    = negb (route_metadata_matches (vt_provider e) (vt_route_id e) (vt_evidence_family e) (rq_route request) reference))
    as H0 by (subst a0; rewrite blocked_route_metadata, no_checks_pass by audit_fresh; apply orb_false_r).
  destruct (vt_cpu_quote_verified e).
  - pose proof (blocked_verified_cpu (rq_policy request) m
      "CPU TEE or measurement is not accepted by reference values"
      "CPU TEE kind or measurement is not accepted by policy/reference values" a0) as Hb.
    pose proof (λ name, lookup_verified_cpu name (hw_cpu (hardware (rq_policy request))) m
      "CPU TEE or measurement is not accepted by reference values"
      "CPU TEE kind or measurement is not accepted by policy/reference values" a0) as Hl.
    destruct (push_verified_cpu _ _ _ _ _) as [a h]. cbn [fst] in *.
    rewrite !blocked_na by (unfold fresh; rewrite ?lookup_insert_check_ne by done; rewrite Hl by done; subst a0; audit_fresh).
    rewrite Hb, H0, orb_false_iff, required_iff, negb_false_iff by (subst a0; audit_fresh). tauto.
  - pose proof (blocked_claimed_cpu (rq_policy request) m
      "tinfoil-tls-evidence claims do not verify the quote signature, so a required CPU TEE cannot be satisfied by this evidence schema" a0) as Hb.
    pose proof (λ name, lookup_claimed_cpu name (hw_cpu (hardware (rq_policy request))) m
      "tinfoil-tls-evidence claims do not verify the quote signature, so a required CPU TEE cannot be satisfied by this evidence schema" a0) as Hl.
    destruct (push_claimed_cpu _ _ _ _) as [a h]. cbn [fst] in *.
    rewrite !blocked_na by (unfold fresh; rewrite ?lookup_insert_check_ne by done; rewrite Hl by done; subst a0; audit_fresh).
    rewrite Hb, H0, orb_false_iff, negb_false_iff by (subst a0; audit_fresh).
    destruct (cpu_required (rq_policy request)); intuition congruence.
Qed.

Ltac tinfoil_fresh :=
  unfold all_fresh, tinfoil_channel_audit; repeat (apply List.Forall_cons; [|]); try apply List.Forall_nil;
  unfold fresh; repeat audit_step; apply tinfoil_hardware_fresh; reflexivity.

Lemma tls_verified_iff request e reference spki :
  tls_binding_verified request e reference spki = true ↔
    (channel_satisfies (rt_channel_binding_kind (rq_route request))
       (channel_binding_requirement (rq_policy request)) = true
     ∧ rr_channel_binding_kind reference = rt_channel_binding_kind (rq_route request))
    ∧ report_data_binds (vt_report_data e) spki = true ∧ reference_spki_matches reference spki = true.
Proof.
  unfold tls_binding_verified. rewrite !andb_true_iff, !bool_decide_eq_true. split; [tauto|].
  intros ((Hk & Hr) & Hd). rewrite Hr. tauto.
Qed.

Lemma tinfoil_blocked_iff request e provider reference spki :
  blocked (rq_policy request) (tinfoil_audit request e provider reference spki).1.1 = false
  ↔ tinfoil_satisfies request e provider reference spki.
Proof.
  rewrite tinfoil_audit_eq. cbn zeta. unfold tinfoil_channel_audit.
  rewrite blocked_final by tinfoil_fresh. rewrite blocked_provenance by tinfoil_fresh.
  rewrite blocked_model_binding by tinfoil_fresh. rewrite blocked_na by tinfoil_fresh.
  rewrite blocked_data_checks by tinfoil_fresh. rewrite blocked_push by tinfoil_fresh.
  rewrite bound_data_ok by done. audit_eval.
  fold (unsupported_provenance (provenance (rq_policy request))).
  change (negb ((Some NotApplicable =?= Some Verified) || _)) with true. rewrite andb_true_r.
  rewrite !orb_false_iff, !required_iff, !negb_false_iff, !andb_true_iff, bool_decide_eq_true,
    blocked_tinfoil_hardware, tls_verified_iff.
  split; [intros H; destruct_and!; by constructor | intros []; tauto].
Qed.

Lemma tinfoil_parts_audit request e provider reference raw spki pd b :
  vp_audit (tinfoil_parts request e provider reference raw spki pd b)
  = (tinfoil_audit request e provider reference spki).1.1.
Proof. unfold tinfoil_parts. by destruct (tinfoil_audit _ _ _ _ _) as [[]]. Qed.

(** The run of a successful Tinfoil verification. *)
Lemma tinfoil_verdict_source quotes now request v :
  verify_tinfoil_tls_evidence_with_quote_verifier quotes now request = Ok v →
  ∃ e, tinfoil_source quotes request e
    ∧ verify_tinfoil_verified_evidence now request e (sha256_digest (rq_raw_evidence request)) = Ok v.
Proof.
  unfold verify_tinfoil_tls_evidence_with_quote_verifier, verify_tinfoil_live_capture_with_quote_verifier.
  case_bool_decide; intros H'; inv_ok; bools.
  - eexists. split; [by eapply source_quote | done].
  - eexists. split; [by eapply source_claims | done].
Qed.

Lemma tinfoil_verified_allowed now request e raw v :
  verify_tinfoil_verified_evidence now request e raw = Ok v → enforcement (rq_policy request) = Enforce →
  ∃ provider reference der spki,
    find_references request = Ok (provider, reference)
    ∧ base64_decode (vt_leaf_certificate_der_base64 e) = Some der
    ∧ certificate_spki_sha256_hex der = Ok spki
    ∧ (v_request_allowed v = true ↔ tinfoil_satisfies request e provider reference spki).
Proof.
  unfold verify_tinfoil_verified_evidence. intros H He. inv_ok.
  match goal with H : find_references _ = Ok ?p |- _ => destruct p as [provider reference] end.
  inv_ok. eexists provider, reference, _, _. split; [done|]. split; [done|]. split; [done|].
  apply finished_allowed in H; [|done]. rewrite H, negb_true_iff, tinfoil_parts_audit.
  apply tinfoil_blocked_iff.
Qed.

(** C27: a Tinfoil verdict under an enforcing policy allows the request exactly
    when its evidence, structured claims or a live capture whose quote the quote
    verifier accepted, meets the policy: a required CPU TEE by a verified quote
    of an accepted kind and measurement, the certificate key by the report data
    and by the signed pin, no receipt or per-request freshness demanded, and route
    metadata, model and provenance matched. *)
Theorem tinfoil_enforced_allowed_iff quotes now request v :
  verify_tinfoil_tls_evidence_with_quote_verifier quotes now request = Ok v →
  enforcement (rq_policy request) = Enforce →
  ∃ e provider reference der spki,
    tinfoil_source quotes request e ∧ find_references request = Ok (provider, reference)
    ∧ base64_decode (vt_leaf_certificate_der_base64 e) = Some der
    ∧ certificate_spki_sha256_hex der = Ok spki
    ∧ (v_request_allowed v = true ↔ tinfoil_satisfies request e provider reference spki).
Proof.
  intros H He. destruct (tinfoil_verdict_source _ _ _ _ H) as (e & Hs & Hv).
  destruct (tinfoil_verified_allowed _ _ _ _ _ Hv He) as (p & r & der & spki & ? & ? & ? & ?).
  exists e, p, r, der, spki. auto.
Qed.

(** The quote behind an allowed request. *)
Definition tinfoil_backed (quotes : TinfoilQuoteVerifier) (request : VerificationRequest) : Prop :=
  ∃ parsed quote provider reference spki,
    parse_tinfoil_live_capture (rq_raw_evidence request) = Ok parsed
    ∧ verify_tinfoil_quote (quote_request parsed) = Ok quote
    ∧ policy_digest (rq_policy request) = Ok (tl_policy_digest (pc_capture parsed))
    ∧ tl_provider (pc_capture parsed) = rt_provider (rq_route request)
    ∧ tl_route_id (pc_capture parsed) = rt_route_id (rq_route request)
    ∧ tl_requested_model (pc_capture parsed) = rt_requested_model (rq_route request)
    ∧ eh_cpu (vq_hardware quote) = cpu_kind (pc_attestation_format parsed)
    ∧ find_references request = Ok (provider, reference)
    ∧ vq_tee_measurement quote ∈ pr_accepted_measurements provider
    ∧ certificate_spki_sha256_hex (pc_live_tls_leaf_certificate_der parsed) = Ok spki
    ∧ report_data_binds (vq_report_data quote) spki = true
    ∧ reference_spki_matches reference spki = true.

Lemma tinfoil_cpu_quote quotes now request v :
  verify_tinfoil_tls_evidence_with_quote_verifier quotes now request = Ok v →
  enforcement (rq_policy request) = Enforce → cpu_required (rq_policy request) = true →
  v_request_allowed v = true → tinfoil_backed quotes request.
Proof.
  intros H He Hcpu Hallow. destruct (tinfoil_verdict_source _ _ _ _ H) as (e & Hs & Hv).
  destruct (tinfoil_verified_allowed _ _ _ _ _ Hv He) as (p & r & der & spki & Href & Hder & Hspki & Hiff).
  apply Hiff in Hallow. destruct Hallow as [_ Hq _ Hrd Hpin _ _ _ _ _].
  destruct (Hq Hcpu) as [Hquote Hmatch].
  destruct Hs as [document e _ _ Hd|parsed quote e Hp Hb Hvq Hl].
  { unfold from_structured in Hd. inv_ok. discriminate Hquote. }
  exists parsed, quote, p, r, spki. unfold from_live_capture in Hl. inv_ok. bools.
  cbn [vt_leaf_certificate_der_base64 vt_report_data vt_tee_measurement vt_hardware] in *.
  unfold validate_tinfoil_live_capture_binding in Hb. inv_ok. bools. destruct_and!.
  assert (base64_decode (tl_live_tls_leaf_certificate_der_base64 (pc_capture parsed))
          = Some (pc_live_tls_leaf_certificate_der parsed)) as Hdec.
  { clear -Hp. unfold parse_tinfoil_live_capture, decode_base64_field in Hp. inv_ok. done. }
  rewrite Hdec in Hder. injection Hder as <-.
  assert (vq_tee_measurement quote ∈ pr_accepted_measurements p) as Hm.
  { unfold cpu_reference_match, measurement_accepted, cpu_required in *.
    destruct (hw_cpu (hardware (rq_policy request))); [done|..]; bools;
      destruct_and!; match goal with H : existsb _ (pr_accepted_measurements _) = true |- _ =>
        apply existsb_exists in H as (m & Hm & ->%bool_decide_eq_true) end; by apply list_elem_of_In. }
  split_and!; try done. congruence.
Qed.

(** A Tinfoil request let through under a policy that requires a CPU TEE
    rests on a quote: the raw evidence is a live capture made for this provider,
    route, model, endpoint and policy digest, and the quote verifier accepted its
    quote, of the CPU kind its format names and with an accepted measurement,
    whose report data starts with the key digest of the captured certificate. *)
Theorem tinfoil_cpu_rests_on_quote quotes now request v :
  verify_tinfoil_tls_evidence_with_quote_verifier quotes now request = Ok v →
  enforcement (rq_policy request) = Enforce → cpu_required (rq_policy request) = true →
  v_request_allowed v = true →
  ∃ parsed quote provider reference spki,
    parse_tinfoil_live_capture (rq_raw_evidence request) = Ok parsed
    ∧ verify_tinfoil_quote (quote_request parsed) = Ok quote
    ∧ policy_digest (rq_policy request) = Ok (tl_policy_digest (pc_capture parsed))
    ∧ tl_provider (pc_capture parsed) = rt_provider (rq_route request)
    ∧ tl_route_id (pc_capture parsed) = rt_route_id (rq_route request)
    ∧ tl_requested_model (pc_capture parsed) = rt_requested_model (rq_route request)
    ∧ eh_cpu (vq_hardware quote) = cpu_kind (pc_attestation_format parsed)
    ∧ find_references request = Ok (provider, reference)
    ∧ vq_tee_measurement quote ∈ pr_accepted_measurements provider
    ∧ certificate_spki_sha256_hex (pc_live_tls_leaf_certificate_der parsed) = Ok spki
    ∧ report_data_binds (vq_report_data quote) spki = true
    ∧ reference_spki_matches reference spki = true.
Proof. apply tinfoil_cpu_quote. Qed.
End Tinfoil.

(** ** Concrete inputs *)

#[local] Existing Instances sample_x509 sample_tinfoil_readers.

Definition tinfoil_request (policy : VerificationPolicy) (raw : string) : VerificationRequest :=
  sample_request policy (sample_attested_route "tinfoil_tls" KindTeeTerminatedTls HwVerifiedTls)
    (sample_reference "tinfoil_tls" KindTeeTerminatedTls HwVerifiedTls sample_timestamp 1772359200000)
    None raw.

(** A back end that accepts the one sample quote. *)
Definition sample_quote_verifier : TinfoilQuoteVerifier := {|
  verify_tinfoil_quote r :=
    if tr_quote_bytes r =?= zeros 64
    then Ok (from_verified_quote (tr_attestation_format r) {| eh_cpu := Tdx; eh_gpu := None |} "tdx:1"
               (sha256_hex "cert") "2026-02-01T00:00:00Z" "2026-02-01T00:05:00Z" 1769904300000)
    else Err (InvalidEvidence "unknown quote");
  verify_tdx_quote := default_verify_tdx_quote |}.

Definition tls_capture_readers : EvidenceReaders :=
  capture_readers (ok_value (policy_digest require_hw_verified_tls)).

Lemma tinfoil_enforced_allowed_iff_witness :
  ∃ v, @verify_tinfoil_tls_evidence_with_quote_verifier _ _ tls_capture_readers _ sample_quote_verifier 0
         (tinfoil_request require_hw_verified_tls "live") = Ok v
    ∧ ∃ e provider reference spki, v_request_allowed v = true ↔ tinfoil_satisfies
        (tinfoil_request require_hw_verified_tls "live") e provider reference spki.
Proof.
  destruct (is_ok_inv (@verify_tinfoil_tls_evidence_with_quote_verifier _ _ tls_capture_readers _
    sample_quote_verifier 0 (tinfoil_request require_hw_verified_tls "live"))) as [v E]; [vm_compute; reflexivity|].
  exists v. split; [done|].
  destruct (@tinfoil_enforced_allowed_iff _ _ tls_capture_readers _ sample_quote_verifier 0 _ v E eq_refl)
    as (e & p & r & der & spki & _ & _ & _ & _ & Hiff).
  by exists e, p, r, spki.
Defined.

Lemma tinfoil_cpu_rests_on_quote_witness :
  ∃ parsed quote, verify_tinfoil_quote (TinfoilQuoteVerifier := sample_quote_verifier) (quote_request parsed) = Ok quote.
Proof.
  set (run := @verify_tinfoil_tls_evidence_with_quote_verifier _ _ tls_capture_readers _ sample_quote_verifier 0
    (tinfoil_request require_hw_verified_tls "live")).
  assert (match run with Ok v => v_request_allowed v | Err _ => false end = true) as Hallow
    by (vm_compute; reflexivity).
  destruct run as [v|] eqn:E; [|discriminate Hallow].
  destruct (@tinfoil_cpu_rests_on_quote _ _ tls_capture_readers _ sample_quote_verifier 0 _ v E eq_refl eq_refl Hallow)
    as (parsed & quote & _ & _ & _ & _ & Hq & _).
  by exists parsed, quote.
Defined.

(** Structured claims for the same route: no quote, only statements. *)
Definition sample_claims : TinfoilTlsEvidence := {|
  tt_schema := TINFOIL_TLS_SCHEMA; tt_provider := "near"; tt_route_id := "r";
  tt_evidence_family := "tinfoil_tls"; tt_tee_measurement := "tdx:1";
  tt_hardware := {| eh_cpu := Tdx; eh_gpu := None |}; tt_report_data := sha256_hex "cert";
  tt_leaf_certificate_der_base64 := "cert"; tt_attested_model := "m"; tt_workload_image_digest := "d";
  tt_model_artifacts := []; tt_issued_at := "2026-02-01T00:00:00Z";
  tt_expires_at := "2026-02-01T00:05:00Z"; tt_expires_at_epoch_ms := 1769904300000 |}.

Definition claims_readers : EvidenceReaders := {|
  value_from_slice _ := None; fixture_from_slice _ := None;
  tinfoil_tls_from_slice raw := if raw =?= "claims" then Some sample_claims else None;
  chutes_e2ee_from_slice _ := None; chutes_live_from_slice _ := None; tinfoil_live_from_slice _ := None;
  near_live_from_slice _ := None; dstack_from_slice _ := None; base64_decode s := Some s |}.

Definition tls_without_cpu : VerificationPolicy := set_hardware require_hw_verified_tls hardware_not_required.

(** claims-only Tinfoil evidence reaches the hardware-verified TLS tier,
    with status verified, under a policy that requires no CPU TEE: no quote was
    verified, yet the verdict reports the registry's tier. *)
Theorem tinfoil_claims_reach_hw_tier :
  match @verify_tinfoil_tls_evidence _ _ claims_readers _ 1769904000000 (tinfoil_request tls_without_cpu "claims") with
  | Ok v => v_trust_tier v = HwVerifiedTls ∧ v_status v = StatusVerified ∧ v_request_allowed v = true
            ∧ v_checks v !! "cpu_tee" = Some NotApplicable
  | Err _ => False
  end.
Proof. vm_compute. by split_and!. Qed.
