(* ===== verification/LiveEvidence.v ===== *)
(** * Live provider evidence

    The part of verifier.rs shared by the live families: decoding of nonces,
    hex and certificates, the NVIDIA check, and
    [verify_provider_live_evidence], which turns evidence whose quote has been
    verified into a verdict. *)

From Stdlib Require Import Ascii String ZArith Lia.
From stdpp Require Import base gmap strings list numbers.
From S2P Require Import Prelude RustStr Errors Collections Timestamps Canonical JsonInjective Policy Verdict Evidence Bindings Signature ReferenceValues VerifierCore VerifierSound EvidenceDocuments QuoteInterfaces.

Open Scope string_scope.

(** ** Decoding *)

Definition hex_nibble (byte : ascii) : option N :=
  if between 48 57 byte then Some (code byte - 48)%N
  else if between 97 102 byte then Some (code byte - 97 + 10)%N
  else if between 65 70 byte then Some (code byte - 65 + 10)%N
  else None.

(** The chunks of two bytes, each nibble read after the check above. *)
Fixpoint hex_pairs (value : string) : string :=
  match value with
  | String high (String low rest) =>
      String (ascii_of_N (N.lor (N.shiftl (default 0%N (hex_nibble high)) 4) (default 0%N (hex_nibble low))))
        (hex_pairs rest)
  | _ => ""
  end.

Definition decode_hex (value : string) : Result string :=
  bail (InvalidEvidence "{field} is not canonical hex")
    when negb (Nat.even (String.length value)) || negb (all_bytes is_ascii_hexdigit value);
  Ok (hex_pairs value).

Definition validate_nonce_hex (value : string) : Result unit :=
  if (String.length value =? 64)%nat && all_bytes is_ascii_hexdigit value then Ok tt
  else Err (InvalidEvidence "{field} must be exactly 32 bytes of hex").

Definition normalize_live_sha256_hex (value : string) : Result string :=
  _ ← validate_nonce_hex value;
  Ok (to_ascii_lowercase value).

Definition decode_base64 {readers : EvidenceReaders} (value : string) : Result string :=
  ok_or (base64_decode value) (InvalidEvidence "{field} is not valid base64: {error}").

(** ** Metadata, certificates, NVIDIA attestation *)

Record LiveCaptureMetadata := {
  lm_provider : string;
  lm_route_id : string;
  lm_evidence_family : string;
  lm_requested_model : string;
  lm_policy_digest : string;
  lm_evidence_endpoint : string;
}.

Definition validate_live_capture_metadata {prim : Primitives} (metadata : LiveCaptureMetadata)
    (request : VerificationRequest) : Result unit :=
  let route := rq_route request in
  expected_policy_digest ← policy_digest (rq_policy request);
  bail (InvalidEvidence "{provider_name} live capture metadata does not match verification request")
    when negb (lm_provider metadata =?= rt_provider route)
         || negb (lm_route_id metadata =?= rt_route_id route)
         || negb (lm_evidence_family metadata =?= rt_evidence_family route)
         || negb (lm_requested_model metadata =?= rt_requested_model route)
         || negb (lm_policy_digest metadata =?= expected_policy_digest)
         || negb (lm_evidence_endpoint metadata =?= rt_evidence_endpoint route);
  Ok tt.

Definition validate_live_certificate {x509 : CertificateReader} (certificate_der verified_at : string)
    : Result Z :=
  '(not_before, not_after) ← certificate_validity_epoch_millis certificate_der;
  verified_at ← parse_utc_timestamp_millis verified_at;
  bail (InvalidEvidence "{provider_name} certificate is not valid at quote verification time")
    when (verified_at <? not_before)%Z || (not_after <=? verified_at)%Z;
  Ok not_after.

Definition verify_live_nvidia_gpu_attestation (gpu : GpuAttestationVerifier)
    (evidence : option NvidiaGpuAttestationEvidence) (expected_nonce : string) (allowed : list GpuTeeKind)
    (provider route_id : string) : result string unit :=
  bail "NVIDIA confidential-computing GPU is not accepted by policy"
    when negb (existsb (λ kind, kind =?= NvidiaCc) allowed);
  evidence ← ok_or evidence "NVIDIA GPU attestation evidence is missing";
  bail ("unsupported NVIDIA GPU attestation schema " +:+ ng_schema evidence)
    when negb (ng_schema evidence =?= NVIDIA_EVIDENCE_SCHEMA);
  bail "NVIDIA GPU evidence nonce does not match the TDX-bound challenge"
    when negb (eq_ignore_ascii_case (ng_nonce evidence) expected_nonce);
  verified ← map_err (λ error, "NVIDIA GPU attestation verification failed: " +:+ error_to_string error)
               (verify_nvidia_gpu_attestation
                  {| nr_evidence := evidence; nr_expected_nonce := expected_nonce;
                     nr_expected_tee := NvidiaCc; nr_provider := provider; nr_route_id := route_id |});
  bail "NVIDIA GPU verifier returned inconsistent verified claims"
    when negb (vg_tee verified =?= NvidiaCc)
         || negb (eq_ignore_ascii_case (vg_nonce verified) expected_nonce)
         || negb (vg_attestation_format verified =?= ng_attestation_format evidence);
  Ok tt.

(** Measurement strings: what reference values pin. *)
Definition chutes_live_tee_measurement (q : VerifiedTdxQuote) : string :=
  "tdx:mr_td:" +:+ td_mr_td q +:+ ":rtmr0:" +:+ td_rtmr0 q +:+ ":rtmr1:" +:+ td_rtmr1 q
  +:+ ":rtmr2:" +:+ td_rtmr2 q +:+ ":rtmr3:" +:+ td_rtmr3 q.
Definition near_live_tee_measurement (q : VerifiedTdxQuote) : string :=
  "tdx:mr_td:" +:+ td_mr_td q +:+ ":rtmr0:" +:+ td_rtmr0 q +:+ ":rtmr1:" +:+ td_rtmr1 q
  +:+ ":rtmr2:" +:+ td_rtmr2 q +:+ ":mr_config_id:" +:+ td_mr_config_id q.

(** ** The verdict *)

Record VerifiedProviderLiveEvidence := {
  lv_provider : string;
  lv_route_id : string;
  lv_evidence_family : string;
  lv_tee_measurement : string;
  lv_hardware : EvidenceHardware;
  lv_gpu_attestation : option NvidiaGpuAttestationEvidence;
  lv_gpu_nonce : string;
  lv_report_data : string;
  lv_nonce_binding_verified : option bool;
  lv_channel_binding_verified : bool;
  lv_channel_check : string;
  lv_channel_error : string;
  lv_confidentiality_result : ConfidentialityResult;
  lv_attested_model : option string;
  lv_issued_at : string;
  lv_expires_at : string;
  lv_expires_at_epoch_ms : Z;
  lv_evidence_digest : string;
  lv_signing_public_key : option string;
  lv_e2ee_capability : option string;
}.

(** [result.err().unwrap_or_else(...)]. *)
Definition live_gpu_message (check : result string unit) : string :=
  match check with Err message => message | Ok _ => "NVIDIA GPU attestation verified" end.

Definition push_live_gpu (gpu : GpuAttestationVerifier) (request : VerificationRequest)
    (e : VerifiedProviderLiveEvidence) (a : Audit) : Audit * bool :=
  match hw_gpu (hardware (rq_policy request)) with
  | GpuNotRequired => (insert_check "gpu_tee" NotApplicable a, true)
  | GpuOneOf allowed =>
      let check := verify_live_nvidia_gpu_attestation gpu (lv_gpu_attestation e) (lv_gpu_nonce e) allowed
                     (rt_provider (rq_route request)) (rt_route_id (rq_route request)) in
      (push_check "gpu_tee" (is_ok check) (live_gpu_message check) a, is_ok check)
  end.

(** PPQ evidence also has its measurement checked on its own. *)
Definition push_ppq_measurement (e : VerifiedProviderLiveEvidence) (provider : ProviderReference)
    (a : Audit) : Audit :=
  if lv_evidence_family e =?= "ppq_ehbp"
  then push_check "cpu_measurement_reference" (measurement_accepted provider (lv_tee_measurement e))
         "PPQ TEE measurement is not pinned in reference values" a
  else a.

(** Route metadata and hardware: the audit, [hardware_verified], [gpu_verified]. *)
Definition live_hardware_audit (gpu : GpuAttestationVerifier) (request : VerificationRequest)
    (e : VerifiedProviderLiveEvidence) (provider : ProviderReference) (reference : RouteReference)
    : Audit * bool * bool :=
  let requirement := hw_cpu (hardware (rq_policy request)) in
  let a := push_route_metadata (lv_provider e) (lv_route_id e) (lv_evidence_family e) (rq_route request)
             reference no_checks in
  let a := push_ppq_measurement e provider a in
  let '(a, hardware_verified) :=
    push_verified_cpu requirement
      (cpu_reference_match requirement (eh_cpu (lv_hardware e)) (lv_tee_measurement e) provider reference)
      "verified TDX identity is not accepted by signed reference values"
      "verified TDX identity is not accepted by policy and signed reference values" a in
  let '(a, gpu_verified) := push_live_gpu gpu request e a in
  (a, hardware_verified, gpu_verified).

Definition live_channel_verified (request : VerificationRequest) (e : VerifiedProviderLiveEvidence)
    (reference : RouteReference) : bool :=
  let requirement := channel_binding_requirement (rq_policy request) in
  lv_channel_binding_verified e
  && ((rt_channel_binding_kind (rq_route request) =?= rr_channel_binding_kind reference)
      && channel_satisfies (rt_channel_binding_kind (rq_route request)) requirement
      && channel_satisfies (rr_channel_binding_kind reference) requirement).

(** The channel the family binds, and the fresh challenge. *)
Definition live_channel_audit (e : VerifiedProviderLiveEvidence) (channel_verified : bool) (a : Audit) : Audit :=
  let a := push_check (lv_channel_check e) channel_verified (lv_channel_error e) a in
  let other_channel_check :=
    if lv_channel_check e =?= "tls_binding" then "e2ee_key_binding" else "tls_binding" in
  let a := insert_check other_channel_check NotApplicable a in
  match lv_nonce_binding_verified e with
  | Some verified =>
      push_check "nonce_binding" verified
        "fresh provider challenge is not bound to verified TDX report_data" a
  | None => insert_check "nonce_binding" NotSupported a
  end.

Definition live_model_verified (request : VerificationRequest) (e : VerifiedProviderLiveEvidence)
    (reference : RouteReference) : bool :=
  (lv_attested_model e =?= Some (rt_canonical_model (rq_route request)))
  && (rr_canonical_model reference =?= rt_canonical_model (rq_route request)).

(** Live evidence carries no provenance. *)
Definition live_provenance_audit (policy : VerificationPolicy) (a : Audit) : Audit :=
  if workload_image (provenance policy) || model_artifacts_required (provenance policy) then
    push_check "model_artifact_provenance" false
      "live provider evidence does not contain signed model artifact provenance"
      (push_check "image_provenance" false
         "live provider evidence does not contain signed workload image provenance" a)
  else insert_check "model_artifact_provenance" NotApplicable
         (insert_check "image_provenance" NotApplicable a).

Definition live_audit (gpu : GpuAttestationVerifier) (request : VerificationRequest)
    (e : VerifiedProviderLiveEvidence) (provider : ProviderReference) (reference : RouteReference)
    : Audit * bool * bool * ModelBindingResult :=
  let policy := rq_policy request in
  let channel_verified := live_channel_verified request e reference in
  let confidentiality_result := bound_or_not channel_verified (lv_confidentiality_result e) in
  let '(a, hardware_verified, gpu_verified) := live_hardware_audit gpu request e provider reference in
  let a := live_channel_audit e channel_verified a in
  let a := push_data_checks policy confidentiality_result confidentiality_result
             (integrity_or_not channel_verified) channel_verified channel_verified a in
  let '(a, model) := push_model_binding_check (model_binding_requirement policy)
                       (is_some (lv_attested_model e)) (live_model_verified request e reference) a in
  (push_final_checks policy (live_provenance_audit policy a), hardware_verified, gpu_verified, model).

Section Live.
Context {prim : Primitives}.

(** The fields of the live verdict: four of its bounds are the evidence's own
    expiry. *)
Definition live_parts (gpu : GpuAttestationVerifier) (request : VerificationRequest)
    (e : VerifiedProviderLiveEvidence) (provider : ProviderReference) (reference : RouteReference)
    (policy_digest : string) (validity : ComputedValidityBounds) : VerdictParts :=
  let '(audit, hardware_verified, gpu_verified, model) := live_audit gpu request e provider reference in
  let channel_verified := live_channel_verified request e reference in
  let confidentiality_result := bound_or_not channel_verified (lv_confidentiality_result e) in {|
    vp_audit := audit;
    vp_tee_platform := Some (cpu_policy_str (eh_cpu (lv_hardware e)));
    vp_proved := hardware_verified && gpu_verified && channel_verified;
    vp_trust_tier := rt_trust_tier (rq_route request);
    vp_model_binding_result := model;
    vp_request_channel_bound := channel_verified;
    vp_request_confidentiality_result := confidentiality_result;
    vp_response_confidentiality_result := confidentiality_result;
    vp_response_channel_bound := channel_verified;
    vp_response_integrity_result := integrity_or_not channel_verified;
    vp_policy_digest := policy_digest;
    vp_raw_evidence_digest := sha256_digest (rq_raw_evidence request);
    vp_evidence_digest := lv_evidence_digest e;
    vp_issued_at := lv_issued_at e;
    vp_validity := validity;
    vp_evidence_until := lv_expires_at e;
    vp_artifacts := {|
      va_source_url := Some (rt_evidence_endpoint (rq_route request));
      va_tee_measurement := Some (lv_tee_measurement e);
      va_report_data := Some (lv_report_data e);
      va_signing_public_key := lv_signing_public_key e;
      va_e2ee_capability := lv_e2ee_capability e;
      va_model_manifest := lv_attested_model e;
      va_model_artifacts := [] |} |}.

Definition verify_provider_live_evidence (gpu : GpuAttestationVerifier) (now : Z)
    (request : VerificationRequest) (e : VerifiedProviderLiveEvidence) : Result AttestationVerdict :=
  '(provider, reference) ← find_references request;
  policy_digest ← policy_digest (rq_policy request);
  validity ← compute_validity_bounds now (lv_issued_at e) (verdict_ttl_millis (rq_policy request)) None
               (validity_candidates (lv_expires_at_epoch_ms e) (lv_expires_at e) reference
                  (rq_reference_values request));
  finish_verdict request (live_parts gpu request e provider reference policy_digest validity).
End Live.

(** ** Hex *)

Lemma nibble_digit n : (n < 16)%N → hex_nibble (hex_digit n) = Some n.
Proof.
  intros H. assert (∀ k, (k < 16)%nat → hex_nibble (hex_digit (N.of_nat k)) = Some (N.of_nat k)) as Hk.
  { intros k ?. do 16 (destruct k as [|k]; [reflexivity|]). lia. }
  specialize (Hk (N.to_nat n)). rewrite N2Nat.id in Hk. apply Hk. lia.
Qed.

Lemma nibbles_byte c :
  ascii_of_N (N.lor (N.shiftl (code c / 16) 4) (code c mod 16)) = c.
Proof. by destruct c as [[] [] [] [] [] [] [] []]. Qed.

Lemma hex_pairs_lower_hex s : hex_pairs (lower_hex s) = s.
Proof.
  induction s as [|c s IH]; [done|]. cbn [lower_hex hex_pairs].
  assert (code c < 256)%N as Hc by apply N_ascii_bounded.
  rewrite !nibble_digit by (apply N.mod_lt || apply N.Div0.div_lt_upper_bound; lia).
  cbn [default from_option id]. by rewrite nibbles_byte, IH.
Qed.

(** Reading hex and printing it back lowers the case, nothing else. *)
Lemma nibble_lowercase c n :
  hex_nibble c = Some n → (n < 16)%N ∧ hex_digit n = to_ascii_lowercase_byte c.
Proof.
  revert n. destruct c as [[] [] [] [] [] [] [] []]; intros n; cbn; intros H; try discriminate H;
    injection H as <-; split; reflexivity.
Qed.
Lemma hexdigit_nibble c : is_ascii_hexdigit c = true → ∃ n, hex_nibble c = Some n.
Proof. destruct c as [[] [] [] [] [] [] [] []]; cbn; intros H; try discriminate H; eauto. Qed.

Lemma byte_nibbles h l :
  (h < 16)%N → (l < 16)%N →
  let b := ascii_of_N (N.lor (N.shiftl h 4) l) in (code b / 16 = h ∧ code b mod 16 = l)%N.
Proof.
  intros Hh Hl. assert (∀ i j, (i < 16)%nat → (j < 16)%nat →
    let b := ascii_of_N (N.lor (N.shiftl (N.of_nat i) 4) (N.of_nat j)) in
    (code b / 16 = N.of_nat i ∧ code b mod 16 = N.of_nat j)%N) as Hk.
  { intros i j ? ?. do 16 (destruct i as [|i];
      [do 16 (destruct j as [|j]; [split; reflexivity|]); lia|]). lia. }
  specialize (Hk (N.to_nat h) (N.to_nat l)). rewrite !N2Nat.id in Hk. apply Hk; lia.
Qed.

Lemma lower_hex_pairs v :
  Nat.even (String.length v) = true → all_bytes is_ascii_hexdigit v = true →
  lower_hex (hex_pairs v) = to_ascii_lowercase v.
Proof.
  enough (∀ n v, (String.length v ≤ n)%nat → Nat.even (String.length v) = true →
    all_bytes is_ascii_hexdigit v = true → lower_hex (hex_pairs v) = to_ascii_lowercase v) as H
    by (intros; by eapply H).
  clear v. induction n as [|n IH]; intros v Hn He Ha.
  { by destruct v; [|cbn in Hn; lia]. }
  destruct v as [|h [|l v]]; [done|discriminate He|].
  rewrite !all_bytes_cons in Ha. bools. destruct Ha as (Hh & Hl & Hv).
  destruct (hexdigit_nibble _ Hh) as [nh Eh], (hexdigit_nibble _ Hl) as [nl El].
  destruct (nibble_lowercase _ _ Eh) as [Bh Dh], (nibble_lowercase _ _ El) as [Bl Dl].
  cbn [hex_pairs lower_hex to_ascii_lowercase]. rewrite Eh, El. cbn [default from_option id].
  destruct (byte_nibbles nh nl Bh Bl) as [-> ->]. rewrite Dh, Dl.
  rewrite IH; [done|cbn in Hn; lia|exact He|done].
Qed.

Lemma lower_hex_even s : Nat.even (String.length (lower_hex s)) = true.
Proof. induction s as [|c s IH]; [done|exact IH]. Qed.
Lemma lower_hex_digits s : all_bytes is_ascii_hexdigit (lower_hex s) = true.
Proof.
  induction s as [|c s IH]; [done|]. cbn [lower_hex]. rewrite !all_bytes_cons, IH.
  by destruct c as [[] [] [] [] [] [] [] []].
Qed.

(** Hex decoding inverts printing: every byte string is read back from its
    lowercase hex, and whatever decodes prints back as its lowercase form. *)
Theorem decode_hex_roundtrip :
  (∀ bytes, decode_hex (lower_hex bytes) = Ok bytes)
  ∧ (∀ value bytes, decode_hex value = Ok bytes → lower_hex bytes = to_ascii_lowercase value).
Proof.
  split.
  - intros s. unfold decode_hex. by rewrite lower_hex_even, lower_hex_digits, hex_pairs_lower_hex.
  - unfold decode_hex. intros v b H. inv_ok. bools. apply lower_hex_pairs; tauto.
Qed.

(** ** Specification *)

Record live_gpu_attested (gpu : GpuAttestationVerifier) (evidence : option NvidiaGpuAttestationEvidence)
    (expected_nonce : string) (allowed : list GpuTeeKind) (provider route_id : string)
    (attestation : NvidiaGpuAttestationEvidence) : Prop := {
  lg_allowed : NvidiaCc ∈ allowed;
  lg_present : evidence = Some attestation;
  lg_schema : ng_schema attestation = NVIDIA_EVIDENCE_SCHEMA;
  lg_nonce : eq_ignore_ascii_case (ng_nonce attestation) expected_nonce = true;
  lg_verified : ∃ verified,
    verify_nvidia_gpu_attestation
      {| nr_evidence := attestation; nr_expected_nonce := expected_nonce; nr_expected_tee := NvidiaCc;
         nr_provider := provider; nr_route_id := route_id |} = Ok verified
    ∧ vg_tee verified = NvidiaCc ∧ eq_ignore_ascii_case (vg_nonce verified) expected_nonce = true
    ∧ vg_attestation_format verified = ng_attestation_format attestation;
}.

Definition live_gpu_met (gpu : GpuAttestationVerifier) (request : VerificationRequest)
    (e : VerifiedProviderLiveEvidence) : Prop :=
  match hw_gpu (hardware (rq_policy request)) with
  | GpuNotRequired => True
  | GpuOneOf allowed => ∃ attestation,
      live_gpu_attested gpu (lv_gpu_attestation e) (lv_gpu_nonce e) allowed
        (rt_provider (rq_route request)) (rt_route_id (rq_route request)) attestation
  end.

Record live_satisfies (gpu : GpuAttestationVerifier) (request : VerificationRequest)
    (e : VerifiedProviderLiveEvidence) (provider : ProviderReference) (reference : RouteReference) : Prop := {
  ls_route : route_metadata_matches (lv_provider e) (lv_route_id e) (lv_evidence_family e)
               (rq_route request) reference = true;
  ls_ppq : lv_evidence_family e = "ppq_ehbp" → measurement_accepted provider (lv_tee_measurement e) = true;
  ls_cpu : cpu_reference_match (hw_cpu (hardware (rq_policy request))) (eh_cpu (lv_hardware e))
             (lv_tee_measurement e) provider reference = true;
  ls_gpu : live_gpu_met gpu request e;
  ls_channel : lv_channel_binding_verified e = true;
  ls_kind : rt_channel_binding_kind (rq_route request) = rr_channel_binding_kind reference
            ∧ channel_satisfies (rt_channel_binding_kind (rq_route request))
                (channel_binding_requirement (rq_policy request)) = true;
  ls_nonce : lv_nonce_binding_verified e ≠ Some false;
  ls_freshness : per_request (rq_policy request) = true → lv_nonce_binding_verified e = Some true;
  ls_no_receipt : no_receipt_demanded (rq_policy request) = true;
  ls_model : model_requirement_met (model_binding_requirement (rq_policy request))
               (is_some (lv_attested_model e)) (live_model_verified request e reference) = true;
  ls_no_provenance : provenance_required (provenance (rq_policy request)) = false;
}.

(** What the families fill in: one of the two channel checks, and a bound
    result for a verified channel. *)
Record live_well_formed (e : VerifiedProviderLiveEvidence) : Prop := {
  lw_check : lv_channel_check e = "tls_binding" ∨ lv_channel_check e = "e2ee_key_binding";
  lw_result : lv_channel_binding_verified e = true →
    confidentiality_bound (lv_confidentiality_result e) = true;
  lw_message : is_empty (trim (lv_channel_error e)) = false;
}.

(** ** The audit blocks exactly when the specification fails *)

Lemma live_gpu_Ok gpu evidence nonce allowed provider route_id :
  verify_live_nvidia_gpu_attestation gpu evidence nonce allowed provider route_id = Ok tt
  ↔ ∃ attestation, live_gpu_attested gpu evidence nonce allowed provider route_id attestation.
Proof.
  assert (existsb (λ kind, kind =?= NvidiaCc) allowed = true ↔ NvidiaCc ∈ allowed) as Hin.
  { rewrite existsb_exists. split.
    - intros (k & Hk & ->%bool_decide_eq_true). by apply list_elem_of_In.
    - intros Hk. exists NvidiaCc. split; [by apply list_elem_of_In|done]. }
  unfold verify_live_nvidia_gpu_attestation. split.
  - intros H. inv_ok. bools. eexists. constructor; [tauto|done..|]. eexists. split; [done|]. tauto.
  - intros (a & [Ha Hp Hs Hn (v & Hv & Ht & Hvn & Hf)]). rewrite (proj2 Hin Ha). cbn [negb].
    rewrite Hp, ok_or_some, ok_bind, Hs, Hn, bool_decide_true by done. cbn [negb].
    rewrite Hv. cbn [map_err]. rewrite ok_bind, Hvn, !bool_decide_true by done. done.
Qed.

Lemma blocked_live_gpu gpu request e a :
  fresh "gpu_tee" a →
  blocked (rq_policy request) (push_live_gpu gpu request e a).1 = false
  ↔ live_gpu_met gpu request e ∧ blocked (rq_policy request) a = false.
Proof.
  intros H. unfold push_live_gpu, live_gpu_met.
  destruct (hw_gpu (hardware (rq_policy request))) as [|allowed]; cbn [fst].
  - rewrite blocked_na by done. tauto.
  - rewrite blocked_push, orb_false_iff, negb_false_iff, <-live_gpu_Ok by done.
    destruct (verify_live_nvidia_gpu_attestation _ _ _ _ _ _) as [[]|]; cbn [is_ok]; intuition congruence.
Qed.
Lemma lookup_live_gpu name gpu request e a :
  contains ["gpu_tee"] name = false →
  checks (push_live_gpu gpu request e a).1 !! name = checks a !! name.
Proof.
  intros H. cbn in H. bools. unfold push_live_gpu.
  destruct (hw_gpu (hardware (rq_policy request))); cbn [fst]; autorewrite with audit_lookup;
    by rewrite !bool_decide_false by intuition congruence.
Qed.

Lemma blocked_ppq policy e provider a :
  fresh "cpu_measurement_reference" a →
  blocked policy (push_ppq_measurement e provider a)
  = ((lv_evidence_family e =?= "ppq_ehbp") && negb (measurement_accepted provider (lv_tee_measurement e)))
    || blocked policy a.
Proof.
  intros H. unfold push_ppq_measurement. destruct (lv_evidence_family e =?= "ppq_ehbp"); [|done].
  by rewrite blocked_push.
Qed.
Lemma lookup_ppq name e provider a :
  contains ["cpu_measurement_reference"] name = false →
  checks (push_ppq_measurement e provider a) !! name = checks a !! name.
Proof.
  intros H. cbn in H. bools. unfold push_ppq_measurement. case_bool_decide; [|done].
  rewrite lookup_push_check_ne; [done|]. apply bool_decide_eq_false. intuition congruence.
Qed.

Lemma blocked_live_channel policy e verified a :
  live_well_formed e → all_fresh ["tls_binding"; "e2ee_key_binding"; "nonce_binding"] a →
  blocked policy (live_channel_audit e verified a)
  = negb verified
    || match lv_nonce_binding_verified e with Some n => negb n | None => per_request policy end
    || blocked policy a.
Proof.
  intros [Hc _ _] Hf. unfold live_channel_audit, all_fresh in *.
  apply List.Forall_cons_iff in Hf as [H1 Hf]. apply List.Forall_cons_iff in Hf as [H2 Hf].
  apply List.Forall_cons_iff in Hf as [H3 _].
  assert (∀ name, fresh name a → blocked policy
    (insert_check (if lv_channel_check e =?= "tls_binding" then "e2ee_key_binding" else "tls_binding")
       NotApplicable (push_check (lv_channel_check e) verified (lv_channel_error e) a))
    = negb verified || blocked policy a) as Hch.
  { intros _ _. destruct Hc as [-> | ->]; cbn [bool_decide]; rewrite blocked_na, blocked_push;
      try done; unfold fresh in *; audit_fresh. }
  specialize (Hch _ H3).
  destruct (lv_nonce_binding_verified e) as [n|].
  - rewrite blocked_push, Hch; [by destruct verified, n|]. unfold fresh in *.
    destruct Hc as [-> | ->]; audit_fresh.
  - rewrite blocked_insert, Hch; [|unfold fresh in *; destruct Hc as [-> | ->]; audit_fresh].
    change (check_blocks policy ("nonce_binding", NotSupported)) with (per_request policy).
    by destruct verified, (per_request policy).
Qed.
Lemma lookup_live_channel name e verified a :
  live_well_formed e → contains ["tls_binding"; "e2ee_key_binding"; "nonce_binding"] name = false →
  checks (live_channel_audit e verified a) !! name = checks a !! name.
Proof.
  intros [Hc _ _] H. cbn in H. bools. unfold live_channel_audit.
  destruct Hc as [-> | ->];
    [rewrite bool_decide_true by done | rewrite bool_decide_false by done];
    destruct (lv_nonce_binding_verified e);
    repeat first [ rewrite lookup_insert_check_ne by (apply bool_decide_eq_false; intuition congruence)
                 | rewrite lookup_push_check_ne by (apply bool_decide_eq_false; intuition congruence)];
    reflexivity.
Qed.
Lemma live_channel_nonce e verified a :
  checks (live_channel_audit e verified a) !! "nonce_binding"
  = Some (match lv_nonce_binding_verified e with
          | Some true => Verified | Some false => Failed | None => NotSupported end).
Proof.
  unfold live_channel_audit. destruct (lv_nonce_binding_verified e) as [[]|].
  - exact (lookup_push_check_eq _ true _ _).
  - exact (lookup_push_check_eq _ false _ _).
  - apply lookup_insert_check_eq.
Qed.

Lemma blocked_live_provenance policy a :
  all_fresh ["image_provenance"; "model_artifact_provenance"] a →
  blocked policy (live_provenance_audit policy a)
  = (workload_image (provenance policy) || model_artifacts_required (provenance policy)) || blocked policy a.
Proof.
  intros H. unfold live_provenance_audit. destruct (_ || _); by rewrite ?blocked_push, ?blocked_na by fresh_tac.
Qed.
Lemma lookup_live_provenance name policy a :
  contains ["image_provenance"; "model_artifact_provenance"] name = false →
  checks (live_provenance_audit policy a) !! name = checks a !! name.
Proof.
  intros H. cbn in H. bools. unfold live_provenance_audit.
  destruct (workload_image (provenance policy) || model_artifacts_required (provenance policy));
    autorewrite with audit_lookup; by rewrite !bool_decide_false by intuition congruence.
Qed.

Lemma live_audit_eq gpu request e provider reference :
  (live_audit gpu request e provider reference).1.1.1 =
    let policy := rq_policy request in
    let requirement := hw_cpu (hardware policy) in
    let verified := live_channel_verified request e reference in
    let result := bound_or_not verified (lv_confidentiality_result e) in
    let a := push_route_metadata (lv_provider e) (lv_route_id e) (lv_evidence_family e) (rq_route request)
               reference no_checks in
    let a := (push_verified_cpu requirement
      (cpu_reference_match requirement (eh_cpu (lv_hardware e)) (lv_tee_measurement e) provider reference)
      "verified TDX identity is not accepted by signed reference values"
      "verified TDX identity is not accepted by policy and signed reference values"
      (push_ppq_measurement e provider a)).1 in
    let a := live_channel_audit e verified (push_live_gpu gpu request e a).1 in
    let a := push_data_checks policy result result (integrity_or_not verified) verified verified a in
    let a := (push_model_binding_check (model_binding_requirement policy)
                (is_some (lv_attested_model e)) (live_model_verified request e reference) a).1 in
    push_final_checks policy (live_provenance_audit policy a).
Proof.
  unfold live_audit, live_hardware_audit.
  destruct (push_verified_cpu _ _ _ _ _) as [a h]. cbn [fst snd].
  destruct (push_live_gpu _ _ _ _) as [b g]. cbn [fst snd].
  by destruct (push_model_binding_check _ _ _ _) as [c m].
Qed.

Ltac live_step wf :=
  first [ audit_step | rewrite lookup_live_gpu by reflexivity | rewrite lookup_ppq by reflexivity
        | rewrite (lookup_live_channel _ _ _ _ wf) by reflexivity
        | rewrite lookup_live_provenance by reflexivity ].
Ltac live_fresh wf :=
  unfold all_fresh, fresh; repeat (apply List.Forall_cons; [|]); try apply List.Forall_nil;
  repeat live_step wf; try reflexivity.

Lemma live_channel_iff request e reference :
  live_channel_verified request e reference = true ↔
    lv_channel_binding_verified e = true
    ∧ rt_channel_binding_kind (rq_route request) = rr_channel_binding_kind reference
    ∧ channel_satisfies (rt_channel_binding_kind (rq_route request))
        (channel_binding_requirement (rq_policy request)) = true.
Proof.
  unfold live_channel_verified. rewrite !andb_true_iff, bool_decide_eq_true. split; [tauto|].
  intros (Hc & Hk & Hs). rewrite <-Hk. tauto.
Qed.

(** The data checks of a channel whose verified result is a bound one. *)
Lemma live_data_ok policy (verified : bool) result :
  (verified = true → confidentiality_bound result = true) →
  confidentiality_satisfies (bound_or_not verified result) (request_confidentiality_requirement policy) && verified
  && confidentiality_satisfies (bound_or_not verified result) (response_confidentiality_requirement policy) && verified
  && integrity_satisfies (integrity_or_not verified) (response_integrity_requirement policy)
  = verified && no_receipt_demanded policy.
Proof.
  intros H. destruct verified; [|by rewrite ?andb_false_r].
  by rewrite (bound_data_ok policy true true result (H eq_refl)).
Qed.

Lemma nonce_freshness (nonce : option bool) (fresh : bool) :
  match nonce with Some n => negb n | None => fresh end = false
  ∧ (fresh = true → (Some match nonce with Some true => Verified | Some false => Failed | None => NotSupported end
       =?= Some Verified) || (Some NotApplicable =?= Some Verified) = true)
  ↔ nonce ≠ Some false ∧ (fresh = true → nonce = Some true).
Proof. destruct nonce as [[]|], fresh; cbn; intuition congruence. Qed.

Lemma live_blocked_iff gpu request e provider reference :
  live_well_formed e →
  blocked (rq_policy request) (live_audit gpu request e provider reference).1.1.1 = false
  ↔ live_satisfies gpu request e provider reference.
Proof.
  intros wf. rewrite live_audit_eq. cbn zeta.
  rewrite blocked_final by live_fresh wf. rewrite blocked_live_provenance by live_fresh wf.
  rewrite blocked_model_binding by live_fresh wf. rewrite blocked_data_checks by live_fresh wf.
  rewrite (blocked_live_channel _ _ _ _ wf) by live_fresh wf.
  rewrite live_data_ok by (intros [H _]%live_channel_iff; by apply wf).
  repeat first [live_step wf | rewrite lookup_data_receipt]. rewrite live_channel_nonce.
  rewrite !orb_false_iff, !required_iff, !negb_false_iff, !andb_true_iff.
  rewrite blocked_live_gpu by live_fresh wf. rewrite blocked_verified_cpu by live_fresh wf.
  rewrite blocked_ppq, blocked_route_metadata, no_checks_pass by live_fresh wf.
  rewrite cpu_match_required, !orb_false_iff, required_iff, !negb_false_iff, bool_decide_eq_true,
    live_channel_iff.
  pose proof (nonce_freshness (lv_nonce_binding_verified e) (per_request (rq_policy request))) as Hn.
  assert (provenance_required (provenance (rq_policy request)) = false ↔
    (workload_image (provenance (rq_policy request)) = false
     ∧ model_artifacts_required (provenance (rq_policy request)) = false)
    ∧ (reproducible_build (provenance (rq_policy request)) = false
       ∧ source_attestation (provenance (rq_policy request)) = false)
    ∧ dependency_sbom (provenance (rq_policy request)) = false) as Hprov
    by (unfold provenance_required; rewrite !orb_false_iff; tauto).
  split.
  - intros H. destruct_and!. destruct Hn as [Hn _]. destruct Hn; [by split|]. constructor; tauto.
  - intros []. destruct Hn as [_ Hn]. destruct Hn; [by split|]. tauto.
Qed.

Section LiveVerdicts.
Context {prim : Primitives}.

Lemma live_parts_audit gpu request e provider reference pd b :
  vp_audit (live_parts gpu request e provider reference pd b)
  = (live_audit gpu request e provider reference).1.1.1.
Proof. unfold live_parts. by destruct (live_audit _ _ _ _ _) as [[[]]]. Qed.

Lemma live_verdict_allowed gpu now request e v :
  live_well_formed e → verify_provider_live_evidence gpu now request e = Ok v →
  enforcement (rq_policy request) = Enforce →
  ∃ provider reference, find_references request = Ok (provider, reference)
    ∧ (v_request_allowed v = true ↔ live_satisfies gpu request e provider reference).
Proof.
  intros wf H He. unfold verify_provider_live_evidence in H. inv_ok.
  match goal with H : find_references _ = Ok ?p |- _ => destruct p as [provider reference] end.
  inv_ok. exists provider, reference. split; [done|].
  apply finished_allowed in H; [|done]. rewrite H, negb_true_iff, live_parts_audit.
  by apply live_blocked_iff.
Qed.

(** The validity window of a live verdict: the route reference's end is a
    candidate for the expiry but not one of the six bounds reported. *)
Lemma live_window gpu request e provider reference pd b :
  validity_bounds (v_validity (build_verdict request (live_parts gpu request e provider reference pd b)))
  = [cv_policy_ttl_until b; lv_expires_at e; lv_expires_at e; lv_expires_at e; lv_expires_at e;
     rv_valid_until (rq_reference_values request)].
Proof. unfold live_parts. by destruct (live_audit _ _ _ _ _) as [[[]]]. Qed.

Lemma live_expiry gpu request e provider reference pd b :
  v_expires_at_epoch_ms (build_verdict request (live_parts gpu request e provider reference pd b))
  = cv_expires_at_epoch_ms b.
Proof. unfold live_parts. by destruct (live_audit _ _ _ _ _) as [[[]]]. Qed.

(** A live verdict is impossible when the route reference ends first: if
    its end lies before the policy TTL, the evidence's expiry and the end of the
    reference values, verification returns an error for every evidence, because
    the computed expiry is then not one of the reported bounds. *)
Theorem live_route_expiry_rejected gpu now request e provider reference issued :
  find_references request = Ok (provider, reference) →
  parse_utc_timestamp_millis (lv_issued_at e) = Ok issued →
  let ttl := saturating_add issued (verdict_ttl_millis (rq_policy request)) in
  (0 ≤ ttl < end_of_year_9999)%Z →
  spells (lv_expires_at_epoch_ms e, lv_expires_at e) →
  spells (rv_valid_until_epoch_ms (rq_reference_values request), rv_valid_until (rq_reference_values request)) →
  (rr_valid_until_epoch_ms reference < ttl)%Z →
  (rr_valid_until_epoch_ms reference < lv_expires_at_epoch_ms e)%Z →
  (rr_valid_until_epoch_ms reference < rv_valid_until_epoch_ms (rq_reference_values request))%Z →
  is_ok (verify_provider_live_evidence gpu now request e) = false.
Proof.
  intros Href Hi ttl Httl He Hr Hlt1 Hlt2 Hlt3.
  destruct (verify_provider_live_evidence gpu now request e) as [v|] eqn:E; [exfalso|done].
  unfold verify_provider_live_evidence in E. rewrite Href, ok_bind in E. inv_ok.
  match goal with H : compute_validity_bounds _ _ _ _ _ = Ok ?w |- _ =>
    rename H into Hb; rename w into bounds; destruct (validity_bounds_spec _ _ _ _ _ _ Hb) as (i & Hi' & _ & Hc & _ & Ht) end.
  rewrite Hi in Hi'. injection Hi' as <-.
  apply finish_Ok in E as [-> V%validate_parts].
  destruct (validity_summary_minimum _ (ok_validity _ V)) as (_ & _ & bound & Hin & Hp).
  rewrite live_window in Hin. rewrite live_expiry in Hp.
  specialize (Hc (rr_valid_until_epoch_ms reference, rr_valid_until reference)).
  assert (cv_expires_at_epoch_ms bounds ≤ rr_valid_until_epoch_ms reference)%Z as Hle
    by (apply Hc; unfold validity_candidates; set_solver).
  unfold spells in He, Hr. cbn [fst snd] in He, Hr.
  assert (parse_utc_timestamp_millis (cv_policy_ttl_until bounds) = Ok ttl) as Hpt
    by (rewrite Ht; by apply parse_format).
  rewrite !elem_of_cons in Hin. destruct Hin as [->|[->|[->|[->|[->|[->|[]%elem_of_nil]]]]]];
    (rewrite Hpt in Hp || rewrite He in Hp || rewrite Hr in Hp); injection Hp as Hp; lia.
Qed.
End LiveVerdicts.

(** ** Concrete inputs *)

Definition sample_live : VerifiedProviderLiveEvidence := {|
  lv_provider := "near"; lv_route_id := "r"; lv_evidence_family := "near_hw_verified_tls";
  lv_tee_measurement := "tdx:1"; lv_hardware := {| eh_cpu := Tdx; eh_gpu := None |};
  lv_gpu_attestation := None; lv_gpu_nonce := ""; lv_report_data := "";
  lv_nonce_binding_verified := Some true; lv_channel_binding_verified := true;
  lv_channel_check := "tls_binding"; lv_channel_error := "unbound";
  lv_confidentiality_result := ConfChannelBound; lv_attested_model := None;
  lv_issued_at := "2026-02-01T00:00:00Z"; lv_expires_at := "2026-02-01T00:05:00Z";
  lv_expires_at_epoch_ms := 1769904300000; lv_evidence_digest := sample_digest;
  lv_signing_public_key := None; lv_e2ee_capability := None |}.

(** A route whose reference ends at the given instant. *)
Definition live_request (until : string) (until_ms : Z) : VerificationRequest :=
  sample_request require_hw_verified_tls
    (sample_attested_route "near_hw_verified_tls" KindTeeTerminatedTls HwVerifiedTls)
    (sample_reference "near_hw_verified_tls" KindTeeTerminatedTls HwVerifiedTls until until_ms) None "live".

(** A reference that outlives the evidence: the verdict is issued. *)
Example live_run :
  match verify_provider_live_evidence FailClosedGpuAttestationVerifier 0
          (live_request sample_timestamp 1772359200000) sample_live with
  | Ok v => v_request_allowed v = true ∧ v_expires_at v = "2026-02-01T00:05:00Z"
  | Err _ => False
  end.
Proof. vm_compute. by split. Qed.

Lemma live_route_expiry_rejected_witness :
  is_ok (verify_provider_live_evidence FailClosedGpuAttestationVerifier 0
           (live_request "2026-02-01T00:01:00Z" 1769904060000) sample_live) = false.
Proof.
  set (reference := sample_reference "near_hw_verified_tls" KindTeeTerminatedTls HwVerifiedTls
    "2026-02-01T00:01:00Z" 1769904060000).
  apply (live_route_expiry_rejected FailClosedGpuAttestationVerifier 0
    (live_request "2026-02-01T00:01:00Z" 1769904060000) sample_live
    {| pr_accepted_measurements := ["tdx:1"]; pr_routes := {[ "r" := reference ]} |} reference 1769904000000);
    try reflexivity.
  split; vm_compute; congruence.
Defined.
