(* ===== verification/LiveFamilies.v ===== *)
(** * The live Chutes and NEAR families

    verifier.rs: a capture of a provider's attestation endpoint, bound to the
    request, whose TDX quote goes through the quote verifier and whose report
    data binds the channel key and the fresh nonce. *)

From Stdlib Require Import Ascii String ZArith Lia.
From stdpp Require Import base gmap strings list numbers.
From S2P Require Import Prelude RustStr Errors Collections Timestamps Canonical JsonInjective Policy Verdict Evidence Bindings Signature ReferenceValues VerifierCore VerifierSound EvidenceDocuments QuoteInterfaces LiveEvidence.

Open Scope string_scope.

(** The JSON that a live evidence digest hashes. *)
Definition live_digest_value (schema : string) (capture : Value) (verified_quote : VerifiedTdxQuote) : Value :=
  VObject [("schema", VString schema); ("capture", capture);
           ("verified_quote", verified_tdx_quote_value verified_quote)].

Definition live_gpu_kind (gpu_attestation : option NvidiaGpuAttestationEvidence) : option GpuTeeKind :=
  match gpu_attestation with Some _ => Some NvidiaCc | None => None end.

(** A GPU attestation, when there is one, answers the given challenge. *)
Definition gpu_nonce_mismatch (gpu_attestation : option NvidiaGpuAttestationEvidence) (nonce : string) : bool :=
  match gpu_attestation with
  | Some gpu => negb (eq_ignore_ascii_case (ng_nonce gpu) nonce)
  | None => false
  end.

(** What NEAR's attestation endpoint answers. *)
Record NearAttestationReport := {
  na_intel_quote : string;
  na_request_nonce : string;
  na_signing_address : string;
  na_signing_algo : string;
  na_tls_cert_fingerprint : string;
  na_model_name : option string;
}.
Class NearReader := { near_report_from_slice : string → option NearAttestationReport }.

Section LiveFamilies.
Context {prim : Primitives} {x509 : CertificateReader} {readers : EvidenceReaders} {near : NearReader}.

(** ** Chutes *)

Definition chutes_live_metadata (capture : ChutesLiveEvidence) : LiveCaptureMetadata := {|
  lm_provider := cl_provider capture; lm_route_id := cl_route_id capture;
  lm_evidence_family := cl_evidence_family capture; lm_requested_model := cl_requested_model capture;
  lm_policy_digest := cl_policy_digest capture; lm_evidence_endpoint := cl_evidence_endpoint capture |}.

Definition chutes_live_nonce_verified (request : VerificationRequest) (capture : ChutesLiveEvidence)
    (verified_quote : VerifiedTdxQuote) (certificate_spki : string) : bool :=
  (verify_chutes_live_report_data_binding (td_report_data verified_quote) (cl_request_nonce capture)
     (cl_e2e_public_key_base64 capture) certificate_spki =?= LiveVerified)
  && freshness_nonce_matches_policy (rq_policy request) (rq_expected_freshness_nonce request)
       (cl_request_nonce capture).

(** The evidence of a capture whose quote has been verified. *)
Definition chutes_live_evidence (capture : ChutesLiveEvidence) (e2e_public_key : string)
    (verified_quote : VerifiedTdxQuote) (nonce_binding_verified : bool) (gpu_nonce evidence_digest : string)
    (expires_at_epoch_ms : Z) : VerifiedProviderLiveEvidence := {|
  lv_provider := cl_provider capture; lv_route_id := cl_route_id capture;
  lv_evidence_family := cl_evidence_family capture;
  lv_tee_measurement := chutes_live_tee_measurement verified_quote;
  lv_hardware := {| eh_cpu := Tdx; eh_gpu := live_gpu_kind (cl_gpu_attestation capture) |};
  lv_gpu_attestation := cl_gpu_attestation capture; lv_gpu_nonce := gpu_nonce;
  lv_report_data := td_report_data verified_quote;
  lv_nonce_binding_verified := Some nonce_binding_verified;
  lv_channel_binding_verified := nonce_binding_verified;
  lv_channel_check := "e2ee_key_binding";
  lv_channel_error := "Chutes ML-KEM key and instance certificate are not bound to the fresh verified TDX quote";
  lv_confidentiality_result := if nonce_binding_verified then EncryptedBound else ConfNotBound;
  lv_attested_model := None; lv_issued_at := td_issued_at verified_quote;
  lv_expires_at := format_utc_timestamp_millis expires_at_epoch_ms;
  lv_expires_at_epoch_ms := expires_at_epoch_ms; lv_evidence_digest := evidence_digest;
  lv_signing_public_key := Some (sha256_digest e2e_public_key);
  lv_e2ee_capability := Some "chutes-ml-kem-768-e2ee" |}.

Definition verify_chutes_live_evidence_with_attestation_verifiers (quotes : TinfoilQuoteVerifier)
    (gpu : GpuAttestationVerifier) (now : Z) (request : VerificationRequest) : Result AttestationVerdict :=
  capture ← ok_or (chutes_live_from_slice (rq_raw_evidence request)) json_error;
  bail (InvalidEvidence "unsupported schema {}") when negb (cl_schema capture =?= CHUTES_LIVE_SCHEMA);
  _ ← validate_live_capture_metadata (chutes_live_metadata capture) request;
  _ ← validate_nonce_hex (cl_request_nonce capture);
  e2e_public_key ← decode_base64 (cl_e2e_public_key_base64 capture);
  bail (InvalidEvidence "Chutes ML-KEM-768 public key has {} bytes, expected 1184")
    when negb (N.of_nat (String.length e2e_public_key) =? 1184)%N;
  quote_bytes ← decode_base64 (cl_quote_base64 capture);
  verified_quote ← verify_tdx_quote quote_bytes;
  certificate_der ← decode_base64 (cl_certificate_der_base64 capture);
  certificate_spki ← certificate_spki_sha256_hex certificate_der;
  certificate_expires_at ← validate_live_certificate certificate_der (td_issued_at verified_quote);
  let nonce_binding_verified :=
    chutes_live_nonce_verified request capture verified_quote certificate_spki in
  gpu_nonce ← ok_or (chutes_expected_report_data_prefix (cl_request_nonce capture)
                       (cl_e2e_public_key_base64 capture))
                (InvalidEvidence "Chutes request nonce or ML-KEM public key is malformed");
  bail (InvalidEvidence "Chutes GPU evidence nonce does not match the quote-bound E2EE key challenge")
    when gpu_nonce_mismatch (cl_gpu_attestation capture) gpu_nonce;
  let expires_at_epoch_ms := Z.min (td_expires_at_epoch_ms verified_quote) certificate_expires_at in
  evidence_digest ← canonical_digest
    (live_digest_value "confidential-inference.chutes-live-verified-evidence.v1"
       (chutes_live_value capture) verified_quote);
  verify_provider_live_evidence gpu now request
    (chutes_live_evidence capture e2e_public_key verified_quote nonce_binding_verified gpu_nonce
       evidence_digest expires_at_epoch_ms).

(** ** NEAR *)

Definition near_live_metadata (capture : NearLiveEvidence) : LiveCaptureMetadata := {|
  lm_provider := nl_provider capture; lm_route_id := nl_route_id capture;
  lm_evidence_family := nl_evidence_family capture; lm_requested_model := nl_requested_model capture;
  lm_policy_digest := nl_policy_digest capture; lm_evidence_endpoint := nl_evidence_endpoint capture |}.

(** Report data: the hash of signing address and TLS fingerprint, then the nonce. *)
Definition near_report_data_matches (report_data report_binding_input nonce_bytes : string) : bool :=
  (String.length report_data =? 64)%nat
  && (String.substring 0 32 report_data =?= sha256 report_binding_input)
  && (String.substring 32 32 report_data =?= nonce_bytes).

Definition near_model_verified (request : VerificationRequest) (report : NearAttestationReport) : bool :=
  match na_model_name report with
  | Some model => (model =?= rt_provider_model (rq_route request))
                  || (model =?= rt_canonical_model (rq_route request))
  | None => false
  end.

(** The capture's certificate and the endpoint's report. *)
Definition near_live_report (capture : NearLiveEvidence)
    : Result (string * string * NearAttestationReport) :=
  certificate_der ← decode_base64 (nl_live_tls_leaf_certificate_der_base64 capture);
  certificate_spki ← certificate_spki_sha256_hex certificate_der;
  bail (InvalidEvidence "NEAR live TLS SPKI does not match the captured certificate")
    when negb (eq_ignore_ascii_case certificate_spki (nl_live_tls_spki_sha256 capture));
  raw_attestation ← decode_base64 (nl_raw_attestation_body_base64 capture);
  report ← ok_or (near_report_from_slice raw_attestation)
             (InvalidEvidence "NEAR attestation response is not valid JSON: {error}");
  bail (InvalidEvidence "NEAR attestation used unsupported signing algorithm {}")
    when negb (na_signing_algo report =?= "ecdsa");
  bail (InvalidEvidence "NEAR attestation request_nonce does not match the verifier challenge")
    when negb (eq_ignore_ascii_case (na_request_nonce report) (nl_request_nonce capture));
  Ok (certificate_der, certificate_spki, report).

(** The quote, and what its report data binds: whether the signing address,
    the live certificate's key and the nonce are those of the quote. *)
Definition near_live_quote (quotes : TinfoilQuoteVerifier) (capture : NearLiveEvidence)
    (certificate_spki : string) (report : NearAttestationReport) : Result (VerifiedTdxQuote * bool) :=
  quote_bytes ← decode_hex (na_intel_quote report);
  verified_quote ← verify_tdx_quote quote_bytes;
  bail (InvalidEvidence "NEAR TDX mr_config_id is not a v1 compose measurement")
    when negb (String.length (td_mr_config_id verified_quote) =? 96)%nat
         || negb (starts_with "01" (td_mr_config_id verified_quote));
  attested_tls_fingerprint ← normalize_live_sha256_hex (na_tls_cert_fingerprint report);
  bail (InvalidEvidence "NEAR attested TLS fingerprint does not match the live TLS certificate")
    when negb (eq_ignore_ascii_case attested_tls_fingerprint certificate_spki);
  signing_address ← decode_hex (trim_start_matches "0x" (na_signing_address report));
  bail (InvalidEvidence "NEAR ECDSA signing address is not 20 bytes")
    when negb (String.length signing_address =? 20)%nat;
  fingerprint_bytes ← decode_hex attested_tls_fingerprint;
  report_data ← decode_hex (td_report_data verified_quote);
  nonce_bytes ← decode_hex (nl_request_nonce capture);
  Ok (verified_quote,
      near_report_data_matches report_data (signing_address +:+ fingerprint_bytes) nonce_bytes).

Definition near_live_evidence (request : VerificationRequest) (capture : NearLiveEvidence)
    (report : NearAttestationReport) (verified_quote : VerifiedTdxQuote) (nonce_binding_verified : bool)
    (evidence_digest : string) (expires_at_epoch_ms : Z) : VerifiedProviderLiveEvidence := {|
  lv_provider := nl_provider capture; lv_route_id := nl_route_id capture;
  lv_evidence_family := nl_evidence_family capture;
  lv_tee_measurement := near_live_tee_measurement verified_quote;
  lv_hardware := {| eh_cpu := Tdx; eh_gpu := live_gpu_kind (nl_gpu_attestation capture) |};
  lv_gpu_attestation := nl_gpu_attestation capture; lv_gpu_nonce := nl_request_nonce capture;
  lv_report_data := td_report_data verified_quote;
  lv_nonce_binding_verified := Some nonce_binding_verified;
  lv_channel_binding_verified := nonce_binding_verified;
  lv_channel_check := "tls_binding";
  lv_channel_error := "NEAR live TLS certificate, signing address, and nonce are not bound to the verified TDX quote";
  lv_confidentiality_result := if nonce_binding_verified then ConfChannelBound else ConfNotBound;
  lv_attested_model :=
    if near_model_verified request report then Some (rt_canonical_model (rq_route request)) else None;
  lv_issued_at := td_issued_at verified_quote;
  lv_expires_at := format_utc_timestamp_millis expires_at_epoch_ms;
  lv_expires_at_epoch_ms := expires_at_epoch_ms; lv_evidence_digest := evidence_digest;
  lv_signing_public_key := Some ("ecdsa:" +:+ na_signing_address report);
  lv_e2ee_capability := None |}.

Definition verify_near_live_evidence_with_attestation_verifiers (quotes : TinfoilQuoteVerifier)
    (gpu : GpuAttestationVerifier) (now : Z) (request : VerificationRequest) : Result AttestationVerdict :=
  capture ← ok_or (near_live_from_slice (rq_raw_evidence request)) json_error;
  bail (InvalidEvidence "unsupported schema {}") when negb (nl_schema capture =?= NEAR_LIVE_SCHEMA);
  _ ← validate_live_capture_metadata (near_live_metadata capture) request;
  _ ← validate_nonce_hex (nl_request_nonce capture);
  '(certificate_der, certificate_spki, report) ← near_live_report capture;
  '(verified_quote, report_data_matches) ← near_live_quote quotes capture certificate_spki report;
  let nonce_binding_verified :=
    report_data_matches
    && freshness_nonce_matches_policy (rq_policy request) (rq_expected_freshness_nonce request)
         (nl_request_nonce capture) in
  bail (InvalidEvidence "NEAR GPU evidence nonce does not match the verifier challenge")
    when gpu_nonce_mismatch (nl_gpu_attestation capture) (nl_request_nonce capture);
  certificate_expires_at ← validate_live_certificate certificate_der (td_issued_at verified_quote);
  let expires_at_epoch_ms := Z.min (td_expires_at_epoch_ms verified_quote) certificate_expires_at in
  evidence_digest ← canonical_digest
    (live_digest_value "confidential-inference.near-live-verified-evidence.v1"
       (near_live_value capture) verified_quote);
  verify_provider_live_evidence gpu now request
    (near_live_evidence request capture report verified_quote nonce_binding_verified evidence_digest
       expires_at_epoch_ms).

(** ** What a request let through rests on *)

(** A live capture made for this request. *)
Definition capture_for (metadata : LiveCaptureMetadata) (request : VerificationRequest) : Prop :=
  lm_provider metadata = rt_provider (rq_route request)
  ∧ lm_route_id metadata = rt_route_id (rq_route request)
  ∧ lm_evidence_family metadata = rt_evidence_family (rq_route request)
  ∧ lm_requested_model metadata = rt_requested_model (rq_route request)
  ∧ policy_digest (rq_policy request) = Ok (lm_policy_digest metadata)
  ∧ lm_evidence_endpoint metadata = rt_evidence_endpoint (rq_route request).

Lemma metadata_Ok metadata request :
  validate_live_capture_metadata metadata request = Ok tt ↔ capture_for metadata request.
Proof.
  unfold validate_live_capture_metadata, capture_for. split.
  - intros H. inv_ok. bools. destruct_and!. split_and!; congruence.
  - intros (-> & -> & -> & -> & Hd & ->). rewrite Hd, ok_bind. by rewrite !bool_decide_true by done.
Qed.

Lemma measurement_accepted_elem provider m :
  measurement_accepted provider m = true ↔ m ∈ pr_accepted_measurements provider.
Proof.
  unfold measurement_accepted. rewrite existsb_exists. split.
  - intros (x & Hx & ->%bool_decide_eq_true). by apply list_elem_of_In.
  - intros H. exists m. split; [by apply list_elem_of_In | by apply bool_decide_eq_true].
Qed.

Lemma cpu_match_measurement policy cpu m provider reference :
  cpu_required policy = true → cpu_reference_match (hw_cpu (hardware policy)) cpu m provider reference = true →
  m ∈ pr_accepted_measurements provider.
Proof.
  unfold cpu_required, cpu_reference_match. intros Hc H.
  destruct (hw_cpu (hardware policy)); [done|..]; bools; apply measurement_accepted_elem; tauto.
Qed.

Lemma chutes_live_well_formed capture key quote nonce gpu_nonce digest expires :
  live_well_formed (chutes_live_evidence capture key quote nonce gpu_nonce digest expires).
Proof. constructor; [by right| |vm_compute; reflexivity]. cbn. by intros ->. Qed.

Lemma near_live_well_formed request capture report quote nonce digest expires :
  live_well_formed (near_live_evidence request capture report quote nonce digest expires).
Proof. constructor; [by left| |vm_compute; reflexivity]. cbn. by intros ->. Qed.

(** The quote and capture behind an allowed live Chutes request. *)
Definition chutes_backed (quotes : TinfoilQuoteVerifier) (request : VerificationRequest) : Prop :=
  ∃ capture quote_bytes quote der spki provider reference,
    chutes_live_from_slice (rq_raw_evidence request) = Some capture
    ∧ capture_for (chutes_live_metadata capture) request
    ∧ base64_decode (cl_quote_base64 capture) = Some quote_bytes
    ∧ verify_tdx_quote quote_bytes = Ok quote
    ∧ base64_decode (cl_certificate_der_base64 capture) = Some der
    ∧ certificate_spki_sha256_hex der = Ok spki
    ∧ is_ok (validate_live_certificate der (td_issued_at quote)) = true
    ∧ verify_chutes_live_report_data_binding (td_report_data quote) (cl_request_nonce capture)
        (cl_e2e_public_key_base64 capture) spki = LiveVerified
    ∧ freshness_nonce_matches_policy (rq_policy request) (rq_expected_freshness_nonce request)
        (cl_request_nonce capture) = true
    ∧ find_references request = Ok (provider, reference)
    ∧ (cpu_required (rq_policy request) = true →
         chutes_live_tee_measurement quote ∈ pr_accepted_measurements provider).

Lemma chutes_live_allowed quotes gpu now request v :
  verify_chutes_live_evidence_with_attestation_verifiers quotes gpu now request = Ok v →
  enforcement (rq_policy request) = Enforce → v_request_allowed v = true → chutes_backed quotes request.
Proof.
  unfold verify_chutes_live_evidence_with_attestation_verifiers, decode_base64. intros H He Ha. inv_ok.
  match goal with H : validate_live_capture_metadata _ _ = Ok _ |- _ => apply metadata_Ok in H end.
  match goal with H : verify_provider_live_evidence _ _ _ _ = Ok v |- _ =>
    apply live_verdict_allowed in H as (provider & reference & Href & Hiff);
    [|apply chutes_live_well_formed|done] end.
  apply Hiff in Ha. destruct Ha as [_ _ Hcpu _ Hch _ _ _ _ _ _].
  cbn [chutes_live_evidence lv_channel_binding_verified lv_tee_measurement] in Hch, Hcpu.
  unfold chutes_live_nonce_verified in Hch. bools.
  match goal with H : validate_live_certificate _ _ = Ok _ |- _ => rename H into Hcert end.
  eexists _, _, _, _, _, provider, reference. split_and!; try eassumption.
  - by rewrite Hcert.
  - tauto.
  - tauto.
  - intros Hr. by eapply cpu_match_measurement.
Qed.

(** The GPU attestation behind one: for the challenge that hashes the request's
    nonce and the end-to-end key. *)
Lemma chutes_live_gpu quotes gpu now request v allowed :
  verify_chutes_live_evidence_with_attestation_verifiers quotes gpu now request = Ok v →
  enforcement (rq_policy request) = Enforce → v_request_allowed v = true →
  hw_gpu (hardware (rq_policy request)) = GpuOneOf allowed →
  ∃ capture attestation,
    chutes_live_from_slice (rq_raw_evidence request) = Some capture
    ∧ live_gpu_attested gpu (cl_gpu_attestation capture)
        (sha256_hex (cl_request_nonce capture +:+ cl_e2e_public_key_base64 capture)) allowed
        (rt_provider (rq_route request)) (rt_route_id (rq_route request)) attestation.
Proof.
  unfold verify_chutes_live_evidence_with_attestation_verifiers, decode_base64. intros H He Ha Hg. inv_ok.
  match goal with H : verify_provider_live_evidence _ _ _ _ = Ok v |- _ =>
    apply live_verdict_allowed in H as (provider & reference & Href & Hiff);
    [|apply chutes_live_well_formed|done] end.
  apply Hiff in Ha as [_ _ _ Hgpu _ _ _ _ _ _ _]. unfold live_gpu_met in Hgpu. rewrite Hg in Hgpu.
  destruct Hgpu as [attestation Hgpu]. cbn [chutes_live_evidence lv_gpu_attestation lv_gpu_nonce] in Hgpu.
  match goal with H : chutes_expected_report_data_prefix _ _ = Some _ |- _ =>
    unfold chutes_expected_report_data_prefix in H; repeat case_match; [done..|]; injection H as <- end.
  eauto.
Qed.

(** A live Chutes request let through rests on a verified quote: the
    capture was made for this route, model, endpoint and policy; the quote
    verifier accepted its quote; the quote's report data binds the expected
    nonce, the end-to-end key and the key of the captured certificate, valid when
    the quote was; and a required CPU TEE has a pinned measurement. *)
Theorem chutes_live_allowed_sound quotes gpu now request v :
  verify_chutes_live_evidence_with_attestation_verifiers quotes gpu now request = Ok v →
  enforcement (rq_policy request) = Enforce → v_request_allowed v = true →
  ∃ capture quote_bytes quote der spki provider reference,
    chutes_live_from_slice (rq_raw_evidence request) = Some capture
    ∧ capture_for (chutes_live_metadata capture) request
    ∧ base64_decode (cl_quote_base64 capture) = Some quote_bytes
    ∧ verify_tdx_quote quote_bytes = Ok quote
    ∧ base64_decode (cl_certificate_der_base64 capture) = Some der
    ∧ certificate_spki_sha256_hex der = Ok spki
    ∧ is_ok (validate_live_certificate der (td_issued_at quote)) = true
    ∧ verify_chutes_live_report_data_binding (td_report_data quote) (cl_request_nonce capture)
        (cl_e2e_public_key_base64 capture) spki = LiveVerified
    ∧ freshness_nonce_matches_policy (rq_policy request) (rq_expected_freshness_nonce request)
        (cl_request_nonce capture) = true
    ∧ find_references request = Ok (provider, reference)
    ∧ (cpu_required (rq_policy request) = true →
         chutes_live_tee_measurement quote ∈ pr_accepted_measurements provider).
Proof. apply chutes_live_allowed. Qed.

(** The two halves of NEAR report data. *)
Lemma live_report_data_shape report nonce key spki :
  verify_chutes_live_report_data_binding report nonce key spki = LiveVerified →
  eq_ignore_ascii_case report (sha256_hex (nonce +:+ key) +:+ to_ascii_lowercase spki) = true.
Proof.
  unfold verify_chutes_live_report_data_binding, chutes_expected_report_data_prefix.
  destruct (negb _) eqn:E; [done|]. destruct (is_empty key); [done|]. destruct (_ || _); [done|].
  by destruct (eq_ignore_ascii_case _ _).
Qed.
Lemma near_report_data_shape data input nonce :
  near_report_data_matches data input nonce = true → data = sha256 input +:+ nonce.
Proof.
  unfold near_report_data_matches. intros H. bools. destruct H as [[Hl Hh] Hn].
  rewrite (substring_halves 32 32 data Hl). congruence.
Qed.

(** C20: a live NEAR request let through rests on a verified quote whose report
    data is the hash of the report's signing address, 20 bytes, and of the live certificate's
    key digest, followed by the expected nonce; the capture was made for this
    request, and a required CPU TEE has a pinned measurement. *)
Theorem near_live_allowed_sound quotes gpu now request v :
  verify_near_live_evidence_with_attestation_verifiers quotes gpu now request = Ok v →
  enforcement (rq_policy request) = Enforce → v_request_allowed v = true →
  ∃ capture report quote_bytes quote der spki address key nonce provider reference,
    near_live_from_slice (rq_raw_evidence request) = Some capture
    ∧ capture_for (near_live_metadata capture) request
    ∧ near_live_report capture = Ok (der, spki, report)
    ∧ decode_hex (na_intel_quote report) = Ok quote_bytes
    ∧ verify_tdx_quote quote_bytes = Ok quote
    ∧ certificate_spki_sha256_hex der = Ok spki
    ∧ decode_hex (to_ascii_lowercase (na_tls_cert_fingerprint report)) = Ok key
    ∧ eq_ignore_ascii_case (to_ascii_lowercase (na_tls_cert_fingerprint report)) spki = true
    ∧ decode_hex (trim_start_matches "0x" (na_signing_address report)) = Ok address ∧ String.length address = 20%nat
    ∧ decode_hex (nl_request_nonce capture) = Ok nonce
    ∧ decode_hex (td_report_data quote) = Ok (sha256 (address +:+ key) +:+ nonce)
    ∧ freshness_nonce_matches_policy (rq_policy request) (rq_expected_freshness_nonce request)
        (nl_request_nonce capture) = true
    ∧ find_references request = Ok (provider, reference)
    ∧ (cpu_required (rq_policy request) = true →
         near_live_tee_measurement quote ∈ pr_accepted_measurements provider).
Proof.
  unfold verify_near_live_evidence_with_attestation_verifiers. intros H He Ha. inv_ok.
  do 2 (repeat match goal with x : _ * _ |- _ => destruct x end; inv_ok).
  match goal with H : validate_live_capture_metadata _ _ = Ok _ |- _ => apply metadata_Ok in H end.
  match goal with H : verify_provider_live_evidence _ _ _ _ = Ok v |- _ =>
    apply live_verdict_allowed in H as (provider & reference & Href & Hiff);
    [|apply near_live_well_formed|done] end.
  apply Hiff in Ha. destruct Ha as [_ _ Hcpu _ Hch _ _ _ _ _ _].
  cbn [near_live_evidence lv_channel_binding_verified lv_tee_measurement] in Hch, Hcpu.
  apply andb_true_iff in Hch as [Hm Hf].
  match goal with H : near_live_quote _ _ _ _ = Ok _ |- _ =>
    unfold near_live_quote, normalize_live_sha256_hex in H; rename H into Hq end.
  match goal with H : near_live_report _ = Ok _ |- _ => rename H into Hrep; pose proof Hrep as Hrep' end.
  unfold near_live_report, decode_base64 in Hrep'. inv_ok.
  repeat match goal with H : (_, _) = (_, _) |- _ => injection H as <- H; try subst end. subst. bools.
  eexists _, _, _, _, _, _, _, _, _, provider, reference.
  split_and!; try eassumption; [apply near_report_data_shape in Hm as <-; eassumption|].
  intros Hr. by eapply cpu_match_measurement.
Qed.
End LiveFamilies.

(** ** Concrete inputs *)

#[local] Existing Instance sample_x509.

Definition sample_tdx_quote (report_data mr_config_id : string) : VerifiedTdxQuote := {|
  td_tee_measurement := "tdx"; td_mr_td := "t"; td_mr_config_id := mr_config_id; td_rtmr0 := "0";
  td_rtmr1 := "1"; td_rtmr2 := "2"; td_rtmr3 := "3"; td_report_data := report_data;
  td_issued_at := "2026-02-01T00:00:00Z"; td_expires_at := "2026-02-01T00:05:00Z";
  td_expires_at_epoch_ms := 1769904300000 |}.

(** A back end that accepts one quote. *)
Definition one_quote_verifier (bytes : string) (quote : VerifiedTdxQuote) : TinfoilQuoteVerifier := {|
  verify_tinfoil_quote _ := Err (InvalidEvidence "no capture");
  verify_tdx_quote q := if q =?= bytes then Ok quote else Err (InvalidEvidence "unknown quote") |}.

(** The request of a live family whose references pin one measurement. *)
Definition pinned_request (family : string) (kind : ChannelBindingKind) (tier : TrustTier)
    (policy : VerificationPolicy) (measurement nonce raw : string) : VerificationRequest :=
  let r := sample_request policy (sample_attested_route family kind tier)
             (sample_reference family kind tier sample_timestamp 1772359200000) (Some nonce) raw in
  {| rq_route := rq_route r; rq_route_execution_status := rq_route_execution_status r;
     rq_chat_executable := rq_chat_executable r; rq_known_unsupported_modes := rq_known_unsupported_modes r;
     rq_expected_freshness_nonce := rq_expected_freshness_nonce r; rq_policy := rq_policy r;
     rq_reference_values :=
       sample_payload "2026.1" "2026.1" 1
         {| pr_accepted_measurements := [measurement];
            pr_routes := {[ "r" := sample_reference family kind tier sample_timestamp 1772359200000 ]} |};
     rq_reference_signature := rq_reference_signature r; rq_reference_values_digest := rq_reference_values_digest r;
     rq_registry_digest := rq_registry_digest r; rq_registry_version := rq_registry_version r;
     rq_registry_source := rq_registry_source r; rq_registry_sync_completed_at := rq_registry_sync_completed_at r;
     rq_registry_signature := rq_registry_signature r; rq_reference_values_source := rq_reference_values_source r;
     rq_raw_evidence := raw |}.

Definition live_nonce : string := zeros 64.

(** A Chutes instance: an ML-KEM key of 1184 bytes. *)
Definition mlkem_key : string := zeros (N.to_nat 1184).
Definition sample_chutes_live : ChutesLiveEvidence := {|
  cl_schema := CHUTES_LIVE_SCHEMA; cl_provider := "near"; cl_route_id := "r";
  cl_evidence_family := "chutes_live_e2ee"; cl_requested_model := "m";
  cl_policy_digest := ok_value (policy_digest require_attested_e2ee); cl_request_nonce := live_nonce;
  cl_evidence_endpoint := "https://evidence"; cl_chute_id := "c"; cl_instance_id := "i";
  cl_e2e_public_key_base64 := mlkem_key; cl_quote_base64 := "quote"; cl_certificate_der_base64 := "cert";
  cl_gpu_attestation := None |}.
Definition sample_chutes_quote : VerifiedTdxQuote :=
  sample_tdx_quote (sha256_hex (live_nonce +:+ mlkem_key) +:+ sha256_hex "cert") "".

(** A NEAR node: a 20-byte address, the certificate's key digest, the nonce. *)
Definition near_address : string := zeros 40.
Definition sample_near_quote : VerifiedTdxQuote :=
  sample_tdx_quote
    (sha256_hex (hex_pairs near_address +:+ hex_pairs (sha256_hex "cert")) +:+ live_nonce) ("01" +:+ zeros 94).
Definition sample_near_live : NearLiveEvidence := {|
  nl_schema := NEAR_LIVE_SCHEMA; nl_provider := "near"; nl_route_id := "r";
  nl_evidence_family := "near_hw_verified_tls"; nl_requested_model := "m";
  nl_policy_digest := ok_value (policy_digest require_hw_verified_tls); nl_request_nonce := live_nonce;
  nl_evidence_endpoint := "https://evidence"; nl_live_tls_spki_sha256 := sha256_hex "cert";
  nl_live_tls_leaf_certificate_der_base64 := "cert"; nl_raw_attestation_body_base64 := "report";
  nl_gpu_attestation := None |}.
#[local] Instance sample_near_reader : NearReader := {|
  near_report_from_slice raw :=
    if raw =?= "report"
    then Some {| na_intel_quote := lower_hex "quote"; na_request_nonce := live_nonce;
                 na_signing_address := "0x" +:+ near_address; na_signing_algo := "ecdsa";
                 na_tls_cert_fingerprint := sha256_hex "cert"; na_model_name := Some "pm" |}
    else None |}.

#[local] Instance live_family_readers : EvidenceReaders := {|
  value_from_slice _ := None; fixture_from_slice _ := None; tinfoil_tls_from_slice _ := None;
  chutes_e2ee_from_slice _ := None;
  chutes_live_from_slice raw := if raw =?= "chutes" then Some sample_chutes_live else None;
  tinfoil_live_from_slice _ := None;
  near_live_from_slice raw := if raw =?= "near" then Some sample_near_live else None;
  dstack_from_slice _ := None; base64_decode s := Some s |}.

Definition chutes_live_request : VerificationRequest :=
  pinned_request "chutes_live_e2ee" KindAttestedAppE2ee AppE2ee require_attested_e2ee
    (chutes_live_tee_measurement sample_chutes_quote) live_nonce "chutes".
Definition near_live_request : VerificationRequest :=
  pinned_request "near_hw_verified_tls" KindTeeTerminatedTls HwVerifiedTls require_hw_verified_tls
    (near_live_tee_measurement sample_near_quote) live_nonce "near".

Definition allowed_run (r : Result AttestationVerdict) : bool :=
  match r with Ok v => v_request_allowed v | Err _ => false end.
Lemma allowed_run_inv r : allowed_run r = true → ∃ v, r = Ok v ∧ v_request_allowed v = true.
Proof. destruct r; [eauto|done]. Qed.

Lemma chutes_live_allowed_sound_witness :
  ∃ quote_bytes, verify_tdx_quote (TinfoilQuoteVerifier := one_quote_verifier "quote" sample_chutes_quote)
                   quote_bytes = Ok sample_chutes_quote.
Proof.
  destruct (allowed_run_inv (verify_chutes_live_evidence_with_attestation_verifiers
    (one_quote_verifier "quote" sample_chutes_quote) FailClosedGpuAttestationVerifier 0 chutes_live_request))
    as (v & E & Hv); [vm_compute; reflexivity|].
  destruct (chutes_live_allowed_sound _ _ _ _ v E eq_refl Hv)
    as (c & bytes & quote & _ & _ & _ & _ & _ & _ & _ & Hq & _).
  exists bytes. rewrite Hq. f_equal. cbn in Hq. case_bool_decide; congruence.
Defined.

Lemma near_live_allowed_sound_witness :
  ∃ quote_bytes, verify_tdx_quote (TinfoilQuoteVerifier := one_quote_verifier "quote" sample_near_quote)
                   quote_bytes = Ok sample_near_quote.
Proof.
  destruct (allowed_run_inv (verify_near_live_evidence_with_attestation_verifiers
    (one_quote_verifier "quote" sample_near_quote) FailClosedGpuAttestationVerifier 0 near_live_request))
    as (v & E & Hv); [vm_compute; reflexivity|].
  destruct (near_live_allowed_sound _ _ _ _ v E eq_refl Hv)
    as (c & report & bytes & quote & _ & _ & _ & _ & _ & _ & _ & _ & _ & _ & _ & Hq & _).
  exists bytes. rewrite Hq. f_equal. cbn in Hq. case_bool_decide; congruence.
Defined.
