(* ===== verification/HardwareBackEnds.v ===== *)
(** * Verdicts over the hardware back ends

    The Tinfoil and Chutes families of verifier.rs with the back ends of
    sev_snp.rs, tdx.rs and gpu.rs in place of the interfaces they are verified
    against: what an allowed request rests on, down to the signatures. *)

From Stdlib Require Import Ascii String ZArith Lia.
From stdpp Require Import base gmap strings list sets numbers.
From S2P Require Import Prelude RustStr Errors Collections Timestamps Canonical JsonInjective Policy Verdict Evidence Bindings Signature ReferenceValues VerifierCore VerifierSound EvidenceDocuments QuoteInterfaces SevSnp TdxCollateral NrasToken TinfoilVerifier LiveEvidence LiveFamilies.

Open Scope string_scope.

Section BackEnds.
Context {prim : Primitives} {laws : Sha256Laws} {x509 : CertificateReader} {readers : EvidenceReaders}
        {tinfoil : TinfoilReaders} {near : NearReader} {amd : AmdCrypto} {dcap : DcapLibrary} {tokens : TokenCrypto}.

(** C13: a Tinfoil request let through by the SEV-SNP back end under a policy that
    requires a CPU TEE rests on an AMD report: signed by a chip key that chains to
    the pinned Genoa root and states the report's chip and TCB, with debugging off
    and the minimum TCB and firmware, whose report data starts with the digest of
    the live certificate's key, and whose measurement is pinned. *)
Theorem tinfoil_snp_allowed_sound vcek_der clock now request v :
  verify_tinfoil_tls_evidence_with_quote_verifier (SevSnpTinfoilQuoteVerifier vcek_der clock) now request = Ok v →
  enforcement (rq_policy request) = Enforce → cpu_required (rq_policy request) = true →
  v_request_allowed v = true →
  ∃ parsed t certificate provider reference,
    parse_tinfoil_live_capture (rq_raw_evidence request) = Ok parsed
    ∧ clock = Some t ∧ snp_accepted (quote_request parsed) vcek_der t certificate
    ∧ N.testbit (le_field (pc_quote_bytes parsed) 8 8) 19 = false
    ∧ find_references request = Ok (provider, reference)
    ∧ "sev-snp:measurement:" +:+ lower_hex (slice (pc_quote_bytes parsed) 144 192) ∈ pr_accepted_measurements provider.
Proof.
  intros H He Hc Ha. destruct (tinfoil_cpu_quote _ _ _ _ H He Hc Ha)
    as (parsed & quote & provider & reference & spki & Hp & Hq & _ & _ & _ & _ & _ & Href & Hm & _).
  apply snp_verifier_quote in Hq as (t & certificate & -> & _ & Hacc & ->).
  exists parsed, t, certificate, provider, reference. split_and!; try done.
  apply sn_policy, rp_guest in Hacc. apply Hacc.
Qed.


(** C12: a live Chutes request let through by the DCAP and NRAS back ends under a
    policy that requires a confidential GPU: the quote was verified against
    collateral before any part of it was due for an update, with platform and
    quoting enclave current; its report data is the hash of the request's nonce and
    the end-to-end key, then the key digest of the captured certificate; the nonce is
    the one expected where the policy asks for a fresh one; and the GPU's token was
    signed by a configured NVIDIA key for that same hash, and is in force. *)
Theorem chutes_hardware_allowed_sound collateral now_quote verifier clock now request v allowed :
  verify_chutes_live_evidence_with_attestation_verifiers
    (DcapTdxTinfoilQuoteVerifier collateral now_quote) (nras_back_end verifier clock) now request = Ok v →
  enforcement (rq_policy request) = Enforce → v_request_allowed v = true →
  hw_gpu (hardware (rq_policy request)) = GpuOneOf allowed →
  ∃ capture quote_bytes report expires dcap_report parsed_quote der spki challenge attestation token header,
    chutes_live_from_slice (rq_raw_evidence request) = Some capture
    ∧ base64_decode (cl_quote_base64 capture) = Some quote_bytes
    ∧ dcap_collateral_valid_until_epoch_millis collateral = Ok expires ∧ (now_quote < expires)%Z
    ∧ dcap_verify quote_bytes collateral (now_quote / 1000) = DcapVerified dcap_report ∧ up_to_date dcap_report
    ∧ quote_parse quote_bytes = Some parsed_quote ∧ tdx_report parsed_quote = Ok report
    ∧ base64_decode (cl_certificate_der_base64 capture) = Some der ∧ certificate_spki_sha256_hex der = Ok spki
    ∧ challenge = sha256_hex (cl_request_nonce capture +:+ cl_e2e_public_key_base64 capture)
    ∧ freshness_nonce_matches_policy (rq_policy request) (rq_expected_freshness_nonce request) (cl_request_nonce capture) = true
    ∧ eq_ignore_ascii_case (lower_hex (tr_report_data report)) (challenge +:+ to_ascii_lowercase spki) = true
    ∧ cl_gpu_attestation capture = Some attestation ∧ NvidiaCc ∈ allowed
    ∧ ng_nras_token attestation = Some token
    ∧ token_accepted token (nv_jwks verifier) challenge (nv_issuer verifier) (nv_required_claims_version verifier)
        clock header.
Proof.
  intros H He Ha Hg.
  destruct (chutes_live_allowed _ _ _ _ _ H He Ha)
    as (capture & quote_bytes & quote & der & spki & provider & reference & Hcap & _ & Hqb & Hq & Hder & Hspki & _ & Hrd & Hfresh & _).
  destruct (chutes_live_gpu _ _ _ _ _ _ H He Ha Hg) as (capture' & attestation & Hcap' & Hgpu).
  rewrite Hcap in Hcap'. injection Hcap' as <-.
  apply dcap_quote_iff in Hq as (expires & dr & parsed & report & Hx & Hn & Hv & Hu & Hpq & Hr & ->).
  destruct Hgpu as [Hallow Hpres _ _ (verified & Hver & _)].
  apply nras_iff in Hver as (_ & token & header & Htok & Hacc & _). cbn in Htok, Hacc.
  exists capture, quote_bytes, report, expires, dr, parsed, der, spki,
    (sha256_hex (cl_request_nonce capture +:+ cl_e2e_public_key_base64 capture)), attestation, token, header.
  split_and!; try done. by apply live_report_data_shape in Hrd.
Qed.
End BackEnds.

(** ** Concrete inputs *)

(** *** A Tinfoil capture with an AMD report *)

#[local] Existing Instance sample_amd.
#[local] Existing Instance sample_near_reader.
#[local] Instance back_end_x509 : CertificateReader := {|
  certificate_from_der der :=
    Some {| cert_spki_der := Some der; cert_not_before_secs := 0; cert_not_after_secs := 2000000000 |} |}.
#[local] Instance snp_tinfoil_readers : TinfoilReaders := {|
  attestation_doc_from_slice raw :=
    if raw =?= "body" then Some {| doc_format := TINFOIL_SEV_SNP_GUEST_V2_FORMAT; doc_body := "zipped" |} else None;
  gunzip_take _ raw := if raw =?= "zipped" then Some sample_snp_report else None |}.

Definition snp_sample_reference : RouteReference :=
  let r := sample_reference "tinfoil_tls" KindTeeTerminatedTls HwVerifiedTls sample_timestamp 1772359200000 in
  {| rr_canonical_model := rr_canonical_model r; rr_provider_model := rr_provider_model r;
     rr_evidence_family := rr_evidence_family r; rr_channel_binding_kind := rr_channel_binding_kind r;
     rr_trust_tier := rr_trust_tier r; rr_accepted_cpu_tees := [SevSnp];
     rr_e2ee_public_key_digest := rr_e2ee_public_key_digest r;
     rr_response_signing_key_digest := rr_response_signing_key_digest r; rr_tls_spki_sha256 := rr_tls_spki_sha256 r;
     rr_workload_images := rr_workload_images r; rr_workload_image_digest := rr_workload_image_digest r;
     rr_model_artifacts := rr_model_artifacts r; rr_valid_until := rr_valid_until r;
     rr_valid_until_epoch_ms := rr_valid_until_epoch_ms r |}.
Definition snp_tinfoil_request : VerificationRequest :=
  let r := tinfoil_request require_hw_verified_tls "live" in
  {| rq_route := rq_route r; rq_route_execution_status := rq_route_execution_status r;
     rq_chat_executable := rq_chat_executable r; rq_known_unsupported_modes := rq_known_unsupported_modes r;
     rq_expected_freshness_nonce := rq_expected_freshness_nonce r; rq_policy := rq_policy r;
     rq_reference_values :=
       sample_payload "2026.1" "2026.1" 1
         {| pr_accepted_measurements := ["sev-snp:measurement:" +:+ lower_hex (slice sample_snp_report 144 192)];
            pr_routes := {[ "r" := snp_sample_reference ]} |};
     rq_reference_signature := rq_reference_signature r; rq_reference_values_digest := rq_reference_values_digest r;
     rq_registry_digest := rq_registry_digest r; rq_registry_version := rq_registry_version r;
     rq_registry_source := rq_registry_source r; rq_registry_sync_completed_at := rq_registry_sync_completed_at r;
     rq_registry_signature := rq_registry_signature r; rq_reference_values_source := rq_reference_values_source r;
     rq_raw_evidence := rq_raw_evidence r |}.

Definition snp_clock : option Z := Some 1769904000000%Z.

Lemma tinfoil_snp_allowed_sound_witness :
  ∃ parsed certificate, snp_accepted (quote_request parsed) "vcek" 1769904000000 certificate.
Proof.
  destruct (allowed_run_inv (@verify_tinfoil_tls_evidence_with_quote_verifier _ _ tls_capture_readers _
    (SevSnpTinfoilQuoteVerifier "vcek" snp_clock) 1769904000000 snp_tinfoil_request))
    as (v & E & Hv); [vm_compute; reflexivity|].
  destruct (@tinfoil_snp_allowed_sound _ _ _ tls_capture_readers _ _ _ _ _ _ _ E eq_refl eq_refl Hv)
    as (parsed & t & certificate & _ & _ & _ & Ht & Hacc & _).
  exists parsed, certificate. injection Ht as <-. exact Hacc.
Defined.

(** *** A Chutes instance with a TDX quote and an NVIDIA token *)

Definition chutes_gpu_policy : VerificationPolicy :=
  set_hardware require_attested_e2ee
    {| hw_cpu := hw_cpu (hardware require_attested_e2ee); hw_gpu := GpuOneOf [NvidiaCc] |}.
Definition chutes_challenge : string := sha256_hex (live_nonce +:+ mlkem_key).

#[local] Instance gpu_token_crypto : TokenCrypto := {|
  url_safe_decode s := Some s;
  jwt_header_from_slice s := Some {| jh_alg := "ES384"; jh_kid := Some s |};
  token_value_from_slice s :=
    if s =?= "gpu" then Some (token_claims chutes_challenge true [("exp", VNumber (PosInt 200))]) else None;
  es384_verify key message signature := (message =?= "k1.gpu") && (signature =?= zeros 96) |}.
Definition gpu_evidence : NvidiaGpuAttestationEvidence := {|
  ng_schema := NVIDIA_EVIDENCE_SCHEMA; ng_attestation_format := "nras"; ng_nonce := chutes_challenge; ng_arch := None;
  ng_payload_sha256 := None; ng_raw_payload_base64 := None; ng_nras_token := Some (token_of "k1" "gpu") |}.
Definition chutes_gpu_capture : ChutesLiveEvidence := {|
  cl_schema := CHUTES_LIVE_SCHEMA; cl_provider := "near"; cl_route_id := "r";
  cl_evidence_family := "chutes_live_e2ee"; cl_requested_model := "m";
  cl_policy_digest := ok_value (policy_digest chutes_gpu_policy); cl_request_nonce := live_nonce;
  cl_evidence_endpoint := "https://evidence"; cl_chute_id := "c"; cl_instance_id := "i";
  cl_e2e_public_key_base64 := mlkem_key; cl_quote_base64 := "quote"; cl_certificate_der_base64 := "cert";
  cl_gpu_attestation := Some gpu_evidence |}.
#[local] Instance chutes_gpu_readers : EvidenceReaders := {|
  value_from_slice _ := None; fixture_from_slice _ := None; tinfoil_tls_from_slice _ := None;
  chutes_e2ee_from_slice _ := None;
  chutes_live_from_slice raw := if raw =?= "chutes" then Some chutes_gpu_capture else None;
  tinfoil_live_from_slice _ := None; near_live_from_slice _ := None; dstack_from_slice _ := None;
  base64_decode s := Some s |}.

Definition sample_td_report : TDReport10 := {|
  tr_mr_td := "t"; tr_mr_config_id := "c"; tr_rt_mr0 := "0"; tr_rt_mr1 := "1"; tr_rt_mr2 := "2"; tr_rt_mr3 := "3";
  tr_report_data := sha256 (live_nonce +:+ mlkem_key) +:+ sha256 "cert" |}.
#[local] Instance sample_dcap : DcapLibrary := {|
  dcap_verify quote _ now :=
    if quote =?= "quote"
    then DcapVerified {| vr_status := "UpToDate"; vr_platform_up_to_date := true; vr_qe_up_to_date := true;
                         vr_advisory_ids := [] |}
    else DcapFailed;
  quote_parse quote := if quote =?= "quote" then Some (TD15 {| tr15_base := sample_td_report |}) else None;
  collateral_json json := Some (VObject [("nextUpdate", VString json)]);
  crl_next_update der := Some (if is_empty der then None else Some 1772323200%Z); collateral_value := qc_rest |}.
Definition sample_collateral : QuoteCollateralV3 := {|
  qc_tcb_info := "2026-03-01T00:00:00Z"; qc_qe_identity := "2026-04-01T00:00:00Z"; qc_root_ca_crl := "crl";
  qc_pck_crl := ""; qc_pck_certificate_chain := None; qc_rest := VNull |}.
Definition sample_nras_verifier : NvidiaNrasJwtVerifier := {|
  nv_jwks := sample_jwks; nv_issuer := NVIDIA_NRAS_ISSUER; nv_required_claims_version := NVIDIA_NRAS_CLAIMS_VERSION |}.
Definition sample_token_clock : TokenClock := {| at_nbf := Some 150%Z; at_exp := Some 150%Z |}.

Definition chutes_gpu_request : VerificationRequest :=
  pinned_request "chutes_live_e2ee" KindAttestedAppE2ee AppE2ee chutes_gpu_policy
    (chutes_live_tee_measurement (verified_quote sample_td_report 1769904000000 1772323200000)) live_nonce "chutes".

Lemma chutes_hardware_allowed_sound_witness :
  ∃ token header, token_accepted token sample_jwks chutes_challenge NVIDIA_NRAS_ISSUER NVIDIA_NRAS_CLAIMS_VERSION
                    sample_token_clock header.
Proof.
  destruct (allowed_run_inv (verify_chutes_live_evidence_with_attestation_verifiers
    (DcapTdxTinfoilQuoteVerifier sample_collateral 1769904000000) (nras_back_end sample_nras_verifier sample_token_clock)
    1769904000000 chutes_gpu_request)) as (v & E & Hv); [vm_compute; reflexivity|].
  destruct (chutes_hardware_allowed_sound _ _ _ _ _ _ v _ E eq_refl Hv eq_refl)
    as (capture & _ & _ & _ & _ & _ & _ & _ & challenge & _ & token & header & Hc & _ & _ & _ & _ & _ & _ & _ & _ & _ & -> & _ & _ & _ & _ & _ & Hacc).
  exists token, header. injection Hc as <-. exact Hacc.
Defined.
