(* ===== verification/Ppq.v ===== *)
(** * The PPQ family

    ppq.rs and its entry in verifier.rs: an attestation bundle whose
    certificate carries, in its DNS names, the hash of the attestation document
    and an HPKE key, each split over numbered base32 labels. *)

From Stdlib Require Import Ascii String ZArith Lia.
From stdpp Require Import base gmap strings list numbers sorting.
From S2P Require Import Prelude RustStr Errors Collections Timestamps Canonical JsonInjective Policy Verdict Evidence Bindings.
From S2P Require Import Signature ReferenceValues VerifierCore VerifierSound EvidenceDocuments QuoteInterfaces.
From S2P Require Import LiveEvidence LiveFamilies.

Open Scope string_scope.

(** ** Data *)

Record PpqEhbpLiveEvidence := {
  pq_schema : string;
  pq_provider : string;
  pq_route_id : string;
  pq_evidence_family : string;
  pq_requested_model : string;
  pq_policy_digest : string;
  pq_evidence_endpoint : string;
  pq_raw_bundle_base64 : string;
}.
Definition PPQ_SCHEMA := "confidential-inference.ppq-ehbp-live-evidence.v1".

Definition ppq_value (e : PpqEhbpLiveEvidence) : Value :=
  VObject [("schema", VString (pq_schema e)); ("provider", VString (pq_provider e));
           ("route_id", VString (pq_route_id e)); ("evidence_family", VString (pq_evidence_family e));
           ("requested_model", VString (pq_requested_model e));
           ("policy_digest", VString (pq_policy_digest e));
           ("evidence_endpoint", VString (pq_evidence_endpoint e));
           ("raw_bundle_base64", VString (pq_raw_bundle_base64 e))].

Record Bundle := {
  bu_domain : string;
  bu_enclave_attestation_report : TinfoilAttestationDoc;
  bu_enclave_cert : string;
  bu_vcek : option string;
}.

Record ParsedPpqEvidence := {
  pp_quote : string;
  pp_format : TinfoilAttestationFormat;
  pp_enclave_certificate_der : string;
  pp_spki : string;
  pp_hpke_public_key : string;
  pp_domain : string;
  pp_vcek : string;
}.

Inductive GeneralName := DnsName (name : string) | OtherName.

(** JSON decoding, X.509 extensions (identifier and value, in order), the
    subject-alternative-name decoder, base64 encoding. *)
Class PpqReaders := {
  ppq_from_slice : string → option PpqEhbpLiveEvidence;
  bundle_from_slice : string → option Bundle;
  certificate_extensions : string → option (list (string * string));
  subject_alt_name_from_der : string → option (list GeneralName);
  base64_encode : string → string;
}.

(** ** Names *)

(** [u8::is_ascii_whitespace]. *)
Definition is_ascii_whitespace (c : ascii) : bool :=
  between 32 32 c || between 9 10 c || between 12 13 c.
Definition filter_bytes (p : ascii → bool) (s : string) : string :=
  string_of_list_ascii (List.filter p (bytes s)).

Definition dns_matches (pattern domain : string) : bool :=
  if eq_ignore_ascii_case pattern domain then true
  else match strip_prefix "*." pattern with
       | Some suffix =>
           match split_once "." domain with
           | Some (label, rest) => negb (is_empty label) && eq_ignore_ascii_case rest suffix
           | None => false
           end
       | None => false
       end.

(** ** Base32 over numbered labels *)

(** The chunk a DNS name carries for a prefix: its index and its text. Names
    of other kinds are skipped. *)
Definition san_chunk (prefix name : string) : Result (option (nat * string)) :=
  match split_byte "." name with
  | first :: second :: _ =>
      if eq_ignore_ascii_case second prefix then
        match first with
        | String a (String b (String c rest)) =>
            if is_ascii_digit a && is_ascii_digit b
            then Ok (Some (N.to_nat ((code a - 48) * 10 + code b - 48)%N, String c rest))
            else Err (InvalidEvidence "invalid PPQ SAN chunk index")
        | _ => Err (InvalidEvidence "invalid PPQ SAN chunk index")
        end
      else Ok None
  | _ => Ok None
  end.

Fixpoint san_chunks (prefix : string) (names : list string) : Result (list (nat * string)) :=
  match names with
  | [] => Ok []
  | name :: names =>
      chunk ← san_chunk prefix name;
      chunks ← san_chunks prefix names;
      Ok (match chunk with Some c => c :: chunks | None => chunks end)
  end.

(** [chunks.sort_by_key(|chunk| chunk.0)]. *)
Definition chunk_cmp (x y : nat * string) : comparison := Nat.compare x.1 y.1.

(** Every chunk at its own index. *)
Fixpoint indexed_from (i : nat) (chunks : list (nat * string)) : bool :=
  match chunks with
  | [] => true
  | c :: chunks => (c.1 =? i)%nat && indexed_from (S i) chunks
  end.

Definition to_ascii_uppercase_byte (c : ascii) : ascii :=
  if between 97 122 c then ascii_of_N (code c - 32) else c.

Definition base32_value (byte : ascii) : option N :=
  if between 65 90 (to_ascii_uppercase_byte byte) then Some (code (to_ascii_uppercase_byte byte) - 65)%N
  else if between 50 55 (to_ascii_uppercase_byte byte) then Some (code byte - 50 + 26)%N
  else None.

(** The accumulator: pending bits (a [u32]), their number, the output. *)
Record Base32State := { bs_bits : N; bs_count : N; bs_output : list ascii }.

Definition u32_mask : N := 4294967295.
Definition base32_step (st : Base32State) (value : N) : Base32State :=
  let bits := N.lor (N.land (N.shiftl (bs_bits st) 5) u32_mask) value in
  let count := (bs_count st + 5)%N in
  if (8 <=? count)%N then
    let count := (count - 8)%N in
    {| bs_bits := N.land bits (N.shiftl 1 count - 1); bs_count := count;
       bs_output := (bs_output st ++ [ascii_of_N (N.shiftr bits count)])%list |}
  else {| bs_bits := bits; bs_count := count; bs_output := bs_output st |}.

Fixpoint base32_loop (st : Base32State) (bytes : list ascii) : Result Base32State :=
  match bytes with
  | [] => Ok st
  | byte :: bytes =>
      value ← ok_or (base32_value byte) (InvalidEvidence "invalid PPQ SAN base32");
      base32_loop (base32_step st value) bytes
  end.

Definition base32_decode (bytes : list ascii) : Result (list ascii) :=
  st ← base32_loop {| bs_bits := 0; bs_count := 0; bs_output := [] |} bytes;
  bail (InvalidEvidence "invalid PPQ SAN base32 padding")
    when (5 <=? bs_count st)%N || negb (bs_bits st =? 0)%N;
  Ok (bs_output st).

Definition decode_domains (names : list string) (prefix : string) : Result string :=
  chunks ← san_chunks prefix names;
  let chunks := sort_by chunk_cmp chunks in
  bail (InvalidEvidence "missing or duplicate PPQ SAN chunks")
    when match chunks with [] => true | _ => false end || negb (indexed_from 0 chunks);
  output ← base32_decode (flat_map (λ c, bytes c.2) chunks);
  Ok (string_of_list_ascii output).

Section Ppq.
Context {prim : Primitives} {x509 : CertificateReader} {readers : EvidenceReaders}
        {tinfoil : TinfoilReaders} {ppq : PpqReaders}.

(** ** Parsing *)

Definition SAN_OID := "2.5.29.17".

(** The one subject-alternative-name extension. *)
Fixpoint find_san (san : option (list GeneralName)) (extensions : list (string * string))
    : Result (option (list GeneralName)) :=
  match extensions with
  | [] => Ok san
  | (id, value) :: extensions =>
      if id =?= SAN_OID then
        bail (InvalidEvidence "duplicate certificate SAN extension") when is_some san;
        names ← ok_or (subject_alt_name_from_der value) (InvalidCertificate "{e}");
        find_san (Some names) extensions
      else find_san san extensions
  end.

Fixpoint dns_names (names : list GeneralName) : list string :=
  match names with
  | [] => []
  | DnsName name :: names => name :: dns_names names
  | OtherName :: names => dns_names names
  end.

Definition validate_ppq_quote (format : TinfoilAttestationFormat) (len : nat) : Result unit :=
  match format with
  | SevSnpGuestV2 =>
      bail (InvalidEvidence "invalid PPQ SNP report length") when negb (N.of_nat len =? 1184)%N; Ok tt
  | TdxGuestV2 =>
      bail (InvalidEvidence "invalid PPQ TDX quote length") when (N.of_nat len <? 48)%N; Ok tt
  end.

Definition decode_pem (enclave_cert : string) : Result string :=
  let pem := trim enclave_cert in
  encoded ← ok_or (match strip_prefix "-----BEGIN CERTIFICATE-----" pem with
                   | Some s => strip_suffix s "-----END CERTIFICATE-----"
                   | None => None
                   end) (InvalidEvidence "invalid PPQ certificate PEM");
  ok_or (base64_decode (filter_bytes (λ c, negb (is_ascii_whitespace c)) encoded))
    (InvalidEvidence "invalid PPQ certificate PEM: {e}").

(** The names of the certificate, for the bundle's domain. *)
Definition ppq_names (domain der : string) : Result (list string) :=
  extensions ← ok_or (certificate_extensions der) (InvalidCertificate "{e}");
  san ← find_san None extensions;
  san ← ok_or san (InvalidEvidence "PPQ certificate has no SAN");
  let names := dns_names san in
  bail (InvalidEvidence "PPQ certificate domain mismatch")
    when is_empty domain || negb (existsb (λ name, dns_matches name domain) names);
  Ok names.

Definition ppq_bundle (capture : PpqEhbpLiveEvidence) : Result Bundle :=
  bail (InvalidEvidence "unsupported PPQ evidence schema") when negb (pq_schema capture =?= PPQ_SCHEMA);
  raw ← ok_or (base64_decode (pq_raw_bundle_base64 capture))
          (InvalidEvidence "invalid PPQ bundle base64: {e}");
  bail (InvalidEvidence "PPQ bundle too large") when (4194304 <? N.of_nat (String.length raw))%N;
  ok_or (bundle_from_slice raw) json_error.

Definition parse_ppq_ehbp_evidence (capture : PpqEhbpLiveEvidence) : Result ParsedPpqEvidence :=
  bundle ← ppq_bundle capture;
  let doc := bu_enclave_attestation_report bundle in
  format ← format_parse (doc_format doc);
  quote ← decode_tinfoil_attestation_body (doc_body doc);
  _ ← validate_ppq_quote format (String.length quote);
  der ← decode_pem (bu_enclave_cert bundle);
  names ← ppq_names (bu_domain bundle) der;
  hpke_public_key ← decode_domains names "hpke";
  bail (InvalidEvidence "PPQ HPKE key must be 32 bytes") when negb (String.length hpke_public_key =? 32)%nat;
  attestation_hash ← decode_domains names "hatt";
  bail (InvalidEvidence "PPQ certificate attestation hash mismatch")
    when negb (attestation_hash =?= sha256_hex (doc_format doc +:+ doc_body doc));
  spki ← certificate_spki_sha256_hex der;
  vcek ← ok_or (base64_decode (default "" (bu_vcek bundle))) (InvalidEvidence "invalid PPQ VCEK: {e}");
  bail (InvalidEvidence "empty PPQ VCEK") when (format =?= SevSnpGuestV2) && is_empty vcek;
  Ok {| pp_quote := quote; pp_format := format; pp_enclave_certificate_der := der; pp_spki := spki;
        pp_hpke_public_key := hpke_public_key; pp_domain := bu_domain bundle; pp_vcek := vcek |}.

(** ** The quote *)

Definition ppq_synthetic_capture (capture : PpqEhbpLiveEvidence) (parsed : ParsedPpqEvidence)
    : TinfoilLiveCaptureEvidence := {|
  tl_schema := TINFOIL_LIVE_SCHEMA; tl_provider := pq_provider capture; tl_route_id := pq_route_id capture;
  tl_evidence_family := pq_evidence_family capture; tl_requested_model := pq_requested_model capture;
  tl_policy_digest := pq_policy_digest capture; tl_nonce := None;
  tl_evidence_endpoint := pq_evidence_endpoint capture; tl_live_tls_spki_sha256 := pp_spki parsed;
  tl_live_tls_leaf_certificate_der_base64 := base64_encode (pp_enclave_certificate_der parsed);
  tl_raw_attestation_body_base64 := "" |}.

Definition ppq_quote_request (capture : PpqEhbpLiveEvidence) (parsed : ParsedPpqEvidence)
    : TinfoilQuoteVerificationRequest := {|
  tr_capture := ppq_synthetic_capture capture parsed; tr_attestation_format := pp_format parsed;
  tr_quote_bytes := pp_quote parsed; tr_live_tls_leaf_certificate_der := pp_enclave_certificate_der parsed;
  tr_live_tls_spki_sha256 := pp_spki parsed |}.

Definition verify_ppq_ehbp_quote (quotes : TinfoilQuoteVerifier) (capture : PpqEhbpLiveEvidence)
    (parsed : ParsedPpqEvidence) : Result VerifiedTinfoilQuote :=
  spki ← certificate_spki_sha256_hex (pp_enclave_certificate_der parsed);
  bail (InvalidEvidence "PPQ certificate SPKI does not match parsed SPKI")
    when negb (eq_ignore_ascii_case spki (pp_spki parsed));
  verified ← verify_tinfoil_quote (ppq_quote_request capture parsed);
  bail (InvalidEvidence "PPQ quote verifier returned the wrong format or hardware")
    when negb (vq_attestation_format verified =?= format_as_str (pp_format parsed))
         || negb (eh_cpu (vq_hardware verified) =?= cpu_kind (pp_format parsed));
  bail (InvalidEvidence "PPQ quote report_data does not bind certificate SPKI and HPKE key")
    when negb (eq_ignore_ascii_case (vq_report_data verified)
                 (pp_spki parsed +:+ lower_hex (pp_hpke_public_key parsed)));
  Ok verified.

(** ** The verdict *)

Definition ppq_metadata (capture : PpqEhbpLiveEvidence) : LiveCaptureMetadata := {|
  lm_provider := pq_provider capture; lm_route_id := pq_route_id capture;
  lm_evidence_family := pq_evidence_family capture; lm_requested_model := pq_requested_model capture;
  lm_policy_digest := pq_policy_digest capture; lm_evidence_endpoint := pq_evidence_endpoint capture |}.

Definition ppq_evidence (capture : PpqEhbpLiveEvidence) (verified : VerifiedTinfoilQuote)
    (evidence_digest : string) (expires_at_epoch_ms : Z) : VerifiedProviderLiveEvidence := {|
  lv_provider := pq_provider capture; lv_route_id := pq_route_id capture;
  lv_evidence_family := pq_evidence_family capture; lv_tee_measurement := vq_tee_measurement verified;
  lv_hardware := vq_hardware verified; lv_gpu_attestation := None; lv_gpu_nonce := "";
  lv_report_data := vq_report_data verified; lv_nonce_binding_verified := None;
  lv_channel_binding_verified := true; lv_channel_check := "e2ee_key_binding";
  lv_channel_error := "PPQ HPKE key is not bound to the verified quote";
  lv_confidentiality_result := EncryptedBound; lv_attested_model := None;
  lv_issued_at := vq_issued_at verified;
  lv_expires_at := format_utc_timestamp_millis expires_at_epoch_ms;
  lv_expires_at_epoch_ms := expires_at_epoch_ms; lv_evidence_digest := evidence_digest;
  lv_signing_public_key := None; lv_e2ee_capability := Some "ehbp" |}.

Definition verify_ppq_ehbp_live_evidence_with_attestation_verifiers (quotes : TinfoilQuoteVerifier)
    (gpu : GpuAttestationVerifier) (now : Z) (request : VerificationRequest) : Result AttestationVerdict :=
  capture ← ok_or (ppq_from_slice (rq_raw_evidence request)) json_error;
  _ ← validate_live_capture_metadata (ppq_metadata capture) request;
  parsed ← parse_ppq_ehbp_evidence capture;
  verified ← verify_ppq_ehbp_quote quotes capture parsed;
  certificate_expires_at ←
    validate_live_certificate (pp_enclave_certificate_der parsed) (vq_issued_at verified);
  let expires_at_epoch_ms := Z.min (vq_expires_at_epoch_ms verified) certificate_expires_at in
  evidence_digest ← canonical_digest
    (VArray [ppq_value capture; verified_tinfoil_quote_value verified]);
  verify_provider_live_evidence gpu now request
    (ppq_evidence capture verified evidence_digest expires_at_epoch_ms).
End Ppq.

(** ** Base32 as bit strings

    [nbits k n]: the low [k] bits of [n], most significant first. *)

Fixpoint nbits (k : nat) (n : N) : list bool :=
  match k with O => [] | S k => N.testbit n (N.of_nat k) :: nbits k n end.

Lemma nbits_length k n : length (nbits k n) = k.
Proof. induction k; cbn; congruence. Qed.

Lemma nbits_ext k n m :
  (∀ i, (i < k)%nat → N.testbit n (N.of_nat i) = N.testbit m (N.of_nat i)) → nbits k n = nbits k m.
Proof.
  induction k as [|k IH]; intros H; [done|]. cbn. rewrite (H k) by lia. f_equal. apply IH. intros. apply H. lia.
Qed.

Lemma nbits_split a b n : nbits (a + b) n = (nbits a (N.shiftr n (N.of_nat b)) ++ nbits b n)%list.
Proof.
  induction a as [|a IH]; [done|]. cbn. rewrite IH. f_equal. rewrite N.shiftr_spec by lia. f_equal. lia.
Qed.

Lemma testbit_small n k i : (n < 2 ^ k)%N → (k ≤ i)%N → N.testbit n i = false.
Proof.
  intros H Hi. destruct (decide (n = 0%N)) as [->|]; [apply N.bits_0|].
  apply N.bits_above_log2. apply N.log2_lt_pow2; [lia|]. eapply N.lt_le_trans; [exact H|].
  apply N.pow_le_mono_r; lia.
Qed.

Lemma nbits_inj k n m : (n < 2 ^ N.of_nat k)%N → (m < 2 ^ N.of_nat k)%N → nbits k n = nbits k m → n = m.
Proof.
  intros Hn Hm E. apply N.bits_inj. intros i.
  destruct (decide (i < N.of_nat k)%N) as [Hi|]; [|by rewrite !(testbit_small _ (N.of_nat k)) by (done || lia)].
  assert (∀ j, (j < k)%nat → N.testbit n (N.of_nat j) = N.testbit m (N.of_nat j)) as H.
  { clear Hn Hm Hi. induction k as [|k IH]; intros j Hj; [lia|]. cbn in E. injection E as E1 E2.
    destruct (decide (j = k)) as [->|]; [done|]. apply IH; [done|lia]. }
  specialize (H (N.to_nat i)). rewrite N2Nat.id in H. apply H. lia.
Qed.

Lemma nbits_zero k n : (n < 2 ^ N.of_nat k)%N → Forall (λ b, b = false) (nbits k n) → n = 0%N.
Proof.
  intros Hn H. apply (nbits_inj k); [done|lia|]. revert H. clear Hn. induction k as [|k IH]; intros H; [done|].
  cbn in H |- *. apply List.Forall_cons_iff in H as [-> H]. rewrite ?N.bits_0. f_equal. by apply IH.
Qed.

Lemma nbits_app a b n m :
  (m < 2 ^ N.of_nat b)%N →
  nbits (a + b) (N.lor (N.shiftl n (N.of_nat b)) m) = (nbits a n ++ nbits b m)%list.
Proof.
  intros Hm. rewrite nbits_split. f_equal; apply nbits_ext; intros i Hi.
  - rewrite N.shiftr_spec, N.lor_spec, N.shiftl_spec_high' by lia.
    rewrite (testbit_small m (N.of_nat b)) by (done || lia). rewrite orb_false_r. f_equal. lia.
  - by rewrite N.lor_spec, N.shiftl_spec_low by lia.
Qed.

Definition byte_bits (c : ascii) : list bool := nbits 8 (code c).

Lemma flat_bits_inj l l' t t' :
  length l = length l' → (flat_map byte_bits l ++ t = flat_map byte_bits l' ++ t')%list → l = l' ∧ t = t'.
Proof.
  revert l'. induction l as [|c l IH]; intros [|c' l']; try done. cbn [length flat_map]. intros [= Hl].
  rewrite <-!app_assoc. intros E. apply app_inj_1 in E as [E1 E2]; [|by unfold byte_bits; rewrite !nbits_length].
  apply nbits_inj, code_inj in E1; [|apply N_ascii_bounded..]. subst.
  destruct (IH _ Hl E2) as [-> ->]. done.
Qed.

Lemma flat_bits_length l : length (flat_map byte_bits l) = (8 * length l)%nat.
Proof.
  induction l as [|c l IH]; [done|]. cbn [flat_map]. rewrite length_app, IH. unfold byte_bits.
  rewrite nbits_length. cbn [length]. lia.
Qed.

(** The accumulator holds the bits read so far: whole bytes, then the rest. *)
Record base32_inv (st : Base32State) (read : list bool) : Prop := {
  bi_count : (bs_count st < 8)%N;
  bi_bits : (bs_bits st < 2 ^ bs_count st)%N;
  bi_read : read = (flat_map byte_bits (bs_output st) ++ nbits (N.to_nat (bs_count st)) (bs_bits st))%list;
}.

Lemma base32_step_inv st read v :
  base32_inv st read → (v < 32)%N → base32_inv (base32_step st v) (read ++ nbits 5 v).
Proof.
  intros [Hc Hb ->] Hv. destruct st as [bits count out]. cbn [bs_bits bs_count bs_output] in *.
  assert (N.shiftl bits 5 < 2 ^ (count + 5))%N as Hshift
    by (rewrite N.shiftl_mul_pow2, N.pow_add_r; apply N.mul_lt_mono_pos_r; [done|exact Hb]).
  assert (2 ^ (count + 5) ≤ 2 ^ 12)%N as Hmax by (apply N.pow_le_mono_r; lia).
  assert (N.land (N.shiftl bits 5) u32_mask = N.shiftl bits 5) as Hmask.
  { change u32_mask with (N.ones 32). rewrite N.land_ones. apply N.mod_small. cbn in Hmax |- *. lia. }
  set (all := N.lor (N.shiftl bits 5) v).
  assert (nbits (N.to_nat count + 5) all = nbits (N.to_nat count) bits ++ nbits 5 v)%list as Hall
    by (apply (nbits_app (N.to_nat count) 5); exact Hv).
  assert (all < 2 ^ (count + 5))%N as Hbound.
  { destruct (decide (all = 0%N)) as [->|]; [lia|]. apply N.log2_lt_pow2; [lia|]. subst all.
    rewrite N.log2_lor. apply N.max_lub_lt.
    - destruct (decide (N.shiftl bits 5 = 0%N)) as [->|]; [cbn; lia|]. apply N.log2_lt_pow2; [lia|done].
    - destruct (decide (v = 0%N)) as [->|]; [cbn; lia|]. apply N.log2_lt_pow2; [lia|].
      eapply N.lt_le_trans; [exact Hv|]. change 32%N with (2 ^ 5)%N. apply N.pow_le_mono_r; lia. }
  unfold base32_step. cbn [bs_bits bs_count bs_output]. rewrite Hmask. fold all.
  destruct (N.leb_spec 8 (count + 5)).
  - set (rest := (count + 5 - 8)%N).
    assert (N.shiftl 1 rest - 1 = N.ones rest)%N as -> by (rewrite N.ones_equiv, N.shiftl_1_l; lia).
    constructor; cbn [bs_bits bs_count bs_output]; [lia|rewrite N.land_ones; apply N.mod_lt; lia|].
    rewrite <-app_assoc, <-Hall. replace (N.to_nat count + 5)%nat with (8 + N.to_nat rest)%nat by lia.
    rewrite nbits_split, N2Nat.id, flat_map_app, <-app_assoc. cbn [flat_map]. rewrite app_nil_r. f_equal.
    unfold byte_bits, code. rewrite N_ascii_embedding.
    + f_equal. apply nbits_ext. intros i Hi. rewrite N.land_spec, N.ones_spec_low, andb_true_r by lia. done.
    + rewrite N.shiftr_div_pow2. apply N.Div0.div_lt_upper_bound. rewrite <-N.pow_add_r with (a := 2%N) (c := 8%N).
      by replace (rest + 8)%N with (count + 5)%N by lia.
  - constructor; cbn [bs_bits bs_count bs_output]; [lia|done|].
    rewrite <-app_assoc, <-Hall. by replace (N.to_nat (count + 5)) with (N.to_nat count + 5)%nat by lia.
Qed.

Lemma base32_value_small c v : base32_value c = Some v → (v < 32)%N.
Proof.
  unfold base32_value, between. intros H.
  destruct (N.leb_spec 65 (code (to_ascii_uppercase_byte c))), (N.leb_spec (code (to_ascii_uppercase_byte c)) 90);
    cbn [andb] in H; try (injection H as <-; lia);
    destruct (N.leb_spec 50 (code (to_ascii_uppercase_byte c))), (N.leb_spec (code (to_ascii_uppercase_byte c)) 55);
    cbn [andb] in H; try discriminate H; injection H as <-;
    unfold to_ascii_uppercase_byte, between in *;
    destruct (N.leb_spec 97 (code c)), (N.leb_spec (code c) 122); cbn [andb] in *; try lia;
    unfold code in *; rewrite N_ascii_embedding in * by (pose proof (N_ascii_bounded c); lia); lia.
Qed.

Lemma base32_loop_inv bytes st read :
  base32_inv st read →
  match base32_loop st bytes with
  | Ok st' => ∃ values, map base32_value bytes = map Some values
                ∧ base32_inv st' (read ++ flat_map (nbits 5) values)
  | Err _ => ∃ byte, byte ∈ bytes ∧ base32_value byte = None
  end.
Proof.
  revert st read. induction bytes as [|c bytes IH]; intros st read Hi.
  - exists []. by rewrite app_nil_r.
  - cbn [base32_loop]. destruct (base32_value c) as [v|] eqn:Ev.
    + rewrite ok_or_some, ok_bind. specialize (IH _ _ (base32_step_inv st read v Hi (base32_value_small _ _ Ev))).
      destruct (base32_loop (base32_step st v) bytes) as [st'|].
      * destruct IH as (values & Hm & Hi'). exists (v :: values). cbn [map flat_map].
        rewrite Ev, Hm. split; [done|]. by rewrite app_assoc.
      * destruct IH as (b & Hb & Hn). exists b. split; [by right|done].
    + exists c. split; [by left|done].
Qed.

(** Base32 decoding is the bit-string decoding: a text decodes to given
    bytes exactly when all its characters are base32 digits and their five-bit
    groups, concatenated, are the bits of the bytes followed by fewer than five
    zero bits. In particular a text has at most one decoding, and no stray bits
    survive. *)
Theorem base32_decode_iff (text output : list ascii) :
  base32_decode text = Ok output ↔
    ∃ values pad, map base32_value text = map Some values
      ∧ flat_map (nbits 5) values = (flat_map byte_bits output ++ pad)%list
      ∧ (length pad < 5)%nat ∧ Forall (λ b, b = false) pad.
Proof.
  unfold base32_decode.
  assert (base32_inv {| bs_bits := 0; bs_count := 0; bs_output := [] |} []) as H0 by (by constructor).
  pose proof (base32_loop_inv text _ _ H0) as H.
  destruct (base32_loop _ text) as [st|].
  - destruct H as (values & Hm & [Hc Hb Hr]). cbn [app] in Hr. rewrite ok_bind. split.
    + intros E. inv_ok. bools.
      assert ((bs_count st < 5)%N ∧ bs_bits st = 0%N) as [H5 Hz] by tauto.
      exists values, (nbits (N.to_nat (bs_count st)) (bs_bits st)).
      split; [done|]. split; [done|]. rewrite nbits_length. split; [lia|].
      rewrite Hz. clear. induction (N.to_nat (bs_count st)); constructor; [apply N.bits_0|done].
    + intros (values' & pad & Hm' & Hf & Hl & Hz).
      assert (values' = values) as -> by (rewrite Hm in Hm'; by apply (inj (map Some)) in Hm').
      rewrite Hr in Hf. pose proof (f_equal length Hf) as Hlen.
      rewrite !length_app, !flat_bits_length, nbits_length in Hlen.
      apply flat_bits_inj in Hf as [<- Hp]; [|lia].
      rewrite <-Hp in Hz. rewrite nbits_zero with (k := N.to_nat (bs_count st)) (n := bs_bits st)
        by (rewrite ?N2Nat.id; done).
      assert ((5 <=? bs_count st)%N = false) as -> by (apply N.leb_gt; lia). done.
  - split; [done|]. intros (values & pad & Hm & _). destruct H as (b & Hb & Hn). exfalso.
    apply list_elem_of_In, (in_map base32_value) in Hb. rewrite Hm, Hn in Hb.
    apply in_map_iff in Hb as (? & ? & _). done.
Qed.

(** ** Order of the names *)

Definition chunk_ok (prefix name : string) : bool := is_ok (san_chunk prefix name).
Definition chunk_of (prefix name : string) : option (nat * string) :=
  match san_chunk prefix name with Ok c => c | Err _ => None end.

Lemma san_chunk_error prefix name e :
  san_chunk prefix name = Err e → e = InvalidEvidence "invalid PPQ SAN chunk index".
Proof.
  unfold san_chunk. destruct (split_byte "." name) as [|first [|second rest]]; try done.
  destruct (eq_ignore_ascii_case second prefix); [|done].
  destruct first as [|a [|b [|c first]]]; try (by intros [= <-]).
  destruct (_ && _); by intros [= <-].
Qed.

Lemma san_chunks_eq prefix names :
  san_chunks prefix names
  = if forallb (chunk_ok prefix) names then Ok (omap (chunk_of prefix) names)
    else Err (InvalidEvidence "invalid PPQ SAN chunk index").
Proof.
  induction names as [|name names IH]; [done|]. cbn [san_chunks forallb]. rewrite IH.
  change (chunk_ok prefix name) with (is_ok (san_chunk prefix name)). destruct (san_chunk prefix name) as [c|e] eqn:E.
  - rewrite ok_bind. cbn [is_ok andb]. destruct (forallb (chunk_ok prefix) names); [|done].
    rewrite ok_bind. f_equal. assert (chunk_of prefix name = c) as Hc by (unfold chunk_of; by rewrite E).
    cbn. by rewrite Hc.
  - apply san_chunk_error in E as ->. done.
Qed.

#[local] Instance chunk_le_total : Total (cmp_le chunk_cmp).
Proof. intros x y. unfold cmp_le, chunk_cmp. rewrite !Nat.compare_gt_iff. lia. Qed.
#[local] Instance chunk_le_trans : Transitive (cmp_le chunk_cmp).
Proof. intros x y z. unfold cmp_le, chunk_cmp. rewrite !Nat.compare_gt_iff. lia. Qed.

Lemma chunk_keys_sorted chunks : StronglySorted le (map fst (sort_by chunk_cmp chunks)).
Proof.
  assert (StronglySorted (cmp_le chunk_cmp) (sort_by chunk_cmp chunks)) as H
    by (apply StronglySorted_merge_sort; apply _).
  induction H as [|x l _ IH Hx]; [constructor|]. cbn. constructor; [done|].
  apply List.Forall_map. revert Hx. apply List.Forall_impl. intros y. unfold cmp_le, chunk_cmp.
  rewrite Nat.compare_gt_iff. lia.
Qed.

Lemma indexed_keys i chunks : indexed_from i chunks = true ↔ map fst chunks = seq i (length chunks).
Proof.
  revert i. induction chunks as [|c chunks IH]; intros i; [done|]. cbn.
  rewrite andb_true_iff, Nat.eqb_eq, IH. split; [by intros [-> ->] | by intros [= -> ->]].
Qed.

(** Chunks with distinct keys are determined by their order of keys. *)
Lemma keyed_unique (l l' : list (nat * string)) :
  NoDup (map fst l) → l ≡ₚ l' → map fst l = map fst l' → l = l'.
Proof.
  revert l'. induction l as [|[k x] l IH]; intros l' Hn Hp Hk.
  - by apply Permutation_nil_l in Hp.
  - destruct l' as [|[k' y] l']; [done|]. cbn in Hk. injection Hk as -> Hk. cbn in Hn. inversion Hn; subst.
    assert ((k', x) ∈ (k', y) :: l') as Hin by (rewrite <-Hp; by left).
    apply elem_of_cons in Hin as [[= ->]|Hin].
    + f_equal. apply IH; [done|by eapply Permutation_cons_inv|done].
    + exfalso. match goal with H : k' ∉ _ |- _ => apply H end. rewrite Hk.
      apply list_elem_of_In, in_map_iff. exists (k', x). split; [done|by apply list_elem_of_In].
Qed.

Lemma sorted_chunks_perm c c' :
  c ≡ₚ c' → indexed_from 0 (sort_by chunk_cmp c) = true → sort_by chunk_cmp c = sort_by chunk_cmp c'.
Proof.
  intros Hp Hi. apply indexed_keys in Hi.
  assert (sort_by chunk_cmp c ≡ₚ sort_by chunk_cmp c') as Hs
    by (unfold sort_by; by rewrite !merge_sort_Permutation).
  apply keyed_unique; [rewrite Hi; apply NoDup_seq|done|].
  apply (StronglySorted_unique le); [apply chunk_keys_sorted..|]. by rewrite Hs.
Qed.

(** The order of the names in the certificate does not matter: any
    permutation of them decodes to the same key or hash, or fails with the same
    error. *)
Theorem decode_domains_order names names' prefix :
  names ≡ₚ names' → decode_domains names prefix = decode_domains names' prefix.
Proof.
  intros Hp. unfold decode_domains. rewrite !san_chunks_eq.
  assert (forallb (chunk_ok prefix) names = forallb (chunk_ok prefix) names') as ->
    by (apply eq_bool_prop_intro; rewrite !Is_true_true, !forallb_forall; setoid_rewrite Hp; done).
  destruct (forallb (chunk_ok prefix) names'); [|done]. rewrite !ok_bind. cbn zeta.
  assert (omap (chunk_of prefix) names ≡ₚ omap (chunk_of prefix) names') as Ho by (by rewrite Hp).
  destruct (indexed_from 0 (sort_by chunk_cmp (omap (chunk_of prefix) names))) eqn:Hi.
  - rewrite <-(sorted_chunks_perm _ _ Ho Hi). by rewrite Hi.
  - destruct (indexed_from 0 (sort_by chunk_cmp (omap (chunk_of prefix) names'))) eqn:Hi'.
    + symmetry in Ho. rewrite (sorted_chunks_perm _ _ Ho Hi') in Hi'. congruence.
    + by rewrite !orb_true_r.
Qed.

(** ** What a request let through rests on *)

Section PpqSound.
Context {prim : Primitives} {x509 : CertificateReader} {readers : EvidenceReaders}
        {tinfoil : TinfoilReaders} {ppq : PpqReaders}.

Lemma ppq_well_formed capture quote digest expires :
  live_well_formed (ppq_evidence capture quote digest expires).
Proof. constructor; [by right|done|vm_compute; reflexivity]. Qed.

(** The certificate vouches for the document: its names spell its hash, and the
    HPKE key. *)
Lemma parsed_ppq capture parsed :
  parse_ppq_ehbp_evidence capture = Ok parsed →
  ∃ bundle names, ppq_bundle capture = Ok bundle
    ∧ ppq_names (bu_domain bundle) (pp_enclave_certificate_der parsed) = Ok names
    ∧ decode_domains names "hpke" = Ok (pp_hpke_public_key parsed)
    ∧ String.length (pp_hpke_public_key parsed) = 32%nat
    ∧ decode_domains names "hatt"
      = Ok (sha256_hex (doc_format (bu_enclave_attestation_report bundle)
                        +:+ doc_body (bu_enclave_attestation_report bundle)))
    ∧ certificate_spki_sha256_hex (pp_enclave_certificate_der parsed) = Ok (pp_spki parsed).
Proof.
  unfold parse_ppq_ehbp_evidence. intros H. inv_ok. bools. subst.
  eexists _, _. cbn [pp_enclave_certificate_der pp_hpke_public_key pp_spki]. by split_and!.
Qed.

(** A PPQ request let through rests on a verified quote: the bundle was
    captured for this request; the enclave certificate names the bundle's domain
    and spells the hash of the attestation document and a 32-byte HPKE key; the
    quote verifier accepted the document's quote, whose report data is the
    certificate's key digest followed by that HPKE key; and the measurement is
    pinned, whatever the policy asks of the CPU. *)
Theorem ppq_allowed_sound quotes gpu now request v :
  verify_ppq_ehbp_live_evidence_with_attestation_verifiers quotes gpu now request = Ok v →
  enforcement (rq_policy request) = Enforce → v_request_allowed v = true →
  rt_evidence_family (rq_route request) = "ppq_ehbp" →
  ∃ capture parsed bundle names quote provider reference,
    ppq_from_slice (rq_raw_evidence request) = Some capture
    ∧ capture_for (ppq_metadata capture) request
    ∧ ppq_bundle capture = Ok bundle
    ∧ parse_ppq_ehbp_evidence capture = Ok parsed
    ∧ ppq_names (bu_domain bundle) (pp_enclave_certificate_der parsed) = Ok names
    ∧ decode_domains names "hpke" = Ok (pp_hpke_public_key parsed)
    ∧ decode_domains names "hatt"
      = Ok (sha256_hex (doc_format (bu_enclave_attestation_report bundle)
                        +:+ doc_body (bu_enclave_attestation_report bundle)))
    ∧ verify_tinfoil_quote (ppq_quote_request capture parsed) = Ok quote
    ∧ eq_ignore_ascii_case (vq_report_data quote)
        (pp_spki parsed +:+ lower_hex (pp_hpke_public_key parsed)) = true
    ∧ certificate_spki_sha256_hex (pp_enclave_certificate_der parsed) = Ok (pp_spki parsed)
    ∧ find_references request = Ok (provider, reference)
    ∧ vq_tee_measurement quote ∈ pr_accepted_measurements provider.
Proof.
  unfold verify_ppq_ehbp_live_evidence_with_attestation_verifiers. intros H He Ha Hf. inv_ok.
  match goal with H : validate_live_capture_metadata _ _ = Ok _ |- _ => apply metadata_Ok in H; rename H into Hm end.
  match goal with H : verify_provider_live_evidence _ _ _ _ = Ok v |- _ =>
    apply live_verdict_allowed in H as (provider & reference & Href & Hiff);
    [|apply ppq_well_formed|done] end.
  apply Hiff in Ha. destruct Ha as [_ Hpin _ _ _ _ _ _ _ _ _].
  match goal with H : parse_ppq_ehbp_evidence _ = Ok _ |- _ =>
    destruct (parsed_ppq _ _ H) as (bundle & names & Hb & Hn & Hk & _ & Hh & Hs) end.
  match goal with H : verify_ppq_ehbp_quote _ _ _ = Ok _ |- _ => unfold verify_ppq_ehbp_quote in H end.
  inv_ok. bools.
  eexists _, _, bundle, names, _, provider, reference. split_and!; try eassumption.
  apply measurement_accepted_elem, Hpin. cbn [ppq_evidence lv_evidence_family].
  destruct Hm as (_ & _ & Hfam & _). cbn [ppq_metadata lm_evidence_family] in Hfam. congruence.
Qed.
End PpqSound.

(** ** Concrete inputs *)

#[local] Existing Instances sample_x509 sample_tinfoil_readers.

Definition sample_ppq : PpqEhbpLiveEvidence := {|
  pq_schema := PPQ_SCHEMA; pq_provider := "near"; pq_route_id := "r"; pq_evidence_family := "ppq_ehbp";
  pq_requested_model := "m"; pq_policy_digest := ok_value (policy_digest require_attested_e2ee);
  pq_evidence_endpoint := "https://evidence"; pq_raw_bundle_base64 := "bundle" |}.

(** A reference encoder for the sample certificate: bits in groups of five. *)
Fixpoint groups_of_five (fuel : nat) (bits : list bool) : list (list bool) :=
  match fuel, bits with
  | S fuel, _ :: _ => take 5 (bits ++ replicate 4 false)%list :: groups_of_five fuel (drop 5 bits)
  | _, _ => []
  end.
Definition bits_value (bits : list bool) : N := fold_left (λ acc b, 2 * acc + N.b2n b)%N bits 0%N.
Definition base32_digit (v : N) : ascii := if (v <? 26)%N then ascii_of_N (65 + v) else ascii_of_N (24 + v).
Definition base32_encode (s : string) : string :=
  string_of_list_ascii (map (λ g, base32_digit (bits_value g))
    (groups_of_five (8 * String.length s) (flat_map byte_bits (bytes s)))).

Definition sample_hatt : string :=
  base32_encode (sha256_hex (TINFOIL_TDX_GUEST_V2_FORMAT +:+ "zipped")).
Definition sample_hpke : string := zeros 32.

(** The names, split in two and listed out of order. *)
Definition sample_names : list string :=
  ["01" +:+ slice sample_hatt 60 (String.length sample_hatt) +:+ ".hatt.example.org";
   "00" +:+ base32_encode sample_hpke +:+ ".hpke.example.org"; "*.example.org";
   "00" +:+ slice sample_hatt 0 60 +:+ ".hatt.example.org"].

#[local] Instance sample_ppq_readers : PpqReaders := {|
  ppq_from_slice raw := if raw =?= "ppq" then Some sample_ppq else None;
  bundle_from_slice raw :=
    if raw =?= "bundle" then
      Some {| bu_domain := "api.example.org";
              bu_enclave_attestation_report :=
                {| doc_format := TINFOIL_TDX_GUEST_V2_FORMAT; doc_body := "zipped" |};
              bu_enclave_cert := "-----BEGIN CERTIFICATE----- cert -----END CERTIFICATE-----"; bu_vcek := None |}
    else None;
  certificate_extensions der := if der =?= "cert" then Some [("2.5.29.14", ""); (SAN_OID, "san")] else None;
  subject_alt_name_from_der der := if der =?= "san" then Some (OtherName :: map DnsName sample_names) else None;
  base64_encode s := s |}.

#[local] Instance ppq_evidence_readers : EvidenceReaders := {|
  value_from_slice _ := None; fixture_from_slice _ := None; tinfoil_tls_from_slice _ := None;
  chutes_e2ee_from_slice _ := None; chutes_live_from_slice _ := None; tinfoil_live_from_slice _ := None;
  near_live_from_slice _ := None; dstack_from_slice _ := None; base64_decode s := Some s |}.

Definition ppq_quote_verifier : TinfoilQuoteVerifier := {|
  verify_tinfoil_quote r :=
    if tr_quote_bytes r =?= zeros 64
    then Ok (from_verified_quote (tr_attestation_format r) {| eh_cpu := Tdx; eh_gpu := None |} "tdx:1"
               (sha256_hex "cert" +:+ lower_hex sample_hpke) "2026-02-01T00:00:00Z" "2026-02-01T00:05:00Z"
               1769904300000)
    else Err (InvalidEvidence "unknown quote");
  verify_tdx_quote := default_verify_tdx_quote |}.

Definition ppq_request : VerificationRequest :=
  pinned_request "ppq_ehbp" KindAttestedAppE2ee AppE2ee require_attested_e2ee "tdx:1" live_nonce "ppq".

Lemma decode_domains_order_witness :
  decode_domains (reverse sample_names) "hatt" = decode_domains sample_names "hatt"
  ∧ is_ok (decode_domains sample_names "hatt") = true.
Proof.
  split; [|vm_compute; reflexivity].
  apply decode_domains_order. apply reverse_Permutation.
Defined.

Lemma ppq_allowed_sound_witness :
  ∃ capture parsed quote, parse_ppq_ehbp_evidence capture = Ok parsed
    ∧ verify_tinfoil_quote (TinfoilQuoteVerifier := ppq_quote_verifier) (ppq_quote_request capture parsed) = Ok quote.
Proof.
  destruct (allowed_run_inv (verify_ppq_ehbp_live_evidence_with_attestation_verifiers ppq_quote_verifier
    FailClosedGpuAttestationVerifier 0 ppq_request)) as (v & E & Hv); [vm_compute; reflexivity|].
  destruct (ppq_allowed_sound _ _ _ _ v E eq_refl Hv eq_refl)
    as (capture & parsed & _ & _ & quote & _ & _ & _ & _ & _ & Hp & _ & _ & _ & Hq & _).
  exists capture, parsed, quote. exact (conj Hp Hq).
Defined.
