(* ===== verification/Redpill.v ===== *)
(** * The RedPill family

    redpill.rs and its entry in verifier.rs: a gateway and a model node, each
    with a TDX quote and a dstack event log that replays to the quote's RTMR3;
    a TLS keyset bound to the gateway's quote; a session bound to the model's;
    an NVIDIA attestation bound to the session's nonce. *)

From Stdlib Require Import Ascii String ZArith Lia.
From stdpp Require Import base gmap strings list numbers.
From S2P Require Import Prelude RustStr Errors Collections Timestamps Canonical JsonInjective Policy Verdict Evidence Bindings.
From S2P Require Import Signature ReferenceValues VerifierCore VerifierSound EvidenceDocuments QuoteInterfaces.
From S2P Require Import TinfoilVerifier LiveEvidence LiveFamilies Ppq.

Open Scope string_scope.

(** ** Data *)

Record RedpillAciLiveEvidence := {
  rp_schema : string;
  rp_provider : string;
  rp_route_id : string;
  rp_evidence_family : string;
  rp_requested_model : string;
  rp_policy_digest : string;
  rp_request_nonce : string;
  rp_evidence_endpoint : string;
  rp_live_tls_spki_sha256 : string;
  rp_live_tls_leaf_certificate_der_base64 : string;
  rp_gateway_report : Value;
  rp_session : Value;
  rp_session_id : string;
  rp_gpu_attestation : option NvidiaGpuAttestationEvidence;
}.
Definition REDPILL_SCHEMA := "confidential-inference.redpill-aci-live.v1".
Definition NRAS_GPU_EVIDENCE_V3 := "nvidia.nras.gpu-evidence.v3".

(** JSON decoding of a capture and of an event log, the JCS serialiser, and
    SHA-384. *)
Class RedpillReaders := {
  redpill_from_slice : string → option RedpillAciLiveEvidence;
  values_from_str : string → option (list Value);
  jcs_to_vec : Value → option string;
  sha384 : string → string;
}.
(** A SHA-384 digest is 48 bytes. *)
Class Sha384Laws `{!RedpillReaders} : Prop := { sha384_length s : String.length (sha384 s) = 48%nat }.

Definition redpill_invalid (message : string) : AttestationError := InvalidEvidence ("RedPill ACI: " +:+ message).

(** ** JSON access *)

(** [value.pointer("/a/b")], for a path of object keys. *)
Fixpoint value_pointer (path : list string) (value : Value) : option Value :=
  match path with
  | [] => Some value
  | key :: path => match value_get key value with Some v => value_pointer path v | None => None end
  end.

Definition field (path : list string) (value : Value) : Result string :=
  ok_or (value_pointer path value ≫= value_as_str) (redpill_invalid "missing {path}").

(** [get(key).and_then(as_u64).and_then(|s| s.checked_mul(1000))]. *)
Definition checked_mul (a b : Z) : option Z := if (a * b <=? u64_max)%Z then Some (a * b)%Z else None.
Definition get_seconds (key : string) (value : Value) : option Z := get_u64 key value ≫= λ s, checked_mul s 1000.

Definition hex (value : string) : Result string :=
  bail (redpill_invalid "invalid hex")
    when negb (Nat.even (String.length value)) || negb (all_bytes is_ascii_hexdigit value);
  Ok (hex_pairs value).

Definition hex_field (path : list string) (value : Value) : Result string :=
  text ← field path value; hex text.

(** ** The event log *)

(** [u32::to_le_bytes]. *)
Definition le32 (n : Z) : string :=
  let byte i := ascii_of_N (Z.to_N (Z.land (Z.shiftr n (8 * i)) 255)) in
  string_of_list_ascii [byte 0%Z; byte 1%Z; byte 2%Z; byte 3%Z].

Record Event := { ev_type : Z; ev_name : string; ev_payload : string }.

(** The state of the loop of [dstack_identity]. *)
Record IdentityState := {
  id_replay : string;
  id_compose : option string;
  id_app_id : option string;
  id_mr_kms : option string;
  id_key_provider : option string;
}.

(** An array of 48 zero bytes. *)
Fixpoint zero_bytes (n : nat) : string :=
  match n with O => "" | S n => String "000" (zero_bytes n) end.
Definition identity_start : IdentityState := {|
  id_replay := zero_bytes 48; id_compose := None; id_app_id := None; id_mr_kms := None; id_key_provider := None |}.

Definition APP_EVENT_TYPE : Z := 0x08000001.

(** [target.replace(value).is_some()]. *)
Definition replace_identity (target : option string) (value : string) : Result (option string) :=
  bail (redpill_invalid "duplicate app identity event") when is_some target; Ok (Some value).

Definition record_identity (e : Event) (st : IdentityState) : Result IdentityState :=
  let len := String.length (ev_payload e) in
  let value := lower_hex (ev_payload e) in
  if ev_name e =?= "compose-hash" then
    bail (redpill_invalid "invalid app identity event") when negb (len =? 32)%nat;
    compose ← replace_identity (id_compose st) value;
    Ok {| id_replay := id_replay st; id_compose := compose; id_app_id := id_app_id st;
          id_mr_kms := id_mr_kms st; id_key_provider := id_key_provider st |}
  else if ev_name e =?= "app-id" then
    bail (redpill_invalid "invalid app identity event") when negb (len =? 20)%nat;
    app_id ← replace_identity (id_app_id st) value;
    Ok {| id_replay := id_replay st; id_compose := id_compose st; id_app_id := app_id;
          id_mr_kms := id_mr_kms st; id_key_provider := id_key_provider st |}
  else if ev_name e =?= "mr-kms" then
    bail (redpill_invalid "invalid app identity event") when negb (len =? 32)%nat;
    mr_kms ← replace_identity (id_mr_kms st) value;
    Ok {| id_replay := id_replay st; id_compose := id_compose st; id_app_id := id_app_id st;
          id_mr_kms := mr_kms; id_key_provider := id_key_provider st |}
  else if ev_name e =?= "key-provider" then
    bail (redpill_invalid "invalid app identity event") when (len =? 0)%nat;
    key_provider ← replace_identity (id_key_provider st) value;
    Ok {| id_replay := id_replay st; id_compose := id_compose st; id_app_id := id_app_id st;
          id_mr_kms := id_mr_kms st; id_key_provider := key_provider |}
  else Ok st.

Section EventLog.
Context {readers : EvidenceReaders} {redpill : RedpillReaders}.

(** What an event's digest hashes. *)
Definition event_encoding (e : Event) : string := le32 (ev_type e) +:+ ":" +:+ ev_name e +:+ ":" +:+ ev_payload e.
Definition event_digest (e : Event) : string := sha384 (event_encoding e).

Definition u32_try_from (v : Z) : option Z := if (v <=? u32_max)%Z then Some v else None.

(** One event of the JSON log; [None] when it extends another register. *)
Definition read_event (event : Value) : Result (option Event) :=
  imr ← ok_or (get_u64 "imr" event) (redpill_invalid "invalid event IMR");
  if negb (imr =? 3)%Z then Ok None else
  event_type ← ok_or (get_u64 "event_type" event ≫= u32_try_from) (redpill_invalid "invalid event type");
  name ← field ["event"] event;
  payload ← hex_field ["event_payload"] event;
  let e := {| ev_type := event_type; ev_name := name; ev_payload := payload |} in
  supplied ← field ["digest"] event;
  matches ← (if is_empty supplied then Ok true
             else supplied ← hex supplied; Ok (supplied =?= event_digest e));
  bail (redpill_invalid "event digest mismatch") when negb matches;
  Ok (Some e).

Definition extend_replay (e : Event) (st : IdentityState) : IdentityState := {|
  id_replay := sha384 (id_replay st +:+ event_digest e); id_compose := id_compose st;
  id_app_id := id_app_id st; id_mr_kms := id_mr_kms st; id_key_provider := id_key_provider st |}.

Definition event_step (st : IdentityState) (event : Value) : Result IdentityState :=
  e ← read_event event;
  match e with
  | None => Ok st
  | Some e =>
      let st := extend_replay e st in
      if (ev_type e =? APP_EVENT_TYPE)%Z then record_identity e st else Ok st
  end.

Fixpoint event_loop (st : IdentityState) (events : list Value) : Result IdentityState :=
  match events with
  | [] => Ok st
  | event :: events => st ← event_step st event; event_loop st events
  end.

Definition identity_string (compose app_id mr_kms key_provider : string) : string :=
  "compose:" +:+ compose +:+ ":app:" +:+ app_id +:+ ":kms:" +:+ mr_kms +:+ ":key_provider:" +:+ key_provider.

Definition dstack_identity (event_log quoted_rtmr3 : string) : Result (string * string) :=
  events ← ok_or (values_from_str event_log) json_error;
  st ← event_loop identity_start events;
  rtmr3 ← hex quoted_rtmr3;
  bail (redpill_invalid "event log does not match quoted RTMR3") when negb (rtmr3 =?= id_replay st);
  compose ← ok_or (id_compose st) (redpill_invalid "missing compose-hash");
  mr_kms ← ok_or (id_mr_kms st) (redpill_invalid "missing mr-kms");
  key_provider ← ok_or (id_key_provider st) (redpill_invalid "missing key-provider");
  Ok (identity_string compose (default "" (id_app_id st)) mr_kms key_provider, compose).
End EventLog.

(** ** The capture *)

Record VerifiedRedpillAciCapture := {
  vr_tee_measurement : string;
  vr_live_tls_spki_sha256 : string;
  vr_issued_at : string;
  vr_expires_at_epoch_ms : Z;
  vr_gateway_quote : VerifiedTdxQuote;
  vr_model_quote : VerifiedTdxQuote;
  vr_gateway_compose_hash : string;
  vr_model_compose_hash : string;
}.
Definition MAX_SESSION_FUTURE_SKEW_MS : Z := 30000.

Definition redpill_aci_tee_measurement (provider_model : string) (gateway model : VerifiedTdxQuote) : string :=
  "redpill-aci:model:" +:+ provider_model +:+ ":gateway:" +:+ near_live_tee_measurement gateway
  +:+ ":upstream:" +:+ near_live_tee_measurement model.

Section Redpill.
Context {prim : Primitives} {x509 : CertificateReader} {readers : EvidenceReaders}
        {crypto : SignatureCrypto} {redpill : RedpillReaders}.

Definition jcs_vec (value : Value) : Result string := ok_or (jcs_to_vec value) json_error.

Definition redpill_aci_jcs_digest (value : Value) : Result string :=
  bytes ← jcs_vec value; Ok (sha256_digest bytes).

Definition verify_redpill_aci_signature (value : Value) (public_key signature : string) : Result unit :=
  key ← ok_or (public_key_from_slice public_key) (redpill_invalid "invalid receipt key");
  signature ← ok_or (signature_from_slice signature) (redpill_invalid "invalid receipt signature");
  bytes ← jcs_vec value;
  bail (redpill_invalid "receipt signature mismatch") when negb (ed25519_verify key bytes signature);
  Ok tt.

Definition session_evidence (capture : RedpillAciLiveEvidence) : Result Value :=
  let session := rp_session capture in
  canonical ← (if negb (get_str "api_version" session =?= Some "aci/1") then Ok false
               else digest ← redpill_aci_jcs_digest session;
                    Ok (strip_prefix "sha256:" digest =?= Some (rp_session_id capture)));
  bail (redpill_invalid "session ID does not match canonical session") when negb canonical;
  data ← field ["evidence"; "data"] session;
  '(header, encoded) ← ok_or (split_once "," data) (redpill_invalid "invalid session evidence data URI");
  bail (redpill_invalid "invalid session evidence data URI")
    when negb (starts_with "data:" header) || negb (ends_with header ";base64");
  bytes ← ok_or (base64_decode encoded) (redpill_invalid "invalid session evidence base64");
  digest ← field ["evidence"; "digest"] session;
  bail (redpill_invalid "session evidence digest mismatch") when negb (sha256_digest bytes =?= digest);
  ok_or (value_from_slice bytes) json_error.

Definition redpill_aci_quote_bytes (capture : RedpillAciLiveEvidence) : Result (string * string) :=
  model ← session_evidence capture;
  gateway_quote ← hex_field ["attestation"; "evidence"; "quote"] (rp_gateway_report capture);
  intel_quote ← hex_field ["intel_quote"] model;
  Ok (gateway_quote, intel_quote).

(** The presented app definitions are those of the replayed compose hashes. *)
Definition check_app_compose (report model : Value) (gateway_compose_hash model_compose_hash : string)
    : Result unit :=
  tcb_info ← ok_or (value_pointer ["info"; "tcb_info"] model) (redpill_invalid "missing tcb info");
  tcb_info ← match tcb_info with
             | VString encoded => ok_or (value_from_slice encoded) json_error
             | value => Ok value
             end;
  app_compose ← field ["app_compose"] tcb_info;
  matches ← (if negb (sha256_digest app_compose =?= "sha256:" +:+ model_compose_hash) then Ok false
             else app_compose ← field ["attestation"; "evidence"; "app_compose"] report;
                  Ok (sha256_digest app_compose =?= "sha256:" +:+ gateway_compose_hash));
  bail (redpill_invalid "app compose does not match replayed compose-hash") when negb matches;
  Ok tt.

Definition dquote : string := String quote "".
(** The statement a gateway quote signs. *)
Definition keyset_statement (digest nonce : string) : string :=
  "{" +:+ dquote +:+ "keyset_digest" +:+ dquote +:+ ":" +:+ dquote +:+ digest +:+ dquote +:+ ","
  +:+ dquote +:+ "nonce" +:+ dquote +:+ ":" +:+ dquote +:+ nonce +:+ dquote +:+ ","
  +:+ dquote +:+ "purpose" +:+ dquote +:+ ":" +:+ dquote +:+ "aci.report_data.v1" +:+ dquote +:+ "}".

(** The keyset, whose digest the gateway's quote binds with the nonce. *)
Definition gateway_keyset (capture : RedpillAciLiveEvidence) (gateway : VerifiedTdxQuote) : Result Value :=
  let report := rp_gateway_report capture in
  api_version ← field ["api_version"] report;
  supported ← (if negb (api_version =?= "aci/1") then Ok false
               else tee_type ← field ["attestation"; "tee_type"] report; Ok (tee_type =?= "tdx"));
  bail (redpill_invalid "unsupported gateway attestation") when negb supported;
  keyset ← ok_or (value_pointer ["attestation"; "workload_keyset"] report) (redpill_invalid "missing keyset");
  digest ← redpill_aci_jcs_digest keyset;
  keyset_digest ← field ["workload_keyset_digest"] report;
  bail (redpill_invalid "keyset digest mismatch") when negb (digest =?= keyset_digest);
  let statement_hash := sha256_digest (keyset_statement digest (rp_request_nonce capture)) in
  let statement_hex := slice statement_hash 7 (String.length statement_hash) in
  bound ← (if negb (td_report_data gateway =?= statement_hex +:+ zeros 64) then Ok false
           else report_data ← field ["attestation"; "report_data"] report;
                Ok (report_data =?= statement_hex));
  bail (redpill_invalid "gateway quote does not bind fresh keyset") when negb bound;
  Ok keyset.

(** [s.split(c).next()]: the pieces of a split are never empty. *)
Definition split_first (sep : ascii) (s : string) : option string := head (split_byte sep s).

Definition tls_key_matches (spki host : string) (key : Value) : bool :=
  (get_str "spki_sha256" key =?= Some spki)
  && match value_get "domain" key with
     | None => true
     | Some v => match value_as_str v with Some d => eq_ignore_ascii_case d host | None => false end
     end.

(** The live certificate is of a key of the keyset, for the API's host. *)
Definition gateway_certificate (capture : RedpillAciLiveEvidence) (keyset : Value) (api_endpoint : string)
    : Result (string * string) :=
  cert ← ok_or (base64_decode (rp_live_tls_leaf_certificate_der_base64 capture))
           (redpill_invalid "invalid gateway certificate");
  spki ← certificate_spki_sha256_hex cert;
  bail (redpill_invalid "gateway certificate SPKI mismatch") when negb (spki =?= rp_live_tls_spki_sha256 capture);
  host ← ok_or (strip_prefix "https://" api_endpoint ≫= split_first "/") (redpill_invalid "API endpoint is not HTTPS");
  host ← ok_or (split_first ":" host) (redpill_invalid "missing API hostname");
  keys ← ok_or (get_array "tls_public_keys" keyset) (redpill_invalid "missing TLS keyset");
  bail (redpill_invalid "gateway SPKI not in hostname-scoped keyset")
    when negb (existsb (tls_key_matches spki host) keys);
  Ok (cert, spki).

(** The ends of keyset, session and certificate, all in the future. *)
Definition session_window (session keyset : Value) (cert : string) (now : Z) : Result (Z * Z * Z) :=
  keyset_expiry ← ok_or (get_seconds "not_after" keyset) (redpill_invalid "invalid keyset expiry");
  established ← ok_or (get_seconds "established_at" session) (redpill_invalid "invalid session establishment");
  session_expiry ← ok_or (get_seconds "expires_at" session) (redpill_invalid "invalid session expiry");
  bail (redpill_invalid "expired or future session/keyset")
    when (saturating_add now MAX_SESSION_FUTURE_SKEW_MS <? established)%Z
         || (session_expiry <=? now)%Z || (session_expiry <=? established)%Z || (keyset_expiry <=? now)%Z;
  '(cert_start, cert_end) ← certificate_validity_epoch_millis cert;
  bail (redpill_invalid "gateway certificate is not valid") when (now <? cert_start)%Z || (cert_end <=? now)%Z;
  Ok (keyset_expiry, session_expiry, cert_end).

Definition channel_binding_matches (upstream_spki endpoint : string) (b : Value) : bool :=
  (get_str "type" b =?= Some "tls_spki_sha256")
  && (get_str "spki_sha256" b =?= Some upstream_spki)
  && (get_str "origin" b =?= Some endpoint).

Definition strip_0x (address : string) : string := default address (strip_prefix "0x" address).

(** The model's quote binds its signing address, its TLS key and the session's
    nonce, and the session pins that key; the nonce is returned. *)
Definition model_binding (session model : Value) (model_quote : VerifiedTdxQuote) : Result string :=
  nonce ← field ["request_nonce"] model;
  nonce_bytes ← hex nonce;
  address ← field ["signing_address"] model;
  address_bytes ← hex (strip_0x address);
  upstream_spki ← field ["tls_cert_fingerprint"] model;
  spki_bytes ← hex upstream_spki;
  bail (redpill_invalid "invalid model binding fields")
    when negb (String.length nonce_bytes =? 32)%nat || negb (String.length address_bytes =? 20)%nat
         || negb (String.length spki_bytes =? 32)%nat;
  report_data ← hex (td_report_data model_quote);
  bail (redpill_invalid "model quote binding mismatch")
    when negb (report_data =?= sha256 (address_bytes +:+ spki_bytes) +:+ nonce_bytes);
  bindings ← ok_or (get_array "channel_binding" session) (redpill_invalid "missing session channel bindings");
  endpoint ← field ["endpoint"] session;
  bail (redpill_invalid "session channel binding mismatch")
    when negb (existsb (channel_binding_matches upstream_spki endpoint) bindings);
  Ok nonce.

(** The GPU evidence is the session's, and the back end accepts it. *)
Definition session_gpu (gpu_verifier : GpuAttestationVerifier) (capture : RedpillAciLiveEvidence)
    (model : Value) (nonce : string) : Result unit :=
  gpu ← ok_or (rp_gpu_attestation capture) (redpill_invalid "missing GPU attestation");
  payload ← field ["nvidia_payload"] model;
  bail (redpill_invalid "GPU evidence does not match session")
    when negb (ng_schema gpu =?= NVIDIA_EVIDENCE_SCHEMA)
         || negb (ng_attestation_format gpu =?= NRAS_GPU_EVIDENCE_V3)
         || negb (ng_nonce gpu =?= nonce)
         || negb (ng_payload_sha256 gpu =?= Some (sha256_digest payload))
         || negb (ng_raw_payload_base64 gpu ≫= base64_decode =?= Some payload);
  verified ← verify_nvidia_gpu_attestation
    {| nr_evidence := gpu; nr_expected_nonce := nonce; nr_expected_tee := NvidiaCc;
       nr_provider := rp_provider capture; nr_route_id := rp_route_id capture |};
  bail (redpill_invalid "inconsistent GPU verification")
    when negb (vg_tee verified =?= NvidiaCc) || negb (vg_nonce verified =?= nonce)
         || negb (vg_attestation_format verified =?= ng_attestation_format gpu);
  Ok tt.

Definition is_canonical_nonce (nonce : string) : bool :=
  (String.length nonce =? 64)%nat && all_bytes is_lower_hexdigit nonce.

Definition verify_redpill_aci_capture (gateway_verifier model_verifier : TinfoilQuoteVerifier)
    (gpu_verifier : GpuAttestationVerifier) (api_endpoint provider_model : string) (now : Z)
    (capture : RedpillAciLiveEvidence) : Result VerifiedRedpillAciCapture :=
  bail (redpill_invalid "invalid schema or request nonce")
    when negb (rp_schema capture =?= REDPILL_SCHEMA) || negb (is_canonical_nonce (rp_request_nonce capture));
  model ← session_evidence capture;
  canonical_model_id ← field ["claims"; "extra"; "canonical_model_id"] (rp_session capture);
  bail (redpill_invalid "session claims canonical model mismatch") when negb (canonical_model_id =?= provider_model);
  '(gateway_bytes, model_bytes) ← redpill_aci_quote_bytes capture;
  gateway ← @verify_tdx_quote gateway_verifier gateway_bytes;
  model_quote ← @verify_tdx_quote model_verifier model_bytes;
  let report := rp_gateway_report capture in
  gateway_log ← field ["attestation"; "evidence"; "event_log"] report;
  '(gateway_identity, gateway_compose_hash) ← dstack_identity gateway_log (td_rtmr3 gateway);
  model_log ← field ["event_log"] model;
  '(model_identity, model_compose_hash) ← dstack_identity model_log (td_rtmr3 model_quote);
  _ ← check_app_compose report model gateway_compose_hash model_compose_hash;
  keyset ← gateway_keyset capture gateway;
  '(cert, spki) ← gateway_certificate capture keyset api_endpoint;
  '(keyset_expiry, session_expiry, cert_end) ← session_window (rp_session capture) keyset cert now;
  nonce ← model_binding (rp_session capture) model model_quote;
  _ ← session_gpu gpu_verifier capture model nonce;
  let expires_at_epoch_ms :=
    Z.min (Z.min (Z.min (Z.min keyset_expiry session_expiry) cert_end) (td_expires_at_epoch_ms gateway))
      (td_expires_at_epoch_ms model_quote) in
  bail (redpill_invalid "quote expired") when (expires_at_epoch_ms <=? now)%Z;
  gateway_issued ← parse_utc_timestamp_millis (td_issued_at gateway);
  model_issued ← parse_utc_timestamp_millis (td_issued_at model_quote);
  Ok {| vr_tee_measurement :=
          redpill_aci_tee_measurement provider_model gateway model_quote
          +:+ ":gateway_" +:+ gateway_identity +:+ ":upstream_" +:+ model_identity;
        vr_live_tls_spki_sha256 := spki;
        vr_issued_at :=
          if (model_issued <=? gateway_issued)%Z then td_issued_at gateway else td_issued_at model_quote;
        vr_expires_at_epoch_ms := expires_at_epoch_ms; vr_gateway_quote := gateway;
        vr_model_quote := model_quote; vr_gateway_compose_hash := gateway_compose_hash;
        vr_model_compose_hash := model_compose_hash |}.

(** ** The verdict *)

Definition redpill_metadata (capture : RedpillAciLiveEvidence) : LiveCaptureMetadata := {|
  lm_provider := rp_provider capture; lm_route_id := rp_route_id capture;
  lm_evidence_family := rp_evidence_family capture; lm_requested_model := rp_requested_model capture;
  lm_policy_digest := rp_policy_digest capture; lm_evidence_endpoint := rp_evidence_endpoint capture |}.

Definition redpill_evidence (capture : RedpillAciLiveEvidence) (verified : VerifiedRedpillAciCapture)
    (evidence_digest : string) : VerifiedProviderLiveEvidence := {|
  lv_provider := rp_provider capture; lv_route_id := rp_route_id capture;
  lv_evidence_family := rp_evidence_family capture; lv_tee_measurement := vr_tee_measurement verified;
  lv_hardware := {| eh_cpu := Tdx; eh_gpu := Some NvidiaCc |};
  lv_gpu_attestation := rp_gpu_attestation capture;
  lv_gpu_nonce := match rp_gpu_attestation capture with Some gpu => ng_nonce gpu | None => "" end;
  lv_report_data := td_report_data (vr_gateway_quote verified);
  lv_nonce_binding_verified := Some true; lv_channel_binding_verified := true;
  lv_channel_check := "tls_binding"; lv_channel_error := "RedPill ACI TLS binding failed";
  lv_confidentiality_result := ConfChannelBound; lv_attested_model := None;
  lv_issued_at := vr_issued_at verified;
  lv_expires_at := format_utc_timestamp_millis (vr_expires_at_epoch_ms verified);
  lv_expires_at_epoch_ms := vr_expires_at_epoch_ms verified; lv_evidence_digest := evidence_digest;
  lv_signing_public_key := Some (vr_live_tls_spki_sha256 verified); lv_e2ee_capability := None |}.

Definition redpill_pinned (request : VerificationRequest) (tee_measurement : string) : bool :=
  match rv_providers (rq_reference_values request) !! rt_provider (rq_route request) with
  | Some provider => measurement_accepted provider tee_measurement
  | None => false
  end.

(** The clock is read twice: for the capture, and for the verdict. *)
Definition verify_redpill_live_evidence (quotes : TinfoilQuoteVerifier) (gpu : GpuAttestationVerifier)
    (captured_now now : Z) (request : VerificationRequest) : Result AttestationVerdict :=
  capture ← ok_or (redpill_from_slice (rq_raw_evidence request)) json_error;
  _ ← validate_live_capture_metadata (redpill_metadata capture) request;
  bail (InvalidEvidence "RedPill ACI request nonce mismatch")
    when negb (rq_expected_freshness_nonce request =?= Some (rp_request_nonce capture));
  verified ← verify_redpill_aci_capture quotes quotes gpu (rt_api_endpoint (rq_route request))
               (rt_provider_model (rq_route request)) captured_now capture;
  bail (InvalidEvidence "RedPill ACI gateway/model measurement pair is not pinned")
    when negb (redpill_pinned request (vr_tee_measurement verified));
  verify_provider_live_evidence gpu now request
    (redpill_evidence capture verified (sha256_digest (rq_raw_evidence request))).
End Redpill.

(** ** What RTMR3 fixes *)

Section Replay.
Context {readers : EvidenceReaders} {redpill : RedpillReaders} {laws : Sha384Laws}.

(** The events of a log that extend RTMR3. *)
Fixpoint read_log (events : list Value) : Result (list Event) :=
  match events with
  | [] => Ok []
  | event :: events =>
      e ← read_event event;
      es ← read_log events;
      Ok (match e with Some e => e :: es | None => es end)
  end.
Definition log_events (event_log : string) : list Event :=
  match values_from_str event_log with
  | Some events => match read_log events with Ok es => es | Err _ => [] end
  | None => []
  end.

Fixpoint run_events (st : IdentityState) (es : list Event) : Result IdentityState :=
  match es with
  | [] => Ok st
  | e :: es =>
      st ← (if (ev_type e =? APP_EVENT_TYPE)%Z then record_identity e (extend_replay e st)
            else Ok (extend_replay e st));
      run_events st es
  end.

Lemma event_loop_read st events st' :
  event_loop st events = Ok st' → ∃ es, read_log events = Ok es ∧ run_events st es = Ok st'.
Proof.
  revert st. induction events as [|event events IH]; intros st H; cbn [event_loop] in H.
  - exists []. by split.
  - unfold event_step in H. inv_ok. apply IH in H as (es & Hr & Hs). cbn [read_log].
    match goal with H : read_event event = Ok ?o |- _ => rewrite H, ok_bind, Hr, ok_bind; destruct o as [e|] end.
    + exists (e :: es). split; [done|]. cbn [run_events]. destruct (ev_type e =? APP_EVENT_TYPE)%Z; inv_ok;
        [|done]. match goal with H : record_identity _ _ = Ok _ |- _ => by rewrite H, ok_bind end.
    + inv_ok. by exists es.
Qed.

Definition replay_step (r : string) (e : Event) : string := sha384 (r +:+ event_digest e).
Definition replay (es : list Event) : string := fold_left replay_step es (zero_bytes 48).

Lemma record_identity_replay e st st' : record_identity e st = Ok st' → id_replay st' = id_replay st.
Proof. unfold record_identity. intros H. repeat case_bool_decide; inv_ok; done. Qed.

Lemma run_events_replay st es st' :
  run_events st es = Ok st' → id_replay st' = fold_left replay_step es (id_replay st).
Proof.
  revert st. induction es as [|e es IH]; intros st H; cbn [run_events] in H; inv_ok; [done|].
  apply IH in H as ->. cbn [fold_left]. f_equal.
  destruct (ev_type e =? APP_EVENT_TYPE)%Z; inv_ok; [|done].
  match goal with H : record_identity _ _ = Ok _ |- _ => by rewrite (record_identity_replay _ _ _ H) end.
Qed.

(** Everything a replay hashes. *)
Fixpoint hashed_from (r : string) (es : list Event) : list string :=
  match es with
  | [] => []
  | e :: es => event_encoding e :: (r +:+ event_digest e) :: hashed_from (replay_step r e) es
  end.
Definition hashed (es : list Event) : list string := hashed_from (zero_bytes 48) es.

Lemma hashed_snoc es e :
  hashed (es ++ [e])%list = (hashed es ++ [event_encoding e; replay es +:+ event_digest e])%list.
Proof.
  unfold hashed, replay. generalize (zero_bytes 48). induction es as [|x es IH]; intros r; [done|].
  cbn. by rewrite IH.
Qed.
Lemma replay_snoc es e : replay (es ++ [e])%list = sha384 (replay es +:+ event_digest e).
Proof. unfold replay. by rewrite fold_left_app. Qed.
Lemma replay_length es : String.length (replay es) = 48%nat.
Proof. induction es using rev_ind; [done|]. rewrite replay_snoc. apply sha384_length. Qed.

Definition sha384_collision (a b : string) : Prop := a ≠ b ∧ sha384 a = sha384 b.
(** The hash fails on one of the inputs of the two replays. *)
Definition sha384_broken (es es' : list Event) : Prop :=
  (∃ a b, a ∈ hashed es ∧ b ∈ hashed es' ∧ sha384_collision a b)
  ∨ (∃ a, a ∈ (hashed es ++ hashed es')%list ∧ sha384 a = zero_bytes 48).

(** An event whose encoding reads back: its type is a [u32], its name has no
    colon. *)
Definition plain_event (e : Event) : Prop :=
  (0 ≤ ev_type e ≤ u32_max)%Z ∧ any_byte (λ c, c =?= ":"%char) (ev_name e) = false.

Lemma colon_free_inj a b c d :
  any_byte (λ x, x =?= ":"%char) a = false → any_byte (λ x, x =?= ":"%char) c = false →
  a +:+ ":" +:+ b = c +:+ ":" +:+ d → a = c ∧ b = d.
Proof.
  unfold any_byte. revert c. induction a as [|x a IH]; intros [|y c] Ha Hc E; cbn in Ha, Hc, E.
  - by injection E.
  - injection E as <- _. by rewrite bool_decide_true in Hc.
  - injection E as -> _. by rewrite bool_decide_true in Ha.
  - injection E as -> E. apply orb_false_iff in Ha as [_ Ha], Hc as [_ Hc].
    destruct (IH c Ha Hc E) as [-> ->]. done.
Qed.

Lemma byte_inj n m :
  ascii_of_N (Z.to_N (Z.land n 255)) = ascii_of_N (Z.to_N (Z.land m 255)) → (n mod 256 = m mod 256)%Z.
Proof.
  intros H. apply (f_equal N_of_ascii) in H. change 255%Z with (Z.ones 8) in H.
  rewrite !Z.land_ones in H by lia. change (2 ^ 8)%Z with 256%Z in H.
  pose proof (Z.mod_pos_bound n 256). pose proof (Z.mod_pos_bound m 256).
  rewrite !N_ascii_embedding in H by lia. lia.
Qed.

Lemma string_cons_inj a b s t : String a s = String b t → a = b ∧ s = t.
Proof. by intros [= -> ->]. Qed.

Lemma le32_inj n m : (0 ≤ n ≤ u32_max)%Z → (0 ≤ m ≤ u32_max)%Z → le32 n = le32 m → n = m.
Proof.
  unfold le32, u32_max. cbn [string_of_list_ascii]. intros Hn Hm H.
  apply string_cons_inj in H as [H0 H]. apply string_cons_inj in H as [H1 H].
  apply string_cons_inj in H as [H2 H]. apply string_cons_inj in H as [H3 _].
  apply byte_inj in H0, H1, H2, H3. revert H0 H1 H2 H3.
  rewrite !Z.shiftr_div_pow2 by lia.
  change (2 ^ (8 * 0))%Z with 1%Z; change (2 ^ (8 * 1))%Z with 256%Z;
  change (2 ^ (8 * 2))%Z with 65536%Z; change (2 ^ (8 * 3))%Z with 16777216%Z.
  intros. Z.to_euclidean_division_equations. lia.
Qed.

Lemma event_encoding_inj e e' :
  plain_event e → plain_event e' → event_encoding e = event_encoding e' → e = e'.
Proof.
  destruct e as [t n p], e' as [t' n' p']. intros [Ht Hn] [Ht' Hn'] H. cbn in *.
  unfold event_encoding in H. cbn [ev_type ev_name ev_payload] in H.
  apply append_inj_length in H as [Hl H]; [|reflexivity]. apply (le32_inj _ _ Ht Ht') in Hl.
  injection H as H. apply (colon_free_inj _ _ _ _ Hn Hn') in H as [-> ->]. by rewrite Hl.
Qed.

Lemma collision_last es e es' e' a b :
  a ∈ [event_encoding e; replay es +:+ event_digest e] → b ∈ [event_encoding e'; replay es' +:+ event_digest e'] →
  sha384_collision a b → sha384_broken (es ++ [e])%list (es' ++ [e'])%list.
Proof. intros Ha Hb Hc. left. exists a, b. rewrite !hashed_snoc, !elem_of_app. tauto. Qed.

Lemma replay_inj es es' :
  Forall plain_event es → Forall plain_event es' → replay es = replay es' →
  es = es' ∨ sha384_broken es es'.
Proof.
  revert es'. induction es as [|e es IH] using rev_ind; intros es'; destruct es' as [|e' es' _] using rev_ind;
    intros P P' H; [by left|..].
  - right. right. exists (replay es' +:+ event_digest e'). rewrite replay_snoc in H. split; [|done].
    rewrite hashed_snoc. set_solver.
  - right. right. exists (replay es +:+ event_digest e). rewrite replay_snoc in H. split; [|done].
    rewrite hashed_snoc. set_solver.
  - rewrite !replay_snoc in H. apply Forall_app in P as [P Pe], P' as [P' Pe'].
    rewrite Forall_singleton in Pe, Pe'.
    destruct (decide (replay es +:+ event_digest e = replay es' +:+ event_digest e')) as [E|NE];
      [|right; eapply collision_last; [right; left|right; left|by split]].
    apply append_inj_length in E as [Er Ed]; [|by rewrite !replay_length].
    destruct (decide (event_encoding e = event_encoding e')) as [Ee|NE];
      [|right; eapply collision_last; [left|left|by split]].
    apply event_encoding_inj in Ee as ->; [|done..].
    destruct (IH es' P P' Er) as [->|[(a & b & Ha & Hb & Hc)|(a & Ha & Hz)]]; [by left|..].
    + right. left. exists a, b. rewrite !hashed_snoc, !elem_of_app. tauto.
    + right. right. exists a. rewrite !hashed_snoc. rewrite !elem_of_app in *. split; [tauto|done].
Qed.

Lemma dstack_identity_run log rtmr3 id :
  dstack_identity log rtmr3 = Ok id →
  ∃ st, run_events identity_start (log_events log) = Ok st ∧ hex rtmr3 = Ok (replay (log_events log))
    ∧ id_compose st = Some id.2
    ∧ ∃ kms kp, id_mr_kms st = Some kms ∧ id_key_provider st = Some kp
      ∧ id.1 = identity_string id.2 (default "" (id_app_id st)) kms kp.
Proof.
  unfold dstack_identity, log_events. intros H. inv_ok.
  match goal with H : values_from_str log = Some _ |- _ => rewrite H end.
  match goal with H : event_loop _ _ = Ok ?s |- _ =>
    apply event_loop_read in H as (es & -> & Hs); exists s end.
  split; [done|]. bools. subst. apply run_events_replay in Hs. cbn [identity_start id_replay] in Hs.
  split; [unfold replay; congruence|]. eauto 8.
Qed.

(** The quoted RTMR3 fixes the identity: two event logs accepted against the
    same register, of events that read back, give the same identity and compose
    hash, unless SHA-384 collides, or has the zero register as a digest, on the
    very inputs of the two replays. *)
Theorem rtmr3_fixes_identity log log' rtmr3 id id' :
  dstack_identity log rtmr3 = Ok id → dstack_identity log' rtmr3 = Ok id' →
  Forall plain_event (log_events log) → Forall plain_event (log_events log') →
  id = id' ∨ sha384_broken (log_events log) (log_events log').
Proof.
  intros (st & Hs & Hh & Hc & kms & kp & Hk & Hp & Hi)%dstack_identity_run
    (st' & Hs' & Hh' & Hc' & kms' & kp' & Hk' & Hp' & Hi')%dstack_identity_run P P'.
  destruct (replay_inj _ _ P P') as [E|B]; [congruence| |by right].
  left. rewrite E in Hs. assert (st = st') as <- by congruence.
  destruct id, id'. cbn in *. f_equal; congruence.
Qed.
End Replay.

(** ** What a RedPill verdict rests on *)

Section RedpillSound.
Context {prim : Primitives} {x509 : CertificateReader} {readers : EvidenceReaders}
        {crypto : SignatureCrypto} {redpill : RedpillReaders}.

Lemma and_then_true {E} (c : bool) (k : result E bool) :
  (if negb c then Ok false else k) = Ok true ↔ c = true ∧ k = Ok true.
Proof. destruct c; cbn; naive_solver. Qed.

Lemma digest_tail s : slice (sha256_digest s) 7 (String.length (sha256_digest s)) = lower_hex (sha256 s).
Proof.
  unfold slice, sha256_digest. rewrite append_length. generalize (lower_hex (sha256 s)). intros t.
  change (String.substring 0 (String.length t - 0) t = t). rewrite Nat.sub_0_r. apply substring_full.
Qed.

(** A gateway quote whose report data is the hash of the keyset's digest and the
    request nonce. *)
Definition keyset_attested (capture : RedpillAciLiveEvidence) (gateway : VerifiedTdxQuote) (keyset : Value) : Prop :=
  value_pointer ["attestation"; "workload_keyset"] (rp_gateway_report capture) = Some keyset
  ∧ ∃ digest, redpill_aci_jcs_digest keyset = Ok digest
    ∧ td_report_data gateway
      = lower_hex (sha256 (keyset_statement digest (rp_request_nonce capture))) +:+ zeros 64.

Lemma gateway_keyset_Ok capture gateway keyset :
  gateway_keyset capture gateway = Ok keyset → keyset_attested capture gateway keyset.
Proof.
  unfold gateway_keyset. cbn zeta. intros H. inv_ok.
  repeat match goal with H : negb ?b = false |- _ => apply negb_false_iff in H; try subst b end.
  split; [eassumption|]. eexists. split; [eassumption|].
  match goal with H : _ = Ok true |- _ => apply and_then_true in H as [H _]; rewrite digest_tail in H end.
  by bools.
Qed.

(** The live certificate carries the key seen on the connection, which is one of the
    keyset, scoped to the API's host when it names a domain. *)
Definition certificate_in_keyset (capture : RedpillAciLiveEvidence) (keyset : Value) (api_endpoint cert spki : string)
    : Prop :=
  base64_decode (rp_live_tls_leaf_certificate_der_base64 capture) = Some cert
  ∧ certificate_spki_sha256_hex cert = Ok spki ∧ rp_live_tls_spki_sha256 capture = spki
  ∧ ∃ rest authority host keys key, strip_prefix "https://" api_endpoint = Some rest
      ∧ split_first "/" rest = Some authority ∧ split_first ":" authority = Some host
      ∧ get_array "tls_public_keys" keyset = Some keys ∧ key ∈ keys ∧ tls_key_matches spki host key = true.

Lemma gateway_certificate_Ok capture keyset api_endpoint cert spki :
  gateway_certificate capture keyset api_endpoint = Ok (cert, spki) →
  certificate_in_keyset capture keyset api_endpoint cert spki.
Proof.
  unfold gateway_certificate. intros H. inv_ok.
  match goal with H : (_ ≫= _) = Some _ |- _ => apply bind_Some in H as (rest & Hr & Ha) end.
  match goal with H : negb (existsb _ _) = false |- _ =>
    apply negb_false_iff, existsb_exists in H as (key & Hin & Hk) end.
  bools. split; [done|]. split; [done|]. split; [done|]. eexists rest, _, _, _, key. split_and!; try eassumption.
  by apply list_elem_of_In.
Qed.

(** The model's report data: the hash of address and TLS key, then the nonce,
    and a session bound to that key. *)
Definition model_bound (session model : Value) (model_quote : VerifiedTdxQuote) (nonce : string) : Prop :=
  ∃ nonce_bytes address address_bytes spki spki_bytes endpoint bindings,
    field ["request_nonce"] model = Ok nonce ∧ hex nonce = Ok nonce_bytes
    ∧ field ["signing_address"] model = Ok address ∧ hex (strip_0x address) = Ok address_bytes
    ∧ field ["tls_cert_fingerprint"] model = Ok spki ∧ hex spki = Ok spki_bytes
    ∧ hex (td_report_data model_quote) = Ok (sha256 (address_bytes +:+ spki_bytes) +:+ nonce_bytes)
    ∧ field ["endpoint"] session = Ok endpoint ∧ get_array "channel_binding" session = Some bindings
    ∧ existsb (channel_binding_matches spki endpoint) bindings = true.

Lemma model_binding_Ok session model model_quote nonce :
  model_binding session model model_quote = Ok nonce → model_bound session model model_quote nonce.
Proof.
  unfold model_binding. intros H. inv_ok.
  repeat match goal with H : negb _ = false |- _ => apply negb_false_iff in H end.
  match goal with H : bool_decide _ = true |- _ => apply bool_decide_eq_true in H; subst end.
  repeat eexists; eassumption.
Qed.

(** At [now] the keyset, the session and the certificate are in force, and until
    [until] they and the two quotes stay so. *)
Definition in_force (session keyset : Value) (cert : string) (gateway model_quote : VerifiedTdxQuote) (now until : Z) : Prop :=
  ∃ keyset_end established session_end cert_start cert_end,
    get_seconds "not_after" keyset = Some keyset_end
    ∧ get_seconds "established_at" session = Some established ∧ get_seconds "expires_at" session = Some session_end
    ∧ certificate_validity_epoch_millis cert = Ok (cert_start, cert_end)
    ∧ (established ≤ saturating_add now MAX_SESSION_FUTURE_SKEW_MS)%Z ∧ (established < session_end)%Z ∧ (cert_start ≤ now)%Z
    ∧ (now < until)%Z ∧ (until ≤ keyset_end)%Z ∧ (until ≤ session_end)%Z ∧ (until ≤ cert_end)%Z
    ∧ (until ≤ td_expires_at_epoch_ms gateway)%Z ∧ (until ≤ td_expires_at_epoch_ms model_quote)%Z.

Lemma session_window_Ok session keyset cert now ke se ce gateway model_quote until :
  session_window session keyset cert now = Ok (ke, se, ce) →
  until = Z.min (Z.min (Z.min (Z.min ke se) ce) (td_expires_at_epoch_ms gateway)) (td_expires_at_epoch_ms model_quote) →
  (now < until)%Z → in_force session keyset cert gateway model_quote now until.
Proof.
  unfold session_window. intros H -> Hn. inv_ok.
  match goal with x : Z * Z |- _ => destruct x end. inv_ok. bools. eexists _, _, _, _, _. split_and!; try eassumption; lia.
Qed.

(** The app definitions shown are those whose hashes the event logs extended. *)
Definition apps_measured (report model : Value) (gateway_compose_hash model_compose_hash : string) : Prop :=
  ∃ shown tcb_info model_app gateway_app, value_pointer ["info"; "tcb_info"] model = Some shown
    ∧ match shown with VString encoded => value_from_slice encoded = Some tcb_info | value => value = tcb_info end
    ∧ field ["app_compose"] tcb_info = Ok model_app ∧ sha256_digest model_app = "sha256:" +:+ model_compose_hash
    ∧ field ["attestation"; "evidence"; "app_compose"] report = Ok gateway_app
    ∧ sha256_digest gateway_app = "sha256:" +:+ gateway_compose_hash.
Lemma check_app_compose_Ok report model gateway_compose_hash model_compose_hash :
  check_app_compose report model gateway_compose_hash model_compose_hash = Ok tt →
  apps_measured report model gateway_compose_hash model_compose_hash.
Proof.
  unfold check_app_compose. intros H. inv_ok.
  match goal with H : negb ?b = false |- _ => apply negb_false_iff in H; subst b end.
  match goal with H : _ = Ok true |- _ => apply and_then_true in H as [Hm Hg] end. inv_ok. bools.
  eexists _, _, _, _. split_and!; try eassumption. case_match; by simplify_eq/=; inv_ok.
Qed.

(** The GPU evidence is that of the session, under its nonce, and the back end
    accepted it. *)
Definition gpu_attested (gpu_verifier : GpuAttestationVerifier) (capture : RedpillAciLiveEvidence) (model : Value) (nonce : string) : Prop :=
  ∃ evidence payload verified, rp_gpu_attestation capture = Some evidence ∧ field ["nvidia_payload"] model = Ok payload
    ∧ ng_nonce evidence = nonce ∧ ng_payload_sha256 evidence = Some (sha256_digest payload)
    ∧ ng_raw_payload_base64 evidence ≫= base64_decode = Some payload
    ∧ verify_nvidia_gpu_attestation
        {| nr_evidence := evidence; nr_expected_nonce := nonce; nr_expected_tee := NvidiaCc;
           nr_provider := rp_provider capture; nr_route_id := rp_route_id capture |} = Ok verified
    ∧ vg_tee verified = NvidiaCc ∧ vg_nonce verified = nonce.
Lemma session_gpu_Ok gpu_verifier capture model nonce :
  session_gpu gpu_verifier capture model nonce = Ok tt → gpu_attested gpu_verifier capture model nonce.
Proof.
  unfold session_gpu. intros H. inv_ok. bools. destruct_and?. bools. eexists _, _, _. split_and!; try eassumption; done.
Qed.

(** What a verified capture has shown, with the session's evidence and nonce, the
    keyset and the certificate it was shown of. *)
Record redpill_facts (quotes : TinfoilQuoteVerifier) (gpu : GpuAttestationVerifier) (api_endpoint provider_model : string) (now : Z)
    (capture : RedpillAciLiveEvidence) (v : VerifiedRedpillAciCapture) (model keyset : Value) (nonce cert : string) : Prop := {
  rd_nonce : is_canonical_nonce (rp_request_nonce capture) = true;
  rd_session : session_evidence capture = Ok model;
  rd_named : field ["claims"; "extra"; "canonical_model_id"] (rp_session capture) = Ok provider_model;
  rd_model : model_bound (rp_session capture) model (vr_model_quote v) nonce;
  rd_gpu : gpu_attested gpu capture model nonce;
  rd_quotes : ∃ gateway_bytes model_bytes, redpill_aci_quote_bytes capture = Ok (gateway_bytes, model_bytes)
    ∧ verify_tdx_quote gateway_bytes = Ok (vr_gateway_quote v)
    ∧ verify_tdx_quote model_bytes = Ok (vr_model_quote v);
  rd_keyset : keyset_attested capture (vr_gateway_quote v) keyset;
  rd_channel : certificate_in_keyset capture keyset api_endpoint cert (vr_live_tls_spki_sha256 v);
  rd_identity : ∃ gateway_log model_log gateway_identity model_identity,
    field ["attestation"; "evidence"; "event_log"] (rp_gateway_report capture) = Ok gateway_log
    ∧ field ["event_log"] model = Ok model_log
    ∧ dstack_identity gateway_log (td_rtmr3 (vr_gateway_quote v)) = Ok (gateway_identity, vr_gateway_compose_hash v)
    ∧ dstack_identity model_log (td_rtmr3 (vr_model_quote v)) = Ok (model_identity, vr_model_compose_hash v)
    ∧ vr_tee_measurement v
      = redpill_aci_tee_measurement provider_model (vr_gateway_quote v) (vr_model_quote v)
        +:+ ":gateway_" +:+ gateway_identity +:+ ":upstream_" +:+ model_identity;
  rd_apps : apps_measured (rp_gateway_report capture) model (vr_gateway_compose_hash v) (vr_model_compose_hash v);
  rd_in_force :
    in_force (rp_session capture) keyset cert (vr_gateway_quote v) (vr_model_quote v) now (vr_expires_at_epoch_ms v);
}.
Definition redpill_verified (quotes : TinfoilQuoteVerifier) (gpu : GpuAttestationVerifier) (api_endpoint provider_model : string)
    (now : Z) (capture : RedpillAciLiveEvidence) (v : VerifiedRedpillAciCapture) : Prop :=
  ∃ model keyset nonce cert, redpill_facts quotes gpu api_endpoint provider_model now capture v model keyset nonce cert.

Lemma redpill_capture_Ok quotes gpu api_endpoint provider_model now capture v :
  verify_redpill_aci_capture quotes quotes gpu api_endpoint provider_model now capture = Ok v →
  redpill_verified quotes gpu api_endpoint provider_model now capture v.
Proof.
  unfold verify_redpill_aci_capture. cbn zeta. intros H. inv_ok.
  repeat (match goal with x : _ * _ |- _ => destruct x end; inv_ok).
  match goal with H : gateway_keyset _ _ = Ok _ |- _ => apply gateway_keyset_Ok in H end.
  match goal with H : gateway_certificate _ _ _ = Ok _ |- _ => apply gateway_certificate_Ok in H end.
  match goal with H : model_binding _ _ _ = Ok _ |- _ => apply model_binding_Ok in H end.
  match goal with H : check_app_compose _ _ _ _ = Ok _ |- _ => apply check_app_compose_Ok in H end.
  match goal with H : session_gpu _ _ _ _ = Ok _ |- _ => apply session_gpu_Ok in H end.
  match goal with H : negb _ || negb (is_canonical_nonce _) = false |- _ =>
    apply orb_false_iff in H as [_ H]; apply negb_false_iff in H end.
  repeat match goal with H : negb (bool_decide _) = false |- _ =>
    apply negb_false_iff, bool_decide_eq_true in H; subst end.
  match goal with H : (_ <=? now)%Z = false |- _ => apply Z.leb_gt in H; rename H into Hnow end.
  match goal with H : session_window _ _ _ _ = Ok _ |- _ => eapply session_window_Ok in H; [|reflexivity|exact Hnow] end.
  eexists _, _, _, _. constructor; cbn [vr_model_quote vr_gateway_quote vr_live_tls_spki_sha256 vr_gateway_compose_hash
    vr_model_compose_hash vr_tee_measurement vr_expires_at_epoch_ms]; try eassumption; [by eauto|by eauto 12].
Qed.

Lemma redpill_well_formed capture v digest : live_well_formed (redpill_evidence capture v digest).
Proof. constructor; [by left|done|vm_compute; reflexivity]. Qed.

Lemma redpill_pinned_elem request m provider reference :
  find_references request = Ok (provider, reference) → redpill_pinned request m = true →
  m ∈ pr_accepted_measurements provider.
Proof.
  unfold find_references, redpill_pinned. intros H Hp. inv_ok.
  match goal with H : _ !! _ = Some provider |- _ => rewrite H in Hp end. by apply measurement_accepted_elem.
Qed.

(** C21: every RedPill verdict, allowed or not, enforced or advisory, rests on a
    verified gateway and a verified model node: the capture answers this
    request's nonce; the gateway's quote binds a TLS keyset and that nonce, and
    the live certificate carries the key seen on the connection and is of that keyset,
    for the API's host; the model's quote binds its address, TLS key and session
    nonce, the GPU evidence is of that nonce, and the session is of the route's model;
    the capture's event logs replay to the quoted RTMR3s and extend the hashes of the
    apps shown; the pair of measurements and identities is pinned; and keyset, session,
    certificate and both quotes were in force when the capture was checked. *)
Theorem redpill_verdict_sound quotes gpu captured_now now request v :
  verify_redpill_live_evidence quotes gpu captured_now now request = Ok v →
  ∃ capture verified provider reference,
    redpill_from_slice (rq_raw_evidence request) = Some capture
    ∧ capture_for (redpill_metadata capture) request
    ∧ rq_expected_freshness_nonce request = Some (rp_request_nonce capture)
    ∧ redpill_verified quotes gpu (rt_api_endpoint (rq_route request)) (rt_provider_model (rq_route request))
        captured_now capture verified
    ∧ find_references request = Ok (provider, reference)
    ∧ vr_tee_measurement verified ∈ pr_accepted_measurements provider.
Proof.
  unfold verify_redpill_live_evidence. intros H. inv_ok. bools.
  match goal with H : validate_live_capture_metadata _ _ = Ok _ |- _ => apply metadata_Ok in H end.
  match goal with H : verify_redpill_aci_capture _ _ _ _ _ _ _ = Ok _ |- _ => apply redpill_capture_Ok in H end.
  unfold verify_provider_live_evidence in H. inv_ok.
  match goal with H : find_references _ = Ok ?p |- _ => destruct p as [provider reference] end.
  eexists _, _, provider, reference. split_and!; try eassumption. by eapply redpill_pinned_elem.
Qed.
End RedpillSound.

(** ** Concrete inputs *)

#[local] Existing Instance sample_x509.

(** A 48-byte checksum in place of SHA-384. *)
Definition checksum (s : string) : string :=
  pad32 48 (dec_string (fold_left (λ acc c, (acc * 257 + Z.of_N (code c) + 1) mod 2305843009213693951)%Z (bytes s) 0%Z)).

Definition event_value (imr type : Z) (name payload : string) : Value :=
  VObject [("imr", VNumber (PosInt imr)); ("event_type", VNumber (PosInt type)); ("event", VString name);
           ("event_payload", VString (lower_hex payload)); ("digest", VString "")].
Definition sample_log : list Value :=
  [event_value 0 1 "firmware" "x"; event_value 3 1 "boot" "x";
   event_value 3 APP_EVENT_TYPE "compose-hash" (sha256 "app"); event_value 3 APP_EVENT_TYPE "mr-kms" (sha256 "kms");
   event_value 3 APP_EVENT_TYPE "key-provider" "kp"].

Definition sample_model : Value :=
  VObject [("intel_quote", VString (lower_hex "mq")); ("event_log", VString "log");
           ("info", VObject [("tcb_info", VObject [("app_compose", VString "app")])]);
           ("request_nonce", VString (zeros 64)); ("signing_address", VString ("0x" +:+ zeros 40));
           ("tls_cert_fingerprint", VString (zeros 64)); ("nvidia_payload", VString "gpu")].
Definition sample_session : Value :=
  VObject [("api_version", VString "aci/1"); ("endpoint", VString "https://node");
           ("evidence", VObject [("data", VString "data:application/json;base64,model");
                                 ("digest", VString (sha256_digest "model"))]);
           ("claims", VObject [("extra", VObject [("canonical_model_id", VString "pm")])]);
           ("established_at", VNumber (PosInt 1769904000)); ("expires_at", VNumber (PosInt 1769990400));
           ("channel_binding",
             VArray [VObject [("type", VString "tls_spki_sha256"); ("spki_sha256", VString (zeros 64));
                              ("origin", VString "https://node")]])].
Definition sample_keyset : Value :=
  VObject [("not_after", VNumber (PosInt 1769990400));
           ("tls_public_keys", VArray [VObject [("spki_sha256", VString (sha256_hex "cert"));
                                                ("domain", VString "API")]])].
Definition sample_statement : string :=
  lower_hex (sha256 (keyset_statement (sha256_digest "keyset") live_nonce)).
Definition sample_report : Value :=
  VObject [("api_version", VString "aci/1"); ("workload_keyset_digest", VString (sha256_digest "keyset"));
           ("attestation",
             VObject [("tee_type", VString "tdx"); ("report_data", VString sample_statement);
                      ("workload_keyset", sample_keyset);
                      ("evidence", VObject [("quote", VString (lower_hex "gq")); ("event_log", VString "log");
                                            ("app_compose", VString "app")])])].

Definition sample_redpill : RedpillAciLiveEvidence := {|
  rp_schema := REDPILL_SCHEMA; rp_provider := "near"; rp_route_id := "r";
  rp_evidence_family := "redpill_aci_verified_tls"; rp_requested_model := "m";
  rp_policy_digest := ok_value (policy_digest require_hw_verified_tls); rp_request_nonce := live_nonce;
  rp_evidence_endpoint := "https://evidence"; rp_live_tls_spki_sha256 := sha256_hex "cert";
  rp_live_tls_leaf_certificate_der_base64 := "cert"; rp_gateway_report := sample_report;
  rp_session := sample_session; rp_session_id := sha256_hex "session";
  rp_gpu_attestation := Some {| ng_schema := NVIDIA_EVIDENCE_SCHEMA; ng_attestation_format := NRAS_GPU_EVIDENCE_V3;
    ng_nonce := zeros 64; ng_arch := None; ng_payload_sha256 := Some (sha256_digest "gpu");
    ng_raw_payload_base64 := Some "gpu"; ng_nras_token := Some "token" |} |}.

(** Two logs: the second without the event of another register. *)
#[local] Instance sample_redpill_readers : RedpillReaders := {|
  redpill_from_slice raw := if raw =?= "redpill" then Some sample_redpill else None;
  values_from_str log := if log =?= "log" then Some sample_log else Some (tail sample_log);
  jcs_to_vec v := if is_some (value_get "api_version" v) then Some "session" else Some "keyset";
  sha384 := checksum |}.
#[local] Instance sample_sha384_laws : Sha384Laws.
Proof. constructor. intros s. apply pad32_length. Qed.
#[local] Instance redpill_evidence_readers : EvidenceReaders := {|
  value_from_slice raw := if raw =?= "model" then Some sample_model else None;
  fixture_from_slice _ := None; tinfoil_tls_from_slice _ := None; chutes_e2ee_from_slice _ := None;
  chutes_live_from_slice _ := None; tinfoil_live_from_slice _ := None;
  near_live_from_slice _ := None; dstack_from_slice _ := None; base64_decode s := Some s |}.

Definition sample_rtmr3 : string := lower_hex (replay (log_events "log")).
Definition with_rtmr3 (q : VerifiedTdxQuote) : VerifiedTdxQuote := {|
  td_tee_measurement := td_tee_measurement q; td_mr_td := td_mr_td q; td_mr_config_id := td_mr_config_id q;
  td_rtmr0 := td_rtmr0 q; td_rtmr1 := td_rtmr1 q; td_rtmr2 := td_rtmr2 q; td_rtmr3 := sample_rtmr3;
  td_report_data := td_report_data q; td_issued_at := td_issued_at q; td_expires_at := td_expires_at q;
  td_expires_at_epoch_ms := td_expires_at_epoch_ms q |}.
Definition gateway_sample_quote : VerifiedTdxQuote := with_rtmr3 (sample_tdx_quote (sample_statement +:+ zeros 64) "c").
Definition model_sample_quote : VerifiedTdxQuote :=
  with_rtmr3 (sample_tdx_quote (lower_hex (sha256 (zero_bytes 52) +:+ zero_bytes 32)) "c").
Definition redpill_quote_verifier : TinfoilQuoteVerifier := {|
  verify_tinfoil_quote _ := Err (InvalidEvidence "no capture");
  verify_tdx_quote q := if q =?= "gq" then Ok gateway_sample_quote
    else if q =?= "mq" then Ok model_sample_quote else Err (InvalidEvidence "unknown quote") |}.
Definition redpill_gpu_verifier : GpuAttestationVerifier := {|
  verify_nvidia_gpu_attestation r :=
    Ok {| vg_tee := nr_expected_tee r; vg_nonce := nr_expected_nonce r;
          vg_attestation_format := ng_attestation_format (nr_evidence r); vg_verifier := "sample" |} |}.

Definition sample_identity : string :=
  identity_string (lower_hex (sha256 "app")) "" (lower_hex (sha256 "kms")) (lower_hex "kp").
Definition redpill_request : VerificationRequest :=
  pinned_request "redpill_aci_verified_tls" KindTeeTerminatedTls HwVerifiedTls require_hw_verified_tls
    (redpill_aci_tee_measurement "pm" gateway_sample_quote model_sample_quote
     +:+ ":gateway_" +:+ sample_identity +:+ ":upstream_" +:+ sample_identity) live_nonce "redpill".

Definition sample_now : Z := 1769904000000.

Lemma rtmr3_fixes_identity_witness :
  ∃ id id', dstack_identity "log" sample_rtmr3 = Ok id ∧ dstack_identity "log2" sample_rtmr3 = Ok id'
    ∧ (id = id' ∨ sha384_broken (log_events "log") (log_events "log2")).
Proof.
  destruct (is_ok_inv (dstack_identity "log" sample_rtmr3)) as [id E]; [vm_compute; reflexivity|].
  destruct (is_ok_inv (dstack_identity "log2" sample_rtmr3)) as [id' E']; [vm_compute; reflexivity|].
  exists id, id'. split; [exact E|]. split; [exact E'|].
  apply (rtmr3_fixes_identity "log" "log2" sample_rtmr3); [exact E|exact E'|..];
    repeat (constructor; [split; [vm_compute; split; congruence|reflexivity]|]); constructor.
Defined.

Lemma redpill_verdict_sound_witness :
  ∃ verified, redpill_verified redpill_quote_verifier redpill_gpu_verifier "https://api" "pm" sample_now sample_redpill verified.
Proof.
  destruct (is_ok_inv (verify_redpill_live_evidence redpill_quote_verifier redpill_gpu_verifier sample_now sample_now
    redpill_request)) as [v E]; [vm_compute; reflexivity|].
  destruct (redpill_verdict_sound _ _ _ _ _ v E) as (capture & verified & _ & _ & Hc & _ & _ & Hv & _).
  exists verified. cbn in Hc. injection Hc as <-. exact Hv.
Defined.

(** Without plain names the register does not fix the events: a name that
    holds a colon and a shorter payload hash as another name and payload. *)
Example colon_ambiguous type p :
  event_encoding {| ev_type := type; ev_name := "compose-hash"; ev_payload := "a:" +:+ p |}
  = event_encoding {| ev_type := type; ev_name := "compose-hash:a"; ev_payload := p |}.
Proof. reflexivity. Qed.
