(* ===== verification/Dispatch.v ===== *)
(** * Dispatch on the evidence family

    The public entry points of verifier.rs: a request goes to the verifier of
    its route's evidence family, with the quote and GPU back ends given, or with
    back ends that refuse everything. *)

From Stdlib Require Import Ascii String ZArith Lia.
From stdpp Require Import base gmap strings list numbers.
From S2P Require Import Prelude RustStr Errors Collections Timestamps Canonical JsonInjective Policy Verdict Evidence Bindings.
From S2P Require Import Signature ReferenceValues VerifierCore VerifierSound EvidenceDocuments FixtureVerifier DstackVerifier.
From S2P Require Import QuoteInterfaces ChutesVerifier TinfoilVerifier LiveEvidence LiveFamilies Ppq Redpill.

Open Scope string_scope.

Section Dispatch.
Context {prim : Primitives} {x509 : CertificateReader} {readers : EvidenceReaders} {reader : YamlReader}
        {near : NearReader} {tinfoil : TinfoilReaders} {ppq : PpqReaders} {redpill : RedpillReaders}.

(** [captured_now] and [now]: the clock as read by the RedPill capture check,
    and when the validity window is computed. *)
Definition verify_evidence_with_attestation_verifiers (captured_now now : Z) (quotes : TinfoilQuoteVerifier)
    (gpu : GpuAttestationVerifier) (request : VerificationRequest) : Result AttestationVerdict :=
  let family := rt_evidence_family (rq_route request) in
  if family =?= "fixture_dstack" then verify_fixture_evidence now request
  else if family =?= "dstack_app_e2ee" then verify_dstack_evidence now request
  else if family =?= "chutes_e2ee" then verify_chutes_e2ee_evidence_with_gpu_attestation_verifier gpu now request
  else if family =?= "chutes_live_e2ee"
    then verify_chutes_live_evidence_with_attestation_verifiers quotes gpu now request
  else if family =?= "near_hw_verified_tls"
    then verify_near_live_evidence_with_attestation_verifiers quotes gpu now request
  else if family =?= "ppq_ehbp"
    then verify_ppq_ehbp_live_evidence_with_attestation_verifiers quotes gpu now request
  else if family =?= "redpill_aci_verified_tls"
    then verify_redpill_live_evidence quotes gpu captured_now now request
  else if family =?= "tinfoil_hw_verified_tls"
    then verify_tinfoil_tls_evidence_with_quote_verifier quotes now request
  else Err (InvalidEvidence "unsupported evidence family {evidence_family}").

Definition verify_evidence_with_tinfoil_quote_verifier (captured_now now : Z) (quotes : TinfoilQuoteVerifier)
    (request : VerificationRequest) : Result AttestationVerdict :=
  verify_evidence_with_attestation_verifiers captured_now now quotes FailClosedGpuAttestationVerifier request.

Definition verify_evidence_with_gpu_attestation_verifier (captured_now now : Z) (gpu : GpuAttestationVerifier)
    (request : VerificationRequest) : Result AttestationVerdict :=
  verify_evidence_with_attestation_verifiers captured_now now FailClosedTinfoilQuoteVerifier gpu request.

Definition verify_evidence (captured_now now : Z) (request : VerificationRequest) : Result AttestationVerdict :=
  verify_evidence_with_attestation_verifiers captured_now now FailClosedTinfoilQuoteVerifier
    FailClosedGpuAttestationVerifier request.

(** ** Every family ends in a finished verdict *)

Definition finishes (request : VerificationRequest) (r : Result AttestationVerdict) : Prop :=
  ∀ v, r = Ok v → ∃ p, finish_verdict request p = Ok v
                       ∧ vp_raw_evidence_digest p = sha256_digest (rq_raw_evidence request).

Ltac finish_tac :=
  let H := fresh in
  intros ? H; repeat (inv_ok; try match goal with x : _ * _ |- _ => destruct x end); eexists; split;
    [exact H|unfold fixture_parts, dstack_parts, chutes_parts, tinfoil_parts, live_parts; repeat case_match; reflexivity].

Lemma live_finishes gpu now request e : finishes request (verify_provider_live_evidence gpu now request e).
Proof. unfold verify_provider_live_evidence. finish_tac. Qed.

Lemma tinfoil_finishes now request e :
  finishes request (verify_tinfoil_verified_evidence now request e (sha256_digest (rq_raw_evidence request))).
Proof. unfold verify_tinfoil_verified_evidence. finish_tac. Qed.

Ltac live_tac :=
  let H := fresh in
  intros ? H; repeat (inv_ok; try match goal with x : _ * _ |- _ => destruct x end); by eapply live_finishes.

Lemma dispatch_finishes captured_now now quotes gpu request :
  finishes request (verify_evidence_with_attestation_verifiers captured_now now quotes gpu request).
Proof.
  unfold verify_evidence_with_attestation_verifiers. cbn zeta.
  case_bool_decide; [unfold verify_fixture_evidence; finish_tac|].
  case_bool_decide; [unfold verify_dstack_evidence; finish_tac|].
  case_bool_decide; [unfold verify_chutes_e2ee_evidence_with_gpu_attestation_verifier; finish_tac|].
  case_bool_decide; [unfold verify_chutes_live_evidence_with_attestation_verifiers; live_tac|].
  case_bool_decide; [unfold verify_near_live_evidence_with_attestation_verifiers; live_tac|].
  case_bool_decide; [unfold verify_ppq_ehbp_live_evidence_with_attestation_verifiers; live_tac|].
  case_bool_decide; [unfold verify_redpill_live_evidence; live_tac|].
  case_bool_decide; [|done].
  unfold verify_tinfoil_tls_evidence_with_quote_verifier, verify_tinfoil_live_capture_with_quote_verifier.
  case_bool_decide; cbn zeta; intros v Hv; inv_ok; by eapply tinfoil_finishes.
Qed.

(** What a returned verdict is, whatever the family. *)
Record verdict_for (request : VerificationRequest) (v : AttestationVerdict) : Prop := {
  vf_consistent : validate_summary_consistency v = Ok tt;
  vf_provider : v_provider v = rt_provider (rq_route request);
  vf_route_id : v_route_id v = rt_route_id (rq_route request);
  vf_family : v_evidence_family v = rt_evidence_family (rq_route request);
  vf_model : v_requested_model v = rt_requested_model (rq_route request);
  vf_registry : v_registry_version v = rq_registry_version request;
  vf_evidence : v_raw_evidence_digest v = sha256_digest (rq_raw_evidence request);
  vf_enforcement : v_enforcement v = enforcement (rq_policy request);
  vf_allowed : enforcement (rq_policy request) = Enforce →
    (v_request_allowed v = true ↔
     ∀ name state, v_checks v !! name = Some state → check_blocks (rq_policy request) (name, state) = false);
}.
Lemma dispatched_verdict captured_now now quotes gpu request v :
  verify_evidence_with_attestation_verifiers captured_now now quotes gpu request = Ok v → verdict_for request v.
Proof.
  intros (p & Hp & Hd)%dispatch_finishes. pose proof (finish_Ok _ _ _ Hp) as [-> Hv].
  constructor; try done. intros He. rewrite (finished_allowed _ _ _ Hp He), negb_true_iff. apply would_block_false.
Qed.

(** C11: whatever the family and the back ends, a verdict that is returned passed
    the consistency validation, speaks of the request's route and model and of
    the very evidence bytes that were verified, and, under an enforcing policy,
    allows the request exactly when no check of it blocks. *)
Theorem dispatched_verdict_sound captured_now now quotes gpu request v :
  verify_evidence_with_attestation_verifiers captured_now now quotes gpu request = Ok v →
  validate_summary_consistency v = Ok tt
  ∧ v_provider v = rt_provider (rq_route request) ∧ v_route_id v = rt_route_id (rq_route request)
  ∧ v_evidence_family v = rt_evidence_family (rq_route request)
  ∧ v_requested_model v = rt_requested_model (rq_route request)
  ∧ v_registry_version v = rq_registry_version request
  ∧ v_raw_evidence_digest v = sha256_digest (rq_raw_evidence request)
  ∧ v_enforcement v = enforcement (rq_policy request)
  ∧ (enforcement (rq_policy request) = Enforce →
     (v_request_allowed v = true ↔
      ∀ name state, v_checks v !! name = Some state → check_blocks (rq_policy request) (name, state) = false)).
Proof. intros H. destruct (dispatched_verdict _ _ _ _ _ _ H). by split_and!. Qed.

(** ** Back ends that refuse *)

Definition live_families : list string :=
  ["chutes_live_e2ee"; "near_hw_verified_tls"; "ppq_ehbp"; "redpill_aci_verified_tls"].

Definition known_families : list string :=
  "fixture_dstack" :: "dstack_app_e2ee" :: "chutes_e2ee" :: "tinfoil_hw_verified_tls" :: live_families.

Lemma chutes_live_needs_quote gpu now request v :
  verify_chutes_live_evidence_with_attestation_verifiers FailClosedTinfoilQuoteVerifier gpu now request ≠ Ok v.
Proof. unfold verify_chutes_live_evidence_with_attestation_verifiers. intros H. inv_ok. discriminate. Qed.
Lemma near_live_needs_quote gpu now request v :
  verify_near_live_evidence_with_attestation_verifiers FailClosedTinfoilQuoteVerifier gpu now request ≠ Ok v.
Proof.
  unfold verify_near_live_evidence_with_attestation_verifiers, near_live_quote. intros H.
  repeat (inv_ok; try match goal with x : _ * _ |- _ => destruct x end). discriminate.
Qed.
Lemma ppq_needs_quote gpu now request v :
  verify_ppq_ehbp_live_evidence_with_attestation_verifiers FailClosedTinfoilQuoteVerifier gpu now request ≠ Ok v.
Proof.
  unfold verify_ppq_ehbp_live_evidence_with_attestation_verifiers, verify_ppq_ehbp_quote. intros H. inv_ok. discriminate.
Qed.
Lemma redpill_needs_quote gpu captured_now now request v :
  verify_redpill_live_evidence FailClosedTinfoilQuoteVerifier gpu captured_now now request ≠ Ok v.
Proof.
  unfold verify_redpill_live_evidence, verify_redpill_aci_capture. intros H.
  repeat (inv_ok; try match goal with x : _ * _ |- _ => destruct x end). discriminate.
Qed.

(** Without a quote back end nothing live is accepted: for the live Chutes,
    NEAR, PPQ and RedPill families, and for a live Tinfoil capture, the entry
    points that configure none return an error whatever the evidence; an unknown family is an error for every entry point. *)
Theorem default_back_ends_fail_closed captured_now now gpu request :
  (rt_evidence_family (rq_route request) ∈ live_families →
   is_ok (verify_evidence_with_gpu_attestation_verifier captured_now now gpu request) = false)
  ∧ (rt_evidence_family (rq_route request) = "tinfoil_hw_verified_tls" →
     raw_schema (rq_raw_evidence request) = Some TINFOIL_LIVE_SCHEMA →
     is_ok (verify_evidence_with_gpu_attestation_verifier captured_now now gpu request) = false)
  ∧ (rt_evidence_family (rq_route request) ∉ known_families →
     ∀ quotes, verify_evidence_with_attestation_verifiers captured_now now quotes gpu request
               = Err (InvalidEvidence "unsupported evidence family {evidence_family}")).
Proof.
  unfold verify_evidence_with_gpu_attestation_verifier, verify_evidence_with_attestation_verifiers, known_families, live_families.
  cbn zeta. split_and!.
  - intros Hf.
    match goal with |- is_ok ?r = false => destruct r as [v|] eqn:E; [exfalso|done] end.
    revert E. repeat (apply elem_of_cons in Hf as [Hf|Hf]); [rewrite Hf; cbn..|by apply elem_of_nil in Hf].
    + apply chutes_live_needs_quote.
    + apply near_live_needs_quote.
    + apply ppq_needs_quote.
    + apply redpill_needs_quote.
  - intros Hf Hs.
    match goal with |- is_ok ?r = false => destruct r as [v|] eqn:E; [exfalso|done] end.
    revert E. rewrite Hf. cbn [bool_decide decide_rel].
    unfold verify_tinfoil_tls_evidence_with_quote_verifier, verify_tinfoil_live_capture_with_quote_verifier.
    rewrite Hs. intros E. repeat case_bool_decide; try done. cbn zeta in E. inv_ok. discriminate.
  - intros Hn quotes. rewrite !not_elem_of_cons in Hn.
    by rewrite !bool_decide_false by tauto.
Qed.
(** ** The GPU requirement *)

Definition gpu_blind_families : list string := ["fixture_dstack"; "dstack_app_e2ee"; "tinfoil_hw_verified_tls"].

Lemma fixture_gpu request e provider reference :
  checks (fixture_audit request e provider reference).1.1 !! "gpu_tee" = Some NotApplicable.
Proof.
  rewrite fixture_audit_eq. cbn zeta. unfold fixture_data_audit, fixture_channel_audit.
  repeat audit_step. apply lookup_insert_check_eq.
Qed.
Lemma dstack_gpu request e provider reference :
  checks (dstack_audit request e provider reference).1.1 !! "gpu_tee" = Some NotApplicable.
Proof.
  rewrite dstack_audit_eq. cbn zeta.
  repeat first [ audit_step | rewrite lookup_dstack_data by reflexivity
               | rewrite lookup_dstack_channel by reflexivity | rewrite lookup_dstack_provenance by reflexivity ].
  apply lookup_insert_check_eq.
Qed.
Lemma tinfoil_gpu request e provider reference spki :
  checks (tinfoil_audit request e provider reference spki).1.1 !! "gpu_tee" = Some NotApplicable.
Proof.
  rewrite tinfoil_audit_eq. cbn zeta. unfold tinfoil_channel_audit. repeat audit_step.
  unfold tinfoil_hardware_audit. destruct (if vt_cpu_quote_verified e then _ else _) as [a h]. cbn [fst].
  repeat audit_step. apply lookup_insert_check_eq.
Qed.
Lemma tinfoil_verified_gpu now request e digest v :
  verify_tinfoil_verified_evidence now request e digest = Ok v → v_checks v !! "gpu_tee" = Some NotApplicable.
Proof.
  unfold verify_tinfoil_verified_evidence. intros H.
  repeat (inv_ok; try match goal with x : _ * _ |- _ => destruct x end).
  apply finish_Ok in H as [-> _]. cbn [build_verdict v_checks]. rewrite tinfoil_parts_audit. apply tinfoil_gpu.
Qed.

(** C40: the fixture, dstack and Tinfoil families leave a GPU requirement
    unchecked: whatever the policy asks of the GPU, their verdicts record the
    check as not applicable, which never blocks. *)
Theorem gpu_requirement_unchecked captured_now now quotes gpu request v :
  rt_evidence_family (rq_route request) ∈ gpu_blind_families →
  verify_evidence_with_attestation_verifiers captured_now now quotes gpu request = Ok v →
  v_checks v !! "gpu_tee" = Some NotApplicable
  ∧ check_blocks (rq_policy request) ("gpu_tee", NotApplicable) = false.
Proof.
  unfold verify_evidence_with_attestation_verifiers. cbn zeta. intros Hf H. split; [|reflexivity].
  revert H. unfold gpu_blind_families in Hf.
  repeat (apply elem_of_cons in Hf as [Hf|Hf]); [rewrite Hf..|by apply elem_of_nil in Hf].
  - intros H. change (verify_fixture_evidence now request = Ok v) in H. unfold verify_fixture_evidence in H.
    repeat (inv_ok; try match goal with x : _ * _ |- _ => destruct x end).
    apply finish_Ok in H as [-> _]. cbn [build_verdict v_checks]. rewrite fixture_parts_audit. apply fixture_gpu.
  - intros H. change (verify_dstack_evidence now request = Ok v) in H. unfold verify_dstack_evidence in H.
    repeat (inv_ok; try match goal with x : _ * _ |- _ => destruct x end).
    apply finish_Ok in H as [-> _]. cbn [build_verdict v_checks]. rewrite dstack_parts_audit. apply dstack_gpu.
  - intros H. change (verify_tinfoil_tls_evidence_with_quote_verifier quotes now request = Ok v) in H. revert H.
    unfold verify_tinfoil_tls_evidence_with_quote_verifier, verify_tinfoil_live_capture_with_quote_verifier.
    case_bool_decide; cbn zeta; intros H'; inv_ok; by eapply tinfoil_verified_gpu.
Qed.
End Dispatch.

(** ** Concrete inputs: a live Tinfoil capture under the policy for
    confidential GPU inference. *)

#[local] Existing Instances sample_x509 sample_tinfoil_readers.

Definition gpu_policy : VerificationPolicy :=
  match require_confidential_gpu_inference TeeTerminatedTls with Ok p => p | Err _ => require_hardware end.

Definition dispatch_family := "tinfoil_hw_verified_tls".
Definition dispatch_capture : TinfoilLiveCaptureEvidence := {|
  tl_schema := TINFOIL_LIVE_SCHEMA; tl_provider := "near"; tl_route_id := "r";
  tl_evidence_family := dispatch_family; tl_requested_model := "m";
  tl_policy_digest := ok_value (policy_digest gpu_policy);
  tl_nonce := None; tl_evidence_endpoint := "https://evidence";
  tl_live_tls_spki_sha256 := sha256_hex "cert"; tl_live_tls_leaf_certificate_der_base64 := "cert";
  tl_raw_attestation_body_base64 := "body" |}.
#[local] Instance dispatch_readers : EvidenceReaders := {|
  value_from_slice raw :=
    if raw =?= "live" then Some (VObject [("schema", VString TINFOIL_LIVE_SCHEMA)]) else None;
  fixture_from_slice _ := None; tinfoil_tls_from_slice _ := None; chutes_e2ee_from_slice _ := None;
  chutes_live_from_slice _ := None;
  tinfoil_live_from_slice raw := if raw =?= "live" then Some dispatch_capture else None;
  near_live_from_slice _ := None; dstack_from_slice _ := None; base64_decode s := Some s |}.
#[local] Instance no_yaml : YamlReader := {| yaml_from_str _ := None |}.
#[local] Instance no_near : NearReader := {| near_report_from_slice _ := None |}.
#[local] Instance no_ppq : PpqReaders := {|
  ppq_from_slice _ := None; bundle_from_slice _ := None; certificate_extensions _ := None;
  subject_alt_name_from_der _ := None; base64_encode s := s |}.
#[local] Instance no_redpill : RedpillReaders := {|
  redpill_from_slice _ := None; values_from_str _ := None; jcs_to_vec _ := None; sha384 := checksum |}.

Definition dispatch_request (policy : VerificationPolicy) : VerificationRequest :=
  sample_request policy (sample_attested_route dispatch_family KindTeeTerminatedTls HwVerifiedTls)
    (sample_reference dispatch_family KindTeeTerminatedTls HwVerifiedTls sample_timestamp 1772359200000)
    None "live".
#[local] Notation "'dispatch_run'" :=
  (verify_evidence_with_attestation_verifiers 0 0 sample_quote_verifier FailClosedGpuAttestationVerifier
     (dispatch_request gpu_policy)).

Lemma dispatched_verdict_sound_witness :
  ∃ v, dispatch_run = Ok v ∧ validate_summary_consistency v = Ok tt.
Proof.
  destruct (is_ok_inv dispatch_run) as [v E]; [vm_compute; reflexivity|].
  exists v. split; [exact E|].
  destruct (dispatched_verdict_sound 0 0 sample_quote_verifier FailClosedGpuAttestationVerifier
    (dispatch_request gpu_policy) v E) as [Hv _]. exact Hv.
Defined.

(** The quote back end refuses the capture. *)
Lemma default_back_ends_fail_closed_witness :
  is_ok (verify_evidence_with_gpu_attestation_verifier 0 0 FailClosedGpuAttestationVerifier
           (dispatch_request gpu_policy)) = false.
Proof.
  destruct (default_back_ends_fail_closed 0 0 FailClosedGpuAttestationVerifier (dispatch_request gpu_policy))
    as (_ & H & _).
  apply H; [reflexivity|vm_compute; reflexivity].
Defined.

(** Allowed under a policy that requires an NVIDIA GPU, with no GPU evidence
    and a GPU back end that refuses everything. *)
Lemma gpu_requirement_unchecked_witness :
  ∃ v, dispatch_run = Ok v ∧ v_request_allowed v = true ∧ v_checks v !! "gpu_tee" = Some NotApplicable
    ∧ hw_gpu (hardware gpu_policy) = GpuOneOf [NvidiaCc].
Proof.
  destruct (allowed_run_inv dispatch_run) as (v & E & Ha); [vm_compute; reflexivity|].
  exists v. split; [exact E|]. split; [exact Ha|]. split; [|vm_compute; reflexivity].
 
  assert (rt_evidence_family (rq_route (dispatch_request gpu_policy)) ∈ gpu_blind_families) as Hf
    by (right; right; left).
  destruct (gpu_requirement_unchecked 0 0 sample_quote_verifier FailClosedGpuAttestationVerifier
    (dispatch_request gpu_policy) v Hf E) as [Hg _]. exact Hg.
Defined.
