(* ===== verification/Registry.v ===== *)
(** * Provider registry

    providers/registry.rs: the signed registry of models and routes, the
    alias matrix, the invariants checked before a registry is used, the rule an
    update must pass, the pins on it, and the lookup of the routes for a
    requested model. *)

From Stdlib Require Import Ascii String ZArith Lia.
From stdpp Require Import base gmap strings list numbers relations.
From S2P Require Import Prelude RustStr Errors Collections Timestamps Versions Canonical JsonInjective Policy Verdict Evidence Signature ReferenceValues.

Open Scope string_scope.

(** ** Data *)

Inductive RouteLifecycle := Active | NewUnverified | VerificationOnly | Deprecated | Removed | Blocked.
#[export] Instance RouteLifecycle_eq_dec : EqDecision RouteLifecycle.
Proof. solve_decision. Defined.

Definition selectable_for_verification (status : RouteLifecycle) : bool :=
  match status with Active | VerificationOnly => true | _ => false end.
Definition selectable_for_chat (status : RouteLifecycle) : bool :=
  match status with Active => true | _ => false end.
Definition security_sensitive (status : RouteLifecycle) : bool := selectable_for_verification status.

Inductive EncryptionRequirement := EncryptionRequired | EncryptionNotRequired.
#[export] Instance EncryptionRequirement_eq_dec : EqDecision EncryptionRequirement.
Proof. solve_decision. Defined.

Inductive StreamingSupport := Supported | SupportedIfEncryptionSupportsStreaming | Unsupported.
#[export] Instance StreamingSupport_eq_dec : EqDecision StreamingSupport.
Proof. solve_decision. Defined.
Definition allows_streaming (s : StreamingSupport) : bool :=
  match s with Supported | SupportedIfEncryptionSupportsStreaming => true | Unsupported => false end.

Record RouteDefinition := {
  rd_route_id : string;
  rd_route_status : RouteLifecycle;
  rd_provider : string;
  rd_provider_model : string;
  rd_evidence_family : string;
  rd_api_base_url : string;
  rd_evidence_endpoint : string;
  rd_adapter_version : string;
  rd_freshness_class : FreshnessClass;
  rd_channel_binding_kind : ChannelBindingKind;
  rd_trust_tier : TrustTier;
  rd_request_confidentiality_requirement : BoundDataRequirement;
  rd_response_confidentiality_requirement : BoundDataRequirement;
  rd_response_integrity_requirement : ResponseIntegrityRequirement;
  rd_accepted_gpu_tees : list GpuTeeKind;
  rd_request_encryption : EncryptionRequirement;
  rd_response_decryption : EncryptionRequirement;
  rd_streaming : StreamingSupport;
  rd_alias_confidence : AliasConfidence;
}.
#[export] Instance RouteDefinition_eq_dec : EqDecision RouteDefinition.
Proof. solve_decision. Defined.

Record RegistryModel := {
  rm_canonical_model : string;
  rm_display_name : string;
  rm_family : string;
  rm_aliases : list string;
  rm_routes : list RouteDefinition;
}.

Record SourceSyncRun := { ss_completed_at : string; ss_status : string; ss_source : string }.

Record ProviderRegistry := {
  rg_schema : string;
  rg_version : string;
  rg_generated_at : string;
  rg_source_sync_run : SourceSyncRun;
  rg_models : gmap string RegistryModel;
}.

Record ProviderRegistryEnvelope := {
  rge_schema : string; rge_payload : ProviderRegistry; rge_signature : ArtifactSignature;
}.

Record ProviderRegistryPin := {
  rp_digest : option string;
  rp_version : option string;
  rp_minimum_version : option string;
  rp_accepted_signing_identities : list SignatureMetadata;
  rp_max_age_millis : option Z;
}.

Definition REGISTRY_ENVELOPE_SCHEMA : string := "confidential-inference.provider-registry-envelope.v1".
Definition REGISTRY_SCHEMA : string := "confidential-inference.provider-registry.v1".

(** ** Serialisation *)

Definition lifecycle_value (status : RouteLifecycle) : Value :=
  VString match status with
  | Active => "active" | NewUnverified => "new_unverified" | VerificationOnly => "verification_only"
  | Deprecated => "deprecated" | Removed => "removed" | Blocked => "blocked"
  end.
Definition encryption_value (r : EncryptionRequirement) : Value :=
  VString match r with EncryptionRequired => "required" | EncryptionNotRequired => "not_required" end.
Definition streaming_value (s : StreamingSupport) : Value :=
  VString match s with
  | Supported => "supported"
  | SupportedIfEncryptionSupportsStreaming => "supported_if_encryption_supports_streaming"
  | Unsupported => "unsupported"
  end.
Definition freshness_class_value (c : FreshnessClass) : Value :=
  VString match c with
  | FreshPerRequest => "per_request" | FreshPerSession => "per_session"
  | CachedBinding => "cached_binding"
  end.
Definition alias_confidence_value (c : AliasConfidence) : Value :=
  VString match c with
  | Curated => "curated" | ProviderDeclared => "provider_declared" | Algorithmic => "algorithmic"
  | ManualOverride => "manual_override"
  end.

Definition route_definition_value (r : RouteDefinition) : Value :=
  VObject
    ([("route_id", VString (rd_route_id r)); ("route_status", lifecycle_value (rd_route_status r));
      ("provider", VString (rd_provider r)); ("provider_model", VString (rd_provider_model r));
      ("evidence_family", VString (rd_evidence_family r));
      ("api_base_url", VString (rd_api_base_url r));
      ("evidence_endpoint", VString (rd_evidence_endpoint r));
      ("adapter_version", VString (rd_adapter_version r));
      ("freshness_class", freshness_class_value (rd_freshness_class r));
      ("channel_binding_kind", channel_kind_value (rd_channel_binding_kind r));
      ("trust_tier", trust_tier_value (rd_trust_tier r));
      ("request_confidentiality_requirement", bound_data_value (rd_request_confidentiality_requirement r));
      ("response_confidentiality_requirement", bound_data_value (rd_response_confidentiality_requirement r));
      ("response_integrity_requirement", integrity_requirement_value (rd_response_integrity_requirement r))]
     ++ unless_empty "accepted_gpu_tees" gpu_kind_value (rd_accepted_gpu_tees r)
     ++ [("request_encryption", encryption_value (rd_request_encryption r));
         ("response_decryption", encryption_value (rd_response_decryption r));
         ("streaming", streaming_value (rd_streaming r));
         ("alias_confidence", alias_confidence_value (rd_alias_confidence r))])%list.
Definition model_value (m : RegistryModel) : Value :=
  VObject [("canonical_model", VString (rm_canonical_model m));
           ("display_name", VString (rm_display_name m)); ("family", VString (rm_family m));
           ("aliases", strings_value (rm_aliases m));
           ("routes", VArray (map route_definition_value (rm_routes m)))].
Definition sync_run_value (s : SourceSyncRun) : Value :=
  VObject [("completed_at", VString (ss_completed_at s)); ("status", VString (ss_status s));
           ("source", VString (ss_source s))].
Definition registry_value (r : ProviderRegistry) : Value :=
  VObject [("schema", VString (rg_schema r)); ("version", VString (rg_version r));
           ("generated_at", VString (rg_generated_at r));
           ("source_sync_run", sync_run_value (rg_source_sync_run r));
           ("models", VObject (map (λ '(k, m), (k, model_value m)) (btree_iter (rg_models r))))].

Definition parse_registry_timestamp (value : string) : Result Z :=
  map_err (λ _, InvalidRegistryUpdate "registry {field} is invalid: {error}")
    (parse_utc_timestamp_millis value).
Definition validate_timestamp_metadata (r : ProviderRegistry) : Result unit :=
  _ ← parse_registry_timestamp (rg_generated_at r);
  _ ← parse_registry_timestamp (ss_completed_at (rg_source_sync_run r));
  Ok tt.
Definition validate_provider_registry_schema_major (value : string) : Result unit :=
  check_schema_major InvalidRegistryUpdate "confidential-inference.provider-registry" value.

Definition registry_digest `{!Primitives} (r : ProviderRegistry) : Result string :=
  _ ← validate_provider_registry_schema_major (rg_schema r);
  _ ← validate_timestamp_metadata r;
  canonical_digest (registry_value r).

(** ** URL credentials *)

(** The authority of a URL: between the first [://] and the next [/], [?] or
    [#]. *)
Definition url_authority_bounds (url : string) : option (nat * nat) :=
  match position "://" url with
  | None => None
  | Some scheme_end =>
      let authority_start := (scheme_end + 3)%nat in
      let rest := slice url authority_start (String.length url) in
      let authority_end :=
        fold_left (λ authority_end separator,
          match position separator rest with
          | Some index => Nat.min authority_end index
          | None => authority_end
          end) ["/"; "?"; "#"] (String.length rest) in
      Some (authority_start, (authority_start + authority_end)%nat)
  end.

Definition url_authority_has_credentials (url : string) : bool :=
  match url_authority_bounds url with
  | None => false
  | Some (authority_start, authority_end) =>
      is_some (position "@" (slice url authority_start authority_end))
  end.

Definition reject_route_url_credentials (url : string) : Result unit :=
  bail (InvalidProviderRegistry "route {} {field} must not include URL credentials")
    when url_authority_has_credentials url; Ok tt.

(** ** Security invariants *)

(** [alias_to_model] and [active_provider_models], the maps the loop fills. *)
Record Seen := {
  seen_aliases : gmap string string;
  seen_provider_models : gmap (string * string) string;
}.

(** [if let Some(existing) = map.insert(key, value) { if existing != value { return Err } }]. *)
Definition insert_unique {K} `{Countable K} (e : AttestationError) (m : gmap K string) (key : K) (value : string)
    : Result (gmap K string) :=
  match m !! key with
  | Some existing => bail e when negb (existing =?= value); Ok (<[key := value]> m)
  | None => Ok (<[key := value]> m)
  end.

Definition validate_alias (canonical : string) (st : gset string * gmap string string) (alias : string)
    : Result (gset string * gmap string string) :=
  let '(model_aliases, alias_to_model) := st in
  bail (InvalidProviderRegistry "model {model_id} contains an empty alias") when is_empty (trim alias);
  bail (InvalidProviderRegistry "model {model_id} repeats alias {alias}")
    when bool_decide (alias ∈ model_aliases);
  alias_to_model ← insert_unique
    (InvalidProviderRegistry "alias {alias} maps to both {existing_model} and {}") alias_to_model alias canonical;
  Ok ({[alias]} ∪ model_aliases, alias_to_model).

Definition validate_route (canonical : string) (active_provider_models : gmap (string * string) string)
    (route : RouteDefinition) : Result (gmap (string * string) string) :=
  bail (InvalidProviderRegistry "model {model_id} contains a route with an empty route_id")
    when is_empty (trim (rd_route_id route));
  _ ← reject_route_url_credentials (rd_api_base_url route);
  _ ← reject_route_url_credentials (rd_evidence_endpoint route);
  bail (InvalidProviderRegistry "route {} has an empty provider or provider_model")
    when is_empty (trim (rd_provider route)) || is_empty (trim (rd_provider_model route));
  if security_sensitive (rd_route_status route) then
    bail (InvalidProviderRegistry "active route {} uses algorithmic alias confidence")
      when (rd_alias_confidence route =?= Algorithmic);
    insert_unique (InvalidProviderRegistry "active provider model {}/{} maps to both {existing_model} and {}")
      active_provider_models (rd_provider route, rd_provider_model route) canonical
  else Ok active_provider_models.

Definition validate_model (seen : Seen) (entry : string * RegistryModel) : Result Seen :=
  let '(model_id, model) := entry in
  let canonical := rm_canonical_model model in
  bail (InvalidProviderRegistry "model key {model_id} does not match canonical model {}")
    when negb (model_id =?= canonical);
  aliases ← try_fold (validate_alias canonical) (rm_aliases model) (∅, seen_aliases seen);
  providers ← try_fold (validate_route canonical) (rm_routes model) (seen_provider_models seen);
  Ok {| seen_aliases := aliases.2; seen_provider_models := providers |}.

Definition nothing_seen : Seen := {| seen_aliases := ∅; seen_provider_models := ∅ |}.

Definition validate_security_invariants (r : ProviderRegistry) : Result unit :=
  bail (InvalidRegistryUpdate "unsupported registry schema {}") when negb (rg_schema r =?= REGISTRY_SCHEMA);
  _ ← validate_timestamp_metadata r;
  bail (InvalidRegistryUpdate "registry sync status is {}")
    when negb (ss_status (rg_source_sync_run r) =?= "success");
  _ ← try_fold validate_model (btree_iter (rg_models r)) nothing_seen;
  Ok tt.

(** ** Updates *)

Definition trust_tier_rank (value : TrustTier) : Z :=
  match value with TierNone => 0 | TeeOnly => 1 | HwVerifiedTls | AppE2ee => 2 end.
Definition bound_data_rank (value : BoundDataRequirement) : Z :=
  match value with DataNotRequired => 0 | BoundToAttestedWorkload => 1 end.
Definition response_integrity_rank (value : ResponseIntegrityRequirement) : Z :=
  match value with
  | IntegrityNotRequired => 0 | AnyBound => 1 | IntegrityChannelBound | IntegrityReceiptBound => 2
  end.
Definition alias_confidence_rank (value : AliasConfidence) : Z :=
  match value with Algorithmic => 0 | ProviderDeclared => 1 | ManualOverride => 2 | Curated => 3 end.
Definition route_lifecycle_security_rank (value : RouteLifecycle) : Z :=
  match value with Active => 2 | VerificationOnly => 1 | NewUnverified | Deprecated | Removed | Blocked => 0 end.

Definition weaker (msg : string) : AttestationError := WeakeningRegistryUpdate msg.

Definition registry_fail_if_changed {A} `{!EqDecision A} (current candidate : A) : Result unit :=
  if current =?= candidate then Ok tt
  else Err (weaker "route {route_id} changed {field} from {current:?} to {candidate:?}").
Definition fail_if_removed_values {A} `{!EqDecision A} (current candidate : list A) : Result unit :=
  for_each (λ value,
    bail (weaker "route {route_id} removed {field} value {value:?}")
      when negb (existsb (λ c, c =?= value) candidate); Ok tt) current.

Definition route_verify_not_weakened_by (r c : RouteDefinition) : Result unit :=
  bail (weaker "route {route_id} changed status from {:?} to {:?}")
    when (route_lifecycle_security_rank (rd_route_status c)
          <? route_lifecycle_security_rank (rd_route_status r))%Z;
  _ ← registry_fail_if_changed (rd_provider r) (rd_provider c);
  _ ← registry_fail_if_changed (rd_provider_model r) (rd_provider_model c);
  _ ← registry_fail_if_changed (rd_evidence_family r) (rd_evidence_family c);
  _ ← registry_fail_if_changed (rd_api_base_url r) (rd_api_base_url c);
  _ ← registry_fail_if_changed (rd_evidence_endpoint r) (rd_evidence_endpoint c);
  _ ← registry_fail_if_changed (rd_adapter_version r) (rd_adapter_version c);
  bail (weaker "route {route_id} downgraded trust tier from {:?} to {:?}")
    when (trust_tier_rank (rd_trust_tier c) <? trust_tier_rank (rd_trust_tier r))%Z;
  bail (weaker "route {route_id} changed channel binding from {:?} to {:?}")
    when negb (rd_channel_binding_kind r =?= rd_channel_binding_kind c);
  bail (weaker "route {route_id} weakened request confidentiality requirement")
    when (bound_data_rank (rd_request_confidentiality_requirement c)
          <? bound_data_rank (rd_request_confidentiality_requirement r))%Z;
  bail (weaker "route {route_id} weakened response confidentiality requirement")
    when (bound_data_rank (rd_response_confidentiality_requirement c)
          <? bound_data_rank (rd_response_confidentiality_requirement r))%Z;
  bail (weaker "route {route_id} weakened response integrity requirement")
    when (response_integrity_rank (rd_response_integrity_requirement c)
          <? response_integrity_rank (rd_response_integrity_requirement r))%Z;
  bail (weaker "route {route_id} changed concrete response integrity requirement from {:?} to {:?}")
    when negb (rd_response_integrity_requirement r =?= rd_response_integrity_requirement c)
         && (2 <=? response_integrity_rank (rd_response_integrity_requirement r))%Z;
  _ ← fail_if_removed_values (rd_accepted_gpu_tees r) (rd_accepted_gpu_tees c);
  bail (weaker "route {route_id} removed request encryption")
    when (rd_request_encryption r =?= EncryptionRequired)
         && negb (rd_request_encryption c =?= EncryptionRequired);
  bail (weaker "route {route_id} removed response decryption")
    when (rd_response_decryption r =?= EncryptionRequired)
         && negb (rd_response_decryption c =?= EncryptionRequired);
  bail (weaker "route {route_id} weakened alias confidence from {:?} to {:?}")
    when (alias_confidence_rank (rd_alias_confidence c) <? alias_confidence_rank (rd_alias_confidence r))%Z;
  bail (weaker "route {route_id} enabled streaming without review")
    when (rd_streaming r =?= Unsupported) && negb (rd_streaming c =?= Unsupported);
  Ok tt.

Definition verify_model_update (candidate : ProviderRegistry) (entry : string * RegistryModel) : Result unit :=
  let '(model_id, current_model) := entry in
  candidate_model ← ok_or (rg_models candidate !! model_id) (weaker "model {model_id} was removed");
  bail (weaker "model {model_id} canonical identity changed from {} to {}")
    when negb (rm_canonical_model candidate_model =?= rm_canonical_model current_model);
  _ ← for_each (λ alias,
        bail (weaker "model {model_id} removed alias {alias}")
          when negb (existsb (λ candidate, candidate =?= alias) (rm_aliases candidate_model)); Ok tt)
        (rm_aliases current_model);
  for_each (λ current_route,
    candidate_route ← ok_or (List.find (λ route, rd_route_id route =?= rd_route_id current_route)
                               (rm_routes candidate_model))
                        (weaker "security-sensitive route {} was removed");
    route_verify_not_weakened_by current_route candidate_route)
    (List.filter (λ route, security_sensitive (rd_route_status route)) (rm_routes current_model)).

Definition registry_verify_update_to (current candidate : ProviderRegistry) : Result unit :=
  _ ← validate_security_invariants current;
  _ ← validate_security_invariants candidate;
  bail (InvalidRegistryUpdate "unsupported registry schema {}")
    when negb (rg_schema candidate =?= REGISTRY_SCHEMA);
  bail (InvalidRegistryUpdate "registry sync status is {}")
    when negb (ss_status (rg_source_sync_run candidate) =?= "success");
  bail (InvalidRegistryUpdate "candidate registry version {} is older than current {}")
    when is_less (compare_artifact_versions (rg_version candidate) (rg_version current));
  for_each (verify_model_update candidate) (btree_iter (rg_models current)).

(** ** Envelopes *)

Section RegistryEnvelope.
Context {prim : Primitives} {crypto : SignatureCrypto}.

Definition registry_verify_signature_with_keys (envelope : ProviderRegistryEnvelope)
    (keys : list TrustedSigningKey) : Result unit :=
  bail (InvalidArtifactSignature "provider registry envelope schema mismatch")
    when negb (rge_schema envelope =?= REGISTRY_ENVELOPE_SCHEMA);
  _ ← validate_security_invariants (rge_payload envelope);
  verify_artifact_signature_with_keys (rge_signature envelope) (registry_value (rge_payload envelope)) keys.

Definition registry_into_verified_payload_with_keys (envelope : ProviderRegistryEnvelope)
    (keys : list TrustedSigningKey) : Result ProviderRegistry :=
  _ ← registry_verify_signature_with_keys envelope keys;
  _ ← validate_security_invariants (rge_payload envelope);
  Ok (rge_payload envelope).

Definition registry_into_verified_update_from_with_keys (envelope : ProviderRegistryEnvelope)
    (current : ProviderRegistry) (keys : list TrustedSigningKey) : Result ProviderRegistry :=
  _ ← registry_verify_signature_with_keys envelope keys;
  _ ← validate_security_invariants (rge_payload envelope);
  _ ← registry_verify_update_to current (rge_payload envelope);
  Ok (rge_payload envelope).
End RegistryEnvelope.

(** ** Pins *)

Definition registry_verify_with_digest_at (pin : ProviderRegistryPin) (r : ProviderRegistry)
    (digest : string) (now_epoch_millis : Z) : Result unit :=
  _ ← match rp_digest pin with
      | Some expected =>
          bail (InvalidRegistryUpdate "registry digest pin mismatch: expected {expected_digest}, got {digest}")
            when negb (digest =?= expected); Ok tt
      | None => Ok tt
      end;
  _ ← match rp_version pin with
      | Some expected =>
          bail (InvalidRegistryUpdate "registry version pin mismatch: expected {expected_version}, got {}")
            when negb (rg_version r =?= expected); Ok tt
      | None => Ok tt
      end;
  _ ← match rp_minimum_version pin with
      | Some minimum =>
          bail (InvalidRegistryUpdate "registry version {} is older than pinned minimum {minimum_version}")
            when is_less (compare_artifact_versions (rg_version r) minimum); Ok tt
      | None => Ok tt
      end;
  match rp_max_age_millis pin with
  | Some max_age_millis =>
      completed_at ← map_err (λ _, InvalidRegistryUpdate "registry source_sync_run.completed_at is invalid: {error}")
                       (parse_utc_timestamp_millis (ss_completed_at (rg_source_sync_run r)));
      bail (InvalidRegistryUpdate "registry source_sync_run.completed_at {} is in the future")
        when (now_epoch_millis <? completed_at)%Z;
      let age_millis := saturating_sub now_epoch_millis completed_at in
      bail (InvalidRegistryUpdate "registry age {age_millis}ms exceeds pinned maximum {max_age_millis}ms")
        when (max_age_millis <? age_millis)%Z;
      Ok tt
  | None => Ok tt
  end.

(** [verify] and [verify_with_digest] read the clock; [now] is its value. *)
Definition registry_pin_verify `{!Primitives} (pin : ProviderRegistryPin) (r : ProviderRegistry) (now : Z)
    : Result unit :=
  digest ← registry_digest r;
  registry_verify_with_digest_at pin r digest now.

Definition registry_identity_accepted (pin : ProviderRegistryPin) (signature : ArtifactSignature) : bool :=
  existsb (λ identity, (sm_signer identity =?= as_signer signature)
                       && (sm_key_id identity =?= as_key_id signature)
                       && (sm_alg identity =?= as_alg signature))
    (rp_accepted_signing_identities pin).

Definition registry_verify_envelope_with_digest_at (pin : ProviderRegistryPin)
    (envelope : ProviderRegistryEnvelope) (digest : string) (now_epoch_millis : Z) : Result unit :=
  bail (InvalidRegistryUpdate "registry signing identity pin mismatch: got {}/{}/{}")
    when match rp_accepted_signing_identities pin with
         | [] => false
         | _ => negb (registry_identity_accepted pin (rge_signature envelope))
         end;
  registry_verify_with_digest_at pin (rge_payload envelope) digest now_epoch_millis.

(** ** Lookup *)

Definition alias_allowed_by_default (value : AliasConfidence) : bool :=
  match value with Curated | ManualOverride => true | _ => false end.

Definition matches_request_model (route : RouteDefinition) (model : RegistryModel) (requested_model : string)
    : bool :=
  (rd_provider_model route =?= requested_model)
  || (rm_canonical_model model =?= requested_model)
  || (alias_allowed_by_default (rd_alias_confidence route)
      && existsb (λ alias, alias =?= requested_model) (rm_aliases model)).

Definition route_selected (provider : option string) (requested_model : string) (model : RegistryModel)
    (route : RouteDefinition) : bool :=
  selectable_for_verification (rd_route_status route)
  && match provider with None => true | Some provider => provider =?= rd_provider route end
  && matches_request_model route model requested_model.

Definition matching_routes (r : ProviderRegistry) (provider : option string) (requested_model : string)
    : list (RegistryModel * RouteDefinition) :=
  flat_map (λ '(_, model),
    map (λ route, (model, route)) (List.filter (route_selected provider requested_model model) (rm_routes model)))
    (btree_iter (rg_models r)).

Definition find_route (r : ProviderRegistry) (provider : option string) (requested_model : string)
    : option (RegistryModel * RouteDefinition) :=
  head (matching_routes r provider requested_model).

Definition to_attested_route (route : RouteDefinition) (requested_model canonical_model : string)
    : AttestedRoute := {|
  rt_provider := rd_provider route;
  rt_route_id := rd_route_id route;
  rt_evidence_family := rd_evidence_family route;
  rt_requested_model := requested_model;
  rt_provider_model := rd_provider_model route;
  rt_canonical_model := canonical_model;
  rt_api_endpoint := rd_api_base_url route;
  rt_evidence_endpoint := rd_evidence_endpoint route;
  rt_adapter_version := rd_adapter_version route;
  rt_freshness_class := rd_freshness_class route;
  rt_channel_binding_kind := rd_channel_binding_kind route;
  rt_trust_tier := rd_trust_tier route;
  rt_alias_confidence := rd_alias_confidence route;
  rt_request_confidentiality_requirement := rd_request_confidentiality_requirement route;
  rt_response_confidentiality_requirement := rd_response_confidentiality_requirement route;
  rt_response_integrity_requirement := rd_response_integrity_requirement route;
  rt_streaming_allowed := allows_streaming (rd_streaming route) |}.

(** ** Specification of a valid registry *)

Definition nonblank (s : string) : Prop := is_empty (trim s) = false.

Record route_valid (route : RouteDefinition) : Prop := {
  rv_route_id : nonblank (rd_route_id route);
  rv_api_url : url_authority_has_credentials (rd_api_base_url route) = false;
  rv_evidence_url : url_authority_has_credentials (rd_evidence_endpoint route) = false;
  rv_provider : nonblank (rd_provider route);
  rv_provider_model : nonblank (rd_provider_model route);
  rv_curated : security_sensitive (rd_route_status route) = true → rd_alias_confidence route ≠ Algorithmic;
}.

Record model_valid (entry : string * RegistryModel) : Prop := {
  mv_key : entry.1 = rm_canonical_model entry.2;
  mv_aliases : Forall nonblank (rm_aliases entry.2);
  mv_aliases_distinct : NoDup (rm_aliases entry.2);
  mv_routes : Forall route_valid (rm_routes entry.2);
}.

(** The provider models behind which a model can be reached. *)
Definition route_keys (routes : list RouteDefinition) : list (string * string) :=
  map (λ route, (rd_provider route, rd_provider_model route))
    (List.filter (λ route, security_sensitive (rd_route_status route)) routes).
Definition active_keys (m : RegistryModel) : list (string * string) := route_keys (rm_routes m).

(** A name stands for one model. *)
Definition agree {K} (names : RegistryModel → list K) (L : list (string * RegistryModel)) : Prop :=
  ∀ x y k, x ∈ L → y ∈ L → k ∈ names x.2 → k ∈ names y.2 → rm_canonical_model x.2 = rm_canonical_model y.2.

Record registry_valid (r : ProviderRegistry) : Prop := {
  gv_schema : rg_schema r = REGISTRY_SCHEMA;
  gv_generated : is_ok (parse_utc_timestamp_millis (rg_generated_at r)) = true;
  gv_completed : is_ok (parse_utc_timestamp_millis (ss_completed_at (rg_source_sync_run r))) = true;
  gv_status : ss_status (rg_source_sync_run r) = "success";
  gv_models : ∀ id m, rg_models r !! id = Some m → model_valid (id, m);
  gv_aliases : ∀ id m id' m' alias, rg_models r !! id = Some m → rg_models r !! id' = Some m' →
    alias ∈ rm_aliases m → alias ∈ rm_aliases m' → id = id';
  gv_provider_models : ∀ id m id' m' key, rg_models r !! id = Some m → rg_models r !! id' = Some m' →
    key ∈ active_keys m → key ∈ active_keys m' → id = id';
}.

(** ** The maps of the validation loop *)

Section NameMaps.
Context {K : Type} `{Countable K}.
Implicit Types (M : gmap K string) (l : list K).

Definition add_all (c : string) l M : gmap K string := fold_left (λ M k, <[k := c]> M) l M.

Lemma lookup_add_all c l M k : add_all c l M !! k = if decide (k ∈ l) then Some c else M !! k.
Proof.
  unfold add_all. revert M. induction l as [|a l IH]; intros M; cbn [fold_left].
  - by rewrite decide_False by apply not_elem_of_nil.
  - rewrite IH, lookup_insert. repeat case_decide; set_solver.
Qed.

Lemma insert_unique_Ok e M k c M' :
  insert_unique e M k c = Ok M' ↔ (∀ w, M !! k = Some w → w = c) ∧ M' = <[k := c]> M.
Proof.
  unfold insert_unique. destruct (M !! k) as [w|].
  - rewrite guard_Ok, negb_false_iff, bool_decide_eq_true. naive_solver.
  - naive_solver.
Qed.

Context (names : RegistryModel → list K).
Definition record_names (L : list (string * RegistryModel)) : gmap K string :=
  fold_left (λ M x, add_all (rm_canonical_model x.2) (names x.2) M) L ∅.

Lemma record_names_snoc L x :
  record_names (L ++ [x]) = add_all (rm_canonical_model x.2) (names x.2) (record_names L).
Proof. unfold record_names. by rewrite fold_left_app. Qed.

Lemma record_names_Some L k w :
  record_names L !! k = Some w → ∃ x, x ∈ L ∧ k ∈ names x.2 ∧ w = rm_canonical_model x.2.
Proof.
  induction L as [|x L IH] using rev_ind; [unfold record_names; cbn; by rewrite lookup_empty|].
  rewrite record_names_snoc, lookup_add_all. case_decide; [|set_solver].
  intros [= <-]. exists x. set_solver.
Qed.

Lemma record_names_recorded L x k : x ∈ L → k ∈ names x.2 → ∃ w, record_names L !! k = Some w.
Proof.
  induction L as [|y L IH] using rev_ind; [set_solver|].
  rewrite record_names_snoc, lookup_add_all. case_decide; [eauto|].
  intros [?| ->%list_elem_of_singleton]%elem_of_app ?; [by apply IH|done].
Qed.

Lemma agree_snoc L x :
  agree names (L ++ [x]) ↔
    agree names L ∧ ∀ k w, k ∈ names x.2 → record_names L !! k = Some w → w = rm_canonical_model x.2.
Proof.
  split.
  - intros Ha. split; [intros a b k ???; apply (Ha a b k); set_solver|].
    intros k w Hk (y & Hy & Hky & ->)%record_names_Some. apply (Ha y x k); set_solver.
  - intros [Ha Hx].
    assert (∀ y k, y ∈ L → k ∈ names y.2 → k ∈ names x.2 → rm_canonical_model y.2 = rm_canonical_model x.2) as Hyx.
    { intros y k Hy Hky Hkx. destruct (record_names_recorded L y k Hy Hky) as [w Hw].
      rewrite <-(Hx k w Hkx Hw). apply record_names_Some in Hw as (z & Hz & Hkz & ->). by apply (Ha y z k). }
    intros a b k [Ha'| ->%list_elem_of_singleton]%elem_of_app [Hb| ->%list_elem_of_singleton]%elem_of_app Hka Hkb.
    + by apply (Ha a b k).
    + by apply (Hyx a k).
    + symmetry. by apply (Hyx b k).
    + done.
Qed.
End NameMaps.

Lemma reject_url_Ok url : reject_route_url_credentials url = Ok tt ↔ url_authority_has_credentials url = false.
Proof. unfold reject_route_url_credentials. rewrite guard_Ok. naive_solver. Qed.

Lemma validate_aliases_Ok c l seen M M' :
  (∃ s, try_fold (validate_alias c) l (seen, M) = Ok (s, M')) ↔
    (Forall nonblank l ∧ NoDup l ∧ ∀ a, a ∈ l → a ∉ seen)
    ∧ (∀ a w, a ∈ l → M !! a = Some w → w = c) ∧ M' = add_all c l M.
Proof.
  revert seen M. induction l as [|a l IH]; intros seen M; cbn [try_fold].
  - split; [intros [s [= _ <-]]; split_and!; try done; [constructor|set_solver..] |].
    intros (_ & _ & ->). by exists seen.
  - setoid_rewrite bind_Ok.
    assert ((∃ s st, validate_alias c (seen, M) a = Ok st ∧ try_fold (validate_alias c) l st = Ok (s, M')) ↔
      (nonblank a ∧ (a ∉ seen) ∧ ∀ w, M !! a = Some w → w = c)
      ∧ ∃ s, try_fold (validate_alias c) l ({[a]} ∪ seen, <[a := c]> M) = Ok (s, M')) as ->.
    { unfold validate_alias at 1. setoid_rewrite guard_Ok. setoid_rewrite guard_Ok. setoid_rewrite bind_Ok.
      setoid_rewrite insert_unique_Ok. setoid_rewrite bool_decide_eq_false. unfold nonblank. naive_solver. }
    rewrite IH, Forall_cons, NoDup_cons. cbn [add_all fold_left]. fold (add_all c l (<[a := c]> M)).
    setoid_rewrite lookup_insert_Some. set_solver.
Qed.

Lemma validate_route_Ok c P route P' :
  validate_route c P route = Ok P' ↔
    route_valid route
    ∧ (if security_sensitive (rd_route_status route)
      then (∀ w, P !! (rd_provider route, rd_provider_model route) = Some w → w = c)
           ∧ P' = <[(rd_provider route, rd_provider_model route) := c]> P
      else P' = P).
Proof.
  unfold validate_route. rewrite guard_Ok, !unit_bind_Ok, !reject_url_Ok, guard_Ok, orb_false_iff.
  destruct (security_sensitive _) eqn:Es; [rewrite guard_Ok, insert_unique_Ok, bool_decide_eq_false|].
  - split; [intros; destruct_and!; split; [by constructor|done] | intros [[] [? ->]]; naive_solver].
  - split; [intros (? & ? & ? & [? ?] & [= <-]); split; [constructor; congruence|done] | intros [[] ->]; naive_solver].
Qed.

Lemma validate_routes_Ok c routes P P' :
  try_fold (validate_route c) routes P = Ok P' ↔
    Forall route_valid routes ∧ (∀ k w, k ∈ route_keys routes → P !! k = Some w → w = c)
    ∧ P' = add_all c (route_keys routes) P.
Proof.
  revert P. induction routes as [|route routes IH]; intros P; cbn [try_fold].
  - split; [intros [= <-]; split_and!; [constructor|set_solver|done] | by intros (_ & _ & ->)].
  - rewrite bind_Ok. setoid_rewrite validate_route_Ok. setoid_rewrite IH. rewrite Forall_cons.
    unfold route_keys. cbn [List.filter]. destruct (security_sensitive _) eqn:Es; cbn [map].
    + cbn [add_all fold_left]. split.
      * intros (Q & (? & ? & ->) & ? & HQ & ->). split_and!; try done.
        intros k w Hk Hw. destruct (decide (k = (rd_provider route, rd_provider_model route))) as [->|]; [naive_solver|].
        apply (HQ k w); [set_solver|]. by rewrite lookup_insert_ne.
      * intros ((? & ?) & HP & ->). eexists. split; [split; [done|split; [set_solver|done]]|].
        split; [done|]. split; [|done]. intros k w Hk. rewrite lookup_insert_Some. set_solver.
    + naive_solver.
Qed.

Lemma validate_model_Ok seen x seen' :
  validate_model seen x = Ok seen' ↔
    model_valid x
    ∧ (∀ a w, a ∈ rm_aliases x.2 → seen_aliases seen !! a = Some w → w = rm_canonical_model x.2)
    ∧ (∀ k w, k ∈ active_keys x.2 → seen_provider_models seen !! k = Some w → w = rm_canonical_model x.2)
    ∧ seen' = {| seen_aliases := add_all (rm_canonical_model x.2) (rm_aliases x.2) (seen_aliases seen);
                 seen_provider_models :=
                   add_all (rm_canonical_model x.2) (active_keys x.2) (seen_provider_models seen) |}.
Proof.
  destruct x as [id m]. unfold validate_model, active_keys. cbn [fst snd].
  rewrite guard_Ok, negb_false_iff, bool_decide_eq_true, bind_Ok. setoid_rewrite bind_Ok.
  setoid_rewrite validate_routes_Ok. split.
  - intros (Hid & [s M] & HM & P & (Hr & Hp & ->) & [= <-]).
    pose proof (proj1 (validate_aliases_Ok _ _ _ _ _) (ex_intro _ _ HM)) as ((? & ? & _) & ? & ->).
    split_and!; try done.
  - intros ([Hid Ha Hd Hr] & Hsa & Hsp & ->). cbn [fst snd] in *. split; [done|].
    destruct (proj2 (validate_aliases_Ok (rm_canonical_model m) (rm_aliases m) ∅ (seen_aliases seen)
      (add_all (rm_canonical_model m) (rm_aliases m) (seen_aliases seen)))) as [s Hs].
    { split_and!; [done|done|set_solver|done|done]. }
    exists (s, add_all (rm_canonical_model m) (rm_aliases m) (seen_aliases seen)). split; [done|].
    by eexists.
Qed.

Lemma validate_models_Ok L seen :
  try_fold validate_model L nothing_seen = Ok seen ↔
    (Forall model_valid L ∧ agree rm_aliases L ∧ agree active_keys L)
    ∧ seen = {| seen_aliases := record_names rm_aliases L; seen_provider_models := record_names active_keys L |}.
Proof.
  revert seen. induction L as [|x L IH] using rev_ind; intros seen.
  - cbn. split; [intros [= <-]; split; [|done]; split; [constructor|split; intros ???; set_solver] |].
    by intros [_ ->].
  - rewrite try_fold_snoc, bind_Ok. setoid_rewrite IH. setoid_rewrite validate_model_Ok.
    rewrite Forall_app, Forall_singleton, !agree_snoc, !record_names_snoc. naive_solver.
Qed.

Lemma timestamp_metadata_Ok r :
  validate_timestamp_metadata r = Ok tt ↔
    is_ok (parse_utc_timestamp_millis (rg_generated_at r)) = true
    ∧ is_ok (parse_utc_timestamp_millis (ss_completed_at (rg_source_sync_run r))) = true.
Proof.
  unfold validate_timestamp_metadata, parse_registry_timestamp.
  destruct (parse_utc_timestamp_millis (rg_generated_at r)); cbn; [|naive_solver].
  destruct (parse_utc_timestamp_millis (ss_completed_at _)); cbn; naive_solver.
Qed.

Lemma registry_validation_Ok r : validate_security_invariants r = Ok tt ↔ registry_valid r.
Proof.
  unfold validate_security_invariants.
  rewrite guard_Ok, unit_bind_Ok, guard_Ok, !negb_false_iff, !bool_decide_eq_true, timestamp_metadata_Ok, bind_Ok.
  setoid_rewrite validate_models_Ok. split.
  - intros (? & [? ?] & ? & seen & ((Hm & Ha & Hp) & _) & _). rewrite list.Forall_forall in Hm.
    assert (∀ id m, rg_models r !! id = Some m → model_valid (id, m)) as Hv
      by (intros id m Hid; by apply Hm, btree_iter_elem_of).
    assert (∀ id m, rg_models r !! id = Some m → id = rm_canonical_model m) as Hkey
      by (intros id m Hid; apply (mv_key _ (Hv _ _ Hid))).
    split; try done; intros id m id' m' k Hid Hid' Hk Hk'; rewrite (Hkey _ _ Hid), (Hkey _ _ Hid').
    + apply (Ha (id, m) (id', m') k); by try apply btree_iter_elem_of.
    + apply (Hp (id, m) (id', m') k); by try apply btree_iter_elem_of.
  - intros []. split_and!; try done. eexists (_ : Seen).
    assert (∀ id m, rg_models r !! id = Some m → rm_canonical_model m = id) as Hkey
      by (intros id m Hid; symmetry; apply (mv_key _ (gv_models0 _ _ Hid))). split; [|done]. split; [|done]. split_and!.
    + apply list.Forall_forall. intros [id m] Hid%btree_iter_elem_of. by apply gv_models0.
    + intros [id m] [id' m'] k Hid%btree_iter_elem_of Hid'%btree_iter_elem_of Hk Hk'.
      cbn [snd]. rewrite (Hkey _ _ Hid), (Hkey _ _ Hid'). by eapply gv_aliases0.
    + intros [id m] [id' m'] k Hid%btree_iter_elem_of Hid'%btree_iter_elem_of Hk Hk'.
      cbn [snd]. rewrite (Hkey _ _ Hid), (Hkey _ _ Hid'). by eapply gv_provider_models0.
Qed.

(** C26: the loop that checks a registry accepts exactly the valid ones: known
    schema, parsable timestamps, a successful sync; every model stored under its
    canonical name with non-blank, distinct aliases; every route named, without
    URL credentials, and with a reviewed alias when it can be selected; and no
    alias and no selectable provider model shared between two models. *)
Theorem registry_accepted_iff r : validate_security_invariants r = Ok tt ↔ registry_valid r.
Proof. apply registry_validation_Ok. Qed.

(** ** Lookup *)

Lemma matching_routes_elem r provider requested m route :
  (m, route) ∈ matching_routes r provider requested ↔
    (∃ id, rg_models r !! id = Some m) ∧ route ∈ rm_routes m ∧ route_selected provider requested m route = true.
Proof.
  unfold matching_routes. rewrite list_elem_of_In, in_flat_map. split.
  - intros ([id m'] & Hin & H). apply in_map_iff in H as (x & [= -> ->] & H).
    apply filter_In in H as [H1 H2]. apply list_elem_of_In, btree_iter_elem_of in Hin.
    apply list_elem_of_In in H1. naive_solver.
  - intros ([id Hid] & Hin & Hs). exists (id, m). split; [by apply list_elem_of_In, btree_iter_elem_of|].
    apply in_map_iff. exists route. split; [done|]. apply filter_In. by rewrite <-list_elem_of_In.
Qed.

Lemma existsb_name {A} `{!EqDecision A} (l : list A) name : existsb (λ x, x =?= name) l = true ↔ name ∈ l.
Proof.
  rewrite existsb_exists. setoid_rewrite bool_decide_eq_true. setoid_rewrite <-list_elem_of_In. naive_solver.
Qed.

(** How a route answers to the requested name. *)
Definition by_canonical_name (m : RegistryModel) (requested : string) : Prop := rm_canonical_model m = requested.
Definition by_alias (m : RegistryModel) (route : RouteDefinition) (requested : string) : Prop :=
  requested ∈ rm_aliases m ∧ alias_allowed_by_default (rd_alias_confidence route) = true.

Lemma route_selected_true provider requested m route :
  route_selected provider requested m route = true ↔
    selectable_for_verification (rd_route_status route) = true
    ∧ (∀ p, provider = Some p → rd_provider route = p)
    ∧ (rd_provider_model route = requested ∨ by_canonical_name m requested ∨ by_alias m route requested).
Proof.
  unfold route_selected, matches_request_model, by_canonical_name, by_alias.
  rewrite !andb_true_iff, !orb_true_iff, andb_true_iff, existsb_name, !bool_decide_eq_true.
  destruct provider as [p|]; [rewrite bool_decide_eq_true|]; naive_solver.
Qed.

Lemma selected_key m route :
  route ∈ rm_routes m → selectable_for_verification (rd_route_status route) = true →
  (rd_provider route, rd_provider_model route) ∈ active_keys m.
Proof.
  intros Hin Hs. unfold active_keys, route_keys. apply list_elem_of_In, in_map_iff. exists route.
  split; [done|]. apply filter_In. by rewrite <-list_elem_of_In.
Qed.

(** In a valid registry a requested name leads to one model: two routes
    returned for it belong to the same model when both answer to it as their
    canonical name, both as an alias, or both as the provider model of one
    provider; and no returned route rests on an algorithmic alias. *)
Theorem lookup_unambiguous r provider requested m1 route1 m2 route2 :
  validate_security_invariants r = Ok tt →
  (m1, route1) ∈ matching_routes r provider requested →
  (m2, route2) ∈ matching_routes r provider requested →
  rd_alias_confidence route1 ≠ Algorithmic
  ∧ ((by_canonical_name m1 requested ∧ by_canonical_name m2 requested)
     ∨ (by_alias m1 route1 requested ∧ by_alias m2 route2 requested)
     ∨ (rd_provider route1 = rd_provider route2
        ∧ rd_provider_model route1 = requested ∧ rd_provider_model route2 = requested)
     → m1 = m2).
Proof.
  intros Hv%registry_validation_Ok ((id1 & H1) & Hin1 & Hs1)%matching_routes_elem
    ((id2 & H2) & Hin2 & Hs2)%matching_routes_elem.
  apply route_selected_true in Hs1 as (Hl1 & _ & _), Hs2 as (Hl2 & _ & _).
  pose proof (gv_models r Hv _ _ H1) as M1. pose proof (gv_models r Hv _ _ H2) as M2. split.
  { pose proof (mv_routes _ M1) as Hr. rewrite list.Forall_forall in Hr. by apply (rv_curated _ (Hr _ Hin1)). }
  intros H. assert (id1 = id2) as ->; [|naive_solver]. destruct H as [[E1 E2]|[[[A1 _] [A2 _]]|(Ep & E1 & E2)]].
  - apply mv_key in M1, M2. cbn [fst snd] in *. unfold by_canonical_name in *. congruence.
  - by apply (gv_aliases r Hv _ _ _ _ requested H1 H2).
  - apply (gv_provider_models r Hv _ _ _ _ (rd_provider route1, rd_provider_model route1) H1 H2);
      [by apply selected_key|]. rewrite Ep, E1, <-E2. by apply selected_key.
Qed.

(** ** Specification of an update *)

Record route_not_weaker (r c : RouteDefinition) : Prop := {
  rn_status : (route_lifecycle_security_rank (rd_route_status r)
               ≤ route_lifecycle_security_rank (rd_route_status c))%Z;
  rn_provider : rd_provider c = rd_provider r;
  rn_provider_model : rd_provider_model c = rd_provider_model r;
  rn_family : rd_evidence_family c = rd_evidence_family r;
  rn_api : rd_api_base_url c = rd_api_base_url r;
  rn_evidence : rd_evidence_endpoint c = rd_evidence_endpoint r;
  rn_adapter : rd_adapter_version c = rd_adapter_version r;
  rn_tier : (trust_tier_rank (rd_trust_tier r) ≤ trust_tier_rank (rd_trust_tier c))%Z;
  rn_channel : rd_channel_binding_kind c = rd_channel_binding_kind r;
  rn_request : rd_request_confidentiality_requirement r = BoundToAttestedWorkload →
    rd_request_confidentiality_requirement c = BoundToAttestedWorkload;
  rn_response : rd_response_confidentiality_requirement r = BoundToAttestedWorkload →
    rd_response_confidentiality_requirement c = BoundToAttestedWorkload;
  rn_integrity : (response_integrity_rank (rd_response_integrity_requirement r)
                  ≤ response_integrity_rank (rd_response_integrity_requirement c))%Z;
  rn_integrity_kept : (2 ≤ response_integrity_rank (rd_response_integrity_requirement r))%Z →
    rd_response_integrity_requirement c = rd_response_integrity_requirement r;
  rn_gpu : rd_accepted_gpu_tees r ⊆ rd_accepted_gpu_tees c;
  rn_encryption : rd_request_encryption r = EncryptionRequired → rd_request_encryption c = EncryptionRequired;
  rn_decryption : rd_response_decryption r = EncryptionRequired → rd_response_decryption c = EncryptionRequired;
  rn_alias : (alias_confidence_rank (rd_alias_confidence r) ≤ alias_confidence_rank (rd_alias_confidence c))%Z;
  rn_streaming : rd_streaming r = Unsupported → rd_streaming c = Unsupported;
}.

Definition same_id (r : RouteDefinition) : RouteDefinition → bool :=
  λ route, rd_route_id route =?= rd_route_id r.

Record model_kept (m c : RegistryModel) : Prop := {
  mk_canonical : rm_canonical_model c = rm_canonical_model m;
  mk_aliases : rm_aliases m ⊆ rm_aliases c;
  mk_routes route : route ∈ rm_routes m → security_sensitive (rd_route_status route) = true →
    ∃ route', List.find (same_id route) (rm_routes c) = Some route' ∧ route_not_weaker route route';
}.

Record registry_kept (r c : ProviderRegistry) : Prop := {
  rk_version : version_le (rg_version r) (rg_version c);
  rk_models id m : rg_models r !! id = Some m → ∃ m', rg_models c !! id = Some m' ∧ model_kept m m';
}.

#[export] Instance route_not_weaker_trans : Transitive route_not_weaker.
Proof.
  intros a b c [] []. constructor; try congruence; try lia; try (by etrans); auto.
  intros H. rewrite rn_integrity_kept1, rn_integrity_kept0; [done|done|lia].
Qed.

Lemma rank_sensitive status : security_sensitive status = true ↔ (1 ≤ route_lifecycle_security_rank status)%Z.
Proof. destruct status; cbn; split; intros; try done; lia. Qed.
Lemma rank_active status : selectable_for_chat status = true ↔ (2 ≤ route_lifecycle_security_rank status)%Z.
Proof. destruct status; cbn; split; intros; try done; lia. Qed.
Lemma rank_alias c : alias_allowed_by_default c = true ↔ (2 ≤ alias_confidence_rank c)%Z.
Proof. destruct c; cbn; split; intros; try done; lia. Qed.
Lemma rank_bound_data a b :
  (bound_data_rank a ≤ bound_data_rank b)%Z ↔ (a = BoundToAttestedWorkload → b = BoundToAttestedWorkload).
Proof. destruct a, b; cbn; split; intros; try done; try lia; by discriminate H. Qed.

Lemma registry_unchanged_Ok {A} `{!EqDecision A} (a b : A) : registry_fail_if_changed a b = Ok tt ↔ b = a.
Proof. unfold registry_fail_if_changed. case_bool_decide; split; congruence. Qed.
Lemma unremoved_Ok {A} `{!EqDecision A} (l k : list A) : fail_if_removed_values l k = Ok tt ↔ l ⊆ k.
Proof.
  unfold fail_if_removed_values. rewrite for_each_Ok, list.Forall_forall.
  setoid_rewrite guard_Ok. setoid_rewrite negb_false_iff. setoid_rewrite existsb_name. set_solver.
Qed.
Lemma implied_off (a b : bool) : a && negb b = false ↔ (a = true → b = true).
Proof. destruct a, b; naive_solver. Qed.

Lemma route_weakening_Ok r c : route_verify_not_weakened_by r c = Ok tt ↔ route_not_weaker r c.
Proof.
  unfold route_verify_not_weakened_by.
  rewrite guard_Ok, !unit_bind_Ok, !registry_unchanged_Ok, !guard_Ok, unit_bind_Ok, unremoved_Ok, !guard_Ok,
    !implied_off, !Z.ltb_ge, !rank_bound_data, andb_false_iff, !negb_false_iff, Z.leb_gt, !bool_decide_eq_true.
  split.
  - intros; destruct_and!. constructor; try done. intros ?. destruct_or!; [done|lia].
  - intros []. split_and!; try done. destruct (Z.lt_ge_cases
      (response_integrity_rank (rd_response_integrity_requirement r)) 2); [by right|left]. symmetry. auto.
Qed.

Lemma model_update_Ok c id m :
  verify_model_update c (id, m) = Ok tt ↔ ∃ m', rg_models c !! id = Some m' ∧ model_kept m m'.
Proof.
  unfold verify_model_update. rewrite bind_Ok. setoid_rewrite ok_or_Ok. setoid_rewrite guard_Ok.
  setoid_rewrite unit_bind_Ok. setoid_rewrite for_each_Ok. setoid_rewrite list.Forall_forall.
  setoid_rewrite guard_Ok. setoid_rewrite negb_false_iff. setoid_rewrite existsb_name.
  setoid_rewrite bool_decide_eq_true. setoid_rewrite bind_Ok. setoid_rewrite ok_or_Ok.
  setoid_rewrite route_weakening_Ok. setoid_rewrite list_elem_of_In. setoid_rewrite filter_In.
  split.
  - intros (m' & ? & ? & Ha & Hr). exists m'. split; [done|]. constructor; [done| |].
    + intros a Ha'. apply list_elem_of_In. by apply Ha, list_elem_of_In.
    + intros route Hin Hs. apply Hr. split; [by apply list_elem_of_In|done].
  - intros (m' & ? & [Hc Ha Hr]). exists m'. split_and!; try done.
    + intros a Ha'. split; [|done]. by apply list_elem_of_In, Ha, list_elem_of_In.
    + intros route [Hin Hs]. apply Hr; [by apply list_elem_of_In|done].
Qed.

Lemma registry_update_Ok r c :
  registry_verify_update_to r c = Ok tt ↔ registry_valid r ∧ registry_valid c ∧ registry_kept r c.
Proof.
  unfold registry_verify_update_to. rewrite !unit_bind_Ok, !registry_validation_Ok, !guard_Ok, !negb_false_iff,
    !bool_decide_eq_true, is_less_false, btree_for_each. setoid_rewrite model_update_Ok.
  split; [intros; destruct_and!; split_and!; try done | intros (? & [] & [])]; by split_and!.
Qed.

Lemma find_same_id route l route' :
  List.find (same_id route) l = Some route' → route' ∈ l ∧ rd_route_id route' = rd_route_id route.
Proof. intros [H1 H2]%List.find_some. apply bool_decide_eq_true in H2. by rewrite list_elem_of_In. Qed.

#[export] Instance registry_kept_trans : Transitive registry_kept.
Proof.
  intros a b c [Va Ma] [Vb Mb]. constructor; [by etrans|]. intros id m (m' & Hm' & [Ec Ha Hr])%Ma.
  apply Mb in Hm' as (m'' & Hm'' & [Ec' Ha' Hr']). exists m''. split; [done|].
  constructor; [congruence|by etrans|]. intros route Hin Hs.
  destruct (Hr route Hin Hs) as (route' & Hf & Hk). apply find_same_id in Hf as [Hin' Hid].
  destruct (Hr' route' Hin') as (route'' & Hf' & Hk').
  { apply rank_sensitive. apply rank_sensitive in Hs. pose proof (rn_status _ _ Hk). lia. }
  exists route''. unfold same_id in *. rewrite Hid in Hf'. split; [done|]. by etrans.
Qed.

Lemma kept_selectable r c provider requested m route :
  registry_kept r c → (m, route) ∈ matching_routes r provider requested →
  ∃ m' route', (m', route') ∈ matching_routes c provider requested
    ∧ rm_canonical_model m' = rm_canonical_model m ∧ rd_route_id route' = rd_route_id route
    ∧ route_not_weaker route route'.
Proof.
  intros [_ K] ((id & Hm) & Hin & (Hl & Hp & Hn)%route_selected_true)%matching_routes_elem.
  destruct (K id m Hm) as (m' & Hm' & [Ec Ha Hr]). destruct (Hr route Hin Hl) as (route' & Hf & Hk).
  apply find_same_id in Hf as [Hin' Hid]. exists m', route'. split; [|done].
  apply matching_routes_elem. split; [eauto|]. split; [done|]. apply route_selected_true. split_and!.
  - apply rank_sensitive. apply rank_sensitive in Hl. pose proof (rn_status _ _ Hk). lia.
  - intros p ->. rewrite (rn_provider _ _ Hk). by apply Hp.
  - destruct Hn as [Hn|[Hn|[Hn Hc]]].
    + left. by rewrite (rn_provider_model _ _ Hk).
    + right; left. unfold by_canonical_name in *. congruence.
    + right; right. split; [by apply Ha|]. apply rank_alias. apply rank_alias in Hc.
      pose proof (rn_alias _ _ Hk). lia.
Qed.

(** C25: a chain of accepted registry updates keeps, of every route a caller can be
    given, all that the update rule compares: versions never go back, every model
    keeps its identity and aliases, and every request that was answered by a route is
    still answered by a route of the same id whose provider, endpoints, adapter and
    channel binding are unchanged and whose status, trust tier, confidentiality,
    response integrity, GPU kinds, encryption and alias confidence are no lower; a
    route usable for chat stays usable for chat. The freshness class is not among
    these fields: an accepted update may relax it ([update_may_relax_freshness]). *)
Theorem registry_chain_not_weakened r c :
  tc (λ a b, registry_verify_update_to a b = Ok tt) r c →
  registry_kept r c
  ∧ ∀ provider requested m route, (m, route) ∈ matching_routes r provider requested →
      ∃ m' route', (m', route') ∈ matching_routes c provider requested
        ∧ rm_canonical_model m' = rm_canonical_model m ∧ rd_route_id route' = rd_route_id route
        ∧ route_not_weaker route route'
        ∧ (selectable_for_chat (rd_route_status route) = true → selectable_for_chat (rd_route_status route') = true).
Proof.
  intros H. assert (registry_kept r c) as K.
  { induction H as [a b (_ & _ & K)%registry_update_Ok|a b c (_ & _ & K)%registry_update_Ok _ IH]; [done|by etrans]. }
  split; [done|]. intros provider requested m route Hm.
  destruct (kept_selectable r c provider requested m route K Hm) as (m' & route' & ? & ? & ? & Hk).
  exists m', route'. split_and!; try done. rewrite !rank_active. pose proof (rn_status _ _ Hk). lia.
Qed.

Section RegistryAdoption.
Context {prim : Primitives} {crypto : SignatureCrypto}.

(** A registry adopted as an update is the envelope's own payload, valid,
    signed by a trusted key over its canonical JSON, and keeps everything
    security-relevant of the registry it replaces. *)
Theorem registry_adopted_signed_and_kept envelope current keys r :
  registry_into_verified_update_from_with_keys envelope current keys = Ok r →
  r = rge_payload envelope ∧ rge_schema envelope = REGISTRY_ENVELOPE_SCHEMA
  ∧ registry_valid r ∧ registry_kept current r
  ∧ ∃ key, key ∈ keys ∧ tk_signer key = as_signer (rge_signature envelope)
      ∧ tk_key_id key = as_key_id (rge_signature envelope)
      ∧ signed_by (rge_signature envelope) (registry_value r) key.
Proof.
  unfold registry_into_verified_update_from_with_keys, registry_verify_signature_with_keys. intros H. inv_ok. bools.
  match goal with H : registry_verify_update_to _ _ = _ |- _ => apply registry_update_Ok in H as (_ & ? & ?) end.
  match goal with H : verify_artifact_signature_with_keys _ _ _ = _ |- _ =>
    apply signature_Ok in H as (_ & _ & key & _ & Hin & E1 & E2 & Hs) end.
  split_and!; try done. by exists key.
Qed.
End RegistryAdoption.

(** A pin accepts a registry exactly when each of its constraints holds. *)
Theorem registry_pin_accepts_iff pin r digest now :
  registry_verify_with_digest_at pin r digest now = Ok tt ↔
    (∀ d, rp_digest pin = Some d → digest = d)
    ∧ (∀ v, rp_version pin = Some v → rg_version r = v)
    ∧ (∀ v, rp_minimum_version pin = Some v → version_le v (rg_version r))
    ∧ (∀ age, rp_max_age_millis pin = Some age →
         ∃ completed, parse_utc_timestamp_millis (ss_completed_at (rg_source_sync_run r)) = Ok completed
           ∧ (completed ≤ now)%Z ∧ (now - completed ≤ age)%Z).
Proof.
  unfold registry_verify_with_digest_at. rewrite !unit_bind_Ok, !option_pin_Ok.
  setoid_rewrite negb_false_iff. setoid_rewrite bool_decide_eq_true. setoid_rewrite is_less_false.
  destruct (rp_max_age_millis pin) as [age|]; [|naive_solver].
  rewrite bind_Ok. setoid_rewrite map_err_Ok. setoid_rewrite guard_Ok. setoid_rewrite Z.ltb_ge.
  unfold saturating_sub. split.
  - intros (? & ? & ? & from & Hf & Hle & [Hage%Z.ltb_ge _]%guard_Ok). split_and!; try done.
    intros ? [= <-]. exists from. split; [done|]. lia.
  - intros (? & ? & ? & H). destruct (H age eq_refl) as (from & Hf & ?). split_and!; try done.
    exists from. split; [done|]. split; [lia|]. apply guard_Ok. split; [|done]. apply Z.ltb_ge. lia.
Qed.

(** ** Concrete registries *)

Definition sample_definition (id provider provider_model : string) (status : RouteLifecycle)
    (freshness : FreshnessClass) : RouteDefinition := {|
  rd_route_id := id; rd_route_status := status; rd_provider := provider; rd_provider_model := provider_model;
  rd_evidence_family := "tinfoil_live_tls"; rd_api_base_url := "https://api.example/v1";
  rd_evidence_endpoint := "https://api.example/attestation"; rd_adapter_version := "1";
  rd_freshness_class := freshness; rd_channel_binding_kind := KindTeeTerminatedTls;
  rd_trust_tier := HwVerifiedTls; rd_request_confidentiality_requirement := BoundToAttestedWorkload;
  rd_response_confidentiality_requirement := BoundToAttestedWorkload;
  rd_response_integrity_requirement := IntegrityChannelBound; rd_accepted_gpu_tees := [NvidiaCc];
  rd_request_encryption := EncryptionNotRequired; rd_response_decryption := EncryptionNotRequired;
  rd_streaming := Supported; rd_alias_confidence := Curated |}.

Definition sample_model (name : string) (aliases : list string) (routes : list RouteDefinition) : RegistryModel :=
  {| rm_canonical_model := name; rm_display_name := name; rm_family := "llm"; rm_aliases := aliases;
     rm_routes := routes |}.

Definition sample_registry (version : string) (models : list RegistryModel) : ProviderRegistry := {|
  rg_schema := REGISTRY_SCHEMA; rg_version := version; rg_generated_at := "2026-01-01T00:00:00Z";
  rg_source_sync_run := {| ss_completed_at := "2026-01-01T00:00:00Z"; ss_status := "success"; ss_source := "ci" |};
  rg_models := list_to_map (map (λ m, (rm_canonical_model m, m)) models) |}.

Definition registry_1 : ProviderRegistry := sample_registry "2026.9"
  [sample_model "llama" ["llama-70b"] [sample_definition "r1" "tinfoil" "llama3" VerificationOnly FreshPerSession]].
Definition registry_2 : ProviderRegistry := sample_registry "2026.10"
  [sample_model "llama" ["llama-70b"; "l70"]
     [sample_definition "r1" "tinfoil" "llama3" Active FreshPerSession;
      sample_definition "r2" "near" "llama3" NewUnverified FreshPerSession]].

Example registry_update_1_2 : registry_verify_update_to registry_1 registry_2 = Ok tt.
Proof. vm_compute. reflexivity. Qed.
Example registry_update_2_1_rejected : is_ok (registry_verify_update_to registry_2 registry_1) = false.
Proof. vm_compute. reflexivity. Qed.

Lemma registry_chain_not_weakened_witness : registry_kept registry_1 registry_2.
Proof. exact (proj1 (registry_chain_not_weakened registry_1 registry_2 (tc_once _ registry_1 registry_2 registry_update_1_2))). Defined.

Lemma lookup_unambiguous_witness :
  rd_alias_confidence (sample_definition "r1" "tinfoil" "llama3" Active FreshPerSession) ≠ Algorithmic.
Proof.
  refine (proj1 (lookup_unambiguous registry_2 None "l70"
    (sample_model "llama" ["llama-70b"; "l70"]
       [sample_definition "r1" "tinfoil" "llama3" Active FreshPerSession;
        sample_definition "r2" "near" "llama3" NewUnverified FreshPerSession])
    (sample_definition "r1" "tinfoil" "llama3" Active FreshPerSession) _ _ _ _ _)).
  - vm_compute. reflexivity.
  - vm_compute. constructor.
  - vm_compute. constructor.
Defined.

(** A signature scheme for the witness: the signature is the message. *)
#[local] Instance registry_sample_crypto : SignatureCrypto := {|
  base64url_decode s := Some s; public_key_from_slice s := Some s;
  signature_from_slice s := Some s; ed25519_verify _ message signature := message =?= signature |}.

Definition sample_registry_envelope : ProviderRegistryEnvelope := {|
  rge_schema := REGISTRY_ENVELOPE_SCHEMA; rge_payload := registry_2;
  rge_signature := {| as_signer := "confidential-inference"; as_key_id := DEMO_SIGNING_KEY_ID;
                      as_alg := "ed25519";
                      as_value := match canonical_json (registry_value registry_2) with
                                  | Ok s => "base64url:" +:+ s | Err _ => "" end |} |}.

Lemma registry_adopted_signed_and_kept_witness : registry_kept registry_1 registry_2.
Proof.
  assert (registry_into_verified_update_from_with_keys sample_registry_envelope registry_1
            bundled_fixture_signing_keys = Ok registry_2) as E by (vm_compute; reflexivity).
  destruct (registry_adopted_signed_and_kept _ _ _ _ E) as (_ & _ & _ & H & _). exact H.
Defined.

(** ** Two gaps *)

(** The checks compare aliases with aliases only, so an alias of one model
    may be the canonical name of another: the registry is accepted, and a request
    for that name is offered routes of both models. *)
Theorem alias_may_shadow_canonical_name :
  ∃ r, validate_security_invariants r = Ok tt
    ∧ map (λ p, rm_canonical_model p.1) (matching_routes r None "llama") = ["gemma"; "llama"]
    ∧ map rm_canonical_model (map fst (matching_routes r (Some "tinfoil") "llama")) = ["gemma"; "llama"].
Proof.
  exists (sample_registry "1"
    [sample_model "gemma" ["llama"] [sample_definition "r1" "tinfoil" "gemma3" Active FreshPerSession];
     sample_model "llama" ["llama-70b"] [sample_definition "r2" "tinfoil" "llama3" Active FreshPerSession]]).
  vm_compute. done.
Qed.

(** The update rule does not compare the freshness class: an accepted update may turn a
    selectable route from per-request attestation into a cached binding, everything
    else unchanged. This is the one security field a chain of updates does not keep. *)
Theorem update_may_relax_freshness :
  ∃ r c, registry_verify_update_to r c = Ok tt
    ∧ map (λ p, rd_freshness_class p.2) (matching_routes r None "llama") = [FreshPerRequest]
    ∧ map (λ p, rd_freshness_class p.2) (matching_routes c None "llama") = [CachedBinding].
Proof.
  exists (sample_registry "1" [sample_model "llama" [] [sample_definition "r" "tinfoil" "l" Active FreshPerRequest]]),
    (sample_registry "1" [sample_model "llama" [] [sample_definition "r" "tinfoil" "l" Active CachedBinding]]).
  vm_compute. done.
Qed.
