(* ===== verification/RegistryReview.v ===== *)
(** * Registry review

    providers/registry.rs: the model alias matrix with its validation, the
    difference report between two registries that a reviewer reads before an
    update, and the URL credential check. *)

From Stdlib Require Import Ascii String ZArith Lia.
From stdpp Require Import base gmap strings list numbers.
From S2P Require Import Prelude RustStr Errors Collections Timestamps Versions Canonical JsonInjective Policy Verdict Evidence Signature ReferenceValues Registry.

Open Scope string_scope.

(** ** Model alias matrix *)

Record ModelAliasProviderRoute := { ap_provider : string; ap_provider_model : string }.

Record ModelAliasCase := {
  ac_canonical_model : string;
  ac_display_name : string;
  ac_family : string;
  ac_aliases : list string;
  ac_provider_routes : list ModelAliasProviderRoute;
  ac_must_not_match : list string;
}.

Record ModelAliasMatrix := { mm_schema : string; mm_models : list ModelAliasCase }.

Record ModelAliasMatrixEnvelope := {
  me_schema : string; me_payload : ModelAliasMatrix; me_signature : ArtifactSignature;
}.

Definition ALIAS_MATRIX_SCHEMA : string := "confidential-inference.model-alias-matrix.v1".
Definition ALIAS_MATRIX_ENVELOPE_SCHEMA : string := "confidential-inference.model-alias-matrix-envelope.v1".

Definition bad_registry (msg : string) : AttestationError := InvalidProviderRegistry msg.

Definition provider_route_validate (route : ModelAliasProviderRoute) : Result unit :=
  bail (bad_registry "model alias matrix {canonical_model} has an empty provider route provider")
    when is_empty (trim (ap_provider route));
  bail (bad_registry "model alias matrix {canonical_model} has an empty provider_model")
    when is_empty (trim (ap_provider_model route));
  Ok tt.

(** [if !set.insert(x) { return Err(e) }]. *)
Definition insert_new {K} `{Countable K} (e : AttestationError) (set : gset K) (x : K) : Result (gset K) :=
  bail e when bool_decide (x ∈ set); Ok ({[x]} ∪ set).

Definition case_alias (aliases : gset string) (alias : string) : Result (gset string) :=
  bail (bad_registry "model alias matrix {} has an empty alias") when is_empty (trim alias);
  insert_new (bad_registry "model alias matrix {} repeats alias {}") aliases alias.

Definition case_route (routes : gset (string * string)) (route : ModelAliasProviderRoute)
    : Result (gset (string * string)) :=
  _ ← provider_route_validate route;
  insert_new (bad_registry "model alias matrix {} repeats provider route {}/{}") routes
    (ap_provider route, ap_provider_model route).

Definition case_validate (c : ModelAliasCase) : Result unit :=
  bail (bad_registry "model alias matrix has an empty canonical_model")
    when is_empty (trim (ac_canonical_model c));
  _ ← for_each (λ field, bail (bad_registry "model alias matrix {} {} must be non-empty")
                  when is_empty (trim field); Ok tt) [ac_display_name c; ac_family c];
  bail (bad_registry "model alias matrix {} has no aliases")
    when match ac_aliases c with [] => true | _ => false end;
  bail (bad_registry "model alias matrix {} has no provider routes")
    when match ac_provider_routes c with [] => true | _ => false end;
  aliases ← try_fold case_alias (ac_aliases c) ∅;
  bail (bad_registry "model alias matrix {} aliases must include the canonical model")
    when negb (bool_decide (ac_canonical_model c ∈ aliases));
  _ ← try_fold case_route (ac_provider_routes c) ∅;
  for_each (λ rejected,
    bail (bad_registry "model alias matrix {} has an empty must_not_match entry") when is_empty (trim rejected);
    bail (bad_registry "model alias matrix {} rejects explicit alias {}") when bool_decide (rejected ∈ aliases);
    Ok tt) (ac_must_not_match c).

Definition matrix_model (canonical_models : gset string) (c : ModelAliasCase) : Result (gset string) :=
  _ ← case_validate c;
  insert_new (bad_registry "model alias matrix repeats canonical model {}") canonical_models (ac_canonical_model c).

Definition matrix_validate (m : ModelAliasMatrix) : Result unit :=
  bail (bad_registry "unsupported model alias matrix schema {}") when negb (mm_schema m =?= ALIAS_MATRIX_SCHEMA);
  bail (bad_registry "model alias matrix contains no models")
    when match mm_models m with [] => true | _ => false end;
  _ ← try_fold matrix_model (mm_models m) ∅;
  Ok tt.

Definition alias_route_value (r : ModelAliasProviderRoute) : Value :=
  VObject [("provider", VString (ap_provider r)); ("provider_model", VString (ap_provider_model r))].
Definition alias_case_value (c : ModelAliasCase) : Value :=
  VObject [("canonical_model", VString (ac_canonical_model c)); ("display_name", VString (ac_display_name c));
           ("family", VString (ac_family c)); ("aliases", strings_value (ac_aliases c));
           ("provider_routes", VArray (map alias_route_value (ac_provider_routes c)));
           ("must_not_match", strings_value (ac_must_not_match c))].
Definition matrix_value (m : ModelAliasMatrix) : Value :=
  VObject [("schema", VString (mm_schema m)); ("models", VArray (map alias_case_value (mm_models m)))].

Definition validate_model_alias_matrix_schema_major (value : string) : Result unit :=
  check_schema_major InvalidProviderRegistry "confidential-inference.model-alias-matrix" value.

Section Matrix.
Context {prim : Primitives} {crypto : SignatureCrypto}.

Definition matrix_digest (m : ModelAliasMatrix) : Result string :=
  _ ← validate_model_alias_matrix_schema_major (mm_schema m);
  canonical_digest (matrix_value m).

Definition matrix_verify_signature_with_keys (envelope : ModelAliasMatrixEnvelope)
    (keys : list TrustedSigningKey) : Result unit :=
  bail (bad_registry "model alias matrix envelope schema mismatch")
    when negb (me_schema envelope =?= ALIAS_MATRIX_ENVELOPE_SCHEMA);
  _ ← verify_artifact_signature_with_keys (me_signature envelope) (matrix_value (me_payload envelope)) keys;
  matrix_validate (me_payload envelope).

Definition matrix_into_verified_payload_with_keys (envelope : ModelAliasMatrixEnvelope)
    (keys : list TrustedSigningKey) : Result ModelAliasMatrix :=
  _ ← matrix_verify_signature_with_keys envelope keys;
  Ok (me_payload envelope).
End Matrix.

(** ** Difference reports *)

Inductive RegistryDiffKind :=
| ModelAdded | ModelRemoved | ModelFieldChanged | AliasAdded | AliasRemoved
| RouteAdded | RouteRemoved | RouteFieldChanged.

Record RegistryDiffChange := {
  dc_kind : RegistryDiffKind;
  dc_model : string;
  dc_route_id : option string;
  dc_provider : option string;
  dc_provider_model : option string;
  dc_field : option string;
  dc_before : option Value;
  dc_after : option Value;
  dc_review_required : bool;
}.

Record ProviderRegistryDiffReport := {
  dr_from_version : string;
  dr_to_version : string;
  dr_from_digest : string;
  dr_to_digest : string;
  dr_changes : list RegistryDiffChange;
}.

Definition review_required (report : ProviderRegistryDiffReport) : bool :=
  existsb dc_review_required (dr_changes report).

(** [RegistryDiffChange::model], [alias], [route], [route_field] and
    [model_field]; serialising a registry value does not fail. *)
Definition change_model (kind : RegistryDiffKind) (model : string) (before after : option Value) (review : bool)
    : RegistryDiffChange := {|
  dc_kind := kind; dc_model := model; dc_route_id := None; dc_provider := None; dc_provider_model := None;
  dc_field := None; dc_before := before; dc_after := after; dc_review_required := review |}.
Definition change_alias (added : bool) (model alias : string) : RegistryDiffChange := {|
  dc_kind := if added then AliasAdded else AliasRemoved; dc_model := model; dc_route_id := None;
  dc_provider := None; dc_provider_model := None; dc_field := Some "aliases";
  dc_before := if added then None else Some (VString alias);
  dc_after := if added then Some (VString alias) else None; dc_review_required := true |}.
Definition change_route (kind : RegistryDiffKind) (model : string) (route : RouteDefinition)
    (before after : option Value) (review : bool) : RegistryDiffChange := {|
  dc_kind := kind; dc_model := model; dc_route_id := Some (rd_route_id route);
  dc_provider := Some (rd_provider route); dc_provider_model := Some (rd_provider_model route);
  dc_field := None; dc_before := before; dc_after := after; dc_review_required := review |}.
Definition change_route_field (model : string) (route : RouteDefinition) (field : string)
    (before after : Value) (review : bool) : RegistryDiffChange := {|
  dc_kind := RouteFieldChanged; dc_model := model; dc_route_id := Some (rd_route_id route);
  dc_provider := Some (rd_provider route); dc_provider_model := Some (rd_provider_model route);
  dc_field := Some field; dc_before := Some before; dc_after := Some after; dc_review_required := review |}.
Definition change_model_field (model field : string) (before after : Value) (review : bool)
    : RegistryDiffChange := {|
  dc_kind := ModelFieldChanged; dc_model := model; dc_route_id := None; dc_provider := None;
  dc_provider_model := None; dc_field := Some field; dc_before := Some before; dc_after := Some after;
  dc_review_required := review |}.

Definition push_model_field_change (model field : string) (current candidate : string) (review : bool)
    : list RegistryDiffChange :=
  if current =?= candidate then []
  else [change_model_field model field (VString current) (VString candidate) review].

Definition push_route_field_change {A} `{!EqDecision A} (model : string) (current_route : RouteDefinition)
    (field : string) (value : A → Value) (current candidate : A) (review : bool) : list RegistryDiffChange :=
  if current =?= candidate then []
  else [change_route_field model current_route field (value current) (value candidate) review].

(** [collect::<BTreeMap<_, _>>()]: the last route of an id wins. *)
Definition route_map (model : RegistryModel) : gmap string RouteDefinition :=
  fold_left (λ m route, <[rd_route_id route := route]> m) (rm_routes model) ∅.

Definition gpu_list_value (l : list GpuTeeKind) : Value := VArray (map gpu_kind_value l).

Definition diff_route_fields (model_id : string) (r c : RouteDefinition) : list RegistryDiffChange :=
  (push_route_field_change model_id r "route_status" lifecycle_value (rd_route_status r) (rd_route_status c) true
   ++ push_route_field_change model_id r "provider" VString (rd_provider r) (rd_provider c) true
   ++ push_route_field_change model_id r "provider_model" VString (rd_provider_model r) (rd_provider_model c) true
   ++ push_route_field_change model_id r "evidence_family" VString (rd_evidence_family r) (rd_evidence_family c) true
   ++ push_route_field_change model_id r "api_base_url" VString (rd_api_base_url r) (rd_api_base_url c) true
   ++ push_route_field_change model_id r "evidence_endpoint" VString
        (rd_evidence_endpoint r) (rd_evidence_endpoint c) true
   ++ push_route_field_change model_id r "adapter_version" VString (rd_adapter_version r) (rd_adapter_version c) true
   ++ push_route_field_change model_id r "freshness_class" freshness_class_value
        (rd_freshness_class r) (rd_freshness_class c) true
   ++ push_route_field_change model_id r "channel_binding_kind" channel_kind_value
        (rd_channel_binding_kind r) (rd_channel_binding_kind c) true
   ++ push_route_field_change model_id r "trust_tier" trust_tier_value (rd_trust_tier r) (rd_trust_tier c) true
   ++ push_route_field_change model_id r "request_confidentiality_requirement" bound_data_value
        (rd_request_confidentiality_requirement r) (rd_request_confidentiality_requirement c) true
   ++ push_route_field_change model_id r "response_confidentiality_requirement" bound_data_value
        (rd_response_confidentiality_requirement r) (rd_response_confidentiality_requirement c) true
   ++ push_route_field_change model_id r "response_integrity_requirement" integrity_requirement_value
        (rd_response_integrity_requirement r) (rd_response_integrity_requirement c) true
   ++ push_route_field_change model_id r "accepted_gpu_tees" gpu_list_value
        (rd_accepted_gpu_tees r) (rd_accepted_gpu_tees c) true
   ++ push_route_field_change model_id r "request_encryption" encryption_value
        (rd_request_encryption r) (rd_request_encryption c) true
   ++ push_route_field_change model_id r "response_decryption" encryption_value
        (rd_response_decryption r) (rd_response_decryption c) true
   ++ push_route_field_change model_id r "streaming" streaming_value (rd_streaming r) (rd_streaming c) true
   ++ push_route_field_change model_id r "alias_confidence" alias_confidence_value
        (rd_alias_confidence r) (rd_alias_confidence c) true)%list.

(** [BTreeSet::difference], in order. *)
Definition set_difference (l k : list string) : list string :=
  dedup (sort_by str_cmp (List.filter (λ x, negb (existsb (λ y, y =?= x) k)) l)).

Definition diff_current_route (model_id : string) (candidate_routes : gmap string RouteDefinition)
    (entry : string * RouteDefinition) : list RegistryDiffChange :=
  let '(route_id, current_route) := entry in
  match candidate_routes !! route_id with
  | None => [change_route RouteRemoved model_id current_route (Some (route_definition_value current_route)) None
               (security_sensitive (rd_route_status current_route))]
  | Some candidate_route => diff_route_fields model_id current_route candidate_route
  end.

Definition diff_candidate_route (model_id : string) (current_routes : gmap string RouteDefinition)
    (entry : string * RouteDefinition) : list RegistryDiffChange :=
  let '(route_id, candidate_route) := entry in
  match current_routes !! route_id with
  | Some _ => []
  | None => [change_route RouteAdded model_id candidate_route None (Some (route_definition_value candidate_route))
               (security_sensitive (rd_route_status candidate_route))]
  end.

Definition diff_model (candidate : ProviderRegistry) (entry : string * RegistryModel) : list RegistryDiffChange :=
  let '(model_id, m) := entry in
  match rg_models candidate !! model_id with
  | None => [change_model ModelRemoved model_id (Some (model_value m)) None true]
  | Some c =>
      (push_model_field_change model_id "display_name" (rm_display_name m) (rm_display_name c) false
       ++ push_model_field_change model_id "family" (rm_family m) (rm_family c) false
       ++ map (change_alias true model_id) (set_difference (rm_aliases c) (rm_aliases m))
       ++ map (change_alias false model_id) (set_difference (rm_aliases m) (rm_aliases c))
       ++ flat_map (diff_current_route model_id (route_map c)) (btree_iter (route_map m))
       ++ flat_map (diff_candidate_route model_id (route_map m)) (btree_iter (route_map c)))%list
  end.

Definition diff_new_model (current : ProviderRegistry) (entry : string * RegistryModel) : list RegistryDiffChange :=
  let '(model_id, c) := entry in
  match rg_models current !! model_id with
  | Some _ => []
  | None => [change_model ModelAdded model_id None (Some (model_value c))
               (existsb (λ route, security_sensitive (rd_route_status route)) (rm_routes c))]
  end.

Definition diff_to `{!Primitives} (current candidate : ProviderRegistry) : Result ProviderRegistryDiffReport :=
  _ ← validate_security_invariants current;
  _ ← validate_security_invariants candidate;
  let changes := (flat_map (diff_model candidate) (btree_iter (rg_models current))
                  ++ flat_map (diff_new_model current) (btree_iter (rg_models candidate)))%list in
  from_digest ← registry_digest current;
  to_digest ← registry_digest candidate;
  Ok {| dr_from_version := rg_version current; dr_to_version := rg_version candidate;
        dr_from_digest := from_digest; dr_to_digest := to_digest; dr_changes := changes |}.

(** ** A valid alias matrix *)

Lemma insert_new_Ok {K} `{Countable K} e (set : gset K) x set' :
  insert_new e set x = Ok set' ↔ (x ∉ set) ∧ set' = {[x]} ∪ set.
Proof. unfold insert_new. rewrite guard_Ok, bool_decide_eq_false. naive_solver. Qed.

Lemma elem_map {A B} (f : A → B) l y : y ∈ map f l ↔ ∃ x, f x = y ∧ x ∈ l.
Proof. rewrite list_elem_of_In, in_map_iff. setoid_rewrite <-list_elem_of_In. done. Qed.

(** A loop that validates each element and rejects a repeated key. *)
Lemma distinct_fold_Ok {A K} `{Countable K} (f : gset K → A → Result (gset K)) (P : A → Prop) (key : A → K) l s s' :
  (∀ s a s', f s a = Ok s' ↔ P a ∧ (key a ∉ s) ∧ s' = {[key a]} ∪ s) →
  try_fold f l s = Ok s' ↔
    Forall P l ∧ NoDup (map key l) ∧ (∀ a, a ∈ l → key a ∉ s) ∧ s' = list_to_set (map key l) ∪ s.
Proof.
  intros Hf. revert s. induction l as [|a l IH]; intros s; cbn [try_fold map list_to_set].
  - rewrite (left_id_L ∅ (∪)). split; [intros [= <-]; split_and!; [constructor|constructor|set_solver|done] | naive_solver].
  - rewrite bind_Ok. setoid_rewrite Hf. setoid_rewrite IH. rewrite list.Forall_cons, list.NoDup_cons.
    rewrite elem_map. split.
    + intros (t & (? & ? & ->) & ? & ? & Hk & ->). split_and!; try done; [|set_solver|set_solver].
      intros (b & Hb & Hin). apply (Hk b Hin). set_solver.
    + intros ((? & ?) & (Hn & ?) & Hk & ->). eexists. split; [split_and!; [done|set_solver|done]|].
      split_and!; try done; [|set_solver]. intros b Hb. specialize (Hk b). assert (key b ≠ key a) by naive_solver.
      set_solver.
Qed.

Record alias_case_valid (c : ModelAliasCase) : Prop := {
  cv_canonical : nonblank (ac_canonical_model c);
  cv_display : nonblank (ac_display_name c);
  cv_family : nonblank (ac_family c);
  cv_aliases : Forall nonblank (ac_aliases c) ∧ NoDup (ac_aliases c);
  cv_canonical_alias : ac_canonical_model c ∈ ac_aliases c;
  cv_routes_some : ac_provider_routes c ≠ [];
  cv_routes : Forall (λ r, nonblank (ap_provider r) ∧ nonblank (ap_provider_model r)) (ac_provider_routes c);
  cv_routes_distinct : NoDup (map (λ r, (ap_provider r, ap_provider_model r)) (ac_provider_routes c));
  cv_rejected : Forall (λ x, nonblank x ∧ (x ∉ ac_aliases c)) (ac_must_not_match c);
}.

Lemma case_aliases_Ok l s' : try_fold case_alias l ∅ = Ok s' ↔ (Forall nonblank l ∧ NoDup l) ∧ s' = list_to_set l.
Proof.
  rewrite (distinct_fold_Ok case_alias nonblank (λ a, a)).
  - rewrite map_id, (right_id_L ∅ (∪)). set_solver.
  - intros s a t. unfold case_alias, nonblank. by rewrite guard_Ok, insert_new_Ok.
Qed.

Lemma case_routes_Ok l :
  (∃ s', try_fold case_route l ∅ = Ok s') ↔
    Forall (λ r, nonblank (ap_provider r) ∧ nonblank (ap_provider_model r)) l
    ∧ NoDup (map (λ r, (ap_provider r, ap_provider_model r)) l).
Proof.
  setoid_rewrite (distinct_fold_Ok case_route (λ r, nonblank (ap_provider r) ∧ nonblank (ap_provider_model r))
    (λ r, (ap_provider r, ap_provider_model r))).
  - split; [naive_solver|]. intros [? ?]. eexists. by split_and!.
  - intros s a t. unfold case_route, provider_route_validate, nonblank.
    rewrite unit_bind_Ok, !guard_Ok, insert_new_Ok. naive_solver.
Qed.

Lemma is_nil_false {A} (l : list A) : match l with [] => true | _ => false end = false ↔ l ≠ [].
Proof. destruct l; naive_solver. Qed.

Lemma case_validate_Ok c : case_validate c = Ok tt ↔ alias_case_valid c.
Proof.
  unfold case_validate.
  rewrite guard_Ok, unit_bind_Ok, for_each_Ok, !list.Forall_cons, !guard_Ok, !is_nil_false, bind_Ok.
  setoid_rewrite case_aliases_Ok. setoid_rewrite guard_Ok. setoid_rewrite negb_false_iff.
  setoid_rewrite bool_decide_eq_true. setoid_rewrite bind_Ok. setoid_rewrite for_each_Ok.
  setoid_rewrite guard_Ok. setoid_rewrite guard_Ok. setoid_rewrite bool_decide_eq_false.
  pose proof (case_routes_Ok (ac_provider_routes c)) as Hr. unfold nonblank in *. split.
  - intros (H1 & ([H2 _] & [H3 _] & _) & H4 & H5 & s & (Ha & ->) & Hc & s' & Hs & Hm).
    destruct (proj1 Hr (ex_intro _ _ Hs)) as [Hv Hd]. constructor; try done.
    + by apply elem_of_list_to_set in Hc.
    + eapply list.Forall_impl; [exact Hm|]. intros x (? & Hx & _). split; [done|]. by rewrite elem_of_list_to_set in Hx.
  - intros [? ? ? ? Hc ? Hv Hd Hm]. destruct (proj2 Hr (conj Hv Hd)) as [s' Hs].
    split_and!; try done.
    { intros E. rewrite E in Hc. by apply not_elem_of_nil in Hc. }
    exists (list_to_set (ac_aliases c)). split; [done|]. split; [by apply elem_of_list_to_set|]. exists s'.
    split; [done|]. eapply list.Forall_impl; [exact Hm|]. intros x [? Hx]. by rewrite elem_of_list_to_set.
Qed.

(** The alias matrix is accepted exactly when it has the known schema and
    at least one model, no canonical model is repeated, and every model is named,
    lists distinct non-blank aliases among which its canonical name, at least one
    distinct provider route, and rejects no alias it lists. *)
Theorem alias_matrix_accepted_iff m :
  matrix_validate m = Ok tt ↔
    mm_schema m = ALIAS_MATRIX_SCHEMA ∧ mm_models m ≠ [] ∧ Forall alias_case_valid (mm_models m)
    ∧ NoDup (map ac_canonical_model (mm_models m)).
Proof.
  unfold matrix_validate. rewrite !guard_Ok, negb_false_iff, bool_decide_eq_true, is_nil_false, bind_Ok.
  setoid_rewrite (distinct_fold_Ok matrix_model alias_case_valid ac_canonical_model).
  - split; [intros (? & ? & s & (? & ? & _) & _); done |]. intros (? & ? & ? & ?). split_and!; try done.
    eexists. split; [|done]. by split_and!.
  - intros s c t. unfold matrix_model. by rewrite unit_bind_Ok, case_validate_Ok, insert_new_Ok.
Qed.

(** ** What a report without review means *)

Definition quiet (changes : list RegistryDiffChange) : Prop :=
  Forall (λ change, dc_review_required change = false) changes.

Lemma review_not_required report : review_required report = false ↔ quiet (dr_changes report).
Proof.
  unfold review_required, quiet. induction (dr_changes report) as [|c l IH]; cbn; [by split|].
  by rewrite orb_false_iff, IH, list.Forall_cons.
Qed.

Lemma quiet_app l k : quiet (l ++ k) ↔ quiet l ∧ quiet k.
Proof. apply Forall_app. Qed.
Lemma quiet_flat_map {A} (f : A → list RegistryDiffChange) l : quiet (flat_map f l) ↔ ∀ x, x ∈ l → quiet (f x).
Proof.
  induction l as [|a l IH]; cbn; [split; [set_solver|constructor]|]. rewrite quiet_app, IH. set_solver.
Qed.
Lemma quiet_flagged change : quiet [change] ↔ dc_review_required change = false.
Proof. unfold quiet. by rewrite Forall_singleton. Qed.

Lemma quiet_route_field {A} `{!EqDecision A} model route field (value : A → Value) (a b : A) :
  quiet (push_route_field_change model route field value a b true) ↔ a = b.
Proof.
  unfold push_route_field_change. case_bool_decide; [by split; [|intros; constructor]|].
  rewrite quiet_flagged. done.
Qed.

Lemma quiet_fields model r c : quiet (diff_route_fields model r c) → rd_route_id r = rd_route_id c → r = c.
Proof.
  unfold diff_route_fields. rewrite !quiet_app, !quiet_route_field. intros H Hid. destruct_and!.
  destruct r, c. cbn in *. by subst.
Qed.

Lemma nil_iff {A} (l : list A) : l = [] ↔ ∀ x, x ∉ l.
Proof. destruct l as [|a l]; [set_solver|]. split; [done|]. intros H. destruct (H a). constructor. Qed.

Lemma quiet_aliases added model l k : quiet (map (change_alias added model) (set_difference l k)) ↔ l ⊆ k.
Proof.
  transitivity (set_difference l k = []).
  { destruct (set_difference l k); cbn; [by split; [|intros; constructor]|].
    split; [|done]. by intros [? _]%list.Forall_cons. }
  unfold set_difference. rewrite nil_iff. setoid_rewrite sort_dedup_elem_of.
  setoid_rewrite list_elem_of_In. setoid_rewrite filter_In. setoid_rewrite negb_true_iff.
  setoid_rewrite <-not_true_iff_false. setoid_rewrite existsb_name. setoid_rewrite <-list_elem_of_In.
  split; [|set_solver]. intros H x Hx. destruct (decide (x ∈ k)); [done|]. destruct (H x). done.
Qed.

Lemma route_map_Some m id route : route_map m !! id = Some route → route ∈ rm_routes m ∧ rd_route_id route = id.
Proof.
  unfold route_map. induction (rm_routes m) as [|x l IH] using rev_ind; [cbn; by rewrite lookup_empty|].
  rewrite fold_left_app. cbn. rewrite lookup_insert_Some. set_solver.
Qed.

Lemma route_map_lookup m route :
  NoDup (map rd_route_id (rm_routes m)) → route ∈ rm_routes m → route_map m !! rd_route_id route = Some route.
Proof.
  unfold route_map. induction (rm_routes m) as [|x l IH] using rev_ind; [set_solver|].
  rewrite map_app, fold_left_app, list.NoDup_app. cbn. intros (Hn & Hd & _) [Hl| ->%list_elem_of_singleton]%elem_of_app;
    [|by rewrite lookup_insert_eq].
  rewrite lookup_insert_ne; [by apply IH|]. intros E. apply (Hd (rd_route_id route)); [|rewrite E; constructor].
  apply elem_map. eauto.
Qed.

(** Every route id of every model is used once. *)
Definition unique_ids (r : ProviderRegistry) : Prop :=
  ∀ id m, rg_models r !! id = Some m → NoDup (map rd_route_id (rm_routes m)).

Record model_same (m c : RegistryModel) : Prop := {
  ms_aliases alias : alias ∈ rm_aliases m ↔ alias ∈ rm_aliases c;
  ms_routes route : security_sensitive (rd_route_status route) = true →
    (route ∈ rm_routes m ↔ route ∈ rm_routes c);
}.

Lemma quiet_model candidate id m c :
  quiet (diff_model candidate (id, m)) → rg_models candidate !! id = Some c →
  NoDup (map rd_route_id (rm_routes m)) → NoDup (map rd_route_id (rm_routes c)) → model_same m c.
Proof.
  unfold diff_model. intros H Hc Nm Nc. rewrite Hc, !quiet_app, !quiet_aliases, !quiet_flat_map in H.
  destruct H as (_ & _ & Ha & Ha' & Hr & Hr'). constructor; [set_solver|]. intros route Hs. split; intros Hin.
  - pose proof (route_map_lookup m route Nm Hin) as Hl.
    specialize (Hr _ (proj2 (btree_iter_elem_of _ _ _) Hl)). unfold diff_current_route in Hr.
    destruct (route_map c !! rd_route_id route) as [route'|] eqn:E.
    + apply route_map_Some in E as [Hin' Hid]. by rewrite (quiet_fields _ _ _ Hr (eq_sym Hid)).
    + apply quiet_flagged in Hr. cbn in Hr. congruence.
  - pose proof (route_map_lookup c route Nc Hin) as Hl.
    destruct (route_map m !! rd_route_id route) as [route'|] eqn:E.
    + specialize (Hr _ (proj2 (btree_iter_elem_of _ _ _) E)). unfold diff_current_route in Hr. rewrite Hl in Hr.
      apply route_map_Some in E as [Hin' Hid]. by rewrite <-(quiet_fields _ _ _ Hr Hid).
    + specialize (Hr' _ (proj2 (btree_iter_elem_of _ _ _) Hl)). unfold diff_candidate_route in Hr'. rewrite E in Hr'.
      apply quiet_flagged in Hr'. cbn in Hr'. congruence.
Qed.

(** The route is offered for the request, as a route of that model. *)
Definition offered (r : ProviderRegistry) (provider : option string) (requested canonical : string)
    (route : RouteDefinition) : Prop :=
  ∃ m, (m, route) ∈ matching_routes r provider requested ∧ rm_canonical_model m = canonical.

Lemma offered_iff r provider requested canonical route :
  registry_valid r →
  offered r provider requested canonical route ↔
    ∃ m, rg_models r !! canonical = Some m ∧ route ∈ rm_routes m
      ∧ selectable_for_verification (rd_route_status route) = true
      ∧ (∀ p, provider = Some p → rd_provider route = p)
      ∧ (rd_provider_model route = requested ∨ canonical = requested
         ∨ (requested ∈ rm_aliases m ∧ alias_allowed_by_default (rd_alias_confidence route) = true)).
Proof.
  intros Hv. assert (∀ id m, rg_models r !! id = Some m → id = rm_canonical_model m) as Hkey
    by (intros id m Hid; apply (mv_key _ (gv_models r Hv _ _ Hid))).
  unfold offered. setoid_rewrite matching_routes_elem. setoid_rewrite route_selected_true.
  unfold by_canonical_name, by_alias. split.
  - intros (m & ((id & Hm) & Hin & Hs & Hp & Hn) & <-). exists m. rewrite <-(Hkey _ _ Hm) at 1. done.
  - intros (m & Hm & ? & ? & ? & ?). pose proof (Hkey _ _ Hm) as ->. exists m. split_and!; eauto.
Qed.

Lemma quiet_new_model current id c :
  quiet (diff_new_model current (id, c)) → rg_models current !! id = None →
  ∀ route, route ∈ rm_routes c → security_sensitive (rd_route_status route) = false.
Proof.
  unfold diff_new_model. intros H E. rewrite E in H. apply quiet_flagged in H. cbn in H. intros route Hin.
  apply not_true_iff_false. intros Hs. apply not_true_iff_false in H. destruct H.
  apply existsb_exists. exists route. by rewrite <-list_elem_of_In.
Qed.

Section Review.
Context {prim : Primitives}.

Record review_free (r c : ProviderRegistry) : Prop := {
  rf_kept id m : rg_models r !! id = Some m → ∃ m', rg_models c !! id = Some m' ∧ model_same m m';
  rf_new id m : rg_models c !! id = Some m → rg_models r !! id = None →
    ∀ route, route ∈ rm_routes m → security_sensitive (rd_route_status route) = false;
}.

Lemma diff_review_free r c report :
  diff_to r c = Ok report → review_required report = false → unique_ids r → unique_ids c →
  registry_valid r ∧ registry_valid c ∧ review_free r c.
Proof.
  unfold diff_to. intros H. inv_ok. rewrite !registry_validation_Ok in *. rewrite review_not_required. cbn [dr_changes].
  rewrite quiet_app, !quiet_flat_map. intros [Hm Hn] Ur Uc. split_and!; try done. constructor.
  - intros id m Hid. specialize (Hm _ (proj2 (btree_iter_elem_of _ _ _) Hid)).
    destruct (rg_models c !! id) as [m'|] eqn:E.
    + exists m'. split; [done|]. eapply quiet_model; eauto.
    + unfold diff_model in Hm. rewrite E in Hm. by apply quiet_flagged in Hm.
  - intros id m Hid Hr. specialize (Hn _ (proj2 (btree_iter_elem_of _ _ _) Hid)). by eapply quiet_new_model.
Qed.

Lemma review_free_offered r c provider requested canonical route :
  registry_valid r → registry_valid c → review_free r c →
  offered r provider requested canonical route ↔ offered c provider requested canonical route.
Proof.
  intros Vr Vc [K N]. rewrite !offered_iff by done. split.
  - intros (m & Hm & Hin & Hs & Hp & Hn). destruct (K _ _ Hm) as (m' & Hm' & [Sa Sr]). exists m'.
    split_and!; try done; [by apply Sr|]. by rewrite <-Sa.
  - intros (m' & Hm' & Hin & Hs & Hp & Hn). destruct (rg_models r !! canonical) as [m|] eqn:E.
    + destruct (K _ _ E) as (m'' & Hm'' & [Sa Sr]). simplify_eq. exists m.
      split_and!; try done; [by apply Sr|]. by rewrite Sa.
    + pose proof (N _ _ Hm' E route Hin) as Hf. unfold security_sensitive in Hf. congruence.
Qed.

Lemma route_not_weaker_refl r : route_not_weaker r r.
Proof. by constructor. Qed.

Lemma find_own_id m route :
  NoDup (map rd_route_id (rm_routes m)) → route ∈ rm_routes m →
  List.find (same_id route) (rm_routes m) = Some route.
Proof.
  intros Hn Hin. destruct (List.find _ _) as [route'|] eqn:E.
  - apply find_same_id in E as [Hin' Hid]. pose proof (route_map_lookup m route' Hn Hin') as H1.
    pose proof (route_map_lookup m route Hn Hin) as H2. rewrite Hid in H1. congruence.
  - apply list_elem_of_In, (List.find_none _ _ E) in Hin. unfold same_id in Hin. by case_bool_decide.
Qed.

Lemma review_free_kept r c :
  registry_valid r → registry_valid c → unique_ids c → review_free r c →
  version_le (rg_version r) (rg_version c) → registry_kept r c.
Proof.
  intros Vr Vc Uc [K _] Hv. constructor; [done|]. intros id m Hm. destruct (K _ _ Hm) as (m' & Hm' & [Sa Sr]).
  exists m'. split; [done|]. constructor.
  - pose proof (mv_key _ (gv_models r Vr _ _ Hm)). pose proof (mv_key _ (gv_models c Vc _ _ Hm')). cbn in *. congruence.
  - intros a. apply Sa.
  - intros route Hin Hs. exists route. split; [|apply route_not_weaker_refl].
    apply find_own_id; [by apply (Uc id)|]. by apply Sr.
Qed.

(** A difference report that asks for no review is safe to adopt: when
    route ids are not repeated within a model, every request is offered exactly
    the same routes of the same models before and after, and the update rule
    accepts the candidate unless its version is older. *)
Theorem review_free_update_safe r c report :
  diff_to r c = Ok report → review_required report = false → unique_ids r → unique_ids c →
  (∀ provider requested canonical route,
     offered r provider requested canonical route ↔ offered c provider requested canonical route)
  ∧ (version_le (rg_version r) (rg_version c) → registry_verify_update_to r c = Ok tt).
Proof.
  intros H Hq Ur Uc. destruct (diff_review_free r c report H Hq Ur Uc) as (Vr & Vc & F). split.
  - intros. by apply review_free_offered.
  - intros Hv. apply registry_update_Ok. split_and!; try done. by apply review_free_kept.
Qed.
End Review.

(** ** URL credentials *)

(** [find] of a byte. *)
Lemma position_byte_Some c s i :
  position (String c "") s = Some i → ∃ a b, s = a +:+ String c b ∧ String.length a = i ∧ no_byte c a.
Proof.
  revert i. induction s as [|x s IH]; intros i; cbn [position starts_with strip_prefix]; [done|].
  unfold starts_with. cbn [strip_prefix]. case_bool_decide as E.
  - intros [= <-]. subst. by exists "", s.
  - destruct (position _ s) as [j|]; [|done]. intros [= <-]. destruct (IH j eq_refl) as (a & b & -> & <- & Hn).
    exists (String x a), b. split_and!; try done. apply no_byte_cons. split; [congruence|done].
Qed.
Lemma position_byte_None c s : position (String c "") s = None ↔ no_byte c s.
Proof.
  induction s as [|x s IH]; [done|]. cbn [position]. unfold starts_with. cbn [strip_prefix].
  rewrite no_byte_cons. case_bool_decide as E; [subst; split; [done|naive_solver]|].
  destruct (position _ s); [split; [done|] | split; [|done]]; intros; naive_solver.
Qed.

Definition no_separator (s : string) : Prop := no_byte "/" s ∧ no_byte "?" s ∧ no_byte "#" s.
Definition at_separator (s : string) : Prop := ∃ c t, s = String c t ∧ (c = "/"%char ∨ c = "?"%char ∨ c = "#"%char).

(** One step of the search for the end of the authority. *)
Lemma cut_step c rest a t :
  rest = a +:+ t →
  ∃ a' u t', rest = a' +:+ t' ∧ a = a' +:+ u ∧ no_byte c a'
    ∧ String.length a' = match position (String c "") rest with
                         | Some index => Nat.min (String.length a) index
                         | None => String.length a
                         end
    ∧ (t' = t ∨ ∃ t'', t' = String c t'').
Proof.
  intros ->. destruct (position _ _) as [i|] eqn:E.
  - apply position_byte_Some in E as (x & y & E & <- & Hn). apply append_prefix in E as [(e & -> & Ht)|(e & -> & Ht & _)].
    + exists x, e, (String c y). rewrite append_length. split_and!; try done; [by rewrite Ht, append_assoc|lia|eauto].
    + exists a, "", t. rewrite append_nil_r, append_length. apply no_byte_app in Hn as [? _]. split_and!; try done; [lia|eauto].
  - apply position_byte_None, no_byte_app in E as [? _]. exists a, "", t. rewrite append_nil_r. split_and!; eauto.
Qed.

Lemma url_authority_cut scheme rest :
  position "://" (scheme +:+ "://" +:+ rest) = Some (String.length scheme) →
  ∃ a t, rest = a +:+ t ∧ no_separator a ∧ (t = "" ∨ at_separator t)
    ∧ url_authority_bounds (scheme +:+ "://" +:+ rest)
      = Some ((String.length scheme + 3)%nat, (String.length scheme + 3 + String.length a)%nat).
Proof.
  intros Hp. unfold url_authority_bounds. rewrite Hp. cbn [fold_left].
  replace (slice _ (String.length scheme + 3) _) with rest.
  2:{ pose proof (slice_middle (scheme +:+ "://") rest "") as E. rewrite !append_nil_r, !append_length, append_assoc in E.
      rewrite !append_length, Nat.add_assoc. symmetry. exact E. }
  destruct (cut_step "/" rest rest "") as (a1 & u1 & t1 & R1 & _ & N1 & L1 & T1); [by rewrite append_nil_r|].
  destruct (cut_step "?" rest a1 t1 R1) as (a2 & u2 & t2 & R2 & -> & N2 & L2 & T2).
  destruct (cut_step "#" rest a2 t2 R2) as (a3 & u3 & t3 & R3 & -> & N3 & L3 & T3).
  apply no_byte_app in N1 as [[N1 _]%no_byte_app _], N2 as [N2 _].
  exists a3, t3. split; [done|]. split; [done|]. split; [|by rewrite L3, L2, L1].
  unfold at_separator. destruct T3 as [->|[? ->]]; [destruct T2 as [->|[? ->]]; [destruct T1 as [->|[? ->]]|]|]; eauto 10.
Qed.

(** The authority stops at the first separator: what precedes a byte of it is
    separator-free, and a separator-free start of the rest lies inside it. *)
Lemma authority_at a t :
  no_separator a → t = "" ∨ at_separator t →
  no_byte "@" a ↔ ¬ ∃ user rest, a +:+ t = user +:+ String "@" rest ∧ no_separator user.
Proof.
  intros [Ns1 [Ns2 Ns3]] Ht. split.
  - intros Hn (user & rest & E & Hu). apply append_prefix in E as [(e & -> & E)|(e & -> & E & He)].
    + destruct e as [|c e]; [|injection E as <- ->; apply no_byte_app in Hn as [_ Hn]; by apply no_byte_cons in Hn as [? _]].
      cbn in E. destruct Ht as [->|(c & t' & -> & Hc)]; [done|]. injection E as <- _. destruct_or! Hc; done.
    + destruct e as [|c e]; [done|]. destruct Ht as [->|(c' & t' & -> & Hc)]; [done|]. injection E as -> _.
      destruct Hu as (H1 & H2 & H3). apply no_byte_app in H1 as [_ H1], H2 as [_ H2], H3 as [_ H3].
      apply no_byte_cons in H1 as [H1 _], H2 as [H2 _], H3 as [H3 _]. by destruct_or! Hc.
  - intros H. apply position_byte_None. destruct (position _ a) as [i|] eqn:E; [|done]. exfalso. apply H.
    apply position_byte_Some in E as (x & y & -> & _ & _). exists x, (y +:+ t).
    apply no_byte_app in Ns1 as [? _], Ns2 as [? _], Ns3 as [? _]. split; [by rewrite append_assoc|done].
Qed.

(** A URL is rejected for credentials exactly when an at sign follows its
    first [://] before any slash, question mark or hash, that is, when its
    authority has a user-info part. *)
Theorem url_credentials_iff url :
  url_authority_has_credentials url = true ↔
    ∃ scheme user rest, position "://" url = Some (String.length scheme)
      ∧ url = scheme +:+ "://" +:+ user +:+ String "@" rest ∧ no_separator user.
Proof.
  destruct (position "://" url) as [i|] eqn:E.
  2:{ unfold url_authority_has_credentials, url_authority_bounds. rewrite E. split; [done|naive_solver]. }
  pose proof E as (scheme & rest & -> & <-)%position_Some.
  destruct (url_authority_cut scheme rest E) as (a & t & -> & Hn & Ht & Hb).
  transitivity (¬ no_byte "@" a).
  { unfold url_authority_has_credentials. rewrite Hb.
    pose proof (slice_middle (scheme +:+ "://") a t) as Hs. rewrite !append_length, append_assoc in Hs. cbn [String.length] in Hs.
    rewrite Hs, <-position_byte_None. by destruct (position _ a). }
  rewrite (authority_at a t Hn Ht). split.
  - intros H. destruct (position "@" a) as [i|] eqn:Ep.
    + apply position_byte_Some in Ep as (x & y & -> & _ & _). exists scheme, x, (y +:+ t).
      destruct Hn as (H1 & H2 & H3). apply no_byte_app in H1 as [? _], H2 as [? _], H3 as [? _].
      split_and!; try done. by rewrite append_assoc.
    + destruct H. by apply (authority_at a t Hn Ht), position_byte_None.
  - intros (s & user & rest & Hl & Hu & Hsep) Hno. apply Hno. exists user, rest. split; [|done].
    injection Hl as Hl. apply append_inj_length in Hu as [-> Hu]; [|done].
    by apply append_inj_length in Hu as [_ Hu].
Qed.

(** ** Concrete reports *)

Definition unique_ids_check (r : ProviderRegistry) : bool :=
  forallb (λ '(_, m), bool_decide (NoDup (map rd_route_id (rm_routes m)))) (btree_iter (rg_models r)).
Lemma unique_ids_checked r : unique_ids_check r = true → unique_ids r.
Proof.
  unfold unique_ids_check. rewrite forallb_forall. intros H id m Hm.
  specialize (H (id, m)). rewrite <-list_elem_of_In, btree_iter_elem_of in H. by apply H, bool_decide_eq_true in Hm.
Qed.

Definition registry_3 : ProviderRegistry := sample_registry "2026.11"
  [{| rm_canonical_model := "llama"; rm_display_name := "Llama"; rm_family := "llm";
      rm_aliases := ["l70"; "llama-70b"];
      rm_routes := [sample_definition "r3" "chutes" "llama3" NewUnverified FreshPerSession;
                    sample_definition "r1" "tinfoil" "llama3" Active FreshPerSession] |}].

Lemma review_free_update_safe_witness : registry_verify_update_to registry_2 registry_3 = Ok tt.
Proof.
  destruct (is_ok_inv (diff_to registry_2 registry_3)) as [report E]; [vm_compute; reflexivity|].
  assert (review_required report = false) as Hq.
  { assert (fmap review_required (diff_to registry_2 registry_3) = Ok false) as Hf by (vm_compute; reflexivity).
    rewrite E in Hf. by injection Hf. }
  apply (proj2 (review_free_update_safe registry_2 registry_3 report E Hq
    (unique_ids_checked registry_2 ltac:(vm_compute; reflexivity))
    (unique_ids_checked registry_3 ltac:(vm_compute; reflexivity)))).
  vm_compute. discriminate.
Defined.

(** Nothing rejects a repeated route id, and the report keys routes by id:
    an update that changes the first of two routes with one id is reported as no
    change at all, is accepted, and changes the route a request is given. *)
Theorem repeated_route_id_hides_change :
  ∃ r c, fmap dr_changes (diff_to r c) = Ok [] ∧ registry_verify_update_to r c = Ok tt
    ∧ option_map (λ p, rd_freshness_class p.2) (find_route r None "llama") = Some FreshPerRequest
    ∧ option_map (λ p, rd_freshness_class p.2) (find_route c None "llama") = Some CachedBinding.
Proof.
  exists (sample_registry "1" [sample_model "llama" []
            [sample_definition "r" "tinfoil" "l" Active FreshPerRequest;
             sample_definition "r" "tinfoil" "l" Active FreshPerRequest]]),
    (sample_registry "1" [sample_model "llama" []
            [sample_definition "r" "tinfoil" "l" Active CachedBinding;
             sample_definition "r" "tinfoil" "l" Active FreshPerRequest]]).
  vm_compute. done.
Qed.

Example url_with_user : url_authority_has_credentials "https://user:pw@api.example/v1" = true.
Proof. reflexivity. Qed.
Example url_with_at_in_path : url_authority_has_credentials "https://api.example/v1/@me" = false.
Proof. reflexivity. Qed.
