(* ===== verification/ProviderRequest.v ===== *)
(** * Provider requests

    providers/provider.rs: provider errors and what they say about a dispatched
    request, the store of fetch-time adapter state, and the encrypted forms of a
    provider request (the fixture keystream and the SDK's app-level end-to-end
    envelope). X25519, HKDF, ChaCha20-Poly1305, base64 and the JSON text are
    parameters with the laws the code relies on. *)

From Stdlib Require Import Ascii String ZArith Lia.
From stdpp Require Import base gmap strings list sorting numbers.
From S2P Require Import Prelude RustStr Errors Collections Canonical JsonInjective Policy Verdict ReferenceValues Registry.

Open Scope string_scope.

(** ** Errors *)

Inductive ProviderError :=
| Unavailable (provider : string)
| Adapter (message : string)
| Compatibility (message : string)
| KeyRotation (route_id message : string)
| Http (message : string)
| HttpStatus (status : Z) (message : string)
| JsonError (message : string).

Abbreviation ProviderResult := (result ProviderError).

Definition is_key_rotation (e : ProviderError) : bool :=
  match e with KeyRotation _ _ => true | _ => false end.

Definition is_retryable_outage (e : ProviderError) : bool :=
  match e with
  | Unavailable _ | Http _ => true
  | HttpStatus status _ => existsb (Z.eqb status) [408; 425; 429; 500; 502; 503; 504]%Z
  | Adapter _ | Compatibility _ | KeyRotation _ _ | JsonError _ => false
  end.

Inductive DispatchOutcome := NotDispatched | Rejected (status : Z) | OutcomeUnknown.

Definition chat_dispatch_outcome (e : ProviderError) : DispatchOutcome :=
  match e with
  | Unavailable _ | KeyRotation _ _ => NotDispatched
  | HttpStatus status _ => Rejected status
  | Http _ | Adapter _ | Compatibility _ | JsonError _ => OutcomeUnknown
  end.
Definition embeddings_dispatch_outcome (e : ProviderError) : DispatchOutcome := chat_dispatch_outcome e.

Definition allows_route_fallback (o : DispatchOutcome) : bool :=
  match o with
  | NotDispatched => true
  | Rejected status => (status =? 429)%Z || (status =? 503)%Z
  | OutcomeUnknown => false
  end.

(** ** Requests *)

Inductive ProviderRequestConfidentiality := Plaintext | FixtureEncrypted | SdkEncrypted | AdapterManagedEncrypted.
#[export] Instance ProviderRequestConfidentiality_eq_dec : EqDecision ProviderRequestConfidentiality.
Proof. solve_decision. Defined.

Record SdkAppE2eeClientContext := { cx_request_id : string; cx_response_key : string }.

Record ProviderChatRequest := {
  pq_body : Value;
  pq_confidentiality : ProviderRequestConfidentiality;
  pq_sdk_app_e2ee_context : option SdkAppE2eeClientContext;
  pq_verified_evidence_digest : option string;
}.

Definition with_confidentiality (body : Value) (c : ProviderRequestConfidentiality) : ProviderChatRequest := {|
  pq_body := body; pq_confidentiality := c; pq_sdk_app_e2ee_context := None; pq_verified_evidence_digest := None |}.
Definition adapter_managed_encrypt (body : Value) : ProviderChatRequest :=
  with_confidentiality body AdapterManagedEncrypted.
Definition with_verified_evidence_digest (digest : string) (r : ProviderChatRequest) : ProviderChatRequest := {|
  pq_body := pq_body r; pq_confidentiality := pq_confidentiality r;
  pq_sdk_app_e2ee_context := pq_sdk_app_e2ee_context r; pq_verified_evidence_digest := Some digest |}.

Definition verified_digest_for_request (request : ProviderChatRequest) : ProviderResult string :=
  ok_or (pq_verified_evidence_digest request)
    (Compatibility "route {} request carries no verified evidence digest; verify evidence before chat").

(** ** The evidence-state store *)

Section Store.
Context {T : Type}.

Abbreviation StoreKey := (string * string)%type.
Record EvidenceStateStore := { es_entries : gmap StoreKey (Z * T); es_next_sequence : Z }.

Definition MAX_ENTRIES : nat := 256.
Definition store_new : EvidenceStateStore := {| es_entries := ∅; es_next_sequence := 0 |}.

(** [BTreeMap<(String, String), _>] iterates in the order of its keys. *)
Definition store_key_cmp (p q : StoreKey * (Z * T)) : comparison :=
  cmp_then (str_cmp p.1.1 q.1.1) (str_cmp p.1.2 q.1.2).
Definition store_iter (entries : gmap StoreKey (Z * T)) : list (StoreKey * (Z * T)) :=
  sort_by store_key_cmp (map_to_list entries).

(** [min_by_key]: the first entry of least sequence. *)
Definition older (e b : StoreKey * (Z * T)) : bool := (e.2.1 <? b.2.1)%Z.
Definition oldest_entry (entries : gmap StoreKey (Z * T)) : option (StoreKey * (Z * T)) :=
  min_by older (store_iter entries).

Fixpoint evict (fuel : nat) (entries : gmap StoreKey (Z * T)) : gmap StoreKey (Z * T) :=
  match fuel with
  | O => entries
  | S fuel =>
      if (MAX_ENTRIES <? size entries)%nat
      then match oldest_entry entries with
           | None => entries
           | Some oldest => evict fuel (delete oldest.1 entries)
           end
      else entries
  end.

Definition u64_modulus : Z := 18446744073709551616.

Definition store_insert (route_id evidence_digest : string) (value : T) (store : EvidenceStateStore)
    : EvidenceStateStore :=
  let sequence := es_next_sequence store in
  let entries := <[(route_id, evidence_digest) := (sequence, value)]> (es_entries store) in
  {| es_entries := evict (size entries) entries; es_next_sequence := ((sequence + 1) mod u64_modulus)%Z |}.

Definition store_get (route_id evidence_digest : string) (store : EvidenceStateStore) : option T :=
  snd <$> es_entries store !! (route_id, evidence_digest).

(** [lookup_for_request], and [lookup_for_request_mut] up to the mutability of
    what it returns. *)
Definition lookup_for_request (route : RouteDefinition) (request : ProviderChatRequest)
    (store : EvidenceStateStore) : ProviderResult T :=
  digest ← verified_digest_for_request request;
  ok_or (store_get (rd_route_id route) digest store)
    (KeyRotation (rd_route_id route)
       "no {state_name} captured for the verified evidence digest; refetch evidence").

(** *** Lemmas *)

Lemma store_iter_elem entries k e : (k, e) ∈ store_iter entries ↔ entries !! k = Some e.
Proof. unfold store_iter, sort_by. rewrite merge_sort_Permutation. apply elem_of_map_to_list. Qed.
Lemma oldest_None entries : oldest_entry entries = None → entries = ∅.
Proof.
  intros H%min_by_None. apply map_eq. intros k. rewrite lookup_empty. destruct (entries !! k) as [e|] eqn:E; [|done].
  apply store_iter_elem in E. rewrite H in E. by apply elem_of_nil in E.
Qed.

Lemma oldest_Some entries k s v :
  oldest_entry entries = Some (k, (s, v)) →
  entries !! k = Some (s, v) ∧ ∀ k' s' v', entries !! k' = Some (s', v') → (s ≤ s')%Z.
Proof.
  intros [Hin%store_iter_elem Hmin]%(min_by_Some older (order := number_order _)). split; [done|].
  intros k' s' v' H%store_iter_elem. apply Hmin in H. by apply Z.ltb_ge in H.
Qed.

(** The newest entry survives, and nothing else changes but by going. *)
Lemma evict_spec fuel entries key sequence value :
  (size entries ≤ fuel)%nat → entries !! key = Some (sequence, value) →
  (∀ k s v, entries !! k = Some (s, v) → k ≠ key → (s < sequence)%Z) →
  (size (evict fuel entries) ≤ MAX_ENTRIES)%nat
  ∧ evict fuel entries !! key = Some (sequence, value)
  ∧ evict fuel entries ⊆ entries.
Proof.
  revert entries. induction fuel as [|fuel IH]; intros entries Hf Hk Hn; cbn [evict].
  - unfold MAX_ENTRIES. split; [lia|done].
  - destruct (Nat.ltb_spec MAX_ENTRIES (size entries)) as [Hs|Hs]; [|done].
    destruct (oldest_entry entries) as [[k [s v]]|] eqn:E.
    2:{ apply oldest_None in E as ->. done. }
    apply oldest_Some in E as [Ek Hmin]. cbn [fst].
    assert (k ≠ key) as Hne.
    { intros ->. rewrite Hk in Ek. injection Ek as <- <-.
      assert (∃ k' p, entries !! k' = Some p ∧ k' ≠ key) as (k' & [s' v'] & H' & Hne).
      { destruct (decide (delete key entries = ∅)) as [Ee|Ee].
        - exfalso. apply (f_equal size) in Ee. rewrite map_size_delete_Some, map_size_empty in Ee by eauto.
          unfold MAX_ENTRIES in Hs. lia.
        - apply map_choose in Ee as (k' & p & H'). apply lookup_delete_Some in H' as [? ?]. eauto. }
      specialize (Hmin _ _ _ H'). specialize (Hn _ _ _ H' Hne). lia. }
    destruct (IH (delete k entries)) as (H1 & H2 & H3).
    + rewrite map_size_delete_Some by eauto. lia.
    + by rewrite lookup_delete_ne.
    + intros k' s' v' [_ H']%lookup_delete_Some Hne'. by apply (Hn k' s' v').
    + split_and!; try done. etrans; [exact H3|]. apply delete_subseteq.
Qed.

(** What the store keeps while its sequence has not wrapped. *)
Record store_ok (store : EvidenceStateStore) : Prop := {
  so_size : (size (es_entries store) ≤ MAX_ENTRIES)%nat;
  so_next : (0 ≤ es_next_sequence store)%Z;
  so_sequences k s v : es_entries store !! k = Some (s, v) → (0 ≤ s < es_next_sequence store)%Z;
}.

Definition inserts (l : list (string * string * T)) : EvidenceStateStore :=
  fold_left (λ store '(r, d, v), store_insert r d v store) l store_new.

Lemma insert_ok route_id digest value store :
  store_ok store → (es_next_sequence store + 1 < u64_modulus)%Z →
  store_ok (store_insert route_id digest value store)
  ∧ es_next_sequence (store_insert route_id digest value store) = (es_next_sequence store + 1)%Z
  ∧ store_get route_id digest (store_insert route_id digest value store) = Some value
  ∧ ∀ r d v, store_get r d (store_insert route_id digest value store) = Some v →
      (r, d, v) = (route_id, digest, value) ∨ store_get r d store = Some v.
Proof.
  intros [Hs Hn Hq] Hw. unfold store_insert, store_get. cbn [es_entries es_next_sequence].
  rewrite Z.mod_small by lia.
  set (entries := <[(route_id, digest) := (es_next_sequence store, value)]> (es_entries store)).
  destruct (evict_spec (size entries) entries (route_id, digest) (es_next_sequence store) value) as (H1 & H2 & H3).
  - done.
  - apply lookup_insert_eq.
  - intros k s v H Hne. apply lookup_insert_Some in H as [[? _]|[_ H]]; [by subst|]. apply Hq in H. lia.
  - assert (∀ k p, evict (size entries) entries !! k = Some p →
      (k = (route_id, digest) ∧ p = (es_next_sequence store, value)) ∨ es_entries store !! k = Some p) as Hcase.
    { intros k p H. apply (lookup_weaken _ entries) in H; [|done].
      apply lookup_insert_Some in H as [[<- <-]|[_ H]]; auto. }
    split_and!.
    + constructor; cbn; [done|lia|]. intros k s v [[_ [= -> _]]|H]%Hcase; [lia|]. apply Hq in H. lia.
    + done.
    + by rewrite H2.
    + intros r d v H. destruct (evict _ _ !! (r, d)) as [[s w]|] eqn:E; [|done]. injection H as <-.
      apply Hcase in E as [[[= -> ->] [= -> ->]]|E]; [by left|right]. by rewrite E.
Qed.

Lemma inserts_ok l :
  (Z.of_nat (length l) < u64_modulus)%Z →
  store_ok (inserts l) ∧ es_next_sequence (inserts l) = Z.of_nat (length l)
  ∧ ∀ r d v, store_get r d (inserts l) = Some v → (r, d, v) ∈ l.
Proof.
  unfold inserts. induction l as [|[[r d] v] l IH] using rev_ind; intros Hl.
  - split_and!; [|done|].
    + constructor; cbn; [apply Nat.le_0_l|done|]. intros k s v. by rewrite lookup_empty.
    + intros r d v. unfold store_get. cbn. by rewrite lookup_empty.
  - rewrite length_app in Hl |- *. rewrite fold_left_app. cbn [fold_left length] in *.
    destruct IH as (Hok & Hn & Hg); [lia|].
    destruct (insert_ok r d v _ Hok) as (H1 & H2 & H3 & H4); [lia|]. split_and!; [done|lia|].
    intros r' d' v' [[= -> -> ->]|H]%H4; [set_solver|]. apply Hg in H. set_solver.
Qed.

(** Whatever was captured before, the store holds at most 256 entries, the
    state captured last is there for its route and evidence digest, and a request
    that carries a verified digest is given only state captured under that very
    route and digest: evicted or overwritten evidence yields a key-rotation
    error, and a request without a verified digest is refused. *)
Theorem evidence_store_binds l route_id digest value route request :
  (Z.of_nat (length l) + 1 < u64_modulus)%Z →
  let store := inserts (l ++ [(route_id, digest, value)]) in
  (size (es_entries store) ≤ MAX_ENTRIES)%nat
  ∧ store_get route_id digest store = Some value
  ∧ match lookup_for_request route request store with
    | Ok v => ∃ d, pq_verified_evidence_digest request = Some d
                 ∧ (rd_route_id route, d, v) ∈ (l ++ [(route_id, digest, value)])%list
    | Err e => match pq_verified_evidence_digest request with
               | None => is_key_rotation e = false
               | Some d => is_key_rotation e = true ∧ store_get (rd_route_id route) d store = None
               end
    end.
Proof.
  intros Hl store. assert (store = store_insert route_id digest value (inserts l)) as Es.
  { subst store. unfold inserts. by rewrite fold_left_app. }
  destruct (inserts_ok l) as (Hok & Hn & _); [lia|].
  destruct (insert_ok route_id digest value _ Hok) as ([Hs _ _] & _ & Hg & _); [lia|].
  destruct (inserts_ok (l ++ [(route_id, digest, value)])) as (_ & _ & Hall); [rewrite length_app; cbn; lia|].
  fold store in Hall. rewrite <-Es in Hs, Hg. split; [done|]. split; [done|].
  unfold lookup_for_request, verified_digest_for_request.
  destruct (pq_verified_evidence_digest request) as [d|]; cbn; [|done].
  destruct (store_get (rd_route_id route) d store) as [v|] eqn:E; cbn; [|done]. exists d. split; [done|]. by apply Hall.
Qed.
End Store.
Arguments EvidenceStateStore : clear implicits.

(** ** Codecs and cryptography *)

Class RequestCrypto := {
  (** [STANDARD] base64. *)
  standard_encode : string → string;
  standard_decode : string → option string;
  (** [serde_json::to_vec] and [from_slice] of a [Value]. *)
  value_to_vec : Value → option string;
  value_of_slice : string → option Value;
  (** X25519: the public key of a secret, and the shared secret. *)
  x25519_public : string → string;
  diffie_hellman : string → string → string;
  (** [Hkdf::<Sha256>::new(Some(salt), ikm).expand(info, 32 bytes)]. *)
  hkdf_expand : string → string → string → option string;
  (** ChaCha20-Poly1305 with associated data. *)
  aead_encrypt : string → string → string → string → option string;
  aead_decrypt : string → string → string → string → option string;
}.

(** What the code relies on. *)
Class RequestCryptoLaws `{!RequestCrypto} : Prop := {
  standard_roundtrip s : standard_decode (standard_encode s) = Some s;
  value_roundtrip v s : value_to_vec v = Some s → ∃ w, value_of_slice s = Some w ∧ value_equiv v w;
  x25519_agree a b : diffie_hellman a (x25519_public b) = diffie_hellman b (x25519_public a);
  x25519_public_length a : String.length (x25519_public a) = 32%nat;
  aead_roundtrip key nonce aad msg c :
    aead_encrypt key nonce aad msg = Some c → aead_decrypt key nonce aad c = Some msg;
}.

Definition json_error : ProviderError := JsonError "{error}".

(** A member of an object, as the derived deserialisers read it. *)
Definition string_field (key : string) (v : Value) : ProviderResult string :=
  match v with
  | VObject entries =>
      match List.find (λ e, fst e =?= key) entries with
      | Some (_, VString s) => Ok s
      | _ => Err json_error
      end
  | _ => Err json_error
  end.

Definition decode_fixed_base64 `{!RequestCrypto} (n : nat) (value : string) : ProviderResult string :=
  bytes ← ok_or (standard_decode value) (Adapter "{field} is not base64: {error}");
  bail (Adapter "{field} must be {N} bytes, got {}") when negb (String.length bytes =? n)%nat;
  Ok bytes.

Definition bytes_hex `{!Primitives} (bytes : string) : string := lower_hex (sha256 bytes).

(** ** Fixture encryption *)

Definition FIXTURE_ENCRYPTED_CHAT_SCHEMA := "confidential-inference.fixture-encrypted-chat.v1".

Record FixtureEncryptedChatEnvelope := {
  fe_schema : string; fe_route_id : string; fe_provider : string; fe_provider_model : string;
  fe_plaintext_sha256 : string; fe_ciphertext_base64 : string;
}.

Definition fixture_envelope_value (e : FixtureEncryptedChatEnvelope) : Value :=
  VObject [("schema", VString (fe_schema e)); ("route_id", VString (fe_route_id e));
           ("provider", VString (fe_provider e)); ("provider_model", VString (fe_provider_model e));
           ("plaintext_sha256", VString (fe_plaintext_sha256 e));
           ("ciphertext_base64", VString (fe_ciphertext_base64 e))].
Definition fixture_envelope_from_value (v : Value) : ProviderResult FixtureEncryptedChatEnvelope :=
  schema ← string_field "schema" v; route_id ← string_field "route_id" v;
  provider ← string_field "provider" v; provider_model ← string_field "provider_model" v;
  digest ← string_field "plaintext_sha256" v; ciphertext ← string_field "ciphertext_base64" v;
  Ok {| fe_schema := schema; fe_route_id := route_id; fe_provider := provider;
        fe_provider_model := provider_model; fe_plaintext_sha256 := digest; fe_ciphertext_base64 := ciphertext |}.

Definition fixture_validate_route (e : FixtureEncryptedChatEnvelope) (route : RouteDefinition)
    : ProviderResult unit :=
  bail (Adapter "unsupported fixture chat envelope schema {}")
    when negb (fe_schema e =?= FIXTURE_ENCRYPTED_CHAT_SCHEMA);
  bail (Adapter "fixture chat envelope route metadata does not match route")
    when negb (fe_route_id e =?= rd_route_id route) || negb (fe_provider e =?= rd_provider route)
         || negb (fe_provider_model e =?= rd_provider_model route);
  Ok tt.

(** [counter.to_le_bytes()] of a [u64]. *)
Fixpoint le_bytes (n : nat) (z : Z) : string :=
  match n with
  | O => ""
  | S n => String (ascii_of_N (Z.to_N (Z.land z 255))) (le_bytes n (Z.shiftr z 8))
  end.

Definition xor_byte (a b : ascii) : ascii := ascii_of_N (N.lxor (code a) (code b)).

(** The bytes of the input that meet a byte of the block, and the rest. *)
Fixpoint xor_block (input block : string) : string * string :=
  match input, block with
  | String a input, String b block =>
      let '(out, rest) := xor_block input block in (String (xor_byte a b) out, rest)
  | _, _ => ("", input)
  end.

Section FixtureCipher.
Context {prim : Primitives}.

Definition fixture_block (route : RouteDefinition) (counter : Z) : string :=
  sha256 ("confidential-inference.fixture-chat-encryption.v1" +:+ rd_route_id route +:+ rd_provider route
          +:+ rd_provider_model route +:+ le_bytes 8 counter).

Fixpoint fixture_xor_loop (fuel : nat) (route : RouteDefinition) (counter : Z) (input : string) : string :=
  match fuel with
  | O => ""
  | S fuel =>
      match input with
      | "" => ""
      | _ =>
          let '(out, rest) := xor_block input (fixture_block route counter) in
          out +:+ fixture_xor_loop fuel route (saturating_add counter 1) rest
      end
  end.
(** One iteration per byte is enough: a block is never empty. *)
Definition fixture_xor (route : RouteDefinition) (input : string) : string :=
  fixture_xor_loop (String.length input) route 0 input.

Context {crypto : RequestCrypto}.

Definition fixture_encrypt (route : RouteDefinition) (body : Value) : ProviderResult ProviderChatRequest :=
  plaintext ← ok_or (value_to_vec body) json_error;
  let ciphertext := fixture_xor route plaintext in
  let envelope := {| fe_schema := FIXTURE_ENCRYPTED_CHAT_SCHEMA; fe_route_id := rd_route_id route;
                     fe_provider := rd_provider route; fe_provider_model := rd_provider_model route;
                     fe_plaintext_sha256 := bytes_hex plaintext;
                     fe_ciphertext_base64 := standard_encode ciphertext |} in
  Ok (with_confidentiality (fixture_envelope_value envelope) FixtureEncrypted).

Definition fixture_decrypted_body (request : ProviderChatRequest) (route : RouteDefinition)
    : ProviderResult Value :=
  bail (Adapter "request is not fixture-encrypted")
    when negb (pq_confidentiality request =?= FixtureEncrypted);
  envelope ← fixture_envelope_from_value (pq_body request);
  _ ← fixture_validate_route envelope route;
  ciphertext ← ok_or (standard_decode (fe_ciphertext_base64 envelope))
                 (Adapter "fixture ciphertext is not base64: {error}");
  let plaintext := fixture_xor route ciphertext in
  bail (Adapter "fixture ciphertext digest did not match envelope")
    when negb (bytes_hex plaintext =?= fe_plaintext_sha256 envelope);
  ok_or (value_of_slice plaintext) json_error.

Context {sha_laws : Sha256Laws} {laws : RequestCryptoLaws}.

Lemma xor_byte_involutive a b : xor_byte (xor_byte a b) b = a.
Proof.
  unfold xor_byte, code.
  assert (N.lxor (N_of_ascii a) (N_of_ascii b) < 256)%N as Hb.
  { destruct (N.eq_dec (N.lxor (N_of_ascii a) (N_of_ascii b)) 0%N) as [->|Hz]; [done|].
    apply N.log2_lt_pow2 with (b := 8%N); [lia|].
    pose proof (N.log2_lxor (N_of_ascii a) (N_of_ascii b)) as Hl.
    pose proof (N_ascii_bounded a) as Ha. pose proof (N_ascii_bounded b) as Hb.
    assert (∀ n, (n < 256)%N → (N.log2 n < 8)%N) as Hlog.
    { intros n Hn. destruct (N.eq_dec n 0%N) as [->|]; [done|]. apply N.log2_lt_pow2; [lia|done]. }
    apply Hlog in Ha, Hb. lia. }
  rewrite N_ascii_embedding by done. rewrite N.lxor_assoc, N.lxor_nilpotent, N.lxor_0_r. apply ascii_N_embedding.
Qed.

Lemma xor_block_involutive input block out rest tail :
  xor_block input block = (out, rest) →
  String.length rest = String.length tail →
  ∃ out', xor_block (out +:+ tail) block = (out', tail) ∧ input = out' +:+ rest.
Proof.
  revert block out rest. induction input as [|a input IH]; intros block out rest.
  - cbn. intros [= <- <-] Hl. destruct tail; [|done]. by exists "".
  - destruct block as [|b block]; cbn.
    + intros [= <- <-] _. exists "". split; [by destruct tail|done].
    + destruct (xor_block input block) as [o r] eqn:E. intros [= <- <-] Hl.
      destruct (IH block o r E Hl) as (out' & E' & ->). exists (String a out').
      rewrite append_cons. cbn. rewrite E'. split; [by rewrite xor_byte_involutive|by rewrite append_cons].
Qed.
Lemma xor_block_shorter input block out rest :
  xor_block input block = (out, rest) → block ≠ "" → input ≠ "" →
  (String.length rest < String.length input)%nat ∧ String.length input = (String.length out + String.length rest)%nat.
Proof.
  intros H Hb Hi. assert (String.length input = (String.length out + String.length rest)%nat) as Hl.
  { clear Hb Hi. revert block out rest H. induction input as [|a input IH]; intros [|b block] out rest; cbn;
      try (by intros [= <- <-]).
    destruct (xor_block input block) as [o r] eqn:E. intros [= <- <-]. cbn. by rewrite (IH _ _ _ E). }
  split; [|done]. rewrite Hl. destruct input as [|a input], block as [|b block]; try done. cbn in H.
  destruct (xor_block input block). injection H as <- <-. cbn. lia.
Qed.

Lemma block_nonempty route counter : fixture_block route counter ≠ "".
Proof. intros E. pose proof (sha256_length (Sha256Laws:=sha_laws)) as L. unfold fixture_block in E.
  specialize (L ("confidential-inference.fixture-chat-encryption.v1" +:+ rd_route_id route +:+ rd_provider route
          +:+ rd_provider_model route +:+ le_bytes 8 counter)). by rewrite E in L. Qed.

Lemma fixture_loop_length fuel route counter input :
  (String.length input ≤ fuel)%nat → String.length (fixture_xor_loop fuel route counter input) = String.length input.
Proof.
  revert counter input. induction fuel as [|fuel IH]; intros counter input Hf; [by destruct input; cbn in *; [|lia]|].
  destruct input as [|a input]; [done|]. cbn [fixture_xor_loop].
  destruct (xor_block (String a input) _) as [out rest] eqn:E.
  apply xor_block_shorter in E as [Hs Hl]; [|apply block_nonempty|done].
  rewrite append_length, IH by lia. lia.
Qed.

Lemma fixture_loop_involutive fuel route counter input :
  (String.length input ≤ fuel)%nat →
  fixture_xor_loop fuel route counter (fixture_xor_loop fuel route counter input) = input.
Proof.
  revert counter input. induction fuel as [|fuel IH]; intros counter input Hf; [by destruct input; cbn in *; [|lia]|].
  destruct input as [|a input]; [done|]. cbn [fixture_xor_loop].
  destruct (xor_block (String a input) _) as [out rest] eqn:E.
  pose proof (xor_block_shorter _ _ _ _ E (block_nonempty _ _) ltac:(done)) as [Hs Hl].
  destruct (xor_block_involutive _ _ _ _ (fixture_xor_loop fuel route (saturating_add counter 1) rest) E) as (out' & E' & Ei).
  { by rewrite fixture_loop_length by lia. }
  rewrite E'. destruct (out +:+ fixture_xor_loop fuel route (saturating_add counter 1) rest) as [|c t] eqn:En.
  { apply (f_equal String.length) in En. rewrite append_length, fixture_loop_length in En by lia. cbn in *. lia. }
  by rewrite IH by lia.
Qed.

Lemma fixture_xor_involutive route input : fixture_xor route (fixture_xor route input) = input.
Proof.
  unfold fixture_xor. rewrite fixture_loop_length by done. by apply fixture_loop_involutive.
Qed.

Lemma fixture_envelope_roundtrip e : fixture_envelope_from_value (fixture_envelope_value e) = Ok e.
Proof. by destruct e. Qed.
Lemma fixture_validate_Ok e route :
  fixture_validate_route e route = Ok tt ↔
    fe_schema e = FIXTURE_ENCRYPTED_CHAT_SCHEMA
    ∧ (fe_route_id e = rd_route_id route ∧ fe_provider e = rd_provider route)
    ∧ fe_provider_model e = rd_provider_model route.
Proof.
  unfold fixture_validate_route. rewrite !guard_Ok, !orb_false_iff, !negb_false_iff, !bool_decide_eq_true. naive_solver.
Qed.

(** A body encrypted for a fixture route decrypts to the same body on that
    route; an envelope of another route is refused. *)
Theorem fixture_encryption_roundtrip route body request other :
  fixture_encrypt route body = Ok request →
  (∃ body', fixture_decrypted_body request route = Ok body' ∧ value_equiv body body')
  ∧ (rd_route_id other ≠ rd_route_id route → is_ok (fixture_decrypted_body request other) = false).
Proof.
  unfold fixture_encrypt, fixture_decrypted_body. intros H. inv_ok.
  match goal with H : value_to_vec body = Some _ |- _ => destruct (value_roundtrip _ _ H) as (w & Hw & He) end.
  cbn [pq_confidentiality with_confidentiality pq_body]. rewrite fixture_envelope_roundtrip, !ok_bind. split.
  - exists w. split; [|done]. rewrite (proj2 (fixture_validate_Ok _ route)), ok_bind by done. cbn [fe_ciphertext_base64].
    rewrite standard_roundtrip, ok_or_some, ok_bind, fixture_xor_involutive. cbn [fe_plaintext_sha256].
    by rewrite !bool_decide_true, Hw by done.
  - intros Hne. match goal with |- context [fixture_validate_route ?e other] =>
      destruct (fixture_validate_route e other) as [[]|] eqn:E; [|done] end.
    by apply fixture_validate_Ok in E as (_ & [? _] & _).
Qed.
End FixtureCipher.

(** ** SDK app-level encryption *)

Definition SDK_ENCRYPTED_CHAT_SCHEMA := "confidential-inference.sdk-encrypted-chat.v1".
Definition SDK_ENCRYPTED_CHAT_RESPONSE_SCHEMA := "confidential-inference.sdk-encrypted-chat-response.v1".
Definition SDK_APP_E2EE_ALG := "x25519-hkdf-sha256-chacha20poly1305".

Record SdkAppE2eeConfig := { cf_key_id : string; cf_public_key_base64 : string }.
Record SdkAppE2eeSecretKey := { sk_key_id : string; sk_private_key_base64 : string }.
Record SdkAppE2eeSession := { sn_request_id : string; sn_response_key : string }.

Record SdkEncryptedChatEnvelope := {
  ce_schema : string; ce_route_id : string; ce_provider : string; ce_provider_model : string;
  ce_request_id : string; ce_key_id : string; ce_alg : string; ce_ephemeral_public_key_base64 : string;
  ce_nonce_base64 : string; ce_aad_sha256 : string; ce_ciphertext_base64 : string;
}.
Record SdkEncryptedChatResponseEnvelope := {
  re_schema : string; re_route_id : string; re_provider : string; re_provider_model : string;
  re_request_id : string; re_alg : string; re_nonce_base64 : string; re_aad_sha256 : string;
  re_ciphertext_base64 : string;
}.

Definition chat_envelope_value (e : SdkEncryptedChatEnvelope) : Value :=
  VObject [("schema", VString (ce_schema e)); ("route_id", VString (ce_route_id e));
           ("provider", VString (ce_provider e)); ("provider_model", VString (ce_provider_model e));
           ("request_id", VString (ce_request_id e)); ("key_id", VString (ce_key_id e));
           ("alg", VString (ce_alg e));
           ("ephemeral_public_key_base64", VString (ce_ephemeral_public_key_base64 e));
           ("nonce_base64", VString (ce_nonce_base64 e)); ("aad_sha256", VString (ce_aad_sha256 e));
           ("ciphertext_base64", VString (ce_ciphertext_base64 e))].
Definition chat_envelope_from_value (v : Value) : ProviderResult SdkEncryptedChatEnvelope :=
  schema ← string_field "schema" v; route_id ← string_field "route_id" v;
  provider ← string_field "provider" v; provider_model ← string_field "provider_model" v;
  request_id ← string_field "request_id" v; key_id ← string_field "key_id" v; alg ← string_field "alg" v;
  ephemeral ← string_field "ephemeral_public_key_base64" v; nonce ← string_field "nonce_base64" v;
  aad ← string_field "aad_sha256" v; ciphertext ← string_field "ciphertext_base64" v;
  Ok {| ce_schema := schema; ce_route_id := route_id; ce_provider := provider;
        ce_provider_model := provider_model; ce_request_id := request_id; ce_key_id := key_id; ce_alg := alg;
        ce_ephemeral_public_key_base64 := ephemeral; ce_nonce_base64 := nonce; ce_aad_sha256 := aad;
        ce_ciphertext_base64 := ciphertext |}.

Definition chat_envelope_validate_route (e : SdkEncryptedChatEnvelope) (route : RouteDefinition)
    : ProviderResult unit :=
  bail (Adapter "unsupported SDK encrypted chat envelope schema {}")
    when negb (ce_schema e =?= SDK_ENCRYPTED_CHAT_SCHEMA);
  bail (Adapter "unsupported SDK app-E2EE algorithm {}") when negb (ce_alg e =?= SDK_APP_E2EE_ALG);
  bail (Adapter "SDK encrypted chat envelope route metadata does not match route")
    when negb (ce_route_id e =?= rd_route_id route) || negb (ce_provider e =?= rd_provider route)
         || negb (ce_provider_model e =?= rd_provider_model route);
  Ok tt.

Section AppE2ee.
Context {prim : Primitives} {crypto : RequestCrypto}.

Definition sdk_app_e2ee_context_json (schema : string) (route : RouteDefinition) (request_id : string)
    (key_id : option string) : ProviderResult string :=
  ok_or (value_to_vec (VObject
    ([("schema", VString schema); ("route_id", VString (rd_route_id route));
      ("provider", VString (rd_provider route)); ("provider_model", VString (rd_provider_model route));
      ("request_id", VString request_id); ("alg", VString SDK_APP_E2EE_ALG)]
     ++ optional "key_id" VString key_id)%list)) json_error.
Definition sdk_app_e2ee_aad (route : RouteDefinition) (request_id key_id : string) : ProviderResult string :=
  sdk_app_e2ee_context_json SDK_ENCRYPTED_CHAT_SCHEMA route request_id (Some key_id).
Definition sdk_app_e2ee_response_aad (route : RouteDefinition) (request_id : string) : ProviderResult string :=
  sdk_app_e2ee_context_json SDK_ENCRYPTED_CHAT_RESPONSE_SCHEMA route request_id None.

Definition derive_sdk_app_e2ee_keys (shared_secret : string) (route : RouteDefinition) (request_id key_id : string)
    : ProviderResult (string * string) :=
  let salt := sha256 ("confidential-inference.sdk-app-e2ee.v1" +:+ rd_route_id route +:+ rd_provider route
                      +:+ rd_provider_model route +:+ request_id +:+ key_id) in
  request_key ← ok_or (hkdf_expand salt shared_secret "request-body")
                  (Adapter "failed to derive SDK app-E2EE request key");
  response_key ← ok_or (hkdf_expand salt shared_secret "response-body")
                   (Adapter "failed to derive SDK app-E2EE response key");
  Ok (request_key, response_key).

Definition seal (key nonce aad plaintext : string) : ProviderResult string :=
  ok_or (aead_encrypt key nonce aad plaintext) (Adapter "SDK app-E2EE encryption failed").
Definition open (key nonce aad ciphertext : string) : ProviderResult string :=
  ok_or (aead_decrypt key nonce aad ciphertext) (Adapter "SDK app-E2EE ciphertext authentication failed").

(** The random values drawn: the ephemeral secret, the request id and the
    nonce. *)
Definition sdk_encrypt (ephemeral_secret request_id nonce : string) (route : RouteDefinition) (body : Value)
    (config : SdkAppE2eeConfig) : ProviderResult ProviderChatRequest :=
  recipient_public_key ← decode_fixed_base64 32 (cf_public_key_base64 config);
  let ephemeral_public_key := x25519_public ephemeral_secret in
  let shared_secret := diffie_hellman ephemeral_secret recipient_public_key in
  keys ← derive_sdk_app_e2ee_keys shared_secret route request_id (cf_key_id config);
  aad ← sdk_app_e2ee_aad route request_id (cf_key_id config);
  plaintext ← ok_or (value_to_vec body) json_error;
  ciphertext ← seal (fst keys) nonce aad plaintext;
  let envelope := {| ce_schema := SDK_ENCRYPTED_CHAT_SCHEMA; ce_route_id := rd_route_id route;
    ce_provider := rd_provider route; ce_provider_model := rd_provider_model route;
    ce_request_id := request_id; ce_key_id := cf_key_id config; ce_alg := SDK_APP_E2EE_ALG;
    ce_ephemeral_public_key_base64 := standard_encode ephemeral_public_key;
    ce_nonce_base64 := standard_encode nonce; ce_aad_sha256 := bytes_hex aad;
    ce_ciphertext_base64 := standard_encode ciphertext |} in
  Ok {| pq_body := chat_envelope_value envelope; pq_confidentiality := SdkEncrypted;
        pq_sdk_app_e2ee_context := Some {| cx_request_id := request_id; cx_response_key := snd keys |};
        pq_verified_evidence_digest := None |}.

Definition envelope_decrypt_body (e : SdkEncryptedChatEnvelope) (route : RouteDefinition)
    (secret_key : SdkAppE2eeSecretKey) : ProviderResult (Value * SdkAppE2eeSession) :=
  _ ← chat_envelope_validate_route e route;
  bail (Adapter "SDK encrypted chat envelope key id does not match secret key")
    when negb (ce_key_id e =?= sk_key_id secret_key);
  ephemeral_public_key ← decode_fixed_base64 32 (ce_ephemeral_public_key_base64 e);
  static_secret ← decode_fixed_base64 32 (sk_private_key_base64 secret_key);
  let shared_secret := diffie_hellman static_secret ephemeral_public_key in
  keys ← derive_sdk_app_e2ee_keys shared_secret route (ce_request_id e) (ce_key_id e);
  aad ← sdk_app_e2ee_aad route (ce_request_id e) (ce_key_id e);
  bail (Adapter "SDK encrypted chat envelope AAD digest does not match route metadata")
    when negb (ce_aad_sha256 e =?= bytes_hex aad);
  nonce ← decode_fixed_base64 12 (ce_nonce_base64 e);
  ciphertext ← ok_or (standard_decode (ce_ciphertext_base64 e))
                 (Adapter "SDK encrypted chat ciphertext is not base64: {error}");
  plaintext ← open (fst keys) nonce aad ciphertext;
  body ← ok_or (value_of_slice plaintext) json_error;
  Ok (body, {| sn_request_id := ce_request_id e; sn_response_key := snd keys |}).

Definition sdk_decrypted_body (request : ProviderChatRequest) (route : RouteDefinition)
    (secret_key : SdkAppE2eeSecretKey) : ProviderResult (Value * SdkAppE2eeSession) :=
  bail (Adapter "request is not SDK-encrypted") when negb (pq_confidentiality request =?= SdkEncrypted);
  envelope ← chat_envelope_from_value (pq_body request);
  envelope_decrypt_body envelope route secret_key.

Definition encrypt_response_body (nonce : string) (session : SdkAppE2eeSession) (route : RouteDefinition)
    (plaintext : string) : ProviderResult SdkEncryptedChatResponseEnvelope :=
  aad ← sdk_app_e2ee_response_aad route (sn_request_id session);
  ciphertext ← seal (sn_response_key session) nonce aad plaintext;
  Ok {| re_schema := SDK_ENCRYPTED_CHAT_RESPONSE_SCHEMA; re_route_id := rd_route_id route;
        re_provider := rd_provider route; re_provider_model := rd_provider_model route;
        re_request_id := sn_request_id session; re_alg := SDK_APP_E2EE_ALG;
        re_nonce_base64 := standard_encode nonce; re_aad_sha256 := bytes_hex aad;
        re_ciphertext_base64 := standard_encode ciphertext |}.

Definition response_decrypt_body (e : SdkEncryptedChatResponseEnvelope) (route : RouteDefinition)
    (context : SdkAppE2eeClientContext) : ProviderResult string :=
  bail (Adapter "unsupported SDK encrypted chat response envelope schema {}")
    when negb (re_schema e =?= SDK_ENCRYPTED_CHAT_RESPONSE_SCHEMA);
  bail (Adapter "unsupported SDK app-E2EE response algorithm {}") when negb (re_alg e =?= SDK_APP_E2EE_ALG);
  bail (Adapter "SDK encrypted chat response route metadata does not match request context")
    when negb (re_route_id e =?= rd_route_id route) || negb (re_provider e =?= rd_provider route)
         || negb (re_provider_model e =?= rd_provider_model route)
         || negb (re_request_id e =?= cx_request_id context);
  aad ← sdk_app_e2ee_response_aad route (re_request_id e);
  bail (Adapter "SDK encrypted chat response AAD digest does not match route metadata")
    when negb (re_aad_sha256 e =?= bytes_hex aad);
  nonce ← decode_fixed_base64 12 (re_nonce_base64 e);
  ciphertext ← ok_or (standard_decode (re_ciphertext_base64 e))
                 (Adapter "SDK encrypted chat response is not base64: {error}");
  open (cx_response_key context) nonce aad ciphertext.

(** The response envelope of [response_body], decoded by [serde_json]. *)
Context (response_from_slice : string → option SdkEncryptedChatResponseEnvelope).

Definition decrypt_sdk_response_body (request : ProviderChatRequest) (route : RouteDefinition)
    (response_body : string) : ProviderResult string :=
  if negb (pq_confidentiality request =?= SdkEncrypted) then Ok response_body
  else
    context ← ok_or (pq_sdk_app_e2ee_context request)
                (Adapter "SDK-encrypted request is missing response context");
    envelope ← ok_or (response_from_slice response_body) json_error;
    response_decrypt_body envelope route context.

Context {laws : RequestCryptoLaws}.

Lemma decode_fixed_roundtrip n s : String.length s = n → decode_fixed_base64 n (standard_encode s) = Ok s.
Proof.
  intros <-. unfold decode_fixed_base64. by rewrite standard_roundtrip, ok_or_some, ok_bind, Nat.eqb_refl.
Qed.
Lemma open_sealed key nonce aad msg c : seal key nonce aad msg = Ok c → open key nonce aad c = Ok msg.
Proof. unfold seal, open. rewrite !ok_or_Ok. apply aead_roundtrip. Qed.
Lemma chat_envelope_roundtrip e : chat_envelope_from_value (chat_envelope_value e) = Ok e.
Proof. by destruct e. Qed.

Lemma chat_envelope_route_Ok e route :
  chat_envelope_validate_route e route = Ok tt ↔
    ce_schema e = SDK_ENCRYPTED_CHAT_SCHEMA ∧ ce_alg e = SDK_APP_E2EE_ALG
    ∧ (ce_route_id e = rd_route_id route ∧ ce_provider e = rd_provider route)
    ∧ ce_provider_model e = rd_provider_model route.
Proof.
  unfold chat_envelope_validate_route.
  rewrite !guard_Ok, !orb_false_iff, !negb_false_iff, !bool_decide_eq_true. naive_solver.
Qed.

Lemma sdk_body_roundtrip ephemeral request_id nonce route body key secret request :
  String.length secret = 32%nat → String.length nonce = 12%nat →
  sdk_encrypt ephemeral request_id nonce route body
    {| cf_key_id := key; cf_public_key_base64 := standard_encode (x25519_public secret) |} = Ok request →
  ∃ body' session, sdk_decrypted_body request route
      {| sk_key_id := key; sk_private_key_base64 := standard_encode secret |} = Ok (body', session)
    ∧ value_equiv body body' ∧ pq_confidentiality request = SdkEncrypted
    ∧ pq_sdk_app_e2ee_context request
      = Some {| cx_request_id := sn_request_id session; cx_response_key := sn_response_key session |}.
Proof.
  intros Hs Hn. unfold sdk_encrypt, sdk_decrypted_body. cbn [cf_key_id cf_public_key_base64].
  rewrite decode_fixed_roundtrip, ok_bind by apply x25519_public_length. intros H. inv_ok.
  match goal with H : value_to_vec body = Some _ |- _ => destruct (value_roundtrip _ _ H) as (w & Hw & He) end.
  match goal with H : derive_sdk_app_e2ee_keys _ _ _ _ = Ok ?k |- _ =>
    exists w, {| sn_request_id := request_id; sn_response_key := k.2 |}; rename H into Hk end.
  cbn [pq_confidentiality pq_body pq_sdk_app_e2ee_context sn_request_id sn_response_key].
  split; [|done]. rewrite bool_decide_true by done. cbn [negb].
  rewrite chat_envelope_roundtrip, ok_bind. unfold envelope_decrypt_body.
  rewrite (proj2 (chat_envelope_route_Ok _ route)), ok_bind by done. cbn. rewrite bool_decide_true by done. cbn [negb].
  rewrite (decode_fixed_roundtrip 32 (x25519_public ephemeral)), ok_bind by apply x25519_public_length.
  rewrite (decode_fixed_roundtrip 32 secret), ok_bind, x25519_agree, Hk, ok_bind by done.
  match goal with H : sdk_app_e2ee_aad _ _ _ = _ |- _ => rewrite H, ok_bind end.
  rewrite bool_decide_true by done. cbn [negb]. rewrite (decode_fixed_roundtrip 12 nonce), ok_bind by done.
  rewrite standard_roundtrip, ok_or_some, ok_bind.
  match goal with H : seal _ _ _ _ = _ |- _ => rewrite (open_sealed _ _ _ _ _ H), ok_bind end.
  by rewrite Hw.
Qed.

Lemma sdk_response_roundtrip nonce session route plaintext e :
  String.length nonce = 12%nat → encrypt_response_body nonce session route plaintext = Ok e →
  response_decrypt_body e route
    {| cx_request_id := sn_request_id session; cx_response_key := sn_response_key session |} = Ok plaintext.
Proof.
  intros Hn. unfold encrypt_response_body. intros H. inv_ok. unfold response_decrypt_body. cbn.
  rewrite !bool_decide_true by done. cbn.
  match goal with H : sdk_app_e2ee_response_aad _ _ = _ |- _ => rewrite H, ok_bind end.
  rewrite bool_decide_true by done. cbn [negb]. rewrite (decode_fixed_roundtrip 12 nonce), ok_bind by done.
  rewrite standard_roundtrip, ok_or_some, ok_bind.
  match goal with H : seal _ _ _ _ = _ |- _ => exact (open_sealed _ _ _ _ _ H) end.
Qed.

(** The SDK's app-level encryption round-trips in both directions: the
    holder of the secret key recovers the body the client encrypted for the
    route, and the client recovers, from the context kept with its request, the
    response encrypted in the session this gives. *)
Theorem sdk_encryption_roundtrip ephemeral request_id nonce route body key secret request :
  String.length secret = 32%nat → String.length nonce = 12%nat →
  sdk_encrypt ephemeral request_id nonce route body
    {| cf_key_id := key; cf_public_key_base64 := standard_encode (x25519_public secret) |} = Ok request →
  ∃ body' session, sdk_decrypted_body request route
      {| sk_key_id := key; sk_private_key_base64 := standard_encode secret |} = Ok (body', session)
    ∧ value_equiv body body'
    ∧ ∀ response_nonce plaintext envelope bytes,
        String.length response_nonce = 12%nat →
        encrypt_response_body response_nonce session route plaintext = Ok envelope →
        response_from_slice bytes = Some envelope →
        decrypt_sdk_response_body request route bytes = Ok plaintext.
Proof.
  intros Hs Hn H. destruct (sdk_body_roundtrip _ _ _ _ _ _ _ _ Hs Hn H) as (body' & session & Hd & He & Hc & Hx).
  exists body', session. split; [done|]. split; [done|]. intros rn plaintext e bytes Hrn Hr Hb.
  unfold decrypt_sdk_response_body. rewrite Hc, Hx, Hb, bool_decide_true by done. cbn [negb].
  rewrite !ok_or_some, !ok_bind. by apply (sdk_response_roundtrip rn).
Qed.
End AppE2ee.

(** ** Concrete inputs

    A codec for objects of strings and a cipher that hides nothing, to run the
    code above. *)

Fixpoint bits_of (p : positive) : string :=
  match p with xH => "" | xO p => String "0" (bits_of p) | xI p => String "1" (bits_of p) end.
Fixpoint of_bits (s : string) : positive :=
  match s with
  | "" => xH
  | String c s => if c =?= "0"%char then xO (of_bits s) else xI (of_bits s)
  end.
Lemma of_bits_of p : of_bits (bits_of p) = p.
Proof. induction p as [p IH|p IH|]; cbn; by rewrite ?IH. Qed.

Definition string_members (v : Value) : option (list (string * string)) :=
  match v with
  | VObject entries => mapM (λ e, match snd e with VString s => Some (fst e, s) | _ => None end) entries
  | _ => None
  end.
Definition of_members (l : list (string * string)) : Value := VObject (map (λ e, (fst e, VString (snd e))) l).
Lemma of_string_members v l : string_members v = Some l → of_members l = v.
Proof.
  destruct v as [| | | | |entries]; try done. cbn. intros H%mapM_Some. unfold of_members. f_equal.
  induction H as [|[k v] [k' s] entries l Hx _ IH]; [done|]. cbn in *. destruct v; try done. injection Hx as <- <-.
  by f_equal.
Qed.

#[local] Instance sample_request_crypto : RequestCrypto := {|
  standard_encode s := s; standard_decode s := Some s;
  value_to_vec v := bits_of ∘ encode <$> string_members v;
  value_of_slice s := of_members <$> decode (of_bits s);
  x25519_public _ := zeros 32; diffie_hellman _ _ := "shared";
  hkdf_expand _ _ info := Some info;
  aead_encrypt _ _ _ msg := Some msg; aead_decrypt _ _ _ c := Some c |}.
#[local] Instance sample_request_laws : RequestCryptoLaws.
Proof.
  split; try (by cbn; intros; simplify_eq).
  cbn. intros v s H. destruct (string_members v) as [l|] eqn:E; [|done]. injection H as <-. unfold compose.
  rewrite of_bits_of, decode_encode. exists v. cbn. split; [|constructor]. by rewrite (of_string_members v l).
Qed.

Definition sample_body : Value := VObject [("prompt", VString "hello")].
Definition encryption_route : RouteDefinition := sample_definition "r1" "fixture" "llama3" Active FreshPerSession.

Lemma fixture_encryption_roundtrip_witness :
  ∃ request body', fixture_encrypt encryption_route sample_body = Ok request
    ∧ fixture_decrypted_body request encryption_route = Ok body' ∧ value_equiv sample_body body'.
Proof.
  destruct (is_ok_inv (fixture_encrypt encryption_route sample_body)) as [request E]; [vm_compute; reflexivity|].
  destruct (fixture_encryption_roundtrip encryption_route sample_body request encryption_route E) as [(body' & H & He) _].
  exists request, body'. split; [exact E|]. split; [exact H|exact He].
Defined.

Lemma sdk_encryption_roundtrip_witness :
  ∃ request body' session,
    sdk_decrypted_body request encryption_route
      {| sk_key_id := "k"; sk_private_key_base64 := zeros 32 |} = Ok (body', session)
    ∧ value_equiv sample_body body'.
Proof.
  destruct (is_ok_inv (sdk_encrypt "e" "id" (zeros 12) encryption_route sample_body
    {| cf_key_id := "k"; cf_public_key_base64 := standard_encode (x25519_public (zeros 32)) |})) as [request E];
    [vm_compute; reflexivity|].
  destruct (sdk_encryption_roundtrip (λ _, None) "e" "id" (zeros 12) encryption_route sample_body "k" (zeros 32)
    request eq_refl eq_refl E) as (body' & session & H & He & _).
  exists request, body', session. split; [exact H|exact He].
Defined.

Lemma evidence_store_binds_witness :
  store_get "r1" "sha256:a" (inserts [("r1", "sha256:a", 1%Z); ("r2", "sha256:b", 2%Z); ("r1", "sha256:a", 3%Z)])
  = Some 3%Z.
Proof.
  destruct (evidence_store_binds [("r1", "sha256:a", 1%Z); ("r2", "sha256:b", 2%Z)] "r1" "sha256:a" 3%Z
    encryption_route (with_confidentiality VNull Plaintext) eq_refl) as (_ & H & _). exact H.
Defined.
