(* ===== verification/Compatibility.v ===== *)
(** * Provider compatibility profiles

    providers/compatibility.rs: the signed matrix of provider profiles, the
    check of a registry route against its provider's profile, and the adaptation
    of a chat or embeddings request to the provider, with the confidentiality
    the profile asks for. *)

From Stdlib Require Import Ascii String ZArith Lia.
From stdpp Require Import base gmap strings list numbers.
From S2P Require Import Prelude RustStr Errors Collections Canonical JsonInjective Policy Verdict Signature ReferenceValues Registry ProviderRequest.

Open Scope string_scope.

(** ** Data *)

Inductive RouteExecutionStatus :=
| ExecutableFixture | AdapterShapeFixture | ExecutionVerificationOnly | Executable.
#[export] Instance RouteExecutionStatus_eq_dec : EqDecision RouteExecutionStatus.
Proof. solve_decision. Defined.
Definition allows_chat_execution (s : RouteExecutionStatus) : bool :=
  match s with Executable | ExecutableFixture => true | _ => false end.

Inductive OpenAiEndpoint := Embeddings | ChatCompletions | Models | Confidentiality.
#[export] Instance OpenAiEndpoint_eq_dec : EqDecision OpenAiEndpoint.
Proof. solve_decision. Defined.
Inductive ModelListingBehavior := SignedRegistryOnly | LiveCatalog | ListingUnsupported.
Inductive ModelIdRewrite := UseRouteProviderModel.
Inductive TokenParameterRewrite := PreserveMaxTokens | MaxTokensToMaxCompletionTokens.
Inductive CredentialKind := BearerToken | ApiKeyHeader.
Inductive CacheabilityClass := PerRequestOnly | PerSessionVerdict | StaticProvenance.
Inductive ModelBindingSupport := BindingUnsupported | BindingPartial | BindingVerified.
#[export] Instance ModelBindingSupport_eq_dec : EqDecision ModelBindingSupport.
Proof. solve_decision. Defined.

Record ProviderCompatibility := {
  pc_provider : string;
  pc_route_execution_status : RouteExecutionStatus;
  pc_api_base_url : string;
  pc_supported_openai_endpoints : list OpenAiEndpoint;
  pc_model_listing : ModelListingBehavior;
  pc_model_id_rewrite : ModelIdRewrite;
  pc_token_parameter_rewrite : TokenParameterRewrite;
  pc_streaming : StreamingSupport;
  pc_request_encryption : EncryptionRequirement;
  pc_response_decryption : EncryptionRequirement;
  pc_sdk_app_e2ee : option SdkAppE2eeConfig;
  pc_adapter_managed_encryption : bool;
  pc_attestation_endpoint_shape : string;
  pc_required_credentials : list CredentialKind;
  pc_freshness_class : FreshnessClass;
  pc_cacheability_class : CacheabilityClass;
  pc_expected_trust_tier : TrustTier;
  pc_model_binding_support : ModelBindingSupport;
  pc_known_unsupported_modes : list string;
}.

Record ProviderCompatibilityMatrix := { cm_schema : string; cm_providers : gmap string ProviderCompatibility }.
Record ProviderCompatibilityMatrixEnvelope := {
  ev_schema : string; ev_matrix : ProviderCompatibilityMatrix; ev_matrix_signature : ArtifactSignature;
}.
Definition MATRIX_SCHEMA := "confidential-inference.provider-compatibility-matrix.v1".
Definition MATRIX_ENVELOPE_SCHEMA := "confidential-inference.provider-compatibility-matrix-envelope.v1".

(** ** Serialisation *)

Definition execution_status_str (s : RouteExecutionStatus) : string :=
  match s with
  | ExecutableFixture => "executable_fixture" | AdapterShapeFixture => "adapter_shape_fixture"
  | ExecutionVerificationOnly => "verification_only" | Executable => "executable"
  end.
Definition endpoint_value (e : OpenAiEndpoint) : Value :=
  VString match e with
  | Embeddings => "embeddings" | ChatCompletions => "chat_completions" | Models => "models"
  | Confidentiality => "confidentiality"
  end.
Definition listing_value (m : ModelListingBehavior) : Value :=
  VString match m with
  | SignedRegistryOnly => "signed_registry_only" | LiveCatalog => "live_catalog" | ListingUnsupported => "unsupported"
  end.
Definition rewrite_value (r : ModelIdRewrite) : Value :=
  VString match r with UseRouteProviderModel => "use_route_provider_model" end.
Definition token_rewrite_value (r : TokenParameterRewrite) : Value :=
  VString match r with
  | PreserveMaxTokens => "preserve_max_tokens"
  | MaxTokensToMaxCompletionTokens => "max_tokens_to_max_completion_tokens"
  end.
Definition credential_value (c : CredentialKind) : Value :=
  VString match c with BearerToken => "bearer_token" | ApiKeyHeader => "api_key_header" end.
Definition cacheability_value (c : CacheabilityClass) : Value :=
  VString match c with
  | PerRequestOnly => "per_request_only" | PerSessionVerdict => "per_session_verdict"
  | StaticProvenance => "static_provenance"
  end.
Definition binding_support_value (s : ModelBindingSupport) : Value :=
  VString match s with
  | BindingUnsupported => "unsupported" | BindingPartial => "partial" | BindingVerified => "verified"
  end.
Definition e2ee_config_value (c : SdkAppE2eeConfig) : Value :=
  VObject [("key_id", VString (cf_key_id c)); ("public_key_base64", VString (cf_public_key_base64 c))].

Definition compatibility_value (c : ProviderCompatibility) : Value :=
  VObject
    ([("provider", VString (pc_provider c));
      ("route_execution_status", VString (execution_status_str (pc_route_execution_status c)));
      ("api_base_url", VString (pc_api_base_url c));
      ("supported_openai_endpoints", VArray (map endpoint_value (pc_supported_openai_endpoints c)));
      ("model_listing", listing_value (pc_model_listing c));
      ("model_id_rewrite", rewrite_value (pc_model_id_rewrite c));
      ("token_parameter_rewrite", token_rewrite_value (pc_token_parameter_rewrite c));
      ("streaming", streaming_value (pc_streaming c));
      ("request_encryption", encryption_value (pc_request_encryption c));
      ("response_decryption", encryption_value (pc_response_decryption c))]
     ++ optional "sdk_app_e2ee" e2ee_config_value (pc_sdk_app_e2ee c)
     ++ (if pc_adapter_managed_encryption c then [("adapter_managed_encryption", VBool true)] else [])
     ++ [("attestation_endpoint_shape", VString (pc_attestation_endpoint_shape c));
         ("required_credentials", VArray (map credential_value (pc_required_credentials c)));
         ("freshness_class", freshness_class_value (pc_freshness_class c));
         ("cacheability_class", cacheability_value (pc_cacheability_class c));
         ("expected_trust_tier", trust_tier_value (pc_expected_trust_tier c));
         ("model_binding_support", binding_support_value (pc_model_binding_support c));
         ("known_unsupported_modes", strings_value (pc_known_unsupported_modes c))])%list.
Definition compatibility_matrix_value (m : ProviderCompatibilityMatrix) : Value :=
  VObject [("schema", VString (cm_schema m));
           ("providers", VObject (map (λ '(k, c), (k, compatibility_value c)) (btree_iter (cm_providers m))))].

(** ** The matrix *)

Definition supports_endpoint (c : ProviderCompatibility) (endpoint : OpenAiEndpoint) : bool :=
  existsb (λ e, e =?= endpoint) (pc_supported_openai_endpoints c).

Definition reject_url_credentials (url : string) : ProviderResult unit :=
  bail (Compatibility "{subject_kind} {subject_id} {field} must not include URL credentials")
    when url_authority_has_credentials url; Ok tt.

Definition validate_profile (entry : string * ProviderCompatibility) : ProviderResult unit :=
  let '(provider_id, c) := entry in
  bail (Compatibility "provider key {provider_id} does not match provider {}")
    when negb (provider_id =?= pc_provider c);
  bail (Compatibility "provider {provider_id} has an empty api_base_url") when is_empty (trim (pc_api_base_url c));
  _ ← reject_url_credentials (pc_api_base_url c);
  bail (Compatibility "provider {provider_id} has no supported OpenAI endpoints")
    when match pc_supported_openai_endpoints c with [] => true | _ => false end;
  bail (Compatibility "provider {provider_id} does not support chat completions")
    when negb (supports_endpoint c ChatCompletions);
  if pc_adapter_managed_encryption c then
    bail (Compatibility "provider {provider_id} enables adapter-managed encryption but is not executable")
      when negb (pc_route_execution_status c =?= Executable);
    bail (Compatibility "provider {provider_id} enables adapter-managed encryption without requiring encrypted requests and responses")
      when negb (pc_request_encryption c =?= EncryptionRequired)
           || negb (pc_response_decryption c =?= EncryptionRequired);
    bail (Compatibility "provider {provider_id} selects both SDK-managed and adapter-managed encryption")
      when is_some (pc_sdk_app_e2ee c);
    Ok tt
  else Ok tt.

Definition compatibility_validate (m : ProviderCompatibilityMatrix) : ProviderResult unit :=
  bail (Compatibility "unsupported compatibility matrix schema {}") when negb (cm_schema m =?= MATRIX_SCHEMA);
  for_each validate_profile (btree_iter (cm_providers m)).

Definition matrix_provider (m : ProviderCompatibilityMatrix) (provider : string)
    : ProviderResult ProviderCompatibility :=
  ok_or (cm_providers m !! provider) (Compatibility "provider {provider} is missing from compatibility matrix").

Definition compatibility_validate_route (c : ProviderCompatibility) (route : RouteDefinition)
    : ProviderResult unit :=
  _ ← reject_url_credentials (pc_api_base_url c);
  _ ← reject_url_credentials (rd_api_base_url route);
  _ ← reject_url_credentials (rd_evidence_endpoint route);
  bail (Compatibility "route {} belongs to provider {}, not {}") when negb (rd_provider route =?= pc_provider c);
  bail (Compatibility "route {} api_base_url {} does not match compatibility matrix {}")
    when negb (rd_api_base_url route =?= pc_api_base_url c);
  bail (Compatibility "route {} freshness {:?} does not match compatibility matrix {:?}")
    when negb (rd_freshness_class route =?= pc_freshness_class c);
  bail (Compatibility "route {} trust tier {:?} does not match compatibility matrix {:?}")
    when negb (rd_trust_tier route =?= pc_expected_trust_tier c);
  bail (Compatibility "route {} request encryption {:?} does not match compatibility matrix {:?}")
    when negb (rd_request_encryption route =?= pc_request_encryption c);
  bail (Compatibility "route {} response decryption {:?} does not match compatibility matrix {:?}")
    when negb (rd_response_decryption route =?= pc_response_decryption c);
  bail (Compatibility "route {} streaming {:?} does not match compatibility matrix {:?}")
    when negb (rd_streaming route =?= pc_streaming c);
  Ok tt.

Definition validate_registry_routes (m : ProviderCompatibilityMatrix) (r : ProviderRegistry) : ProviderResult unit :=
  for_each (λ '(_, model),
    for_each (λ route, c ← matrix_provider m (rd_provider route); compatibility_validate_route c route)
      (List.filter (λ route, security_sensitive (rd_route_status route)) (rm_routes model)))
    (btree_iter (rg_models r)).

Definition validate_compatibility_matrix_schema_major (value : string) : ProviderResult unit :=
  check_schema_major Compatibility "confidential-inference.provider-compatibility-matrix" value.

Section MatrixEnvelope.
Context {prim : Primitives} {crypto : SignatureCrypto}.

Definition of_attestation {A} (r : Result A) : ProviderResult A := map_err (λ _, Compatibility "{error}") r.

Definition compatibility_digest (m : ProviderCompatibilityMatrix) : ProviderResult string :=
  _ ← validate_compatibility_matrix_schema_major (cm_schema m);
  of_attestation (canonical_digest (compatibility_matrix_value m)).

Definition compatibility_verify_signature_with_keys (envelope : ProviderCompatibilityMatrixEnvelope)
    (keys : list TrustedSigningKey) : ProviderResult unit :=
  bail (Compatibility "compatibility matrix envelope schema mismatch")
    when negb (ev_schema envelope =?= MATRIX_ENVELOPE_SCHEMA);
  _ ← of_attestation (verify_artifact_signature_with_keys (ev_matrix_signature envelope)
        (compatibility_matrix_value (ev_matrix envelope)) keys);
  compatibility_validate (ev_matrix envelope).

Definition compatibility_into_verified_payload_with_keys (envelope : ProviderCompatibilityMatrixEnvelope)
    (keys : list TrustedSigningKey) : ProviderResult ProviderCompatibilityMatrix :=
  _ ← compatibility_verify_signature_with_keys envelope keys;
  Ok (ev_matrix envelope).
End MatrixEnvelope.

(** ** Requests *)

(** A chat request: what this layer reads of it, and the members of its other
    fields, the flattened [extra] last. *)
Record ChatCompletionRequest := {
  cr_model : string;
  cr_messages : list Value;
  cr_stream : option bool;
  cr_members : list (string * Value);
}.
Definition streaming (r : ChatCompletionRequest) : bool := default false (cr_stream r).
Definition chat_with_model (model : string) (r : ChatCompletionRequest) : ChatCompletionRequest := {|
  cr_model := model; cr_messages := cr_messages r; cr_stream := cr_stream r; cr_members := cr_members r |}.
Definition validate_streaming (c : ProviderCompatibility) (request : ChatCompletionRequest) : ProviderResult unit :=
  if streaming request && (pc_streaming c =?= Unsupported)
  then Err (Compatibility "provider {} does not support streaming under the selected compatibility profile")
  else Ok tt.

(** Embeddings input and request; a part is any JSON value. *)
Inductive EmbeddingInput :=
| EmbedText (text : string)
| EmbedTextArray (texts : list string)
| EmbedTokens (tokens : list Z)
| EmbedTokenArrays (arrays : list (list Z))
| EmbedParts (parts : list Value).
Record EmbeddingsRequest := {
  em_model : string;
  em_input : EmbeddingInput;
  em_dimensions : option Z;
  em_encoding_format : option string;
  em_extra : list (string * Value);
}.
Definition embeddings_with_model (model : string) (r : EmbeddingsRequest) : EmbeddingsRequest := {|
  em_model := model; em_input := em_input r; em_dimensions := em_dimensions r;
  em_encoding_format := em_encoding_format r; em_extra := em_extra r |}.
Definition embedding_input_value (input : EmbeddingInput) : Value :=
  match input with
  | EmbedText text => VString text
  | EmbedTextArray texts => VArray (map VString texts)
  | EmbedTokens tokens => VArray (map (λ t, VNumber (PosInt t)) tokens)
  | EmbedTokenArrays arrays => VArray (map (λ tokens, VArray (map (λ t, VNumber (PosInt t)) tokens)) arrays)
  | EmbedParts parts => VArray parts
  end.

(** [Map::remove] and [Map::insert] on an object. *)
Definition remove_member (key : string) (fields : list (string * Value)) : option Value * list (string * Value) :=
  (snd <$> List.find (λ e, fst e =?= key) fields, List.filter (λ e, negb (fst e =?= key)) fields).
Definition insert_member (key : string) (value : Value) (fields : list (string * Value)) : list (string * Value) :=
  (List.filter (λ e, negb (fst e =?= key)) fields ++ [(key, value)])%list.

(** [serde_json::to_value]: each member is inserted, a repeated key replaces. *)
Definition chat_request_fields (r : ChatCompletionRequest) : list (string * Value) :=
  fold_left (λ fields e, insert_member (fst e) (snd e) fields)
    (("model", VString (cr_model r)) :: ("messages", VArray (cr_messages r))
     :: optional "stream" VBool (cr_stream r) ++ cr_members r)%list [].

Definition embeddings_request_fields (r : EmbeddingsRequest) : list (string * Value) :=
  fold_left (λ fields e, insert_member (fst e) (snd e) fields)
    (("model", VString (em_model r)) :: ("input", embedding_input_value (em_input r))
     :: optional "dimensions" (λ d, VNumber (PosInt d)) (em_dimensions r)
     ++ optional "encoding_format" VString (em_encoding_format r) ++ em_extra r)%list [].

Definition apply_token_parameter_rewrite (c : ProviderCompatibility) (fields : list (string * Value))
    : list (string * Value) :=
  match pc_token_parameter_rewrite c with
  | PreserveMaxTokens => fields
  | MaxTokensToMaxCompletionTokens =>
      match remove_member "max_tokens" fields with
      | (Some max_tokens, fields) => insert_member "max_completion_tokens" max_tokens fields
      | (None, fields) => fields
      end
  end.

Inductive ChatRequestConfidentiality :=
| ChatPlaintext | ChatFixtureEncrypted | ChatSdkEncrypted (config : SdkAppE2eeConfig) | ChatAdapterManagedEncrypted.

Definition request_confidentiality_for_chat (c : ProviderCompatibility)
    : ProviderResult ChatRequestConfidentiality :=
  let encryption_required := (pc_request_encryption c =?= EncryptionRequired)
                             || (pc_response_decryption c =?= EncryptionRequired) in
  if negb encryption_required then Ok ChatPlaintext
  else match pc_route_execution_status c with
       | ExecutableFixture | AdapterShapeFixture => Ok ChatFixtureEncrypted
       | ExecutionVerificationOnly =>
           Err (Compatibility "provider {} is verification-only until SDK-managed app encryption is implemented")
       | Executable =>
           match pc_sdk_app_e2ee c with
           | Some config => Ok (ChatSdkEncrypted config)
           | None =>
               if pc_adapter_managed_encryption c then Ok ChatAdapterManagedEncrypted
               else Err (Compatibility "provider {} requires SDK-managed app encryption or an explicit adapter-managed encryption profile")
           end
       end.

(** The random values one encryption draws. *)
Record Randomness := { rnd_ephemeral : string; rnd_request_id : string; rnd_nonce : string }.

Section Adapt.
Context {prim : Primitives} {crypto : RequestCrypto}.

Definition confidential_provider_request (rnd : Randomness) (c : ProviderCompatibility) (route : RouteDefinition)
    (body : Value) : ProviderResult ProviderChatRequest :=
  confidentiality ← request_confidentiality_for_chat c;
  match confidentiality with
  | ChatPlaintext => Ok (with_confidentiality body Plaintext)
  | ChatFixtureEncrypted => fixture_encrypt route body
  | ChatSdkEncrypted config => sdk_encrypt (rnd_ephemeral rnd) (rnd_request_id rnd) (rnd_nonce rnd) route body config
  | ChatAdapterManagedEncrypted => Ok (adapter_managed_encrypt body)
  end.

Definition adapt_chat_request (rnd : Randomness) (c : ProviderCompatibility) (route : RouteDefinition)
    (request : ChatCompletionRequest) : ProviderResult ProviderChatRequest :=
  bail (Compatibility "provider {} does not support chat completions")
    when negb (supports_endpoint c ChatCompletions);
  _ ← validate_streaming c request;
  let provider_request :=
    match pc_model_id_rewrite c with UseRouteProviderModel => chat_with_model (rd_provider_model route) request end in
  let fields := apply_token_parameter_rewrite c (chat_request_fields provider_request) in
  confidential_provider_request rnd c route (VObject fields).

Definition adapt_embeddings_request (rnd : Randomness) (c : ProviderCompatibility) (route : RouteDefinition)
    (request : EmbeddingsRequest) : ProviderResult ProviderChatRequest :=
  bail (Compatibility "provider {} does not support embeddings") when negb (supports_endpoint c Embeddings);
  confidential_provider_request rnd c route
    (VObject (embeddings_request_fields (embeddings_with_model (rd_provider_model route) request))).

Lemma confidential_request_mode rnd c route body request :
  confidential_provider_request rnd c route body = Ok request →
  (pq_confidentiality request = Plaintext ↔
     pc_request_encryption c ≠ EncryptionRequired ∧ pc_response_decryption c ≠ EncryptionRequired)
  ∧ (pq_confidentiality request = Plaintext → pq_body request = body).
Proof.
  unfold confidential_provider_request, request_confidentiality_for_chat. intros H. inv_ok.
  match goal with H : (if negb ?b then _ else _) = _ |- _ => destruct b eqn:E end; cbn [negb] in *.
  - rewrite orb_true_iff, !bool_decide_eq_true in E.
    assert (pq_confidentiality request ≠ Plaintext) as Hne; [|naive_solver].
    destruct (pc_route_execution_status c);
      [| |done|destruct (pc_sdk_app_e2ee c) as [config|]; [|destruct (pc_adapter_managed_encryption c); [|done]]]; inv_ok.
    1,2: unfold fixture_encrypt in H; inv_ok; done.
    + unfold sdk_encrypt in H. inv_ok. done.
    + by inv_ok.
  - inv_ok. rewrite orb_false_iff, !bool_decide_eq_false in E. naive_solver.
Qed.

Lemma find_kept key other (l : list (string * Value)) :
  key ≠ other →
  List.find (λ e, fst e =?= key) (List.filter (λ e, negb (fst e =?= other)) l) = List.find (λ e, fst e =?= key) l.
Proof.
  intros Hne. induction l as [|[k v] l IH]; [done|]. cbn. destruct (decide (k = other)) as [->|Ho].
  - by rewrite (bool_decide_true (other = other)), (bool_decide_false (other = key)).
  - rewrite (bool_decide_false (k = other)) by done. cbn. by rewrite IH.
Qed.
Lemma find_first key (l k : list (string * Value)) x :
  List.find (λ e, fst e =?= key) l = Some x → List.find (λ e, fst e =?= key) (l ++ k) = Some x.
Proof. induction l as [|y l IH]; [done|]. cbn. by case_bool_decide. Qed.

Lemma insert_keeps_member key fields l x :
  List.find (λ e, fst e =?= key) fields = Some x → Forall (λ e, fst e ≠ key) l →
  List.find (λ e, fst e =?= key) (fold_left (λ fields e, insert_member (fst e) (snd e) fields) l fields) = Some x.
Proof.
  revert fields. induction l as [|[k v] l IH]; intros fields Hf Hl; [done|]. cbn.
  apply list.Forall_cons in Hl as [Hk Hl]. apply IH; [|done]. unfold insert_member. apply find_first.
  by rewrite find_kept by (cbn in Hk; congruence).
Qed.

Lemma request_fields_model r :
  Forall (λ e, fst e ≠ "model") (cr_members r) →
  string_field "model" (VObject (chat_request_fields r)) = Ok (cr_model r).
Proof.
  intros Hm. unfold string_field, chat_request_fields. cbn [fold_left fst snd].
  rewrite (insert_keeps_member "model" _ _ ("model", VString (cr_model r))); [done|done|].
  apply Forall_app. split; [|done]. destruct (cr_stream r); by repeat constructor.
Qed.

Lemma rewrite_keeps_model c model fields :
  string_field "model" (VObject fields) = Ok model →
  string_field "model" (VObject (apply_token_parameter_rewrite c fields)) = Ok model.
Proof.
  unfold apply_token_parameter_rewrite, remove_member, insert_member. destruct (pc_token_parameter_rewrite c); [done|].
  unfold string_field. destruct (List.find (λ e, fst e =?= "model") fields) as [x|] eqn:E; [|done]. intros H.
  destruct (snd <$> _) as [y|]; [erewrite find_first; [exact H|]; rewrite find_kept by done|];
    by rewrite find_kept, E by done.
Qed.

(** A chat request is put on the wire in the clear exactly when the
    profile requires neither request encryption nor response decryption, and then
    it carries the route's own model name unless its extra members name a model
    themselves; an encrypting profile never falls back
    to plaintext. *)
Theorem adapted_request_confidential rnd c route request adapted :
  adapt_chat_request rnd c route request = Ok adapted →
  supports_endpoint c ChatCompletions = true
  ∧ (streaming request = true → pc_streaming c ≠ Unsupported)
  ∧ (pq_confidentiality adapted = Plaintext ↔
       pc_request_encryption c ≠ EncryptionRequired ∧ pc_response_decryption c ≠ EncryptionRequired)
  ∧ (pq_confidentiality adapted = Plaintext → Forall (λ e, fst e ≠ "model") (cr_members request) →
       string_field "model" (pq_body adapted) = Ok (rd_provider_model route)).
Proof.
  unfold adapt_chat_request, validate_streaming. intros H. inv_ok. bools. destruct (pc_model_id_rewrite c).
  apply confidential_request_mode in H as [Hm Hb]. split_and!; try done.
  - intros Hs. split_ors.
  - intros Hp Hx. rewrite (Hb Hp). apply rewrite_keeps_model. by apply (request_fields_model (chat_with_model _ request)).
Qed.
End Adapt.

(** ** Validated routes *)

Record route_fits (c : ProviderCompatibility) (route : RouteDefinition) : Prop := {
  ft_provider : rd_provider route = pc_provider c;
  ft_api : rd_api_base_url route = pc_api_base_url c;
  ft_freshness : rd_freshness_class route = pc_freshness_class c;
  ft_tier : rd_trust_tier route = pc_expected_trust_tier c;
  ft_request : rd_request_encryption route = pc_request_encryption c;
  ft_response : rd_response_decryption route = pc_response_decryption c;
  ft_streaming : rd_streaming route = pc_streaming c;
  ft_urls : url_authority_has_credentials (rd_api_base_url route) = false
    ∧ url_authority_has_credentials (rd_evidence_endpoint route) = false;
}.

Lemma reject_url_credentials_Ok url : reject_url_credentials url = Ok tt ↔ url_authority_has_credentials url = false.
Proof. unfold reject_url_credentials. rewrite guard_Ok. naive_solver. Qed.

Lemma validate_route_fits c route : compatibility_validate_route c route = Ok tt ↔ route_fits c route.
Proof.
  unfold compatibility_validate_route. rewrite !unit_bind_Ok, !reject_url_credentials_Ok, !guard_Ok, !negb_false_iff,
    !bool_decide_eq_true.
  split; [intros; destruct_and!; by constructor | intros []; split_and!; try done; naive_solver congruence].
Qed.

Lemma registry_routes_fit m r :
  validate_registry_routes m r = Ok tt ↔
    ∀ id model route, rg_models r !! id = Some model → route ∈ rm_routes model →
      security_sensitive (rd_route_status route) = true →
      ∃ c, cm_providers m !! rd_provider route = Some c ∧ route_fits c route.
Proof.
  unfold validate_registry_routes. rewrite btree_for_each. setoid_rewrite for_each_Ok.
  setoid_rewrite list.Forall_forall. setoid_rewrite list_elem_of_In. setoid_rewrite filter_In.
  setoid_rewrite bind_Ok. unfold matrix_provider. setoid_rewrite ok_or_Ok. setoid_rewrite validate_route_fits. naive_solver.
Qed.

(** ** A concrete profile *)

Definition sample_profile (provider : string) (encryption : EncryptionRequirement) (freshness : FreshnessClass)
    : ProviderCompatibility := {|
  pc_provider := provider; pc_route_execution_status := Executable; pc_api_base_url := "https://api.example/v1";
  pc_supported_openai_endpoints := [ChatCompletions]; pc_model_listing := SignedRegistryOnly;
  pc_model_id_rewrite := UseRouteProviderModel; pc_token_parameter_rewrite := MaxTokensToMaxCompletionTokens;
  pc_streaming := Supported; pc_request_encryption := encryption; pc_response_decryption := encryption;
  pc_sdk_app_e2ee := None; pc_adapter_managed_encryption := encryption =?= EncryptionRequired;
  pc_attestation_endpoint_shape := "tinfoil"; pc_required_credentials := [BearerToken];
  pc_freshness_class := freshness; pc_cacheability_class := PerSessionVerdict;
  pc_expected_trust_tier := HwVerifiedTls; pc_model_binding_support := BindingPartial;
  pc_known_unsupported_modes := [] |}.
Definition sample_matrix : ProviderCompatibilityMatrix := {|
  cm_schema := MATRIX_SCHEMA;
  cm_providers := list_to_map [("tinfoil", sample_profile "tinfoil" EncryptionNotRequired FreshPerSession)] |}.

Example sample_matrix_valid : compatibility_validate sample_matrix = Ok tt.
Proof. vm_compute. reflexivity. Qed.
Example sample_matrix_fits : validate_registry_routes sample_matrix registry_2 = Ok tt.
Proof. vm_compute. reflexivity. Qed.

Definition sample_chat : ChatCompletionRequest := {|
  cr_model := "l70"; cr_messages := [VString "hi"]; cr_stream := None;
  cr_members := [("max_tokens", VNumber (PosInt 5))] |}.
#[local] Instance no_request_crypto : RequestCrypto := {|
  standard_encode s := s; standard_decode s := Some s; value_to_vec _ := None; value_of_slice _ := None;
  x25519_public s := s; diffie_hellman _ _ := ""; hkdf_expand _ _ _ := None;
  aead_encrypt _ _ _ _ := None; aead_decrypt _ _ _ _ := None |}.

Lemma adapted_request_confidential_witness :
  ∃ adapted, adapt_chat_request {| rnd_ephemeral := ""; rnd_request_id := ""; rnd_nonce := "" |}
      (sample_profile "tinfoil" EncryptionNotRequired FreshPerSession)
      (sample_definition "r1" "tinfoil" "llama3" Active FreshPerSession) sample_chat = Ok adapted
    ∧ string_field "model" (pq_body adapted) = Ok "llama3".
Proof.
  destruct (is_ok_inv (adapt_chat_request {| rnd_ephemeral := ""; rnd_request_id := ""; rnd_nonce := "" |}
      (sample_profile "tinfoil" EncryptionNotRequired FreshPerSession)
      (sample_definition "r1" "tinfoil" "llama3" Active FreshPerSession) sample_chat)) as [adapted E];
    [vm_compute; reflexivity|].
  exists adapted. split; [exact E|].
  destruct (adapted_request_confidential _ _ _ _ adapted E) as (_ & _ & Hc & Hm).
  apply Hm; [apply Hc; done|]. repeat constructor; done.
Defined.
