(* ===== verification/ClientErrors.v ===== *)
(** * Client errors

    sdk/lib.rs: the errors a client call may end with, what each says about the
    request it was sent for, and the stable code the bindings report. *)

From Stdlib Require Import Ascii String ZArith Lia.
From stdpp Require Import base strings list numbers.
From S2P Require Import Prelude RustStr Errors Policy Verdict ProviderRequest.

Open Scope string_scope.

Inductive ClientError :=
| Attestation (error : AttestationError)
| Provider (error : ProviderError)
| UnknownProvider (provider : string)
| RouteNotFound (provider : option string) (model : string)
| RouteSelectionFailed (provider : option string) (model purpose : string)
| RouteAttemptsFailed (model : string) (errors : list string)
| EmbeddingsRouteAttemptsFailed (model : string) (errors : list string)
| InvalidProviderRouting (model message : string)
| PolicyDenied (route_id : string) (verdict : AttestationVerdict)
| StreamingNotSupported (route_id : string)
| StreamingPathRequired
| ResponseCompatibility (message : string)
| ResponseJsonSerialization (message : string)
| VerifiedRouteExpired (expires_at : string)
| VerifiedRouteModelMismatch (route_id verified_model request_model : string)
| VerificationWaitQueueFull (route_id : string) (max_waiters : N)
| VerificationWaitTimeout (route_id : string)
| MissingModel
| MissingMessages
| MissingInput
| RegistryCache (message : string)
| ReferenceValuesCache (message : string)
| MissingOperatorSigningKeys (artifact : string)
| BundledSourceRequiresTrust (artifact : string)
| FixtureFallbackNotBundled (artifact : string)
| InsecurePolicyRequiresOptIn (enforcement : EnforcementMode)
| ProviderChat (route_id : string) (outcome : DispatchOutcome) (error : ProviderError)
| ProviderEmbeddings (route_id : string) (outcome : DispatchOutcome) (error : ProviderError)
| ProviderResponseManage (route_id : string) (outcome : DispatchOutcome) (error : ProviderError)
| ResponseVerificationFailed (route_id message : string).

Abbreviation ClientResult := (result ClientError).

(** [ClientError::dispatch_outcome]. *)
Definition dispatch_outcome (e : ClientError) : DispatchOutcome :=
  match e with
  | ProviderChat _ outcome _ | ProviderEmbeddings _ outcome _ | ProviderResponseManage _ outcome _ => outcome
  | ResponseVerificationFailed _ _ | ResponseJsonSerialization _ => OutcomeUnknown
  | _ => NotDispatched
  end.

(** [ClientError::code]. *)
Definition error_code (e : ClientError) : string :=
  match e with
  | Attestation _ => "attestation_failed"
  | Provider _ => "provider_failed"
  | UnknownProvider _ => "unknown_provider"
  | RouteNotFound _ _ => "route_not_found"
  | RouteSelectionFailed _ _ _ => "route_selection_failed"
  | RouteAttemptsFailed _ _ => "route_attempts_failed"
  | EmbeddingsRouteAttemptsFailed _ _ => "embeddings_route_attempts_failed"
  | PolicyDenied _ _ => "policy_denied"
  | StreamingNotSupported _ => "streaming_not_supported"
  | StreamingPathRequired => "streaming_path_required"
  | InvalidProviderRouting _ _ => "invalid_provider_routing"
  | ResponseCompatibility _ => "response_compatibility_failed"
  | ResponseJsonSerialization _ => "response_serialization_failed"
  | VerifiedRouteExpired _ => "verified_route_expired"
  | VerifiedRouteModelMismatch _ _ _ => "verified_route_model_mismatch"
  | VerificationWaitQueueFull _ _ => "verification_queue_full"
  | VerificationWaitTimeout _ => "verification_wait_timeout"
  | MissingModel => "missing_model"
  | MissingMessages => "missing_messages"
  | MissingInput => "missing_input"
  | RegistryCache _ => "registry_cache_failed"
  | ReferenceValuesCache _ => "reference_values_cache_failed"
  | MissingOperatorSigningKeys _ => "missing_operator_signing_keys"
  | BundledSourceRequiresTrust _ => "bundled_source_requires_trust"
  | FixtureFallbackNotBundled _ => "fixture_fallback_not_bundled"
  | InsecurePolicyRequiresOptIn _ => "insecure_policy_requires_opt_in"
  | ProviderChat _ _ _ => "provider_chat_failed"
  | ProviderEmbeddings _ _ _ => "provider_embeddings_failed"
  | ProviderResponseManage _ _ _ => "provider_response_manage_failed"
  | ResponseVerificationFailed _ _ => "response_verification_failed"
  end.

Definition provider_http_status (e : ClientError) : option Z :=
  match dispatch_outcome e with Rejected status => Some status | _ => None end.

(** [?] on an attestation or provider result. *)
Definition attested {A} (r : Result A) : ClientResult A := map_err Attestation r.
Definition provided {A} (r : ProviderResult A) : ClientResult A := map_err Provider r.

(** [Display], with the values it interpolates left as placeholders. *)
Definition client_error_text (e : ClientError) : string :=
  match e with
  | Attestation _ => "attestation failed: {0}"
  | Provider _ => "provider failed: {0}"
  | UnknownProvider _ => "provider {0} is not registered"
  | RouteNotFound _ _ => "no active route for provider {provider:?} and model {model}"
  | RouteSelectionFailed _ _ _ => "no {purpose} route satisfies policy for provider {provider:?} and model {model}"
  | RouteAttemptsFailed _ _ => "all policy-compatible chat route attempts failed for model {model}: {errors:?}"
  | EmbeddingsRouteAttemptsFailed _ _ =>
      "all policy-compatible embeddings route attempts failed for model {model}: {errors:?}"
  | InvalidProviderRouting _ _ => "invalid provider routing configuration for model {model}: {message}"
  | PolicyDenied _ _ => "verification policy denied request for route {route_id}"
  | StreamingNotSupported _ => "streaming is not supported for route {route_id} under the selected policy"
  | StreamingPathRequired =>
      "streaming requests must use the streaming endpoint (chat_completions().streaming() or send_chat_stream_payload_json)"
  | ResponseCompatibility _ => "Responses compatibility failed: {0}"
  | ResponseJsonSerialization _ => "response JSON serialization failed: {0}"
  | VerifiedRouteExpired _ => "verified route expired at {expires_at}"
  | VerifiedRouteModelMismatch _ _ _ =>
      "verified route {route_id} was bound to requested model {verified_model}, but request used model {request_model}"
  | VerificationWaitQueueFull _ _ =>
      "verification wait queue is full for route {route_id}; max_waiters={max_waiters}"
  | VerificationWaitTimeout _ => "timed out waiting for in-flight verification for route {route_id}"
  | MissingModel => "chat completion model was not configured"
  | MissingMessages => "chat completion messages were not configured"
  | MissingInput => "embeddings input was not configured or was empty"
  | RegistryCache _ => "registry cache failed: {0}"
  | ReferenceValuesCache _ => "reference values cache failed: {0}"
  | MissingOperatorSigningKeys _ =>
      "{artifact} requires at least one operator trusted artifact signing key; configure trusted_artifact_signing_key, trusted_ed25519_artifact_signing_key, or a non-empty exclusive_trusted_artifact_signing_keys set"
  | BundledSourceRequiresTrust _ =>
      "bundled {artifact} is fixture material: call with_demo_provider() to trust the bundled fixture keys, or exclusive_trusted_artifact_signing_keys with a non-empty operator key set"
  | FixtureFallbackNotBundled _ =>
      "fixture-signed fallback {artifact} is not the SDK-bundled artifact; remote fallbacks must be signed by an operator trusted artifact signing key"
  | InsecurePolicyRequiresOptIn _ =>
      "verification policy uses {enforcement:?} enforcement; call allow_insecure_plaintext(true) to acknowledge that observe/disabled modes can send plaintext or policy-failing traffic"
  | ProviderChat _ _ _ => "provider chat failed on route {route_id} ({}): {error}"
  | ProviderEmbeddings _ _ _ => "provider embeddings failed on route {route_id} ({}): {error}"
  | ProviderResponseManage _ _ _ => "provider Responses follow-up failed on route {route_id} ({}): {error}"
  | ResponseVerificationFailed _ _ => "response for route {route_id} failed verification after execution: {message}"
  end.
