(* ===== verification/VerdictCache.v ===== *)
(** * The verdict cache and single-flight verification

    sdk/lib.rs: cached verdicts with their expiry, age and clock-jump checks;
    the table of verifications in flight, whose owner verifies while waiters
    share its result; and the client tasks that use both, as a transition system
    whose steps are the sections of code that run under one lock or between two
    awaits. *)

From Stdlib Require Import Ascii String ZArith Lia.
From stdpp Require Import base gmap strings list numbers fin_maps relations.
From S2P Require Import Prelude RustStr Errors Collections Canonical JsonInjective Policy Verdict ProviderRequest ClientErrors.

Open Scope string_scope.

(** ** Data *)

Record VerificationCacheKey := {
  ck_provider : string;
  ck_route_id : string;
  ck_evidence_family : string;
  ck_requested_model : string;
  ck_provider_model : string;
  ck_canonical_model : string;
  ck_api_endpoint : string;
  ck_evidence_endpoint : string;
  ck_policy_digest : string;
  ck_reference_values_digest : string;
  ck_provider_registry_digest : string;
  ck_adapter_version : string;
  ck_trust_tier : string;
  ck_channel_binding_kind : string;
  ck_request_confidentiality_requirement : string;
  ck_response_confidentiality_requirement : string;
  ck_response_integrity_requirement : string;
  ck_request_encryption : string;
  ck_response_decryption : string;
  ck_streaming_allowed : bool;
  ck_request_mode : string;
  ck_per_request_freshness : bool;
}.
#[export] Instance VerificationCacheKey_eq_dec : EqDecision VerificationCacheKey.
Proof. solve_decision. Defined.

Definition key_fields (k : VerificationCacheKey) : list string * (bool * bool) :=
  ([ck_provider k; ck_route_id k; ck_evidence_family k; ck_requested_model k; ck_provider_model k;
    ck_canonical_model k; ck_api_endpoint k; ck_evidence_endpoint k; ck_policy_digest k;
    ck_reference_values_digest k; ck_provider_registry_digest k; ck_adapter_version k; ck_trust_tier k;
    ck_channel_binding_kind k; ck_request_confidentiality_requirement k;
    ck_response_confidentiality_requirement k; ck_response_integrity_requirement k; ck_request_encryption k;
    ck_response_decryption k; ck_request_mode k], (ck_streaming_allowed k, ck_per_request_freshness k)).
Definition key_of_fields (f : list string * (bool * bool)) : option VerificationCacheKey :=
  match f with
  | ([p; r; ef; rm; pm; cm; ae; ee; pd; rd; gd; av; tier; cb; rc; sc; ri; re; sd; mode], (st, pr)) =>
      Some (Build_VerificationCacheKey p r ef rm pm cm ae ee pd rd gd av tier cb rc sc ri re sd st mode pr)
  | _ => None
  end.
#[export] Instance VerificationCacheKey_countable : Countable VerificationCacheKey.
Proof. apply (inj_countable key_fields key_of_fields). by intros []. Defined.

(** An [Instant] is a reading of the monotonic clock, in milliseconds. *)
Record CachedVerdict := {
  cv_verdict : AttestationVerdict;
  cv_inserted_at : Z;
  cv_inserted_wall_clock_epoch_ms : Z;
}.

Definition CACHE_CLOCK_JUMP_REVALIDATION_THRESHOLD_MS : Z := 60000.
Definition SINGLE_FLIGHT_MAX_WAITERS : N := 64.

(** ** Validity of a cached verdict *)

Definition verdict_epoch_allowed_by_stale_policy (expires_at_epoch_ms now_epoch_ms : Z)
    (stale_policy : StaleVerdictPolicy) : bool :=
  match stale_policy with
  | FailClosed => (now_epoch_ms <? expires_at_epoch_ms)%Z
  | AllowForMillis millis => (now_epoch_ms <? saturating_add expires_at_epoch_ms millis)%Z
  end.

(** [u64::abs_diff]; [duration_millis] saturates. *)
Definition abs_diff (a b : Z) : Z := Z.abs (a - b).
Definition duration_millis (millis : Z) : Z := Z.min millis u64_max.

Definition wall_clock_jump_detected (cached : CachedVerdict) (elapsed now_epoch_ms : Z) : bool :=
  let monotonic_elapsed_ms := duration_millis elapsed in
  let wall_elapsed_ms := abs_diff now_epoch_ms (cv_inserted_wall_clock_epoch_ms cached) in
  (CACHE_CLOCK_JUMP_REVALIDATION_THRESHOLD_MS <? abs_diff monotonic_elapsed_ms wall_elapsed_ms)%Z.

(** [instant] is the monotonic clock now. *)
Definition is_valid (cached : CachedVerdict) (instant now_epoch_ms max_cache_age_ms : Z)
    (stale_policy : StaleVerdictPolicy) : bool :=
  let elapsed := (instant - cv_inserted_at cached)%Z in
  verdict_epoch_allowed_by_stale_policy (v_expires_at_epoch_ms (cv_verdict cached)) now_epoch_ms stale_policy
  && (elapsed <=? max_cache_age_ms)%Z
  && negb (wall_clock_jump_detected cached elapsed now_epoch_ms).

Definition cache_age_limit_millis_for (policy : VerificationPolicy) (key : VerificationCacheKey) : option Z :=
  if ck_per_request_freshness key then None
  else if (verdict_ttl_millis policy =? 0)%Z then None
  else match freshness policy with
       | PerRequest => None
       | PerSession => Some (verdict_ttl_millis policy)
       | AllowCachedBindingMillis millis =>
           let limit := Z.min (verdict_ttl_millis policy) millis in
           if (0 <? limit)%Z then Some limit else None
       end.
Definition cache_enabled_for (policy : VerificationPolicy) (key : VerificationCacheKey) : bool :=
  is_some (cache_age_limit_millis_for policy key).

Definition enforce_verdict (verdict : AttestationVerdict) : result ClientError AttestationVerdict :=
  if v_request_allowed verdict then Ok verdict else Err (PolicyDenied (v_route_id verdict) verdict).

(** ** Shared state

    A flight lives in the table while its owner runs; its waiter count is on the
    flight itself, so a waiter that outlives the flight still counts there. *)

Record Shared := {
  sh_cache : gmap VerificationCacheKey CachedVerdict;
  sh_flights : gmap VerificationCacheKey nat;
  sh_waiters : gmap nat N;
  sh_notified : gset nat;
  sh_next : nat;
  sh_wall : Z;
  sh_instant : Z;
}.
Definition set_cache (c : gmap VerificationCacheKey CachedVerdict) (s : Shared) : Shared := {|
  sh_cache := c; sh_flights := sh_flights s; sh_waiters := sh_waiters s; sh_notified := sh_notified s;
  sh_next := sh_next s; sh_wall := sh_wall s; sh_instant := sh_instant s |}.

(** [cached_verdict]: a hit, or a miss that drops an entry no longer valid. *)
Definition cached_verdict (policy : VerificationPolicy) (key : VerificationCacheKey) (s : Shared)
    : option AttestationVerdict * Shared :=
  match cache_age_limit_millis_for policy key with
  | None => (None, s)
  | Some max_cache_age_ms =>
      match sh_cache s !! key with
      | None => (None, s)
      | Some cached =>
          if is_valid cached (sh_instant s) (sh_wall s) max_cache_age_ms (stale_verdicts policy)
          then (Some (cv_verdict cached), s)
          else (None, set_cache (delete key (sh_cache s)) s)
      end
  end.

Definition store_cached_verdict (policy : VerificationPolicy) (key : VerificationCacheKey)
    (verdict : AttestationVerdict) (s : Shared) : Shared :=
  if cache_enabled_for policy key
  then set_cache (<[key := {| cv_verdict := verdict; cv_inserted_at := sh_instant s;
                              cv_inserted_wall_clock_epoch_ms := sh_wall s |}]> (sh_cache s)) s
  else s.

Definition invalidate_cached_verdict (key : VerificationCacheKey) (s : Shared) : Shared :=
  set_cache (delete key (sh_cache s)) s.

Inductive VerificationFlight := Owner | Wait (flight : nat) | QueueFull.

Definition waiter_count (s : Shared) (flight : nat) : N := default 0%N (sh_waiters s !! flight).
(** [AtomicUsize]: additions and subtractions wrap. *)
Definition usize_modulus : N := 18446744073709551616.
Definition fetch_add (n : N) : N := ((n + 1) mod usize_modulus)%N.
Definition fetch_sub (n : N) : N := ((n + (usize_modulus - 1)) mod usize_modulus)%N.
Definition set_waiters (flight : nat) (n : N) (s : Shared) : Shared := {|
  sh_cache := sh_cache s; sh_flights := sh_flights s; sh_waiters := <[flight := n]> (sh_waiters s);
  sh_notified := sh_notified s; sh_next := sh_next s; sh_wall := sh_wall s; sh_instant := sh_instant s |}.

Definition acquire_verification_flight (key : VerificationCacheKey) (s : Shared) : VerificationFlight * Shared :=
  match sh_flights s !! key with
  | Some flight =>
      if (SINGLE_FLIGHT_MAX_WAITERS <=? waiter_count s flight)%N then (QueueFull, s)
      else (Wait flight, set_waiters flight (fetch_add (waiter_count s flight)) s)
  | None =>
      (Owner, {| sh_cache := sh_cache s; sh_flights := <[key := sh_next s]> (sh_flights s);
                 sh_waiters := <[sh_next s := 0%N]> (sh_waiters s); sh_notified := sh_notified s;
                 sh_next := S (sh_next s); sh_wall := sh_wall s; sh_instant := sh_instant s |})
  end.

(** Drop of [VerificationFlightOwnerGuard]: the entry goes, its waiters wake. *)
Definition drop_owner_guard (key : VerificationCacheKey) (s : Shared) : Shared :=
  match sh_flights s !! key with
  | Some flight =>
      {| sh_cache := sh_cache s; sh_flights := delete key (sh_flights s); sh_waiters := sh_waiters s;
         sh_notified := {[flight]} ∪ sh_notified s; sh_next := sh_next s; sh_wall := sh_wall s;
         sh_instant := sh_instant s |}
  | None => s
  end.

(** Drop of [VerificationFlightWaiterGuard]. *)
Definition drop_waiter_guard (flight : nat) (s : Shared) : Shared :=
  set_waiters flight (fetch_sub (waiter_count s flight)) s.

(** ** Client tasks *)

Definition Outcome : Type := result ClientError AttestationVerdict.

(** Where a call of [verify_selected_route] (or of
    [refresh_selected_route_after_key_rotation]) stands. *)
Inductive Task :=
| Entering (key : VerificationCacheKey)
| Fetching (key : VerificationCacheKey)
| Looking (key : VerificationCacheKey)
| Missed (key : VerificationCacheKey)
| Waiting (key : VerificationCacheKey) (flight : nat)
| TimedOut (key : VerificationCacheKey) (flight : nat)
| Leaving (key : VerificationCacheKey) (flight : nat) (outcome : option Outcome)
| Owning (key : VerificationCacheKey)
| Storing (key : VerificationCacheKey) (verdict : AttestationVerdict)
| Finishing (key : VerificationCacheKey) (outcome : option Outcome)
| Invalidating (key : VerificationCacheKey)
| Refreshing (key : VerificationCacheKey)
| RefreshStoring (key : VerificationCacheKey) (verdict : AttestationVerdict)
| Done (key : VerificationCacheKey) (outcome : option Outcome).

Section Tasks.
Context (policy : VerificationPolicy).
(** What [fetch_and_verify_route] may return for a key. *)
Context (Verified : VerificationCacheKey → Outcome → Prop).

(** [fetch_and_verify_route(..).await?] followed by [enforce_verdict]. *)
Definition enforced (r : Outcome) : Outcome :=
  match r with Ok v => enforce_verdict v | Err e => Err e end.

Definition owner_next (key : VerificationCacheKey) (o : Outcome) : Task :=
  match o with Ok v => Storing key v | Err e => Finishing key (Some (Err e)) end.
Definition refresh_next (key : VerificationCacheKey) (o : Outcome) : Task :=
  match o with Ok v => RefreshStoring key v | Err e => Done key (Some (Err e)) end.
Definition left_next (key : VerificationCacheKey) (o : option Outcome) : Task :=
  match o with Some r => Done key (Some r) | None => Looking key end.
Definition flight_next (key : VerificationCacheKey) (flight : VerificationFlight) : Task :=
  match flight with
  | Owner => Owning key
  | Wait f => Waiting key f
  | QueueFull => Done key (Some (Err (VerificationWaitQueueFull (ck_route_id key) SINGLE_FLIGHT_MAX_WAITERS)))
  end.

Inductive task_step (s : Shared) : Task → Shared → Task → Prop :=
(** [verify_selected_route] *)
| step_enter_hit key v s' : cached_verdict policy key s = (Some v, s') →
    task_step s (Entering key) s' (Done key (Some (Ok v)))
| step_enter_miss key s' : cached_verdict policy key s = (None, s') →
    task_step s (Entering key) s' (if cache_enabled_for policy key then Looking key else Fetching key)
| step_fetched key r : Verified key r →
    task_step s (Fetching key) s (Done key (Some (enforced r)))
(** [verify_selected_route_single_flight] *)
| step_look_hit key v s' : cached_verdict policy key s = (Some v, s') →
    task_step s (Looking key) s' (Done key (Some (Ok v)))
| step_look_miss key s' : cached_verdict policy key s = (None, s') →
    task_step s (Looking key) s' (Missed key)
| step_acquire key flight s' : acquire_verification_flight key s = (flight, s') →
    task_step s (Missed key) s' (flight_next key flight)
| step_wake key f : f ∈ sh_notified s → task_step s (Waiting key f) s (Leaving key f None)
| step_timeout key f : task_step s (Waiting key f) s (TimedOut key f)
| step_late_hit key f v s' : cached_verdict policy key s = (Some v, s') →
    task_step s (TimedOut key f) s' (Leaving key f (Some (Ok v)))
| step_late_miss key f s' : cached_verdict policy key s = (None, s') →
    task_step s (TimedOut key f) s' (Leaving key f (Some (Err (VerificationWaitTimeout (ck_route_id key)))))
| step_leave key f o : task_step s (Leaving key f o) (drop_waiter_guard f s) (left_next key o)
(** [verify_selected_route_as_flight_owner] *)
| step_owner_fetched key r : Verified key r → task_step s (Owning key) s (owner_next key (enforced r))
| step_store key v :
    task_step s (Storing key v) (store_cached_verdict policy key v s) (Finishing key (Some (Ok v)))
| step_finish key o : task_step s (Finishing key o) (drop_owner_guard key s) (Done key o)
(** [refresh_selected_route_after_key_rotation] *)
| step_invalidate key : task_step s (Invalidating key) (invalidate_cached_verdict key s) (Refreshing key)
| step_refreshed key r : Verified key r → task_step s (Refreshing key) s (refresh_next key (enforced r))
| step_refresh_store key v :
    task_step s (RefreshStoring key v) (store_cached_verdict policy key v s) (Done key (Some (Ok v)))
(** A future dropped at an await runs the guards it holds *)
| step_cancel_wait key f : task_step s (Waiting key f) (drop_waiter_guard f s) (Done key None)
| step_cancel_owner key : task_step s (Owning key) s (Finishing key None)
| step_cancel_fetch key : task_step s (Fetching key) s (Done key None)
| step_cancel_refresh key : task_step s (Refreshing key) s (Done key None).

Definition System : Type := Shared * gmap nat Task.
Definition set_clocks (wall instant : Z) (s : Shared) : Shared := {|
  sh_cache := sh_cache s; sh_flights := sh_flights s; sh_waiters := sh_waiters s; sh_notified := sh_notified s;
  sh_next := sh_next s; sh_wall := wall; sh_instant := instant |}.

(** The monotonic clock never goes back; the wall clock may do anything. *)
Inductive system_step : System → System → Prop :=
| system_task s T i t s' t' : T !! i = Some t → task_step s t s' t' → system_step (s, T) (s', <[i := t']> T)
| system_call s T i key : T !! i = None → system_step (s, T) (s, <[i := Entering key]> T)
| system_refresh s T i key : T !! i = None → system_step (s, T) (s, <[i := Invalidating key]> T)
| system_clock s T wall instant : (sh_instant s ≤ instant)%Z → system_step (s, T) (set_clocks wall instant s, T).

Definition fresh_shared (wall instant : Z) : Shared := {|
  sh_cache := ∅; sh_flights := ∅; sh_waiters := ∅; sh_notified := ∅; sh_next := O;
  sh_wall := wall; sh_instant := instant |}.
Definition reachable (sys : System) : Prop :=
  ∃ wall instant, rtc system_step (fresh_shared wall instant, ∅) sys.

(** ** The invariant *)

(** The key whose owner guard a task holds; the flight whose waiter guard. *)
Definition owns (t : Task) : option VerificationCacheKey :=
  match t with Owning k | Storing k _ | Finishing k _ => Some k | _ => None end.
Definition waits (t : Task) : option nat :=
  match t with Waiting _ f | TimedOut _ f | Leaving _ f _ => Some f | _ => None end.

Definition waiting_on (T : gmap nat Task) (f : nat) : nat := size (filter (λ p, waits p.2 = Some f) T).

(** A verdict fit to be used for a key. *)
Definition usable (key : VerificationCacheKey) (v : AttestationVerdict) : Prop :=
  Verified key (Ok v) ∧ v_request_allowed v = true.
Definition outcome_ok (key : VerificationCacheKey) (o : option Outcome) : Prop :=
  match o with Some (Ok v) => usable key v | _ => True end.
Definition task_ok (t : Task) : Prop :=
  match t with
  | Storing k v | RefreshStoring k v => usable k v
  | Leaving k _ o | Finishing k o | Done k o => outcome_ok k o
  | _ => True
  end.

Record verdicts_ok (sys : System) : Prop := {
  vo_cache k c : sh_cache sys.1 !! k = Some c → usable k (cv_verdict c);
  vo_tasks i t : sys.2 !! i = Some t → task_ok t;
}.
Record flights_ok (sys : System) : Prop := {
  fo_owned k f : sh_flights sys.1 !! k = Some f → ∃ i t, sys.2 !! i = Some t ∧ owns t = Some k;
  fo_owner i t k : sys.2 !! i = Some t → owns t = Some k → is_Some (sh_flights sys.1 !! k);
  fo_single i j t t' k : sys.2 !! i = Some t → sys.2 !! j = Some t' → owns t = Some k → owns t' = Some k → i = j;
}.
Record waiters_ok (sys : System) : Prop := {
  wo_fresh_flight k f : sh_flights sys.1 !! k = Some f → (f < sh_next sys.1)%nat;
  wo_fresh_waiter i t f : sys.2 !! i = Some t → waits t = Some f → (f < sh_next sys.1)%nat;
  wo_count f : waiter_count sys.1 f = N.of_nat (waiting_on sys.2 f);
  wo_bound f : (N.of_nat (waiting_on sys.2 f) ≤ SINGLE_FLIGHT_MAX_WAITERS)%N;
  wo_wake i k f : sys.2 !! i = Some (Waiting k f) → sh_flights sys.1 !! k = Some f ∨ f ∈ sh_notified sys.1;
}.

(** *** Verdicts *)

Lemma cached_verdict_cases key s v s' :
  cached_verdict policy key s = (v, s') →
  (s' = s ∨ s' = set_cache (delete key (sh_cache s)) s)
  ∧ (∀ w, v = Some w → ∃ c, sh_cache s !! key = Some c ∧ cv_verdict c = w).
Proof.
  unfold cached_verdict.
  destruct (cache_age_limit_millis_for policy key); [|intros [= <- <-]; split; [by left|done]].
  destruct (sh_cache s !! key) as [c|] eqn:E; [|intros [= <- <-]; split; [by left|done]].
  destruct (is_valid _ _ _ _ _); intros [= <- <-]; (split; [by auto|]); [|done].
  intros w [= <-]. by exists c.
Qed.

Lemma enforced_ok key r : Verified key r → outcome_ok key (Some (enforced r)).
Proof.
  intros H. destruct r as [v|]; cbn; [|done]. unfold enforce_verdict.
  destruct (v_request_allowed v) eqn:E; [by split|done].
Qed.

Definition cache_ok (s : Shared) : Prop := ∀ k c, sh_cache s !! k = Some c → usable k (cv_verdict c).

Lemma delete_cache_ok key s : cache_ok s → cache_ok (set_cache (delete key (sh_cache s)) s).
Proof. intros H k c Hk. cbn in Hk. apply lookup_delete_Some in Hk as [_ Hk]. by apply H. Qed.
Lemma store_cache_ok key v s : usable key v → cache_ok s → cache_ok (store_cached_verdict policy key v s).
Proof.
  intros Hv H k c. unfold store_cached_verdict. destruct (cache_enabled_for policy key); [|apply H].
  cbn. intros [[<- <-]|[_ Hk]]%lookup_insert_Some; [done|by apply H].
Qed.
Lemma cached_verdict_ok key s v s' :
  cache_ok s → cached_verdict policy key s = (v, s') → cache_ok s' ∧ outcome_ok key (Ok <$> v).
Proof.
  intros H [Hs Hv]%cached_verdict_cases. split.
  - destruct Hs as [->| ->]; [done|by apply delete_cache_ok].
  - destruct v as [w|]; [|done]. destruct (Hv w eq_refl) as (c & Hc & <-). by apply H.
Qed.

Lemma acquire_cache key s flight s' : acquire_verification_flight key s = (flight, s') → sh_cache s' = sh_cache s.
Proof.
  unfold acquire_verification_flight. destruct (sh_flights s !! key); [destruct (_ <=? _)%N|]; by intros [= _ <-].
Qed.
Lemma drop_owner_cache key s : sh_cache (drop_owner_guard key s) = sh_cache s.
Proof. unfold drop_owner_guard. by destruct (sh_flights s !! key). Qed.

Lemma task_step_verdicts s t s' t' :
  task_step s t s' t' → cache_ok s → task_ok t → cache_ok s' ∧ task_ok t'.
Proof.
  intros Hstep Hc Ht. inversion Hstep; subst; cbn [task_ok] in *;
    try match goal with H : cached_verdict _ _ _ = _ |- _ => by apply (cached_verdict_ok _ _ _ _ Hc H) end;
    try match goal with H : cached_verdict _ _ _ = _ |- _ =>
      destruct (cached_verdict_ok _ _ _ _ Hc H); split; [done|by try destruct (cache_enabled_for _ _)] end;
    try (by split); try (by split; [apply store_cache_ok|]).
  - split; [done|]. by apply enforced_ok.
  - split; [intros k c Hk; rewrite (acquire_cache _ _ _ _ H) in Hk; by apply Hc|by destruct flight].
  - split; [done|]. by destruct o.
  - split; [done|]. pose proof (enforced_ok _ _ H) as Ho. by destruct (enforced r).
  - split; [intros k c Hk; rewrite drop_owner_cache in Hk; by apply Hc|done].
  - split; [by apply delete_cache_ok|done].
  - split; [done|]. pose proof (enforced_ok _ _ H) as Ho. by destruct (enforced r).
Qed.

Lemma reachable_ind (P : System → Prop) :
  (∀ wall instant, P (fresh_shared wall instant, ∅)) →
  (∀ sys sys', P sys → system_step sys sys' → P sys') → ∀ sys, reachable sys → P sys.
Proof.
  intros H0 HS sys (wall & instant & Hr).
  refine (rtc_ind_r P _ (H0 wall instant) _ sys Hr). intros y z _ Hyz Hy. by eapply HS.
Qed.

Lemma verdicts_invariant sys : reachable sys → verdicts_ok sys.
Proof.
  revert sys. apply reachable_ind; [intros wall instant; constructor; cbn; intros; simplify_map_eq|].
  intros sys sys' [Hc Ht] Hstep. inversion Hstep; subst; cbn in *.
  - destruct (task_step_verdicts s t s' t') as [Hc' Ht']; [done|done|by eapply Ht|].
    constructor; cbn; [done|]. intros j u. intros [[<- <-]|[_ Hj]]%lookup_insert_Some; [done|by eapply Ht].
  - constructor; cbn; [done|]. intros j u [[<- <-]|[_ Hj]]%lookup_insert_Some; [done|by eapply Ht].
  - constructor; cbn; [done|]. intros j u [[<- <-]|[_ Hj]]%lookup_insert_Some; [done|by eapply Ht].
  - by constructor.
Qed.

(** *** Owners *)

(** What a step does to the flight table and the owner guards. *)
Inductive flight_effect (s : Shared) (t : Task) (s' : Shared) (t' : Task) : Prop :=
| effect_none : owns t' = owns t → sh_flights s' = sh_flights s → sh_notified s' = sh_notified s →
    sh_next s' = sh_next s → flight_effect s t s' t'
| effect_acquire k : owns t = None → owns t' = Some k → sh_flights s !! k = None →
    sh_flights s' = <[k := sh_next s]> (sh_flights s) → sh_notified s' = sh_notified s →
    sh_next s' = S (sh_next s) → flight_effect s t s' t'
| effect_release k : owns t = Some k → owns t' = None → sh_flights s' = delete k (sh_flights s) →
    (∀ f, sh_flights s !! k = Some f → f ∈ sh_notified s') → sh_notified s ⊆ sh_notified s' →
    sh_next s' = sh_next s → flight_effect s t s' t'.

Lemma cached_verdict_flights key s v s' :
  cached_verdict policy key s = (v, s') →
  sh_flights s' = sh_flights s ∧ sh_notified s' = sh_notified s ∧ sh_next s' = sh_next s
  ∧ sh_waiters s' = sh_waiters s.
Proof. intros [[->| ->] _]%cached_verdict_cases; by split_and!. Qed.
Lemma store_flights key v s :
  let s' := store_cached_verdict policy key v s in
  sh_flights s' = sh_flights s ∧ sh_notified s' = sh_notified s ∧ sh_next s' = sh_next s
  ∧ sh_waiters s' = sh_waiters s.
Proof. unfold store_cached_verdict. by destruct (cache_enabled_for policy key). Qed.

Lemma task_step_flights s t s' t' : task_step s t s' t' → flight_effect s t s' t'.
Proof.
  intros Hstep. inversion Hstep; subst;
    try match goal with H : cached_verdict _ _ _ = _ |- _ =>
      apply cached_verdict_flights in H as (? & ? & ? & _);
      apply effect_none; [cbn; by try destruct (cache_enabled_for _ _)|done..] end;
    try (by apply effect_none);
    try (apply effect_none; [done|apply store_flights..]).
  - revert H. unfold acquire_verification_flight. destruct (sh_flights s !! key) as [f|] eqn:E.
    + destruct (_ <=? _)%N; intros [= <- <-]; by apply effect_none.
    + intros [= <- <-]. by apply (effect_acquire _ _ _ _ key).
  - apply effect_none; [by destruct o|done..].
  - apply effect_none; [by destruct (enforced r)|done..].
  - apply (effect_release _ _ _ _ key); [done|done|..]; unfold drop_owner_guard;
      destruct (sh_flights s !! key) as [f|] eqn:E; cbn; try done; try set_solver.
    by rewrite delete_id.
  - apply effect_none; [by destruct (enforced r)|done..].
Qed.

Lemma flights_step s T i t s' t' :
  T !! i = Some t → flight_effect s t s' t' → flights_ok (s, T) → flights_ok (s', <[i := t']> T).
Proof.
  intros Hi Heff [Howned Howner Hsingle]. cbn in *.
  assert (∀ j u k, j ≠ i → T !! j = Some u → owns u = Some k → owns t ≠ Some k) as Hother
    by (intros j u k Hj Hu Hk Ht; apply Hj; by eapply Hsingle).
  destruct Heff as [Ho Hf _ _|k Ht Ht' Hk Hf _ _|k Ht Ht' Hf _ _ _]; constructor; cbn; rewrite ?Hf.
  - intros k f (j & u & Hj & Hu)%Howned. destruct (decide (i = j)) as [<-|].
    + exists i, t'. rewrite lookup_insert_eq. split; [done|]. simplify_eq. congruence.
    + exists j, u. by rewrite lookup_insert_ne.
  - intros j u k [[<- <-]|[_ Hj]]%lookup_insert_Some Hu; [|by eapply Howner].
    eapply (Howner i t); [done|congruence].
  - intros j j' u u' k [[<- <-]|[Hj1 Hj]]%lookup_insert_Some [[<- <-]|[Hj1' Hj']]%lookup_insert_Some Hu Hu';
      [done|..|by eapply Hsingle]; rewrite Ho in *; by eapply Hsingle.
  - intros k' f [[<- <-]|[Hne Hk']]%lookup_insert_Some; [exists i, t'; by rewrite lookup_insert_eq|].
    apply Howned in Hk' as (j & u & Hj & Hu). exists j, u. rewrite lookup_insert_ne; [done|congruence].
  - intros j u k' [[<- <-]|[_ Hj]]%lookup_insert_Some Hu; apply lookup_insert_is_Some'; [left; congruence|].
    right. by eapply Howner.
  - assert (∀ j u, T !! j = Some u → owns u ≠ Some k) as Hno
      by (intros j u Hj Hu; destruct (Howner j u k Hj Hu); congruence).
    intros j j' u u' k' [[<- <-]|[Hj1 Hj]]%lookup_insert_Some [[<- <-]|[Hj1' Hj']]%lookup_insert_Some Hu Hu';
      [done|..|by eapply Hsingle].
    + destruct (Hno j' u' Hj'). congruence.
    + destruct (Hno j u Hj). congruence.
  - intros k' f [Hne Hk']%lookup_delete_Some. apply Howned in Hk' as (j & u & Hj & Hu).
    exists j, u. rewrite lookup_insert_ne; [done|]. intros <-. simplify_eq.
  - intros j u k' [[<- <-]|[Hne Hj]]%lookup_insert_Some Hu; [congruence|].
    assert (k ≠ k') as Hk by (intros <-; by eapply (Hother j)).
    rewrite lookup_delete_ne by done. by eapply Howner.
  - intros j j' u u' k' [[<- <-]|[Hj1 Hj]]%lookup_insert_Some [[<- <-]|[Hj1' Hj']]%lookup_insert_Some Hu Hu';
      [done|congruence|congruence|by eapply Hsingle].
Qed.

Lemma flights_spawn s T i t : T !! i = None → owns t = None → flights_ok (s, T) → flights_ok (s, <[i := t]> T).
Proof.
  intros Hi Ht [Howned Howner Hsingle]. constructor; cbn in *.
  - intros k f (j & u & Hj & Hu)%Howned. exists j, u. rewrite lookup_insert_ne; [done|congruence].
  - intros j u k [[<- <-]|[_ Hj]]%lookup_insert_Some Hu; [congruence|by eapply Howner].
  - intros j j' u u' k [[<- <-]|[_ Hj]]%lookup_insert_Some [[<- <-]|[_ Hj']]%lookup_insert_Some Hu Hu';
      [done|congruence|congruence|by eapply Hsingle].
Qed.

Lemma flights_invariant sys : reachable sys → flights_ok sys.
Proof.
  revert sys. apply reachable_ind; [intros wall instant; constructor; cbn; intros; simplify_map_eq|].
  intros sys sys' H Hstep. inversion Hstep; subst.
  - eapply flights_step; [done|by apply task_step_flights|done].
  - by apply flights_spawn.
  - by apply flights_spawn.
  - destruct H. by constructor.
Qed.
(** *** Waiters *)

Definition counts (t : Task) (f : nat) : nat := if bool_decide (waits t = Some f) then 1%nat else O.

Lemma waiting_on_spawn T i t f :
  T !! i = None → waiting_on (<[i := t]> T) f = (waiting_on T f + counts t f)%nat.
Proof.
  intros Hi. unfold waiting_on, counts. rewrite map_filter_insert. cbn. case_bool_decide as Hc; case_decide; try done.
  - rewrite map_size_insert_None by (by apply map_lookup_filter_None; left). lia.
  - rewrite delete_id by done. lia.
Qed.
Lemma waiting_on_update T i t t' f :
  T !! i = Some t → (waiting_on (<[i := t']> T) f + counts t f = waiting_on T f + counts t' f)%nat.
Proof.
  intros Hi. rewrite <-(insert_delete_id T i t Hi) at 2. rewrite <-insert_delete_eq.
  rewrite !waiting_on_spawn by apply lookup_delete_eq. lia.
Qed.
Lemma waiting_on_same T i t t' f :
  T !! i = Some t → counts t' f = counts t f → waiting_on (<[i := t']> T) f = waiting_on T f.
Proof. intros Hi Hc. pose proof (waiting_on_update T i t t' f Hi). lia. Qed.

(** What a step does to the waiter guards. *)
Inductive waiter_effect (s : Shared) (t : Task) (s' : Shared) (t' : Task) : Prop :=
| wait_same : waits t' = waits t → (∀ f, waiter_count s' f = waiter_count s f) → waiter_effect s t s' t'
| wait_new : waits t' = waits t → waits t = None →
    (∀ f, waiter_count s' f = if decide (f = sh_next s) then 0%N else waiter_count s f) → waiter_effect s t s' t'
| wait_join k f : t' = Waiting k f → waits t = None → sh_flights s !! k = Some f →
    (waiter_count s f < SINGLE_FLIGHT_MAX_WAITERS)%N →
    s' = set_waiters f (fetch_add (waiter_count s f)) s → waiter_effect s t s' t'
| wait_leave f : waits t = Some f → waits t' = None → s' = drop_waiter_guard f s → waiter_effect s t s' t'.

Lemma set_waiters_count f n s g : waiter_count (set_waiters f n s) g = if decide (g = f) then n else waiter_count s g.
Proof.
  unfold waiter_count. cbn. destruct (decide (g = f)) as [->|]; [by rewrite lookup_insert_eq|].
  by rewrite lookup_insert_ne.
Qed.

Lemma task_step_waiters s t s' t' : task_step s t s' t' → waiter_effect s t s' t'.
Proof.
  intros Hstep. inversion Hstep; subst;
    try match goal with H : cached_verdict _ _ _ = _ |- _ =>
      apply cached_verdict_flights in H as (? & ? & ? & Hw);
      apply wait_same; [cbn; by try destruct (cache_enabled_for _ _)|intros f'; unfold waiter_count; by rewrite Hw] end;
    try (by apply wait_same);
    try (by eapply wait_leave);
    try (apply wait_same; [done|]; intros f; unfold waiter_count;
         by destruct (store_flights key v s) as (_ & _ & _ & ->)).
  - revert H. unfold acquire_verification_flight. destruct (sh_flights s !! key) as [f|] eqn:E.
    + destruct (_ <=? _)%N eqn:Hle; intros [= <- <-]; [by apply wait_same|].
      eapply (wait_join _ _ _ _ key f); try done. by apply N.leb_gt in Hle.
    + intros [= <- <-]. apply wait_new; [done|done|]. intros f. unfold waiter_count. cbn.
      case_decide; [subst; by rewrite lookup_insert_eq|by rewrite lookup_insert_ne].
  - eapply wait_leave; [done|by destruct o|done].
  - apply wait_same; [by destruct (enforced r)|done].
  - apply wait_same; [done|]. intros f. unfold drop_owner_guard. by destruct (sh_flights s !! key).
  - apply wait_same; [by destruct (enforced r)|done].
Qed.

Lemma counts_hit t f : waits t = Some f → counts t f = 1%nat.
Proof. intros H. unfold counts. by rewrite bool_decide_true. Qed.
Lemma counts_miss t f : waits t ≠ Some f → counts t f = O.
Proof. intros H. unfold counts. by rewrite bool_decide_false. Qed.
Lemma counts_eq t t' f : waits t' = waits t → counts t' f = counts t f.
Proof. unfold counts. by intros ->. Qed.

Lemma fetch_add_small n : (n < SINGLE_FLIGHT_MAX_WAITERS)%N → fetch_add n = (n + 1)%N.
Proof. unfold fetch_add, SINGLE_FLIGHT_MAX_WAITERS, usize_modulus. intros. apply N.mod_small. lia. Qed.
Lemma fetch_sub_small n : (0 < n ≤ SINGLE_FLIGHT_MAX_WAITERS)%N → fetch_sub n = (n - 1)%N.
Proof.
  unfold fetch_sub, SINGLE_FLIGHT_MAX_WAITERS, usize_modulus. intros.
  replace (n + (18446744073709551616 - 1))%N with (n - 1 + 1 * 18446744073709551616)%N by lia.
  rewrite N.Div0.mod_add. apply N.mod_small. lia.
Qed.

Lemma waiting_on_fresh T next f :
  (∀ i t f, T !! i = Some t → waits t = Some f → (f < next)%nat) → (next ≤ f)%nat → waiting_on T f = O.
Proof.
  intros H Hf. unfold waiting_on. apply map_size_empty_iff, map_empty. intros i.
  apply map_lookup_filter_None. right. intros t Ht Hw. cbn in Hw. specialize (H i t f Ht Hw). lia.
Qed.

(** Each flight counts exactly the tasks that wait on it, and never more than the
    limit. *)
Lemma waiters_count_step s T i t s' t' :
  T !! i = Some t → waiter_effect s t s' t' → waiters_ok (s, T) →
  ∀ f, waiter_count s' f = N.of_nat (waiting_on (<[i := t']> T) f)
       ∧ (N.of_nat (waiting_on (<[i := t']> T) f) ≤ SINGLE_FLIGHT_MAX_WAITERS)%N.
Proof.
  intros Hi Heff [_ Hfresh Hcount Hbound _] f. cbn in *.
  pose proof (waiting_on_update T i t t' f Hi) as Hu. specialize (Hcount f). specialize (Hbound f).
  destruct Heff as [Hw Hc|Hw Hn Hc|k g -> Hn Hk Hlt ->|g Hg Hn ->].
  - rewrite (waiting_on_same T i t t' f Hi (counts_eq _ _ _ Hw)), Hc. done.
  - rewrite (waiting_on_same T i t t' f Hi (counts_eq _ _ _ Hw)), Hc. split; [|done].
    case_decide; [subst|done]. by rewrite (waiting_on_fresh T (sh_next s)).
  - rewrite set_waiters_count. rewrite (counts_miss t) in Hu by congruence.
    destruct (decide (f = g)) as [->|].
    + rewrite fetch_add_small, Hcount by done. rewrite counts_hit in Hu by done. rewrite Hcount in Hlt. lia.
    + rewrite counts_miss in Hu by (cbn; congruence). rewrite Hcount. split; lia.
  - unfold drop_waiter_guard. rewrite set_waiters_count. rewrite (counts_miss t') in Hu by congruence.
    destruct (decide (f = g)) as [->|].
    + rewrite counts_hit in Hu by done. rewrite fetch_sub_small, Hcount; rewrite ?Hcount; lia.
    + rewrite counts_miss in Hu by congruence. rewrite Hcount. split; lia.
Qed.

Lemma effect_next s t s' t' : flight_effect s t s' t' → (sh_next s ≤ sh_next s')%nat.
Proof. intros []; lia. Qed.

(** A waiting task came from [acquire], or was waiting already. *)
Lemma waits_origin s t s' t' f :
  waiter_effect s t s' t' → waits t' = Some f →
  waits t = Some f ∨ ∃ k, t' = Waiting k f ∧ sh_flights s !! k = Some f ∧ sh_flights s' = sh_flights s.
Proof.
  intros [Hw _|Hw Hn _|k g -> Hn Hk _ ->|g Hg Hn ->] Hf; [left; congruence|congruence| |congruence].
  right. cbn in Hf. injection Hf as ->. by exists k.
Qed.
Lemma waiting_from_missed s t s' k f : task_step s t s' (Waiting k f) → sh_flights s !! k = Some f ∧ sh_flights s' = sh_flights s.
Proof.
  intros H. inversion H; subst; try (by destruct (cache_enabled_for policy key));
    try (by destruct o); try (by destruct (enforced r)).
  match goal with H : acquire_verification_flight _ _ = (?g, _), E : _ = Waiting _ _ |- _ => destruct g; cbn in E; simplify_eq; revert H end.
  unfold acquire_verification_flight. destruct (sh_flights s !! k) as [g|] eqn:E; [|done].
  destruct (_ <=? _)%N; [done|]. intros [= <- <-]. done.
Qed.

Lemma waiters_step s T i t s' t' :
  T !! i = Some t → task_step s t s' t' → waiters_ok (s, T) → waiters_ok (s', <[i := t']> T).
Proof.
  intros Hi Hstep Hok. pose proof (task_step_flights _ _ _ _ Hstep) as Heff.
  pose proof (task_step_waiters _ _ _ _ Hstep) as Hweff.
  pose proof (waiters_count_step _ _ _ _ _ _ Hi Hweff Hok) as Hcount.
  pose proof (effect_next _ _ _ _ Heff) as Hnext.
  destruct Hok as [Hff Hfw _ _ Hwake]. constructor; cbn in *; try (intros f; apply Hcount).
  - intros k f Hk. destruct Heff as [_ Hf _ Hn|k0 _ _ _ Hf _ Hn|k0 _ _ Hf _ _ Hn]; rewrite Hf in Hk.
    + rewrite Hn. by eapply Hff.
    + rewrite Hn. apply lookup_insert_Some in Hk as [[_ <-]|[_ Hk]]; [lia|]. specialize (Hff _ _ Hk). lia.
    + rewrite Hn. apply lookup_delete_Some in Hk as [_ Hk]. by eapply Hff.
  - intros j u f [[<- <-]|[_ Hj]]%lookup_insert_Some Hu.
    + destruct (waits_origin _ _ _ _ _ Hweff Hu) as [Ht|(k & _ & Hk & _)];
        [specialize (Hfw _ _ _ Hi Ht); lia|specialize (Hff _ _ Hk); lia].
    + specialize (Hfw _ _ _ Hj Hu). lia.
  - intros j k f [[<- ->]|[Hne Hj]]%lookup_insert_Some.
    + destruct (waiting_from_missed _ _ _ _ _ Hstep) as [Hk ->]. by left.
    + specialize (Hwake _ _ _ Hj). destruct Heff as [_ Hf Hn _|k0 _ _ Hk0 Hf Hn _|k0 _ _ Hf Hrel Hsub _].
      * by rewrite Hf, Hn.
      * rewrite Hf, Hn. destruct Hwake as [Hk|]; [left|by right].
        rewrite lookup_insert_ne; [done|congruence].
      * destruct Hwake as [Hk|Hin]; [|right; by apply Hsub].
        destruct (decide (k0 = k)) as [<-|]; [right; by apply Hrel|left].
        by rewrite Hf, lookup_delete_ne.
Qed.

Lemma waiters_spawn s T i t :
  T !! i = None → waits t = None → waiters_ok (s, T) → waiters_ok (s, <[i := t]> T).
Proof.
  intros Hi Ht [Hff Hfw Hc Hb Hw].
  assert (∀ f, waiting_on (<[i := t]> T) f = waiting_on T f) as Hs
    by (intros f; rewrite waiting_on_spawn, counts_miss by congruence; lia).
  constructor; cbn in *; [done|..|by intros f; rewrite Hs|by intros f; rewrite Hs|].
  - intros j u f [[<- <-]|[_ Hj]]%lookup_insert_Some Hu; [congruence|by eapply Hfw].
  - intros j k f [[<- ->]|[_ Hj]]%lookup_insert_Some; [done|by eapply Hw].
Qed.

Lemma waiters_invariant sys : reachable sys → waiters_ok sys.
Proof.
  revert sys. apply reachable_ind; [intros wall instant; constructor; cbn; intros; simplify_map_eq; done|].
  intros sys sys' H Hstep. inversion Hstep; subst.
  - by eapply waiters_step.
  - by apply waiters_spawn.
  - by apply waiters_spawn.
  - destruct H. by constructor.
Qed.
(** *** Ages *)

Definition cache_aged (s : Shared) : Prop :=
  ∀ k c, sh_cache s !! k = Some c → (cv_inserted_at c ≤ sh_instant s)%Z ∧ cache_enabled_for policy k = true.

Lemma task_step_instant s t s' t' : task_step s t s' t' → sh_instant s' = sh_instant s.
Proof.
  intros H. inversion H; subst; try done;
    try match goal with H : cached_verdict _ _ _ = _ |- _ => by apply cached_verdict_cases in H as [[->| ->] _] end;
    try (unfold store_cached_verdict; by destruct (cache_enabled_for policy key)).
  - revert H0. unfold acquire_verification_flight.
    destruct (sh_flights s !! key); [destruct (_ <=? _)%N|]; by intros [= _ <-].
  - unfold drop_owner_guard. by destruct (sh_flights s !! key).
Qed.

(** Entries appear only by [store_cached_verdict], stamped with the clock. *)
Lemma task_step_cache s t s' t' k c :
  task_step s t s' t' → sh_cache s' !! k = Some c →
  sh_cache s !! k = Some c ∨ cv_inserted_at c = sh_instant s ∧ cache_enabled_for policy k = true.
Proof.
  assert (∀ key v, sh_cache (store_cached_verdict policy key v s) !! k = Some c →
    sh_cache s !! k = Some c ∨ cv_inserted_at c = sh_instant s ∧ cache_enabled_for policy k = true) as Hstore.
  { intros key v. unfold store_cached_verdict. destruct (cache_enabled_for policy key) eqn:E; [|by left].
    cbn. intros [[<- <-]|[_ Hk]]%lookup_insert_Some; [by right|by left]. }
  assert (∀ key, sh_cache (set_cache (delete key (sh_cache s)) s) !! k = Some c → sh_cache s !! k = Some c) as Hdel
    by (intros key; cbn; by intros [_ Hk]%lookup_delete_Some).
  intros H Hk. inversion H; subst; try (by left); try (by eapply Hstore);
    try match goal with H : cached_verdict _ _ _ = _ |- _ =>
      apply cached_verdict_cases in H as [[->| ->] _]; [by left|left; by eapply Hdel] end.
  - left. match goal with H : acquire_verification_flight _ _ = _ |- _ => by rewrite (acquire_cache _ _ _ _ H) in Hk end.
  - left. by rewrite drop_owner_cache in Hk.
  - left. by eapply Hdel.
Qed.

Lemma aged_invariant sys : reachable sys → cache_aged sys.1.
Proof.
  revert sys. apply (reachable_ind (λ sys, cache_aged sys.1)); [intros wall instant k c; cbn; by rewrite lookup_empty|].
  intros sys sys' H Hstep. inversion Hstep; subst; cbn in *; try done.
  - intros k c Hk. rewrite (task_step_instant _ _ _ _ H1).
    destruct (task_step_cache _ _ _ _ _ _ H1 Hk) as [Hc|[-> He]]; [by apply H|by split].
  - intros k c Hk. destruct (H k c Hk). cbn. split; [lia|done].
Qed.

(** ** Properties *)

(** C8: whatever the interleaving of calls, refreshes, timeouts, cancellations
    and clock changes, a client call that ends with a verdict for a key got a
    verdict that verification returned for that very key and that allows the
    request; and only such verdicts are cached. *)
Theorem served_verdicts_usable s T :
  reachable (s, T) →
  (∀ i k v, T !! i = Some (Done k (Some (Ok v))) → Verified k (Ok v) ∧ v_request_allowed v = true)
  ∧ (∀ k c, sh_cache s !! k = Some c →
       Verified k (Ok (cv_verdict c)) ∧ v_request_allowed (cv_verdict c) = true).
Proof. intros [Hc Ht]%verdicts_invariant. split; [intros i k v Hi; apply (Ht i _ Hi)|apply Hc]. Qed.

(** C9: single flight: in every reachable state each key has at most one task
    verifying for it under the flight table, the table holds a flight for exactly the
    keys with a live owner, each flight counts exactly the tasks waiting on it without wrapping,
    never more than the limit, and no waiter is stranded: its flight still has
    its owner, or has been notified. *)
Theorem single_flight_safe s T :
  reachable (s, T) →
  (∀ i j t t' k, T !! i = Some t → T !! j = Some t' → owns t = Some k → owns t' = Some k → i = j)
  ∧ (∀ k, is_Some (sh_flights s !! k) ↔ ∃ i t, T !! i = Some t ∧ owns t = Some k)
  ∧ (∀ f, waiter_count s f = N.of_nat (waiting_on T f) ∧ (waiter_count s f ≤ SINGLE_FLIGHT_MAX_WAITERS)%N)
  ∧ (∀ i k f, T !! i = Some (Waiting k f) →
       f ∈ sh_notified s
       ∨ sh_flights s !! k = Some f ∧ ∃ j t, T !! j = Some t ∧ owns t = Some k).
Proof.
  intros H. pose proof (flights_invariant _ H) as [Howned Howner Hsingle].
  pose proof (waiters_invariant _ H) as [_ _ Hcount Hbound Hwake]. cbn in *.
  split; [done|]. split; [|split].
  - intros k. split; [intros [f Hf]; by eapply Howned|]. intros (i & t & Hi & Ht). by eapply Howner.
  - intros f. specialize (Hcount f). specialize (Hbound f). split; [done|]. by rewrite Hcount.
  - intros i k f Hi. destruct (Hwake i k f Hi) as [Hk|]; [right|by left]. split; [done|by eapply Howned].
Qed.

(** A cache hit is fresh on both clocks: it never serves a route or policy
    that demands per-request freshness; the verdict was stored at most the age
    limit ago on the monotonic clock, the limit is within the policy's TTL, the
    wall clock moved at most a minute more or less than that, and the verdict is
    unexpired under the stale-verdict policy. *)
Theorem cache_hit_fresh s T key v s' :
  reachable (s, T) → cached_verdict policy key s = (Some v, s') →
  s' = s ∧ ck_per_request_freshness key = false ∧ freshness policy ≠ PerRequest
  ∧ ∃ c limit, sh_cache s !! key = Some c ∧ cv_verdict c = v
    ∧ cache_age_limit_millis_for policy key = Some limit ∧ (limit ≤ verdict_ttl_millis policy)%Z
    ∧ (0 ≤ sh_instant s - cv_inserted_at c ≤ limit)%Z
    ∧ (Z.abs (sh_wall s - cv_inserted_wall_clock_epoch_ms c)
       ≤ limit + CACHE_CLOCK_JUMP_REVALIDATION_THRESHOLD_MS)%Z
    ∧ verdict_epoch_allowed_by_stale_policy (v_expires_at_epoch_ms v) (sh_wall s) (stale_verdicts policy) = true.
Proof.
  intros Hr%aged_invariant H. cbn in Hr. unfold cached_verdict in H.
  destruct (cache_age_limit_millis_for policy key) as [limit|] eqn:El; [|done].
  destruct (sh_cache s !! key) as [c|] eqn:Ec; [|done].
  destruct (is_valid _ _ _ _ _) eqn:Ev; [|done]. injection H as <- <-.
  destruct (Hr key c Ec) as [Hage _]. unfold is_valid, wall_clock_jump_detected in Ev.
  rewrite !andb_true_iff, negb_true_iff, Z.ltb_ge, Z.leb_le in Ev. destruct Ev as [[Hs Ha] Hj].
  pose proof El as El'. unfold cache_age_limit_millis_for in El'.
  destruct (ck_per_request_freshness key); [done|].
  destruct (verdict_ttl_millis policy =? 0)%Z; [done|].
  split; [done|]. split; [done|]. split; [by destruct (freshness policy)|].
  exists c, limit. split_and!; try done.
  - destruct (freshness policy); [done|by injection El' as <-|].
    destruct (0 <? _)%Z; [injection El' as <-; lia|done].
  - lia.
  - unfold duration_millis, abs_diff in Hj. lia.
Qed.
End Tasks.

(** ** Concrete inputs *)

Definition sample_key : VerificationCacheKey :=
  Build_VerificationCacheKey "p" "r" "" "m" "" "" "" "" "" "" "" "" "" "" "" "" "" "" "" true "verify_only" false.
Definition sample_returns (key : VerificationCacheKey) (r : Outcome) : Prop := r = Ok sample_verdict.

Lemma rtc_eq {A} (R : relation A) x y : x = y → rtc R x y.
Proof. intros ->. apply rtc_refl. Qed.

(** One call at a time, on the given task. *)
Ltac call_step i := eapply rtc_l; [apply (system_call _ _ _ _ i sample_key); reflexivity|].
Ltac run_step i rule := eapply rtc_l; [eapply (system_task _ _ _ _ i); [reflexivity|apply rule; reflexivity]|].

(** Two calls: the first owns the flight, the second waits. *)
Definition two_calls : System :=
  ({| sh_cache := ∅; sh_flights := {[sample_key := O]}; sh_waiters := {[O := 1%N]}; sh_notified := ∅; sh_next := 1;
      sh_wall := 0; sh_instant := 0 |},
   <[1%nat := Waiting sample_key O]> {[O := Owning sample_key]}).

Lemma two_calls_reachable : reachable require_attested_e2ee sample_returns two_calls.
Proof.
  exists 0%Z, 0%Z. call_step 0%nat. run_step 0%nat step_enter_miss. run_step 0%nat step_look_miss.
  run_step 0%nat step_acquire. call_step 1%nat. run_step 1%nat step_enter_miss. run_step 1%nat step_look_miss.
  run_step 1%nat step_acquire. apply rtc_eq. vm_compute. reflexivity.
Qed.

(** The first call has verified and stored; the clock moved on by a minute. *)
Definition stored_call : System :=
  ({| sh_cache := {[sample_key := {| cv_verdict := sample_verdict; cv_inserted_at := 0;
                                     cv_inserted_wall_clock_epoch_ms := 0 |}]};
      sh_flights := ∅; sh_waiters := {[O := 0%N]}; sh_notified := {[O]}; sh_next := 1;
      sh_wall := 60000; sh_instant := 60000 |},
   {[O := Done sample_key (Some (Ok sample_verdict))]}).

Lemma stored_call_reachable : reachable require_attested_e2ee sample_returns stored_call.
Proof.
  exists 0%Z, 0%Z. call_step 0%nat. run_step 0%nat step_enter_miss. run_step 0%nat step_look_miss.
  run_step 0%nat step_acquire.
  eapply rtc_l; [eapply (system_task _ _ _ _ 0); [reflexivity|]; apply step_owner_fetched with (r := Ok sample_verdict); reflexivity|].
  eapply rtc_l; [eapply (system_task _ _ _ _ 0); [reflexivity|apply step_store]|].
  eapply rtc_l; [eapply (system_task _ _ _ _ 0); [reflexivity|apply step_finish]|].
  eapply rtc_l; [apply (system_clock _ _ _ _ 60000 60000); vm_compute; discriminate|].
  apply rtc_eq. vm_compute. reflexivity.
Qed.

Lemma served_verdicts_usable_witness : sample_returns sample_key (Ok sample_verdict).
Proof.
  destruct (served_verdicts_usable require_attested_e2ee sample_returns _ _ stored_call_reachable) as [H _].
  exact (proj1 (H O sample_key sample_verdict eq_refl)).
Defined.

Lemma single_flight_safe_witness :
  waiter_count two_calls.1 0 = 1%N
  ∧ ∃ j t, two_calls.2 !! j = Some t ∧ owns t = Some sample_key.
Proof.
  destruct (single_flight_safe require_attested_e2ee sample_returns _ _ two_calls_reachable) as (_ & _ & Hc & Hw).
  split; [exact (eq_trans (proj1 (Hc O)) eq_refl)|].
  destruct (Hw 1%nat sample_key O eq_refl) as [Hn|[_ H]]; [|exact H].
  exfalso. set_solver.
Defined.

Lemma cache_hit_fresh_witness :
  ∃ c limit, sh_cache stored_call.1 !! sample_key = Some c
    ∧ (0 ≤ sh_instant stored_call.1 - cv_inserted_at c ≤ limit)%Z.
Proof.
  destruct (cache_hit_fresh require_attested_e2ee sample_returns _ _ sample_key sample_verdict stored_call.1
    stored_call_reachable) as (_ & _ & _ & c & limit & Hc & _ & _ & _ & Ha & _); [vm_compute; reflexivity|].
  exists c, limit. exact (conj Hc Ha).
Defined.
