(* ===== verification/ChatStream.v ===== *)
(** * The chat stream

    sdk/lib.rs: the server-sent-event reader behind a streaming chat. Bytes
    arrive in pieces of any size; complete events are delivered as chunks, and
    anything malformed ends the stream. *)

From Stdlib Require Import Ascii String ZArith Lia.
From stdpp Require Import base gmap strings list numbers.
From S2P Require Import Prelude RustStr Errors Collections Canonical.

Open Scope string_scope.

(** ** Data (openai/lib.rs) *)

Inductive ChatRole := RoleSystem | RoleDeveloper | RoleUser | RoleAssistant | RoleTool.
Definition Extra : Type := gmap string Value.
Record Usage := { us_prompt_tokens : Z; us_completion_tokens : Z; us_total_tokens : Z; us_extra : Extra }.
Record ChatCompletionChunkDelta := {
  cd_role : option ChatRole; cd_content : option string; cd_extra : Extra;
}.
Record ChatCompletionChunkChoice := {
  cc_index : Z; cc_delta : ChatCompletionChunkDelta; cc_finish_reason : option string; cc_extra : Extra;
}.
Record ChatCompletionChunk := {
  ch_id : string;
  ch_object : string;
  ch_created : Z;
  ch_model : string;
  ch_choices : list ChatCompletionChunkChoice;
  ch_usage : option Usage;
  ch_extra : Extra;
}.

Inductive StreamError :=
| ResponseJsonSerialization (message : string)
| ProviderChat.
Definition Item : Type := result StreamError ChatCompletionChunk.

(** What the provider's stream yields; its end is the end of the list. *)
Inductive StreamEvent := Bytes (bytes : string) | Failed.

(** [serde_json::from_slice], as a chunk and as any value. *)
Class ChunkReader := {
  chunk_from_slice : string → option ChatCompletionChunk;
  is_json : string → bool;
}.

Definition MAX_STREAM_BUFFER_BYTES : N := 67108864.

Record ConfidentialChatStream := {
  cs_buffer : string;
  cs_done : bool;
  cs_terminal_usage : option Usage;
}.
Definition with_buffer (buffer : string) (s : ConfidentialChatStream) : ConfidentialChatStream :=
  {| cs_buffer := buffer; cs_done := cs_done s; cs_terminal_usage := cs_terminal_usage s |}.
Definition finished (s : ConfidentialChatStream) : ConfidentialChatStream :=
  {| cs_buffer := cs_buffer s; cs_done := true; cs_terminal_usage := cs_terminal_usage s |}.
Definition LF : ascii := "010".
Definition CR : ascii := "013".
Definition LFLF : string := String LF (String LF "").
Definition CRLFCRLF : string := String CR (String LF (String CR (String LF ""))).

(** ** Chunks *)

Definition record_chunk (s : ConfidentialChatStream) (chunk : ChatCompletionChunk) : Item * ConfidentialChatStream :=
  let terminal := match ch_choices chunk with [] => true | choices => existsb (λ c, is_some (cc_finish_reason c)) choices end in
  match ch_usage chunk with
  | Some usage =>
      (Ok chunk, if terminal
                 then {| cs_buffer := cs_buffer s; cs_done := cs_done s; cs_terminal_usage := Some usage |} else s)
  | None => (Ok chunk, s)
  end.

Section Stream.
Context {reader : ChunkReader}.

Definition parse_chunk (s : ConfidentialChatStream) (bytes : string) : Item * ConfidentialChatStream :=
  match chunk_from_slice bytes with
  | Some chunk => record_chunk s chunk
  | None => (Err (ResponseJsonSerialization "{error}"), with_buffer "" (finished s))
  end.

(** The length of the first frame and of its delimiter. *)
Definition find_frame (buffer : string) : option (nat * nat) :=
  match position CRLFCRLF buffer with
  | Some index => Some (index, 4%nat)
  | None => match position LFLF buffer with
            | Some index => Some (index, 2%nat)
            | None => None
            end
  end.

Definition strip_space (value : string) : string := default value (strip_prefix " " value).
Definition frame_line (data line : string) : string :=
  let line := default line (strip_suffix line (String CR "")) in
  match strip_prefix "data:" line with
  | Some value => (if is_empty data then data else data +:+ String LF "") +:+ strip_space value
  | None => data
  end.
Definition frame_data (frame : string) : string := fold_left frame_line (split_byte LF frame) "".

(** The rest of the loop body when no frame is complete. *)
Definition take_partial (s : ConfidentialChatStream) (eof : bool) : option Item * ConfidentialChatStream :=
  let buffer := cs_buffer s in
  match strip_prefix "data:" buffer with
  | Some value =>
      if negb eof then (None, s)
      else let data := strip_space value in
           let s := with_buffer "" s in
           if data =?= "[DONE]" then (None, finished s)
           else let '(item, s) := parse_chunk s data in (Some item, s)
  | None =>
      if buffer =?= "[DONE]" then (None, finished (with_buffer "" s))
      else match chunk_from_slice buffer with
           | Some chunk => let '(item, s) := record_chunk (with_buffer "" s) chunk in (Some item, s)
           | None =>
               if eof && negb (is_empty buffer)
               then let '(item, s) := parse_chunk (with_buffer "" s) buffer in (Some item, s)
               else if is_json buffer
               then (Some (Err (ResponseJsonSerialization "{chunk_error}")), with_buffer "" (finished s))
               else (None, s)
           end
  end.

(** The loop: every further turn drops a frame that carried no data. *)
Fixpoint take_loop (fuel : nat) (s : ConfidentialChatStream) (eof : bool) : option Item * ConfidentialChatStream :=
  match fuel with
  | O => (None, s)
  | S fuel =>
      match find_frame (cs_buffer s) with
      | Some (frame_len, delimiter_len) =>
          let data := frame_data (slice (cs_buffer s) 0 frame_len) in
          let s := with_buffer (slice (cs_buffer s) (frame_len + delimiter_len) (String.length (cs_buffer s))) s in
          if is_empty data then take_loop fuel s eof
          else if data =?= "[DONE]" then (None, finished s)
          else let '(item, s) := parse_chunk s data in (Some item, s)
      | None => take_partial s eof
      end
  end.

Definition take_buffered_chunk (s : ConfidentialChatStream) (eof : bool) : option Item * ConfidentialChatStream :=
  if (MAX_STREAM_BUFFER_BYTES <? N.of_nat (String.length (cs_buffer s)))%N
  then (Some (Err (ResponseJsonSerialization "chat stream exceeded {MAX_STREAM_BUFFER_BYTES} buffered bytes")),
        with_buffer "" (finished s))
  else take_loop (S (String.length (cs_buffer s))) s eof.

(** [next]: the item, the reader, and what is left of the stream. *)
Fixpoint next (s : ConfidentialChatStream) (events : list StreamEvent)
    : option Item * ConfidentialChatStream * list StreamEvent :=
  if cs_done s then (None, s, events)
  else match take_buffered_chunk s false with
       | (Some item, s) => (Some item, s, events)
       | (None, s) =>
           if cs_done s then (None, s, events)
           else match events with
                | Bytes bytes :: events => next (with_buffer (cs_buffer s +:+ bytes) s) events
                | Failed :: events => (Some (Err ProviderChat), finished s, events)
                | [] => let '(item, s) := take_buffered_chunk (finished s) true in (item, s, [])
                end
       end.
End Stream.

(** [n] successive calls of [next]. *)
Fixpoint calls `{!ChunkReader} (n : nat) (s : ConfidentialChatStream) (events : list StreamEvent) : list (option Item) :=
  match n with
  | O => []
  | S n => let '(item, s, events) := next s events in item :: calls n s events
  end.

(** A new reader. *)
Definition new_stream : ConfidentialChatStream := {| cs_buffer := ""; cs_done := false; cs_terminal_usage := None |}.

(** What the code relies on: a chunk is JSON, and the empty text and the letters
    of [data] are not. *)
Class ChunkReaderLaws `{!ChunkReader} : Prop := {
  chunk_is_json bytes chunk : chunk_from_slice bytes = Some chunk → is_json bytes = true;
  data_not_json bytes rest : rest ≠ "" → bytes +:+ rest = "data:" → is_json bytes = false;
}.

(** ** The loop terminates *)

Section Termination.
Context {reader : ChunkReader}.

Lemma find_frame_shorter buffer n d :
  find_frame buffer = Some (n, d) →
  (String.length (slice buffer (n + d) (String.length buffer)) < String.length buffer)%nat.
Proof.
  unfold find_frame, slice. intros H. rewrite substring_length.
  destruct (position CRLFCRLF buffer) as [i|] eqn:E1; [|destruct (position LFLF buffer) as [i|] eqn:E2; [|done]];
    injection H as <- <-.
  - apply position_bound in E1. cbn in E1. lia.
  - apply position_bound in E2. cbn in E2. lia.
Qed.

Lemma take_loop_fuel fuel fuel' s eof :
  (String.length (cs_buffer s) < fuel)%nat → (String.length (cs_buffer s) < fuel')%nat →
  take_loop fuel s eof = take_loop fuel' s eof.
Proof.
  revert fuel' s. induction fuel as [|fuel IH]; intros [|fuel'] s; try lia. intros H H'. cbn [take_loop].
  destruct (find_frame (cs_buffer s)) as [[n d]|] eqn:E; [|done].
  apply find_frame_shorter in E. destruct (is_empty _); [|done]. apply IH; cbn [with_buffer cs_buffer]; lia.
Qed.

(** The frame loop always comes to an end: with the fuel it is given it
    satisfies the equation of the source's unbounded loop, each turn of which
    removes a frame from the buffer. *)
Theorem take_buffered_chunk_loop s eof :
  (N.of_nat (String.length (cs_buffer s)) ≤ MAX_STREAM_BUFFER_BYTES)%N →
  take_buffered_chunk s eof
  = match find_frame (cs_buffer s) with
    | Some (frame_len, delimiter_len) =>
        let data := frame_data (slice (cs_buffer s) 0 frame_len) in
        let s := with_buffer (slice (cs_buffer s) (frame_len + delimiter_len) (String.length (cs_buffer s))) s in
        if is_empty data then take_buffered_chunk s eof
        else if data =?= "[DONE]" then (None, finished s)
        else let '(item, s) := parse_chunk s data in (Some item, s)
    | None => take_partial s eof
    end.
Proof.
  intros Hmax. unfold take_buffered_chunk at 1. rewrite (proj2 (N.ltb_ge _ _)) by done. cbn [take_loop].
  destruct (find_frame (cs_buffer s)) as [[n d]|] eqn:E; [|done].
  apply find_frame_shorter in E. cbn zeta. destruct (is_empty _); [|done].
  unfold take_buffered_chunk. cbn [with_buffer cs_buffer].
  rewrite (proj2 (N.ltb_ge _ _)) by lia. apply take_loop_fuel; cbn [with_buffer cs_buffer]; lia.
Qed.

(** ** The stream is fused *)

Definition ends_stream (item : option Item) : Prop :=
  match item with Some (Ok _) => False | _ => True end.

Lemma record_chunk_ok s chunk item s' : record_chunk s chunk = (item, s') → item = Ok chunk ∧ cs_done s' = cs_done s.
Proof. unfold record_chunk. destruct (ch_usage chunk); [case_match|]; by intros [= <- <-]. Qed.
Lemma parse_chunk_done s bytes item s' :
  parse_chunk s bytes = (item, s') → ends_stream (Some item) → cs_done s' = true.
Proof.
  unfold parse_chunk. destruct (chunk_from_slice bytes); [|by intros [= <- <-]].
  intros [-> _]%record_chunk_ok. done.
Qed.

Lemma take_partial_done s eof item s' :
  take_partial s eof = (item, s') → is_some item = true → ends_stream item → cs_done s' = true.
Proof.
  unfold take_partial. cbn zeta.
  repeat match goal with
    | |- context [let '(_, _) := parse_chunk ?s ?b in _] => destruct (parse_chunk s b) eqn:?
    | |- context [let '(_, _) := record_chunk ?s ?b in _] => destruct (record_chunk s b) eqn:?
    | |- context [match ?x with _ => _ end] => destruct x
    end; intros [= <- <-] Hs He; try discriminate Hs; try done;
    try (by eapply parse_chunk_done).
  match goal with H : record_chunk _ _ = _ |- _ => apply record_chunk_ok in H as [-> _] end. done.
Qed.

Lemma take_loop_done fuel s eof item s' :
  take_loop fuel s eof = (item, s') → is_some item = true → ends_stream item → cs_done s' = true.
Proof.
  revert s. induction fuel as [|fuel IH]; intros s; cbn [take_loop]; [by intros [= <- <-]|].
  destruct (find_frame _) as [[n d]|]; [|apply take_partial_done].
  destruct (is_empty _); [apply IH|]. destruct (_ =?= _); [by intros [= <- <-]|].
  match goal with |- context [parse_chunk ?a ?b] => destruct (parse_chunk a b) as [i st] eqn:E end.
  intros [= <- <-] _ He. by eapply parse_chunk_done.
Qed.
Lemma take_done s eof item s' :
  take_buffered_chunk s eof = (item, s') → is_some item = true → ends_stream item → cs_done s' = true.
Proof. unfold take_buffered_chunk. destruct (_ <? _)%N; [by intros [= <- <-]|apply take_loop_done]. Qed.

Lemma take_keeps_done s eof item s' : take_buffered_chunk s eof = (item, s') → cs_done s = true → cs_done s' = true.
Proof.
  assert (∀ s chunk i s', record_chunk s chunk = (i, s') → cs_done s = true → cs_done s' = true) as Hr
    by (intros ???? [_ ->]%record_chunk_ok; done).
  assert (∀ s b i s', parse_chunk s b = (i, s') → cs_done s = true → cs_done s' = true) as Hp
    by (intros s0 b i s0'; unfold parse_chunk; destruct (chunk_from_slice b); [apply Hr|by intros [= <- <-]]).
  assert (∀ s i s', take_partial s eof = (i, s') → cs_done s = true → cs_done s' = true) as Ht.
  { intros s0 i s0'. unfold take_partial. cbn zeta.
    repeat match goal with
      | |- context [let '(_, _) := parse_chunk ?s ?b in _] => destruct (parse_chunk s b) eqn:?
      | |- context [let '(_, _) := record_chunk ?s ?b in _] => destruct (record_chunk s b) eqn:?
      | |- context [match ?x with _ => _ end] => destruct x
      end; intros [= <- <-] Hd; try done; first [eapply Hp; [eassumption|done]|eapply Hr; [eassumption|done]]. }
  unfold take_buffered_chunk. destruct (_ <? _)%N; [by intros [= <- <-]|].
  generalize (S (String.length (cs_buffer s))). intros fuel. revert s. induction fuel as [|fuel IH]; intros s;
    cbn [take_loop]; [by intros [= <- <-]|].
  destruct (find_frame _) as [[n d]|]; [|apply Ht].
  destruct (is_empty _); [intros H Hd; by eapply IH|]. destruct (_ =?= _); [by intros [= <- <-]|].
  match goal with |- context [parse_chunk ?a ?b] => destruct (parse_chunk a b) as [i st] eqn:E end.
  intros [= <- <-] Hd. by eapply Hp.
Qed.

Lemma next_done s events item s' events' :
  next s events = (item, s', events') → ends_stream item → cs_done s' = true.
Proof.
  revert s. induction events as [|e events IH]; intros s; cbn [next];
    (destruct (cs_done s) eqn:Hd; [by intros [= <- <- <-]|]);
    (destruct (take_buffered_chunk s false) as [[i|] st] eqn:E;
      [intros [= <- <- <-] He; by eapply take_done|]);
    (destruct (cs_done st) eqn:Hst; [by intros [= <- <- <-]|]).
  - destruct (take_buffered_chunk (finished st) true) as [i st'] eqn:E'. intros [= <- <- <-] _.
    by apply take_keeps_done in E'.
  - destruct e; [apply IH|by intros [= <- <- <-]].
Qed.

Lemma calls_done n s events : cs_done s = true → calls n s events = replicate n None.
Proof.
  revert s events. induction n as [|n IH]; intros s events Hd; [done|]. cbn [calls replicate].
  destruct events as [|e events]; cbn [next]; rewrite Hd; by rewrite IH.
Qed.

(** The reader fails closed and is fused: once a call has returned an error,
    whether from the provider, a malformed or oversized frame, or the end of the
    stream, every later call returns the end, whatever the provider still sends. *)
Theorem stream_fused s events item s' events' n more :
  next s events = (item, s', events') → ends_stream item → calls n s' (events' ++ more)%list = replicate n None.
Proof. intros H He. by apply calls_done, (next_done _ _ _ _ _ H). Qed.
End Termination.

(** ** Well-formed events are delivered, however they are cut *)

Fixpoint concat_bytes (pieces : list string) : string :=
  match pieces with [] => "" | p :: pieces => p +:+ concat_bytes pieces end.

(** One event per payload, and the end marker. *)
Definition event_frame (payload : string) : string := "data: " +:+ payload +:+ LFLF.
Fixpoint event_stream (payloads : list string) : string :=
  match payloads with
  | [] => event_frame "[DONE]"
  | p :: payloads => event_frame p +:+ event_stream payloads
  end.

(** A payload on one line, other than the end marker. *)
Definition plain_payload (p : string) : Prop :=
  no_byte LF p ∧ no_byte CR p ∧ p ≠ "" ∧ p ≠ "[DONE]".

Section Delivery.
Context {reader : ChunkReader} {laws : ChunkReaderLaws}.

Lemma no_cr_position s : no_byte CR s → position CRLFCRLF s = None.
Proof.
  intros H. destruct (position CRLFCRLF s) as [i|] eqn:E; [exfalso|done].
  apply position_Some in E as (a & b & -> & _). rewrite !no_byte_app in H. by destruct H as (_ & H & _).
Qed.
Lemma position_first s r : no_byte LF s → position LFLF (s +:+ LFLF +:+ r) = Some (String.length s).
Proof.
  induction s as [|c s IH]; intros H.
  - change ("" +:+ LFLF +:+ r) with (LFLF +:+ r). destruct r; cbn [position LFLF String.append]; by rewrite ?starts_with_app.
  - apply no_byte_cons in H as [Hc H]. change (String c s +:+ LFLF +:+ r) with (String c (s +:+ LFLF +:+ r)).
    cbn [position]. replace (starts_with LFLF (String c (s +:+ LFLF +:+ r))) with false.
    + by rewrite IH.
    + unfold starts_with. cbn [strip_prefix LFLF]. by rewrite bool_decide_false.
Qed.

Lemma delimiter_last s a c : no_byte LF s → s +:+ LFLF = a +:+ LFLF +:+ c → a = s ∧ c = "".
Proof.
  revert a. induction s as [|x s IH]; intros a H E.
  - apply (f_equal String.length) in E. rewrite !append_length in E. cbn in E.
    destruct a, c; cbn in E; [done|lia..].
  - apply no_byte_cons in H as [Hx H]. destruct a as [|y a].
    + cbn in E. injection E as -> _. done.
    + cbn in E. injection E as -> E. destruct (IH a H E) as [-> ->]. done.
Qed.

Lemma split_byte_plain c s : no_byte c s → split_byte c s = [s].
Proof.
  induction s as [|x s IH]; intros H; [done|]. apply no_byte_cons in H as [Hx H]. cbn.
  rewrite bool_decide_false by done. by rewrite IH.
Qed.

Lemma no_cr_suffix s : no_byte CR s → strip_suffix s (String CR "") = None.
Proof.
  intros H. unfold strip_suffix, ends_with. destruct (_ <=? _)%nat eqn:El; [|done].
  cbn [andb]. rewrite bool_decide_false; [done|]. intros E.
  assert (∀ t, no_byte CR t → ∀ n m, String.substring n m t ≠ String CR "") as Hs; [|by eapply Hs].
  clear. intros t Ht. induction t as [|x t IH]; intros n m; [by destruct n, m|].
  apply no_byte_cons in Ht as [Hx Ht]. destruct n as [|n], m as [|m]; cbn; try done.
  - intros [= -> _]. done.
  - by apply IH.
  - by apply IH.
Qed.

Lemma frame_data_plain p : no_byte LF p → no_byte CR p → frame_data ("data: " +:+ p) = p.
Proof.
  intros HL HC. unfold frame_data. rewrite split_byte_plain by (apply no_byte_app; by split).
  cbn [fold_left]. unfold frame_line. rewrite no_cr_suffix by (apply no_byte_app; by split). reflexivity.
Qed.

(** A buffer that starts with a whole event. *)
Lemma find_event p rest :
  no_byte LF p → no_byte CR (event_frame p +:+ rest) →
  find_frame (event_frame p +:+ rest) = Some (String.length ("data: " +:+ p), 2%nat).
Proof.
  intros HL HC. unfold find_frame. rewrite no_cr_position by done.
  unfold event_frame. replace (("data: " +:+ p +:+ LFLF) +:+ rest) with (("data: " +:+ p) +:+ LFLF +:+ rest)
    by (by rewrite !append_assoc).
  rewrite position_first by (apply no_byte_app; by split). done.
Qed.

Lemma slice_event p rest :
  slice (event_frame p +:+ rest) 0 (String.length ("data: " +:+ p)) = "data: " +:+ p
  ∧ slice (event_frame p +:+ rest) (String.length ("data: " +:+ p) + 2) (String.length (event_frame p +:+ rest)) = rest.
Proof.
  unfold event_frame, slice. rewrite !append_assoc, <-(append_assoc "data: " p). generalize ("data: " +:+ p). intros s.
  rewrite Nat.sub_0_r. split.
  - induction s as [|c s IH]; [by destruct rest|].
    change (String c (String.substring 0 (String.length s) (s +:+ LFLF +:+ rest)) = String c s). by rewrite IH.
  - rewrite !append_length. replace (String.length s + (String.length LFLF + String.length rest) - (String.length s + 2))%nat
      with (String.length rest) by (cbn; lia).
    induction s as [|c s IH]; [|exact IH].
    change (String.substring 0 (String.length rest) rest = rest). clear.
    induction rest as [|c rest IH]; [done|]. cbn. by f_equal.
Qed.
Definition within (s : string) : Prop := (N.of_nat (String.length s) ≤ MAX_STREAM_BUFFER_BYTES)%N.
Lemma within_app a b : within (a +:+ b) → within a ∧ within b.
Proof. unfold within. rewrite append_length. lia. Qed.

Lemma take_event s p rest chunk :
  plain_payload p → chunk_from_slice p = Some chunk → cs_buffer s = event_frame p +:+ rest →
  no_byte CR (cs_buffer s) → within (cs_buffer s) →
  ∃ s', take_buffered_chunk s false = (Some (Ok chunk), s') ∧ cs_buffer s' = rest ∧ cs_done s' = cs_done s.
Proof.
  intros (HL & HC & Hne & Hd) Hc Hb Hcr Hm. unfold take_buffered_chunk.
  rewrite (proj2 (N.ltb_ge _ _)) by exact Hm. cbn [take_loop]. rewrite Hb in Hcr |- *. rewrite find_event by done.
  destruct (slice_event p rest) as [-> ->]. rewrite frame_data_plain by done.
  replace (is_empty p) with false by (by destruct p). rewrite bool_decide_false by done.
  unfold parse_chunk. rewrite Hc. destruct (record_chunk _ chunk) as [item s'] eqn:E. exists s'.
  pose proof (record_chunk_ok _ _ _ _ E) as [-> Hdone]. split; [done|]. split; [|exact Hdone].
  revert E. unfold record_chunk. destruct (ch_usage chunk); [case_match|]; by intros [= <-].
Qed.

Lemma take_end s :
  cs_buffer s = event_frame "[DONE]" → ∃ s', take_buffered_chunk s false = (None, s') ∧ cs_done s' = true.
Proof. destruct s as [b d u]. cbn. intros ->. eexists. split; [vm_compute; reflexivity|done]. Qed.

Lemma take_incomplete s p rest :
  no_byte LF p → no_byte CR p → cs_buffer s +:+ rest = event_frame p → rest ≠ "" → within (cs_buffer s) →
  take_buffered_chunk s false = (None, s).
Proof.
  intros HL HC Hb Hr Hm. unfold take_buffered_chunk. rewrite (proj2 (N.ltb_ge _ _)) by exact Hm. cbn [take_loop].
  assert (no_byte CR (cs_buffer s +:+ rest)) as Hcr
    by (rewrite Hb; unfold event_frame; rewrite !no_byte_app; done).
  apply no_byte_app in Hcr as [Hcr _]. unfold find_frame. rewrite no_cr_position by done.
  destruct (position LFLF (cs_buffer s)) as [i|] eqn:E.
  { apply position_Some in E as (a & b & Hs & _). exfalso. apply Hr.
    assert (("data: " +:+ p) +:+ LFLF = a +:+ LFLF +:+ (b +:+ rest)) as E'
      by (rewrite append_assoc; unfold event_frame in Hb; by rewrite <-Hb, Hs, !append_assoc).
    apply delimiter_last in E' as [_ E']; [|apply no_byte_app; by split].
    by destruct b, rest. }
  unfold take_partial. destruct (strip_prefix "data:" (cs_buffer s)) as [v|] eqn:Es; [done|].
  assert (∃ e, cs_buffer s +:+ e = "data:" ∧ e ≠ "") as (e & He & Hne).
  { unfold event_frame in Hb. change ("data: " +:+ p +:+ LFLF) with ("data:" +:+ (" " +:+ p +:+ LFLF)) in Hb.
    apply append_prefix in Hb as [(e & Hs & _)|(e & Hs & _ & He)]; [|by exists e].
    apply strip_prefix_Some in Hs. congruence. }
  pose proof (data_not_json _ _ Hne He) as Hj.
  rewrite bool_decide_false by (intros Hd; rewrite Hd in He; discriminate He).
  destruct (chunk_from_slice (cs_buffer s)) as [chunk|] eqn:Ec; [apply chunk_is_json in Ec; congruence|].
  cbn [andb]. by rewrite Hj.
Qed.

(** *** Calls of [next] over any cutting of the bytes *)

Lemma concat_nonempty pieces e r : concat_bytes pieces = e +:+ r → e ≠ "" → pieces ≠ [].
Proof. intros H He ->. by destruct e. Qed.

Lemma next_pieces s p rest piece pieces :
  cs_done s = false → no_byte LF p → no_byte CR p → cs_buffer s +:+ rest = event_frame p → rest ≠ "" →
  within (cs_buffer s) →
  next s (map Bytes (piece :: pieces)) = next (with_buffer (cs_buffer s +:+ piece) s) (map Bytes pieces).
Proof.
  intros Hd HL HC Hb Hr Hm. cbn [map next]. rewrite Hd.
  by rewrite (take_incomplete s p rest) by done; rewrite Hd.
Qed.

Lemma next_event pieces s p R chunk :
  cs_done s = false → plain_payload p → chunk_from_slice p = Some chunk →
  cs_buffer s +:+ concat_bytes pieces = event_frame p +:+ R → no_byte CR (event_frame p +:+ R) →
  within (event_frame p +:+ R) →
  ∃ s' pieces', next s (map Bytes pieces) = (Some (Ok chunk), s', map Bytes pieces')
    ∧ cs_done s' = false ∧ cs_buffer s' +:+ concat_bytes pieces' = R.
Proof.
  intros Hd Hp Hc. revert s Hd. induction pieces as [|piece pieces IH]; intros s Hd Hb Hcr Hm;
    pose proof Hb as Hb'; apply append_prefix in Hb' as [(e & Hs & HR)|(e & Hs & HR & He)].
  1,3: destruct (take_event s p e chunk) as (s' & Ht & Hs' & Hd'); [done|done|done|..];
    [rewrite <-Hb, no_byte_app in Hcr; tauto|rewrite <-Hb in Hm; apply within_app in Hm; tauto|];
    (eexists s', (_ : list string); split; [|split; [by rewrite Hd'|by rewrite Hs', HR]]);
    cbn [map next]; rewrite Hd, Ht; reflexivity.
  - by destruct (concat_nonempty _ _ _ HR He).
  - destruct Hp as (HL & HC & Hpp). rewrite (next_pieces s p e) by
      (done || (rewrite <-Hb in Hm; apply within_app in Hm; tauto)).
    apply IH; [done|..|done|done]. cbn [with_buffer cs_buffer]. rewrite append_assoc. exact Hb.
Qed.

Lemma next_end pieces s :
  cs_done s = false → cs_buffer s +:+ concat_bytes pieces = event_frame "[DONE]" →
  ∃ s' events, next s (map Bytes pieces) = (None, s', events) ∧ cs_done s' = true.
Proof.
  revert s. induction pieces as [|piece pieces IH]; intros s Hd Hb.
  - cbn [concat_bytes] in Hb. rewrite append_nil_r in Hb. destruct (take_end s Hb) as (s' & Ht & Hd').
    exists s', []. cbn [map next]. by rewrite Hd, Ht, Hd'.
  - destruct (decide (concat_bytes (piece :: pieces) = "")) as [E|NE].
    + rewrite E, append_nil_r in Hb. destruct (take_end s Hb) as (s' & Ht & Hd').
      eexists s', _. cbn [map next]. rewrite Hd, Ht, Hd'. by split.
    + rewrite (next_pieces s "[DONE]" (concat_bytes (piece :: pieces))) by
        (done || (apply (within_app _ (concat_bytes (piece :: pieces))); rewrite Hb; vm_compute; discriminate)).
      apply IH; [done|]. cbn [with_buffer cs_buffer]. rewrite append_assoc. exact Hb.
Qed.

Lemma event_stream_no_cr payloads : Forall plain_payload payloads → no_byte CR (event_stream payloads).
Proof.
  induction 1 as [|p ps (_ & HC & _) _ IH]; [done|]. cbn. unfold event_frame. rewrite !no_byte_app. done.
Qed.

(** well-formed events are delivered exactly, whatever the cutting: for any
    chunks sent one per event and closed by the end marker, and any way the
    network cuts the bytes (events split across pieces or several in one), the
    calls of [next] return those chunks in order and then the end. *)
Theorem events_delivered payloads chunks pieces n :
  Forall plain_payload payloads → Forall2 (λ p c, chunk_from_slice p = Some c) payloads chunks →
  concat_bytes pieces = event_stream payloads → within (event_stream payloads) →
  calls (length chunks + n) new_stream (map Bytes pieces) = (map (Some ∘ Ok) chunks ++ replicate n None)%list.
Proof.
  intros Hp Hc Hb Hm.
  assert (∀ s pieces, cs_done s = false → cs_buffer s +:+ concat_bytes pieces = event_stream payloads →
    calls (length chunks + n) s (map Bytes pieces) = (map (Some ∘ Ok) chunks ++ replicate n None)%list) as H;
    [|by apply H].
  clear pieces Hb. induction Hc as [|p c ps cs Hpc Hc IH]; intros s pieces Hd Hb.
  - cbn [event_stream] in Hb. destruct n as [|n]; [done|]. cbn [length Nat.add calls].
    destruct (next_end pieces s Hd Hb) as (s' & events & -> & Hd'). by rewrite calls_done.
  - inversion Hp as [|? ? Hp1 Hp2]; subst.
    destruct (next_event pieces s p (event_stream ps) c) as (s' & pieces' & Hn & Hd' & Hb');
      [done|done|done|exact Hb|exact (event_stream_no_cr (p :: ps) Hp)|exact Hm|].
    cbn [length Nat.add calls map app]. rewrite Hn. f_equal. apply IH; [done| |done|done].
    cbn [event_stream] in Hm. apply within_app in Hm; tauto.
Qed.
End Delivery.

(** ** Concrete inputs *)

Definition sample_chunk (id : string) : ChatCompletionChunk := {|
  ch_id := id; ch_object := ""; ch_created := 0; ch_model := ""; ch_choices := []; ch_usage := None; ch_extra := ∅ |}.
#[local] Instance sample_chunk_reader : ChunkReader := {|
  chunk_from_slice s := if bool_decide (s = "a") || bool_decide (s = "b") then Some (sample_chunk s) else None;
  is_json s := bool_decide (s = "a") || bool_decide (s = "b") |}.
#[local] Instance sample_chunk_laws : ChunkReaderLaws.
Proof.
  constructor; cbn.
  - intros s c. by destruct (_ || _).
  - intros s rest _ H. apply orb_false_iff. rewrite !bool_decide_eq_false. split; intros ->; discriminate H.
Qed.

(** Two events, cut inside the first and joined to the second. *)
Definition sample_pieces : list string :=
  ["da"; "ta: a" +:+ String LF ""; String LF "data: b" +:+ LFLF +:+ "data: [DO"; "NE]" +:+ LFLF].

Lemma events_delivered_witness :
  calls 4 new_stream (map Bytes sample_pieces)
  = [Some (Ok (sample_chunk "a")); Some (Ok (sample_chunk "b")); None; None].
Proof.
  apply (events_delivered ["a"; "b"] [sample_chunk "a"; sample_chunk "b"] sample_pieces 2).
  - repeat constructor; discriminate.
  - repeat constructor.
  - vm_compute. reflexivity.
  - vm_compute. discriminate.
Defined.

(** A frame that is not a chunk: an error, then the end. *)
Lemma stream_fused_witness :
  calls 2 {| cs_buffer := ""; cs_done := true; cs_terminal_usage := None |} [Bytes ("data: a" +:+ LFLF)]
  = [None; None].
Proof.
  apply (stream_fused new_stream [Bytes ("data: x" +:+ LFLF)]
    (Some (Err (ResponseJsonSerialization "{error}"))) _ [] 2 [Bytes ("data: a" +:+ LFLF)]);
    [vm_compute; reflexivity|done].
Defined.

Lemma take_buffered_chunk_loop_witness :
  take_buffered_chunk (with_buffer (": ping" +:+ LFLF +:+ "data: a" +:+ LFLF) new_stream) false
  = (Some (Ok (sample_chunk "a")), new_stream).
Proof.
  rewrite (take_buffered_chunk_loop (with_buffer (": ping" +:+ LFLF +:+ "data: a" +:+ LFLF) new_stream) false)
    by (vm_compute; discriminate).
  vm_compute. reflexivity.
Defined.

(** Events that end in different line endings are delivered or lost by the
    cutting of the bytes: the same bytes, an event closed by LF LF and one by
    CR LF CR LF, give both chunks when they arrive apart, and an error when they
    arrive together, since the reader looks for the second delimiter first. *)
Theorem mixed_line_endings_depend_on_cutting :
  let a := "data: a" +:+ LFLF in
  let b := "data: b" +:+ CRLFCRLF in
  calls 3 new_stream [Bytes a; Bytes b] = [Some (Ok (sample_chunk "a")); Some (Ok (sample_chunk "b")); None]
  ∧ calls 3 new_stream [Bytes (a +:+ b)]
    = [Some (Err (ResponseJsonSerialization "{error}")); None; None].
Proof. vm_compute. by split. Qed.
