(* ===== verification/RouteSelection.v ===== *)
(** * Route selection

    sdk/lib.rs: which routes of the registry a request may use, in which order;
    the check of the caller's provider order when a client is built; and the key
    under which a route's verdict is cached. *)

From Stdlib Require Import Ascii String ZArith Lia.
From stdpp Require Import base gmap strings list sorting numbers fin_maps.
From S2P Require Import Prelude RustStr Errors Collections Canonical JsonInjective Policy Verdict Signature ReferenceValues.
From S2P Require Import Registry RegistryReview ProviderRequest Compatibility ClientErrors VerdictCache.

Open Scope string_scope.

(** ** Client configuration

    The part of [ClientInner] that selection and verification read; [cl_adapters]
    holds the provider names with an adapter. *)
Record Client := {
  cl_policy : VerificationPolicy;
  cl_registry : ProviderRegistry;
  cl_registry_digest : string;
  cl_registry_source : string;
  cl_registry_signature : SignatureMetadata;
  cl_reference_values : ReferenceValuesPayload;
  cl_reference_values_digest : string;
  cl_reference_values_source : string;
  cl_reference_signature : SignatureMetadata;
  cl_compatibility_matrix : ProviderCompatibilityMatrix;
  cl_provider_order : gmap string (list string);
  cl_adapters : gset string;
}.

Inductive RouteSelectionPurpose := ForVerify | ForChat | ForEmbeddings.
Definition purpose_str (purpose : RouteSelectionPurpose) : string :=
  match purpose with ForVerify => "verification" | ForChat => "chat" | ForEmbeddings => "embeddings" end.

Inductive VerificationRequestMode := VerifyOnly | NonStreamingChat | StreamingChat | EmbeddingsMode.
Definition for_chat_request (request : ChatCompletionRequest) : VerificationRequestMode :=
  if streaming request then StreamingChat else NonStreamingChat.
Definition mode_str (mode : VerificationRequestMode) : string :=
  match mode with
  | VerifyOnly => "verify_only" | NonStreamingChat => "non_streaming_chat"
  | StreamingChat => "streaming_chat" | EmbeddingsMode => "embeddings"
  end.

(** ** Routes and the policy *)

Definition route_bound_data_satisfies_policy (route policy : BoundDataRequirement) : bool :=
  match policy with
  | DataNotRequired => true
  | BoundToAttestedWorkload => route =?= BoundToAttestedWorkload
  end.

Definition route_response_integrity_satisfies_policy (route policy : ResponseIntegrityRequirement) : bool :=
  match policy with
  | IntegrityNotRequired => true
  | AnyBound => negb (route =?= IntegrityNotRequired)
  | IntegrityChannelBound => route =?= IntegrityChannelBound
  | IntegrityReceiptBound => route =?= IntegrityReceiptBound
  end.

Definition route_hardware_satisfies_policy (route : RouteDefinition) (policy : VerificationPolicy) : bool :=
  let cpu_ok := match hw_cpu (hardware policy) with
                | CpuNotRequired => true
                | AnyCpuTee | CpuOneOf _ => negb (rd_trust_tier route =?= TierNone)
                end in
  let gpu_ok := match hw_gpu (hardware policy) with
                | GpuNotRequired => true
                | GpuOneOf allowed =>
                    existsb (λ a, existsb (λ route_gpu, route_gpu =?= a) (rd_accepted_gpu_tees route)) allowed
                end in
  cpu_ok && gpu_ok.

Definition route_model_binding_satisfies_policy (support : ModelBindingSupport)
    (requirement : ModelBindingRequirement) : bool :=
  match requirement with
  | ModelNotRequired | IfProviderSupports => true
  | ModelRequired => support =?= BindingVerified
  end.

Definition route_satisfies_policy (route : RouteDefinition) (compatibility : ProviderCompatibility)
    (policy : VerificationPolicy) (purpose : RouteSelectionPurpose) : bool :=
  match purpose with
  | ForVerify => selectable_for_verification (rd_route_status route)
  | ForChat | ForEmbeddings => selectable_for_chat (rd_route_status route)
  end
  && channel_satisfies (rd_channel_binding_kind route) (channel_binding_requirement policy)
  && route_bound_data_satisfies_policy (rd_request_confidentiality_requirement route)
       (request_confidentiality_requirement policy)
  && route_bound_data_satisfies_policy (rd_response_confidentiality_requirement route)
       (response_confidentiality_requirement policy)
  && route_response_integrity_satisfies_policy (rd_response_integrity_requirement route)
       (response_integrity_requirement policy)
  && route_hardware_satisfies_policy route policy
  && route_model_binding_satisfies_policy (pc_model_binding_support compatibility) (model_binding_requirement policy)
  && match purpose with
     | ForVerify => true
     | ForChat => allows_chat_execution (pc_route_execution_status compatibility)
                  && supports_endpoint compatibility ChatCompletions
     | ForEmbeddings => allows_chat_execution (pc_route_execution_status compatibility)
                        && supports_endpoint compatibility Embeddings
     end.

Definition route_execution_status_label (status : RouteExecutionStatus) : string := execution_status_str status.

(** ** Selection *)

Definition Candidate : Type := RegistryModel * RouteDefinition.

Definition index_of (x : string) (l : list string) : option nat := fst <$> list_find (λ c, c = x) l.

(** The sort key of [sort_by_key]; [usize::MAX] when the provider is not listed. *)
Definition order_key (order : list string) (candidate : Candidate) : Z :=
  from_option Z.of_nat u64_max (index_of (rd_provider candidate.2) order).

(** The caller's order for the first candidate's model filters and sorts, unless
    the caller named a provider. *)
Definition applicable_order (client : Client) (provider : option string) (purpose : RouteSelectionPurpose)
    (candidates : list Candidate) : option (list string) :=
  match provider, purpose, candidates with
  | None, (ForChat | ForEmbeddings), (first, _) :: _ => cl_provider_order client !! rm_canonical_model first
  | _, _, _ => None
  end.
Definition apply_provider_order (client : Client) (provider : option string) (purpose : RouteSelectionPurpose)
    (candidates : list Candidate) : list Candidate :=
  match applicable_order client provider purpose candidates with
  | Some order =>
      sort_by_key (order_key order)
        (List.filter (λ c, existsb (λ p, p =?= rd_provider c.2) order) candidates)
  | None => candidates
  end.

Fixpoint select_loop (client : Client) (model : string) (purpose : RouteSelectionPurpose)
    (candidates : list Candidate) : ClientResult (list (RouteDefinition * AttestedRoute)) :=
  match candidates with
  | [] => Ok []
  | (registry_model, route) :: rest =>
      if negb (bool_decide (rd_provider route ∈ cl_adapters client)) then select_loop client model purpose rest
      else
        compatibility ← provided (matrix_provider (cl_compatibility_matrix client) (rd_provider route));
        _ ← provided (compatibility_validate_route compatibility route);
        if negb (route_satisfies_policy route compatibility (cl_policy client) purpose)
        then select_loop client model purpose rest
        else selected ← select_loop client model purpose rest;
             Ok ((route, to_attested_route route model (rm_canonical_model registry_model)) :: selected)
  end.

Definition select_routes (client : Client) (provider : option string) (model : string)
    (purpose : RouteSelectionPurpose) : ClientResult (list (RouteDefinition * AttestedRoute)) :=
  let candidates := matching_routes (cl_registry client) provider model in
  bail (RouteNotFound provider model) when match candidates with [] => true | _ => false end;
  select_loop client model purpose (apply_provider_order client provider purpose candidates).

Definition select_route (client : Client) (provider : option string) (model : string)
    (purpose : RouteSelectionPurpose) : ClientResult (RouteDefinition * AttestedRoute) :=
  selected ← select_routes client provider model purpose;
  ok_or (head selected) (RouteSelectionFailed provider model (purpose_str purpose)).

(** ** The caller's provider order *)

Definition validate_ordered_provider (matrix : ProviderCompatibilityMatrix) (adapters : gset string)
    (policy : VerificationPolicy) (canonical_model : string) (model : RegistryModel) (seen : gset string)
    (provider : string) : ClientResult (gset string) :=
  let fail message := Err (InvalidProviderRouting canonical_model message) in
  if is_empty (trim provider) then fail "provider ids must not be empty"
  else if bool_decide (provider ∈ seen) then fail "provider {provider} appears more than once"
  else
    let routes := List.filter (λ route, rd_provider route =?= provider) (rm_routes model) in
    match routes with
    | [] => fail "provider {provider} does not offer this model in the signed registry"
    | _ =>
        if negb (bool_decide (provider ∈ adapters)) then fail "provider {provider} has no registered adapter or API key"
        else
          compatibility ← map_err (λ _, InvalidProviderRouting canonical_model
                            "provider {provider} has no compatibility profile") (matrix_provider matrix provider);
          if existsb (λ route, is_ok (compatibility_validate_route compatibility route)
                               && route_satisfies_policy route compatibility policy ForChat) routes
          then Ok ({[provider]} ∪ seen)
          else fail "provider {provider} has no active executable route satisfying the current policy"
    end.

Definition validate_model_order (registry : ProviderRegistry) (matrix : ProviderCompatibilityMatrix)
    (adapters : gset string) (policy : VerificationPolicy) (entry : string * list string) : ClientResult unit :=
  let '(canonical_model, order) := entry in
  if is_empty (trim canonical_model)
  then Err (InvalidProviderRouting canonical_model "canonical model must not be empty")
  else match rg_models registry !! canonical_model with
  | None => Err (InvalidProviderRouting canonical_model
                   "model is not present as a canonical model in the signed registry")
  | Some model =>
      match order with
      | [] => Err (InvalidProviderRouting canonical_model "provider order must contain at least one provider")
      | _ => _ ← try_fold (validate_ordered_provider matrix adapters policy canonical_model model) order ∅; Ok tt
      end
  end.

Definition validate_provider_routing (routing : gmap string (list string)) (registry : ProviderRegistry)
    (matrix : ProviderCompatibilityMatrix) (adapters : gset string) (policy : VerificationPolicy)
    : ClientResult unit :=
  for_each (validate_model_order registry matrix adapters policy) (btree_iter routing).

(** ** The cache key *)

(** [format!("{:?}", ..)] of the unit variants. *)
Definition debug_tier (t : TrustTier) : string :=
  match t with HwVerifiedTls => "HwVerifiedTls" | AppE2ee => "AppE2ee" | TeeOnly => "TeeOnly" | TierNone => "None" end.
Definition debug_channel (k : ChannelBindingKind) : string :=
  match k with
  | KindNotRequired => "NotRequired" | KindTeeTerminatedTls => "TeeTerminatedTls"
  | KindAttestedAppE2ee => "AttestedAppE2ee" | KindAnyAttestedChannel => "AnyAttestedChannel" | KindNone => "None"
  end.
Definition debug_bound_data (r : BoundDataRequirement) : string :=
  match r with DataNotRequired => "NotRequired" | BoundToAttestedWorkload => "BoundToAttestedWorkload" end.
Definition debug_integrity (r : ResponseIntegrityRequirement) : string :=
  match r with
  | IntegrityNotRequired => "NotRequired" | AnyBound => "AnyBound"
  | IntegrityChannelBound => "ChannelBound" | IntegrityReceiptBound => "ReceiptBound"
  end.
Definition debug_encryption (r : EncryptionRequirement) : string :=
  match r with EncryptionRequired => "Required" | EncryptionNotRequired => "NotRequired" end.

Definition cache_key (route_definition : RouteDefinition) (route : AttestedRoute) (mode : VerificationRequestMode)
    (policy_digest provider_registry_digest reference_values_digest : string) : VerificationCacheKey := {|
  ck_provider := rt_provider route;
  ck_route_id := rt_route_id route;
  ck_evidence_family := rt_evidence_family route;
  ck_requested_model := rt_requested_model route;
  ck_provider_model := rt_provider_model route;
  ck_canonical_model := rt_canonical_model route;
  ck_api_endpoint := rt_api_endpoint route;
  ck_evidence_endpoint := rt_evidence_endpoint route;
  ck_policy_digest := policy_digest;
  ck_reference_values_digest := reference_values_digest;
  ck_provider_registry_digest := provider_registry_digest;
  ck_adapter_version := rt_adapter_version route;
  ck_trust_tier := debug_tier (rt_trust_tier route);
  ck_channel_binding_kind := debug_channel (rt_channel_binding_kind route);
  ck_request_confidentiality_requirement :=
    debug_bound_data (rd_request_confidentiality_requirement route_definition);
  ck_response_confidentiality_requirement :=
    debug_bound_data (rd_response_confidentiality_requirement route_definition);
  ck_response_integrity_requirement := debug_integrity (rd_response_integrity_requirement route_definition);
  ck_request_encryption := debug_encryption (rd_request_encryption route_definition);
  ck_response_decryption := debug_encryption (rd_response_decryption route_definition);
  ck_streaming_allowed := rt_streaming_allowed route;
  ck_request_mode := mode_str mode;
  ck_per_request_freshness := rd_freshness_class route_definition =?= FreshPerRequest |}.

(** ** What is selected *)

Lemma index_of_elem x l : is_Some (index_of x l) ↔ x ∈ l.
Proof.
  unfold index_of. rewrite fmap_is_Some. split.
  - intros [[i y] (H & -> & _)%list_find_Some]. by eapply list_elem_of_lookup_2.
  - intros H. by eapply list_find_elem_of.
Qed.

Definition admitted (client : Client) (purpose : RouteSelectionPurpose) (route : RouteDefinition) : Prop :=
  rd_provider route ∈ cl_adapters client
  ∧ ∃ c, cm_providers (cl_compatibility_matrix client) !! rd_provider route = Some c
         ∧ route_fits c route ∧ route_satisfies_policy route c (cl_policy client) purpose = true.

Lemma select_loop_cons client model purpose m route rest selected :
  select_loop client model purpose ((m, route) :: rest) = Ok selected →
  ∃ tail, select_loop client model purpose rest = Ok tail
    ∧ ((admitted client purpose route
        ∧ selected = (route, to_attested_route route model (rm_canonical_model m)) :: tail)
       ∨ (¬ admitted client purpose route ∧ selected = tail)).
Proof.
  cbn [select_loop]. unfold admitted. case_bool_decide as Ha; cbn [negb].
  2: { intros H. exists selected. split; [done|]. right. naive_solver. }
  unfold provided, matrix_provider. intros H. inv_ok.
  match goal with H : compatibility_validate_route _ _ = _ |- _ => apply validate_route_fits in H end.
  destruct (route_satisfies_policy _ _ _ _) eqn:Hp; cbn [negb] in H.
  - inv_ok. eexists. split; [eassumption|]. left. eauto 10.
  - exists selected. split; [done|]. right. split; [|done]. intros (_ & c & Hc & _ & Hs). congruence.
Qed.

Lemma select_loop_elem client model purpose candidates selected :
  select_loop client model purpose candidates = Ok selected →
  ∀ route attested, (route, attested) ∈ selected ↔
    ∃ m, (m, route) ∈ candidates ∧ admitted client purpose route
         ∧ attested = to_attested_route route model (rm_canonical_model m).
Proof.
  revert selected. induction candidates as [|[m route'] rest IH]; intros selected.
  { intros [= <-]. set_solver. }
  intros (tail & Ht & H)%select_loop_cons route attested. specialize (IH _ Ht route attested).
  destruct H as [[Ha ->]|[Hn ->]]; [rewrite elem_of_cons|]; rewrite IH; setoid_rewrite elem_of_cons; naive_solver.
Qed.

Lemma ordered_elem client provider purpose candidates c :
  c ∈ apply_provider_order client provider purpose candidates ↔
    c ∈ candidates
    ∧ ∀ order, applicable_order client provider purpose candidates = Some order → rd_provider c.2 ∈ order.
Proof.
  unfold apply_provider_order. destruct (applicable_order _ _ _ _) as [order|]; [|naive_solver].
  rewrite sort_by_key_perm, !list_elem_of_In, filter_In, existsb_name. naive_solver.
Qed.

(** The position of a selected route's provider in the caller's order. *)
Definition route_key (order : list string) (selected : RouteDefinition * AttestedRoute) : Z :=
  from_option Z.of_nat u64_max (index_of (rd_provider selected.1) order).

Lemma select_loop_sorted client model purpose order candidates selected :
  StronglySorted (key_le (order_key order)) candidates →
  select_loop client model purpose candidates = Ok selected →
  StronglySorted (key_le (route_key order)) selected.
Proof.
  intros Hs. revert selected. induction Hs as [|[m route] rest Hs IH Hr]; intros selected; [intros [= <-]; constructor|].
  intros (tail & Ht & [[Ha ->]|[_ ->]])%select_loop_cons; [|by apply IH]. constructor; [by apply IH|].
  apply list.Forall_forall. intros [route' a'] (m' & Hin & _)%(select_loop_elem _ _ _ _ _ Ht).
  rewrite list.Forall_forall in Hr. exact (Hr _ Hin).
Qed.

Lemma select_routes_elem client provider model purpose selected :
  select_routes client provider model purpose = Ok selected →
  let candidates := matching_routes (cl_registry client) provider model in
  ∀ route attested, (route, attested) ∈ selected ↔
     ∃ m, (m, route) ∈ candidates
          ∧ (∀ o, applicable_order client provider purpose candidates = Some o → rd_provider route ∈ o)
          ∧ admitted client purpose route
          ∧ attested = to_attested_route route model (rm_canonical_model m).
Proof.
  unfold select_routes. intros H. inv_ok. cbn zeta. intros route attested.
  rewrite (select_loop_elem _ _ _ _ _ H). setoid_rewrite ordered_elem. naive_solver.
Qed.
Lemma select_routes_sorted client provider model purpose selected o :
  select_routes client provider model purpose = Ok selected →
  applicable_order client provider purpose (matching_routes (cl_registry client) provider model) = Some o →
  StronglySorted (key_le (route_key o)) selected.
Proof.
  unfold select_routes. intros H Ho. inv_ok. eapply select_loop_sorted; [|exact H].
  unfold apply_provider_order. rewrite Ho. apply sort_by_key_sorted.
Qed.

(** C29: selection is exact: the routes returned for a request are those the
    registry offers for the name, whose provider has an adapter and, where the
    caller gave an order, is in it, which agree with their provider's profile
    and satisfy the policy for the purpose; each is returned with the route
    description made for this request, and they come in the caller's order. *)
Theorem selection_exact client provider model purpose selected :
  select_routes client provider model purpose = Ok selected →
  let candidates := matching_routes (cl_registry client) provider model in
  let order := applicable_order client provider purpose candidates in
  (∀ route attested, (route, attested) ∈ selected ↔
     ∃ m, (m, route) ∈ candidates ∧ (∀ o, order = Some o → rd_provider route ∈ o)
          ∧ admitted client purpose route
          ∧ attested = to_attested_route route model (rm_canonical_model m))
  ∧ (∀ o, order = Some o → StronglySorted (key_le (route_key o)) selected).
Proof.
  intros H. split; [exact (select_routes_elem _ _ _ _ _ H)|intros o; exact (select_routes_sorted _ _ _ _ _ o H)].
Qed.

(** ** Selection never fails on a checked registry *)

Lemma select_loop_total client model purpose candidates :
  (∀ m route, (m, route) ∈ candidates →
     ∃ c, cm_providers (cl_compatibility_matrix client) !! rd_provider route = Some c ∧ route_fits c route) →
  is_ok (select_loop client model purpose candidates) = true.
Proof.
  induction candidates as [|[m route] rest IH]; intros H; [done|]. cbn [select_loop].
  destruct (is_ok_inv _ (IH (λ m r Hr, H m r (list_elem_of_further _ _ _ Hr)))) as [tail Ht]. rewrite Ht.
  destruct (H m route) as (c & Hc & Hf); [by left|]. unfold matrix_provider. rewrite Hc.
  apply validate_route_fits in Hf. cbn. rewrite Hf. cbn. by repeat case_match.
Qed.

Lemma select_routes_total client provider model purpose :
  validate_registry_routes (cl_compatibility_matrix client) (cl_registry client) = Ok tt →
  matching_routes (cl_registry client) provider model ≠ [] →
  is_ok (select_routes client provider model purpose) = true.
Proof.
  intros Hv Hm. rewrite registry_routes_fit in Hv. unfold select_routes.
  destruct (matching_routes _ _ _) as [|x l] eqn:E; [done|]. rewrite <-E in *. cbn zeta.
  apply select_loop_total. intros m route [Hin _]%ordered_elem.
  apply matching_routes_elem in Hin as ([id Hid] & Hr & Hs). apply route_selected_true in Hs as [Hs _].
  by eapply Hv.
Qed.

(** ** A validated provider order *)

Record ordered_provider_ok (client : Client) (m : RegistryModel) (p : string) : Prop := {
  op_adapter : p ∈ cl_adapters client;
  op_route : ∃ route, route ∈ rm_routes m ∧ rd_provider route = p ∧ admitted client ForChat route;
}.

Lemma validate_ordered_provider_Ok client model m seen p seen' :
  validate_ordered_provider (cl_compatibility_matrix client) (cl_adapters client) (cl_policy client) model m seen p
    = Ok seen' →
  ordered_provider_ok client m p ∧ p ∉ seen.
Proof.
  unfold validate_ordered_provider, matrix_provider. cbn zeta. intros H.
  destruct (is_empty _); [done|]. case_bool_decide as Hseen; [done|].
  destruct (List.filter _ _) as [|x l] eqn:E; [done|]. rewrite <-E in H.
  case_bool_decide as Ha; [|done]. cbn [negb] in H. inv_ok.
  destruct (existsb _ _) eqn:Ex; [|done]. split; [|done].
  apply existsb_exists in Ex as (route & Hr & Hs). apply filter_In in Hr as [Hr Hp%bool_decide_eq_true].
  apply andb_true_iff in Hs as [[[] Hf]%is_ok_inv Hs]. apply validate_route_fits in Hf. subst p.
  constructor; [done|]. exists route. split; [by apply list_elem_of_In|]. split; [done|]. split; [done|]. eauto.
Qed.

Lemma validate_routing_Ok client model order :
  validate_provider_routing (cl_provider_order client) (cl_registry client) (cl_compatibility_matrix client)
    (cl_adapters client) (cl_policy client) = Ok tt →
  cl_provider_order client !! model = Some order →
  order ≠ [] ∧ ∃ m, rg_models (cl_registry client) !! model = Some m
                    ∧ ∀ p, p ∈ order → ordered_provider_ok client m p.
Proof.
  unfold validate_provider_routing. rewrite btree_for_each. intros H Ho. specialize (H _ _ Ho). cbn in H.
  destruct (is_empty _); [done|]. destruct (rg_models _ !! model) as [m|] eqn:Em; [|done].
  destruct order as [|p rest]; [done|]. inv_ok. split; [done|]. exists m. split; [done|]. intros q Hq.
  match goal with H : try_fold _ _ _ = _ |- _ => apply try_fold_steps in H; rewrite list.Forall_forall in H;
    destruct (H _ Hq) as (s1 & s2 & Hs) end.
  by apply validate_ordered_provider_Ok in Hs as [? _].
Qed.

Lemma index_of_head p rest : index_of p (p :: rest) = Some O.
Proof. unfold index_of. cbn. by rewrite decide_True. Qed.
Lemma index_of_first q p rest : index_of q (p :: rest) = Some O → q = p.
Proof.
  unfold index_of. intros ([i y] & Hi & H)%fmap_Some_1. cbn in H. subst i.
  apply list_find_Some in Hi as (Hi & -> & _). by injection Hi.
Qed.

Lemma head_first_provider p rest selected x :
  StronglySorted (key_le (route_key (p :: rest))) selected → x ∈ selected → rd_provider x.1 = p →
  ∃ y tail, selected = y :: tail ∧ rd_provider y.1 = p.
Proof.
  destruct selected as [|y tail]; [set_solver|]. intros Hs Hx Hp. exists y, tail. split; [done|].
  apply elem_of_cons in Hx as [->|Hx]; [done|]. apply StronglySorted_inv in Hs as [_ Hy].
  rewrite list.Forall_forall in Hy. specialize (Hy _ Hx). unfold key_le, route_key in Hy. rewrite Hp, index_of_head in Hy.
  cbn [from_option] in Hy. apply index_of_first with rest.
  destruct (index_of (rd_provider y.1) (p :: rest)) as [[|i]|]; cbn in Hy; [done|lia|unfold u64_max in Hy; lia].
Qed.

(** A provider order accepted when the client is built is honoured by
    every chat request: when all the routes offered for a model's canonical name
    are the model's own, selection succeeds and the first route tried belongs to
    the caller's first provider. *)
Lemma order_selects client model p rest :
  validate_security_invariants (cl_registry client) = Ok tt →
  validate_registry_routes (cl_compatibility_matrix client) (cl_registry client) = Ok tt →
  validate_provider_routing (cl_provider_order client) (cl_registry client) (cl_compatibility_matrix client)
    (cl_adapters client) (cl_policy client) = Ok tt →
  cl_provider_order client !! model = Some (p :: rest) →
  (∀ m route, (m, route) ∈ matching_routes (cl_registry client) None model → rm_canonical_model m = model) →
  ∃ route attested tail, select_routes client None model ForChat = Ok ((route, attested) :: tail)
    ∧ rt_provider attested = p ∧ rt_requested_model attested = model ∧ rt_canonical_model attested = model.
Proof.
  intros Hv Hf Hr Ho Hown. destruct (validate_routing_Ok _ _ _ Hr Ho) as (_ & m & Hm & Hp).
  destruct (op_route _ _ _ (Hp p (list_elem_of_here _ _))) as (route & Hin & Hrp & Ha).
  apply registry_validation_Ok in Hv. pose proof (mv_key _ (gv_models _ Hv _ _ Hm)) as Hk.
  assert ((m, route) ∈ matching_routes (cl_registry client) None model) as Hmatch.
  { apply matching_routes_elem. split; [eauto|]. split; [done|]. apply route_selected_true.
    destruct Ha as (_ & c & _ & _ & Hs). unfold route_satisfies_policy in Hs. bools. destruct_and!.
    split; [by destruct (rd_route_status route)|]. split; [done|]. right. by left. }
  destruct (is_ok_inv (select_routes client None model ForChat)) as [selected Hsel].
  { apply select_routes_total; [done|]. intros E. rewrite E in Hmatch. set_solver. }
  assert (applicable_order client None ForChat (matching_routes (cl_registry client) None model) = Some (p :: rest)) as Hord.
  { unfold applicable_order. destruct (matching_routes _ _ _) as [|[m' r'] l]; [set_solver|].
    rewrite (Hown m' r'); [done|by left]. }
  pose proof (select_routes_elem _ _ _ _ _ Hsel) as Hex. cbn zeta in Hex.
  destruct (head_first_provider p rest selected (route, to_attested_route route model (rm_canonical_model m)))
    as ([route' attested'] & tail & -> & Hp'); [by eapply select_routes_sorted| |done|].
  { apply Hex. exists m. split_and!; [done| |done|done]. intros o. rewrite Hord. intros [= <-]. rewrite Hrp. by left. }
  destruct (proj1 (Hex route' attested')) as (m' & Hm' & _ & _ & ->); [by left|].
  exists route', (to_attested_route route' model (rm_canonical_model m')), tail.
  split; [done|]. split; [done|]. split; [done|]. by apply (Hown m' route').
Qed.

(** ** The cache key identifies the route *)

Lemma mode_str_inj a b : mode_str a = mode_str b → a = b.
Proof. by destruct a, b. Qed.

Lemma nodup_map_inj {A B} (f : A → B) l x y : NoDup (map f l) → x ∈ l → y ∈ l → f x = f y → x = y.
Proof.
  intros Hn (i & Hi)%list_elem_of_lookup_1 (j & Hj)%list_elem_of_lookup_1 E.
  assert (i = j) as ->; [|congruence]. eapply (NoDup_lookup (map f l)); [done|..].
  - rewrite list_lookup_fmap, Hi. reflexivity.
  - rewrite list_lookup_fmap, Hj. cbn. by rewrite E.
Qed.

(** A cached verdict is never served to another route or kind of request:
    in a client with a valid registry whose route ids are unique within each
    model, two selected routes with the same cache key are the same route, asked
    for under the same name in the same mode and judged under the same policy,
    registry and reference values. *)
Theorem cache_key_identifies client p1 n1 u1 s1 r1 a1 m1 p2 n2 u2 s2 r2 a2 m2 pd1 gd1 vd1 pd2 gd2 vd2 :
  validate_security_invariants (cl_registry client) = Ok tt → unique_ids (cl_registry client) →
  select_routes client p1 n1 u1 = Ok s1 → (r1, a1) ∈ s1 →
  select_routes client p2 n2 u2 = Ok s2 → (r2, a2) ∈ s2 →
  cache_key r1 a1 m1 pd1 gd1 vd1 = cache_key r2 a2 m2 pd2 gd2 vd2 →
  r1 = r2 ∧ a1 = a2 ∧ m1 = m2 ∧ pd1 = pd2 ∧ gd1 = gd2 ∧ vd1 = vd2.
Proof.
  intros Hv%registry_validation_Ok Hu H1 E1 H2 E2 Hk.
  apply (select_routes_elem _ _ _ _ _ H1) in E1 as (x1 & E1 & _ & _ & ->).
  apply (select_routes_elem _ _ _ _ _ H2) in E2 as (x2 & E2 & _ & _ & ->).
  apply matching_routes_elem in E1 as ([i1 I1] & L1 & _), E2 as ([i2 I2] & L2 & _).
  pose proof (mv_key _ (gv_models _ Hv _ _ I1)) as K1. pose proof (mv_key _ (gv_models _ Hv _ _ I2)) as K2.
  cbn in K1, K2. pose proof (f_equal ck_canonical_model Hk) as Hc. pose proof (f_equal ck_route_id Hk) as Hi.
  pose proof (f_equal ck_requested_model Hk) as Hn. cbn in Hc, Hi, Hn.
  assert (x1 = x2) as -> by congruence.
  assert (r1 = r2) as -> by (eapply (nodup_map_inj rd_route_id); eauto).
  split; [done|]. split; [by rewrite Hn|]. split; [apply mode_str_inj; exact (f_equal ck_request_mode Hk)|].
  split; [exact (f_equal ck_policy_digest Hk)|]. split; [exact (f_equal ck_provider_registry_digest Hk)|].
  exact (f_equal ck_reference_values_digest Hk).
Qed.

(** ** A concrete client *)

Definition selection_registry : ProviderRegistry := sample_registry "2026.10"
  [sample_model "llama" ["llama-70b"; "l70"]
     [sample_definition "r1" "near" "llama3" Active FreshPerSession;
      sample_definition "r2" "tinfoil" "llama3" Active FreshPerSession;
      sample_definition "r3" "tinfoil" "llama3" VerificationOnly FreshPerSession]].
Definition selection_client : Client := {|
  cl_policy := policy_disabled; cl_registry := selection_registry; cl_registry_digest := sample_digest;
  cl_registry_source := "bundled"; cl_registry_signature := sample_signature;
  cl_reference_values := sample_payload "1" "1" 0 (sample_provider [] [] []);
  cl_reference_values_digest := sample_digest; cl_reference_values_source := "bundled";
  cl_reference_signature := sample_signature;
  cl_compatibility_matrix := {| cm_schema := MATRIX_SCHEMA; cm_providers := list_to_map
    [("tinfoil", sample_profile "tinfoil" EncryptionNotRequired FreshPerSession);
     ("near", sample_profile "near" EncryptionNotRequired FreshPerSession)] |};
  cl_provider_order := {[ "llama" := ["tinfoil"; "near"] ]};
  cl_adapters := {[ "near"; "tinfoil" ]} |}.

Definition selected_llama : list (RouteDefinition * AttestedRoute) :=
  map (λ '(id, p), let r := sample_definition id p "llama3" Active FreshPerSession in (r, to_attested_route r "llama" "llama"))
    [("r2", "tinfoil"); ("r1", "near")].
Example selection_follows_order : select_routes selection_client None "llama" ForChat = Ok selected_llama.
Proof. vm_compute. reflexivity. Qed.

Lemma selection_exact_witness :
  StronglySorted (key_le (route_key ["tinfoil"; "near"])) selected_llama.
Proof. exact (proj2 (selection_exact _ _ _ _ _ selection_follows_order) ["tinfoil"; "near"] ltac:(vm_compute; reflexivity)). Defined.

Lemma selection_unique : unique_ids selection_registry.
Proof.
  intros id m Hid. cbn in Hid. apply lookup_insert_Some in Hid as [[<- <-]|[_ Hid]];
    [apply (bool_decide_unpack _); vm_compute; exact I|rewrite lookup_empty in Hid; discriminate].
Qed.

Lemma cache_key_identifies_witness :
  ∃ first second, selected_llama = [first; second]
    ∧ ¬ cache_key first.1 first.2 NonStreamingChat "" "" "" = cache_key second.1 second.2 NonStreamingChat "" "" "".
Proof.
  eexists (_, _), (_, _). split; [reflexivity|]. cbn [fst snd]. intros E.
  destruct (cache_key_identifies selection_client None "llama" ForChat selected_llama _ _ NonStreamingChat
    None "llama" ForChat selected_llama _ _ NonStreamingChat "" "" "" "" "" ""
    ltac:(vm_compute; reflexivity) selection_unique selection_follows_order ltac:(by left) selection_follows_order
    ltac:(by right; left) E) as [Hr _].
  discriminate Hr.
Defined.
