(* ===== verification/Effects.v ===== *)
(** * Effectful code

    An [async] method of the client as a function from the state of the outside
    world to a result and the next state; [x ← m; k] is [let x = m.await?; k]. *)

From Stdlib Require Import String ZArith.
From stdpp Require Import base tactics.
From S2P Require Import Prelude.

Definition eff (W E A : Type) : Type := W → result E A * W.

#[export] Instance eff_ret {W E} : MRet (eff W E) := λ A a w, (Ok a, w).
#[export] Instance eff_bind {W E} : MBind (eff W E) := λ A B f m w,
  match m w with (Ok a, w') => f a w' | (Err e, w') => (Err e, w') end.

(** A result computed without effects, an error of another type, and a reading
    of the world that cannot fail. *)
Definition pure_result {W E A} (r : result E A) : eff W E A := λ w, (r, w).
Definition map_eff_err {W E F A} (f : E → F) (m : eff W E A) : eff W F A := λ w,
  let '(r, w') := m w in (map_err f r, w').
Definition reading {W E A} (m : W → A * W) : eff W E A := λ w, let '(a, w') := m w in (Ok a, w').

Lemma eff_bind_Ok {W E A B} (m : eff W E A) (f : A → eff W E B) w b w' :
  (m ≫= f) w = (Ok b, w') ↔ ∃ a w1, m w = (Ok a, w1) ∧ f a w1 = (Ok b, w').
Proof.
  unfold mbind, eff_bind. destruct (m w) as [[a|e] w1]; [naive_solver|].
  split; [done|]. by intros (? & ? & ? & ?).
Qed.
Lemma pure_result_Ok {W E A} (r : result E A) (w : W) a w' :
  pure_result r w = (Ok a, w') ↔ r = Ok a ∧ w' = w.
Proof. unfold pure_result. naive_solver. Qed.
Lemma map_eff_err_Ok {W E F A} (f : E → F) (m : eff W E A) w a w' :
  map_eff_err f m w = (Ok a, w') → m w = (Ok a, w').
Proof. unfold map_eff_err. destruct (m w) as [[?|?] ?]; cbn; naive_solver. Qed.
Lemma reading_Ok {W E A} (m : W → A * W) w a w' : reading (E := E) m w = (Ok a, w') → m w = (a, w').
Proof. unfold reading. destruct (m w). naive_solver. Qed.

(** Take a successful run apart into its steps. *)
Ltac inv_eff_step :=
  match goal with
  | H : (_ ≫= _) _ = (Ok _, _) |- _ => apply eff_bind_Ok in H; destruct H as (? & ? & ? & H)
  | H : pure_result _ _ = (Ok _, _) |- _ => apply pure_result_Ok in H; destruct H as [H ->]
  | H : map_eff_err _ _ _ = (Ok _, _) |- _ => apply map_eff_err_Ok in H
  | H : reading _ _ = (Ok _, _) |- _ => apply reading_Ok in H
  | H : (Ok _, _) = (Ok _, _) |- _ => injection H as H ?; subst
  end.
Ltac inv_eff := repeat inv_eff_step; inv_ok.
