(* ===== verification/ClientVerify.v ===== *)
(** * Verifying a selected route

    sdk/lib.rs: the nonce a route's evidence must be bound to, the quote and GPU
    back ends chosen for the evidence that came back, and the verification of
    that evidence. *)

From Stdlib Require Import Ascii String ZArith Lia.
From stdpp Require Import base gmap strings list numbers.
From S2P Require Import Prelude RustStr Errors Collections Timestamps Canonical JsonInjective Policy Verdict Evidence Bindings.
From S2P Require Import Signature ReferenceValues VerifierCore VerifierSound EvidenceDocuments FixtureVerifier DstackVerifier.
From S2P Require Import QuoteInterfaces ChutesVerifier TinfoilVerifier LiveEvidence LiveFamilies Ppq Redpill Dispatch.
From S2P Require Import Registry RegistryReview ProviderRequest Compatibility ClientErrors VerdictCache RouteSelection Effects.

Open Scope string_scope.

(** ** The outside world

    The adapter of the route's provider, the collateral services and the clocks;
    [sev_snp_quote_verifier] is the verifier made from a VCEK certificate. *)

Record EvidenceRequest := {
  er_requested_model : string;
  er_policy_digest : string;
  er_nonce : option string;
}.

Class VerificationWorld (W : Type) := {
  fetch_evidence : RouteDefinition → EvidenceRequest → eff W ProviderError string;
  collateral_verifier : string → Z → eff W ProviderError TinfoilQuoteVerifier;
  resolve_vcek : string → string → string → eff W ProviderError string;
  fetch_jwt_verifier : eff W ProviderError GpuAttestationVerifier;
  fresh_evidence_nonce : W → string * W;
  time_source : W → Z * W;
  utc_clock : W → Z * W;
  monotonic_clock : W → Z * W;
  sev_snp_quote_verifier : string → TinfoilQuoteVerifier;
}.

(** The back ends a client was built with. *)
Record BackEnds := {
  be_tinfoil_quote_verifier : TinfoilQuoteVerifier;
  be_gpu_attestation_verifier : GpuAttestationVerifier;
  be_gpu_attestation_verifier_is_custom : bool;
  be_collateral_resolver : bool;
  be_vcek_resolver : bool;
}.

(** The world with the client's cached NRAS verifier and when it was fetched. *)
Record Session (W : Type) := {
  se_nras_jwt_verifier : option (Z * GpuAttestationVerifier);
  se_world : W;
}.
Arguments se_nras_jwt_verifier {W}.
Arguments se_world {W}.

Definition on_world {W E A} (m : eff W E A) : eff (Session W) E A := λ s,
  let '(r, w) := m (se_world s) in
  (r, {| se_nras_jwt_verifier := se_nras_jwt_verifier s; se_world := w |}).

Lemma on_world_Ok {W E A} (m : eff W E A) s a s' :
  on_world m s = (Ok a, s') → m (se_world s) = (Ok a, se_world s').
Proof. unfold on_world. destruct (m (se_world s)) as [r w]. by intros [= -> <-]. Qed.

(** ** Nonces *)

Definition requires_per_request_freshness (client : Client) (route : RouteDefinition) : bool :=
  (freshness (cl_policy client) =?= PerRequest) || (rd_freshness_class route =?= FreshPerRequest).

Definition needs_nonce (client : Client) (route : RouteDefinition) : bool :=
  requires_per_request_freshness client route || (rd_evidence_family route =?= "redpill_aci_verified_tls").

(** ** The quote verifier for the evidence *)

Definition NRAS_JWT_VERIFIER_TTL : Z := 3600000.

(** [u64::from_le_bytes]. *)
Fixpoint from_le_bytes (s : string) : Z :=
  match s with
  | "" => 0
  | String c s => Z.of_N (N_of_ascii c) + 256 * from_le_bytes s
  end.
Definition byte_of (z : Z) : ascii := ascii_of_N (Z.to_N (z mod 256)).

Definition RedpillQuoteVerifiers (gateway_quote model_quote : string) (gateway model : TinfoilQuoteVerifier)
    : TinfoilQuoteVerifier := {|
  verify_tinfoil_quote request := @verify_tinfoil_quote gateway request;
  verify_tdx_quote quote :=
    if quote =?= gateway_quote then @verify_tdx_quote gateway quote
    else if quote =?= model_quote then @verify_tdx_quote model quote
    else Err (InvalidEvidence "unexpected RedPill quote") |}.

Section Verify.
Context {prim : Primitives} {x509 : CertificateReader} {readers : EvidenceReaders} {reader : YamlReader}
        {near : NearReader} {tinfoil : TinfoilReaders} {ppq : PpqReaders} {redpill : RedpillReaders}.
Context {W : Type} {world : VerificationWorld W}.
Context (client : Client) (back_ends : BackEnds).

Definition expected_freshness_nonce_for (route : RouteDefinition) (request : EvidenceRequest)
    : option string :=
  if negb (requires_per_request_freshness client route)
     && negb (rd_evidence_family route =?= "redpill_aci_verified_tls") then None
  else (λ nonce, if (rd_evidence_family route =?= "chutes_e2ee")
                    || (rd_evidence_family route =?= "chutes_live_e2ee")
                 then chutes_provider_nonce nonce else nonce) <$> er_nonce request.

Definition evidence_nonce_for (route : RouteDefinition) : eff (Session W) ClientError (option string) :=
  if needs_nonce client route
  then nonce ← on_world (reading fresh_evidence_nonce); mret (Some nonce)
  else mret None.

Definition dcap_tdx_verifier_for_quote (quote_bytes : string)
    : eff (Session W) ClientError TinfoilQuoteVerifier :=
  if be_collateral_resolver back_ends
  then now ← on_world (reading time_source);
       on_world (map_eff_err Provider (collateral_verifier quote_bytes now))
  else mret (be_tinfoil_quote_verifier back_ends).

(** The TDX quote inside Tinfoil, Chutes and NEAR captures. *)
Definition raw_tdx_quote_bytes (raw : string) : ClientResult (option string) :=
  let schema := raw_schema raw in
  if schema =?= Some TINFOIL_LIVE_SCHEMA then
    parsed ← attested (parse_tinfoil_live_capture raw);
    Ok (if pc_attestation_format parsed =?= TdxGuestV2 then Some (pc_quote_bytes parsed) else None)
  else if schema =?= Some CHUTES_LIVE_SCHEMA then
    capture ← attested (ok_or (chutes_live_from_slice raw)
                          (InvalidEvidence "invalid Chutes live evidence capture: {error}"));
    quote ← attested (ok_or (base64_decode (cl_quote_base64 capture))
                        (InvalidEvidence "Chutes TDX quote is not base64: {error}"));
    Ok (Some quote)
  else if schema =?= Some NEAR_LIVE_SCHEMA then
    capture ← attested (ok_or (near_live_from_slice raw)
                          (InvalidEvidence "invalid NEAR live evidence capture: {error}"));
    body ← attested (ok_or (base64_decode (nl_raw_attestation_body_base64 capture))
                       (InvalidEvidence "NEAR raw attestation body is not base64: {error}"));
    value ← attested (ok_or (value_from_slice body)
                        (InvalidEvidence "NEAR raw attestation body is not JSON: {error}"));
    quote_hex ← attested (ok_or (value_get "intel_quote" value ≫= value_as_str)
                            (InvalidEvidence "NEAR raw attestation body has no intel_quote"));
    quote ← attested (decode_hex quote_hex);
    Ok (Some quote)
  else Ok None.

Definition ppq_back_end (raw : string) : eff (Session W) ClientError TinfoilQuoteVerifier :=
  capture ← pure_result (attested (ok_or (ppq_from_slice raw) EvidenceDocuments.json_error));
  parsed ← pure_result (attested (parse_ppq_ehbp_evidence capture));
  match pp_format parsed with
  | TdxGuestV2 => dcap_tdx_verifier_for_quote (pp_quote parsed)
  | SevSnpGuestV2 => mret (sev_snp_quote_verifier (pp_vcek parsed))
  end.

(** The two collateral requests run concurrently; they are independent. *)
Definition redpill_back_end (raw : string) : eff (Session W) ClientError TinfoilQuoteVerifier :=
  capture ← pure_result (attested (ok_or (redpill_from_slice raw) EvidenceDocuments.json_error));
  quotes ← pure_result (attested (redpill_aci_quote_bytes capture));
  gateway ← dcap_tdx_verifier_for_quote quotes.1;
  model ← dcap_tdx_verifier_for_quote quotes.2;
  mret (RedpillQuoteVerifiers quotes.1 quotes.2 gateway model).

(** The chip and firmware version a SEV-SNP report names: [report[416..480]] and
    four bytes of [report[384..392]]. *)
Definition snp_chip (report : string) : ClientResult (string * string) :=
  bail (Attestation (InvalidEvidence "SEV-SNP report has wrong size"))
    when negb (String.length report =? SNP_REPORT_BYTES)%nat;
  let hwid := substring 416 64 report in
  let reported_tcb := from_le_bytes (substring 384 8 report) in
  let tcb := String (byte_of reported_tcb) (String (byte_of (Z.shiftr reported_tcb 8))
             (String (byte_of (Z.shiftr reported_tcb 48)) (String (byte_of (Z.shiftr reported_tcb 56)) ""))) in
  bail (Attestation (InvalidEvidence "SEV-SNP report chip_id or TCB is empty"))
    when all_bytes (λ b, b =?= zero) hwid || (reported_tcb =? 0)%Z;
  Ok (hwid, tcb).

Definition snp_back_end (report : string) : eff (Session W) ClientError TinfoilQuoteVerifier :=
  if negb (be_vcek_resolver back_ends)
  then pure_result (Err (Attestation (InvalidEvidence
         "SEV-SNP live verification requires a configured VCEK resolver")))
  else
    chip ← pure_result (snp_chip report);
    vcek ← on_world (map_eff_err Provider (resolve_vcek "Genoa" chip.1 chip.2));
    mret (sev_snp_quote_verifier vcek).

Definition tinfoil_quote_verifier_for_raw_evidence (raw : string)
    : eff (Session W) ClientError TinfoilQuoteVerifier :=
  let schema := raw_schema raw in
  if schema =?= Some PPQ_SCHEMA then ppq_back_end raw
  else if schema =?= Some REDPILL_SCHEMA then redpill_back_end raw
  else if negb (schema =?= Some TINFOIL_LIVE_SCHEMA) then
    quote ← pure_result (raw_tdx_quote_bytes raw);
    match quote with
    | Some quote_bytes => dcap_tdx_verifier_for_quote quote_bytes
    | None => mret (be_tinfoil_quote_verifier back_ends)
    end
  else
    parsed ← pure_result (attested (parse_tinfoil_live_capture raw));
    match pc_attestation_format parsed with
    | TdxGuestV2 => dcap_tdx_verifier_for_quote (pc_quote_bytes parsed)
    | SevSnpGuestV2 => snp_back_end (pc_quote_bytes parsed)
    end.

(** ** The GPU verifier for the evidence *)

Definition configured_gpu_verifier (raw : string) : bool :=
  let schema := raw_schema raw in
  be_gpu_attestation_verifier_is_custom back_ends
  || (negb (schema =?= Some REDPILL_SCHEMA)
      && ((hw_gpu (hardware (cl_policy client)) =?= GpuNotRequired)
          || negb ((schema =?= Some CHUTES_LIVE_SCHEMA) || (schema =?= Some NEAR_LIVE_SCHEMA)))).

Definition remember_nras (instant : Z) (verifier : GpuAttestationVerifier)
    : eff (Session W) ClientError GpuAttestationVerifier := λ s,
  (Ok verifier, {| se_nras_jwt_verifier := Some (instant, verifier); se_world := se_world s |}).
Definition fetch_nras_verifier : eff (Session W) ClientError GpuAttestationVerifier :=
  verifier ← on_world (map_eff_err Provider fetch_jwt_verifier);
  instant ← on_world (reading monotonic_clock);
  remember_nras instant verifier.

Definition cached_nras : eff (Session W) ClientError (option (Z * GpuAttestationVerifier)) := λ s,
  (Ok (se_nras_jwt_verifier s), s).

Definition gpu_attestation_verifier_for_raw_evidence (raw : string)
    : eff (Session W) ClientError GpuAttestationVerifier :=
  if configured_gpu_verifier raw then mret (be_gpu_attestation_verifier back_ends)
  else
    cached ← cached_nras;
    match cached with
    | Some (fetched_at, verifier) =>
        instant ← on_world (reading monotonic_clock);
        if (instant - fetched_at <? NRAS_JWT_VERIFIER_TTL)%Z then mret verifier else fetch_nras_verifier
    | None => fetch_nras_verifier
    end.

(** ** Fetching and verifying *)

Definition verification_request (compatibility : ProviderCompatibility) (route_definition : RouteDefinition)
    (attested_route : AttestedRoute) (evidence_request : EvidenceRequest) (raw_evidence : string)
    : VerificationRequest := {|
  rq_route := attested_route;
  rq_route_execution_status := route_execution_status_label (pc_route_execution_status compatibility);
  rq_chat_executable := route_satisfies_policy route_definition compatibility (cl_policy client) ForChat;
  rq_known_unsupported_modes := pc_known_unsupported_modes compatibility;
  rq_expected_freshness_nonce := expected_freshness_nonce_for route_definition evidence_request;
  rq_policy := cl_policy client;
  rq_reference_values := cl_reference_values client;
  rq_reference_signature := cl_reference_signature client;
  rq_reference_values_digest := cl_reference_values_digest client;
  rq_reference_values_source := cl_reference_values_source client;
  rq_registry_digest := cl_registry_digest client;
  rq_registry_version := rg_version (cl_registry client);
  rq_registry_source := cl_registry_source client;
  rq_registry_sync_completed_at := ss_completed_at (rg_source_sync_run (cl_registry client));
  rq_registry_signature := cl_registry_signature client;
  rq_raw_evidence := raw_evidence |}.

Definition fetch_and_verify_route (route_definition : RouteDefinition) (attested_route : AttestedRoute)
    (policy_digest : string) : eff (Session W) ClientError AttestationVerdict :=
  compatibility ← pure_result (provided (matrix_provider (cl_compatibility_matrix client)
                                           (rd_provider route_definition)));
  _ ← pure_result (provided (compatibility_validate_route compatibility route_definition));
  nonce ← evidence_nonce_for route_definition;
  let evidence_request := {| er_requested_model := rt_requested_model attested_route;
                             er_policy_digest := policy_digest; er_nonce := nonce |} in
  raw_evidence ← on_world (map_eff_err Provider (fetch_evidence route_definition evidence_request));
  quotes ← tinfoil_quote_verifier_for_raw_evidence raw_evidence;
  gpu ← gpu_attestation_verifier_for_raw_evidence raw_evidence;
  captured_now ← on_world (reading utc_clock);
  now ← on_world (reading utc_clock);
  pure_result (attested (verify_evidence_with_attestation_verifiers captured_now now quotes gpu
    (verification_request compatibility route_definition attested_route evidence_request raw_evidence))).

(** ** What a fetched verdict is *)

(** One run: the profile, the evidence request with its nonce, the bytes the
    adapter returned for it, the back ends, and the verification. *)
Record verified_run (rd : RouteDefinition) (ar : AttestedRoute) (pd : string) (s : Session W)
    (v : AttestationVerdict) (c : ProviderCompatibility) (er : EvidenceRequest) (raw : string)
    (quotes : TinfoilQuoteVerifier) (gpu : GpuAttestationVerifier) (captured_now now : Z) : Prop := {
  run_profile : cm_providers (cl_compatibility_matrix client) !! rd_provider rd = Some c ∧ route_fits c rd;
  run_request : er_requested_model er = rt_requested_model ar ∧ er_policy_digest er = pd;
  run_nonce : needs_nonce client rd = true → ∃ nonce w, fresh_evidence_nonce (se_world s) = (nonce, w) ∧ er_nonce er = Some nonce;
  run_fetched : ∃ s1 s2, fetch_evidence rd er (se_world s1) = (Ok raw, se_world s2);
  run_quotes : ∃ s1 s2, tinfoil_quote_verifier_for_raw_evidence raw s1 = (Ok quotes, s2);
  run_gpu : ∃ s1 s2, gpu_attestation_verifier_for_raw_evidence raw s1 = (Ok gpu, s2);
  run_verified : verify_evidence_with_attestation_verifiers captured_now now quotes gpu
                   (verification_request c rd ar er raw) = Ok v;
}.

Lemma evidence_nonce_for_Ok rd s nonce s' :
  evidence_nonce_for rd s = (Ok nonce, s') → needs_nonce client rd = true →
  ∃ n w, fresh_evidence_nonce (se_world s) = (n, w) ∧ nonce = Some n.
Proof.
  unfold evidence_nonce_for. intros H Hn. rewrite Hn in H. inv_eff.
  match goal with H : on_world _ _ = _ |- _ => apply on_world_Ok, reading_Ok in H end.
  unfold mret, eff_ret in *. naive_solver.
Qed.

Lemma fetched_verdict rd ar pd s v s' :
  fetch_and_verify_route rd ar pd s = (Ok v, s') →
  ∃ c er raw quotes gpu captured_now now, verified_run rd ar pd s v c er raw quotes gpu captured_now now.
Proof.
  unfold fetch_and_verify_route, provided, attested, matrix_provider. intros H. inv_eff.
  match goal with H : compatibility_validate_route _ _ = Ok _ |- _ => apply validate_route_fits in H end.
  match goal with H : on_world (map_eff_err _ _) _ = _ |- _ => apply on_world_Ok, map_eff_err_Ok in H end.
  eexists _, _, _, _, _, _, _. constructor; try eassumption; try (by eexists _, _; eassumption); [done|done|].
  by eapply evidence_nonce_for_Ok.
Qed.

(** What the calls of this client may fetch for a cache key: the outcome of a
    verification of a route and request that have that key. *)
Definition returned_for (key : VerificationCacheKey) (r : Outcome) : Prop :=
  ∃ rd ar mode pd s s',
    policy_digest (cl_policy client) = Ok pd
    ∧ key = cache_key rd ar mode pd (cl_registry_digest client) (cl_reference_values_digest client)
    ∧ fetch_and_verify_route rd ar pd s = (r, s').

(** A verdict a call may act on. *)
Record usable_verdict (provider route_id family model : string) (v : AttestationVerdict) : Prop := {
  uv_allowed : v_request_allowed v = true;
  uv_consistent : validate_summary_consistency v = Ok tt;
  uv_provider : v_provider v = provider;
  uv_route : v_route_id v = route_id;
  uv_family : v_evidence_family v = family;
  uv_model : v_requested_model v = model;
  uv_evidence : ∃ rd er raw w w', fetch_evidence rd er w = (Ok raw, w') ∧ er_requested_model er = model
    ∧ v_raw_evidence_digest v = sha256_digest raw;
  uv_checks : enforcement (cl_policy client) = Enforce →
    ∀ name state, v_checks v !! name = Some state → check_blocks (cl_policy client) (name, state) = false;
}.

Lemma returned_usable key v :
  returned_for key (Ok v) → v_request_allowed v = true →
  usable_verdict (ck_provider key) (ck_route_id key) (ck_evidence_family key) (ck_requested_model key) v.
Proof.
  intros (rd & ar & mode & pd & w & w' & _ & -> & Hf) Ha.
  apply fetched_verdict in Hf as (c & er & raw & quotes & gpu & cn & now & [_ [Hm _] _ (s1 & s2 & Hfetch) _ _ Hv]).
  apply dispatched_verdict in Hv as [H1 H2 H3 H4 H5 _ H7 _ H9]. constructor; try done.
  - exists rd, er, raw, (se_world s1), (se_world s2). by split_and!.
  - intros He. by apply H9.
Qed.

(** End to end, whatever calls, refreshes, timeouts, cancellations and
    clock changes interleave: a call that ends with a verdict for its key holds
    a consistent verdict that allows the request, names the key's provider,
    route, evidence family and model, and covers the very bytes an adapter
    returned for a request for that model; under an enforcing policy none of
    its checks blocks. *)
Theorem client_calls_sound s T i key v :
  reachable (cl_policy client) returned_for (s, T) → T !! i = Some (Done key (Some (Ok v))) →
  v_request_allowed v = true ∧ validate_summary_consistency v = Ok tt
  ∧ v_provider v = ck_provider key ∧ v_route_id v = ck_route_id key
  ∧ v_evidence_family v = ck_evidence_family key ∧ v_requested_model v = ck_requested_model key
  ∧ (∃ rd er raw w w', fetch_evidence rd er w = (Ok raw, w')
       ∧ er_requested_model er = ck_requested_model key ∧ v_raw_evidence_digest v = sha256_digest raw)
  ∧ (enforcement (cl_policy client) = Enforce →
     ∀ name state, v_checks v !! name = Some state → check_blocks (cl_policy client) (name, state) = false).
Proof.
  intros [_ Ht]%verdicts_invariant Hi. destruct (Ht i _ Hi) as [Hr Ha].
  destruct (returned_usable _ _ Hr Ha). by split_and!.
Qed.

(** C22: a Chutes route that must be fresh per request is bound to this very
    call: when verification allows the request under an enforcing policy, the
    quote that the chosen back end accepted carries report data over the nonce
    drawn in this call, the end-to-end key and the key digest of the certificate that
    were captured. *)
Theorem chutes_bound_to_fresh_nonce rd model canonical pd s v s' :
  fetch_and_verify_route rd (to_attested_route rd model canonical) pd s = (Ok v, s') →
  rd_evidence_family rd = "chutes_live_e2ee" → requires_per_request_freshness client rd = true →
  enforcement (cl_policy client) = Enforce → v_request_allowed v = true →
  ∃ nonce w raw capture quotes quote_bytes quote der spki,
    fresh_evidence_nonce (se_world s) = (nonce, w)
    ∧ v_raw_evidence_digest v = sha256_digest raw ∧ chutes_live_from_slice raw = Some capture
    ∧ (∃ s1 s2, tinfoil_quote_verifier_for_raw_evidence raw s1 = (Ok quotes, s2))
    ∧ base64_decode (cl_quote_base64 capture) = Some quote_bytes
    ∧ @verify_tdx_quote quotes quote_bytes = Ok quote
    ∧ base64_decode (cl_certificate_der_base64 capture) = Some der ∧ certificate_spki_sha256_hex der = Ok spki
    ∧ verify_chutes_live_report_data_binding (td_report_data quote) (chutes_provider_nonce nonce)
        (cl_e2e_public_key_base64 capture) spki = LiveVerified
    ∧ eq_ignore_ascii_case (td_report_data quote)
        (sha256_hex (chutes_provider_nonce nonce +:+ cl_e2e_public_key_base64 capture) +:+ to_ascii_lowercase spki) = true.
Proof.
  intros H Hfam Hreq He Ha.
  apply fetched_verdict in H as (c & er & raw & quotes & gpu & cn & now & [_ _ Hn _ Hq _ Hv]).
  destruct (Hn ltac:(unfold needs_nonce; by rewrite Hreq)) as (nonce & w & Hnonce & Hern).
  pose proof (vf_evidence _ _ (dispatched_verdict _ _ _ _ _ _ Hv)) as Hd.
  unfold verify_evidence_with_attestation_verifiers in Hv. cbn [verification_request rq_route to_attested_route rt_evidence_family] in Hv.
  rewrite Hfam in Hv. apply chutes_live_allowed in Hv; [|done|done].
  destruct Hv as (capture & bytes & quote & der & spki & _ & _ & Hc & _ & Hb & Hquote & Hder & Hspki & _ & Hbind & Hmatch & _).
  assert (cl_request_nonce capture = chutes_provider_nonce nonce) as Hcn.
  { revert Hmatch. unfold freshness_nonce_matches_policy, verification_request. cbn [rq_expected_freshness_nonce].
    unfold expected_freshness_nonce_for. rewrite Hreq, Hfam, Hern. intros E%bool_decide_eq_true.
    rewrite (bool_decide_true ("chutes_live_e2ee" = "chutes_live_e2ee") eq_refl), orb_true_r in E.
    symmetry. exact E. }
  rewrite Hcn in Hbind. exists nonce, w, raw, capture, quotes, bytes, quote, der, spki. split_and!; try done.
  by apply live_report_data_shape in Hbind.
Qed.
End Verify.

(** ** A concrete client: a Chutes route that must be fresh per request *)

#[local] Existing Instance sample_x509.
#[local] Existing Instance sample_near_reader.
#[local] Existing Instance live_family_readers.
#[local] Existing Instance sample_tinfoil_readers.
#[local] Instance verify_no_yaml : YamlReader := {| yaml_from_str _ := None |}.
#[local] Instance verify_no_ppq : PpqReaders := {|
  ppq_from_slice _ := None; bundle_from_slice _ := None; certificate_extensions _ := None;
  subject_alt_name_from_der _ := None; base64_encode s := s |}.
#[local] Instance verify_no_redpill : RedpillReaders := {|
  redpill_from_slice _ := None; values_from_str _ := None; jcs_to_vec _ := None; sha384 := checksum |}.

Definition chutes_definition : RouteDefinition := {|
  rd_route_id := "r"; rd_route_status := Active; rd_provider := "near"; rd_provider_model := "pm";
  rd_evidence_family := "chutes_live_e2ee"; rd_api_base_url := "https://api";
  rd_evidence_endpoint := "https://evidence"; rd_adapter_version := "1"; rd_freshness_class := FreshPerRequest;
  rd_channel_binding_kind := KindAttestedAppE2ee; rd_trust_tier := AppE2ee;
  rd_request_confidentiality_requirement := BoundToAttestedWorkload;
  rd_response_confidentiality_requirement := BoundToAttestedWorkload;
  rd_response_integrity_requirement := AnyBound; rd_accepted_gpu_tees := [];
  rd_request_encryption := EncryptionRequired; rd_response_decryption := EncryptionRequired;
  rd_streaming := Supported; rd_alias_confidence := Curated |}.
Definition chutes_profile : ProviderCompatibility := {|
  pc_provider := "near"; pc_route_execution_status := Executable; pc_api_base_url := "https://api";
  pc_supported_openai_endpoints := [ChatCompletions]; pc_model_listing := SignedRegistryOnly;
  pc_model_id_rewrite := UseRouteProviderModel; pc_token_parameter_rewrite := MaxTokensToMaxCompletionTokens;
  pc_streaming := Supported; pc_request_encryption := EncryptionRequired;
  pc_response_decryption := EncryptionRequired; pc_sdk_app_e2ee := None; pc_adapter_managed_encryption := true;
  pc_attestation_endpoint_shape := "chutes"; pc_required_credentials := [BearerToken];
  pc_freshness_class := FreshPerRequest; pc_cacheability_class := PerRequestOnly;
  pc_expected_trust_tier := AppE2ee; pc_model_binding_support := BindingPartial;
  pc_known_unsupported_modes := [] |}.
Definition chutes_client : Client := {|
  cl_policy := require_attested_e2ee;
  cl_registry := sample_registry "1" [sample_model "m" [] [chutes_definition]];
  cl_registry_digest := sample_digest; cl_registry_source := "s"; cl_registry_signature := sample_signature;
  cl_reference_values := rq_reference_values chutes_live_request; cl_reference_values_digest := sample_digest;
  cl_reference_values_source := "s"; cl_reference_signature := sample_signature;
  cl_compatibility_matrix := {| cm_schema := MATRIX_SCHEMA; cm_providers := {[ "near" := chutes_profile ]} |};
  cl_provider_order := ∅; cl_adapters := {[ "near" ]} |}.
Definition chutes_back_ends : BackEnds := {|
  be_tinfoil_quote_verifier := one_quote_verifier "quote" sample_chutes_quote;
  be_gpu_attestation_verifier := FailClosedGpuAttestationVerifier;
  be_gpu_attestation_verifier_is_custom := false; be_collateral_resolver := false; be_vcek_resolver := false |}.
#[local] Instance chutes_world : VerificationWorld unit := {|
  fetch_evidence _ _ w := (Ok "chutes", w);
  collateral_verifier _ _ w := (Err (Http "offline"), w); resolve_vcek _ _ _ w := (Err (Http "offline"), w);
  fetch_jwt_verifier w := (Err (Http "offline"), w); fresh_evidence_nonce w := (live_nonce, w);
  time_source w := (0%Z, w); utc_clock w := (0%Z, w); monotonic_clock w := (0%Z, w);
  sev_snp_quote_verifier _ := FailClosedTinfoilQuoteVerifier |}.
Definition chutes_session : Session unit := {| se_nras_jwt_verifier := None; se_world := tt |}.
Definition chutes_attested : AttestedRoute := to_attested_route chutes_definition "m" "m".

#[local] Notation "'chutes_run'" :=
  (fetch_and_verify_route chutes_client chutes_back_ends chutes_definition chutes_attested
     (ok_value (policy_digest require_attested_e2ee)) chutes_session).

Lemma allowed_fetch : ∃ v s, chutes_run = (Ok v, s) ∧ v_request_allowed v = true.
Proof.
  assert (match chutes_run with (Ok v, _) => v_request_allowed v | _ => false end = true) as E
    by (vm_compute; reflexivity).
  destruct chutes_run as [[v|e] s]; [by exists v, s|done].
Qed.

Lemma chutes_bound_to_fresh_nonce_witness :
  ∃ nonce w, fresh_evidence_nonce (se_world chutes_session) = (nonce, w)
    ∧ ∃ quote capture der spki,
        base64_decode (cl_certificate_der_base64 capture) = Some der ∧ certificate_spki_sha256_hex der = Ok spki
        ∧ eq_ignore_ascii_case (td_report_data quote)
            (sha256_hex (chutes_provider_nonce nonce +:+ cl_e2e_public_key_base64 capture) +:+ to_ascii_lowercase spki) = true.
Proof.
  destruct allowed_fetch as (v & s & E & Ha).
  destruct (chutes_bound_to_fresh_nonce chutes_client chutes_back_ends chutes_definition "m" "m" _ _ v s E eq_refl
    eq_refl eq_refl Ha) as (nonce & w & raw & capture & quotes & bytes & quote & der & spki & Hn & _ & _ & _ & _ & _ & Hd & Hs & _ & Hb).
  exists nonce, w. split; [exact Hn|]. exists quote, capture, der, spki. exact (conj Hd (conj Hs Hb)).
Defined.

Definition chutes_key : VerificationCacheKey :=
  cache_key chutes_definition chutes_attested NonStreamingChat (ok_value (policy_digest require_attested_e2ee))
    sample_digest sample_digest.

Lemma chutes_call_reachable v s :
  chutes_run = (Ok v, s) → v_request_allowed v = true →
  reachable require_attested_e2ee (returned_for chutes_client chutes_back_ends)
    (fresh_shared 0 0, {[ O := Done chutes_key (Some (Ok v)) ]}).
Proof.
  intros E Ha. exists 0%Z, 0%Z.
  eapply rtc_l; [apply (system_call _ _ _ _ 0 chutes_key); reflexivity|].
  eapply rtc_l; [eapply (system_task _ _ _ _ 0); [reflexivity|apply step_enter_miss; reflexivity]|].
  eapply rtc_l; [eapply (system_task _ _ _ _ 0); [reflexivity|]; apply step_fetched with (r := Ok v)|].
  - exists chutes_definition, chutes_attested, NonStreamingChat, (ok_value (policy_digest require_attested_e2ee)),
      chutes_session, s. split; [vm_compute; reflexivity|]. split; [reflexivity|exact E].
  - apply rtc_eq. f_equal. unfold enforced, enforce_verdict. rewrite Ha. apply map_eq. intros [|i]; reflexivity.
Qed.

Lemma client_calls_sound_witness :
  ∃ v, v_request_allowed v = true ∧ v_provider v = "near" ∧ validate_summary_consistency v = Ok tt.
Proof.
  destruct allowed_fetch as (v & s & E & Ha). exists v.
  destruct (client_calls_sound chutes_client chutes_back_ends _ _ 0 chutes_key v (chutes_call_reachable v s E Ha) eq_refl)
    as (H1 & H2 & H3 & _).
  split; [exact H1|]. split; [exact H3|exact H2].
Defined.
