(* ===== verification/ChatDispatch.v ===== *)
(** * Sending requests

    sdk/lib.rs: a request goes to the selected routes in turn; each route is
    verified before anything is sent to it, a provider that reports rotated keys
    is verified again a bounded number of times, and another route is tried only
    after a failure that proves that no work was done. *)

From Stdlib Require Import Ascii String ZArith Lia.
From stdpp Require Import base gmap strings list numbers.
From S2P Require Import Prelude RustStr Errors Collections Canonical JsonInjective Policy Verdict Signature ReferenceValues.
From S2P Require Import Registry RegistryReview ProviderRequest Compatibility ClientErrors VerdictCache RouteSelection Effects.

Open Scope string_scope.

(** ** What sending uses

    The adapter's chat, chat-stream and embeddings calls, the verification of a
    selected route and its refresh, the randomness of one encryption, and the
    clock. [Chat], [Stream] and [Emb] are a chat response, an open stream and an
    embeddings response. *)
Class SendWorld (W Chat Stream Emb : Type) := {
  provider_chat : RouteDefinition → ProviderChatRequest → eff W ProviderError Chat;
  provider_chat_stream : RouteDefinition → ProviderChatRequest → eff W ProviderError Stream;
  provider_embeddings : RouteDefinition → ProviderChatRequest → eff W ProviderError Emb;
  verify_selected_route : RouteDefinition → AttestedRoute → VerificationRequestMode →
                          eff W ClientError AttestationVerdict;
  refresh_selected_route_after_key_rotation : RouteDefinition → AttestedRoute → VerificationRequestMode →
                          eff W ClientError AttestationVerdict;
  fresh_randomness : W → Randomness * W;
  now_epoch_millis : W → Z * W;
}.

(** What verification promises to the code that sends: only verdicts [Good] for
    the route are returned. *)
Class VerifiedSends {W Chat Stream Emb} `{!SendWorld W Chat Stream Emb} (Good : RouteDefinition → AttestedRoute → AttestationVerdict → Prop)
    : Prop := {
  verify_good rd ar mode w v w' : verify_selected_route rd ar mode w = (Ok v, w') → Good rd ar v;
  refresh_good rd ar mode w v w' :
    refresh_selected_route_after_key_rotation rd ar mode w = (Ok v, w') → Good rd ar v;
}.

Record VerifiedRoute := {
  vr_route_definition : RouteDefinition;
  vr_route : AttestedRoute;
  vr_verdict : AttestationVerdict;
}.

Record ConfidentialResponse (T : Type) := {
  cf_response : T;
  cf_provider : string;
  cf_provider_model : string;
  cf_requested_model : string;
  cf_verdict : AttestationVerdict;
  cf_response_channel_bound : bool;
  cf_response_integrity_result : ResponseIntegrityResult;
  cf_route : AttestedRoute;
}.
Arguments cf_response {T}.
Arguments cf_verdict {T}.
Arguments cf_route {T}.
Definition confidential_response {T} (vr : VerifiedRoute) (response : T) : ConfidentialResponse T := {|
  cf_response := response; cf_provider := rt_provider (vr_route vr);
  cf_provider_model := rt_provider_model (vr_route vr); cf_requested_model := rt_requested_model (vr_route vr);
  cf_verdict := vr_verdict vr; cf_response_channel_bound := v_response_channel_bound (vr_verdict vr);
  cf_response_integrity_result := v_response_integrity_result (vr_verdict vr); cf_route := vr_route vr |}.

(** A request that left the client, and what the provider answered. *)
Record Dispatch (T : Type) := {
  ds_verified : VerifiedRoute;
  ds_request : ProviderChatRequest;
  ds_answer : ProviderResult T;
}.
Arguments ds_verified {T}.
Arguments ds_request {T}.
Arguments ds_answer {T}.

Definition retry_key_rotation (evidence_family : string) (error : ProviderError) (refreshes : nat) : bool :=
  let max_refreshes := if evidence_family =?= "redpill_aci_verified_tls" then 2%nat else 1%nat in
  is_key_rotation error && (refreshes <? max_refreshes)%nat.

Definition embeddings_request_input_is_empty (input : EmbeddingInput) : bool :=
  match input with
  | EmbedText text => is_empty (trim text)
  | EmbedTextArray texts => forallb (λ text, is_empty (trim text)) texts
  | EmbedTokens tokens => match tokens with [] => true | _ => false end
  | EmbedTokenArrays arrays => forallb (λ a : list Z, match a with [] => true | _ => false end) arrays
  | EmbedParts parts => match parts with [] => true | _ => false end
  end.

Definition ensure_float_embedding_encoding (request : EmbeddingsRequest) : ClientResult unit :=
  match em_encoding_format request with
  | None => Ok tt
  | Some format => if format =?= "float" then Ok tt
                   else Err (Provider (Compatibility "embeddings encoding_format {format:?} is not supported"))
  end.

Section Send.
Context {prim : Primitives} {crypto : RequestCrypto}.
Context {W Chat Stream Emb : Type} {world : SendWorld W Chat Stream Emb}.
Context (client : Client).

(** The world and, for the proofs, what was sent so far to whom. *)
Definition Logged (T : Type) : Type := list (Dispatch T) * W.

Definition on_logged {T F A} (m : eff W F A) : eff (Logged T) F A := λ s,
  let '(r, w) := m s.2 in (r, (s.1, w)).

Definition adapter (provider : string) : ClientResult unit :=
  if bool_decide (provider ∈ cl_adapters client) then Ok tt else Err (UnknownProvider provider).

(** ** One verified route *)

(** The checks and the request of one turn of a dispatch loop. *)
Definition profile_for (vr : VerifiedRoute) : ClientResult ProviderCompatibility :=
  _ ← adapter (rt_provider (vr_route vr));
  compatibility ← provided (matrix_provider (cl_compatibility_matrix client) (rt_provider (vr_route vr)));
  _ ← provided (compatibility_validate_route compatibility (vr_route_definition vr));
  Ok compatibility.

Definition chat_request_for {T} (not_executable : string) (request : ChatCompletionRequest) (vr : VerifiedRoute)
    : eff (Logged T) ClientError ProviderChatRequest :=
  compatibility ← pure_result (profile_for vr);
  _ ← pure_result (bail (Provider (Compatibility not_executable))
                     when negb (allows_chat_execution (pc_route_execution_status compatibility)); Ok tt);
  rnd ← on_logged (reading fresh_randomness);
  provider_request ← pure_result (provided (adapt_chat_request rnd compatibility (vr_route_definition vr) request));
  mret (with_verified_evidence_digest (v_raw_evidence_digest (vr_verdict vr)) provider_request).

Definition embeddings_request_for {T} (request : EmbeddingsRequest) (vr : VerifiedRoute)
    : eff (Logged T) ClientError ProviderChatRequest :=
  compatibility ← pure_result (profile_for vr);
  _ ← pure_result (bail (Provider (Compatibility "route {} cannot execute embeddings requests"))
                     when negb (allows_chat_execution (pc_route_execution_status compatibility))
                          || negb (supports_endpoint compatibility Embeddings); Ok tt);
  rnd ← on_logged (reading fresh_randomness);
  provider_request ← pure_result (provided (adapt_embeddings_request rnd compatibility (vr_route_definition vr) request));
  mret (with_verified_evidence_digest (v_raw_evidence_digest (vr_verdict vr)) provider_request).

(** A provider call, recorded. *)
Definition send {T} (call : RouteDefinition → ProviderChatRequest → eff W ProviderError T) (vr : VerifiedRoute)
    (request : ProviderChatRequest) : eff (Logged T) ClientError (ProviderResult T) := λ s,
  let '(answer, w) := call (vr_route_definition vr) request s.2 in
  (Ok answer, ((s.1 ++ [{| ds_verified := vr; ds_request := request; ds_answer := answer |}])%list, w)).

Definition check_after_execution (vr : VerifiedRoute) : ClientResult unit :=
  map_err (λ _, ResponseVerificationFailed (rt_route_id (vr_route vr)) "{error}")
    (validate_summary_consistency (vr_verdict vr)).

Definition refresh {T} (mode : VerificationRequestMode) (vr : VerifiedRoute)
    : eff (Logged T) ClientError VerifiedRoute :=
  verdict ← on_logged (refresh_selected_route_after_key_rotation (vr_route_definition vr) (vr_route vr) mode);
  mret {| vr_route_definition := vr_route_definition vr; vr_route := vr_route vr; vr_verdict := verdict |}.

(** The retry loop of a dispatch; [None] is a loop that ran out of fuel. *)
Fixpoint dispatch_loop {T} (request_for : VerifiedRoute → eff (Logged T) ClientError ProviderChatRequest)
    (call : RouteDefinition → ProviderChatRequest → eff W ProviderError T)
    (retry : AttestedRoute → ProviderError → nat → bool) (mode : VerificationRequestMode)
    (failed : string → ProviderError → ClientError) (fuel refreshes : nat) (vr : VerifiedRoute)
    : eff (Logged T) (option ClientError) (ConfidentialResponse T) :=
  match fuel with
  | O => pure_result (Err None)
  | S fuel =>
      provider_request ← map_eff_err Some (request_for vr);
      answer ← map_eff_err Some (send call vr provider_request);
      match answer with
      | Ok response =>
          _ ← map_eff_err Some (pure_result (check_after_execution vr));
          mret (confidential_response vr response)
      | Err error =>
          if retry (vr_route vr) error refreshes
          then refreshed ← map_eff_err Some (refresh mode vr);
               dispatch_loop request_for call retry mode failed fuel (1 + refreshes)%nat refreshed
          else pure_result (Err (Some (failed (rt_route_id (vr_route vr)) error)))
      end
  end.

Definition DISPATCH_FUEL : nat := 3.
Definition unlimited {T A} (m : eff (Logged T) (option ClientError) A) : eff (Logged T) ClientError A :=
  map_eff_err (default (ResponseJsonSerialization "dispatch loop did not end")) m.

Definition chat_failed (route_id : string) (error : ProviderError) : ClientError :=
  ProviderChat route_id (chat_dispatch_outcome error) error.
Definition embeddings_failed (route_id : string) (error : ProviderError) : ClientError :=
  ProviderEmbeddings route_id (embeddings_dispatch_outcome error) error.

Definition dispatch_chat (request : ChatCompletionRequest) (vr : VerifiedRoute)
    : eff (Logged Chat) ClientError (ConfidentialResponse Chat) :=
  unlimited (dispatch_loop (chat_request_for "route {} is {:?} and cannot execute chat requests" request) provider_chat
    (λ route, retry_key_rotation (rt_evidence_family route)) NonStreamingChat chat_failed DISPATCH_FUEL 0 vr).

Definition dispatch_embeddings (request : EmbeddingsRequest) (vr : VerifiedRoute)
    : eff (Logged Emb) ClientError (ConfidentialResponse Emb) :=
  _ ← pure_result (ensure_float_embedding_encoding request);
  unlimited (dispatch_loop (embeddings_request_for request) provider_embeddings
    (λ _ error refreshes, is_key_rotation error && (refreshes <? 1)%nat) EmbeddingsMode embeddings_failed
    DISPATCH_FUEL 0 vr).

(** A stream is opened once; the verdict is checked before anything is sent. *)
Definition dispatch_chat_stream (request : ChatCompletionRequest) (vr : VerifiedRoute)
    : eff (Logged Stream) ClientError (ConfidentialResponse Stream) :=
  _ ← pure_result (bail (StreamingNotSupported (rt_route_id (vr_route vr)))
                     when negb (rt_streaming_allowed (vr_route vr)); Ok tt);
  _ ← pure_result (check_after_execution vr);
  provider_request ← chat_request_for "route {} cannot execute chat requests" request vr;
  answer ← send provider_chat_stream vr provider_request;
  stream ← pure_result (map_err (chat_failed (rt_route_id (vr_route vr))) answer);
  mret (confidential_response vr stream).

(** ** A verified route held by the caller

    A detached verdict is never authority to send: the route is verified again. *)

Definition verdict_expiry_allows_use (now : Z) (verdict : AttestationVerdict) : bool :=
  verdict_epoch_allowed_by_stale_policy (v_expires_at_epoch_ms verdict) now (stale_verdicts (cl_policy client)).

Definition ensure_usable {T} (vr : VerifiedRoute) : eff (Logged T) ClientError unit :=
  now ← on_logged (reading now_epoch_millis);
  pure_result (bail (VerifiedRouteExpired (v_expires_at (vr_verdict vr)))
                 when negb (verdict_expiry_allows_use now (vr_verdict vr)); Ok tt).

Definition verify_again {T} (mode : VerificationRequestMode) (vr : VerifiedRoute)
    : eff (Logged T) ClientError VerifiedRoute :=
  verdict ← on_logged (verify_selected_route (vr_route_definition vr) (vr_route vr) mode);
  mret {| vr_route_definition := vr_route_definition vr; vr_route := vr_route vr; vr_verdict := verdict |}.

Definition ensure_model (vr : VerifiedRoute) (model : string) : ClientResult unit :=
  bail (VerifiedRouteModelMismatch (rt_route_id (vr_route vr)) (rt_requested_model (vr_route vr)) model)
    when negb (model =?= rt_requested_model (vr_route vr)); Ok tt.

Definition route_chat (vr : VerifiedRoute) (request : ChatCompletionRequest)
    : eff (Logged Chat) ClientError (ConfidentialResponse Chat) :=
  _ ← pure_result (ensure_model vr (cr_model request));
  _ ← pure_result (if streaming request
                   then Err (if negb (rt_streaming_allowed (vr_route vr))
                             then StreamingNotSupported (rt_route_id (vr_route vr)) else StreamingPathRequired)
                   else Ok tt);
  _ ← ensure_usable vr;
  verified ← verify_again NonStreamingChat vr;
  dispatch_chat request verified.

Definition route_chat_stream (vr : VerifiedRoute) (request : ChatCompletionRequest)
    : eff (Logged Stream) ClientError (ConfidentialResponse Stream) :=
  let unsupported := StreamingNotSupported (rt_route_id (vr_route vr)) in
  _ ← pure_result (bail unsupported
                     when (rd_request_encryption (vr_route_definition vr) =?= EncryptionRequired)
                          || (rd_response_decryption (vr_route_definition vr) =?= EncryptionRequired); Ok tt);
  _ ← pure_result (ensure_model vr (cr_model request));
  _ ← pure_result (bail unsupported
                     when negb (streaming request) || negb (rt_streaming_allowed (vr_route vr)); Ok tt);
  _ ← ensure_usable vr;
  verified ← verify_again (for_chat_request request) vr;
  dispatch_chat_stream request verified.

Definition route_embeddings (vr : VerifiedRoute) (request : EmbeddingsRequest)
    : eff (Logged Emb) ClientError (ConfidentialResponse Emb) :=
  _ ← pure_result (ensure_model vr (em_model request));
  _ ← ensure_usable vr;
  verified ← verify_again EmbeddingsMode vr;
  dispatch_embeddings request verified.

(** ** All candidates *)

Definition marks_outage (e : ClientError) : bool :=
  match e with Provider provider_error => is_retryable_outage provider_error | _ => false end.

(** The loop over candidates. [marks] says which verification errors rule the
    provider out for the rest of the request; [exhausted] is the error when
    more than one attempt failed. *)
Fixpoint attempts {T A} (dispatch : VerifiedRoute → eff (Logged T) ClientError A)
    (mode : VerificationRequestMode) (marks : ClientError → bool) (exhausted : list string → ClientError)
    (candidates : list (RouteDefinition * AttestedRoute)) (unavailable : gset string) (errors : list ClientError)
    : eff (Logged T) ClientError A :=
  match candidates with
  | [] =>
      pure_result (Err match errors with
                       | [error] => error
                       | _ => exhausted (map client_error_text errors)
                       end)
  | (rd, ar) :: rest =>
      let provider := rt_provider ar in
      if bool_decide (provider ∈ unavailable)
      then attempts dispatch mode marks exhausted rest unavailable errors
      else λ s,
        match on_logged (verify_selected_route rd ar mode) s with
        | (Ok verdict, s) =>
            match dispatch {| vr_route_definition := rd; vr_route := ar; vr_verdict := verdict |} s with
            | (Ok response, s) => (Ok response, s)
            | (Err error, s) =>
                if allows_route_fallback (dispatch_outcome error)
                then attempts dispatch mode marks exhausted rest ({[provider]} ∪ unavailable)
                       (errors ++ [error])%list s
                else (Err error, s)
            end
        | (Err error, s) =>
            attempts dispatch mode marks exhausted rest
              (if marks error then {[provider]} ∪ unavailable else unavailable) (errors ++ [error])%list s
        end
  end.

Definition selected_for (model : string) (purpose : RouteSelectionPurpose)
    : ClientResult (list (RouteDefinition * AttestedRoute)) :=
  candidates ← select_routes client None model purpose;
  match candidates with
  | [] => Err (RouteSelectionFailed None model (purpose_str purpose))
  | _ => Ok candidates
  end.

Definition streamable (candidate : RouteDefinition * AttestedRoute) : bool :=
  rt_streaming_allowed candidate.2
  && negb (rd_request_encryption candidate.1 =?= EncryptionRequired)
  && negb (rd_response_decryption candidate.1 =?= EncryptionRequired).

Definition send_chat_completion_request (request : ChatCompletionRequest)
    : eff (Logged Chat) ClientError (ConfidentialResponse Chat) :=
  _ ← pure_result (bail MissingMessages when match cr_messages request with [] => true | _ => false end; Ok tt);
  candidates ← pure_result (selected_for (cr_model request) ForChat);
  if streaming request then
    match List.filter (λ c, allows_streaming (rd_streaming c.1) && streamable c) candidates, candidates with
    | [], (rd, _) :: _ => pure_result (Err (StreamingNotSupported (rd_route_id rd)))
    | _, _ => pure_result (Err StreamingPathRequired)
    end
  else
    attempts (dispatch_chat request) (for_chat_request request) marks_outage
      (RouteAttemptsFailed (cr_model request)) candidates ∅ [].

Definition stream_chat_request (request : ChatCompletionRequest)
    : eff (Logged Stream) ClientError (ConfidentialResponse Stream) :=
  _ ← pure_result (bail MissingMessages when match cr_messages request with [] => true | _ => false end; Ok tt);
  candidates ← pure_result (selected_for (cr_model request) ForChat);
  match List.filter streamable candidates, candidates with
  | [], (_, ar) :: _ => pure_result (Err (StreamingNotSupported (rt_route_id ar)))
  | kept, _ =>
      attempts (dispatch_chat_stream request) (for_chat_request request) marks_outage
        (RouteAttemptsFailed (cr_model request)) kept ∅ []
  end.

Definition send_embeddings_request (request : EmbeddingsRequest)
    : eff (Logged Emb) ClientError (ConfidentialResponse Emb) :=
  _ ← pure_result (bail MissingInput when embeddings_request_input_is_empty (em_input request); Ok tt);
  _ ← pure_result (ensure_float_embedding_encoding request);
  candidates ← pure_result (selected_for (em_model request) ForEmbeddings);
  attempts (dispatch_embeddings request) EmbeddingsMode (λ _, false)
    (EmbeddingsRouteAttemptsFailed (em_model request)) candidates ∅ [].

(** ** What a run may send *)

(** The provider's answer proves that it did no work. *)
Definition no_work {T} (d : Dispatch T) : Prop :=
  ∃ e, ds_answer d = Err e ∧ allows_route_fallback (chat_dispatch_outcome e) = true.

Context (Good : RouteDefinition → AttestedRoute → AttestationVerdict → Prop).

Definition good_route (vr : VerifiedRoute) : Prop := Good (vr_route_definition vr) (vr_route vr) (vr_verdict vr).

(** Sent to a verified route, and tied to the evidence its verdict covers. *)
Definition sent_verified {T} (d : Dispatch T) : Prop :=
  good_route (ds_verified d)
  ∧ pq_verified_evidence_digest (ds_request d) = Some (v_raw_evidence_digest (vr_verdict (ds_verified d))).

(** Everything but the last dispatch of a run did no work; a response is the
    last answer, reported with the verdict it was sent under; an error that
    allows another route leaves no work behind. *)
Record run_spec {T F} (fallback : F → bool) (bound : nat) (r : result F (ConfidentialResponse T))
    (l : list (Dispatch T)) : Prop := {
  rs_verified : Forall sent_verified l;
  rs_prefix : ∀ l0 d, l = (l0 ++ [d])%list → Forall no_work l0;
  rs_response : ∀ response, r = Ok response → ∃ l0 d, l = (l0 ++ [d])%list
    ∧ ds_answer d = Ok (cf_response response) ∧ cf_verdict response = vr_verdict (ds_verified d)
    ∧ cf_route response = vr_route (ds_verified d);
  rs_fallback : ∀ e, r = Err e → fallback e = true → Forall no_work l;
  rs_bound : (length l ≤ bound)%nat;
}.

Lemma run_spec_app {T F} (fallback : F → bool) b1 b2 (r : result F (ConfidentialResponse T)) l1 l2 :
  Forall sent_verified l1 → Forall no_work l1 → (length l1 ≤ b1)%nat → run_spec fallback b2 r l2 →
  run_spec fallback (b1 + b2) r (l1 ++ l2)%list.
Proof.
  intros Hv Hn Hb [H1 H2 H3 H4 H5]. constructor.
  - by apply list.Forall_app.
  - intros l0 d E. destruct l2 as [|x l2] using rev_ind; [|clear IHl2].
    + rewrite app_nil_r in E. subst l1. by apply list.Forall_app in Hn as [? _].
    + rewrite app_assoc in E. apply app_inj_tail in E as [<- <-]. apply list.Forall_app. split; [done|by eapply H2].
  - intros response E. destruct (H3 _ E) as (l0 & d & -> & Hd). exists (l1 ++ l0)%list, d. by rewrite app_assoc.
  - intros e E Hf. apply list.Forall_app. split; [done|by eapply H4].
  - rewrite length_app. lia.
Qed.

Lemma run_spec_none {T F} (fallback : F → bool) b (e : F) : run_spec (T := T) fallback b (Err e) [].
Proof. constructor; try done; [by intros [] ?|cbn; lia]. Qed.

Lemma run_spec_weaken {T F} (fallback : F → bool) b b' (r : result F (ConfidentialResponse T)) l :
  (b ≤ b')%nat → run_spec fallback b r l → run_spec fallback b' r l.
Proof. intros Hb []. constructor; try done. lia. Qed.

(** One dispatch that ended the run. *)
Lemma run_spec_last {T F} (fallback : F → bool) b (r : result F (ConfidentialResponse T)) d :
  sent_verified d → (1 ≤ b)%nat →
  (∀ response, r = Ok response → ds_answer d = Ok (cf_response response)
     ∧ cf_verdict response = vr_verdict (ds_verified d) ∧ cf_route response = vr_route (ds_verified d)) →
  (∀ e, r = Err e → fallback e = true → no_work d) →
  run_spec fallback b r [d].
Proof.
  intros Hv Hb Hr Hf. constructor.
  - by apply list.Forall_singleton.
  - intros [|x l0] d'; [done|]. by destruct l0.
  - intros response E. exists [], d. split; [done|by apply Hr].
  - intros e E He. apply list.Forall_singleton. by eapply Hf.
  - cbn. lia.
Qed.

Definition quiet {T A} (m : eff (Logged T) ClientError A) : Prop := ∀ s r s', m s = (r, s') → s'.1 = s.1.

Lemma quiet_pure {T A} (r : ClientResult A) : quiet (T := T) (pure_result r).
Proof. by intros s r' s' [= <- <-]. Qed.
Lemma quiet_ret {T A} (a : A) : quiet (T := T) (mret a).
Proof. by intros s r' s' [= <- <-]. Qed.
Lemma quiet_on_logged {T A} (m : eff W ClientError A) : quiet (T := T) (on_logged m).
Proof. intros [l w] r s'. unfold on_logged. cbn. destruct (m w). by intros [= <- <-]. Qed.
Lemma quiet_bind {T A B} (m : eff (Logged T) ClientError A) (f : A → eff (Logged T) ClientError B) :
  quiet m → (∀ a, quiet (f a)) → quiet (m ≫= f).
Proof.
  intros Hm Hf s r s'. unfold mbind, eff_bind. destruct (m s) as [[a|e] s1] eqn:Em.
  - intros H. rewrite (Hf _ _ _ _ H). by eapply Hm.
  - intros [= <- <-]. by eapply Hm.
Qed.
Create HintDb quiet.
#[local] Hint Resolve quiet_pure quiet_ret quiet_on_logged quiet_bind : quiet.

Lemma quiet_chat_request {T} msg request vr : quiet (T := T) (chat_request_for msg request vr).
Proof. unfold chat_request_for. auto 10 with quiet. Qed.
Lemma quiet_embeddings_request {T} request vr : quiet (T := T) (embeddings_request_for request vr).
Proof. unfold embeddings_request_for. auto 10 with quiet. Qed.
Lemma quiet_refresh {T} mode vr : quiet (T := T) (refresh mode vr).
Proof. unfold refresh. auto with quiet. Qed.

(** The request of a turn carries the digest of its verdict. *)
Definition carries_digest {T} (request_for : VerifiedRoute → eff (Logged T) ClientError ProviderChatRequest) : Prop :=
  ∀ vr s q s', request_for vr s = (Ok q, s') →
    pq_verified_evidence_digest q = Some (v_raw_evidence_digest (vr_verdict vr)).
Lemma chat_carries_digest {T} msg request : carries_digest (T := T) (chat_request_for msg request).
Proof. intros vr s q s'. unfold chat_request_for. intros H. inv_eff. unfold mret, eff_ret in H. by injection H as <- _. Qed.
Lemma embeddings_carries_digest {T} request : carries_digest (T := T) (embeddings_request_for request).
Proof. intros vr s q s'. unfold embeddings_request_for. intros H. inv_eff. unfold mret, eff_ret in H. by injection H as <- _. Qed.

(** ** The retry loop *)

Context {laws : VerifiedSends Good}.

Definition falls_back (e : ClientError) : bool := allows_route_fallback (dispatch_outcome e).
Definition loop_falls_back (e : option ClientError) : bool := match e with Some e => falls_back e | None => false end.

Record dispatcher {T} (request_for : VerifiedRoute → eff (Logged T) ClientError ProviderChatRequest)
    (retry : AttestedRoute → ProviderError → nat → bool) (failed : string → ProviderError → ClientError) : Prop := {
  dp_quiet : ∀ vr, quiet (request_for vr);
  dp_digest : carries_digest request_for;
  dp_retry : ∀ ar e n, retry ar e n = true → is_key_rotation e = true ∧ (n < 2)%nat;
  dp_failed : ∀ id e, dispatch_outcome (failed id e) = chat_dispatch_outcome e;
}.

Lemma send_run {T} call vr q (s : Logged T) :
  ∃ answer w, send call vr q s
    = (Ok answer, ((s.1 ++ [{| ds_verified := vr; ds_request := q; ds_answer := answer |}])%list, w)).
Proof. unfold send. destruct (call _ _ _) as [answer w]. eauto. Qed.

Lemma rotation_no_work {T} (d : Dispatch T) e : ds_answer d = Err e → is_key_rotation e = true → no_work d.
Proof. intros Hd He. exists e. split; [done|]. by destruct e. Qed.

Lemma dispatch_loop_spec {T} request_for call retry mode failed :
  dispatcher (T := T) request_for retry failed →
  ∀ fuel n vr s r s', good_route vr → (n ≤ 2)%nat →
    dispatch_loop request_for call retry mode failed fuel n vr s = (r, s') →
    ∃ l, s'.1 = (s.1 ++ l)%list ∧ run_spec loop_falls_back (3 - n) r l ∧ ((3 ≤ n + fuel)%nat → r ≠ Err None).
Proof.
  intros [Hq Hd Hr Hf]. induction fuel as [|fuel IH]; intros n vr s r s' Hg Hn; cbn [dispatch_loop].
  { intros [= <- <-]. exists []. rewrite app_nil_r. split; [done|]. split; [apply run_spec_none|lia]. }
  unfold mbind at 1, eff_bind at 1, map_eff_err at 1. destruct (request_for vr s) as [[q|e] s1] eqn:Eq;
    pose proof (Hq _ _ _ _ Eq) as E1; cbn [map_err].
  2: { intros [= <- <-]. exists []. rewrite app_nil_r. split; [done|]. split; [apply run_spec_none|done]. }
  apply Hd in Eq. destruct (send_run call vr q s1) as (answer & w & Es).
  unfold mbind at 1, eff_bind at 1, map_eff_err at 1. rewrite Es. cbn [map_err]. rewrite E1.
  set (d := {| ds_verified := vr; ds_request := q; ds_answer := answer |}).
  assert (sent_verified d) as Hv by done.
  destruct answer as [response|error].
  - unfold mbind, eff_bind, map_eff_err, pure_result, check_after_execution.
    destruct (validate_summary_consistency _); cbn; intros [= <- <-]; exists [d]; (split; [done|]); (split; [|done]);
      (apply run_spec_last; [done|lia| |]); try done; [by intros ? [= <-]|by intros ? [= <-]].
  - destruct (retry _ _ _) eqn:Er.
    2: { intros [= <- <-]. exists [d]. split; [done|]. split; [|done]. apply run_spec_last; [done|lia|done|].
         intros ? [= <-] He. exists error. split; [done|]. cbn in He. unfold falls_back in He. by rewrite Hf in He. }
    apply Hr in Er as [Hk Hlt]. pose proof (rotation_no_work d error eq_refl Hk) as Hno.
    unfold mbind, eff_bind, map_eff_err, refresh at 1, mbind, eff_bind, on_logged. cbn [fst snd].
    destruct (refresh_selected_route_after_key_rotation _ _ _ _) as [[v|e] w2] eqn:Erf; cbn.
    + intros H. destruct (IH (S n) {| vr_route_definition := vr_route_definition vr; vr_route := vr_route vr; vr_verdict := v |} _ _ _
        ltac:(by eapply refresh_good) ltac:(lia) H) as (l & El & Hl & Hfuel).
      exists (d :: l). cbn in El. rewrite El, <-app_assoc. split; [done|].
      split; [|intros; apply Hfuel; lia].
      apply (run_spec_weaken _ (1 + (3 - S n))); [lia|]. apply (run_spec_app _ 1 _ _ [d] l); [by apply list.Forall_singleton..|done|done].
    + intros [= <- <-]. exists [d]. split; [done|]. split; [|done]. by apply run_spec_last; [|lia| |].
Qed.

Definition sends_at_most {T} (bound : nat) (dispatch : VerifiedRoute → eff (Logged T) ClientError (ConfidentialResponse T))
    : Prop :=
  ∀ vr s r s', good_route vr → dispatch vr s = (r, s') → ∃ l, s'.1 = (s.1 ++ l)%list ∧ run_spec falls_back bound r l.

Lemma unlimited_run_spec {T} b (r : result (option ClientError) (ConfidentialResponse T)) l stuck :
  r ≠ Err None → run_spec loop_falls_back b r l → run_spec falls_back b (map_err (default stuck) r) l.
Proof.
  intros Hr [H1 H2 H3 H4 H5]. destruct r as [response|[e|]]; [| |done]; constructor; try done; cbn.
  - intros response' [= <-]. by apply H3.
  - intros e' [= <-] He. by apply (H4 (Some e)).
Qed.

Lemma dispatch_loop_sends {T} request_for call retry mode failed :
  dispatcher (T := T) request_for retry failed →
  sends_at_most 3 (λ vr, unlimited (dispatch_loop request_for call retry mode failed DISPATCH_FUEL 0 vr)).
Proof.
  intros Hd vr s r s' Hg. unfold unlimited, map_eff_err.
  destruct (dispatch_loop _ _ _ _ _ _ _ _ _) as [r1 s1] eqn:E. intros [= <- <-].
  destruct (dispatch_loop_spec _ _ _ _ _ Hd DISPATCH_FUEL 0 vr s r1 s1 Hg ltac:(lia) E) as (l & El & Hl & Hf).
  exists l. split; [done|]. apply unlimited_run_spec; [by apply Hf; unfold DISPATCH_FUEL; lia|done].
Qed.

Lemma chat_dispatcher {T} request :
  dispatcher (T := T) (chat_request_for "route {} is {:?} and cannot execute chat requests" request)
    (λ route, retry_key_rotation (rt_evidence_family route)) chat_failed.
Proof.
  constructor; [apply quiet_chat_request|apply chat_carries_digest| |done].
  intros ar e n. unfold retry_key_rotation. bools. intros [? Hn]. split; [done|]. case_bool_decide; lia.
Qed.
Lemma embeddings_dispatcher {T} request :
  dispatcher (T := T) (embeddings_request_for request) (λ _ error refreshes, is_key_rotation error && (refreshes <? 1)%nat)
    embeddings_failed.
Proof.
  constructor; [apply quiet_embeddings_request|apply embeddings_carries_digest| |done].
  intros ar e n. bools. intros [? ?]. split; [done|lia].
Qed.

Lemma dispatch_chat_sends request : sends_at_most 3 (dispatch_chat request).
Proof. apply dispatch_loop_sends, chat_dispatcher. Qed.
Lemma dispatch_embeddings_sends request : sends_at_most 3 (dispatch_embeddings request).
Proof.
  intros vr s r s' Hg. unfold dispatch_embeddings, mbind, eff_bind, pure_result.
  destruct (ensure_float_embedding_encoding request) as [[]|e].
  - exact (dispatch_loop_sends _ _ _ _ _ (embeddings_dispatcher request) vr s r s' Hg).
  - intros [= <- <-]. exists []. rewrite app_nil_r. split; [done|apply run_spec_none].
Qed.
Lemma dispatch_stream_sends request : sends_at_most 1 (dispatch_chat_stream request).
Proof.
  intros vr s r s' Hg.
  assert (∀ e, (Err e : ClientResult (ConfidentialResponse Stream), s) = (r, s') →
            ∃ l, s'.1 = (s.1 ++ l)%list ∧ run_spec falls_back 1 r l) as Hstop.
  { intros e [= <- <-]. exists []. rewrite app_nil_r. split; [done|apply run_spec_none]. }
  unfold dispatch_chat_stream. unfold mbind at 1, eff_bind at 1, pure_result at 1.
  destruct (negb _); [apply Hstop|]. unfold mbind at 1, eff_bind at 1, pure_result at 1.
  destruct (check_after_execution vr) as [[]|e]; [|apply Hstop]. unfold mbind at 1, eff_bind at 1.
  destruct (chat_request_for _ _ _ _) as [[q|e] s1] eqn:Eq; pose proof (quiet_chat_request _ _ _ _ _ _ Eq) as E1.
  2: { intros [= <- <-]. exists []. rewrite app_nil_r. split; [done|apply run_spec_none]. }
  apply chat_carries_digest in Eq. destruct (send_run provider_chat_stream vr q s1) as (answer & w & Es).
  unfold mbind, eff_bind. rewrite Es, E1. unfold pure_result.
  destruct answer as [stream|error]; cbn; intros [= <- <-]; eexists; (split; [done|]);
    (apply run_spec_last; [by split|done| |]); try done; [by intros ? [= <-]|].
  intros ? [= <-] He. by exists error.
Qed.

(** ** All candidates *)

Lemma attempts_spec {T} bound dispatch mode marks exhausted :
  sends_at_most (T := T) bound dispatch →
  ∀ candidates unavailable errors s r s',
    attempts dispatch mode marks exhausted candidates unavailable errors s = (r, s') →
    ∃ l, s'.1 = (s.1 ++ l)%list ∧ run_spec (λ _, false) (length candidates * bound) r l.
Proof.
  intros Hd. induction candidates as [|[rd ar] rest IH]; intros unavailable errors s r s'; cbn [attempts].
  { intros [= <- <-]. exists []. rewrite app_nil_r. split; [done|apply run_spec_none]. }
  assert (∀ u es s1, s1.1 = s.1 → attempts dispatch mode marks exhausted rest u es s1 = (r, s') →
            ∃ l, s'.1 = (s.1 ++ l)%list ∧ run_spec (λ _, false) (length ((rd, ar) :: rest) * bound) r l) as Hrest.
  { intros u es s1 <- H. apply IH in H as (l & El & Hl). exists l. split; [done|].
    eapply run_spec_weaken; [|done]. cbn. lia. }
  case_bool_decide as Hp; [by apply Hrest|]. unfold on_logged.
  destruct (verify_selected_route rd ar mode s.2) as [[v|e] w] eqn:Ev; [|by apply Hrest].
  destruct (dispatch _ _) as [[response|e] s2] eqn:Ed;
    apply Hd in Ed as (l & El & Hl); try (by eapply verify_good); cbn in El.
  - intros [= <- <-]. exists l. split; [done|]. eapply run_spec_weaken; [|by destruct Hl; constructor].
    cbn. lia.
  - destruct (allows_route_fallback _) eqn:Ef.
    + intros H. apply IH in H as (l2 & El2 & Hl2). exists (l ++ l2)%list. rewrite El2, El, app_assoc. split; [done|].
      apply (run_spec_app _ bound); [apply Hl|by apply (rs_fallback _ _ _ _ Hl e)|apply Hl|done].
    + intros [= <- <-]. exists l. split; [done|].
      eapply run_spec_weaken; [|destruct Hl; by constructor]. cbn. lia.
Qed.

(** No client call sends a request twice unless the first was refused before
    any work, and nothing leaves without a verdict. *)
Definition safe_sends {T} (r : ClientResult (ConfidentialResponse T)) (l : list (Dispatch T)) : Prop :=
  Forall sent_verified l
  ∧ (∀ l0 d, l = (l0 ++ [d])%list → Forall no_work l0)
  ∧ ∀ response, r = Ok response → ∃ l0 d, l = (l0 ++ [d])%list ∧ ds_answer d = Ok (cf_response response)
      ∧ cf_verdict response = vr_verdict (ds_verified d) ∧ cf_route response = vr_route (ds_verified d).

Lemma attempts_safe {T} bound dispatch mode marks exhausted candidates w r l w' :
  sends_at_most (T := T) bound dispatch →
  attempts dispatch mode marks exhausted candidates ∅ [] ([], w) = (r, (l, w')) → safe_sends r l.
Proof.
  intros Hd H. apply (attempts_spec bound) in H as (l' & E & []); [|done]. cbn in E. subst l'. by split_and!.
Qed.
Lemma nothing_sent_safe {T} e : safe_sends (T := T) (Err e) [].
Proof. split_and!; [constructor|by intros []|done]. Qed.

Lemma checked_run {T A} (checks : ClientResult A) (k : A → eff (Logged T) ClientError (ConfidentialResponse T)) w r l w' :
  (a ← pure_result checks; k a) ([], w) = (r, (l, w')) →
  safe_sends r l ∨ ∃ a, checks = Ok a ∧ k a ([], w) = (r, (l, w')).
Proof.
  unfold mbind, eff_bind, pure_result. destruct checks as [a|e]; [by right; exists a|].
  intros [= <- <- <-]. left. apply nothing_sent_safe.
Qed.

(** Entry points: each check either stops the call with nothing sent, or goes on. *)
Ltac pass_check H := apply checked_run in H as [H|(? & ? & H)]; [exact H|].

Lemma chat_safe request w r l w' :
  send_chat_completion_request request ([], w) = (r, (l, w')) → safe_sends r l.
Proof.
  unfold send_chat_completion_request. intros H. pass_check H. pass_check H. destruct (streaming request).
  - repeat case_match; injection H as <- <- <-; apply nothing_sent_safe.
  - eapply attempts_safe; [apply dispatch_chat_sends|exact H].
Qed.
Lemma stream_safe request w r l w' : stream_chat_request request ([], w) = (r, (l, w')) → safe_sends r l.
Proof.
  unfold stream_chat_request. intros H. pass_check H. pass_check H.
  assert (∀ kept, attempts (dispatch_chat_stream request) (for_chat_request request) marks_outage
                    (RouteAttemptsFailed (cr_model request)) kept ∅ [] ([], w) = (r, (l, w')) → safe_sends r l) as Ha
    by (intros kept; apply (attempts_safe 1), dispatch_stream_sends).
  destruct (List.filter streamable _) as [|c kept]; [|exact (Ha _ H)].
  match type of H with (match ?cs with _ => _ end) _ = _ => destruct cs as [|[rd ar] rest]; [exact (Ha _ H)|] end.
  injection H as <- <- <-. apply nothing_sent_safe.
Qed.
Lemma embeddings_safe request w r l w' : send_embeddings_request request ([], w) = (r, (l, w')) → safe_sends r l.
Proof.
  unfold send_embeddings_request. intros H. pass_check H. pass_check H. pass_check H.
  eapply attempts_safe; [apply dispatch_embeddings_sends|exact H].
Qed.

(** A route the caller holds is verified again before it is used. *)
Lemma held_route_safe {T} bound (dispatch : VerifiedRoute → eff (Logged T) ClientError (ConfidentialResponse T)) vr mode
    w r l w' :
  sends_at_most bound dispatch →
  (_ ← ensure_usable vr; verified ← verify_again mode vr; dispatch verified) ([], w) = (r, (l, w')) → safe_sends r l.
Proof.
  intros Hd. unfold ensure_usable, verify_again, reading, on_logged, pure_result, mbind, eff_bind. cbn [fst snd].
  destruct (now_epoch_millis w) as [now w1]. cbn [fst snd].
  destruct (negb _); [intros [= <- <- <-]; apply nothing_sent_safe|]. cbn [fst snd].
  destruct (verify_selected_route _ _ _ _) as [[v|e] w2] eqn:Ev; [|intros [= <- <- <-]; apply nothing_sent_safe].
  cbn. intros H. apply Hd in H as (l' & E & []); [|by eapply verify_good]. cbn in E. subst l'. by split_and!.
Qed.

(** C2: nothing leaves the client unverified and nothing is replayed: for
    chat, streaming chat and embeddings, whether the routes are selected or the
    caller holds a verified route, every request sent goes to a route whose
    current verdict verification returned for it, and carries that verdict's
    evidence digest; every request but the last was refused in a way that proves
    that the provider did no work; and a response is the answer to the last
    request, reported with the verdict it was sent under. *)
Theorem sends_verified_and_never_replayed w w' :
  (∀ request r l, send_chat_completion_request request ([], w) = (r, (l, w')) → safe_sends r l)
  ∧ (∀ request r l, stream_chat_request request ([], w) = (r, (l, w')) → safe_sends r l)
  ∧ (∀ request r l, send_embeddings_request request ([], w) = (r, (l, w')) → safe_sends r l)
  ∧ (∀ vr request r l, route_chat vr request ([], w) = (r, (l, w')) → safe_sends r l)
  ∧ (∀ vr request r l, route_chat_stream vr request ([], w) = (r, (l, w')) → safe_sends r l)
  ∧ (∀ vr request r l, route_embeddings vr request ([], w) = (r, (l, w')) → safe_sends r l).
Proof.
  split_and!; [intros ???; apply chat_safe|intros ???; apply stream_safe|intros ???; apply embeddings_safe|..];
    intros vr request r l H.
  - unfold route_chat in H. pass_check H. pass_check H. eapply held_route_safe; [apply dispatch_chat_sends|exact H].
  - unfold route_chat_stream in H. pass_check H. pass_check H. pass_check H.
    eapply held_route_safe; [apply dispatch_stream_sends|exact H].
  - unfold route_embeddings in H. pass_check H. eapply held_route_safe; [apply dispatch_embeddings_sends|exact H].
Qed.

Lemma dispatch_loop_more {T} request_for call retry mode failed k :
  ∀ fuel n vr (s : Logged T) r s',
    dispatch_loop request_for call retry mode failed fuel n vr s = (r, s') → r ≠ Err None →
    dispatch_loop request_for call retry mode failed (fuel + k) n vr s = (r, s').
Proof.
  induction fuel as [|fuel IH]; intros n vr s r s'; [by intros [= <- <-]|]. cbn [dispatch_loop Nat.add].
  unfold mbind, eff_bind. destruct (map_eff_err _ _ s) as [[q|e] s1]; [|done].
  destruct (map_eff_err _ _ s1) as [[[response|error]|e] s2]; [done| |done].
  destruct (retry _ _ _); [|done]. destruct (map_eff_err _ _ s2) as [[vr'|e] s3]; [|done]. apply IH.
Qed.

(** The retry loop of a chat dispatch ends: with fuel for three turns it
    always returns, any further fuel gives the same run, and the provider is
    called at most three times. *)
Theorem chat_dispatch_terminates request vr w k :
  Good (vr_route_definition vr) (vr_route vr) (vr_verdict vr) →
  let run fuel := dispatch_loop (chat_request_for "route {} is {:?} and cannot execute chat requests" request)
    provider_chat (λ route, retry_key_rotation (rt_evidence_family route)) NonStreamingChat chat_failed fuel 0 vr in
  ∃ r l w', run DISPATCH_FUEL ([], w) = (r, (l, w')) ∧ r ≠ Err None ∧ (length l ≤ 3)%nat
    ∧ run (DISPATCH_FUEL + k)%nat ([], w) = (r, (l, w')).
Proof.
  intros Hg run. destruct (run DISPATCH_FUEL ([], w)) as [r [l w']] eqn:E. exists r, l, w'.
  destruct (dispatch_loop_spec _ _ _ _ _ (chat_dispatcher request) DISPATCH_FUEL 0 vr ([], w) r (l, w') Hg ltac:(lia) E)
    as (l' & El & Hl & Hf). cbn in El. subst l'. specialize (Hf ltac:(unfold DISPATCH_FUEL; lia)).
  split; [done|]. split; [done|]. split; [apply Hl|]. by apply dispatch_loop_more.
Qed.
End Send.

(** ** A concrete run: the first answer reports rotated keys, the second is the
    response. *)

#[local] Instance send_crypto : RequestCrypto := {|
  standard_encode s := s; standard_decode s := Some s; value_to_vec _ := None; value_of_slice _ := None;
  x25519_public s := s; diffie_hellman _ _ := ""; hkdf_expand _ _ _ := None;
  aead_encrypt _ _ _ _ := None; aead_decrypt _ _ _ _ := None |}.
#[local] Instance rotating_world : SendWorld nat string string string := {|
  provider_chat rd q n := (if (n =? 0)%nat then Err (KeyRotation (rd_route_id rd) "rotated") else Ok "hello", S n);
  provider_chat_stream rd q n := (Err (Http "offline"), n);
  provider_embeddings rd q n := (Err (Http "offline"), n);
  verify_selected_route rd ar mode n := (Ok sample_verdict, n);
  refresh_selected_route_after_key_rotation rd ar mode n := (Ok sample_verdict, n);
  fresh_randomness n := ({| rnd_ephemeral := ""; rnd_request_id := ""; rnd_nonce := "" |}, n);
  now_epoch_millis n := (0%Z, n) |}.
Definition returned_sample (rd : RouteDefinition) (ar : AttestedRoute) (v : AttestationVerdict) : Prop := v = sample_verdict.
#[local] Instance rotating_laws : VerifiedSends returned_sample.
Proof. constructor; cbn; congruence. Qed.

Definition llama_chat : ChatCompletionRequest := {|
  cr_model := "llama"; cr_messages := [VString "hi"]; cr_stream := None; cr_members := [] |}.

#[local] Notation "'llama_run'" := (send_chat_completion_request selection_client llama_chat ([], O)).

Lemma sends_verified_and_never_replayed_witness :
  ∃ r l w, llama_run = (r, (l, w)) ∧ length l = 2%nat ∧ is_ok r = true ∧ safe_sends returned_sample r l.
Proof.
  destruct llama_run as [r [l w]] eqn:E. exists r, l, w. split; [reflexivity|].
  assert ((length l, is_ok r) = (2%nat, true)) as [= Hl Hr]
    by (replace l with (llama_run.2.1) by (by rewrite E); replace r with (llama_run.1) by (by rewrite E);
        vm_compute; reflexivity).
  split; [exact Hl|]. split; [exact Hr|].
  exact (proj1 (sends_verified_and_never_replayed selection_client returned_sample O w) llama_chat r l E).
Defined.

Lemma chat_dispatch_terminates_witness :
  ∃ r l w, dispatch_loop (chat_request_for selection_client "route {} is {:?} and cannot execute chat requests" llama_chat)
    provider_chat (λ route, retry_key_rotation (rt_evidence_family route)) NonStreamingChat chat_failed 10 0
    {| vr_route_definition := sample_definition "r1" "near" "llama3" Active FreshPerSession;
       vr_route := to_attested_route (sample_definition "r1" "near" "llama3" Active FreshPerSession) "llama" "llama";
       vr_verdict := sample_verdict |} ([], O) = (r, (l, w)) ∧ r ≠ Err None.
Proof.
  destruct (chat_dispatch_terminates selection_client returned_sample llama_chat
    {| vr_route_definition := sample_definition "r1" "near" "llama3" Active FreshPerSession;
       vr_route := to_attested_route (sample_definition "r1" "near" "llama3" Active FreshPerSession) "llama" "llama";
       vr_verdict := sample_verdict |} O 7 eq_refl) as (r & l & w & _ & Hr & _ & E).
  exists r, l, w. split; [exact E|exact Hr].
Defined.
