(* ===== verification/ClientRun.v ===== *)
(** * A client call from end to end

    The cache, the flight table, verification and sending put together: a call
    that runs while no other call does, as a run of the transition system of
    VerdictCache, and what this gives for the requests it sends. *)

From Stdlib Require Import Ascii String ZArith Lia.
From stdpp Require Import base gmap strings list numbers relations.
From S2P Require Import Prelude RustStr Errors Collections Timestamps Canonical JsonInjective Policy Verdict Evidence Bindings.
From S2P Require Import Signature ReferenceValues VerifierCore VerifierSound EvidenceDocuments FixtureVerifier DstackVerifier.
From S2P Require Import QuoteInterfaces ChutesVerifier TinfoilVerifier LiveEvidence LiveFamilies Ppq Redpill Dispatch.
From S2P Require Import Registry RegistryReview ProviderRequest Compatibility ClientErrors VerdictCache RouteSelection Effects.
From S2P Require Import ClientVerify ChatDispatch.

Open Scope string_scope.

(** The provider calls of the outside world. *)
Class ProviderCalls (W Chat Stream Emb : Type) := {
  call_chat : RouteDefinition → ProviderChatRequest → eff W ProviderError Chat;
  call_chat_stream : RouteDefinition → ProviderChatRequest → eff W ProviderError Stream;
  call_embeddings : RouteDefinition → ProviderChatRequest → eff W ProviderError Emb;
  draw_randomness : W → Randomness * W;
}.

Section Run.
Context {prim : Primitives} {x509 : CertificateReader} {readers : EvidenceReaders} {reader : YamlReader}
        {near : NearReader} {tinfoil : TinfoilReaders} {ppq : PpqReaders} {redpill : RedpillReaders}
        {crypto : RequestCrypto}.
Context {W Chat Stream Emb : Type} {world : VerificationWorld W} {calls : ProviderCalls W Chat Stream Emb}.
Context (client : Client) (back_ends : BackEnds).

Abbreviation policy := (cl_policy client).
Abbreviation Local := (Shared * Session W)%type.

(** ** One call, step by step *)

(** The clocks as the next section of code reads them. *)
Definition tick (s : Local) : Local :=
  let '(wall, w1) := time_source (se_world s.2) in
  let '(instant, w2) := monotonic_clock w1 in
  (set_clocks wall (Z.max (sh_instant s.1) instant) s.1,
   {| se_nras_jwt_verifier := se_nras_jwt_verifier s.2; se_world := w2 |}).

Definition look (key : VerificationCacheKey) (hit : AttestationVerdict → Task) (miss : Task) (s : Local) : Task * Local :=
  match cached_verdict policy key s.1 with
  | (Some v, sh) => (hit v, (sh, s.2))
  | (None, sh) => (miss, (sh, s.2))
  end.
Definition fetching (rd : RouteDefinition) (ar : AttestedRoute) (pd : string) (next : Outcome → Task) (s : Local)
    : Task * Local :=
  let '(r, se) := fetch_and_verify_route client back_ends rd ar pd s.2 in (next (enforced r), (s.1, se)).

(** The next section of a call, when no other call runs: a wait ends by timing out. *)
Definition step_alone (rd : RouteDefinition) (ar : AttestedRoute) (pd : string) (t : Task) (s : Local) : Task * Local :=
  match t with
  | Entering key => look key (λ v, Done key (Some (Ok v)))
                      (if cache_enabled_for policy key then Looking key else Fetching key) s
  | Fetching key => fetching rd ar pd (λ r, Done key (Some r)) s
  | Looking key => look key (λ v, Done key (Some (Ok v))) (Missed key) s
  | Missed key => let '(flight, sh) := acquire_verification_flight key s.1 in (flight_next key flight, (sh, s.2))
  | Waiting key f => (TimedOut key f, s)
  | TimedOut key f => look key (λ v, Leaving key f (Some (Ok v)))
                        (Leaving key f (Some (Err (VerificationWaitTimeout (ck_route_id key))))) s
  | Leaving key f o => (left_next key o, (drop_waiter_guard f s.1, s.2))
  | Owning key => fetching rd ar pd (owner_next key) s
  | Storing key v => (Finishing key (Some (Ok v)), (store_cached_verdict policy key v s.1, s.2))
  | Finishing key o => (Done key o, (drop_owner_guard key s.1, s.2))
  | Invalidating key => (Refreshing key, (invalidate_cached_verdict key s.1, s.2))
  | Refreshing key => fetching rd ar pd (refresh_next key) s
  | RefreshStoring key v => (Done key (Some (Ok v)), (store_cached_verdict policy key v s.1, s.2))
  | Done key o => (Done key o, s)
  end.

(** The client's state: the shared part, the calls that have run, and the world. *)
Record ClientState := { cs_local : Local; cs_tasks : gmap nat Task }.

Fixpoint run_alone (rd : RouteDefinition) (ar : AttestedRoute) (pd : string) (fuel i : nat) (t : Task)
    (s : ClientState) : option Outcome * ClientState :=
  match t, fuel with
  | Done _ o, _ => (o, s)
  | _, O => (None, s)
  | _, S fuel =>
      let '(t', local) := step_alone rd ar pd t (tick (cs_local s)) in
      run_alone rd ar pd fuel i t' {| cs_local := local; cs_tasks := <[i := t']> (cs_tasks s) |}
  end.

Definition CALL_FUEL : nat := 8.

(** [verify_selected_route] and [refresh_selected_route_after_key_rotation]. *)
Definition call_alone (start : VerificationCacheKey → Task) (rd : RouteDefinition) (ar : AttestedRoute)
    (mode : VerificationRequestMode) (s : ClientState) : ClientResult AttestationVerdict * ClientState :=
  match adapter client (rd_provider rd) with
  | Err e => (Err e, s)
  | Ok _ =>
      match policy_digest policy with
      | Err e => (Err (Attestation e), s)
      | Ok pd =>
          let key := cache_key rd ar mode pd (cl_registry_digest client) (cl_reference_values_digest client) in
          let i := base.fresh (dom (cs_tasks s) : gset nat) in
          let '(o, s') := run_alone rd ar pd CALL_FUEL i (start key)
                            {| cs_local := cs_local s; cs_tasks := <[i := start key]> (cs_tasks s) |} in
          (default (Err (VerificationWaitTimeout (ck_route_id key))) o, s')
      end
  end.

(** ** A call alone is a run of the transition system *)

Definition good_state (s : ClientState) : Prop :=
  reachable policy (returned_for client back_ends) ((cs_local s).1, cs_tasks s).

(** A task of the call with this route and digest. *)
Definition task_of (key : VerificationCacheKey) (t : Task) : Prop :=
  match t with
  | Entering k | Fetching k | Looking k | Missed k | Waiting k _ | TimedOut k _ | Leaving k _ _ | Owning k
  | Storing k _ | Finishing k _ | Invalidating k | Refreshing k | RefreshStoring k _ | Done k _ => k = key
  end.

Lemma reachable_step sys sys' :
  reachable policy (returned_for client back_ends) sys → system_step policy (returned_for client back_ends) sys sys' →
  reachable policy (returned_for client back_ends) sys'.
Proof. intros (wall & instant & H) Hs. exists wall, instant. by eapply rtc_r. Qed.

Lemma tick_step (s : Local) T :
  system_step policy (returned_for client back_ends) (s.1, T) ((tick s).1, T).
Proof.
  unfold tick. destruct (time_source _) as [wall w1], (monotonic_clock _) as [instant w2].
  apply system_clock. cbn. lia.
Qed.

Lemma look_step key hit miss (s : Local) t (step : ∀ v sh, cached_verdict policy key s.1 = (Some v, sh) →
    task_step policy (returned_for client back_ends) s.1 t sh (hit v)) :
  (∀ sh, cached_verdict policy key s.1 = (None, sh) → task_step policy (returned_for client back_ends) s.1 t sh miss) →
  task_step policy (returned_for client back_ends) s.1 t (look key hit miss s).2.1 (look key hit miss s).1.
Proof. intros Hm. unfold look. destruct (cached_verdict _ _ _) as [[v|] sh]; cbn; auto. Qed.

Lemma fetching_step rd ar mode pd next (s : Local) key t :
  policy_digest policy = Ok pd →
  key = cache_key rd ar mode pd (cl_registry_digest client) (cl_reference_values_digest client) →
  (∀ r, returned_for client back_ends key r → task_step policy (returned_for client back_ends) s.1 t s.1 (next (enforced r))) →
  task_step policy (returned_for client back_ends) s.1 t (fetching rd ar pd next s).2.1 (fetching rd ar pd next s).1.
Proof.
  intros Hp Hk H. unfold fetching. destruct (fetch_and_verify_route _ _ _ _ _ _) as [r se] eqn:E.
  apply H. by exists rd, ar, mode, pd, s.2, se.
Qed.

Lemma step_alone_step rd ar mode pd key t (s : Local) :
  policy_digest policy = Ok pd →
  key = cache_key rd ar mode pd (cl_registry_digest client) (cl_reference_values_digest client) →
  task_of key t → (∀ o, t ≠ Done key o) →
  task_step policy (returned_for client back_ends) s.1 t (step_alone rd ar pd t s).2.1 (step_alone rd ar pd t s).1
  ∧ task_of key (step_alone rd ar pd t s).1.
Proof.
  intros Hp Hk Ht Hd. split.
  - destruct t; cbn [task_of] in Ht; subst key0; cbn [step_alone];
      try (apply look_step; intros; by constructor);
      try (eapply fetching_step; [done|exact Hk|]; intros; by constructor);
      try (by constructor).
    + destruct (acquire_verification_flight key s.1) as [flight sh] eqn:E. by constructor.
    + by destruct (Hd outcome).
  - destruct t; cbn [task_of] in Ht; subst key0; cbn [step_alone];
      unfold look, fetching, owner_next, refresh_next, left_next, flight_next; repeat case_match; done.
Qed.

Lemma run_alone_good rd ar mode pd key fuel : ∀ i t s o s',
  policy_digest policy = Ok pd →
  key = cache_key rd ar mode pd (cl_registry_digest client) (cl_reference_values_digest client) →
  task_of key t → good_state s → cs_tasks s !! i = Some t →
  run_alone rd ar pd fuel i t s = (o, s') →
  good_state s' ∧ ∀ r, o = Some r → cs_tasks s' !! i = Some (Done key (Some r)).
Proof.
  induction fuel as [|fuel IH]; intros i t s o s' Hp Hk Ht Hs Hi Hrun.
  { destruct t; cbn in Hrun; injection Hrun as <- <-; (split; [done|]); [done..|]. cbn in Ht. subst. by intros r ->. }
  assert ((∃ o', t = Done key o') ∨ ∀ o', t ≠ Done key o') as [[o' ->]|Hd']
    by (destruct t; cbn in Ht; subst; eauto).
  { injection Hrun as <- <-. split; [done|]. by intros r ->. }
  destruct (step_alone_step rd ar mode pd key t (tick (cs_local s)) Hp Hk Ht Hd') as [Hstep Ht'].
  destruct (step_alone rd ar pd t (tick (cs_local s))) as [t' local] eqn:E.
  assert (run_alone rd ar pd fuel i t' {| cs_local := local; cs_tasks := <[i := t']> (cs_tasks s) |} = (o, s')) as Hrest.
  { destruct t; cbn [run_alone] in Hrun; rewrite ?E in Hrun; try exact Hrun. cbn in Ht. subst. by destruct (Hd' outcome). }
  eapply (IH i t' _ o s' Hp Hk Ht'); [|..|exact Hrest]; [|cbn; by rewrite lookup_insert_eq].
  unfold good_state. cbn. eapply reachable_step; [|by eapply system_task].
  eapply reachable_step; [exact Hs|]. apply tick_step.
Qed.

(** ** Every call ends *)

(** How many sections of code a call alone still has to run. *)
Definition remaining (t : Task) : nat :=
  match t with
  | Entering _ => 7 | Looking _ => 6 | Missed _ => 5 | Waiting _ _ => 4 | TimedOut _ _ => 3 | Leaving _ _ _ => 2
  | Fetching _ => 1 | Owning _ => 3 | Storing _ _ => 2 | Finishing _ _ => 1
  | Invalidating _ => 3 | Refreshing _ => 2 | RefreshStoring _ _ => 1 | Done _ _ => 0
  end.
(** A call that was neither woken nor cancelled. *)
Definition uninterrupted (t : Task) : Prop :=
  match t with Leaving _ _ None | Finishing _ None | Done _ None => False | _ => True end.

Lemma step_alone_remaining rd ar pd t s :
  uninterrupted t → (∀ key o, t ≠ Done key o) →
  uninterrupted (step_alone rd ar pd t s).1 ∧ (remaining (step_alone rd ar pd t s).1 < remaining t)%nat.
Proof.
  intros Hu Hd. destruct t as [| | | | | |k f [o|]| | |k [o|]| | | |k o]; try done; [..|by destruct (Hd k o)];
    cbn [step_alone]; unfold look, fetching, owner_next, refresh_next, left_next, flight_next;
    repeat case_match; cbn; (split; [done|lia]).
Qed.

Lemma run_alone_ends rd ar pd fuel : ∀ i t s,
  uninterrupted t → (remaining t ≤ fuel)%nat → ∃ r s', run_alone rd ar pd fuel i t s = (Some r, s').
Proof.
  induction fuel as [|fuel IH]; intros i t s Hu Hr.
  { destruct t as [| | | | | | | | | | | | |k [o|]]; cbn in Hr; try lia; [|done]. by exists o, s. }
  destruct t as [| | | | | | | | | | | | |k [o|]]; [..|by exists o, s|done];
    match goal with |- ∃ _ _, run_alone _ _ _ _ _ ?t _ = _ =>
      destruct (step_alone_remaining rd ar pd t (tick (cs_local s)) Hu) as [Hu' Hr']; [done|];
      cbn [run_alone]; destruct (step_alone rd ar pd t (tick (cs_local s))) as [t' local];
      apply IH; [exact Hu'|cbn [fst] in Hr'; lia] end.
Qed.

Lemma call_alone_good start rd ar mode s r s' :
  (∀ key, start key = Entering key) ∨ (∀ key, start key = Invalidating key) →
  good_state s → call_alone start rd ar mode s = (r, s') →
  good_state s' ∧ ∀ v, r = Ok v → ∃ i key,
    key = cache_key rd ar mode (ok_value (policy_digest policy)) (cl_registry_digest client) (cl_reference_values_digest client)
    ∧ cs_tasks s' !! i = Some (Done key (Some (Ok v))).
Proof.
  intros Hstart Hs. unfold call_alone. destruct (adapter _ _) as [[]|e]; [|by intros [= <- <-]].
  destruct (policy_digest policy) as [pd|e] eqn:Hp; [|by intros [= <- <-]]. cbn [ok_value].
  set (key := cache_key rd ar mode pd _ _). set (i := base.fresh (dom (cs_tasks s) : gset nat)).
  assert (cs_tasks s !! i = None) as Hi by (apply not_elem_of_dom, is_fresh).
  destruct (run_alone _ _ _ _ _ _ _) as [o s1] eqn:E. intros [= <- <-].
  destruct (run_alone_good rd ar mode pd key CALL_FUEL i (start key)
    {| cs_local := cs_local s; cs_tasks := <[i := start key]> (cs_tasks s) |} o s1 Hp eq_refl) as [Hg Hd];
    [by destruct Hstart as [->| ->]| |cbn; by rewrite lookup_insert_eq|exact E|].
  - eapply reachable_step; [exact Hs|]. cbn. destruct Hstart as [->| ->]; by constructor.
  - split; [done|]. intros v Hv. exists i, key. split; [done|]. apply Hd. destruct o; [|done]. cbn in Hv. by subst.
Qed.

(** ** The client as the world that sending uses *)

Definition GoodState : Type := { s : ClientState | good_state s }.

Definition with_world (w : W) (s : ClientState) : ClientState := {|
  cs_local := ((cs_local s).1, {| se_nras_jwt_verifier := se_nras_jwt_verifier (cs_local s).2; se_world := w |});
  cs_tasks := cs_tasks s |}.
Definition outside {A} (m : W → A * W) : GoodState → A * GoodState := λ s,
  let '(a, w) := m (se_world (cs_local (proj1_sig s)).2) in
  (a, exist _ (with_world w (proj1_sig s)) (proj2_sig s)).

Lemma call_stays_good start rd ar mode (s : GoodState) :
  (∀ key, start key = Entering key) ∨ (∀ key, start key = Invalidating key) →
  good_state (call_alone start rd ar mode (proj1_sig s)).2.
Proof.
  intros H. destruct (call_alone _ _ _ _ _) as [r s'] eqn:E.
  exact (proj1 (call_alone_good start rd ar mode _ r s' H (proj2_sig s) E)).
Qed.

Definition verify_alone rd ar mode : eff GoodState ClientError AttestationVerdict := λ s,
  ((call_alone Entering rd ar mode (proj1_sig s)).1,
   exist _ _ (call_stays_good Entering rd ar mode s (or_introl (λ _, eq_refl)))).
Definition refresh_alone rd ar mode : eff GoodState ClientError AttestationVerdict := λ s,
  ((call_alone Invalidating rd ar mode (proj1_sig s)).1,
   exist _ _ (call_stays_good Invalidating rd ar mode s (or_intror (λ _, eq_refl)))).

#[export] Instance client_world : SendWorld GoodState Chat Stream Emb := {|
  provider_chat rd q := outside (call_chat rd q);
  provider_chat_stream rd q := outside (call_chat_stream rd q);
  provider_embeddings rd q := outside (call_embeddings rd q);
  verify_selected_route := verify_alone;
  refresh_selected_route_after_key_rotation := refresh_alone;
  fresh_randomness := outside draw_randomness;
  now_epoch_millis := outside time_source |}.

Definition verified_for (rd : RouteDefinition) (ar : AttestedRoute) (v : AttestationVerdict) : Prop :=
  usable_verdict client (rt_provider ar) (rt_route_id ar) (rt_evidence_family ar) (rt_requested_model ar) v.

Lemma call_usable start rd ar mode (s : GoodState) v :
  (∀ key, start key = Entering key) ∨ (∀ key, start key = Invalidating key) →
  (call_alone start rd ar mode (proj1_sig s)).1 = Ok v → verified_for rd ar v.
Proof.
  intros H Hv. destruct (call_alone _ _ _ _ _) as [r s'] eqn:E. cbn in Hv. subst r.
  destruct (call_alone_good start rd ar mode _ _ s' H (proj2_sig s) E) as [Hg Hd].
  destruct (Hd v eq_refl) as (i & key & -> & Hi). destruct (verdicts_invariant _ _ _ Hg) as [_ Ht].
  destruct (Ht i _ Hi) as [Hr Ha]. exact (returned_usable client back_ends _ _ Hr Ha).
Qed.

(** The implementation discharges what sending asks of verification. *)
#[export] Instance client_verified_sends : VerifiedSends verified_for.
Proof.
  constructor; intros rd ar mode w v w'; cbn; unfold verify_alone, refresh_alone; intros [= H _];
    (eapply call_usable; [|exact H]); [by left|by right].
Qed.

(** C1: a chat response rests on verified evidence, from the provider's bytes to
    the answer: the verdict reported with it allows the request, is consistent,
    names the route's provider, id, evidence family and model, covers bytes an
    adapter returned for that model, and under an enforcing policy has no check
    that blocks; the request carried that verdict's evidence digest to the route;
    and whatever was sent before was refused without work. *)
Theorem chat_end_to_end request w response l w' :
  send_chat_completion_request (world := client_world) client request ([], w) = (Ok response, (l, w')) →
  let ar := cf_route response in
  usable_verdict client (rt_provider ar) (rt_route_id ar) (rt_evidence_family ar) (rt_requested_model ar) (cf_verdict response)
  ∧ ∃ l0 d, l = (l0 ++ [d])%list ∧ Forall no_work l0 ∧ ds_answer d = Ok (cf_response response)
    ∧ vr_route (ds_verified d) = ar
    ∧ pq_verified_evidence_digest (ds_request d) = Some (v_raw_evidence_digest (cf_verdict response)).
Proof.
  intros H. destruct (chat_safe (world := client_world) client verified_for _ _ _ _ _ H) as (Hv & Hn & Hr).
  destruct (Hr response eq_refl) as (l0 & d & -> & Ha & Hver & Hrt).
  apply list.Forall_app in Hv as [_ [Hg Hd]%list.Forall_singleton]. cbn zeta. rewrite Hver, Hrt. split; [exact Hg|].
  exists l0, d. split_and!; [done|by eapply Hn|done|done|done].
Qed.

(** Every verification call ends: run alone it comes to a result within
    eight sections of code, whatever the cache, the flight table and the
    evidence. *)
Theorem verification_calls_end rd ar pd key i s :
  (∃ r s', run_alone rd ar pd CALL_FUEL i (Entering key) s = (Some r, s'))
  ∧ (∃ r s', run_alone rd ar pd CALL_FUEL i (Invalidating key) s = (Some r, s')).
Proof. split; apply run_alone_ends; cbn; unfold CALL_FUEL; (done || lia). Qed.
End Run.

(** ** A concrete chat on the Chutes client *)

#[local] Existing Instance sample_x509.
#[local] Existing Instance sample_near_reader.
#[local] Existing Instance live_family_readers.
#[local] Existing Instance sample_tinfoil_readers.
#[local] Existing Instance verify_no_yaml.
#[local] Existing Instance verify_no_ppq.
#[local] Existing Instance verify_no_redpill.
#[local] Existing Instance chutes_world.
#[local] Existing Instance send_crypto.
#[local] Instance chutes_calls : ProviderCalls unit string string string := {|
  call_chat _ _ w := (Ok "hello", w); call_chat_stream _ _ w := (Err (Http "offline"), w);
  call_embeddings _ _ w := (Err (Http "offline"), w);
  draw_randomness w := ({| rnd_ephemeral := ""; rnd_request_id := ""; rnd_nonce := "" |}, w) |}.

Lemma fresh_client_good :
  good_state chutes_client chutes_back_ends {| cs_local := (fresh_shared 0 0, chutes_session); cs_tasks := ∅ |}.
Proof. exists 0%Z, 0%Z. apply rtc_refl. Qed.
Definition fresh_client : GoodState chutes_client chutes_back_ends := exist _ _ fresh_client_good.

Definition m_chat : ChatCompletionRequest := {|
  cr_model := "m"; cr_messages := [VString "hi"]; cr_stream := None; cr_members := [] |}.

#[local] Notation "'chat_run'" :=
  (send_chat_completion_request (world := client_world chutes_client chutes_back_ends) chutes_client m_chat ([], fresh_client)).

Lemma chat_end_to_end_witness :
  ∃ response l w, chat_run = (Ok response, (l, w)) ∧ v_request_allowed (cf_verdict response) = true
    ∧ v_provider (cf_verdict response) = rt_provider (cf_route response).
Proof.
  assert (is_ok chat_run.1 = true) as Hok by (vm_compute; reflexivity).
  destruct chat_run as [r [l w]] eqn:E. destruct (is_ok_inv r Hok) as [response ->].
  exists response, l, w. split; [reflexivity|].
  destruct (chat_end_to_end chutes_client chutes_back_ends m_chat fresh_client response l w E) as [[H1 _ H3 _ _ _ _ _] _].
  split; [exact H1|exact H3].
Defined.
