(* ===== verification/TrustSources.v ===== *)
(** * Where trust artifacts come from

    sdk/lib.rs: the registry and the reference values, each bundled, supplied by
    the caller, or fetched from a remote source with a signed fallback and an
    on-disk cache. The source writes every function twice, once per artifact; here
    they are written once over a class with an instance for each. *)

From Stdlib Require Import Ascii String ZArith Lia.
From stdpp Require Import base gmap strings list numbers fin_maps.
From S2P Require Import Prelude RustStr Errors Collections Timestamps Versions Canonical JsonInjective Policy Verdict Signature ReferenceValues.
From S2P Require Import Registry RegistryReview ProviderRequest Compatibility ClientErrors.

Open Scope string_scope.

(** ** Labels *)

(** [s.rfind('@')] as what follows the last occurrence. *)
Definition redact_url_credentials (url : string) : string :=
  match url_authority_bounds url with
  | None => url
  | Some (authority_start, authority_end) =>
      let tail := slice url authority_end (String.length url) in
      let tail_end :=
        match position "?" tail, position "#" tail with
        | Some i, Some j => (authority_end + Nat.min i j)%nat
        | Some i, None | None, Some i => (authority_end + i)%nat
        | None, None => String.length url
        end in
      let authority := slice url authority_start authority_end in
      match rsplit_once "@" authority with
      | None => slice url 0 tail_end
      | Some (_, host) => slice url 0 authority_start +:+ host +:+ slice url authority_end tail_end
      end
  end.

Definition registry_source_label (kind detail : string) : string :=
  let detail := redact_url_credentials (trim detail) in
  if is_empty detail || (detail =?= kind) then kind else kind +:+ ":" +:+ detail.

(** ** Artifacts *)

(** Paths as a directory and a file name; a disk maps paths to contents. *)
Definition Path : Type := string * option string.
Definition Disk : Type := gmap Path string.

(** What a selection needs of an artifact: its envelope, payload and pin.
    [ta_to_vec] and [ta_from_slice] are its JSON form; the bundled envelope is a
    file compiled into the SDK. *)
Class TrustArtifact (Env Pay Pin : Type) := {
  ta_name : string;
  ta_payload : Env → Pay;
  ta_verify_signature : Env → list TrustedSigningKey → Result unit;
  ta_verified_payload : Env → list TrustedSigningKey → Result Pay;
  ta_verified_update : Env → Pay → list TrustedSigningKey → Result Pay;
  ta_digest : Pay → Result string;
  ta_verify_pin : Pin → Env → string → Z → Result unit;
  ta_bundled : Result Env;
  ta_bundled_payload : Result Pay;
  ta_cache_error : string → ClientError;
  ta_cache_name : string;
  ta_to_vec : Env → option string;
  ta_from_slice : string → option Env;
}.

Inductive Source (Env : Type) :=
| Bundled
| Remote (url : string) (fallback : Env) (cache_path : option Path)
| Custom (source : string) (envelope : Env).
Arguments Bundled {Env}.
Arguments Remote {Env}.
Arguments Custom {Env}.

(** Failures of the file system and the network, as the run meets them: a write
    that fails may leave part of the file. *)
Record IoFaults := {
  io_create_dir : bool;
  io_write : option string;
  io_rename : bool;
  io_remove : bool;
}.
Definition no_faults : IoFaults := {| io_create_dir := false; io_write := None; io_rename := false; io_remove := false |}.

(** A response: its status, and its chunks as they arrive. *)
Definition Response : Type := option (Z * list (option string)).
Definition MAX_REMOTE_ARTIFACT_BYTES : N := 16777216.

Section Sources.
Context {Env Pay Pin : Type} {artifact : TrustArtifact Env Pay Pin}.

(** ** Remote bodies *)

Fixpoint bounded_remote_artifact_bytes (body : string) (chunks : list (option string)) : option string :=
  match chunks with
  | [] => Some body
  | None :: _ => None
  | Some chunk :: rest =>
      if (MAX_REMOTE_ARTIFACT_BYTES <? N.of_nat (String.length body) + N.of_nat (String.length chunk))%N then None
      else bounded_remote_artifact_bytes (body +:+ chunk) rest
  end.

Definition fetch_remote_envelope (response : Response) : option Env :=
  match response with
  | None => None
  | Some (status, chunks) =>
      if ((200 <=? status) && (status <? 300))%Z
      then bounded_remote_artifact_bytes "" chunks ≫= ta_from_slice else None
  end.

(** ** The cache file *)

Definition tmp_path (path : Path) : Path := (path.1, Some (default ta_cache_name path.2 +:+ ".tmp")).

Definition read_cache (path : Path) (disk : Disk) : option Env := disk !! path ≫= ta_from_slice.

Definition write_cache (faults : IoFaults) (path : Path) (envelope : Env) (disk : Disk) : ClientResult unit * Disk :=
  if io_create_dir faults then (Err (ta_cache_error "failed to create cache directory {}: {error}"), disk)
  else match ta_to_vec envelope with
  | None => (Err (ta_cache_error ("failed to serialize " +:+ ta_name +:+ " cache: {error}")), disk)
  | Some bytes =>
      match io_write faults with
      | Some partial => (Err (ta_cache_error "failed to write cache file {}: {error}"), <[tmp_path path := partial]> disk)
      | None =>
          let disk := <[tmp_path path := bytes]> disk in
          if io_rename faults
          then (Err (ta_cache_error "failed to replace cache file {}: {error}"),
                if io_remove faults then disk else delete (tmp_path path) disk)
          else (Ok tt, <[path := bytes]> (delete (tmp_path path) disk))
      end
  end.

(** ** Selection *)

Definition result_ok {A} (r : Result A) : option A := match r with Ok a => Some a | Err _ => None end.

Definition accepted_update (candidate : Env) (baseline : Pay) (pin : option Pin) (keys : list TrustedSigningKey)
    (now : Z) : option (Env * Pay) :=
  payload ← result_ok (ta_verified_update candidate baseline keys);
  digest ← result_ok (ta_digest payload);
  _ ← match pin with
      | Some pin => result_ok (ta_verify_pin pin candidate digest now)
      | None => Some tt
      end;
  Some (candidate, payload).

(** A fallback the operator keys do not verify must be the bundled artifact. *)
Definition check_fallback (fallback : Env) (payload : Pay) (operator_keys : list TrustedSigningKey) : ClientResult unit :=
  if is_ok (ta_verify_signature fallback operator_keys) then Ok tt
  else
    digest ← attested (ta_digest payload);
    bundled ← attested ta_bundled_payload;
    bundled_digest ← attested (ta_digest bundled);
    bail (FixtureFallbackNotBundled ta_name) when negb (digest =?= bundled_digest);
    Ok tt.

Definition cached_update (cache_path : option Path) (fallback : Pay) (pin : option Pin)
    (keys : list TrustedSigningKey) (now : Z) (disk : Disk) : option (Env * Pay) :=
  path ← cache_path;
  candidate ← read_cache path disk;
  accepted_update candidate fallback pin keys now.

Definition select_remote (url : string) (fallback : Env) (cache_path : option Path) (pin : option Pin)
    (bundled_keys operator_keys : list TrustedSigningKey) (now : Z) (response : Response) (faults : IoFaults)
    (disk : Disk) : ClientResult (Env * Pay * string) * Disk :=
  match (payload ← attested (ta_verified_payload fallback bundled_keys);
         _ ← check_fallback fallback payload operator_keys;
         Ok payload) with
  | Err e => (Err e, disk)
  | Ok fallback_payload =>
      let cached := cached_update cache_path fallback_payload pin operator_keys now disk in
      let baseline := default fallback_payload (snd <$> cached) in
      let without_remote :=
        match cached with
        | Some (envelope, payload) => (envelope, payload, registry_source_label "remote-cache" url)
        | None => (fallback, fallback_payload, registry_source_label "remote-fallback" url)
        end in
      match candidate ← fetch_remote_envelope response; accepted_update candidate baseline pin operator_keys now with
      | Some (candidate, payload) =>
          match cache_path with
          | None => (Ok (candidate, payload, registry_source_label "remote" url), disk)
          | Some path =>
              match write_cache faults path candidate disk with
              | (Ok _, disk) => (Ok (candidate, payload, registry_source_label "remote" url), disk)
              | (Err e, disk) => (Err e, disk)
              end
          end
      | None => (Ok without_remote, disk)
      end
  end.

Definition into_envelope_and_source (source : Source Env) (pin : option Pin)
    (bundled_keys operator_keys : list TrustedSigningKey) (now : Z) (response : Response) (faults : IoFaults)
    (disk : Disk) : ClientResult (Env * Pay * string) * Disk :=
  match source with
  | Bundled =>
      ((envelope ← attested ta_bundled;
        payload ← attested (ta_verified_payload envelope bundled_keys);
        Ok (envelope, payload, "bundled")), disk)
  | Remote url fallback cache_path =>
      select_remote url fallback cache_path pin bundled_keys operator_keys now response faults disk
  | Custom source envelope =>
      ((payload ← attested (ta_verified_payload envelope operator_keys);
        Ok (envelope, payload, registry_source_label "custom" source)), disk)
  end.

(** ** What selection guarantees *)

(** What verification of an artifact promises to its selection: the payload is
    the envelope's own, an update keeps what the baseline promised, and an update
    of an update is an update. *)
Class TrustArtifactLaws := {
  ta_kept : Pay → Pay → Prop;
  ta_payload_verified env keys p : ta_verified_payload env keys = Ok p →
    p = ta_payload env ∧ ta_verify_signature env keys = Ok tt;
  ta_update_verified env base keys p : ta_verified_update env base keys = Ok p →
    p = ta_payload env ∧ ta_verify_signature env keys = Ok tt ∧ ta_kept base p;
  ta_update_compose env1 env2 base p1 p2 keys :
    ta_verified_update env1 base keys = Ok p1 → ta_verified_update env2 p1 keys = Ok p2 →
    ta_verified_update env2 base keys = Ok p2 ∧ ta_kept base p2;
}.
Context {laws : TrustArtifactLaws}.

Definition pin_accepts (pin : option Pin) (envelope : Env) (payload : Pay) (now : Z) : Prop :=
  ∀ p, pin = Some p → ∃ digest, ta_digest payload = Ok digest ∧ ta_verify_pin p envelope digest now = Ok tt.

Lemma accepted_update_Some candidate baseline pin keys now env p :
  accepted_update candidate baseline pin keys now = Some (env, p) ↔
    env = candidate ∧ ta_verified_update candidate baseline keys = Ok p ∧ is_ok (ta_digest p) = true
    ∧ pin_accepts pin candidate p now.
Proof.
  unfold accepted_update, result_ok, pin_accepts. destruct (ta_verified_update _ _ _) as [p'|]; cbn; [|naive_solver].
  destruct (ta_digest p') as [digest|] eqn:Ed; cbn; [|split; [done|intros (_ & [= <-] & H & _); by rewrite Ed in H]].
  assert (Hok : is_ok (ta_digest p') = true) by (by rewrite Ed).
  destruct pin as [pin|]; cbn; [|split; [intros [= <- <-]; by split_and!|naive_solver]].
  destruct (ta_verify_pin pin candidate digest now) as [[]|] eqn:Ep; cbn; split; try done.
  - intros [= <- <-]. split_and!; try done. intros q [= <-]. eauto.
  - naive_solver.
  - intros (_ & [= <-] & _ & H). destruct (H pin eq_refl) as (d & Hd & Hv). congruence.
Qed.

(** Which artifact a selection trusts. *)
Definition trusted_artifact (fallback : Env) (pin : option Pin) (bundled_keys operator_keys : list TrustedSigningKey)
    (now : Z) (envelope : Env) (payload : Pay) : Prop :=
  payload = ta_payload envelope
  ∧ ((ta_verify_signature envelope operator_keys = Ok tt ∧ ta_kept (ta_payload fallback) payload
      ∧ pin_accepts pin envelope payload now)
     ∨ (envelope = fallback ∧ ta_verify_signature fallback bundled_keys = Ok tt
        ∧ (ta_verify_signature fallback operator_keys = Ok tt
           ∨ ∃ bundled digest, ta_bundled_payload = Ok bundled ∧ ta_digest bundled = Ok digest
                               ∧ ta_digest payload = Ok digest))).

Lemma check_fallback_Ok fallback payload keys :
  check_fallback fallback payload keys = Ok tt →
  ta_verify_signature fallback keys = Ok tt
  ∨ ∃ bundled digest, ta_bundled_payload = Ok bundled ∧ ta_digest bundled = Ok digest ∧ ta_digest payload = Ok digest.
Proof.
  unfold check_fallback, attested. intros H. destruct (is_ok _) eqn:E.
  - apply is_ok_inv in E as [[] E]. by left.
  - inv_ok. bools. subst. right. eauto.
Qed.

Lemma cached_update_Some cache_path fallback pin keys now disk env p :
  cached_update cache_path fallback pin keys now disk = Some (env, p) →
  ta_verified_update env fallback keys = Ok p ∧ is_ok (ta_digest p) = true ∧ pin_accepts pin env p now
  ∧ ∃ path, cache_path = Some path ∧ read_cache path disk = Some env.
Proof.
  unfold cached_update. intros (path & -> & (c & ? & (-> & ? & ? & ?)%accepted_update_Some)%bind_Some)%bind_Some.
  eauto 10.
Qed.

(** The candidate that was accepted against the baseline is an update of the
    fallback too. *)
Lemma remote_update_of_fallback cache_path fallback pin keys now disk candidate env p :
  let cached := cached_update cache_path fallback pin keys now disk in
  accepted_update candidate (default fallback (snd <$> cached)) pin keys now = Some (env, p) →
  env = candidate ∧ ta_verified_update candidate fallback keys = Ok p ∧ is_ok (ta_digest p) = true
  ∧ ta_kept fallback p ∧ pin_accepts pin candidate p now.
Proof.
  intros cached (-> & Hu & Hd & Hp)%accepted_update_Some. split; [done|]. subst cached.
  destruct (cached_update _ _ _ _ _ _) as [[cenv cp]|] eqn:Ec; cbn in Hu.
  - apply cached_update_Some in Ec as [Hc _]. destruct (ta_update_compose _ _ _ _ _ _ Hc Hu). by split_and!.
  - split; [done|]. apply ta_update_verified in Hu as (_ & _ & ?). by split_and!.
Qed.

Lemma select_remote_trusted url fallback cache_path pin bundled_keys operator_keys now response faults disk env p
    label disk' :
  select_remote url fallback cache_path pin bundled_keys operator_keys now response faults disk
    = (Ok (env, p, label), disk') →
  trusted_artifact fallback pin bundled_keys operator_keys now env p.
Proof.
  unfold select_remote. destruct (_ ≫= _) as [fp|e] eqn:E; [|done]. unfold attested in E. inv_ok. 
  match goal with H : ta_verified_payload _ _ = _ |- _ => apply ta_payload_verified in H as [-> Hs] end.
  match goal with H : check_fallback _ _ _ = _ |- _ => apply check_fallback_Ok in H end.
  destruct (candidate ← _; _) as [[cenv cp]|] eqn:Er.
  - apply bind_Some in Er as (c & _ & (-> & Hu & _ & Hk & Hp)%remote_update_of_fallback).
    intros H. assert (env = c ∧ p = cp) as [-> ->]
      by (destruct cache_path; [destruct (write_cache _ _ _ _) as [[]?]|]; by simplify_eq).
    apply ta_update_verified in Hu as (-> & Hsig & _). split; [done|]. left. by split_and!.
  - destruct (cached_update _ _ _ _ _ _) as [[cenv cp]|] eqn:Ec; intros [= <- <- <- <-].
    + apply cached_update_Some in Ec as (Hu & _ & Hp & _). apply ta_update_verified in Hu as (-> & Hsig & Hk).
      split; [done|]. left. by split_and!.
    + split; [done|]. right. by split_and!.
Qed.

(** C24: whatever the network and the cache file hold, the artifact a remote
    source settles on is the envelope's own payload, and either it is signed by
    an operator key, accepted by the pin and no weaker than the fallback, or it is
    the fallback itself, which the operator keys sign or which is the SDK's own
    bundled artifact. *)
Theorem remote_artifact_trusted url fallback cache_path pin bundled_keys operator_keys now response faults disk env p
    label disk' :
  select_remote url fallback cache_path pin bundled_keys operator_keys now response faults disk
    = (Ok (env, p, label), disk') →
  trusted_artifact fallback pin bundled_keys operator_keys now env p.
Proof. apply select_remote_trusted. Qed.

(** ** The cache file *)

Lemma tmp_path_ne path : tmp_path path ≠ path.
Proof.
  destruct path as [dir [name|]]; unfold tmp_path; cbn; [|done]. intros [= E].
  apply (f_equal String.length) in E. rewrite append_length in E. cbn in E. lia.
Qed.

(** Only the cache file and its temporary sibling are written, and the cache file
    only as a whole. *)
Lemma write_cache_spec faults path env disk r disk' :
  write_cache faults path env disk = (r, disk') →
  (∀ other, other ≠ path → other ≠ tmp_path path → disk' !! other = disk !! other)
  ∧ match r with
    | Ok _ => ∃ bytes, ta_to_vec env = Some bytes ∧ disk' !! path = Some bytes ∧ disk' !! tmp_path path = None
    | Err _ => disk' !! path = disk !! path
    end.
Proof.
  pose proof (tmp_path_ne path) as Hne. unfold write_cache, Disk in *.
  destruct (io_create_dir _); [by intros [= <- <-]|]. destruct (ta_to_vec env) as [bytes|]; [|by intros [= <- <-]].
  destruct (io_write _).
  { intros [= <- <-]. split; [intros; by rewrite lookup_insert_ne|]. by rewrite lookup_insert_ne. }
  destruct (io_rename _).
  - intros [= <- <-]. split; [intros|]; destruct (io_remove _);
      rewrite ?lookup_delete_ne, ?lookup_insert_ne by congruence; done.
  - intros [= <- <-]. split; [intros; by rewrite lookup_insert_ne, lookup_delete_ne, lookup_insert_ne by congruence|].
    exists bytes. by rewrite lookup_insert_eq, lookup_insert_ne, lookup_delete_eq by congruence.
Qed.

(** Where a selection came from: the fallback, or an update of it that the cache
    file holds afterwards. *)
Lemma selected_origin url fallback path pin bundled_keys operator_keys now response faults disk env p label disk' :
  (∀ e bytes, ta_to_vec e = Some bytes → ta_from_slice bytes = Some e) →
  select_remote url fallback (Some path) pin bundled_keys operator_keys now response faults disk
    = (Ok (env, p, label), disk') →
  (env = fallback ∧ p = ta_payload fallback)
  ∨ (read_cache path disk' = Some env ∧ ta_verified_update env (ta_payload fallback) operator_keys = Ok p
     ∧ is_ok (ta_digest p) = true).
Proof.
  intros codec. unfold select_remote. destruct (_ ≫= _) as [fp|e] eqn:E; [|done]. unfold attested in E. inv_ok.
  match goal with H : ta_verified_payload _ _ = _ |- _ => apply ta_payload_verified in H as [-> _] end.
  destruct (candidate ← _; _) as [[cenv cp]|] eqn:Er.
  - apply bind_Some in Er as (c & _ & (-> & Hu & Hd & _ & _)%remote_update_of_fallback).
    destruct (write_cache _ _ _ _) as [[[]|e] d] eqn:Ew; [|done]. intros [= <- <- <- <-]. right.
    apply write_cache_spec in Ew as [_ (bytes & Ev & Hb & _)]. split; [|done]. unfold read_cache. rewrite Hb. by apply codec.
  - destruct (cached_update _ _ _ _ _ _) as [[cenv cp]|] eqn:Ec; intros [= <- <- <- <-]; [right|by left].
    by apply cached_update_Some in Ec as (? & ? & _ & ? & [= <-] & ?).
Qed.

(** A selection that succeeded has a fallback that passes its checks. *)
Lemma selected_fallback url fallback cache_path pin bundled_keys operator_keys now response faults disk env p label disk' :
  select_remote url fallback cache_path pin bundled_keys operator_keys now response faults disk
    = (Ok (env, p, label), disk') →
  (payload ← attested (ta_verified_payload fallback bundled_keys);
   _ ← check_fallback fallback payload operator_keys;
   Ok payload) = Ok (ta_payload fallback).
Proof.
  unfold select_remote. destruct (_ ≫= _) as [fp|e] eqn:E; [|done]. intros _. f_equal. unfold attested in E. inv_ok.
  match goal with H : ta_verified_payload _ _ = _ |- _ => by apply ta_payload_verified in H as [-> _] end.
Qed.

(** C23: with a cache file, a restart never rolls trust back, as long as the pin still
    accepts what was selected. Let a selection settle on an artifact, and let the pin
    accept that artifact also at the time of the next selection from the disk the
    first left. Then, whatever the network answers, whatever write fails, the next
    selection, if it settles, settles on that artifact or on one that keeps everything
    it promised; and when the artifact is not the built-in fallback and there is no
    network, it settles on that very artifact and leaves the disk as it is. The JSON
    codec is assumed to read back what it writes. *)
Theorem selection_never_rolls_back url fallback path pin bundled_keys operator_keys now response faults disk env p label disk'
    now' response' faults' env' p' label' disk'' :
  (∀ e bytes, ta_to_vec e = Some bytes → ta_from_slice bytes = Some e) →
  select_remote url fallback (Some path) pin bundled_keys operator_keys now response faults disk
    = (Ok (env, p, label), disk') →
  pin_accepts pin env p now' →
  select_remote url fallback (Some path) pin bundled_keys operator_keys now' response' faults' disk'
    = (Ok (env', p', label'), disk'') →
  (p' = p ∨ ta_kept p p') ∧ (response' = None → env ≠ fallback → env' = env ∧ p' = p ∧ disk'' = disk').
Proof.
  intros codec H1 Hpin H2. pose proof (selected_fallback _ _ _ _ _ _ _ _ _ _ _ _ _ _ H1) as Hf.
  destruct (selected_origin _ _ _ _ _ _ _ _ _ _ _ _ _ _ codec H1) as [[-> ->]|(Hr & Hu & Hd)].
  - split; [|done]. apply selected_origin in H2 as [[_ ->]|(_ & Hu & _)]; [by left|right|done].
    by apply ta_update_verified in Hu as (_ & _ & ?).
  - assert (cached_update (Some path) (ta_payload fallback) pin operator_keys now' disk' = Some (env, p)) as Hc.
    { unfold cached_update. cbn. rewrite Hr. cbn. by apply accepted_update_Some. }
    unfold select_remote in H2. rewrite Hf, Hc in H2. cbn in H2. split.
    + destruct (candidate ← _; _) as [[cenv cp]|] eqn:Er; [|simplify_eq; by left].
      apply bind_Some in Er as (c & _ & (-> & Hu' & _)%accepted_update_Some).
      assert (p' = cp) as -> by (destruct (write_cache _ _ _ _) as [[]?]; by simplify_eq).
      right. by apply ta_update_verified in Hu' as (_ & _ & ?).
    + intros -> _. cbn in H2. by simplify_eq.
Qed.

(** Writing the cache is atomic: whichever step fails, the cache file holds
    what it held before; when the write succeeds it holds the whole envelope and
    the temporary file is gone; and no other file is touched. *)
Theorem cache_write_atomic faults path env disk :
  let '(r, disk') := write_cache faults path env disk in
  (∀ other, other ≠ path → other ≠ tmp_path path → disk' !! other = disk !! other)
  ∧ match r with
    | Ok _ => ∃ bytes, ta_to_vec env = Some bytes ∧ disk' !! path = Some bytes ∧ disk' !! tmp_path path = None
    | Err _ => disk' !! path = disk !! path
    end.
Proof. destruct (write_cache _ _ _ _) as [r disk'] eqn:E. by apply write_cache_spec in E. Qed.

(** ** Bodies *)

Lemma concat_cons x l : String.concat "" (x :: l) = x +:+ String.concat "" l.
Proof. destruct l; cbn; [by rewrite append_nil_r|done]. Qed.

Lemma bounded_body_spec body chunks bytes :
  (N.of_nat (String.length body) ≤ MAX_REMOTE_ARTIFACT_BYTES)%N →
  bounded_remote_artifact_bytes body chunks = Some bytes ↔
    ∃ parts, chunks = map Some parts ∧ bytes = body +:+ String.concat "" parts
      ∧ (N.of_nat (String.length bytes) ≤ MAX_REMOTE_ARTIFACT_BYTES)%N.
Proof.
  revert body. induction chunks as [|[chunk|] chunks IH]; intros body Hb; cbn [bounded_remote_artifact_bytes].
  - split; [intros [= <-]; exists []; cbn; by rewrite append_nil_r|].
    intros ([|x parts] & E & -> & _); [cbn; by rewrite append_nil_r|done].
  - destruct (N.ltb_spec MAX_REMOTE_ARTIFACT_BYTES (N.of_nat (String.length body) + N.of_nat (String.length chunk))) as [Hl|Hl].
    + split; [done|]. intros ([|x parts] & E & -> & Hn); [done|]. injection E as -> _.
      rewrite concat_cons, !append_length in Hn. lia.
    + rewrite IH by (rewrite append_length; lia). split.
      * intros (parts & -> & -> & Hn). exists (chunk :: parts). rewrite concat_cons. rewrite append_assoc in *. done.
      * intros ([|x parts] & E & -> & Hn); [done|]. injection E as -> ->. exists parts.
        rewrite concat_cons in *. by rewrite append_assoc.
  - split; [done|]. by intros ([|x parts] & E & _).
Qed.

(** A remote body is read exactly when every chunk arrives and they come to
    at most 16 MiB in all; what is read is their concatenation, and no more than
    the limit is ever held. *)
Theorem remote_body_bounded chunks bytes :
  bounded_remote_artifact_bytes "" chunks = Some bytes ↔
    ∃ parts, chunks = map Some parts ∧ bytes = String.concat "" parts
      ∧ (N.of_nat (String.length bytes) ≤ MAX_REMOTE_ARTIFACT_BYTES)%N.
Proof. apply (bounded_body_spec "" chunks bytes). done. Qed.
End Sources.

(** ** Labels *)

(** The end of the path: the first question mark or hash of what follows the
    authority. *)
Lemma tail_cut t :
  ∃ path query, t = path +:+ query ∧ no_byte "?" path ∧ no_byte "#" path
    ∧ match position "?" t, position "#" t with
      | Some i, Some j => Nat.min i j
      | Some i, None | None, Some i => i
      | None, None => String.length t
      end = String.length path.
Proof.
  destruct (cut_step "?" t t "") as (a & u & q & R & _ & N1 & L1 & _); [by rewrite append_nil_r|].
  destruct (cut_step "#" t a q R) as (a' & u' & q' & R' & -> & N2 & L2 & _).
  exists a', q'. apply no_byte_app in N1 as [N1 _]. split_and!; try done.
  destruct (position "?" t) eqn:E1, (position "#" t) eqn:E2; try (apply position_bound in E1); try (apply position_bound in E2); cbn in *; lia.
Qed.

Lemma slice_at pre x post i j :
  i = String.length pre → j = (String.length pre + String.length x)%nat → slice (pre +:+ x +:+ post) i j = x.
Proof. intros -> ->. apply slice_middle. Qed.

Lemma redact_parts pre a path query :
  url_authority_bounds (pre +:+ a +:+ path +:+ query) = Some (String.length pre, (String.length pre + String.length a)%nat) →
  match position "?" (path +:+ query), position "#" (path +:+ query) with
  | Some i, Some j => Nat.min i j
  | Some i, None | None, Some i => i
  | None, None => String.length (path +:+ query)
  end = String.length path →
  redact_url_credentials (pre +:+ a +:+ path +:+ query) = pre +:+ default a (snd <$> rsplit_once "@" a) +:+ path.
Proof.
  intros Hb L. unfold redact_url_credentials. rewrite Hb.
  set (url := pre +:+ a +:+ path +:+ query).
  assert (slice url (String.length pre + String.length a) (String.length url) = path +:+ query) as ->.
  { pose proof (slice_middle (pre +:+ a) (path +:+ query) "") as E.
    rewrite append_nil_r, !append_length, (append_assoc pre a) in E. unfold url. rewrite !append_length.
    rewrite <-E at 2. f_equal. lia. }
  cbv zeta. match goal with |- context [slice url (_ + _) ?t] => set (tail_end := t) end.
  assert (tail_end = (String.length pre + String.length a + String.length path)%nat) as ->.
  { unfold tail_end, url. rewrite <-L. repeat case_match; rewrite ?append_length; lia. }
  rewrite (slice_at pre a (path +:+ query)) by done.
  destruct (rsplit_once "@" a) as [[info host]|]; cbn.
  - f_equal; [apply (slice_at "" pre (a +:+ path +:+ query)); done|]. f_equal.
    unfold url. rewrite <-(append_assoc pre a). apply slice_at; rewrite !append_length; lia.
  - unfold url. rewrite <-!append_assoc. apply (slice_at "" ((pre +:+ a) +:+ path) query); rewrite ?append_length; cbn; lia.
Qed.

(** A source label never carries what a URL may hide: of [scheme://rest] it
    keeps the scheme, the host after the last at sign of the authority, and the
    path up to the first question mark or hash; everything else is dropped. *)
Theorem redacted_url_shape scheme rest :
  position "://" (scheme +:+ "://" +:+ rest) = Some (String.length scheme) →
  ∃ user host path query, rest = user +:+ host +:+ path +:+ query
    ∧ (user = "" ∨ ∃ info, user = info +:+ "@") ∧ no_byte "@" host ∧ no_separator (user +:+ host)
    ∧ no_byte "?" path ∧ no_byte "#" path ∧ (path +:+ query = "" ∨ at_separator (path +:+ query))
    ∧ redact_url_credentials (scheme +:+ "://" +:+ rest) = scheme +:+ "://" +:+ host +:+ path.
Proof.
  intros Hp. destruct (url_authority_cut scheme rest Hp) as (a & t & -> & Hn & Ht & Hb).
  destruct (tail_cut t) as (path & query & -> & N1 & N2 & L).
  assert (redact_url_credentials (scheme +:+ "://" +:+ a +:+ path +:+ query)
          = (scheme +:+ "://") +:+ default a (snd <$> rsplit_once "@" a) +:+ path) as ->.
  { rewrite <-(append_assoc scheme). apply redact_parts; [by rewrite append_length, append_assoc|done]. }
  pose proof (rsplit_byte "@" a) as Ha. destruct (rsplit_once "@" a) as [[info host]|]; cbn.
  - destruct Ha as [-> Ha]. exists (info +:+ "@"), host, path, query. rewrite !append_assoc. cbn. by split_and!; eauto.
  - exists "", a, path, query. rewrite append_assoc. by split_and!; eauto.
Qed.

(** ** The two artifacts *)

(** The envelopes compiled into the SDK and the JSON forms of envelopes. *)
Class BundledArtifacts := {
  bundled_registry_envelope : Result ProviderRegistryEnvelope;
  bundled_reference_envelope : Result ReferenceValuesEnvelope;
  registry_to_vec : ProviderRegistryEnvelope → option string;
  registry_from_slice : string → option ProviderRegistryEnvelope;
  reference_to_vec : ReferenceValuesEnvelope → option string;
  reference_from_slice : string → option ReferenceValuesEnvelope;
}.

Section Artifacts.
Context {prim : Primitives} {crypto : SignatureCrypto} {assets : BundledArtifacts}.

(** [ProviderRegistry::bundled_demo]. *)
Definition bundled_registry : Result ProviderRegistry :=
  envelope ← bundled_registry_envelope;
  registry_into_verified_payload_with_keys envelope bundled_fixture_signing_keys.

Definition registry_artifact : TrustArtifact ProviderRegistryEnvelope ProviderRegistry ProviderRegistryPin := {|
  ta_name := "registry"; ta_payload := rge_payload;
  ta_verify_signature := registry_verify_signature_with_keys;
  ta_verified_payload := registry_into_verified_payload_with_keys;
  ta_verified_update := registry_into_verified_update_from_with_keys;
  ta_digest := registry_digest; ta_verify_pin := registry_verify_envelope_with_digest_at;
  ta_bundled := bundled_registry_envelope; ta_bundled_payload := bundled_registry;
  ta_cache_error := RegistryCache; ta_cache_name := "registry-cache";
  ta_to_vec := registry_to_vec; ta_from_slice := registry_from_slice |}.

Definition reference_artifact :
    TrustArtifact ReferenceValuesEnvelope ReferenceValuesPayload ReferenceValuesPin := {|
  ta_name := "reference values"; ta_payload := env_payload;
  ta_verify_signature := verify_signature_with_keys;
  ta_verified_payload := into_verified_payload_with_keys;
  ta_verified_update := into_verified_update_from_with_keys;
  ta_digest := reference_digest; ta_verify_pin := verify_envelope_with_digest_at;
  ta_bundled := bundled_reference_envelope;
  ta_bundled_payload := (envelope ← bundled_reference_envelope; Ok (env_payload envelope));
  ta_cache_error := ReferenceValuesCache; ta_cache_name := "reference-values-cache";
  ta_to_vec := reference_to_vec; ta_from_slice := reference_from_slice |}.

#[export] Existing Instances registry_artifact reference_artifact.

Lemma registry_verified_Ok env keys p :
  registry_into_verified_payload_with_keys env keys = Ok p →
  p = rge_payload env ∧ registry_verify_signature_with_keys env keys = Ok tt.
Proof. unfold registry_into_verified_payload_with_keys. intros H. by inv_ok. Qed.
Lemma registry_verified_update_Ok env base keys p :
  registry_into_verified_update_from_with_keys env base keys = Ok p ↔
    p = rge_payload env ∧ registry_verify_signature_with_keys env keys = Ok tt
    ∧ registry_valid base ∧ registry_valid p ∧ registry_kept base p.
Proof.
  unfold registry_into_verified_update_from_with_keys. rewrite !unit_bind_Ok, registry_validation_Ok, registry_update_Ok.
  split; [intros (? & ? & ? & [= <-])|intros (-> & ?)]; naive_solver.
Qed.
Lemma reference_verified_Ok env keys p :
  into_verified_payload_with_keys env keys = Ok p →
  p = env_payload env ∧ verify_signature_with_keys env keys = Ok tt.
Proof. unfold into_verified_payload_with_keys. intros H. by inv_ok. Qed.
Lemma reference_verified_update_Ok env base keys p :
  into_verified_update_from_with_keys env base keys = Ok p ↔
    p = env_payload env ∧ verify_signature_with_keys env keys = Ok tt ∧ verify_update_to base p = Ok tt.
Proof.
  unfold into_verified_update_from_with_keys. rewrite !unit_bind_Ok.
  split; [intros (? & ? & [= <-])|intros (-> & ?)]; naive_solver.
Qed.

(** Updates compose: what was accepted step by step is accepted at once. *)
Lemma reference_update_trans a b c :
  verify_update_to a b = Ok tt → verify_update_to b c = Ok tt → verify_update_to a c = Ok tt.
Proof.
  rewrite !update_Ok. intros ((Ha & _ & _) & Hm & K1) ((_ & Hs & Hc) & _ & K2). split_and!; try done.
  - etrans; [exact Hm|]. apply K2.
  - by etrans.
Qed.

#[export] Program Instance registry_laws : TrustArtifactLaws (artifact := registry_artifact) := {|
  ta_kept := registry_kept
|}.
Next Obligation. exact registry_verified_Ok. Qed.
Next Obligation. cbn. intros env base keys p (? & ? & _ & _ & ?)%registry_verified_update_Ok. done. Qed.
Next Obligation.
  cbn. intros env1 env2 base p1 p2 keys (-> & _ & Hb & _ & K1)%registry_verified_update_Ok
    (-> & Hs & _ & Hv & K2)%registry_verified_update_Ok.
  rewrite registry_verified_update_Ok. split_and!; try done; by etrans.
Qed.

#[export] Program Instance reference_laws : TrustArtifactLaws (artifact := reference_artifact) := {|
  ta_kept := not_weakened
|}.
Next Obligation. exact reference_verified_Ok. Qed.
Next Obligation. cbn. intros env base keys p (? & ? & (_ & _ & ?)%update_Ok)%reference_verified_update_Ok. done. Qed.
Next Obligation.
  cbn. intros env1 env2 base p1 p2 keys (-> & _ & K1)%reference_verified_update_Ok
    (-> & Hs & K2)%reference_verified_update_Ok. rewrite reference_verified_update_Ok.
  pose proof (reference_update_trans _ _ _ K1 K2) as K. split; [done|]. by apply update_Ok in K as (_ & _ & ?).
Qed.
End Artifacts.

(** ** Concrete selections *)

#[local] Instance sources_sample_crypto : SignatureCrypto := {|
  base64url_decode s := Some s; public_key_from_slice s := Some s;
  signature_from_slice s := Some s; ed25519_verify _ message signature := message =?= signature |}.

Definition sign_registry (key_id : string) (r : ProviderRegistry) : ProviderRegistryEnvelope := {|
  rge_schema := REGISTRY_ENVELOPE_SCHEMA; rge_payload := r;
  rge_signature := {| as_signer := "confidential-inference"; as_key_id := key_id; as_alg := "ed25519";
                      as_value := match canonical_json (registry_value r) with
                                  | Ok s => "base64url:" +:+ s | Err _ => "" end |} |}.
Definition operator_key : TrustedSigningKey :=
  {| tk_signer := "confidential-inference"; tk_key_id := "operator"; tk_public_key_base64url := "base64url:k" |}.
Definition sample_url : string := "https://u:p@cdn.example/registry.json?token=t".
Definition sample_path : Path := ("/var/cache", Some "registry.json").

#[local] Instance RegistryModel_eq_dec : EqDecision RegistryModel.
Proof. solve_decision. Defined.
#[local] Instance SourceSyncRun_eq_dec : EqDecision SourceSyncRun.
Proof. solve_decision. Defined.
#[local] Instance ProviderRegistry_eq_dec : EqDecision ProviderRegistry.
Proof. solve_decision. Defined.
#[local] Instance ArtifactSignature_eq_dec : EqDecision ArtifactSignature.
Proof. solve_decision. Defined.
#[local] Instance ProviderRegistryEnvelope_eq_dec : EqDecision ProviderRegistryEnvelope.
Proof. solve_decision. Defined.

(** A JSON form that knows one envelope. *)
Definition operator_envelope : ProviderRegistryEnvelope := sign_registry "operator" registry_2.
Definition bundled_envelope : ProviderRegistryEnvelope := sign_registry DEMO_SIGNING_KEY_ID registry_1.
#[local] Instance sample_assets : BundledArtifacts := {|
  bundled_registry_envelope := Ok bundled_envelope;
  bundled_reference_envelope := Err (Json "none");
  registry_to_vec e := if e =?= operator_envelope then Some "{}" else None;
  registry_from_slice s := if s =?= "{}" then Some operator_envelope else None;
  reference_to_vec _ := None; reference_from_slice _ := None |}.

Lemma sample_codec e bytes : ta_to_vec (TrustArtifact := registry_artifact) e = Some bytes → ta_from_slice bytes = Some e.
Proof. cbn. case_bool_decide; [|done]. intros [= <-]. by subst. Qed.

Example label_redacted : registry_source_label "remote" sample_url = "remote:https://cdn.example/registry.json".
Proof. vm_compute. reflexivity. Qed.

Abbreviation sample_run response disk :=
  (select_remote sample_url bundled_envelope (Some sample_path) None
     (bundled_fixture_signing_keys ++ [operator_key]) [operator_key] 0 response no_faults disk).
Abbreviation answering := (Some (200%Z, [Some "{"; Some "}"])).

Example update_fetched :
  sample_run answering ∅ = (Ok (operator_envelope, registry_2, "remote:https://cdn.example/registry.json"),
                            {[ sample_path := "{}" ]}).
Proof. by vm_cast_no_check (@eq_refl _ (sample_run answering ∅)). Qed.
Example update_cached :
  sample_run None {[ sample_path := "{}" ]}
  = (Ok (operator_envelope, registry_2, "remote-cache:https://cdn.example/registry.json"), {[ sample_path := "{}" ]}).
Proof. by vm_cast_no_check (@eq_refl _ (sample_run None {[ sample_path := "{}" ]})). Qed.

Lemma remote_artifact_trusted_witness :
  registry_verify_signature_with_keys operator_envelope [operator_key] = Ok tt ∧ registry_kept registry_1 registry_2.
Proof.
  destruct (remote_artifact_trusted _ _ _ _ _ _ _ _ _ _ _ _ _ _ update_fetched) as (_ & [(H1 & H2 & _)|(E & _)]).
  - exact (conj H1 H2).
  - exfalso. vm_compute in E. discriminate E.
Defined.

(** After an update was fetched, a restart without a network comes up with the update and
    not with the older registry that is built in. *)
Lemma selection_never_rolls_back_witness :
  ∃ env p label disk, sample_run None {[ sample_path := "{}" ]} = (Ok (env, p, label), disk)
    ∧ env = operator_envelope ∧ p = registry_2 ∧ p ≠ registry_1 ∧ disk = {[ sample_path := "{}" ]}.
Proof.
  do 4 eexists. split; [exact update_cached|].
  destruct (proj2 (selection_never_rolls_back _ _ _ _ _ _ _ _ _ _ _ _ _ _ _ _ _ _ _ _ _
    sample_codec update_fetched ltac:(intros p [=]) update_cached) eq_refl) as (He & Hp & Hd).
  - intros E. vm_compute in E. discriminate E.
  - split_and!; [exact He|exact Hp| |exact Hd]. intros E. vm_compute in E. discriminate E.
Defined.

Lemma redacted_url_shape_witness :
  ∃ user host path query, "u:p@cdn.example/registry.json?token=t" = user +:+ host +:+ path +:+ query
    ∧ redact_url_credentials sample_url = "https" +:+ "://" +:+ host +:+ path.
Proof.
  destruct (redacted_url_shape "https" "u:p@cdn.example/registry.json?token=t" ltac:(vm_compute; reflexivity))
    as (user & host & path & query & E & _ & _ & _ & _ & _ & _ & H).
  exists user, host, path, query. exact (conj E H).
Defined.
