(* ===== verification/ClientBuilder.v ===== *)
(** * Building a client

    sdk/lib.rs [ConfidentialInferenceBuilder::build]: the key sets, the two trust
    artifacts, the routes that demo mode keeps, the compatibility matrix, the
    adapters installed for API keys and the collateral sources. *)

From Stdlib Require Import Ascii String ZArith Lia.
From stdpp Require Import base gmap strings list numbers fin_maps.
From S2P Require Import Prelude RustStr Errors Collections Timestamps Versions Canonical JsonInjective Policy Verdict Signature ReferenceValues.
From S2P Require Import QuoteInterfaces Registry RegistryReview ProviderRequest Compatibility ClientErrors VerdictCache RouteSelection.
From S2P Require Import Effects ClientVerify TrustSources.

Open Scope string_scope.

(** ** State *)

(** The adapters [build] installs, with their routes and key; [CallerSupplied] is
    one given to [with_provider]. *)
Inductive Adapter :=
| CallerSupplied
| ChutesHttpProvider (routes : list RouteDefinition) (api_key : string)
| NearHttpProvider (routes : list RouteDefinition) (api_key : string)
| PpqPrivateHttpProvider (routes : list RouteDefinition) (api_key : string)
| RedpillHttpProvider (routes : list RouteDefinition) (api_key : string)
| TinfoilHttpProvider (routes : list RouteDefinition) (api_key : string)
| ConfidentialHttpProvider (routes : list RouteDefinition) (api_key : string)
| OpenAiHttpProvider (routes : list RouteDefinition) (api_key : string).

Inductive BuilderCompatibilityMatrix :=
| MatrixPayload (matrix : ProviderCompatibilityMatrix)
| MatrixEnvelope (envelope : ProviderCompatibilityMatrixEnvelope).

Record ConfidentialInferenceBuilder := {
  cb_policy : VerificationPolicy;
  cb_registry_source : Source ProviderRegistryEnvelope;
  cb_registry_pin : option ProviderRegistryPin;
  cb_reference_values_source : Source ReferenceValuesEnvelope;
  cb_reference_values_pin : option ReferenceValuesPin;
  cb_trusted_artifact_signing_keys : list TrustedSigningKey;
  cb_exclusive_trusted_artifact_signing_keys : option (list TrustedSigningKey);
  cb_demo_provider : bool;
  cb_compatibility_matrix : option BuilderCompatibilityMatrix;
  cb_provider_routing : gmap string (list string);
  cb_adapters : gmap string Adapter;
  cb_tinfoil_quote_verifier : TinfoilQuoteVerifier;
  cb_gpu_attestation_verifier : GpuAttestationVerifier;
  cb_gpu_attestation_verifier_is_custom : bool;
  cb_tinfoil_dcap_tdx_collateral_resolver : bool;
  cb_tinfoil_sev_snp_vcek_resolver : bool;
  cb_api_keys : gmap string string;
  cb_allow_insecure_plaintext : bool;
}.

(** What [build] meets: the clock, the answers of the two remote sources, the
    failures of the cache writes, and whether an HTTP client can be made. *)
Record BuildWorld := {
  bw_now : Z;
  bw_registry_response : Response;
  bw_registry_faults : IoFaults;
  bw_reference_response : Response;
  bw_reference_faults : IoFaults;
  bw_http_client : ProviderResult unit;
}.

Record BuiltClient := {
  bc_client : Client;
  bc_back_ends : BackEnds;
  bc_adapters : gmap string Adapter;
}.

(** ** Key sets *)

Definition operator_signing_keys (b : ConfidentialInferenceBuilder) : list TrustedSigningKey :=
  default (cb_trusted_artifact_signing_keys b) (cb_exclusive_trusted_artifact_signing_keys b).
Definition bundled_signing_keys (b : ConfidentialInferenceBuilder) : list TrustedSigningKey :=
  match cb_exclusive_trusted_artifact_signing_keys b with
  | Some keys => keys
  | None => if cb_demo_provider b then (bundled_fixture_signing_keys ++ cb_trusted_artifact_signing_keys b)%list
            else cb_trusted_artifact_signing_keys b
  end.
Definition no_keys (keys : list TrustedSigningKey) : bool := match keys with [] => true | _ => false end.
Definition bundled_trust_available (b : ConfidentialInferenceBuilder) : bool :=
  match cb_exclusive_trusted_artifact_signing_keys b with
  | Some keys => negb (no_keys keys)
  | None => cb_demo_provider b
  end.
Definition is_bundled {Env} (source : Source Env) : bool := match source with Bundled => true | _ => false end.

Definition check_key_sets (b : ConfidentialInferenceBuilder) : ClientResult unit :=
  bail (BundledSourceRequiresTrust "registry")
    when is_bundled (cb_registry_source b) && negb (bundled_trust_available b);
  bail (BundledSourceRequiresTrust "reference values")
    when is_bundled (cb_reference_values_source b) && negb (bundled_trust_available b);
  bail (MissingOperatorSigningKeys "registry")
    when negb (is_bundled (cb_registry_source b)) && no_keys (operator_signing_keys b);
  bail (MissingOperatorSigningKeys "reference values")
    when negb (is_bundled (cb_reference_values_source b)) && no_keys (operator_signing_keys b);
  Ok tt.

(** ** The registry a client keeps *)

Definition with_routes (m : RegistryModel) (routes : list RouteDefinition) : RegistryModel := {|
  rm_canonical_model := rm_canonical_model m; rm_display_name := rm_display_name m; rm_family := rm_family m;
  rm_aliases := rm_aliases m; rm_routes := routes |}.
Definition keep_route (route : RouteDefinition) : bool := negb (starts_with "fixture" (rd_evidence_family route)).
Definition drop_fixture_routes (r : ProviderRegistry) : ProviderRegistry := {|
  rg_schema := rg_schema r; rg_version := rg_version r; rg_generated_at := rg_generated_at r;
  rg_source_sync_run := rg_source_sync_run r;
  rg_models := omap (λ m, match List.filter keep_route (rm_routes m) with
                          | [] => None
                          | routes => Some (with_routes m routes)
                          end) (rg_models r) |}.

(** ** Collateral sources and adapters *)

Definition registry_has_active (r : ProviderRegistry) (matches : RouteDefinition → bool) : bool :=
  existsb (λ '(_, m), existsb (λ route, (rd_route_status route =?= Active) && matches route) (rm_routes m))
    (btree_iter (rg_models r)).
Definition live_tinfoil (route : RouteDefinition) : bool :=
  (rd_provider route =?= "tinfoil") && (rd_evidence_family route =?= "tinfoil_hw_verified_tls").
Definition needs_tdx (route : RouteDefinition) : bool :=
  existsb (λ family, rd_evidence_family route =?= family)
    ["chutes_live_e2ee"; "near_hw_verified_tls"; "ppq_ehbp"; "redpill_aci_verified_tls"]
  || live_tinfoil route.

(** [LiveCollateralNeeds::for_registry]: [tdx] and [snp_vcek]. *)
Definition LiveCollateralNeeds_for_registry (r : ProviderRegistry) : bool * bool :=
  (registry_has_active r needs_tdx, registry_has_active r live_tinfoil).

Definition active_routes_for_provider (r : ProviderRegistry) (provider : string) : list RouteDefinition :=
  List.filter (λ route, (rd_provider route =?= provider) && (rd_route_status route =?= Active))
    (List.concat (map (λ '(_, m), rm_routes m) (btree_iter (rg_models r)))).

Definition any_family (routes : list RouteDefinition) (families : list string) : bool :=
  existsb (λ route, existsb (λ family, rd_evidence_family route =?= family) families) routes.

Definition default_adapter (provider_id : string) (routes : list RouteDefinition) (api_key : string) : Adapter :=
  if (provider_id =?= "chutes") && any_family routes ["chutes_live_e2ee"] then ChutesHttpProvider routes api_key
  else if (provider_id =?= "near") && any_family routes ["near_hw_verified_tls"] then NearHttpProvider routes api_key
  else if (provider_id =?= "ppq") && any_family routes ["ppq_ehbp"] then PpqPrivateHttpProvider routes api_key
  else if (provider_id =?= "redpill") && any_family routes ["redpill_aci_verified_tls"]
  then RedpillHttpProvider routes api_key
  else if provider_id =?= "tinfoil" then TinfoilHttpProvider routes api_key
  else if any_family routes ["dstack_app_e2ee"; "chutes_e2ee"] then ConfidentialHttpProvider routes api_key
  else OpenAiHttpProvider routes api_key.

Definition install_default_credential_adapters (http_client : ProviderResult unit) (r : ProviderRegistry)
    (api_keys : gmap string string) (adapters : gmap string Adapter) : ProviderResult (gmap string Adapter) :=
  try_fold (λ adapters '(provider_id, api_key),
    if bool_decide (is_Some (adapters !! provider_id)) then Ok adapters
    else match active_routes_for_provider r provider_id with
    | [] => Ok adapters
    | routes => _ ← http_client; Ok (<[provider_id := default_adapter provider_id routes api_key]> adapters)
    end) (btree_iter api_keys) adapters.

(** A source the caller did not set is made when a route needs it. *)
Definition resolver_installed (http_client : ProviderResult unit) (set needed : bool) : ProviderResult bool :=
  if set then Ok true else if needed then _ ← http_client; Ok true else Ok false.

Definition signature_metadata (s : ArtifactSignature) : SignatureMetadata :=
  {| sm_signer := as_signer s; sm_key_id := as_key_id s; sm_alg := as_alg s |}.

(** ** Build *)

Section Build.
Context {prim : Primitives} {crypto : SignatureCrypto} {assets : BundledArtifacts}.
(** The matrix envelope compiled into the SDK. *)
Context (bundled_matrix_envelope : ProviderResult ProviderCompatibilityMatrixEnvelope).

Definition bundled_matrix : ProviderResult ProviderCompatibilityMatrix :=
  envelope ← bundled_matrix_envelope;
  compatibility_into_verified_payload_with_keys envelope bundled_fixture_signing_keys.

Definition builder_matrix (b : ConfidentialInferenceBuilder) : ClientResult ProviderCompatibilityMatrix :=
  match cb_compatibility_matrix b with
  | Some (MatrixPayload matrix) => Ok matrix
  | Some (MatrixEnvelope envelope) =>
      provided (compatibility_into_verified_payload_with_keys envelope (operator_signing_keys b))
  | None => provided bundled_matrix
  end.

(** One artifact: chosen, digested and checked against the pin. *)
Definition chosen_artifact {Env Pay Pin} {artifact : TrustArtifact Env Pay Pin} (b : ConfidentialInferenceBuilder)
    (source : Source Env) (pin : option Pin) (now : Z) (response : Response) (faults : IoFaults)
    : eff Disk ClientError (Env * Pay * string * string) :=
  '(envelope, payload, label) ←
    into_envelope_and_source source pin (bundled_signing_keys b) (operator_signing_keys b) now response faults;
  digest ← pure_result (attested (ta_digest payload));
  _ ← pure_result match pin with
      | Some pin => attested (ta_verify_pin pin envelope digest now)
      | None => Ok tt
      end;
  mret (envelope, payload, label, digest).

Definition kept_registry (b : ConfidentialInferenceBuilder) (r : ProviderRegistry) : ProviderRegistry :=
  if cb_demo_provider b then r else drop_fixture_routes r.

Definition build (b : ConfidentialInferenceBuilder) (w : BuildWorld) : eff Disk ClientError BuiltClient :=
  _ ← pure_result (bail (InsecurePolicyRequiresOptIn (enforcement (cb_policy b)))
                     when negb (cb_allow_insecure_plaintext b) && negb (enforcement (cb_policy b) =?= Enforce); Ok tt);
  _ ← pure_result (check_key_sets b);
  '(registry_envelope, registry, registry_source, registry_digest) ←
    chosen_artifact b (cb_registry_source b) (cb_registry_pin b) (bw_now w)
      (bw_registry_response w) (bw_registry_faults w);
  let registry := kept_registry b registry in
  '(reference_envelope, reference_values, reference_source, reference_digest) ←
    chosen_artifact b (cb_reference_values_source b) (cb_reference_values_pin b) (bw_now w)
      (bw_reference_response w) (bw_reference_faults w);
  let policy := with_artifact_digests (cb_policy b) registry_digest reference_digest in
  matrix ← pure_result (builder_matrix b);
  _ ← pure_result (provided (compatibility_validate matrix));
  _ ← pure_result (provided (validate_registry_routes matrix registry));
  adapters ← pure_result (provided (install_default_credential_adapters (bw_http_client w) registry
                                      (cb_api_keys b) (cb_adapters b)));
  let '(needs_live_tdx_collateral, needs_live_snp_vcek) := LiveCollateralNeeds_for_registry registry in
  tdx ← pure_result (provided (resolver_installed (bw_http_client w) (cb_tinfoil_dcap_tdx_collateral_resolver b)
                                 needs_live_tdx_collateral));
  vcek ← pure_result (provided (resolver_installed (bw_http_client w) (cb_tinfoil_sev_snp_vcek_resolver b)
                                  needs_live_snp_vcek));
  _ ← pure_result (validate_provider_routing (cb_provider_routing b) registry matrix (dom adapters) policy);
  mret {|
    bc_client := {|
      cl_policy := policy; cl_registry := registry; cl_registry_digest := registry_digest;
      cl_registry_source := registry_source;
      cl_registry_signature := signature_metadata (rge_signature registry_envelope);
      cl_reference_values := reference_values; cl_reference_values_digest := reference_digest;
      cl_reference_values_source := reference_source;
      cl_reference_signature := signature_metadata (env_signature reference_envelope);
      cl_compatibility_matrix := matrix; cl_provider_order := cb_provider_routing b;
      cl_adapters := dom adapters |};
    bc_back_ends := {|
      be_tinfoil_quote_verifier := cb_tinfoil_quote_verifier b;
      be_gpu_attestation_verifier := cb_gpu_attestation_verifier b;
      be_gpu_attestation_verifier_is_custom := cb_gpu_attestation_verifier_is_custom b;
      be_collateral_resolver := tdx; be_vcek_resolver := vcek |};
    bc_adapters := adapters |}.

(** ** Lemmas *)

(** Where an artifact came from, whichever source it has. *)
Definition provenance_of {Env Pay Pin} {artifact : TrustArtifact Env Pay Pin} (b : ConfidentialInferenceBuilder)
    (source : Source Env) (envelope : Env) : Prop :=
  ta_verify_signature envelope (operator_signing_keys b) = Ok tt
  ∨ (cb_demo_provider b = true ∧ ta_verify_signature envelope (bundled_signing_keys b) = Ok tt
     ∧ ((source = Bundled ∧ ta_bundled = Ok envelope)
        ∨ ∃ bundled digest, ta_bundled_payload = Ok bundled ∧ ta_digest bundled = Ok digest
                            ∧ ta_digest (ta_payload envelope) = Ok digest)).

Lemma bundled_keys_operator b : cb_demo_provider b = false → bundled_signing_keys b = operator_signing_keys b.
Proof.
  unfold bundled_signing_keys, operator_signing_keys. intros ->. by destruct (cb_exclusive_trusted_artifact_signing_keys b).
Qed.

Section Chosen.
Context {Env Pay Pin} {artifact : TrustArtifact Env Pay Pin} {laws : TrustArtifactLaws (artifact := artifact)}.

Lemma source_provenance b source pin now response faults disk envelope payload label disk' :
  into_envelope_and_source source pin (bundled_signing_keys b) (operator_signing_keys b) now response faults disk
    = (Ok (envelope, payload, label), disk') →
  payload = ta_payload envelope ∧ provenance_of b source envelope.
Proof.
  pose proof (bundled_keys_operator b) as Hk. unfold provenance_of. destruct source as [|url fallback cache|name custom]; cbn.
  - unfold attested. intros [= H <-]. inv_ok.
    match goal with H : ta_verified_payload _ _ = _ |- _ => apply ta_payload_verified in H as [-> Hs] end.
    split; [done|]. destruct (cb_demo_provider b); [right|left; by rewrite <-Hk]. by eauto 10.
  - intros [-> Ht]%select_remote_trusted. split; [done|].
    destruct Ht as [(Hs & _ & _)|(-> & Hs & [Ho|Hb])]; [by left..|].
    destruct (cb_demo_provider b); [right|left; by rewrite <-Hk]. by eauto 10.
  - unfold attested. intros [= H <-]. inv_ok.
    match goal with H : ta_verified_payload _ _ = _ |- _ => apply ta_payload_verified in H as [-> Hs] end.
    split; [done|]. by left.
Qed.

Lemma chosen_artifact_spec b source pin now response faults disk envelope payload label digest disk' :
  chosen_artifact b source pin now response faults disk = (Ok (envelope, payload, label, digest), disk') →
  payload = ta_payload envelope ∧ ta_digest payload = Ok digest
  ∧ (∀ p, pin = Some p → ta_verify_pin p envelope digest now = Ok tt) ∧ provenance_of b source envelope.
Proof.
  unfold chosen_artifact. intros ([[e p] l] & disk1 & Hs%source_provenance & H)%eff_bind_Ok. inv_eff.
  injection H as <- <- <- <- <-. destruct Hs as [-> Hp]. unfold attested in *. inv_ok. split_and!; try done.
  intros q ->. by inv_ok.
Qed.
End Chosen.

(** Dropping routes keeps a registry valid and loses nothing but fixtures. *)
Lemma dropped_model r id m :
  rg_models (drop_fixture_routes r) !! id = Some m ↔
    ∃ m', rg_models r !! id = Some m' ∧ m = with_routes m' (List.filter keep_route (rm_routes m'))
      ∧ rm_routes m ≠ [].
Proof.
  cbn. rewrite lookup_omap_Some. split.
  - intros (m' & Hm & Hl). exists m'. destruct (List.filter _ _) as [|x l]; [done|]. injection Hm as <-. by cbn.
  - intros (m' & Hm & -> & Hne). exists m'. cbn in Hne. by destruct (List.filter _ _).
Qed.

Lemma dropped_routes m route :
  route ∈ rm_routes (with_routes m (List.filter keep_route (rm_routes m))) ↔ route ∈ rm_routes m ∧ keep_route route = true.
Proof. cbn. by rewrite !list_elem_of_In, filter_In. Qed.

Lemma drop_fixture_valid r : registry_valid r → registry_valid (drop_fixture_routes r).
Proof.
  assert (forall m key, key ∈ active_keys (with_routes m (List.filter keep_route (rm_routes m))) → key ∈ active_keys m) as Hk.
  { intros m key. unfold active_keys, route_keys. rewrite !list_elem_of_In, !in_map_iff. setoid_rewrite filter_In.
    cbn. setoid_rewrite filter_In. naive_solver. }
  intros []. constructor; try done.
  - intros id m (m' & Hm & -> & _)%dropped_model. destruct (gv_models id m' Hm) as [H1 H2 H3 H4]. constructor; try done.
    rewrite list.Forall_forall in *. cbn. intros route (Hin & _)%dropped_routes. auto.
  - intros id m id' m' alias (n & Hn & -> & _)%dropped_model (n' & Hn' & -> & _)%dropped_model. cbn. eauto.
  - intros id m id' m' key (n & Hn & -> & _)%dropped_model (n' & Hn' & -> & _)%dropped_model. eauto.
Qed.

Lemma kept_registry_valid b r : registry_valid r → registry_valid (kept_registry b r).
Proof. unfold kept_registry. destruct (cb_demo_provider b); [done|apply drop_fixture_valid]. Qed.

Lemma registry_verified_valid env keys : registry_verify_signature_with_keys env keys = Ok tt → registry_valid (rge_payload env).
Proof. unfold registry_verify_signature_with_keys. intros H. inv_ok. by apply registry_validation_Ok. Qed.

Lemma provenance_valid b source env : provenance_of b source env → registry_valid (rge_payload env).
Proof. by intros [H|(_ & H & _)]; apply registry_verified_valid in H. Qed.

(** *** Adapters *)

Lemma active_routes_elem r provider route :
  route ∈ active_routes_for_provider r provider ↔
    rd_provider route = provider ∧ rd_route_status route = Active ∧ ∃ id m, rg_models r !! id = Some m ∧ route ∈ rm_routes m.
Proof.
  unfold active_routes_for_provider. rewrite list_elem_of_In, filter_In, andb_true_iff, !bool_decide_eq_true, in_concat.
  setoid_rewrite in_map_iff. split.
  - intros ((routes & ([id m] & <- & Hm) & Hin) & ? & ?). split_and!; try done. exists id, m.
    rewrite <-list_elem_of_In, btree_iter_elem_of in Hm. by rewrite list_elem_of_In.
  - intros (? & ? & id & m & Hm & Hin). split; [|done]. exists (rm_routes m). split; [|by rewrite <-list_elem_of_In].
    exists (id, m). split; [done|]. by rewrite <-list_elem_of_In, btree_iter_elem_of.
Qed.

(** The routes and the key of an installed adapter. *)
Definition adapter_holds (a : Adapter) : option (list RouteDefinition * string) :=
  match a with
  | CallerSupplied => None
  | ChutesHttpProvider routes key | NearHttpProvider routes key | PpqPrivateHttpProvider routes key
  | RedpillHttpProvider routes key | TinfoilHttpProvider routes key | ConfidentialHttpProvider routes key
  | OpenAiHttpProvider routes key => Some (routes, key)
  end.
Lemma default_adapter_holds p routes key : adapter_holds (default_adapter p routes key) = Some (routes, key).
Proof. unfold default_adapter. by repeat case_match. Qed.

(** What an adapter map may hold: what the caller put there, or a default adapter
    for a provider with a key and an active route. *)
Definition adapters_from (r : ProviderRegistry) (api_keys : gmap string string) (given adapters : gmap string Adapter) : Prop :=
  ∀ p a, adapters !! p = Some a →
    given !! p = Some a
    ∨ (given !! p = None ∧ ∃ key routes, api_keys !! p = Some key ∧ routes ≠ [] ∧ routes = active_routes_for_provider r p
         ∧ a = default_adapter p routes key).

Section Install.
Context (http : ProviderResult unit) (r : ProviderRegistry) (keys : gmap string string) (given : gmap string Adapter).

Record install_state (adapters : gmap string Adapter) : Prop := {
  is_from : adapters_from r keys given adapters;
  is_given p : is_Some (given !! p) → adapters !! p = given !! p;
}.

Lemma install_state_add adapters p key routes :
  install_state adapters → adapters !! p = None → keys !! p = Some key → active_routes_for_provider r p = routes → routes ≠ [] →
  install_state (<[p := default_adapter p routes key]> adapters).
Proof.
  intros [Hf Hg] Hp Hk Hr Hne.
  assert (given !! p = None) as Hgp by (destruct (given !! p) eqn:E; [|done]; rewrite Hg, E in Hp; done).
  constructor.
  - intros q a [[<- <-]|[Hne' Hq]]%lookup_insert_Some; [right; eauto 10|by apply Hf].
  - intros q Hq. rewrite lookup_insert_ne; [by apply Hg|]. intros <-. rewrite Hgp in Hq. by destruct Hq.
Qed.

Lemma install_loop l adapters adapters' :
  (∀ p key, (p, key) ∈ l → keys !! p = Some key) → install_state adapters →
  try_fold (λ adapters '(provider_id, api_key),
    if bool_decide (is_Some (adapters !! provider_id)) then Ok adapters
    else match active_routes_for_provider r provider_id with
    | [] => Ok adapters
    | routes => _ ← http; Ok (<[provider_id := default_adapter provider_id routes api_key]> adapters)
    end) l adapters = Ok adapters' →
  install_state adapters' ∧ (∀ p, is_Some (adapters !! p) → is_Some (adapters' !! p))
  ∧ (∀ p key, (p, key) ∈ l → active_routes_for_provider r p ≠ [] → is_Some (adapters' !! p)).
Proof.
  revert adapters. induction l as [|[p key] l IH]; intros adapters Hl Hs; cbn [try_fold].
  { intros [= <-]. split_and!; [done..|]. intros ? ? []%not_elem_of_nil. }
  rewrite bind_Ok. intros (adapters1 & Hstep & Hrest).
  assert (install_state adapters1 ∧ (∀ q, is_Some (adapters !! q) → is_Some (adapters1 !! q))
          ∧ (active_routes_for_provider r p ≠ [] → is_Some (adapters1 !! p))) as (Hs1 & Hm & Hp).
  { case_bool_decide as E; [injection Hstep as <-; done|].
    apply eq_None_not_Some in E.
    destruct (active_routes_for_provider r p) as [|x routes] eqn:Er; [injection Hstep as <-; by split_and!|]. inv_ok.
    split; [apply install_state_add; try done; [apply Hl; by left]|]. rewrite lookup_insert_eq.
    split; [|by eauto]. intros q Hq. destruct (decide (p = q)) as [<-|]; [rewrite lookup_insert_eq|rewrite lookup_insert_ne]; by eauto. }
  destruct (IH adapters1) as (H1 & H2 & H3); [intros; apply Hl; by right|done|done|].
  split_and!; [done|eauto|]. intros q k [[= -> ->]|Hin]%elem_of_cons Hne; eauto.
Qed.

Lemma install_adapters_Ok adapters :
  install_default_credential_adapters http r keys given = Ok adapters →
  install_state adapters ∧ (∀ p key, keys !! p = Some key → active_routes_for_provider r p ≠ [] → is_Some (adapters !! p)).
Proof.
  unfold install_default_credential_adapters. intros H. apply install_loop in H as (Hs & _ & Hp).
  - split; [done|]. intros p key Hk. by apply (Hp p key), btree_iter_elem_of.
  - intros p key. by rewrite btree_iter_elem_of.
  - constructor; [|done]. intros p a Hp. by left.
Qed.
End Install.

(** *** Collateral *)

Lemma has_active_true r matches :
  registry_has_active r matches = true ↔
    ∃ id m route, rg_models r !! id = Some m ∧ route ∈ rm_routes m ∧ rd_route_status route = Active ∧ matches route = true.
Proof.
  unfold registry_has_active. rewrite existsb_exists. setoid_rewrite <-list_elem_of_In. split.
  - intros ([id m] & Hm%btree_iter_elem_of & (route & Hin & Hr)%existsb_exists). bools. exists id, m, route.
    by rewrite list_elem_of_In.
  - intros (id & m & route & Hm & Hin & Ha & Hr). exists (id, m). split; [by apply btree_iter_elem_of|].
    apply existsb_exists. exists route. rewrite <-list_elem_of_In. bools. done.
Qed.
Lemma resolver_installed_Ok http set needed installed :
  resolver_installed http set needed = Ok installed → needed = true → installed = true.
Proof. unfold resolver_installed. intros H ->. destruct set; by inv_ok. Qed.

(** ** What a built client guarantees *)

(** A run of [build] that succeeded, as its steps. *)
Record built (b : ConfidentialInferenceBuilder) (w : BuildWorld) (c : BuiltClient) (registry_envelope : ProviderRegistryEnvelope)
    (reference_envelope : ReferenceValuesEnvelope) : Prop := {
  bt_enforced : cb_allow_insecure_plaintext b = false → enforcement (cl_policy (bc_client c)) = Enforce;
  bt_registry : cl_registry (bc_client c) = kept_registry b (rge_payload registry_envelope);
  bt_registry_provenance : provenance_of b (cb_registry_source b) registry_envelope;
  bt_registry_digest : registry_digest (rge_payload registry_envelope) = Ok (cl_registry_digest (bc_client c));
  bt_registry_pin p : cb_registry_pin b = Some p →
    registry_verify_envelope_with_digest_at p registry_envelope (cl_registry_digest (bc_client c)) (bw_now w) = Ok tt;
  bt_reference : cl_reference_values (bc_client c) = env_payload reference_envelope;
  bt_reference_provenance : provenance_of b (cb_reference_values_source b) reference_envelope;
  bt_reference_digest : reference_digest (env_payload reference_envelope) = Ok (cl_reference_values_digest (bc_client c));
  bt_reference_pin p : cb_reference_values_pin b = Some p →
    verify_envelope_with_digest_at p reference_envelope (cl_reference_values_digest (bc_client c)) (bw_now w) = Ok tt;
  bt_policy : cl_policy (bc_client c)
    = with_artifact_digests (cb_policy b) (cl_registry_digest (bc_client c)) (cl_reference_values_digest (bc_client c));
  bt_routes : validate_registry_routes (cl_compatibility_matrix (bc_client c)) (cl_registry (bc_client c)) = Ok tt;
  bt_matrix : builder_matrix b = Ok (cl_compatibility_matrix (bc_client c))
    ∧ compatibility_validate (cl_compatibility_matrix (bc_client c)) = Ok tt;
  bt_adapters : install_default_credential_adapters (bw_http_client w) (cl_registry (bc_client c)) (cb_api_keys b)
                  (cb_adapters b) = Ok (bc_adapters c);
  bt_adapter_names : cl_adapters (bc_client c) = dom (bc_adapters c);
  bt_order : cl_provider_order (bc_client c) = cb_provider_routing b
    ∧ validate_provider_routing (cl_provider_order (bc_client c)) (cl_registry (bc_client c))
        (cl_compatibility_matrix (bc_client c)) (cl_adapters (bc_client c)) (cl_policy (bc_client c)) = Ok tt;
  bt_tdx : registry_has_active (cl_registry (bc_client c)) needs_tdx = true → be_collateral_resolver (bc_back_ends c) = true;
  bt_vcek : registry_has_active (cl_registry (bc_client c)) live_tinfoil = true → be_vcek_resolver (bc_back_ends c) = true;
}.

Lemma build_Ok b w disk c disk' :
  build b w disk = (Ok c, disk') → ∃ registry_envelope reference_envelope, built b w c registry_envelope reference_envelope.
Proof.
  unfold build. intros ([] & ? & [E0 ->]%pure_result_Ok & H)%eff_bind_Ok.
  apply guard_Ok in E0 as [E0 _]. apply eff_bind_Ok in H as ([] & ? & [_ ->]%pure_result_Ok & H).
  apply eff_bind_Ok in H as ([[[re rp] rl] rd] & ? & (-> & Hd & Hp & Ho)%chosen_artifact_spec & H).
  apply eff_bind_Ok in H as ([[[ve vp] vl] vd] & ? & (-> & Hd' & Hp' & Ho')%chosen_artifact_spec & H).
  destruct (LiveCollateralNeeds_for_registry _) as [needs_tdx' needs_vcek] eqn:En. inv_eff.
  injection H as <- <-. unfold provided in *. inv_ok. injection En as <- <-. exists re, ve.
  constructor; cbn; try done; try (by eapply resolver_installed_Ok).
  intros Hi. rewrite Hi in E0. cbn in E0. by bools.
Qed.

(** C7: whatever a builder is given and whatever the network and the cache hold,
    a client built outside demo mode trusts only its operator: its registry and
    its reference values are signed by an operator key and accepted by the pins,
    the policy carries their digests, the registry has no fixture route, every
    route it may use fits a validated compatibility profile, and unless plaintext
    was explicitly allowed the policy is enforced. *)
Theorem built_client_trusted b w disk c disk' :
  build b w disk = (Ok c, disk') → cb_demo_provider b = false →
  (∃ envelope digest, registry_verify_signature_with_keys envelope (operator_signing_keys b) = Ok tt
     ∧ registry_digest (rge_payload envelope) = Ok digest
     ∧ cl_registry (bc_client c) = drop_fixture_routes (rge_payload envelope)
     ∧ provider_registry_digest (cl_policy (bc_client c)) = digest
     ∧ ∀ pin, cb_registry_pin b = Some pin → registry_verify_envelope_with_digest_at pin envelope digest (bw_now w) = Ok tt)
  ∧ (∃ envelope digest, verify_signature_with_keys envelope (operator_signing_keys b) = Ok tt
     ∧ reference_digest (env_payload envelope) = Ok digest
     ∧ cl_reference_values (bc_client c) = env_payload envelope
     ∧ reference_values_digest (cl_policy (bc_client c)) = digest
     ∧ ∀ pin, cb_reference_values_pin b = Some pin → verify_envelope_with_digest_at pin envelope digest (bw_now w) = Ok tt)
  ∧ (∀ id m route, rg_models (cl_registry (bc_client c)) !! id = Some m → route ∈ rm_routes m →
       starts_with "fixture" (rd_evidence_family route) = false
       ∧ (security_sensitive (rd_route_status route) = true →
          ∃ profile, cm_providers (cl_compatibility_matrix (bc_client c)) !! rd_provider route = Some profile
            ∧ route_fits profile route))
  ∧ (cb_allow_insecure_plaintext b = false → enforcement (cl_policy (bc_client c)) = Enforce).
Proof.
  intros (re & ve & B)%build_Ok Hdemo. destruct B. unfold kept_registry in bt_registry0. rewrite Hdemo in *.
  split_and!; try done.
  - exists re, (cl_registry_digest (bc_client c)). split; [by destruct bt_registry_provenance0 as [?|[? _]]; [|congruence]|].
    rewrite bt_policy0. by split_and!.
  - exists ve, (cl_reference_values_digest (bc_client c)). split; [by destruct bt_reference_provenance0 as [?|[? _]]; [|congruence]|].
    rewrite bt_policy0. by split_and!.
  - intros id m route Hm Hin. split.
    + rewrite bt_registry0 in Hm. apply dropped_model in Hm as (m' & _ & -> & _). apply dropped_routes in Hin as [_ Hk].
      by apply negb_true_iff in Hk.
    + intros Hs. rewrite registry_routes_fit in bt_routes0. eauto.
Qed.

(** C31: the API key of a provider only reaches the adapter of that provider, with
    that provider's active routes: every adapter of a built client is the one the
    caller supplied under that name or a default one holding the key configured
    under that name; no supplied adapter is replaced; and a key with an active
    route gets an adapter. *)
Theorem credentials_stay_with_provider b w disk c disk' :
  build b w disk = (Ok c, disk') →
  (∀ p a, bc_adapters c !! p = Some a →
     cb_adapters b !! p = Some a
     ∨ ∃ routes key, adapter_holds a = Some (routes, key) ∧ cb_adapters b !! p = None ∧ cb_api_keys b !! p = Some key
         ∧ routes ≠ []
         ∧ ∀ route, route ∈ routes ↔ rd_provider route = p ∧ rd_route_status route = Active
             ∧ ∃ id m, rg_models (cl_registry (bc_client c)) !! id = Some m ∧ route ∈ rm_routes m)
  ∧ (∀ p a, cb_adapters b !! p = Some a → bc_adapters c !! p = Some a)
  ∧ (∀ p key id m route, cb_api_keys b !! p = Some key → rg_models (cl_registry (bc_client c)) !! id = Some m →
       route ∈ rm_routes m → rd_provider route = p → rd_route_status route = Active → p ∈ cl_adapters (bc_client c)).
Proof.
  intros (re & ve & [])%build_Ok. apply install_adapters_Ok in bt_adapters0 as [[Hf Hg] Hi]. split_and!.
  - intros p a Hp. destruct (Hf p a Hp) as [?|(Hn & key & routes & Hk & Hne & -> & ->)]; [by left|right].
    exists (active_routes_for_provider (cl_registry (bc_client c)) p), key. rewrite default_adapter_holds. split_and!; try done.
    apply active_routes_elem.
  - intros p a Hp. by rewrite Hg, Hp by eauto.
  - intros p key id m route Hk Hm Hin Hpr Ha. rewrite bt_adapter_names0. apply elem_of_dom. apply (Hi p key Hk). intros E.
    assert (route ∈ active_routes_for_provider (cl_registry (bc_client c)) p) as Hr by (apply active_routes_elem; eauto 10).
    rewrite E in Hr. set_solver.
Qed.

(** A provider order a client was built with is honoured by every chat
    request: when all the routes offered for a model's canonical name are the
    model's own, selection succeeds and the first route tried belongs to the
    caller's first provider. *)
Theorem built_order_honoured b w disk c disk' model p rest :
  build b w disk = (Ok c, disk') → cb_provider_routing b !! model = Some (p :: rest) →
  (∀ m route, (m, route) ∈ matching_routes (cl_registry (bc_client c)) None model → rm_canonical_model m = model) →
  ∃ route attested tail, select_routes (bc_client c) None model ForChat = Ok ((route, attested) :: tail)
    ∧ rt_provider attested = p ∧ rt_requested_model attested = model ∧ rt_canonical_model attested = model.
Proof.
  intros (re & ve & [])%build_Ok Ho. destruct bt_order0 as [Eo Hv].
  apply (order_selects (bc_client c) model p rest); [|done..|by rewrite Eo].
  apply registry_validation_Ok. rewrite bt_registry0. by eapply kept_registry_valid, provenance_valid.
Qed.
End Build.

(** ** A concrete client *)

#[local] Instance builder_sample_crypto : SignatureCrypto := {|
  base64url_decode s := Some s; public_key_from_slice s := Some s;
  signature_from_slice s := Some s; ed25519_verify _ message signature := message =?= signature |}.
#[local] Instance builder_sample_assets : BundledArtifacts := {|
  bundled_registry_envelope := Err (Json ""); bundled_reference_envelope := Err (Json "");
  registry_to_vec _ := None; registry_from_slice _ := None;
  reference_to_vec _ := None; reference_from_slice _ := None |}.

Definition sign_reference (key_id : string) (p : ReferenceValuesPayload) : ReferenceValuesEnvelope := {|
  env_schema := ENVELOPE_SCHEMA; env_payload := p;
  env_signature := {| as_signer := "confidential-inference"; as_key_id := key_id; as_alg := "ed25519";
                      as_value := match canonical_json (reference_payload_value p) with
                                  | Ok s => "base64url:" +:+ s | Err _ => "" end |} |}.

Definition sample_builder : ConfidentialInferenceBuilder := {|
  cb_policy := require_hw_verified_tls;
  cb_registry_source := Custom "ci" (sign_registry "operator" selection_registry); cb_registry_pin := None;
  cb_reference_values_source := Custom "ci" (sign_reference "operator" payload_1); cb_reference_values_pin := None;
  cb_trusted_artifact_signing_keys := [operator_key]; cb_exclusive_trusted_artifact_signing_keys := None;
  cb_demo_provider := false; cb_compatibility_matrix := Some (MatrixPayload (cl_compatibility_matrix selection_client));
  cb_provider_routing := {[ "llama" := ["tinfoil"; "near"] ]}; cb_adapters := {[ "near" := CallerSupplied ]};
  cb_tinfoil_quote_verifier := FailClosedTinfoilQuoteVerifier; cb_gpu_attestation_verifier := FailClosedGpuAttestationVerifier;
  cb_gpu_attestation_verifier_is_custom := false; cb_tinfoil_dcap_tdx_collateral_resolver := false;
  cb_tinfoil_sev_snp_vcek_resolver := false; cb_api_keys := {[ "tinfoil" := "secret" ]};
  cb_allow_insecure_plaintext := false |}.
Definition sample_build_world : BuildWorld := {|
  bw_now := 0; bw_registry_response := None; bw_registry_faults := no_faults; bw_reference_response := None;
  bw_reference_faults := no_faults; bw_http_client := Ok tt |}.

Abbreviation sample_build := (build (Err (Compatibility "")) sample_builder sample_build_world ∅).
Lemma run_ok_inv {W E A} (run : result E A * W) : is_ok run.1 = true → ∃ a w, run = (Ok a, w).
Proof. destruct run as [[a|e] w]; [|done]. by exists a, w. Qed.
Lemma sample_build_ok : ∃ c disk', sample_build = (Ok c, disk').
Proof. apply run_ok_inv. vm_compute. reflexivity. Qed.

Lemma built_client_trusted_witness :
  ∃ c disk', sample_build = (Ok c, disk') ∧ enforcement (cl_policy (bc_client c)) = Enforce
    ∧ ∃ envelope digest, registry_verify_signature_with_keys envelope [operator_key] = Ok tt
        ∧ registry_digest (rge_payload envelope) = Ok digest
        ∧ provider_registry_digest (cl_policy (bc_client c)) = digest.
Proof.
  destruct sample_build_ok as (c & disk' & E). exists c, disk'. split; [exact E|].
  destruct (built_client_trusted _ _ _ _ _ _ E eq_refl) as ((envelope & digest & H1 & H2 & _ & H3 & _) & _ & _ & H4).
  split; [exact (H4 eq_refl)|]. exists envelope, digest. exact (conj H1 (conj H2 H3)).
Defined.

Lemma credentials_stay_with_provider_witness :
  ∃ c disk', sample_build = (Ok c, disk') ∧ bc_adapters c !! "near" = Some CallerSupplied.
Proof.
  destruct sample_build_ok as (c & disk' & E). exists c, disk'. split; [exact E|].
  destruct (credentials_stay_with_provider _ _ _ _ _ _ E) as (_ & H & _). apply H. vm_compute. reflexivity.
Defined.

Lemma sample_names_own c disk' m route :
  sample_build = (Ok c, disk') → (m, route) ∈ matching_routes (cl_registry (bc_client c)) None "llama" →
  rm_canonical_model m = "llama".
Proof.
  intros E Hin.
  assert (match sample_build with
          | (Ok c, _) => forallb (λ '(m, _), rm_canonical_model m =?= "llama")
                           (matching_routes (cl_registry (bc_client c)) None "llama")
          | _ => false
          end = true) as H by (vm_compute; reflexivity).
  rewrite E in H. rewrite forallb_forall in H. rewrite list_elem_of_In in Hin. by apply H, bool_decide_eq_true in Hin.
Qed.

Lemma built_order_honoured_witness :
  ∃ c disk', sample_build = (Ok c, disk')
    ∧ ∃ route attested tail, select_routes (bc_client c) None "llama" ForChat = Ok ((route, attested) :: tail)
        ∧ rt_provider attested = "tinfoil".
Proof.
  destruct sample_build_ok as (c & disk' & E). exists c, disk'. split; [exact E|].
  destruct (built_order_honoured _ _ _ _ _ _ "llama" "tinfoil" ["near"] E ltac:(vm_compute; reflexivity)
              (λ m route, sample_names_own c disk' m route E)) as (route & attested & tail & H1 & H2 & _).
  exists route, attested, tail. exact (conj H1 H2).
Defined.
