(* ===== verification/HttpTransport.v ===== *)
(** * The HTTP transport of the provider adapters

    providers/tls.rs and the transport half of providers/http.rs: the SPKI-pinned
    certificate verifier, the bounded cache of pinned clients, sending and the
    classification of its failures, bounded response bodies, and the reader of
    server-sent events. *)

From Stdlib Require Import Ascii String ZArith Lia.
From stdpp Require Import base gmap strings list numbers fin_maps.
From S2P Require Import Prelude RustStr Errors Collections Canonical Bindings Registry ProviderRequest ChatStream Effects.

Open Scope string_scope.

(** ** The network *)

Record HttpRequest := {
  hr_method : string;
  hr_url : string;
  hr_query : list (string * string);
  hr_body : option Value;
  hr_bearer : option string;
}.
(** A status and the body's chunks; a chunk may fail to arrive. *)
Record HttpReply := { rp_status : Z; rp_chunks : list (option string) }.

(** What the network does with the next request: nobody answers, a TLS server
    presents a certificate, or a plain server answers. A reply may be lost after
    the request was delivered. *)
Inductive Exchange :=
| Unreachable
| Peer (certificate : string) (reply : option HttpReply)
| Plain (reply : option HttpReply).

Record Delivery := { dl_request : HttpRequest; dl_peer : option string }.
Record Net := { nt_script : list Exchange; nt_sent : list Delivery }.

(** A client: its pin, and whether responses carry the peer's certificate. *)
Record HttpClient := { hc_pin : option string; hc_tls_info : bool }.
Record HttpResponse := { hp_status : Z; hp_peer_certificate : option string; hp_chunks : list (option string) }.

(** ** TLS *)

Inductive TlsError := TlsRefused | PinnedSpkiMismatch.
Inductive SendError := TransportFailure | PinMismatch.

(** The platform's verification of a certificate for a URL. *)
Class PlatformVerifier := { platform_verify : string → string → bool }.

Record LiveTlsPeer := { lp_spki_sha256 : string; lp_leaf_certificate_der : string }.

Definition MAX_PINNED_CLIENTS : nat := 8.
Definition MAX_PROVIDER_RESPONSE_BYTES : N := 67108864.

Record PinnedSpkiClientCache := { px_clients : gmap string (Z * HttpClient); px_sequence : Z }.

Section Transport.
Context {prim : Primitives} {x509 : CertificateReader} {platform : PlatformVerifier}.

(** [SpkiPinnedVerifier::verify_server_cert] for a pin, the platform verifier
    without one. *)
Definition verify_server_cert (pin : option string) (url end_entity : string) : result TlsError unit :=
  if negb (platform_verify url end_entity) then Err TlsRefused
  else match pin with
  | None => Ok tt
  | Some expected_spki_sha256 =>
      match certificate_spki_sha256_hex end_entity with
      | Err _ => Err TlsRefused
      | Ok observed => if observed =?= expected_spki_sha256 then Ok tt else Err PinnedSpkiMismatch
      end
  end.

(** *** Pinned clients *)

Definition older_client (e b : string * (Z * HttpClient)) : bool := (e.2.1 <? b.2.1)%Z.

(** Room for a new client: a full cache loses its oldest. *)
Definition make_room (clients : gmap string (Z * HttpClient)) : gmap string (Z * HttpClient) :=
  if (MAX_PINNED_CLIENTS <=? size clients)%nat
  then match min_by older_client (btree_iter clients) with
       | Some (oldest, _) => delete oldest clients
       | None => clients
       end
  else clients.

(** [built] is the outcome of the HTTP client builder. *)
Definition transport_client (built : ProviderResult unit) (pin : option string) : ProviderResult HttpClient :=
  _ ← built; Ok {| hc_pin := pin; hc_tls_info := true |}.

Definition pinned_client (built : ProviderResult unit) (expected_spki_sha256 : string) (cache : PinnedSpkiClientCache)
    : ProviderResult HttpClient * PinnedSpkiClientCache :=
  match px_clients cache !! expected_spki_sha256 with
  | Some (_, client) => (Ok client, cache)
  | None =>
      match transport_client built (Some expected_spki_sha256) with
      | Err e => (Err e, cache)
      | Ok client =>
          (Ok client, {| px_clients := <[expected_spki_sha256 := (px_sequence cache, client)]>
                                         (make_room (px_clients cache));
                         px_sequence := ((px_sequence cache + 1) mod u64_modulus)%Z |})
      end
  end.

(** ** Sending *)

(** The scheme of the parsed URL. *)
Definition is_https (url : string) : bool := starts_with "https:" (to_ascii_lowercase url).

Definition delivered (request : HttpRequest) (peer : option string) (client : HttpClient) (reply : option HttpReply)
    (rest : list Exchange) (net : Net) : result SendError HttpResponse * Net :=
  (match reply with
   | None => Err TransportFailure
   | Some reply => Ok {| hp_status := rp_status reply; hp_chunks := rp_chunks reply;
                         hp_peer_certificate := if hc_tls_info client then peer else None |}
   end, {| nt_script := rest; nt_sent := nt_sent net ++ [{| dl_request := request; dl_peer := peer |}] |}).

Definition send (client : HttpClient) (request : HttpRequest) : eff Net SendError HttpResponse := λ net,
  match nt_script net with
  | [] => (Err TransportFailure, net)
  | exchange :: rest =>
      let refused e : result SendError HttpResponse * Net := (Err e, {| nt_script := rest; nt_sent := nt_sent net |}) in
      match exchange, is_https (hr_url request) with
      | Peer certificate reply, true =>
          match verify_server_cert (hc_pin client) (hr_url request) certificate with
          | Ok _ => delivered request (Some certificate) client reply rest net
          | Err PinnedSpkiMismatch => refused PinMismatch
          | Err TlsRefused => refused TransportFailure
          end
      | Plain reply, false => delivered request None client reply rest net
      | _, _ => refused TransportFailure
      end
  end.

Definition map_send_error (route_id : string) (e : SendError) : ProviderError :=
  match e with
  | PinMismatch => KeyRotation route_id "live TLS SPKI does not match the verified evidence pin"
  | TransportFailure => Http "{error}"
  end.

(** ** Responses *)

Fixpoint read_body (body : string) (chunks : list (option string)) : ProviderResult string :=
  match chunks with
  | [] => Ok body
  | None :: _ => Err (Http "{error}")
  | Some chunk :: rest =>
      if (MAX_PROVIDER_RESPONSE_BYTES <? N.of_nat (String.length body) + N.of_nat (String.length chunk))%N
      then Err (Http "{operation} response exceeds {} bytes")
      else read_body (body +:+ chunk) rest
  end.

Definition is_success (status : Z) : bool := ((200 <=? status) && (status <? 300))%Z.

Definition checked_response_bytes (response : HttpResponse) : ProviderResult string :=
  body ← read_body "" (hp_chunks response);
  if is_success (hp_status response) then Ok body
  else Err (HttpStatus (hp_status response) "{operation}: {}").

Definition response_tls_peer (response : HttpResponse) : ProviderResult (option LiveTlsPeer) :=
  match hp_peer_certificate response with
  | None => Ok None
  | Some der =>
      spki_sha256 ← map_err (λ _, Adapter "{error}") (certificate_spki_sha256_hex der);
      Ok (Some {| lp_spki_sha256 := spki_sha256; lp_leaf_certificate_der := der |})
  end.

Definition require_tls_peer (response : HttpResponse) : ProviderResult LiveTlsPeer :=
  peer ← response_tls_peer response;
  ok_or peer (Compatibility "{operation} did not expose a live TLS certificate").

Definition capture_response (response : HttpResponse) : ProviderResult (string * option LiveTlsPeer) :=
  tls_peer ← response_tls_peer response;
  body ← checked_response_bytes response;
  Ok (body, tls_peer).
End Transport.
