(* ===== verification/HttpStream.v ===== *)
(** * Server-sent events of a provider response

    providers/http.rs [take_sse_frame] and [sse_body_stream]: the bytes of a
    streaming response, in pieces of any size, cut into the JSON payloads the SDK's
    own reader consumes. *)

From Stdlib Require Import Ascii String ZArith Lia.
From stdpp Require Import base gmap strings list numbers fin_maps.
From S2P Require Import Prelude RustStr Errors Collections Canonical Bindings Registry ProviderRequest ChatStream Effects HttpTransport.

Open Scope string_scope.

Inductive SseTake := Incomplete | Consumed | SseDone | SseData (data : string) | SseInvalid (error : ProviderError).

(** The response's byte stream and the buffer of the unfold. *)
Record SseState := { sx_bytes : list (option string); sx_buffer : string }.

Section Sse.
Context {reader : ChunkReader}.

(** The loop over the lines of a frame. *)
Fixpoint sse_lines (lines : list string) : SseTake :=
  match lines with
  | [] => Consumed
  | line :: lines =>
      let line := default line (strip_suffix line (String CR "")) in
      match strip_prefix "data:" line with
      | None => sse_lines lines
      | Some data =>
          let data := strip_space data in
          if data =?= "[DONE]" then SseDone
          else if is_empty data then sse_lines lines
          else if is_json data then SseData data
          else SseInvalid (JsonError "{error}")
      end
  end.

Definition take_sse_frame (buffer : string) : SseTake * string :=
  match find_frame buffer with
  | None => (Incomplete, buffer)
  | Some (frame_end, delimiter_len) =>
      (sse_lines (split_byte LF (slice buffer 0 frame_end)),
       slice buffer (frame_end + delimiter_len) (String.length buffer))
  end.

(** One turn of the loop: it returns an item, or the end of the stream, with the state
    for the next poll, or goes on with a frame dropped or a piece read. *)
Definition sse_turn (s : SseState) : (option (ProviderResult string) * SseState) + SseState :=
  let '(take, buffer) := take_sse_frame (sx_buffer s) in
  let s := {| sx_bytes := sx_bytes s; sx_buffer := buffer |} in
  match take with
  | SseDone => inl (None, s)
  | SseData data => inl (Some (Ok data), s)
  | SseInvalid error => inl (Some (Err error), s)
  | Consumed => inr s
  | Incomplete =>
      match sx_bytes s with
      | [] => inl (None, s)
      | Some part :: bytes =>
          if (N.of_nat (String.length buffer) + N.of_nat (String.length part) <=? MAX_PROVIDER_RESPONSE_BYTES)%N
          then inr {| sx_bytes := bytes; sx_buffer := buffer +:+ part |}
          else inl (Some (Err (Http "chat streaming SSE frame exceeds the provider response limit")),
                    {| sx_bytes := bytes; sx_buffer := buffer |})
      | None :: bytes => inl (Some (Err (Http "{error}")), {| sx_bytes := bytes; sx_buffer := buffer |})
      end
  end.

(** One poll of the stream: the loop, [None] when the fuel does not suffice. *)
Fixpoint sse_poll (fuel : nat) (s : SseState) : option (option (ProviderResult string) * SseState) :=
  match fuel with
  | O => None
  | S fuel => match sse_turn s with inl result => Some result | inr s => sse_poll fuel s end
  end.

(** Enough fuel for a poll: the bytes and the pieces there are. *)
Definition pending (bytes : list (option string)) : nat :=
  list_sum (map (λ part, S (from_option String.length O part)) bytes).
Definition sse_measure (s : SseState) : nat := String.length (sx_buffer s) + pending (sx_bytes s).
(** A poll with this fuel; the default is never taken ([sse_returns]). *)
Definition sse_body_stream (s : SseState) : option (ProviderResult string) * SseState :=
  default (None, s) (sse_poll (S (sse_measure s)) s).

(** ** Every poll returns *)

Lemma take_sse_shorter buffer take rest :
  take_sse_frame buffer = (take, rest) →
  (take = Incomplete ∧ rest = buffer) ∨ (take ≠ Incomplete ∧ (String.length rest < String.length buffer)%nat).
Proof.
  unfold take_sse_frame. destruct (find_frame buffer) as [[n d]|] eqn:E; intros [= <- <-]; [right|by left].
  split; [|by apply find_frame_shorter]. induction (split_byte _ _) as [|line lines IH]; [done|]. cbn [sse_lines].
  by repeat case_match.
Qed.

Lemma pending_cons part bytes : pending (part :: bytes) = (S (from_option String.length O part) + pending bytes)%nat.
Proof. done. Qed.

(** The loop goes on from one state to another. *)
Definition sse_continues (s s' : SseState) : Prop := sse_turn s = inr s'.
Definition buffer_within (s : SseState) : Prop := (N.of_nat (String.length (sx_buffer s)) ≤ MAX_PROVIDER_RESPONSE_BYTES)%N.

Lemma sse_continues_shrinks s s' : sse_continues s s' → (sse_measure s' < sse_measure s)%nat.
Proof.
  unfold sse_continues, sse_turn, sse_measure. destruct (take_sse_frame (sx_buffer s)) as [take rest] eqn:E.
  apply take_sse_shorter in E as [[-> ->]|[Hi Hl]].
  - cbn [sx_bytes]. destruct (sx_bytes s) as [|[part|] bytes]; [done| |done].
    destruct (_ <=? _)%N; [|done]. intros [= <-]. rewrite pending_cons. cbn [sx_bytes sx_buffer from_option].
    rewrite append_length. lia.
  - destruct take; try done. intros [= <-]. cbn [sx_bytes sx_buffer]. lia.
Qed.
Lemma sse_turn_within s :
  buffer_within s → match sse_turn s with inl (_, s') | inr s' => buffer_within s' end.
Proof.
  unfold buffer_within, sse_turn. intros Hb. destruct (take_sse_frame (sx_buffer s)) as [take rest] eqn:E.
  assert (String.length rest ≤ String.length (sx_buffer s))%nat by (apply take_sse_shorter in E as [[_ ->]|[_ ?]]; lia).
  destruct take; cbn [sx_buffer sx_bytes]; try lia. destruct (sx_bytes s) as [|[part|] bytes]; cbn [sx_buffer]; try lia.
  destruct (N.leb_spec (N.of_nat (String.length rest) + N.of_nat (String.length part)) MAX_PROVIDER_RESPONSE_BYTES);
    cbn [sx_buffer]; [rewrite append_length|]; lia.
Qed.
(** The end of the stream is the end marker, or the end of the bytes with no whole
    frame left. *)
Lemma sse_turn_end s s' :
  sse_turn s = inl (None, s') →
  (take_sse_frame (sx_buffer s)).1 = SseDone ∨ (sx_bytes s = [] ∧ find_frame (sx_buffer s) = None).
Proof.
  unfold sse_turn. destruct (take_sse_frame (sx_buffer s)) as [take rest] eqn:E. destruct take; try done; [|by left].
  cbn [sx_bytes]. destruct (sx_bytes s) as [|[part|] bytes]; [|by destruct (_ <=? _)%N|done]. intros _. right. split; [done|].
  unfold take_sse_frame in E. destruct (find_frame (sx_buffer s)) as [[n d]|] eqn:Ef; [exfalso|done].
  assert (take_sse_frame (sx_buffer s) = (Incomplete, rest)) as E' by (unfold take_sse_frame; by rewrite Ef).
  injection E as _ Hr. apply take_sse_shorter in E' as [[_ ->]|[? _]]; [|done].
  apply (find_frame_shorter _ _ _) in Ef. rewrite Hr in Ef. lia.
Qed.

(** With more fuel than its measure a poll returns what the last turn of the loop
    returns. *)
Lemma sse_poll_runs fuel s :
  (sse_measure s < fuel)%nat → buffer_within s →
  ∃ turns last item s', (turns ≤ sse_measure s)%nat ∧ nsteps sse_continues turns s last
    ∧ sse_turn last = inl (item, s') ∧ sse_poll fuel s = Some (item, s') ∧ buffer_within s'.
Proof.
  revert s. induction fuel as [|fuel IH]; intros s Hf Hb; [lia|]. cbn [sse_poll].
  pose proof (sse_turn_within s Hb) as Hw. destruct (sse_turn s) as [[item s']|s'] eqn:E.
  - exists O, s, item, s'. split_and!; [lia|apply nsteps_O|done..].
  - pose proof (sse_continues_shrinks s s' E). destruct (IH s') as (turns & last & item & s'' & Hn & Hs & Hr); [lia|done|].
    exists (S turns), last, item, s''. split; [lia|]. split; [by eapply nsteps_l|done].
Qed.
Lemma sse_returns s result : sse_poll (S (sse_measure s)) s = Some result → sse_body_stream s = result.
Proof. unfold sse_body_stream. by intros ->. Qed.

(** C33: a poll of the provider's event stream always returns. From any state whose
    buffer is within the 64 MiB limit the loop ends after finitely many turns, no more
    than the bytes and pieces there are, with what its last turn returns; the buffer
    stays within the limit; and the stream only ends at the end marker, or when there
    are no more bytes and the buffer holds no whole frame. *)
Theorem sse_poll_terminates s :
  buffer_within s →
  ∃ turns last item s',
    (turns ≤ sse_measure s)%nat ∧ nsteps sse_continues turns s last ∧ sse_turn last = inl (item, s')
    ∧ sse_poll (S (sse_measure s)) s = Some (item, s') ∧ sse_body_stream s = (item, s')
    ∧ buffer_within s'
    ∧ (item = None →
       (take_sse_frame (sx_buffer last)).1 = SseDone ∨ (sx_bytes last = [] ∧ find_frame (sx_buffer last) = None)).
Proof.
  intros Hb. destruct (sse_poll_runs (S (sse_measure s)) s ltac:(lia) Hb) as (turns & last & item & s' & Hn & Hs & Ht & Hp & Hw).
  exists turns, last, item, s'. split_and!; [done..| |done|].
  - by eapply sse_returns.
  - intros ->. by eapply sse_turn_end.
Qed.

(** ** Well-formed events are delivered, however they are cut *)

Lemma sse_event p rest :
  plain_payload p → is_json p = true → no_byte CR (event_frame p +:+ rest) →
  take_sse_frame (event_frame p +:+ rest) = (SseData p, rest).
Proof.
  intros (HL & HC & Hne & Hd) Hj Hcr. unfold take_sse_frame. rewrite find_event by done.
  destruct (slice_event p rest) as [-> ->]. f_equal.
  rewrite split_byte_plain by (apply no_byte_app; by split). cbn [sse_lines].
  rewrite no_cr_suffix by (apply no_byte_app; by split).
  change (strip_prefix "data:" (default ("data: " +:+ p) None)) with (Some (" " +:+ p)). cbv iota zeta.
  change (strip_space (" " +:+ p)) with p. rewrite bool_decide_false, Hj by done. by destruct p.
Qed.
Lemma sse_end rest : no_byte CR rest → take_sse_frame (event_frame "[DONE]" +:+ rest) = (SseDone, rest).
Proof.
  intros Hcr. unfold take_sse_frame. rewrite find_event by (try apply no_byte_app; done).
  destruct (slice_event "[DONE]" rest) as [-> ->]. done.
Qed.

(** A strict beginning of an event holds no frame. *)
Lemma sse_incomplete buffer p rest :
  no_byte LF p → no_byte CR p → buffer +:+ rest = event_frame p → rest ≠ "" → take_sse_frame buffer = (Incomplete, buffer).
Proof.
  intros HL HC Hb Hr. unfold take_sse_frame, find_frame.
  assert (no_byte CR (buffer +:+ rest)) as Hcr by (rewrite Hb; unfold event_frame; rewrite !no_byte_app; done).
  apply no_byte_app in Hcr as [Hcr _]. rewrite no_cr_position by done.
  destruct (position LFLF buffer) as [i|] eqn:E; [|done].
  apply position_Some in E as (a & b & Hs & _). exfalso. apply Hr.
  assert (("data: " +:+ p) +:+ LFLF = a +:+ LFLF +:+ (b +:+ rest)) as E'
    by (rewrite append_assoc; unfold event_frame in Hb; by rewrite <-Hb, Hs, !append_assoc).
  apply delimiter_last in E' as [_ E']; [|apply no_byte_app; by split]. by destruct b, rest.
Qed.

Definition pieces_of (pieces : list string) (buffer : string) : SseState :=
  {| sx_bytes := map Some pieces; sx_buffer := buffer |}.

(** Reading on until the event at the front of the stream is whole. *)
Lemma sse_front fuel pieces buffer p rest :
  (sse_measure (pieces_of pieces buffer) < fuel)%nat →
  no_byte LF p → no_byte CR p → buffer +:+ concat_bytes pieces = event_frame p +:+ rest →
  (N.of_nat (String.length (event_frame p +:+ rest)) ≤ MAX_PROVIDER_RESPONSE_BYTES)%N →
  ∃ fuel' pieces' buffer', sse_poll fuel (pieces_of pieces buffer) = sse_poll (S fuel') (pieces_of pieces' buffer')
    ∧ (sse_measure (pieces_of pieces' buffer') < S fuel')%nat
    ∧ (∃ tail, buffer' = event_frame p +:+ tail ∧ tail +:+ concat_bytes pieces' = rest).
Proof.
  intros Hf HL HC. revert fuel buffer Hf. induction pieces as [|piece pieces IH]; intros fuel buffer Hf Hb Hm.
  - destruct fuel as [|fuel]; [lia|]. cbn in Hb. rewrite append_nil_r in Hb. exists fuel, [], buffer.
    split; [done|]. split; [done|]. exists rest. cbn. by rewrite append_nil_r.
  - destruct (append_prefix _ _ _ _ Hb) as [(e & -> & He)|(e & He & Hc & Hne)].
    + destruct fuel as [|fuel]; [lia|]. exists fuel, (piece :: pieces), (event_frame p +:+ e). split; [done|]. split; [done|].
      exists e. split; [done|]. by rewrite He.
    + destruct fuel as [|fuel]; [lia|].
      destruct (IH fuel (buffer +:+ piece)) as (fuel' & pieces' & buffer' & Hp & Hr); [| |done|].
      { unfold sse_measure, pieces_of in *. cbn [sx_bytes sx_buffer map] in *. rewrite pending_cons in Hf. cbn in Hf.
        rewrite append_length. lia. }
      { cbn in Hb. by rewrite append_assoc. }
      exists fuel', pieces', buffer'. split; [|done]. rewrite <-Hp. cbn [sse_poll]. unfold sse_turn. cbn [pieces_of sx_buffer sx_bytes map].
      rewrite (sse_incomplete buffer p e) by done. cbn [sx_bytes].
      rewrite (proj2 (N.leb_le _ _)); [done|]. rewrite <-Hb in Hm. cbn in Hm. rewrite !append_length in Hm. lia.
Qed.

(** A payload as a provider sends it: one line of JSON. *)
Definition json_payload (p : string) : Prop := plain_payload p ∧ is_json p = true ∧ strip_prefix "data:" p = None.

Lemma event_no_cr p : plain_payload p → no_byte CR (event_frame p).
Proof. intros (_ & HC & _). unfold event_frame. by rewrite !no_byte_app. Qed.
Lemma stream_no_cr payloads : Forall json_payload payloads → no_byte CR (event_stream payloads).
Proof.
  induction 1 as [|p l [Hp _] _ IH]; [done|]. cbn [event_stream]. apply no_byte_app. split; [by apply event_no_cr|done].
Qed.

Lemma sse_next_event pieces buffer p rest :
  json_payload p → no_byte CR rest → buffer +:+ concat_bytes pieces = event_frame p +:+ rest →
  (N.of_nat (String.length (event_frame p +:+ rest)) ≤ MAX_PROVIDER_RESPONSE_BYTES)%N →
  ∃ pieces' buffer', sse_body_stream (pieces_of pieces buffer) = (Some (Ok p), pieces_of pieces' buffer')
    ∧ buffer' +:+ concat_bytes pieces' = rest.
Proof.
  intros (Hp & Hj & _) Hr Hb Hm. pose proof Hp as (HL & HC & _).
  destruct (sse_front (S (sse_measure (pieces_of pieces buffer))) pieces buffer p rest ltac:(lia) HL HC Hb Hm)
    as (fuel & pieces' & buffer' & Hpoll & _ & tail & -> & Ht).
  exists pieces', tail. split; [|done]. unfold sse_body_stream. rewrite Hpoll. cbn [sse_poll]. unfold sse_turn. cbn [pieces_of sx_buffer].
  rewrite sse_event; [done..|]. apply no_byte_app. split; [by apply event_no_cr|].
  rewrite <-Ht in Hr. by apply no_byte_app in Hr as [? _].
Qed.

Lemma sse_next_end pieces buffer :
  buffer +:+ concat_bytes pieces = event_frame "[DONE]" → (sse_body_stream (pieces_of pieces buffer)).1 = None.
Proof.
  intros Hb. rewrite <-(append_nil_r (event_frame "[DONE]")) in Hb.
  destruct (sse_front (S (sse_measure (pieces_of pieces buffer))) pieces buffer "[DONE]" "" ltac:(lia)
    eq_refl eq_refl Hb ltac:(vm_compute; discriminate)) as (fuel & pieces' & buffer' & Hpoll & _ & tail & -> & Ht).
  assert (tail = "") as -> by (by destruct tail).
  unfold sse_body_stream. rewrite Hpoll. cbn [sse_poll]. unfold sse_turn. cbn [pieces_of sx_buffer]. by rewrite sse_end.
Qed.

(** The items of the stream, up to [n] of them, as the SDK's reader meets them. *)
Fixpoint provider_events (n : nat) (s : SseState) : list StreamEvent :=
  match n with
  | O => []
  | S n => match sse_body_stream s with
           | (None, _) => []
           | (Some (Ok data), s) => Bytes data :: provider_events n s
           | (Some (Err _), s) => Failed :: provider_events n s
           end
  end.

Lemma sse_payloads payloads pieces buffer n :
  Forall json_payload payloads → buffer +:+ concat_bytes pieces = event_stream payloads →
  (N.of_nat (String.length (event_stream payloads)) ≤ MAX_PROVIDER_RESPONSE_BYTES)%N → (length payloads < n)%nat →
  provider_events n (pieces_of pieces buffer) = map Bytes payloads.
Proof.
  intros Hp. revert pieces buffer n. induction Hp as [|p l Hp Hl IH]; intros pieces buffer n Hb Hm Hn;
    (destruct n as [|n]; [cbn in Hn; lia|]); cbn [provider_events].
  - pose proof (sse_next_end _ _ Hb) as E. by destruct (sse_body_stream _) as [[?|] ?].
  - destruct (sse_next_event pieces buffer p (event_stream l) Hp (stream_no_cr l Hl) Hb Hm) as (pieces' & buffer' & -> & Hb').
    cbn [map]. f_equal. apply IH; [done| |cbn in Hn; lia]. cbn [event_stream] in Hm. rewrite append_length in Hm. lia.
Qed.

(** ** The SDK's reader over the provider's stream *)

Context {laws : ChunkReaderLaws}.

Lemma take_empty s eof : cs_buffer s = "" → take_buffered_chunk s eof = (None, s).
Proof.
  pose proof (data_not_json "" "data:" ltac:(done) eq_refl) as He. intros Hb. unfold take_buffered_chunk. rewrite Hb. cbn.
  unfold take_partial. rewrite Hb. cbn.
  destruct (chunk_from_slice "") as [c|] eqn:E; [apply chunk_is_json in E; congruence|]. rewrite He. by destruct eof.
Qed.

Lemma payload_next s p chunk events :
  cs_done s = false → cs_buffer s = "" → json_payload p → chunk_from_slice p = Some chunk →
  (N.of_nat (String.length p) ≤ MAX_STREAM_BUFFER_BYTES)%N →
  ∃ s', next s (Bytes p :: events) = (Some (Ok chunk), s', events) ∧ cs_done s' = false ∧ cs_buffer s' = "".
Proof.
  intros Hd Hb (Hp & Hj & Hs) Hc Hm. cbn [next]. rewrite Hd.
  rewrite take_empty by done.
  rewrite Hd, Hb. change ("" +:+ p) with p.
  assert (take_buffered_chunk (with_buffer p s) false
          = (Some (record_chunk (with_buffer "" (with_buffer p s)) chunk).1,
             (record_chunk (with_buffer "" (with_buffer p s)) chunk).2)) as E.
  { destruct Hp as (HL & HC & _ & Hne). unfold take_buffered_chunk. cbn [with_buffer cs_buffer].
    rewrite (proj2 (N.ltb_ge _ _)) by exact Hm. cbn [take_loop with_buffer cs_buffer]. unfold find_frame.
    rewrite no_cr_position by done. assert (position LFLF p = None) as ->.
    { destruct (position LFLF p) eqn:E; [|done]. apply position_Some in E as (a & b & -> & _).
      rewrite !no_byte_app in HL. by destruct HL as (_ & HL & _). }
    unfold take_partial. cbn [with_buffer cs_buffer]. rewrite Hs, bool_decide_false, Hc by done.
    by destruct (record_chunk _ chunk). }
  destruct (record_chunk _ chunk) as [item s'] eqn:Er. cbn [fst snd] in E. pose proof Er as [-> Hdone]%record_chunk_ok.
  exists s'. split; [|split].
  - destruct events as [|e events]; cbn [next]; cbn [with_buffer cs_done]; by rewrite Hd, E.
  - rewrite Hdone. done.
  - revert Er. unfold record_chunk. destruct (ch_usage chunk); [case_match|]; by intros [= <-].
Qed.

(** The chunks a list of payloads stands for. *)
Definition chunks_of (payloads : list string) (chunks : list ChatCompletionChunk) : Prop :=
  Forall2 (λ p c, json_payload p ∧ chunk_from_slice p = Some c) payloads chunks.

Lemma calls_payloads payloads chunks s :
  chunks_of payloads chunks → cs_done s = false → cs_buffer s = "" →
  (N.of_nat (String.length (event_stream payloads)) ≤ MAX_STREAM_BUFFER_BYTES)%N →
  calls (S (length chunks)) s (map Bytes payloads) = (map (λ c, Some (Ok c)) chunks ++ [None])%list.
Proof.
  intros H. revert s. induction H as [|p c payloads chunks [Hp Hc] _ IH]; intros s Hd Hb Hm.
  - cbn [length calls map next]. rewrite Hd, take_empty, Hd by done. by rewrite (take_empty (finished s) true).
  - cbn [event_stream] in Hm. unfold event_frame in Hm. rewrite !append_length in Hm.
    destruct (payload_next s p c (map Bytes payloads) Hd Hb Hp Hc ltac:(lia)) as (s' & Hn & Hd' & Hb').
    change (calls (S (length (c :: chunks))) s (map Bytes (p :: payloads)))
      with (let '(item, s, events) := next s (Bytes p :: map Bytes payloads) in item :: calls (S (length chunks)) s events).
    rewrite Hn. cbn [map app]. f_equal. apply IH; [done..|lia].
Qed.

(** C32: a streaming chat in the framing the providers use is delivered end to end: when
    a provider sends chunks as events of one line [data: <JSON>] each, closed by LF LF,
    and then [data: [DONE]], at most 64 MiB in all, the caller of the SDK's stream
    receives exactly these chunks in order and then the end, however the bytes are cut
    on the way. Streams that mix LF LF with CR LF CR LF are outside it: there the cut
    matters ([mixed_line_endings_lose_events]). *)
Theorem chat_stream_delivered payloads chunks pieces n :
  chunks_of payloads chunks → concat_bytes pieces = event_stream payloads →
  (N.of_nat (String.length (event_stream payloads)) ≤ MAX_PROVIDER_RESPONSE_BYTES)%N → (length payloads < n)%nat →
  calls (S (length chunks)) new_stream (provider_events n (pieces_of pieces ""))
  = (map (λ c, Some (Ok c)) chunks ++ [None])%list.
Proof.
  intros Hc Hb Hm Hn. rewrite (sse_payloads payloads); [by apply calls_payloads| |done..].
  eapply Forall2_Forall_l; [exact Hc|]. apply list.Forall_forall. naive_solver.
Qed.
End Sse.

(** ** Concrete streams *)

#[local] Existing Instance sample_chunk_reader.
#[local] Existing Instance sample_chunk_laws.

Lemma chat_stream_delivered_witness :
  calls 3 new_stream (provider_events 9 (pieces_of sample_pieces ""))
  = [Some (Ok (sample_chunk "a")); Some (Ok (sample_chunk "b")); None].
Proof.
  refine (chat_stream_delivered ["a"; "b"] [sample_chunk "a"; sample_chunk "b"] sample_pieces 9 _ _ _ _).
  - repeat constructor; discriminate.
  - vm_compute. reflexivity.
  - vm_compute. discriminate.
  - cbn. lia.
Defined.

(** A comment frame is dropped and the data frame after it returned. *)
Definition pinged : SseState := pieces_of [": ping" +:+ LFLF; "data: a" +:+ LFLF] "".
Lemma sse_poll_terminates_witness :
  ∃ item s', sse_body_stream pinged = (item, s') ∧ sse_poll (S (sse_measure pinged)) pinged = Some (item, s') ∧ item = Some (Ok "a").
Proof.
  destruct (sse_poll_terminates pinged ltac:(vm_compute; discriminate)) as (turns & last & item & s' & _ & _ & _ & Hp & Hs & _).
  exists item, s'. split_and!; [exact Hs|exact Hp|]. vm_compute in Hp. by injection Hp as <- _.
Defined.

(** The provider's stream loses events that end in different line endings
    when they arrive in one piece: of an event closed by LF LF and one closed by
    CR LF CR LF both are delivered when they arrive apart, and only the first
    when they arrive together, without an error. *)
Theorem mixed_line_endings_lose_events :
  let a := "data: a" +:+ LFLF in
  let b := "data: b" +:+ CRLFCRLF in
  provider_events 9 (pieces_of [a; b] "") = [Bytes "a"; Bytes "b"]
  ∧ provider_events 9 (pieces_of [a +:+ b] "") = [Bytes "a"].
Proof. vm_compute. by split. Qed.
