(* ===== verification/HttpProviders.v ===== *)
(** * HTTP provider adapters

    providers/http.rs and providers/near.rs: the plain OpenAI-compatible adapter,
    and the Tinfoil and NEAR adapters, which capture the TLS identity of the
    evidence endpoint and send a prompt only over a connection pinned to it. *)

From Stdlib Require Import Ascii String ZArith Lia.
From stdpp Require Import base gmap strings list numbers fin_maps relations.
From S2P Require Import Prelude RustStr Errors Collections Canonical Bindings EvidenceDocuments TinfoilVerifier Redpill.
From S2P Require Import Registry ProviderRequest Compatibility ChatStream Effects ClientVerify HttpTransport HttpStream.

Open Scope string_scope.

(** ** Routes and URLs *)

Definition ensure_route_provider (route : RouteDefinition) (provider : string) : ProviderResult unit :=
  if rd_provider route =?= provider then Ok tt
  else Err (Adapter "route {} belongs to provider {}, not {}").

Definition require_https_url (url : string) : ProviderResult unit :=
  if starts_with "https://" url then Ok tt
  else Err (Compatibility "route {route_id} {field} must use https for live Tinfoil").

Definition ensure_tinfoil_route (route : RouteDefinition) (provider : string) : ProviderResult unit :=
  _ ← ensure_route_provider route provider;
  bail (Compatibility "route {} uses evidence family {}, not tinfoil_hw_verified_tls")
    when negb (rd_evidence_family route =?= "tinfoil_hw_verified_tls");
  _ ← require_https_url (rd_api_base_url route);
  _ ← require_https_url (rd_evidence_endpoint route);
  Ok tt.

(** The loopback exception is compiled into the crate's own tests only. *)
Definition https_or_test_loopback (url : string) : bool := starts_with "https://" url.

Definition ensure_near_route (route : RouteDefinition) (provider : string) : ProviderResult unit :=
  bail (Adapter "route {} belongs to provider {}, not {}") when negb (rd_provider route =?= provider);
  bail (Compatibility "route {} is not a NEAR hardware-verified TLS route")
    when negb (rd_evidence_family route =?= "near_hw_verified_tls");
  bail (Compatibility "route {} {field} must use https") when negb (https_or_test_loopback (rd_api_base_url route));
  bail (Compatibility "route {} {field} must use https") when negb (https_or_test_loopback (rd_evidence_endpoint route));
  Ok tt.

(** [s.trim_end_matches('/')]. *)
Fixpoint trim_end_slashes (s : string) : string :=
  match s with
  | "" => ""
  | String c s => match trim_end_slashes s with
                  | "" => if c =?= "/"%char then "" else String c ""
                  | t => String c t
                  end
  end.

Definition chat_completions_url (api_base_url : string) : ProviderResult string :=
  bail (Compatibility "route api_base_url is empty") when is_empty (trim api_base_url);
  Ok (trim_end_slashes api_base_url +:+ "/chat/completions").
Definition embeddings_url (api_base_url : string) : ProviderResult string :=
  bail (Compatibility "route api_base_url is empty") when is_empty (trim api_base_url);
  Ok (trim_end_slashes api_base_url +:+ "/embeddings").

Definition validate_nonce (nonce : string) : ProviderResult unit :=
  if (String.length nonce =? 64)%nat && all_bytes is_ascii_hexdigit nonce then Ok tt
  else Err (Adapter "NEAR evidence nonce must be exactly 32 bytes of hex").

(** [body["stream"] = true]; indexing anything but an object or null panics. *)
Definition with_stream_flag (body : Value) : ProviderResult Value :=
  match body with
  | VObject fields => Ok (VObject (insert_member "stream" (VBool true) fields))
  | VNull => Ok (VObject [("stream", VBool true)])
  | _ => Err (Adapter "panic: cannot access key in JSON value")
  end.

(** ** State *)

(** [OpenAiHttpProvider] without its routes, which only the trait's [routes] reads. *)
Record HttpProviderConfig := { op_provider_id : string; op_api_key : option string; op_client : HttpClient }.

(** The evidence client of an attested transport, and the client of a plain one. *)
Definition evidence_client : HttpClient := {| hc_pin := None; hc_tls_info := true |}.
Definition plain_client : HttpClient := {| hc_pin := None; hc_tls_info := false |}.

(** The captured identities, the pinned clients and the network. *)
Record HttpAdapter := {
  ha_tls_state : EvidenceStateStore LiveTlsPeer;
  ha_pinned_clients : PinnedSpkiClientCache;
  ha_net : Net;
}.
Definition new_adapter (net : Net) : HttpAdapter := {|
  ha_tls_state := store_new; ha_pinned_clients := {| px_clients := ∅; px_sequence := 0 |}; ha_net := net |}.

Definition on_net {E A} (m : eff Net E A) : eff HttpAdapter E A := λ s,
  let '(r, net) := m (ha_net s) in
  (r, {| ha_tls_state := ha_tls_state s; ha_pinned_clients := ha_pinned_clients s; ha_net := net |}).
Definition remember_peer (route_id digest : string) (peer : LiveTlsPeer) {E} : eff HttpAdapter E unit := λ s,
  (Ok tt, {| ha_tls_state := store_insert route_id digest peer (ha_tls_state s);
             ha_pinned_clients := ha_pinned_clients s; ha_net := ha_net s |}).

Section Providers.
Context {prim : Primitives} {x509 : CertificateReader} {platform : PlatformVerifier} {crypto : RequestCrypto}.
(** The outcome of the HTTP client builder, and the JSON forms of responses. *)
Context (built : ProviderResult unit) {Chat Emb : Type}.
Context (chat_from_slice : string → option Chat) (embeddings_from_slice : string → option Emb).
Context (response_from_slice : string → option SdkEncryptedChatResponseEnvelope).

Definition get_pinned_client (expected_spki_sha256 : string) : eff HttpAdapter ProviderError HttpClient := λ s,
  let '(r, pins) := pinned_client built expected_spki_sha256 (ha_pinned_clients s) in
  (r, {| ha_tls_state := ha_tls_state s; ha_pinned_clients := pins; ha_net := ha_net s |}).
Definition lookup_peer (route : RouteDefinition) (request : ProviderChatRequest)
    : eff HttpAdapter ProviderError LiveTlsPeer := λ s, (lookup_for_request route request (ha_tls_state s), s).

(** ** The OpenAI-compatible adapter *)

Section OpenAi.
Context (config : HttpProviderConfig).

Definition http_get (url : string) (query : list (string * string)) : HttpRequest := {|
  hr_method := "GET"; hr_url := url; hr_query := query; hr_body := None; hr_bearer := op_api_key config |}.
Definition http_post (url : string) (body : Value) : HttpRequest := {|
  hr_method := "POST"; hr_url := url; hr_query := []; hr_body := Some body; hr_bearer := op_api_key config |}.

Definition fetch_evidence_bytes_with_query (route : RouteDefinition) (query : list (string * string))
    : eff Net ProviderError string :=
  _ ← pure_result (ensure_route_provider route (op_provider_id config));
  response ← map_eff_err (λ _, Http "{error}") (send (op_client config) (http_get (rd_evidence_endpoint route) query));
  pure_result (checked_response_bytes response).

Definition post_chat (route : RouteDefinition) (request : ProviderChatRequest) (client : HttpClient)
    : eff Net ProviderError (string * option LiveTlsPeer) :=
  _ ← pure_result (ensure_route_provider route (op_provider_id config));
  _ ← pure_result match pq_confidentiality request with
      | FixtureEncrypted => Err (Adapter "fixture-encrypted requests cannot be sent through live HTTP providers")
      | AdapterManagedEncrypted =>
          Err (Adapter "adapter-managed encrypted requests require a provider-specific live adapter")
      | Plaintext | SdkEncrypted => Ok tt
      end;
  url ← pure_result (chat_completions_url (rd_api_base_url route));
  response ← map_eff_err (map_send_error (rd_route_id route)) (send client (http_post url (pq_body request)));
  pure_result (capture_response response).

Definition post_embeddings (route : RouteDefinition) (request : ProviderChatRequest) (client : HttpClient)
    : eff Net ProviderError (string * option LiveTlsPeer) :=
  _ ← pure_result (ensure_route_provider route (op_provider_id config));
  _ ← pure_result match pq_confidentiality request with
      | FixtureEncrypted | AdapterManagedEncrypted =>
          Err (Adapter "encrypted embeddings require a provider-specific live adapter")
      | Plaintext | SdkEncrypted => Ok tt
      end;
  url ← pure_result (embeddings_url (rd_api_base_url route));
  response ← map_eff_err (map_send_error (rd_route_id route)) (send client (http_post url (pq_body request)));
  pure_result (capture_response response).

Definition open_chat_stream (route : RouteDefinition) (request : ProviderChatRequest) (client : HttpClient)
    : eff Net ProviderError (HttpResponse * option LiveTlsPeer) :=
  _ ← pure_result (ensure_route_provider route (op_provider_id config));
  _ ← pure_result (bail (Adapter "streaming requires a plaintext provider channel")
                     when negb (pq_confidentiality request =?= Plaintext); Ok tt);
  body ← pure_result (with_stream_flag (pq_body request));
  url ← pure_result (chat_completions_url (rd_api_base_url route));
  response ← map_eff_err (map_send_error (rd_route_id route)) (send client (http_post url body));
  tls_peer ← pure_result (response_tls_peer response);
  _ ← pure_result (bail (HttpStatus (hp_status response) "chat completions streaming request was rejected")
                     when negb (is_success (hp_status response)); Ok tt);
  mret (response, tls_peer).

Definition opened_stream (response : HttpResponse) : SseState :=
  {| sx_bytes := hp_chunks response; sx_buffer := "" |}.

Definition decoded {A} (from_slice : string → option A) (request : ProviderChatRequest) (route : RouteDefinition)
    (body : string) : ProviderResult A :=
  body ← decrypt_sdk_response_body response_from_slice request route body;
  ok_or (from_slice body) (JsonError "{error}").

Definition openai_chat (route : RouteDefinition) (request : ProviderChatRequest) : eff Net ProviderError Chat :=
  '(body, _) ← post_chat route request (op_client config);
  pure_result (decoded chat_from_slice request route body).
Definition openai_chat_stream (route : RouteDefinition) (request : ProviderChatRequest)
    : eff Net ProviderError SseState :=
  '(response, _) ← open_chat_stream route request (op_client config);
  mret (opened_stream response).
Definition openai_embeddings (route : RouteDefinition) (request : ProviderChatRequest) : eff Net ProviderError Emb :=
  '(body, _) ← post_embeddings route request (op_client config);
  pure_result (decoded embeddings_from_slice request route body).

(** ** The Tinfoil adapter *)

Context (capture_to_vec : TinfoilLiveCaptureEvidence → option string).

Definition tinfoil_capture (route : RouteDefinition) (request : EvidenceRequest) (peer : LiveTlsPeer) (body : string)
    : TinfoilLiveCaptureEvidence := {|
  tl_schema := TINFOIL_LIVE_SCHEMA; tl_provider := rd_provider route; tl_route_id := rd_route_id route;
  tl_evidence_family := rd_evidence_family route; tl_requested_model := er_requested_model request;
  tl_policy_digest := er_policy_digest request; tl_nonce := er_nonce request;
  tl_evidence_endpoint := rd_evidence_endpoint route; tl_live_tls_spki_sha256 := lp_spki_sha256 peer;
  tl_live_tls_leaf_certificate_der_base64 := standard_encode (lp_leaf_certificate_der peer);
  tl_raw_attestation_body_base64 := standard_encode body |}.

Definition tinfoil_fetch_evidence (route : RouteDefinition) (request : EvidenceRequest)
    : eff HttpAdapter ProviderError string :=
  _ ← pure_result (ensure_tinfoil_route route (op_provider_id config));
  response ← map_eff_err (λ _, Http "{error}")
               (on_net (send evidence_client (http_get (rd_evidence_endpoint route) [])));
  tls_peer ← pure_result (require_tls_peer response);
  body ← pure_result (checked_response_bytes response);
  serialized ← pure_result (ok_or (capture_to_vec (tinfoil_capture route request tls_peer body)) (JsonError "{error}"));
  _ ← remember_peer (rd_route_id route) (sha256_digest serialized) tls_peer;
  mret serialized.

(** The peer observed after the exchange must be the expected one. *)
Definition check_observed (expected : LiveTlsPeer) (observed : option LiveTlsPeer) : ProviderResult unit :=
  observed_tls ← ok_or observed (Compatibility "route {} response did not expose a live TLS certificate");
  bail (Adapter "route {} live TLS SPKI changed between evidence and chat despite the handshake pin")
    when negb (lp_spki_sha256 observed_tls =?= lp_spki_sha256 expected); Ok tt.

Definition tinfoil_chat (route : RouteDefinition) (request : ProviderChatRequest) : eff HttpAdapter ProviderError Chat :=
  _ ← pure_result (ensure_tinfoil_route route (op_provider_id config));
  expected_tls ← lookup_peer route request;
  client ← get_pinned_client (lp_spki_sha256 expected_tls);
  '(body, observed_tls) ← on_net (post_chat route request client);
  _ ← pure_result (check_observed expected_tls observed_tls);
  pure_result (decoded chat_from_slice request route body).

Definition tinfoil_embeddings (route : RouteDefinition) (request : ProviderChatRequest)
    : eff HttpAdapter ProviderError Emb :=
  _ ← pure_result (ensure_tinfoil_route route (op_provider_id config));
  expected_tls ← lookup_peer route request;
  client ← get_pinned_client (lp_spki_sha256 expected_tls);
  '(body, observed_tls) ← on_net (post_embeddings route request client);
  _ ← pure_result (check_observed expected_tls observed_tls);
  pure_result (decoded embeddings_from_slice request route body).

Definition tinfoil_chat_stream (route : RouteDefinition) (request : ProviderChatRequest)
    : eff HttpAdapter ProviderError SseState :=
  _ ← pure_result (ensure_tinfoil_route route (op_provider_id config));
  expected_tls ← lookup_peer route request;
  client ← get_pinned_client (lp_spki_sha256 expected_tls);
  '(response, observed_tls) ← on_net (open_chat_stream route request client);
  _ ← pure_result (check_observed expected_tls observed_tls);
  mret (opened_stream response).
End OpenAi.

(** ** The NEAR adapter *)

Section Near.
Context (provider_id api_key : string).
(** The remote NRAS client, when one is configured. *)
Context (nras_client : option (NvidiaGpuAttestationEvidence → eff Net ProviderError NvidiaGpuAttestationEvidence)).
(** [serde_json]: the evidence document, and the report's [nvidia_payload]. *)
Context (near_to_vec : NearLiveEvidence → option string) (near_report_from_slice : string → option (option string)).

Definition string_member (key : string) (v : Value) : option string :=
  match value_get key v with Some (VString s) => Some s | _ => None end.

Definition gpu_attestation (nvidia_payload : option string)
    : eff HttpAdapter ProviderError (option NvidiaGpuAttestationEvidence) :=
  match nvidia_payload with
  | None => mret None
  | Some payload =>
      payload_value ← pure_result (ok_or (value_of_slice payload) (Adapter "NEAR NVIDIA payload is invalid JSON: {error}"));
      payload_bytes ← pure_result (ok_or (value_to_vec payload_value) (JsonError "{error}"));
      nonce ← pure_result (ok_or (match string_member "nonce" payload_value with
                                  | Some nonce => if is_empty (trim nonce) then None else Some nonce
                                  | None => None
                                  end) (Adapter "NEAR NVIDIA payload has no nonce"));
      let evidence := {|
        ng_schema := NVIDIA_EVIDENCE_SCHEMA; ng_attestation_format := NRAS_GPU_EVIDENCE_V3; ng_nonce := nonce;
        ng_arch := string_member "arch" payload_value; ng_payload_sha256 := Some (sha256_digest payload_bytes);
        ng_raw_payload_base64 := Some (standard_encode payload_bytes); ng_nras_token := None |} in
      match nras_client with
      | Some attest_gpu_evidence => attested ← on_net (attest_gpu_evidence evidence); mret (Some attested)
      | None => mret (Some evidence)
      end
  end.

Definition near_request (method url : string) (query : list (string * string)) (body : option Value) : HttpRequest := {|
  hr_method := method; hr_url := url; hr_query := query; hr_body := body; hr_bearer := Some api_key |}.

Definition near_capture (route : RouteDefinition) (request : EvidenceRequest) (nonce : string) (peer : LiveTlsPeer)
    (body : string) (gpu : option NvidiaGpuAttestationEvidence) : NearLiveEvidence := {|
  nl_schema := NEAR_LIVE_SCHEMA; nl_provider := rd_provider route; nl_route_id := rd_route_id route;
  nl_evidence_family := rd_evidence_family route; nl_requested_model := er_requested_model request;
  nl_policy_digest := er_policy_digest request; nl_request_nonce := nonce;
  nl_evidence_endpoint := rd_evidence_endpoint route; nl_live_tls_spki_sha256 := lp_spki_sha256 peer;
  nl_live_tls_leaf_certificate_der_base64 := standard_encode (lp_leaf_certificate_der peer);
  nl_raw_attestation_body_base64 := standard_encode body; nl_gpu_attestation := gpu |}.

Definition near_fetch_evidence (route : RouteDefinition) (request : EvidenceRequest)
    : eff HttpAdapter ProviderError string :=
  _ ← pure_result (ensure_near_route route provider_id);
  nonce ← pure_result (ok_or (er_nonce request) (Compatibility "NEAR live evidence requires a per-request 32-byte nonce"));
  _ ← pure_result (validate_nonce nonce);
  response ← map_eff_err (λ _, Http "{error}") (on_net (send evidence_client
               (near_request "GET" (rd_evidence_endpoint route)
                  [("signing_algo", "ecdsa"); ("nonce", nonce); ("include_tls_fingerprint", "true")] None)));
  tls_peer ← pure_result (require_tls_peer response);
  body ← pure_result (checked_response_bytes response);
  nvidia_payload ← pure_result (ok_or (near_report_from_slice body) (JsonError "{error}"));
  gpu ← gpu_attestation nvidia_payload;
  serialized ← pure_result (ok_or (near_to_vec (near_capture route request nonce tls_peer body gpu)) (JsonError "{error}"));
  _ ← remember_peer (rd_route_id route) (sha256_digest serialized) tls_peer;
  mret serialized.

Definition near_chat (route : RouteDefinition) (request : ProviderChatRequest) : eff HttpAdapter ProviderError Chat :=
  _ ← pure_result (ensure_near_route route provider_id);
  _ ← pure_result (bail (Compatibility "NEAR direct-endpoint chat must use the attested TLS channel")
                     when negb (pq_confidentiality request =?= Plaintext); Ok tt);
  expected_tls ← lookup_peer route request;
  client ← get_pinned_client (lp_spki_sha256 expected_tls);
  response ← on_net (map_eff_err (map_send_error (rd_route_id route)) (send client
               (near_request "POST" (trim_end_slashes (rd_api_base_url route) +:+ "/chat/completions") []
                  (Some (pq_body request)))));
  observed_tls ← pure_result (require_tls_peer response);
  _ ← pure_result (bail (Adapter "route {} NEAR TLS SPKI changed between attestation and chat despite the handshake pin")
                     when negb (lp_spki_sha256 observed_tls =?= lp_spki_sha256 expected_tls); Ok tt);
  body ← pure_result (checked_response_bytes response);
  pure_result (ok_or (chat_from_slice body) (JsonError "{error}")).
End Near.
End Providers.

(** ** What is sent, and to whom *)

Section Channel.
Context {prim : Primitives} {x509 : CertificateReader} {platform : PlatformVerifier}.

(** The effect of one exchange on what was sent. *)
Lemma send_sent client request net r net' :
  send client request net = (r, net') →
  (nt_sent net' = nt_sent net ∧ is_ok r = false)
  ∨ (∃ peer, nt_sent net' = (nt_sent net ++ [{| dl_request := request; dl_peer := peer |}])%list
      ∧ r ≠ Err PinMismatch
      ∧ (is_https (hr_url request) = true → ∃ certificate, peer = Some certificate
           ∧ platform_verify (hr_url request) certificate = true
           ∧ ∀ pin, hc_pin client = Some pin → certificate_spki_sha256_hex certificate = Ok pin)
      ∧ ∀ response, r = Ok response → hp_peer_certificate response = if hc_tls_info client then peer else None).
Proof.
  unfold send. destruct (nt_script net) as [|e rest]; [intros [= <- <-]; by left|].
  destruct e as [|certificate reply|reply]; destruct (is_https (hr_url request)) eqn:Eh; try (intros [= <- <-]; by left).
  - unfold verify_server_cert. destruct (platform_verify _ certificate) eqn:Ep; cbn [negb]; [|intros [= <- <-]; by left].
    destruct (hc_pin client) as [pin|] eqn:Epin.
    + destruct (certificate_spki_sha256_hex certificate) as [spki|] eqn:Es; [|intros [= <- <-]; by left].
      case_bool_decide as Eq; [|intros [= <- <-]; by left]. subst spki. intros [= <- <-]. right. exists (Some certificate).
      split; [done|]. split; [by destruct reply|]. split; [|by intros ? H; destruct reply; simplify_eq].
      intros _. exists certificate. split_and!; try done. by intros ? [= <-].
    + intros [= <- <-]. right. exists (Some certificate). split; [done|]. split; [by destruct reply|].
      split; [|by intros ? H; destruct reply; simplify_eq]. intros _. exists certificate. by split_and!.
  - intros [= <- <-]. right. exists None. split; [done|]. split; [by destruct reply|]. split; [done|].
    by intros ? H; destruct reply; simplify_eq.
Qed.

(** *** Pinned clients *)

Record pins_ok (cache : PinnedSpkiClientCache) : Prop := {
  po_pinned k n client : px_clients cache !! k = Some (n, client) → client = {| hc_pin := Some k; hc_tls_info := true |};
  po_bound : (size (px_clients cache) ≤ MAX_PINNED_CLIENTS)%nat;
}.

Lemma make_room_spec clients :
  (size clients ≤ MAX_PINNED_CLIENTS)%nat → make_room clients ⊆ clients ∧ (size (make_room clients) < MAX_PINNED_CLIENTS)%nat.
Proof.
  unfold make_room. intros Hb. destruct (Nat.leb_spec MAX_PINNED_CLIENTS (size clients)) as [Hf|Hf]; [|done].
  destruct (min_by_exists older_client (btree_iter clients)) as [[oldest e] Eo].
  { intros Hn. apply (f_equal length) in Hn. rewrite btree_iter_length in Hn. unfold MAX_PINNED_CLIENTS in Hf. cbn in Hn. lia. }
  rewrite Eo. apply (min_by_Some older_client (order := number_order _)) in Eo as [Hin%btree_iter_elem_of _].
  split; [apply delete_subseteq|]. rewrite map_size_delete_Some by eauto. unfold MAX_PINNED_CLIENTS in *. lia.
Qed.

Lemma pinned_client_ok built pin cache r cache' :
  pins_ok cache → pinned_client built pin cache = (r, cache') →
  pins_ok cache' ∧ ∀ client, r = Ok client → client = {| hc_pin := Some pin; hc_tls_info := true |}.
Proof.
  intros [Hp Hb]. unfold pinned_client. destruct (px_clients cache !! pin) as [[n client]|] eqn:E.
  { intros [= <- <-]. split; [done|]. intros ? [= <-]. by eapply Hp. }
  unfold transport_client. destruct built as [[]|e]; [rewrite ok_bind|by intros [= <- <-]].
  destruct (make_room_spec _ Hb) as [Hs Hl].
  intros [= <- <-]. split; [|by intros ? [= <-]]. constructor; cbn [px_clients].
  - intros k n client [[<- [= _ <-]]|[_ H]]%lookup_insert_Some; [done|]. apply (Hp k n client). by apply (lookup_weaken _ _ _ _ H).
  - rewrite map_size_insert_None; [lia|]. destruct (make_room _ !! pin) eqn:E'; [|done].
    apply (lookup_weaken _ (px_clients cache)) in E'; [congruence|done].
Qed.

(** *** Errors raised once bytes may have left *)

Definition late {A} (r : ProviderResult A) : Prop := ∀ e, r = Err e → chat_dispatch_outcome e ≠ NotDispatched.

Lemma late_Ok {A} (a : A) : late (Ok a).
Proof. done. Qed.
Lemma late_Err {A} e : chat_dispatch_outcome e ≠ NotDispatched → late (A := A) (Err e).
Proof. by intros H ? [= <-]. Qed.
Lemma late_transfer {A B} (m : ProviderResult A) e : Err e = m → late m → late (A := B) (Err e).
Proof. intros <- H. apply late_Err. by apply H. Qed.
Lemma late_bind {A B} (m : ProviderResult A) (k : A → ProviderResult B) : late m → (∀ a, late (k a)) → late (m ≫= k).
Proof. destruct m as [a|e']; cbn; [eauto|]. intros H _ e [= <-]. by apply H. Qed.
Lemma late_guard {A} (c : bool) e (k : ProviderResult A) : chat_dispatch_outcome e ≠ NotDispatched → late k → late (bail e when c; k).
Proof. destruct c; [|done]. intros H _. by apply late_Err. Qed.
Lemma late_if {A} (c : bool) (k k' : ProviderResult A) : late k → late k' → late (if c then k else k').
Proof. by destruct c. Qed.
Lemma late_ok_or {A} (o : option A) e : chat_dispatch_outcome e ≠ NotDispatched → late (ok_or o e).
Proof. destruct o; [done|]. apply late_Err. Qed.
Lemma late_map_err {A E} (f : E → ProviderError) (r : result E A) :
  (∀ e, chat_dispatch_outcome (f e) ≠ NotDispatched) → late (map_err f r).
Proof. intros H. destruct r; cbn; [done|by apply late_Err]. Qed.
End Channel.

Create HintDb late.
#[export] Hint Resolve late_Ok late_Err late_bind late_guard late_if late_ok_or late_map_err : late.
#[export] Hint Extern 1 (chat_dispatch_outcome _ ≠ NotDispatched) => discriminate : late.
Ltac solve_late := eauto 30 with late.

Section Late.
Context {prim : Primitives} {x509 : CertificateReader} {crypto : RequestCrypto}.
Context (response_from_slice : string → option SdkEncryptedChatResponseEnvelope).

Lemma read_body_late body chunks : late (read_body body chunks).
Proof. revert body. induction chunks as [|[chunk|] chunks IH]; intros body; cbn; solve_late. Qed.
Hint Resolve read_body_late : late.
Lemma checked_late response : late (checked_response_bytes response).
Proof. unfold checked_response_bytes. solve_late. Qed.
Lemma peer_late response : late (response_tls_peer response).
Proof. unfold response_tls_peer. destruct (hp_peer_certificate response); solve_late. Qed.
Hint Resolve checked_late peer_late : late.
Lemma require_peer_late response : late (require_tls_peer response).
Proof. unfold require_tls_peer. solve_late. Qed.
Lemma capture_late response : late (capture_response response).
Proof. unfold capture_response. solve_late. Qed.
Lemma observed_late expected observed : late (check_observed expected observed).
Proof. unfold check_observed. solve_late. Qed.
Lemma decode_fixed_late n s : late (decode_fixed_base64 n s).
Proof. unfold decode_fixed_base64. solve_late. Qed.
Hint Resolve decode_fixed_late : late.
Lemma decrypt_late request route body : late (decrypt_sdk_response_body response_from_slice request route body).
Proof.
  unfold decrypt_sdk_response_body, response_decrypt_body, sdk_app_e2ee_response_aad, sdk_app_e2ee_context_json, open, json_error.
  solve_late.
Qed.
Hint Resolve decrypt_late : late.
Lemma decoded_late {A} (from_slice : string → option A) request route body :
  late (decoded response_from_slice from_slice request route body).
Proof. unfold decoded. solve_late. Qed.
End Late.
#[export] Hint Resolve read_body_late checked_late peer_late require_peer_late capture_late observed_late decoded_late : late.

(** *** URLs under an HTTPS base *)

Lemma trim_end_cons c s : c ≠ "/"%char → trim_end_slashes (String c s) = String c (trim_end_slashes s).
Proof. intros H. cbn. destruct (trim_end_slashes s); [by rewrite bool_decide_false|done]. Qed.
Lemma https_base_url base path : starts_with "https://" base = true → is_https (trim_end_slashes base +:+ path) = true.
Proof.
  unfold starts_with. destruct (strip_prefix "https://" base) as [rest|] eqn:E; [|done]. intros _.
  apply strip_prefix_Some in E as ->.
  rewrite !append_cons, !trim_end_cons by done. reflexivity.
Qed.

Section Attested.
Context {prim : Primitives} {x509 : CertificateReader} {platform : PlatformVerifier} {crypto : RequestCrypto}.
Context (built : ProviderResult unit).
(** Which identities were captured: for a route, under an evidence digest. *)
Context (captured : string → string → LiveTlsPeer → Prop).

Record adapter_inv (s : HttpAdapter) : Prop := {
  ai_pins : pins_ok (ha_pinned_clients s);
  ai_store route digest peer : store_get route digest (ha_tls_state s) = Some peer → captured route digest peer;
}.
Abbreviation sent s := (nt_sent (ha_net s)).
Definition failure {A} (r : ProviderResult A) : option ProviderError := match r with Ok _ => None | Err e => Some e end.

(** One request was delivered: a prompt of this request, to a URL under the
    route's base, over TLS to a server whose key is the one captured in the
    evidence the request was verified by; and the caller is not told that nothing
    was sent. *)
Definition delivered_to_attested (route : RouteDefinition) (request : ProviderChatRequest) (before after : list Delivery)
    (outcome : option ProviderError) : Prop :=
  ∃ d certificate digest peer, after = (before ++ [d])%list
    ∧ dl_peer d = Some certificate ∧ platform_verify (hr_url (dl_request d)) certificate = true
    ∧ (∃ path, hr_url (dl_request d) = trim_end_slashes (rd_api_base_url route) +:+ path)
    ∧ (hr_body (dl_request d) = Some (pq_body request) ∨ with_stream_flag (pq_body request) = ok_or (hr_body (dl_request d)) json_error)
    ∧ pq_verified_evidence_digest request = Some digest ∧ captured (rd_route_id route) digest peer
    ∧ certificate_spki_sha256_hex certificate = Ok (lp_spki_sha256 peer)
    ∧ ∀ e, outcome = Some e → chat_dispatch_outcome e ≠ NotDispatched.

(** What a post does with a client on the network. *)
Definition posts {B} (route : RouteDefinition) (request : ProviderChatRequest) (m : HttpClient → eff Net ProviderError B) : Prop :=
  ∀ client net r net', m client net = (r, net') →
    nt_sent net' = nt_sent net
    ∨ ∃ d, nt_sent net' = (nt_sent net ++ [d])%list ∧ late r
        ∧ (∃ path, hr_url (dl_request d) = trim_end_slashes (rd_api_base_url route) +:+ path)
        ∧ (hr_body (dl_request d) = Some (pq_body request) ∨ with_stream_flag (pq_body request) = ok_or (hr_body (dl_request d)) json_error)
        ∧ (is_https (hr_url (dl_request d)) = true → ∃ certificate, dl_peer d = Some certificate
             ∧ platform_verify (hr_url (dl_request d)) certificate = true
             ∧ ∀ pin, hc_pin client = Some pin → certificate_spki_sha256_hex certificate = Ok pin).

Lemma eff_bind_run {W E A B} (m : eff W E A) (k : A → eff W E B) w r w' :
  (m ≫= k) w = (r, w') →
  (∃ e, m w = (Err e, w') ∧ r = Err e) ∨ (∃ a w1, m w = (Ok a, w1) ∧ k a w1 = (r, w')).
Proof. unfold mbind, eff_bind. destruct (m w) as [[a|e] w1]; [eauto|]. intros [= <- <-]. eauto. Qed.

(** Sending, then reading the response. *)
Lemma posts_send {B} route request path body route_id (mk : string → Value → HttpRequest) (k : HttpResponse → eff Net ProviderError B) :
  (∀ url body, hr_url (mk url body) = url ∧ hr_body (mk url body) = Some body) →
  (body = pq_body request ∨ with_stream_flag (pq_body request) = Ok body) →
  (∀ response net r net', k response net = (r, net') → net' = net ∧ late r) →
  posts route request (λ client,
    response ← map_eff_err (map_send_error route_id)
                 (send client (mk (trim_end_slashes (rd_api_base_url route) +:+ path) body));
    k response).
Proof.
  intros Hmk Hbody Hk client net r net' H. destruct (Hmk (trim_end_slashes (rd_api_base_url route) +:+ path) body) as [Hu Hb].
  set (req := mk _ body) in *.
  assert (∀ rs net1, send client req net = (rs, net1) → (∃ e, rs = Err e ∧ r = Err (map_send_error route_id e) ∧ net' = net1)
            ∨ (∃ response, rs = Ok response ∧ late r ∧ net' = net1)) as Hrun.
  { intros rs net1 Hs. apply eff_bind_run in H as [(e & Hm & ->)|(response & w1 & Hm & Hr)];
      unfold map_eff_err in Hm; rewrite Hs in Hm; destruct rs as [response'|e']; simplify_eq/=; [left; eauto|].
    apply Hk in Hr as [-> Hl]. right. eauto. }
  destruct (send client req net) as [rs net1] eqn:Es. destruct (Hrun rs net1 eq_refl) as [(e & -> & -> & ->)|(response & -> & Hl & ->)];
    apply send_sent in Es as [[Hsame Hok]|(peer & Hsent & Hne & Htls & _)]; try (by left); right;
    exists {| dl_request := req; dl_peer := peer |}; cbn [dl_request dl_peer]; rewrite Hu, Hb; rewrite Hu in Htls.
  - split; [done|]. split.
    { apply late_Err. destruct e; [discriminate|done]. }
    split; [eauto|]. split; [|done]. cbn. destruct Hbody as [->|Hbody]; [by left|by right].
  - split; [done|]. split; [done|]. split; [eauto|]. split; [|done]. cbn. destruct Hbody as [->|Hbody]; [by left|by right].
Qed.

Lemma posts_send_only route request path route_id (mk : string → Value → HttpRequest) :
  (∀ url body, hr_url (mk url body) = url ∧ hr_body (mk url body) = Some body) →
  posts route request (λ client, map_eff_err (map_send_error route_id)
                                   (send client (mk (trim_end_slashes (rd_api_base_url route) +:+ path) (pq_body request)))).
Proof.
  intros Hmk client net r net' H.
  refine (posts_send route request path (pq_body request) route_id mk mret Hmk (or_introl eq_refl) _ client net r net' _).
  - intros response n r0 n' [= <- <-]. done.
  - unfold mbind, eff_bind. rewrite H. by destruct r.
Qed.

(** A check before sending. *)
Lemma posts_check {A B} route request (m : ProviderResult A) (k : A → HttpClient → eff Net ProviderError B) :
  (∀ a, m = Ok a → posts route request (k a)) → posts route request (λ client, a ← pure_result m; k a client).
Proof.
  intros Hk client net r net' [(e & [= _ <-] & _)|(a & w1 & [= Hm <-] & H)]%eff_bind_run; [by left|].
  by apply (Hk a Hm) in H.
Qed.

Lemma pure_run {W A} (m : ProviderResult A) (w : W) r w' : pure_result m w = (r, w') → w' = w ∧ r = m.
Proof. by intros [= <- <-]. Qed.

Lemma post_chat_posts config route request : posts route request (post_chat config route request).
Proof.
  unfold post_chat. do 2 (apply posts_check; intros [] _). apply (posts_check _ _ (chat_completions_url _)).
  unfold chat_completions_url. intros url Hu. inv_ok.
  apply (posts_send _ _ _ _ _ (http_post config)); [done|by left|]. intros response net r net' [-> ->]%pure_run.
  split; [done|solve_late].
Qed.
Lemma post_embeddings_posts config route request : posts route request (post_embeddings config route request).
Proof.
  unfold post_embeddings. do 2 (apply posts_check; intros [] _). apply (posts_check _ _ (embeddings_url _)).
  unfold embeddings_url. intros url Hu. inv_ok.
  apply (posts_send _ _ _ _ _ (http_post config)); [done|by left|]. intros response net r net' [-> ->]%pure_run.
  split; [done|solve_late].
Qed.
Lemma open_stream_posts config route request : posts route request (open_chat_stream config route request).
Proof.
  unfold open_chat_stream. do 2 (apply posts_check; intros [] _). apply (posts_check _ _ (with_stream_flag _)). intros body Hb.
  apply (posts_check _ _ (chat_completions_url _)). unfold chat_completions_url. intros url Hu. inv_ok.
  apply (posts_send _ _ _ _ _ (http_post config)); [done|by right|].
  intros response net r net' [(e & [-> He]%pure_run & ->)|(peer & w1 & [-> Hp]%pure_run & Hrest)]%eff_bind_run.
  { split; [done|]. eapply late_transfer; [exact He|solve_late]. }
  apply eff_bind_run in Hrest as [(e & [-> He]%pure_run & ->)|([] & w2 & [-> _]%pure_run & [= <- <-])]; [|done].
  split; [done|]. eapply late_transfer; [exact He|solve_late].
Qed.

(** *** One attested exchange *)

Lemma inference_exchange {A B} route request (m : HttpClient → eff Net ProviderError B)
    (k : LiveTlsPeer → B → eff HttpAdapter ProviderError A) s r s' :
  starts_with "https://" (rd_api_base_url route) = true → posts route request m →
  (∀ peer b s r s', k peer b s = (r, s') → s' = s ∧ late r) → adapter_inv s →
  (expected_tls ← lookup_peer route request;
   client ← get_pinned_client built (lp_spki_sha256 expected_tls);
   b ← on_net (m client);
   k expected_tls b) s = (r, s') →
  adapter_inv s' ∧ (sent s' = sent s ∨ delivered_to_attested route request (sent s) (sent s') (failure r)).
Proof.
  intros Hbase Hm Hk [Hp Hs]. intros [(e & [= _ <-] & _)|(peer & s1 & [= Hl <-] & H)]%eff_bind_run; [split; [done|by left]|].
  unfold lookup_for_request, verified_digest_for_request in Hl. inv_ok. rename x into digest.
  apply eff_bind_run in H. unfold get_pinned_client in H.
  destruct (pinned_client built (lp_spki_sha256 peer) (ha_pinned_clients s)) as [rc pins] eqn:Ec.
  destruct (pinned_client_ok _ _ _ _ _ Hp Ec) as [Hp' Hc].
  destruct H as [(e & [= -> <-] & ->)|(client & s1 & [= -> <-] & H)]; [split; [by constructor|by left]|].
  specialize (Hc client eq_refl) as ->.
  apply eff_bind_run in H. unfold on_net in H. cbn [ha_net ha_tls_state ha_pinned_clients] in H.
  destruct (m _ (ha_net s)) as [rb net] eqn:Em. apply Hm in Em.
  assert (∀ net, adapter_inv {| ha_tls_state := ha_tls_state s; ha_pinned_clients := pins; ha_net := net |}) as Hinv by done.
  assert (s' = {| ha_tls_state := ha_tls_state s; ha_pinned_clients := pins; ha_net := net |}
          ∧ (late rb → late r)) as [-> Hlate].
  { destruct H as [(e & [= -> <-] & ->)|(b & s1 & [= -> <-] & H)]; [|by apply Hk in H as [-> ?]].
    split; [done|]. intros Hrb e' [= <-]. by apply Hrb. }
  split; [done|]. cbn [ha_net]. destruct Em as [->|(d & -> & Hrb & Hu & Hb & Ht)]; [by left|right].
  destruct Hu as [path Hu]. destruct Ht as (certificate & Hd & Hv & Hpin); [rewrite Hu; by apply https_base_url|].
  exists d, certificate, digest, peer. split_and!; try done; [by eauto|by apply Hs|by apply Hpin|].
  intros e He. apply Hlate; [done|]. by destruct r; simplify_eq/=.
Qed.

(** *** Captured identities *)

Lemma evict_subset {T} (fuel : nat) (entries : gmap (string * string) (Z * T)) : evict fuel entries ⊆ entries.
Proof.
  revert entries. induction fuel as [|fuel IH]; intros entries; [done|]. cbn [evict]. destruct (_ <? _)%nat; [|done].
  destruct (oldest_entry entries); [|done]. etrans; [apply IH|apply delete_subseteq].
Qed.
Lemma store_insert_get {T} r d (v : T) route digest value store :
  store_get r d (store_insert route digest value store) = Some v →
  (r = route ∧ d = digest ∧ v = value) ∨ store_get r d store = Some v.
Proof.
  unfold store_get, store_insert. cbn [es_entries]. intros H.
  destruct (evict _ _ !! (r, d)) as [[n w]|] eqn:E; [|done]. injection H as <-.
  pose proof (lookup_weaken _ _ _ _ E (evict_subset _ _)) as [[[= <- <-] [= _ <-]]|[_ Eo]]%lookup_insert_Some; [by left|].
  right. by rewrite Eo.
Qed.

Lemma new_adapter_inv net : adapter_inv (new_adapter net).
Proof.
  constructor; [constructor; cbn; [intros ? ? ? H; by rewrite lookup_empty in H|rewrite map_size_empty; lia]|].
  intros route digest peer. unfold store_get. cbn. by rewrite lookup_empty.
Qed.
Lemma remember_inv route digest peer (s : HttpAdapter) r s' :
  captured route digest peer → adapter_inv s → remember_peer route digest peer (E := ProviderError) s = (r, s') → adapter_inv s'.
Proof.
  intros Hc [Hp Hs] [= <- <-]. constructor; [done|]. cbn. intros r0 d p [(-> & -> & ->)|H]%store_insert_get; [done|by apply Hs].
Qed.
Lemma on_net_inv {E A} (m : eff Net E A) s r s' : adapter_inv s → on_net m s = (r, s') → adapter_inv s'.
Proof. intros [Hp Hs]. unfold on_net. destruct (m (ha_net s)) as [r0 net]. by intros [= <- <-]. Qed.
Lemma map_run {W E F A} (f : E → F) (m : eff W E A) w r w' :
  map_eff_err f m w = (r, w') → ∃ r0, m w = (r0, w') ∧ r = map_err f r0.
Proof. unfold map_eff_err. destruct (m w) as [r0 w0]. intros [= <- <-]. eauto. Qed.
End Attested.

(** Takes the first, pure, step of a run apart. *)
Ltac pure_step H x Hx :=
  apply eff_bind_run in H as [(? & [-> ?]%pure_run & ->)|(x & ? & [-> Hx]%pure_run & H)].

Section Adapters.
Context {prim : Primitives} {x509 : CertificateReader} {platform : PlatformVerifier} {crypto : RequestCrypto}.
Context (built : ProviderResult unit) {Chat Emb : Type}.
Context (chat_from_slice : string → option Chat) (embeddings_from_slice : string → option Emb).
Context (response_from_slice : string → option SdkEncryptedChatResponseEnvelope).
Abbreviation sent s := (nt_sent (ha_net s)).

Lemma require_peer_Ok response peer :
  require_tls_peer response = Ok peer → certificate_spki_sha256_hex (lp_leaf_certificate_der peer) = Ok (lp_spki_sha256 peer).
Proof. unfold require_tls_peer, response_tls_peer. destruct (hp_peer_certificate response); intros H; inv_ok; by simplify_eq/=. Qed.

Lemma tinfoil_route_https route provider :
  ensure_tinfoil_route route provider = Ok tt → starts_with "https://" (rd_api_base_url route) = true.
Proof. unfold ensure_tinfoil_route, require_https_url. intros H. inv_ok. by destruct (starts_with _ (rd_api_base_url route)). Qed.
Lemma near_route_https route provider :
  ensure_near_route route provider = Ok tt → starts_with "https://" (rd_api_base_url route) = true.
Proof. unfold ensure_near_route, https_or_test_loopback. intros H. inv_ok. by bools. Qed.

(** *** Tinfoil *)

Section Tinfoil.
Context (config : HttpProviderConfig) (capture_to_vec : TinfoilLiveCaptureEvidence → option string).

(** The identity in a capture, under the digest of its JSON form. *)
Definition tinfoil_captured (route_id digest : string) (peer : LiveTlsPeer) : Prop :=
  ∃ capture bytes, capture_to_vec capture = Some bytes ∧ digest = sha256_digest bytes
    ∧ tl_route_id capture = route_id ∧ tl_live_tls_spki_sha256 capture = lp_spki_sha256 peer
    ∧ tl_live_tls_leaf_certificate_der_base64 capture = standard_encode (lp_leaf_certificate_der peer)
    ∧ certificate_spki_sha256_hex (lp_leaf_certificate_der peer) = Ok (lp_spki_sha256 peer).

Abbreviation chat := (tinfoil_chat built chat_from_slice response_from_slice config).
Abbreviation embeddings := (tinfoil_embeddings built embeddings_from_slice response_from_slice config).
Abbreviation chat_stream := (tinfoil_chat_stream built config).
Abbreviation fetch := (tinfoil_fetch_evidence config capture_to_vec).

Inductive tinfoil_step : HttpAdapter → HttpAdapter → Prop :=
| step_fetch route request s r s' : fetch route request s = (r, s') → tinfoil_step s s'
| step_chat route request s r s' : chat route request s = (r, s') → tinfoil_step s s'
| step_embeddings route request s r s' : embeddings route request s = (r, s') → tinfoil_step s s'
| step_stream route request s r s' : chat_stream route request s = (r, s') → tinfoil_step s s'.

Lemma tinfoil_fetch_inv route request s r s' :
  adapter_inv tinfoil_captured s → fetch route request s = (r, s') → adapter_inv tinfoil_captured s'.
Proof.
  intros Hi. unfold tinfoil_fetch_evidence.
  intros [(e & [-> _]%pure_run & _)|(u & s0 & [-> _]%pure_run & H)]%eff_bind_run; [done|].
  apply eff_bind_run in H as [(e & (? & Hn & _)%map_run & _)|(response & s1 & (? & Hn & _)%map_run & H)];
    pose proof (on_net_inv tinfoil_captured _ _ _ _ Hi Hn) as Hi1; [done|].
  apply eff_bind_run in H as [(e & [-> _]%pure_run & _)|(peer & s2 & [-> Hp]%pure_run & H)]; [done|].
  apply eff_bind_run in H as [(e & [-> _]%pure_run & _)|(body & s3 & [-> _]%pure_run & H)]; [done|].
  apply eff_bind_run in H as [(e & [-> _]%pure_run & _)|(bytes & s4 & [-> Hb]%pure_run & H)]; [done|].
  symmetry in Hb. apply ok_or_Ok in Hb. symmetry in Hp. apply require_peer_Ok in Hp.
  assert (tinfoil_captured (rd_route_id route) (sha256_digest bytes) peer) as Hc by (eexists _, _; split_and!; [exact Hb|done..]).
  apply eff_bind_run in H as [(e & Hr & _)|([] & s5 & Hr & [= <- <-])]; by eapply remember_inv.
Qed.

(** What an inference call does to the adapter. *)
Definition attested_call {A} (captured : string → string → LiveTlsPeer → Prop) (route : RouteDefinition)
    (request : ProviderChatRequest) (s : HttpAdapter) (run : ProviderResult A * HttpAdapter) : Prop :=
  sent run.2 = sent s ∨ delivered_to_attested captured route request (sent s) (sent run.2) (failure run.1).

Lemma attested_call_check {A} captured route request (check : ProviderResult unit) (m : eff HttpAdapter ProviderError A) s :
  adapter_inv captured s →
  (check = Ok tt → adapter_inv captured (m s).2 ∧ attested_call captured route request s (m s)) →
  adapter_inv captured ((_ ← pure_result check; m) s).2 ∧ attested_call captured route request s ((_ ← pure_result check; m) s).
Proof. intros Hi Hm. destruct check as [[]|e]; [by apply Hm|]. split; [done|by left]. Qed.

Lemma exchange_call {A B} captured route request (m : HttpClient → eff Net ProviderError B)
    (k : LiveTlsPeer → B → eff HttpAdapter ProviderError A) s :
  starts_with "https://" (rd_api_base_url route) = true → posts route request m →
  (∀ peer b s r s', k peer b s = (r, s') → s' = s ∧ late r) → adapter_inv captured s →
  let run := (expected_tls ← lookup_peer route request;
              client ← get_pinned_client built (lp_spki_sha256 expected_tls);
              b ← on_net (m client);
              k expected_tls b) s in
  adapter_inv captured run.2 ∧ attested_call captured route request s run.
Proof.
  intros Hb Hm Hk Hi run. destruct run as [r s'] eqn:E. apply (inference_exchange built captured route request m k) in E; done.
Qed.

(** Reading a response keeps the state and never claims that nothing was sent. *)
Lemma observed_then {A} (peer : LiveTlsPeer) (observed : option LiveTlsPeer) (rest : ProviderResult A) (s : HttpAdapter) r s' :
  late rest → (_ ← pure_result (check_observed peer observed); pure_result rest) s = (r, s') → s' = s ∧ late r.
Proof.
  intros Hl [(e & [-> He]%pure_run & ->)|([] & s1 & [-> _]%pure_run & [-> ->]%pure_run)]%eff_bind_run; [|done].
  split; [done|]. eapply late_transfer; [exact He|solve_late].
Qed.

Lemma tinfoil_chat_call route request s :
  adapter_inv tinfoil_captured s →
  adapter_inv tinfoil_captured (chat route request s).2 ∧ attested_call tinfoil_captured route request s (chat route request s).
Proof.
  intros Hi. unfold tinfoil_chat. apply attested_call_check; [done|]. intros Hr%tinfoil_route_https.
  apply (exchange_call _ _ _ (post_chat config route request)); [done|apply post_chat_posts| |done].
  intros peer [body observed] s0 r s' H. eapply observed_then; [|exact H]. solve_late.
Qed.
Lemma tinfoil_embeddings_call route request s :
  adapter_inv tinfoil_captured s →
  adapter_inv tinfoil_captured (embeddings route request s).2
  ∧ attested_call tinfoil_captured route request s (embeddings route request s).
Proof.
  intros Hi. unfold tinfoil_embeddings. apply attested_call_check; [done|]. intros Hr%tinfoil_route_https.
  apply (exchange_call _ _ _ (post_embeddings config route request)); [done|apply post_embeddings_posts| |done].
  intros peer [body observed] s0 r s' H. eapply observed_then; [|exact H]. solve_late.
Qed.
Lemma tinfoil_stream_call route request s :
  adapter_inv tinfoil_captured s →
  adapter_inv tinfoil_captured (chat_stream route request s).2
  ∧ attested_call tinfoil_captured route request s (chat_stream route request s).
Proof.
  intros Hi. unfold tinfoil_chat_stream. apply attested_call_check; [done|]. intros Hr%tinfoil_route_https.
  apply (exchange_call _ _ _ (open_chat_stream config route request)); [done|apply open_stream_posts| |done].
  intros peer [response observed] s0 r s' H. eapply observed_then; [|exact H]. solve_late.
Qed.

Lemma tinfoil_reachable net s : rtc tinfoil_step (new_adapter net) s → adapter_inv tinfoil_captured s.
Proof.
  pose proof (new_adapter_inv tinfoil_captured net) as H0. intros H. revert H0. induction H as [|s1 s2 s3 Hstep _ IH]; [done|]. intros Hi. apply IH.
  destruct Hstep as [????? E|????? E|????? E|????? E]; [by eapply tinfoil_fetch_inv|..];
    [pose proof (tinfoil_chat_call route request s Hi) as [H _]|pose proof (tinfoil_embeddings_call route request s Hi) as [H _]
    |pose proof (tinfoil_stream_call route request s Hi) as [H _]]; by rewrite E in H.
Qed.

(** C3: after any calls of a Tinfoil adapter, a prompt leaves it only over TLS to
    a server whose key is the one captured, for the same route, in the very
    evidence the request was verified by: each chat, embeddings or streaming call
    sends nothing, or delivers one request to such a server; and when it reports
    that nothing was dispatched, nothing was. *)
Theorem tinfoil_prompts_reach_attested_key net s route request :
  rtc tinfoil_step (new_adapter net) s →
  attested_call tinfoil_captured route request s (chat route request s)
  ∧ attested_call tinfoil_captured route request s (embeddings route request s)
  ∧ attested_call tinfoil_captured route request s (chat_stream route request s).
Proof.
  intros Hi%tinfoil_reachable. split_and!; [by apply tinfoil_chat_call|by apply tinfoil_embeddings_call|by apply tinfoil_stream_call].
Qed.
End Tinfoil.

(** *** NEAR *)

Section NearChannel.
Context (provider_id api_key : string).
Context (nras_client : option (NvidiaGpuAttestationEvidence → eff Net ProviderError NvidiaGpuAttestationEvidence)).
Context (near_to_vec : NearLiveEvidence → option string) (near_report_from_slice : string → option (option string)).

Definition near_captured (route_id digest : string) (peer : LiveTlsPeer) : Prop :=
  ∃ capture bytes, near_to_vec capture = Some bytes ∧ digest = sha256_digest bytes
    ∧ nl_route_id capture = route_id ∧ nl_live_tls_spki_sha256 capture = lp_spki_sha256 peer
    ∧ nl_live_tls_leaf_certificate_der_base64 capture = standard_encode (lp_leaf_certificate_der peer)
    ∧ String.length (nl_request_nonce capture) = 64%nat
    ∧ certificate_spki_sha256_hex (lp_leaf_certificate_der peer) = Ok (lp_spki_sha256 peer).

Abbreviation near_chat' := (near_chat built chat_from_slice provider_id api_key).
Abbreviation near_fetch := (near_fetch_evidence provider_id api_key nras_client near_to_vec near_report_from_slice).

Inductive near_step : HttpAdapter → HttpAdapter → Prop :=
| near_step_fetch route request s r s' : near_fetch route request s = (r, s') → near_step s s'
| near_step_chat route request s r s' : near_chat' route request s = (r, s') → near_step s s'.

Lemma gpu_attestation_inv captured payload s r s' :
  adapter_inv captured s → gpu_attestation nras_client payload s = (r, s') → adapter_inv captured s'.
Proof.
  intros Hi. unfold gpu_attestation. destruct payload as [payload|]; [|by intros [= <- <-]].
  intros [(e & [-> _]%pure_run & _)|(v & s1 & [-> _]%pure_run & H)]%eff_bind_run; [done|].
  apply eff_bind_run in H as [(e & [-> _]%pure_run & _)|(b & s2 & [-> _]%pure_run & H)]; [done|].
  apply eff_bind_run in H as [(e & [-> _]%pure_run & _)|(n & s3 & [-> _]%pure_run & H)]; [done|].
  destruct nras_client as [attest|]; [|by injection H as <- <-].
  apply eff_bind_run in H as [(e & Hn & _)|(g & s4 & Hn & [= <- <-])]; by eapply on_net_inv.
Qed.

Lemma near_fetch_inv route request s r s' :
  adapter_inv near_captured s → near_fetch route request s = (r, s') → adapter_inv near_captured s'.
Proof.
  intros Hi. unfold near_fetch_evidence.
  intros [(e & [-> _]%pure_run & _)|(u & s0 & [-> _]%pure_run & H)]%eff_bind_run; [done|].
  apply eff_bind_run in H as [(e & [-> _]%pure_run & _)|(nonce & s1 & [-> _]%pure_run & H)]; [done|].
  apply eff_bind_run in H as [(e & [-> _]%pure_run & _)|(u' & s2 & [-> Hv]%pure_run & H)]; [done|].
  apply eff_bind_run in H as [(e & (? & Hn & _)%map_run & _)|(response & s3 & (? & Hn & _)%map_run & H)];
    pose proof (on_net_inv near_captured _ _ _ _ Hi Hn) as Hi1; [done|].
  apply eff_bind_run in H as [(e & [-> _]%pure_run & _)|(peer & s4 & [-> Hp]%pure_run & H)]; [done|].
  apply eff_bind_run in H as [(e & [-> _]%pure_run & _)|(body & s5 & [-> _]%pure_run & H)]; [done|].
  apply eff_bind_run in H as [(e & [-> _]%pure_run & _)|(payload & s6 & [-> _]%pure_run & H)]; [done|].
  apply eff_bind_run in H as [(e & Hg & _)|(gpu & s7 & Hg & H)];
    pose proof (gpu_attestation_inv near_captured _ _ _ _ Hi1 Hg) as Hi2; [done|].
  apply eff_bind_run in H as [(e & [-> _]%pure_run & _)|(bytes & s8 & [-> Hb]%pure_run & H)]; [done|].
  symmetry in Hb. apply ok_or_Ok in Hb. symmetry in Hp. apply require_peer_Ok in Hp.
  assert (String.length nonce = 64%nat) as Hnonce.
  { unfold validate_nonce in Hv. destruct (_ =? _)%nat eqn:El; [|done]. by apply Nat.eqb_eq. }
  assert (near_captured (rd_route_id route) (sha256_digest bytes) peer) as Hc by (eexists _, _; split_and!; [exact Hb|done..]).
  apply eff_bind_run in H as [(e & Hr & _)|([] & s9 & Hr & [= <- <-])]; by eapply remember_inv.
Qed.

Lemma near_chat_call route request s :
  adapter_inv near_captured s →
  adapter_inv near_captured (near_chat' route request s).2 ∧ attested_call near_captured route request s (near_chat' route request s).
Proof.
  intros Hi. unfold near_chat. apply attested_call_check; [done|]. intros Hr%near_route_https.
  apply attested_call_check; [done|]. intros _.
  apply (exchange_call _ _ _ (λ client, map_eff_err (map_send_error (rd_route_id route)) (send client
           (near_request api_key "POST" (trim_end_slashes (rd_api_base_url route) +:+ "/chat/completions") []
              (Some (pq_body request)))))); [done| | |done].
  { apply (posts_send_only _ _ _ _ (λ url body, near_request api_key "POST" url [] (Some body))). done. }
  intros peer response s0 r s' [(e & [-> He]%pure_run & ->)|(o & s1 & [-> _]%pure_run & H)]%eff_bind_run.
  { split; [done|]. eapply late_transfer; [exact He|solve_late]. }
  apply eff_bind_run in H as [(e & [-> He]%pure_run & ->)|([] & s2 & [-> _]%pure_run & H)].
  { split; [done|]. eapply late_transfer; [exact He|solve_late]. }
  apply eff_bind_run in H as [(e & [-> He]%pure_run & ->)|(body & s3 & [-> _]%pure_run & [-> ->]%pure_run)].
  { split; [done|]. eapply late_transfer; [exact He|solve_late]. }
  split; [done|solve_late].
Qed.

(** After any calls of a NEAR adapter, a chat sends nothing, or delivers one
    request over TLS to a server whose key is the one captured, for the same
    route and under a 32-byte nonce, in the very evidence the request was verified
    by; and when it reports that nothing was dispatched, nothing was. *)
Theorem near_prompts_reach_attested_key net s route request :
  rtc near_step (new_adapter net) s → attested_call near_captured route request s (near_chat' route request s).
Proof.
  intros H. apply near_chat_call. revert H. generalize (new_adapter_inv near_captured net).
  intros H0 H. revert H0. induction H as [|s1 s2 s3 Hstep _ IH]; [done|]. intros Hi. apply IH.
  destruct Hstep as [????? E|????? E]; [by eapply near_fetch_inv|].
  pose proof (near_chat_call route0 request0 s Hi) as [H _]. by rewrite E in H.
Qed.
End NearChannel.
End Adapters.

(** ** Concrete exchanges *)

From S2P Require Import JsonInjective Policy Verdict.

#[local] Instance http_sample_reader : CertificateReader := {|
  certificate_from_der der := Some {| cert_spki_der := Some der; cert_not_before_secs := 0; cert_not_after_secs := 0 |} |}.
#[local] Instance http_sample_platform : PlatformVerifier := {| platform_verify _ _ := true |}.
#[local] Instance http_sample_crypto : RequestCrypto := {|
  standard_encode s := s; standard_decode s := Some s; value_to_vec _ := None; value_of_slice _ := None;
  x25519_public s := s; diffie_hellman _ _ := ""; hkdf_expand _ _ _ := None;
  aead_encrypt _ _ _ _ := None; aead_decrypt _ _ _ _ := None |}.

Definition tls_route (provider family : string) : RouteDefinition :=
  let r := sample_definition "r1" provider "llama3" Active FreshPerSession in {|
  rd_route_id := rd_route_id r; rd_route_status := rd_route_status r; rd_provider := provider;
  rd_provider_model := rd_provider_model r; rd_evidence_family := family; rd_api_base_url := rd_api_base_url r;
  rd_evidence_endpoint := rd_evidence_endpoint r; rd_adapter_version := rd_adapter_version r;
  rd_freshness_class := rd_freshness_class r; rd_channel_binding_kind := rd_channel_binding_kind r;
  rd_trust_tier := rd_trust_tier r; rd_request_confidentiality_requirement := rd_request_confidentiality_requirement r;
  rd_response_confidentiality_requirement := rd_response_confidentiality_requirement r;
  rd_response_integrity_requirement := rd_response_integrity_requirement r; rd_accepted_gpu_tees := rd_accepted_gpu_tees r;
  rd_request_encryption := rd_request_encryption r; rd_response_decryption := rd_response_decryption r;
  rd_streaming := rd_streaming r; rd_alias_confidence := rd_alias_confidence r |}.
Definition tinfoil_route : RouteDefinition := tls_route "tinfoil" "tinfoil_hw_verified_tls".
Definition near_route : RouteDefinition := tls_route "near" "near_hw_verified_tls".
Definition tinfoil_config : HttpProviderConfig :=
  {| op_provider_id := "tinfoil"; op_api_key := Some "key"; op_client := evidence_client |}.
Definition http_evidence_request : EvidenceRequest :=
  {| er_requested_model := "llama"; er_policy_digest := ""; er_nonce := Some (zeros 64) |}.
Definition answering (certificate : string) : Exchange :=
  Peer certificate (Some {| rp_status := 200; rp_chunks := [Some "{}"] |}).
Definition prompt (evidence : string) : ProviderChatRequest :=
  with_verified_evidence_digest (sha256_digest evidence) (with_confidentiality (VObject []) Plaintext).

(** Evidence from one server, then a prompt: to the same server, and to another. *)
Definition tinfoil_to_vec (c : TinfoilLiveCaptureEvidence) : option string := Some (tl_live_tls_spki_sha256 c).
Definition near_vec (c : NearLiveEvidence) : option string := Some (nl_live_tls_spki_sha256 c).
Abbreviation tinfoil_captured_by script :=
  (tinfoil_fetch_evidence tinfoil_config tinfoil_to_vec tinfoil_route http_evidence_request
     (new_adapter {| nt_script := script; nt_sent := [] |})).
Abbreviation tinfoil_prompt_after script :=
  (tinfoil_chat (Ok tt) Some (λ _, None) tinfoil_config tinfoil_route (prompt (sha256_hex "cert")) (tinfoil_captured_by script).2).

Example same_server_answers :
  let run := tinfoil_prompt_after [answering "cert"; answering "cert"] in
  run.1 = Ok "{}" ∧ length (nt_sent (ha_net run.2)) = 2%nat.
Proof. vm_compute. by split. Qed.
Example other_server_refused :
  let run := tinfoil_prompt_after [answering "cert"; answering "other"] in
  run.1 = Err (KeyRotation "r1" "live TLS SPKI does not match the verified evidence pin")
  ∧ length (nt_sent (ha_net run.2)) = 1%nat.
Proof. vm_compute. by split. Qed.

Lemma tinfoil_prompts_reach_attested_key_witness :
  attested_call (tinfoil_captured tinfoil_to_vec) tinfoil_route (prompt (sha256_hex "cert"))
    (tinfoil_captured_by [answering "cert"; answering "cert"]).2 (tinfoil_prompt_after [answering "cert"; answering "cert"]).
Proof.
  refine (proj1 (tinfoil_prompts_reach_attested_key (Ok tt) Some (λ _ : string, @None unit) (λ _, None) tinfoil_config
    tinfoil_to_vec {| nt_script := [answering "cert"; answering "cert"]; nt_sent := [] |} _ tinfoil_route
    (prompt (sha256_hex "cert")) _)).
  eapply rtc_l; [|apply rtc_refl].
  apply (step_fetch _ _ _ _ _ _ tinfoil_route http_evidence_request _
    (tinfoil_captured_by [answering "cert"; answering "cert"]).1). symmetry. apply surjective_pairing.
Defined.

Abbreviation near_captured_by script :=
  (near_fetch_evidence "near" "key" None near_vec (λ _, Some None) near_route http_evidence_request
     (new_adapter {| nt_script := script; nt_sent := [] |})).
Abbreviation near_prompt_after script :=
  (near_chat (Ok tt) Some "near" "key" near_route (prompt (sha256_hex "cert")) (near_captured_by script).2).

Example near_other_server_refused :
  let run := near_prompt_after [answering "cert"; answering "other"] in
  run.1 = Err (KeyRotation "r1" "live TLS SPKI does not match the verified evidence pin")
  ∧ length (nt_sent (ha_net run.2)) = 1%nat.
Proof. vm_compute. by split. Qed.

Lemma near_prompts_reach_attested_key_witness :
  attested_call (near_captured near_vec) near_route (prompt (sha256_hex "cert"))
    (near_captured_by [answering "cert"; answering "cert"]).2 (near_prompt_after [answering "cert"; answering "cert"]).
Proof.
  refine (near_prompts_reach_attested_key (Ok tt) Some "near" "key" None near_vec (λ _, Some None)
    {| nt_script := [answering "cert"; answering "cert"]; nt_sent := [] |} _ near_route (prompt (sha256_hex "cert")) _).
  eapply rtc_l; [|apply rtc_refl].
  apply (near_step_fetch _ _ _ _ _ _ _ near_route http_evidence_request _
    (near_captured_by [answering "cert"; answering "cert"]).1). symmetry. apply surjective_pairing.
Defined.
