(* ===== verification/ProxyRedaction.v ===== *)
(** * Redaction of error messages

    proxy/lib.rs and, for its own errors, providers/provider.rs: what an error
    message may carry back to a caller. JSON string members with sensitive names
    lose their values, and so do the words after "bearer" and other sensitive
    labels, assigned values and API keys. *)

From Stdlib Require Import Ascii String ZArith Lia.
From stdpp Require Import base strings list numbers.
From S2P Require Import Prelude RustStr ProviderRequest.

Open Scope string_scope.

Definition QUOTE : ascii := "034".
Definition BACKSLASH : ascii := "\".

(** ** Words *)

(** The parts between whitespace characters. *)
Definition cons_first (c : ascii) (parts : list string) : list string :=
  match parts with part :: rest => String c part :: rest | [] => [String c ""] end.
Fixpoint whitespace_parts (s : string) : list string :=
  match s with
  | "" => [""]
  | String a s1 =>
      if ws1 a then "" :: whitespace_parts s1
      else match s1 with
           | "" => cons_first a (whitespace_parts s1)
           | String b s2 =>
               if ws2 a b then "" :: whitespace_parts s2
               else match s2 with
                    | "" => cons_first a (whitespace_parts s1)
                    | String c s3 =>
                        if ws3 a b c then "" :: whitespace_parts s3 else cons_first a (whitespace_parts s1)
                    end
           end
  end.
(** [str::split_whitespace]. *)
Definition split_whitespace (s : string) : list string :=
  List.filter (λ part, negb (is_empty part)) (whitespace_parts s).

(** [trim_start_matches] and [trim_end_matches] for a set of ASCII characters. *)
Fixpoint trim_start_set (set : ascii → bool) (s : string) : string :=
  match s with
  | "" => ""
  | String c s' => if set c then trim_start_set set s' else s
  end.
Fixpoint trim_end_set (set : ascii → bool) (s : string) : string :=
  match s with
  | "" => ""
  | String c s' =>
      match trim_end_set set s' with
      | "" => if set c then "" else String c ""
      | rest => String c rest
      end
  end.
Definition trim_matches (set : ascii → bool) (s : string) : string := trim_end_set set (trim_start_set set s).

(** [token.find(['=', ':'])]. *)
Fixpoint find_separator (s : string) : option nat :=
  match s with
  | "" => None
  | String c s => if (c =?= "="%char) || (c =?= ":"%char) then Some O else S <$> find_separator s
  end.

(** [join(" ")]. *)
Fixpoint join_spaces (words : list string) : string :=
  match words with
  | [] => ""
  | [word] => word
  | word :: words => word +:+ " " +:+ join_spaces words
  end.

(** ** Sensitive names *)

Definition sensitive_labels : list string :=
  ["authorization"; "api-key"; "api_key"; "apikey"; "x-api-key"; "token"; "access_token"; "password"; "secret";
   "prompt"; "completion"].
Definition sensitive_label_without_value (token : string) : bool :=
  existsb (λ label, trim_end_set (λ c, c =?= ":"%char) token =?= label) sensitive_labels.
Definition sensitive_json_key (token : string) : bool :=
  sensitive_label_without_value token
  || existsb (λ label, token =?= label) ["bearer"; "content"; "input"; "output"].
Definition sensitive_assignment (token : string) : option nat :=
  separator ← find_separator token;
  if sensitive_json_key (slice token 0 separator) then Some separator else None.

(** ** Words after a label *)

Definition closing_mark (c : ascii) : bool :=
  existsb (λ m, c =?= m) [","; ";"; "."; ")"; "]"; "}"; QUOTE; "'"]%char.
(** The closing marks at the end of a word survive. *)
Fixpoint trailing_marks (token : string) : string :=
  match token with
  | "" => ""
  | String c rest => if all_bytes closing_mark token then token else trailing_marks rest
  end.
Definition redacted_token (token : string) : string := "[REDACTED]" +:+ trailing_marks token.

Definition redact_assignment_token (token : string) : string :=
  match find_separator token with
  | None => redacted_token token
  | Some separator =>
      slice token 0 (separator + 1) +:+ redacted_token (slice token (separator + 1) (String.length token))
  end.

Definition outer_mark (c : ascii) : bool :=
  existsb (λ m, c =?= m) [QUOTE; "'"; ","; ";"; "("; ")"; "["; "]"; "{"; "}"]%char.
Definition normalized_token (token : string) : string := to_ascii_lowercase (trim_matches outer_mark token).

(** One word of the loop, with its flag [redact_next]. *)
Definition redact_word (redact_next : bool) (token : string) : string * bool :=
  let normalized := normalized_token token in
  if redact_next then
    if normalized =?= "bearer" then (token, true) else (redacted_token token, false)
  else if (normalized =?= "bearer") || sensitive_label_without_value normalized then (token, true)
  else if is_some (sensitive_assignment normalized) then (redact_assignment_token token, false)
  else if starts_with "sk-" normalized then (redacted_token token, false)
  else (token, false).
Fixpoint redact_words (redact_next : bool) (words : list string) : list string :=
  match words with
  | [] => []
  | word :: words =>
      let '(word, redact_next) := redact_word redact_next word in word :: redact_words redact_next words
  end.

(** ** JSON string members *)

(** The offset of the closing quote. *)
Fixpoint closing_json_quote (escaped : bool) (s : string) : option nat :=
  match s with
  | "" => None
  | String byte s =>
      if escaped then S <$> closing_json_quote false s
      else if byte =?= BACKSLASH then S <$> closing_json_quote true s
      else if byte =?= QUOTE then Some O
      else S <$> closing_json_quote false s
  end.

(** [u8::is_ascii_whitespace]. *)
Definition is_ascii_whitespace (c : ascii) : bool :=
  between 32 32 c || between 9 10 c || between 12 13 c.

(** The range of a sensitive member's value, in the bytes after the quote that
    opens its key. *)
Definition sensitive_json_string_value_range (bytes : string) : option (nat * nat) :=
  key_end ← closing_json_quote false bytes;
  if negb (sensitive_json_key (to_ascii_lowercase (slice bytes 0 key_end))) then None
  else
    let after_key := slice bytes (key_end + 1) (String.length bytes) in
    match trim_start_set is_ascii_whitespace after_key with
    | String ":" after_colon =>
        match trim_start_set is_ascii_whitespace after_colon with
        | String "034" value =>
            let value_start := (String.length bytes - String.length value)%nat in
            value_length ← closing_json_quote false value;
            Some (value_start, value_start + value_length)%nat
        | _ => None
        end
    | _ => None
    end.

Fixpoint redact_json_fuel (fuel : nat) (message : string) : string :=
  match fuel, message with
  | S fuel, String c rest =>
      if c =?= QUOTE then
        match sensitive_json_string_value_range rest with
        | Some (value_start, value_end) =>
            String c (slice rest 0 value_start) +:+ "[REDACTED]" +:+ String QUOTE ""
            +:+ redact_json_fuel fuel (slice rest (value_end + 1) (String.length rest))
        | None => String c (redact_json_fuel fuel rest)
        end
      else String c (redact_json_fuel fuel rest)
  | _, _ => ""
  end.
Definition redact_json_string_values (message : string) : string :=
  redact_json_fuel (String.length message) message.

Definition redact_proxy_error_message (message : string) : string :=
  join_spaces (redact_words false (split_whitespace (redact_json_string_values message))).

(** provider.rs has the same redaction, for the texts of its errors. *)
Definition redact_sensitive : string → string := redact_proxy_error_message.
(** [Display] of a [ProviderError]. *)
Definition provider_error_display (e : ProviderError) : string :=
  match e with
  | Unavailable provider => "provider " +:+ redact_sensitive provider +:+ " is unavailable"
  | Adapter message => "provider adapter failed: " +:+ redact_sensitive message
  | Compatibility message => "provider compatibility failed: " +:+ redact_sensitive message
  | KeyRotation route_id message =>
      "provider key rotation observed for route " +:+ redact_sensitive route_id +:+ ": " +:+ redact_sensitive message
  | Http message => "provider HTTP request failed: " +:+ redact_sensitive message
  | HttpStatus status message =>
      "provider HTTP request returned status " +:+ dec_string status +:+ ": " +:+ redact_sensitive message
  | JsonError error => "json failed: " +:+ error
  end.

Example redact_header :
  redact_proxy_error_message "upstream said Authorization: Bearer abc.def, retry" =
  "upstream said Authorization: Bearer [REDACTED], retry".
Proof. by vm_compute. Qed.

(** ** Properties *)

Lemma slice_from_app (a b : string) : slice (a +:+ b) (String.length a) (String.length (a +:+ b)) = b.
Proof.
  pose proof (slice_middle a b "") as H. rewrite append_nil_r in H. by rewrite append_length, H.
Qed.
Lemma slice_to_app (a b : string) : slice (a +:+ b) 0 (String.length a) = a.
Proof. exact (slice_middle "" a b). Qed.

Lemma trim_start_set_length set s : (String.length (trim_start_set set s) ≤ String.length s)%nat.
Proof. induction s as [|c s IH]; cbn; [done|]. destruct (set c); cbn; lia. Qed.

Lemma closing_json_quote_bound escaped s n : closing_json_quote escaped s = Some n → (n < String.length s)%nat.
Proof.
  revert escaped n. induction s as [|c s IH]; intros escaped n; [done|]. cbn [closing_json_quote String.length].
  destruct escaped; [|case_bool_decide; [|case_bool_decide; [intros [= <-]; lia|]]];
    intros (m & Hm & ->)%fmap_Some; apply IH in Hm; lia.
Qed.

(** More fuel than bytes changes nothing. *)
Lemma redact_json_fuel_enough fuel s :
  (String.length s ≤ fuel)%nat → redact_json_fuel fuel s = redact_json_string_values s.
Proof.
  assert (∀ n f g t, (String.length t ≤ n)%nat → (String.length t ≤ f)%nat → (String.length t ≤ g)%nat →
            redact_json_fuel f t = redact_json_fuel g t) as H.
  { induction n as [|n IH]; intros f g t Hn Hf Hg; destruct t as [|c t]; cbn in *; try lia; [by destruct f, g..|].
    destruct f as [|f], g as [|g]; try lia. cbn. rewrite (IH f g t) by lia.
    case_bool_decide; [|done]. destruct (sensitive_json_string_value_range t) as [[a b]|]; [|done].
    rewrite (IH f g) by (unfold slice; rewrite substring_length; lia). done. }
  intros Hs. by apply (H (String.length s)).
Qed.

Lemma redact_json_cons c s :
  redact_json_string_values (String c s) =
  if c =?= QUOTE then
    match sensitive_json_string_value_range s with
    | Some (value_start, value_end) =>
        String c (slice s 0 value_start) +:+ "[REDACTED]" +:+ String QUOTE ""
        +:+ redact_json_string_values (slice s (value_end + 1) (String.length s))
    | None => String c (redact_json_string_values s)
    end
  else String c (redact_json_string_values s).
Proof.
  unfold redact_json_string_values at 1. cbn [String.length redact_json_fuel].
  rewrite (redact_json_fuel_enough (String.length s) s) by done.
  case_bool_decide; [|done]. destruct (sensitive_json_string_value_range s) as [[a b]|]; [|done].
  rewrite redact_json_fuel_enough; [done|]. unfold slice. rewrite substring_length. lia.
Qed.

(** A prefix in which no sensitive member starts, before a given rest. *)
Definition quiet_before (p rest : string) : Prop :=
  ∀ a b, p = a +:+ String QUOTE b → sensitive_json_string_value_range (b +:+ rest) = None.

Lemma redact_quiet_prefix p rest :
  quiet_before p rest → redact_json_string_values (p +:+ rest) = p +:+ redact_json_string_values rest.
Proof.
  induction p as [|c p IH]; intros H; [done|]. rewrite append_cons, redact_json_cons, (append_cons c p).
  assert (quiet_before p rest) as Hp by (intros a b ->; by apply (H (String c a) b)).
  case_bool_decide as Hc; [|by rewrite IH].
  rewrite (H "" p) by (by rewrite Hc). by rewrite IH.
Qed.

Lemma closing_json_quote_app escaped s t n :
  closing_json_quote escaped s = Some n → closing_json_quote escaped (s +:+ t) = Some n.
Proof.
  revert escaped n. induction s as [|c s IH]; intros escaped n; [done|].
  rewrite append_cons. cbn [closing_json_quote].
  destruct escaped; [|case_bool_decide; [|case_bool_decide; [done|]]];
    intros (m & Hm & ->)%fmap_Some; by rewrite (IH _ _ Hm).
Qed.

Lemma trim_start_set_app set w s :
  all_bytes set w = true → trim_start_set set (w +:+ s) = trim_start_set set s.
Proof.
  induction w as [|c w IH]; [done|]. rewrite all_bytes_cons, append_cons. intros [Hc Hw]%andb_true_iff.
  cbn [trim_start_set]. by rewrite Hc, IH.
Qed.

(** A string member as it is written: key, optional whitespace around the
    colon, value; both end at their first quote that is not escaped. *)
Record member_text (k w1 w2 v : string) : Prop := {
  mt_key : closing_json_quote false (k +:+ String QUOTE "") = Some (String.length k);
  mt_sensitive : sensitive_json_key (to_ascii_lowercase k) = true;
  mt_spaces : all_bytes is_ascii_whitespace w1 = true ∧ all_bytes is_ascii_whitespace w2 = true;
  mt_value : closing_json_quote false (v +:+ String QUOTE "") = Some (String.length v);
}.
Definition member_prefix (k w1 w2 : string) : string :=
  k +:+ String QUOTE (w1 +:+ String ":" (w2 +:+ String QUOTE "")).
Definition member (k w1 w2 v : string) : string :=
  String QUOTE (member_prefix k w1 w2 +:+ v +:+ String QUOTE "").

Lemma member_range k w1 w2 v rest :
  member_text k w1 w2 v →
  sensitive_json_string_value_range (member_prefix k w1 w2 +:+ v +:+ String QUOTE rest)
  = Some (String.length (member_prefix k w1 w2), String.length (member_prefix k w1 w2) + String.length v)%nat.
Proof.
  intros [Hk Hs [Hw1 Hw2] Hv]. set (s := member_prefix k w1 w2 +:+ v +:+ String QUOTE rest).
  assert (s = k +:+ String QUOTE "" +:+ (w1 +:+ String ":" (w2 +:+ String QUOTE (v +:+ String QUOTE rest)))) as Es.
  { unfold s, member_prefix. by repeat (rewrite append_assoc || rewrite append_cons). }
  unfold sensitive_json_string_value_range.
  assert (closing_json_quote false s = Some (String.length k)) as ->.
  { rewrite Es, <-append_assoc. by apply closing_json_quote_app. }
  cbn [mbind option_bind]. rewrite Es at 1. rewrite slice_to_app, Hs. cbn [negb].
  assert (slice s (String.length k + 1) (String.length s)
          = w1 +:+ String ":" (w2 +:+ String QUOTE (v +:+ String QUOTE rest))) as ->.
  { rewrite Es, <-append_assoc.
    replace (String.length k + 1)%nat with (String.length (k +:+ String QUOTE "")) by (by rewrite append_length).
    apply slice_from_app. }
  rewrite trim_start_set_app by done. cbn [trim_start_set is_ascii_whitespace].
  change (is_ascii_whitespace ":") with false. cbn iota. rewrite trim_start_set_app by done.
  cbn [trim_start_set]. change (is_ascii_whitespace QUOTE) with false. cbn iota.
  assert (closing_json_quote false (v +:+ String QUOTE rest) = Some (String.length v)) as ->.
  { change (String QUOTE rest) with (String QUOTE "" +:+ rest). rewrite <-append_assoc.
    by apply closing_json_quote_app. }
  cbn [mbind option_bind]. unfold QUOTE at 1. cbn iota.
  assert (String.length s - String.length (v +:+ String QUOTE rest) = String.length (member_prefix k w1 w2))%nat as ->.
  { unfold s. rewrite (append_length (member_prefix k w1 w2)). lia. }
  done.
Qed.

Lemma redact_member p k w1 w2 v rest :
  member_text k w1 w2 v → quiet_before p (member k w1 w2 v +:+ rest) →
  redact_json_string_values (p +:+ member k w1 w2 v +:+ rest)
  = p +:+ member k w1 w2 "[REDACTED]" +:+ redact_json_string_values rest.
Proof.
  intros Hm Hp. rewrite redact_quiet_prefix by done. f_equal. unfold member. rewrite append_cons, redact_json_cons.
  rewrite bool_decide_eq_true_2 by done. set (m := member_prefix k w1 w2).
  assert ((m +:+ v +:+ String QUOTE "") +:+ rest = m +:+ v +:+ String QUOTE rest) as ->.
  { by rewrite !append_assoc. }
  unfold m. rewrite member_range by done. fold m. rewrite slice_to_app.
  assert (slice (m +:+ v +:+ String QUOTE rest) (String.length m + String.length v + 1)
            (String.length (m +:+ v +:+ String QUOTE rest)) = rest) as ->.
  { change (String QUOTE rest) with (String QUOTE "" +:+ rest). rewrite <-!append_assoc.
    replace (String.length m + String.length v + 1)%nat with (String.length ((m +:+ v) +:+ String QUOTE ""))
      by (rewrite !append_length; cbn; lia).
    apply slice_from_app. }
  by repeat (rewrite append_assoc || rewrite append_cons).
Qed.

(** The value of a sensitive JSON member does not reach the caller: two error
    messages that differ only in it are redacted to the same text. *)
Theorem json_secret_not_disclosed p k w1 w2 v v' rest :
  member_text k w1 w2 v → member_text k w1 w2 v' →
  quiet_before p (member k w1 w2 v +:+ rest) → quiet_before p (member k w1 w2 v' +:+ rest) →
  redact_proxy_error_message (p +:+ member k w1 w2 v +:+ rest)
  = redact_proxy_error_message (p +:+ member k w1 w2 v' +:+ rest).
Proof. intros Hv Hv' Hp Hp'. unfold redact_proxy_error_message. by rewrite !redact_member. Qed.

(** The word after a label, or after "bearer", is replaced whatever it is. *)
Lemma labelled_word_redacted label secret words :
  normalized_token label = "bearer" ∨ sensitive_label_without_value (normalized_token label) = true →
  normalized_token secret ≠ "bearer" →
  redact_words false (label :: secret :: words) = label :: redacted_token secret :: redact_words false words.
Proof.
  intros Hl Hs. cbn [redact_words]. unfold redact_word at 1.
  assert ((normalized_token label =?= "bearer") || sensitive_label_without_value (normalized_token label) = true) as ->.
  { destruct Hl as [->| ->]; [done|apply orb_true_r]. }
  unfold redact_word at 1. by rewrite bool_decide_eq_false_2.
Qed.

(** The prefix condition can be computed. *)
Definition quiet_check (p rest : string) : bool :=
  forallb (λ i, match byte_at p i with
                | Some c => negb (c =?= QUOTE)
                            || negb (is_some (sensitive_json_string_value_range (slice p (i + 1) (String.length p) +:+ rest)))
                | None => true
                end) (seq 0 (String.length p)).
Lemma quiet_check_sound p rest : quiet_check p rest = true → quiet_before p rest.
Proof.
  intros H a b ->. unfold quiet_check in H. rewrite forallb_forall in H. specialize (H (String.length a)).
  assert (byte_at (a +:+ String QUOTE b) (String.length a) = Some QUOTE) as Hb.
  { clear. induction a as [|c a IH]; [done|exact IH]. }
  assert (slice (a +:+ String QUOTE b) (String.length a + 1) (String.length (a +:+ String QUOTE b)) = b) as Hs.
  { change (String QUOTE b) with (String QUOTE "" +:+ b). rewrite <-append_assoc.
    replace (String.length a + 1)%nat with (String.length (a +:+ String QUOTE "")) by (by rewrite append_length).
    apply slice_from_app. }
  rewrite Hb, Hs, bool_decide_eq_true_2 in H by done. cbn [negb orb] in H.
  assert (negb (is_some (sensitive_json_string_value_range (b +:+ rest))) = true) as Hn.
  { apply H. apply in_seq. rewrite append_length. cbn. lia. }
  by destruct (sensitive_json_string_value_range _).
Qed.

(** ** Concrete inputs *)

Definition error_prefix : string := "bad request {" +:+ String QUOTE "model" +:+ String QUOTE ": 1, ".
Lemma json_secret_not_disclosed_witness :
  redact_proxy_error_message (error_prefix +:+ member "token" "" " " "abc" +:+ "}")
  = redact_proxy_error_message (error_prefix +:+ member "token" "" " " "x y" +:+ "}").
Proof.
  apply json_secret_not_disclosed;
    [by constructor..|apply quiet_check_sound; vm_compute; reflexivity|apply quiet_check_sound; vm_compute; reflexivity].
Defined.

(** An authorization value with a scheme, written without a space after the
    separator, loses only the scheme: the credential after it is disclosed. *)
Example assigned_bearer_leaks :
  redact_proxy_error_message "rejected authorization=Bearer opaque-secret" =
    "rejected authorization=[REDACTED] opaque-secret"
  ∧ redact_proxy_error_message "rejected authorization: Bearer opaque-secret" =
    "rejected authorization: Bearer [REDACTED]".
Proof. by vm_compute. Qed.
