(* ===== verification/ProxyHttp.v ===== *)
(** * HTTP of the proxy

    proxy/lib.rs: reading a request from a connection, bounded and in pieces of
    any size, its request line and headers, and writing a response whose headers
    cannot be split. *)

From Stdlib Require Import Ascii String ZArith Lia.
From stdpp Require Import base strings list numbers.
From S2P Require Import Prelude RustStr Timestamps ChatStream ProxyRedaction.

Open Scope string_scope.

Definition MAX_HTTP_HEADER_BYTES : N := 64 * 1024.
Definition MAX_HTTP_BODY_BYTES : N := 2 * 1024 * 1024.

Inductive ProxyHttpMethod := Get | Post | Options | Other (method : string).

Record ProxyHttpRequest := {
  px_method : ProxyHttpMethod;
  px_path : string;
  px_headers : list (string * string);
  px_body : string;
}.

Definition request_get (path : string) : ProxyHttpRequest :=
  {| px_method := Get; px_path := path; px_headers := [("host", "localhost")]; px_body := "" |}.
Definition post_json (path body : string) : ProxyHttpRequest := {|
  px_method := Post; px_path := path;
  px_headers := [("host", "localhost"); ("content-type", "application/json")]; px_body := body |}.
Definition with_header (request : ProxyHttpRequest) (name value : string) : ProxyHttpRequest := {|
  px_method := px_method request; px_path := px_path request;
  px_headers := px_headers request ++ [(name, value)]; px_body := px_body request |}.
Definition header (request : ProxyHttpRequest) (name : string) : option string :=
  snd <$> List.find (λ '(candidate, _), eq_ignore_ascii_case candidate name) (px_headers request).

Record ProxyHttpResponse := {
  pr_status : Z;
  pr_content_type : string;
  pr_headers : list (string * string);
  pr_body : string;
  pr_verdict_json : option string;
  pr_confidential_response_json : option string;
}.

(** Errors of the server: a malformed request, or the connection's. *)
Inductive ReadError := BadRequest (message : string) | IoError.
Abbreviation ReadResult := (result ReadError).

(** ** Text *)

(** [text.split("\r\n")]. *)
Fixpoint split_crlf (s : string) : list string :=
  match s with
  | "" => [""]
  | String a s1 =>
      match s1 with
      | String b s2 =>
          if (a =?= CR) && (b =?= LF) then "" :: split_crlf s2 else cons_first a (split_crlf s1)
      | "" => cons_first a (split_crlf s1)
      end
  end.

Definition CRLF : string := String CR (String LF "").

(** ** Reading a request *)

Definition header_end (buffer : string) : option nat :=
  (λ position, (position + 4)%nat) <$> position (CRLF +:+ CRLF) buffer.

Definition parse_method (method : string) : ProxyHttpMethod :=
  if method =?= "GET" then Get
  else if method =?= "POST" then Post
  else if method =?= "OPTIONS" then Options
  else Other method.

Definition parse_request_line (line : string) : ReadResult (ProxyHttpMethod * string) :=
  match split_whitespace line with
  | [] => Err (BadRequest "missing HTTP method")
  | [_] => Err (BadRequest "missing HTTP request target")
  | [_; _] => Err (BadRequest "missing HTTP version")
  | method :: path :: version :: _ =>
      bail (BadRequest "unsupported HTTP version {version}") when negb (starts_with "HTTP/1." version);
      Ok (parse_method method, path)
  end.

Definition parse_header_line (line : string) : ReadResult (string * string) :=
  match split_once ":" line with
  | None => Err (BadRequest "malformed HTTP header line {line:?}")
  | Some (name, value) => Ok (trim name, trim value)
  end.

Definition content_length (headers : list (string * string)) : ReadResult Z :=
  match List.find (λ '(name, _), eq_ignore_ascii_case name "content-length") headers with
  | None => Ok 0%Z
  | Some (_, value) => ok_or (parse_u64 value) (BadRequest "invalid content-length header: {error}")
  end.

(** A connection: the pieces that arrive, [None] for an error, closed after the
    last; a read takes what has arrived, up to the size of its buffer. *)
Abbreviation Connection := (list (option string)).
Definition read (limit : nat) (connection : Connection) : ReadResult (string * Connection) :=
  match connection with
  | [] => Ok ("", [])
  | None :: _ => Err IoError
  | Some piece :: rest =>
      if (String.length piece <=? limit)%nat then Ok (piece, rest)
      else Ok (slice piece 0 limit, Some (slice piece limit (String.length piece)) :: rest)
  end.

(** The loops read until they have enough; the fuel is one turn per piece and
    byte that may still arrive. *)
Definition connection_size (connection : Connection) : nat :=
  sum_list_with (λ piece, S (from_option String.length 0%nat piece)) connection.

Fixpoint read_head (fuel : nat) (buffer : string) (connection : Connection)
    : option (ReadResult (nat * string * Connection)) :=
  match header_end buffer with
  | Some header_end => Some (Ok (header_end, buffer, connection))
  | None =>
      if (MAX_HTTP_HEADER_BYTES <=? N.of_nat (String.length buffer))%N
      then Some (Err (BadRequest "HTTP request headers exceed proxy limit"))
      else match fuel, read (N.to_nat 1024) connection with
      | O, _ => None
      | S fuel, Err e => Some (Err e)
      | S fuel, Ok ("", _) => Some (Err (BadRequest "connection closed before HTTP headers completed"))
      | S fuel, Ok (chunk, connection) => read_head fuel (buffer +:+ chunk) connection
      end
  end.

Fixpoint read_body_bytes (fuel : nat) (content_length : nat) (body : string) (connection : Connection)
    : option (ReadResult string) :=
  if (content_length <=? String.length body)%nat then Some (Ok (slice body 0 content_length))
  else match fuel, read (Nat.min (content_length - String.length body) (N.to_nat 8192)) connection with
  | O, _ => None
  | S fuel, Err e => Some (Err e)
  | S fuel, Ok ("", _) => Some (Err (BadRequest "connection closed before HTTP body completed"))
  | S fuel, Ok (chunk, connection) => read_body_bytes fuel content_length (body +:+ chunk) connection
  end.

(** The request line and headers of the bytes up to the end of the head. *)
Definition parse_head (head : string) : ReadResult (ProxyHttpMethod * string * list (string * string) * nat) :=
  bail (BadRequest "HTTP request headers are not UTF-8: {error}") when negb (valid_utf8 head);
  match split_crlf head with
  | [] => Err (BadRequest "missing HTTP request line")
  | request_line :: lines =>
      '(method, path) ← parse_request_line request_line;
      headers ← collect_results parse_header_line (List.filter (λ line, negb (is_empty line)) lines);
      length ← content_length headers;
      bail (BadRequest "HTTP request body exceeds proxy limit") when (Z.of_N MAX_HTTP_BODY_BYTES <? length)%Z;
      Ok (method, path, headers, Z.to_nat length)
  end.

Definition read_http_request (connection : Connection) : option (ReadResult ProxyHttpRequest) :=
  match read_head (S (connection_size connection)) "" connection with
  | None => None
  | Some (Err e) => Some (Err e)
  | Some (Ok (header_end, buffer, connection)) =>
      match parse_head (slice buffer 0 header_end) with
      | Err e => Some (Err e)
      | Ok (method, path, headers, length) =>
          match read_body_bytes (S (connection_size connection)) length
                  (slice buffer header_end (String.length buffer)) connection with
          | None => None
          | Some (Err e) => Some (Err e)
          | Some (Ok body) =>
              Some (Ok {| px_method := method; px_path := path; px_headers := headers; px_body := body |})
          end
      end
  end.

(** ** Writing a response *)

Definition reason_phrase (status : Z) : string :=
  if (status =? 200)%Z then "OK"
  else if (status =? 204)%Z then "No Content"
  else if (status =? 400)%Z then "Bad Request"
  else if (status =? 401)%Z then "Unauthorized"
  else if (status =? 403)%Z then "Forbidden"
  else if (status =? 404)%Z then "Not Found"
  else if (status =? 405)%Z then "Method Not Allowed"
  else if (status =? 408)%Z then "Request Timeout"
  else if (status =? 409)%Z then "Conflict"
  else if (status =? 415)%Z then "Unsupported Media Type"
  else if (status =? 500)%Z then "Internal Server Error"
  else if (status =? 502)%Z then "Bad Gateway"
  else if (status =? 503)%Z then "Service Unavailable"
  else "Unknown Status".

Definition valid_header_name (name : string) : bool :=
  negb (is_empty name) && all_bytes (λ c, is_ascii_alphanumeric c || (c =?= "-"%char)) name.

(** [value.replace(['\r', '\n'], " ")]. *)
Fixpoint sanitize_header_value (value : string) : string :=
  match value with
  | "" => ""
  | String c value => String (if (c =?= CR) || (c =?= LF) then " "%char else c) (sanitize_header_value value)
  end.

Definition header_lines (headers : list (string * string)) : list string :=
  omap (λ '(name, value),
    if valid_header_name name then Some (to_ascii_lowercase name +:+ ": " +:+ sanitize_header_value value) else None)
    headers.

Definition head_lines (response : ProxyHttpResponse) : list string :=
  ["HTTP/1.1 " +:+ dec_string (pr_status response) +:+ " " +:+ reason_phrase (pr_status response);
   "content-type: " +:+ sanitize_header_value (pr_content_type response);
   "content-length: " +:+ dec_string (Z.of_nat (String.length (pr_body response)));
   "connection: close"] ++ header_lines (pr_headers response).

Fixpoint print_lines (lines : list string) : string :=
  match lines with [] => CRLF | line :: lines => line +:+ CRLF +:+ print_lines lines end.

(** The bytes written to the connection. *)
Definition write_http_response (response : ProxyHttpResponse) : string :=
  print_lines (head_lines response) +:+ pr_body response.

(** ** A response cannot be split *)

Definition plain_line (line : string) : Prop := line ≠ "" ∧ no_byte CR line ∧ no_byte LF line.

Lemma split_crlf_skip c s : c ≠ CR → split_crlf (String c s) = cons_first c (split_crlf s).
Proof. intros H. destruct s; [done|]. cbn [split_crlf]. by rewrite bool_decide_eq_false_2. Qed.
Lemma split_crlf_line line rest :
  no_byte CR line → split_crlf (line +:+ CRLF +:+ rest) = line :: split_crlf rest.
Proof.
  induction line as [|c line IH]; intros H; [done|]. apply no_byte_cons in H as [Hc H].
  by rewrite append_cons, split_crlf_skip, IH.
Qed.

Lemma position_skip c p x s : x ≠ c → position (String c p) (String x s) = S <$> position (String c p) s.
Proof. intros H. apply position_miss. unfold starts_with. cbn [strip_prefix]. by rewrite bool_decide_eq_false_2 by congruence. Qed.
Lemma position_skip_line p line rest :
  no_byte CR line →
  position (String CR p) (line +:+ rest) = (λ i, (String.length line + i)%nat) <$> position (String CR p) rest.
Proof.
  induction line as [|c line IH]; intros H; [change ("" +:+ rest) with rest; by destruct (position (String CR p) rest)|]. apply no_byte_cons in H as [Hc H].
  rewrite append_cons, position_skip, IH by done. by destruct (position (String CR p) rest).
Qed.

Lemma print_lines_cons line lines : print_lines (line :: lines) = line +:+ CRLF +:+ print_lines lines.
Proof. reflexivity. Qed.


(** The end of printed lines is found where it is. *)
Lemma header_end_lines line lines body :
  Forall plain_line (line :: lines) →
  header_end (print_lines (line :: lines) +:+ body) = Some (String.length (print_lines (line :: lines))).
Proof.
  unfold header_end. change (CRLF +:+ CRLF) with (String CR (String LF CRLF)).
  revert line. induction lines as [|next lines IH]; intros line [[Hn [Hc Hl]] H]%List.Forall_cons_iff.
  - rewrite print_lines_cons, append_assoc, position_skip_line by done. cbn [print_lines].
    rewrite position_at_start.
    + cbn. f_equal. rewrite append_length. change (String.length (CRLF +:+ CRLF)) with 4%nat. lia.
    + exact (starts_with_app (String CR (String LF CRLF)) body).
  - pose proof H as [[Hn' [Hc' _]] _]%List.Forall_cons_iff. specialize (IH next H).
    rewrite print_lines_cons, !append_assoc, position_skip_line by done.
    assert (position (String CR (String LF CRLF)) (CRLF +:+ print_lines (next :: lines) +:+ body)
            = (λ i, (2 + i)%nat) <$> position (String CR (String LF CRLF)) (print_lines (next :: lines) +:+ body)) as ->.
    { destruct next as [|c next]; [done|]. apply no_byte_cons in Hc' as [Hc' _].
      rewrite print_lines_cons, append_assoc, append_cons.
      set (rest := String c _). change (CRLF +:+ rest) with (String CR (String LF rest)).
      assert (starts_with (String CR (String LF CRLF)) (String CR (String LF rest)) = false) as Hs.
      { unfold starts_with, rest. cbn. by rewrite (bool_decide_eq_false_2 (CR = c)) by congruence. }
      rewrite position_miss, position_skip by done. by destruct (position _ rest). }
    destruct (position (String CR (String LF CRLF)) (print_lines (next :: lines) +:+ body)) as [i|]; [|done].
    cbn in IH |- *. injection IH as IH. f_equal. rewrite append_length, append_length, <-IH.
    change (String.length CRLF) with 2%nat. lia.
Qed.

Lemma split_crlf_lines lines :
  Forall plain_line lines → split_crlf (print_lines lines) = (lines ++ [""; ""])%list.
Proof.
  induction 1 as [|line lines [_ [Hc _]] _ IH]; [done|]. cbn [print_lines]. by rewrite split_crlf_line, IH.
Qed.

Lemma sanitized_plain c value : c = CR ∨ c = LF → no_byte c (sanitize_header_value value).
Proof.
  intros Hc. induction value as [|x value IH]; [done|]. cbn. apply no_byte_cons. split; [|done].
  destruct Hc as [->| ->]; repeat case_bool_decide; cbn; subst; done.
Qed.
Lemma dec_string_plain c n : c = CR ∨ c = LF → no_byte c (dec_string n).
Proof.
  intros Hc. assert (∀ m, (0 ≤ m)%Z → no_byte c (dec_digits 20 m "")) as H.
  { intros m Hm. apply (class_excludes is_ascii_digit); [by destruct Hc as [->| ->]|].
    by apply (dec_digits_all 20 m ""). }
  unfold dec_string. destruct (Z.ltb_spec n 0); [|by apply H].
  apply no_byte_app. split; [by destruct Hc as [->| ->]|apply H; lia].
Qed.
Lemma reason_plain c status : c = CR ∨ c = LF → no_byte c (reason_phrase status).
Proof. intros [->| ->]; unfold reason_phrase; repeat case_match; done. Qed.
Lemma lowercase_plain c name : c = CR ∨ c = LF → valid_header_name name = true → no_byte c (to_ascii_lowercase name).
Proof.
  intros Hc [_ H]%andb_true_iff. induction name as [|x name IH]; [done|]. rewrite all_bytes_cons in H.
  apply andb_true_iff in H as [Hx H]. cbn. apply no_byte_cons. split; [|by apply IH].
  unfold to_ascii_lowercase_byte. destruct (is_ascii_uppercase x) eqn:Eu.
  - intros E. apply (f_equal code) in E. unfold code in E. rewrite N_ascii_embedding in E.
    + destruct Hc as [->| ->]; cbn in E; lia.
    + unfold is_ascii_uppercase, between, code in Eu. bools. lia.
  - intros ->. by destruct Hc as [->| ->].
Qed.

Lemma head_lines_plain response : Forall plain_line (head_lines response).
Proof.
  unfold head_lines. apply Forall_app. split.
  - repeat apply List.Forall_cons; try apply List.Forall_nil; (split; [done|]); split;
      repeat (apply no_byte_app; split); try done; auto using sanitized_plain, dec_string_plain, reason_plain.
  - apply Forall_forall. intros line Hl. unfold header_lines in Hl. apply list_elem_of_In, list_elem_of_omap in Hl as ([name value] & _ & Hl).
    destruct (valid_header_name name) eqn:En; [|done]. injection Hl as <-. split.
    + by destruct (to_ascii_lowercase name).
    + split; repeat (apply no_byte_app; split); try done; auto using sanitized_plain, lowercase_plain.
Qed.

(** Whatever a response's headers, content type and body hold, a reader that
    looks for the end of the head finds it where the body starts, and the lines of
    the head are the status line, the three fixed headers and one line for each
    header with a valid name. *)
Theorem response_not_split response :
  let out := write_http_response response in
  ∃ head, out = head +:+ pr_body response ∧ header_end out = Some (String.length head)
    ∧ split_crlf head = (head_lines response ++ [""; ""])%list.
Proof.
  cbn. exists (print_lines (head_lines response)). split; [done|].
  pose proof (head_lines_plain response) as H. split; [|by apply split_crlf_lines].
  unfold head_lines in *. cbn [app] in *. by apply header_end_lines.
Qed.

(** ** Reading ends, and does not depend on the pieces *)

Lemma header_end_prefix s t h :
  (h ≤ String.length s)%nat → header_end (s +:+ t) = Some h ↔ header_end s = Some h.
Proof.
  intros Hl. unfold header_end. rewrite !fmap_Some.
  assert (∀ i, h = (i + 4)%nat →
    position (CRLF +:+ CRLF) (s +:+ t) = Some i ↔ position (CRLF +:+ CRLF) s = Some i) as H.
  { intros i ->. apply position_app. exact Hl. }
  by split; intros (i & E & Hi); exists i; (split; [apply (H i Hi)|]).
Qed.
Lemma header_end_app s t h : header_end s = Some h → header_end (s +:+ t) = Some h.
Proof.
  intros H. apply header_end_prefix; [|done]. unfold header_end in H. apply fmap_Some in H as (i & E & ->).
  by apply position_bound in E.
Qed.
Lemma header_end_split s h : header_end s = Some h → ∃ a b, s = a +:+ b ∧ String.length a = h.
Proof.
  unfold header_end. destruct (position _ s) as [i|] eqn:E; [|done]. intros [= <-].
  apply position_Some in E as (a & b & -> & <-). exists (a +:+ CRLF +:+ CRLF), b.
  rewrite append_length. split; [by rewrite !append_assoc|]. change (String.length (CRLF +:+ CRLF)) with 4%nat. lia.
Qed.


(** What a read can do. *)
Lemma read_cases limit connection :
  (0 < limit)%nat →
  read limit connection = Err IoError
  ∨ (∃ rest, read limit connection = Ok ("", rest))
  ∨ (∃ chunk rest, read limit connection = Ok (chunk, rest) ∧ chunk ≠ ""
       ∧ (connection_size rest < connection_size connection)%nat).
Proof.
  intros Hl. destruct connection as [|[piece|] rest]; cbn [read]; [eauto| |eauto].
  destruct (Nat.leb_spec (String.length piece) limit).
  - destruct piece; [eauto|]. right. right. eexists _, _. split; [done|]. split; [done|]. unfold connection_size. cbn. lia.
  - right. right. eexists _, _. split; [done|].
    pose proof (substring_length 0 limit piece) as H0. pose proof (substring_length limit (String.length piece - limit) piece) as H1.
    unfold slice. rewrite Nat.sub_0_r. split.
    + intros E. rewrite E in H0. cbn in H0. lia.
    + unfold connection_size. cbn. rewrite H1. lia.
Qed.

Lemma read_head_ends fuel buffer connection :
  (connection_size connection < fuel)%nat → is_some (read_head fuel buffer connection) = true.
Proof.
  revert buffer connection. induction fuel as [|fuel IH]; intros buffer connection H; [lia|]. cbn [read_head].
  destruct (header_end buffer); [done|]. destruct (MAX_HTTP_HEADER_BYTES <=? _)%N; [done|].
  destruct (read_cases (N.to_nat 1024) connection) as [E|[(rest & E)|(chunk & rest & E & Hc & Hs)]];
    [lia|by rewrite E..|]. rewrite E. destruct chunk; [done|]. apply IH. lia.
Qed.
Lemma read_body_ends fuel n body connection :
  (connection_size connection < fuel)%nat → is_some (read_body_bytes fuel n body connection) = true.
Proof.
  revert body connection. induction fuel as [|fuel IH]; intros body connection H; [lia|]. cbn [read_body_bytes].
  destruct (Nat.leb_spec n (String.length body)) as [|Hn]; [done|].
  destruct (read_cases (Nat.min (n - String.length body) (N.to_nat 8192)) connection)
    as [E|[(rest & E)|(chunk & rest & E & Hc & Hs)]]; [lia|by rewrite E..|].
  rewrite E. destruct chunk; [done|]. apply IH. lia.
Qed.
Lemma read_body_length fuel n body connection b :
  read_body_bytes fuel n body connection = Some (Ok b) → String.length b = n.
Proof.
  revert body connection. induction fuel as [|fuel IH]; intros body connection; cbn [read_body_bytes];
    (destruct (Nat.leb_spec n (String.length body));
       [intros [= <-]; unfold slice; rewrite substring_length; lia|]); [done|].
  destruct (read _ connection) as [[[|c chunk] rest]|]; [done| |done]. apply IH.
Qed.
Lemma parse_head_length head method path headers n :
  parse_head head = Ok (method, path, headers, n) → (N.of_nat n ≤ MAX_HTTP_BODY_BYTES)%N.
Proof. unfold parse_head. intros H. inv_ok. destruct (split_crlf head); inv_ok.
  destruct x as [m p]. inv_ok. bools. unfold MAX_HTTP_BODY_BYTES in *. lia. Qed.

(** Reading a request ends on every connection, whatever arrives on it, and
    the request has a body of at most [MAX_HTTP_BODY_BYTES]. *)
Theorem request_read_bounded connection :
  ∃ r, read_http_request connection = Some r
    ∧ ∀ request, r = Ok request → (N.of_nat (String.length (px_body request)) ≤ MAX_HTTP_BODY_BYTES)%N.
Proof.
  unfold read_http_request. pose proof (read_head_ends (S (connection_size connection)) "" connection) as Hh.
  destruct (read_head _ "" connection) as [[[[h buffer] rest]|e]|]; [|by eexists|by discriminate Hh; lia].
  destruct (parse_head (slice buffer 0 h)) as [[[[method path] headers] n]|e] eqn:Ep; [|by eexists].
  pose proof (read_body_ends (S (connection_size rest)) n (slice buffer h (String.length buffer)) rest) as Hb.
  destruct (read_body_bytes _ n _ rest) as [[body|e]|] eqn:Eb; [|by eexists|by discriminate Hb; lia].
  eexists. split; [done|]. intros request [= <-]. cbn. rewrite (read_body_length _ _ _ _ _ Eb).
  by apply parse_head_length in Ep.
Qed.

(** The bytes a connection delivers when nothing fails: pieces that are not empty. *)
Definition arrives (connection : Connection) : Prop := Forall (λ piece, ∃ s, piece = Some s ∧ s ≠ "") connection.
Definition delivered (connection : Connection) : string :=
  foldr (λ piece s, default "" piece +:+ s) "" connection.

(** A request read from the bytes at once, whatever the length of its head: the
    specification has no limit on the head, which [read_head] tests before every
    read. *)
Definition request_of_bytes (bytes : string) : ReadResult ProxyHttpRequest :=
  match header_end bytes with
  | None => Err (BadRequest "connection closed before HTTP headers completed")
  | Some h =>
      match parse_head (slice bytes 0 h) with
      | Err e => Err e
      | Ok (method, path, headers, length) =>
          if (String.length bytes <? h + length)%nat
          then Err (BadRequest "connection closed before HTTP body completed")
          else Ok {| px_method := method; px_path := path; px_headers := headers; px_body := slice bytes h (h + length) |}
      end
  end.

(** Bytes of the head, counting one past the bytes when the head does not end in them. *)
Definition head_bytes (bytes : string) : N := N.of_nat (default (S (String.length bytes)) (header_end bytes)).

Lemma read_arrives limit connection :
  (0 < limit)%nat → arrives connection →
  (connection = [] ∧ read limit connection = Ok ("", []))
  ∨ ∃ c chunk rest, read limit connection = Ok (String c chunk, rest) ∧ arrives rest
      ∧ delivered connection = String c chunk +:+ delivered rest
      ∧ (connection_size rest < connection_size connection)%nat.
Proof.
  intros Hl Ha. destruct connection as [|piece rest]; [by left|]. right.
  apply List.Forall_cons_iff in Ha as [(s & -> & Hs) Ha].
  destruct (read_cases limit (Some s :: rest) Hl) as [E|[(r & E)|(chunk & r & E & Hc & Hsize)]];
    cbn [read] in E; destruct (Nat.leb_spec (String.length s) limit) as [|Hlt]; try done.
  - by injection E as ->.
  - injection E as E _. apply (f_equal String.length) in E. unfold slice in E. rewrite substring_length in E. cbn in E. lia.
  - injection E as -> ->. destruct chunk as [|c chunk]; [done|]. exists c, chunk, r. cbn [read].
    destruct (Nat.leb_spec (String.length (String c chunk)) limit); [done|lia].
  - injection E as <- <-. destruct (slice s 0 limit) as [|c chunk] eqn:E0; [done|].
    eexists c, chunk, _. cbn [read]. destruct (Nat.leb_spec (String.length s) limit); [lia|]. rewrite E0.
    split; [done|]. split; [|split; [|exact Hsize]].
    + constructor; [|done]. eexists. split; [done|]. intros E. apply (f_equal String.length) in E.
      unfold slice in E. rewrite substring_length in E. cbn in E. lia.
    + rewrite <-E0. cbn. rewrite <-append_assoc, <-slice_cut by lia. done.
Qed.

Lemma read_head_arrives fuel buffer connection :
  (connection_size connection < fuel)%nat → arrives connection →
  (head_bytes (buffer +:+ delivered connection) ≤ MAX_HTTP_HEADER_BYTES)%N →
  match header_end (buffer +:+ delivered connection) with
  | None => read_head fuel buffer connection
            = Some (Err (BadRequest "connection closed before HTTP headers completed"))
  | Some h => ∃ buffer' rest, read_head fuel buffer connection = Some (Ok (h, buffer', rest))
      ∧ arrives rest ∧ header_end buffer' = Some h
      ∧ buffer' +:+ delivered rest = buffer +:+ delivered connection
  end.
Proof.
  revert buffer connection. induction fuel as [|fuel IH]; intros buffer connection Hf Ha Hm; [lia|]. cbn [read_head].
  destruct (header_end buffer) as [h|] eqn:Eh.
  { rewrite (header_end_app _ _ _ Eh). by exists buffer, connection. }
  assert (String.length buffer < default (S (String.length (buffer +:+ delivered connection)))
            (header_end (buffer +:+ delivered connection)))%nat as Hl.
  { destruct (header_end (buffer +:+ delivered connection)) as [h|] eqn:E; cbn; [|rewrite append_length; lia].
    apply Nat.nle_gt. intros Hle. apply header_end_prefix in E; [by rewrite E in Eh|done]. }
  unfold head_bytes in Hm. destruct (N.leb_spec MAX_HTTP_HEADER_BYTES (N.of_nat (String.length buffer))); [lia|].
  destruct (read_arrives (N.to_nat 1024) connection) as [[-> E]|(c & chunk & rest & E & Ha' & Hd & Hs)]; [lia|done|..]; rewrite E.
  - cbn [delivered foldr]. by rewrite append_nil_r, Eh.
  - rewrite Hd, <-append_assoc in Hm |- *. apply IH; [lia|done|done].
Qed.

Lemma read_body_arrives fuel n body connection :
  (connection_size connection < fuel)%nat → arrives connection →
  let bytes := body +:+ delivered connection in
  read_body_bytes fuel n body connection
  = Some (if (String.length bytes <? n)%nat then Err (BadRequest "connection closed before HTTP body completed")
          else Ok (slice bytes 0 n)).
Proof.
  cbn zeta. revert body connection. induction fuel as [|fuel IH]; intros body connection Hf Ha; [lia|]. cbn [read_body_bytes].
  destruct (Nat.leb_spec n (String.length body)) as [Hle|Hlt].
  { destruct (Nat.ltb_spec (String.length (body +:+ delivered connection)) n) as [Hb|_]; [rewrite append_length in Hb; lia|].
    do 2 f_equal. assert (String.length (slice body 0 n) = n) as Hs by (unfold slice; rewrite substring_length; lia).
    pose proof (slice_app_l (slice body 0 n) (slice body n (String.length body) +:+ delivered connection)) as H.
    by rewrite Hs, <-append_assoc, <-slice_cut in H. }
  destruct (read_arrives (Nat.min (n - String.length body) (N.to_nat 8192)) connection)
    as [[-> E]|(c & chunk & rest & E & Ha' & Hd & Hs)]; [lia|done|..]; rewrite E.
  - cbn [delivered foldr]. rewrite append_nil_r. by destruct (Nat.ltb_spec (String.length body) n); [|lia].
  - rewrite Hd, <-append_assoc. apply IH; [lia|done].
Qed.

(** C38: for a request whose head ends within the first [MAX_HTTP_HEADER_BYTES] bytes,
    64 KiB, the pieces in which it arrives do not matter: when every piece arrives, the
    request that is read, or the error, is that of the bytes read at once. Beyond
    that bound they do: the limit is tested between two reads, so a head that ends
    less than one read after it is accepted or refused depending on the pieces. *)
Theorem request_read_in_pieces connection :
  arrives connection → (head_bytes (delivered connection) ≤ MAX_HTTP_HEADER_BYTES)%N →
  read_http_request connection = Some (request_of_bytes (delivered connection)).
Proof.
  intros Ha Hm. unfold read_http_request, request_of_bytes.
  pose proof (read_head_arrives (S (connection_size connection)) "" connection ltac:(lia) Ha Hm) as H.
  change ("" +:+ delivered connection) with (delivered connection) in H.
  destruct (header_end (delivered connection)) as [h|] eqn:Eh; [|by rewrite H].
  destruct H as (buffer & rest & -> & Ha' & Hb & Hd). rewrite <-Hd.
  destruct (header_end_split _ _ Hb) as (head & body & -> & <-). rewrite !append_assoc, !slice_app_l.
  destruct (parse_head head) as [[[[method path] headers] n]|e]; [|done].
  rewrite (append_length head body), slice_app_r, slice_all, read_body_arrives by (done || lia).
  rewrite !append_length, slice_app_r.
  replace (String.length head + (String.length body + String.length (delivered rest)) <? String.length head + n)%nat
    with (String.length body + String.length (delivered rest) <? n)%nat; [by destruct (_ <? n)%nat|].
  apply eq_true_iff_eq. rewrite !Nat.ltb_lt. lia.
Qed.

(** ** Concrete inputs *)

Definition sample_request_bytes : string :=
  "POST /v1/chat/completions HTTP/1.1" +:+ CRLF +:+ "Host: localhost" +:+ CRLF +:+ "Content-Length: 2" +:+ CRLF +:+ CRLF +:+ "{}".
Definition sample_pieces : Connection :=
  [Some (slice sample_request_bytes 0 40); Some (slice sample_request_bytes 40 (String.length sample_request_bytes))].

Lemma request_read_in_pieces_witness :
  read_http_request sample_pieces
  = Some (Ok {| px_method := Post; px_path := "/v1/chat/completions";
                px_headers := [("Host", "localhost"); ("Content-Length", "2")]; px_body := "{}" |}).
Proof.
  rewrite (request_read_in_pieces sample_pieces); [by vm_compute| |by vm_compute].
  repeat (constructor; [by eexists|]). constructor.
Defined.
