(* ===== verification/Proxy.v ===== *)
(** * The proxy

    proxy/lib.rs: the configuration contract of the proxy, the checks a request
    passes before it reaches the client (origin, host, content type,
    authentication), the routes, and the responses made of the client's answers. *)

From Stdlib Require Import Ascii String ZArith Lia.
From stdpp Require Import base strings list numbers.
From S2P Require Import Prelude RustStr Canonical JsonInjective Policy Verdict VerifierSound ProviderRequest ClientErrors Effects ChatDispatch ProxyRedaction ProxyHttp.

Open Scope string_scope.

(** ** Configuration *)

(** [IpAddr]: four octets, or the value of sixteen. *)
Inductive IpAddr := V4 (a b c d : Z) | V6 (value : Z).
Record SocketAddr := { sa_ip : IpAddr; sa_port : Z }.
Definition is_loopback (ip : IpAddr) : bool :=
  match ip with V4 a _ _ _ => (a =? 127)%Z | V6 value => (value =? 1)%Z end.

Inductive ProxyAuth :=
| LoopbackOnly
| BearerToken (token redacted_token_label : string)
| StrongExternalAuth (description : string).
Inductive ProxyTransportSecurity :=
| PlainHttpLoopbackOnly | Tls | MutualTls | SecureReverseProxy (description : string).
Inductive ProxyCors := CorsDisabled | AllowOrigins (origins : list string) | AllowAnyOrigin.

Record ProxyConfig := {
  px_bind_addr : SocketAddr;
  px_auth : ProxyAuth;
  px_transport : ProxyTransportSecurity;
  px_cors : ProxyCors;
}.
Definition default_proxy_config : ProxyConfig := {|
  px_bind_addr := {| sa_ip := V4 127 0 0 1; sa_port := 8787 |}; px_auth := LoopbackOnly;
  px_transport := PlainHttpLoopbackOnly; px_cors := CorsDisabled |}.

Record ProxyStartupPlan := {
  sp_bind_addr : SocketAddr;
  sp_exposed : bool;
  sp_auth : ProxyAuth;
  sp_auth_enabled : bool;
  sp_transport : ProxyTransportSecurity;
  sp_cors : ProxyCors;
  sp_startup_warnings : list string;
}.

Inductive ProxyConfigError :=
| NonLoopbackRequiresAuth (bind_addr : SocketAddr)
| NonLoopbackRequiresTlsOrReverseProxy (bind_addr : SocketAddr)
| BearerTokenCannotBeEmpty
| WildcardCorsRejected
| CorsRequiresExplicitOrigins
| CorsOriginMustBeHeaderSafe.

Definition requires_authentication (auth : ProxyAuth) : bool :=
  match auth with BearerToken _ _ | StrongExternalAuth _ => true | LoopbackOnly => false end.
Definition protects_non_loopback (transport : ProxyTransportSecurity) : bool :=
  match transport with Tls | MutualTls | SecureReverseProxy _ => true | PlainHttpLoopbackOnly => false end.

(** [text.chars().any(char::is_control)]: the C0 and C1 controls and DEL. *)
Fixpoint any_control (s : string) : bool :=
  match s with
  | "" => false
  | String a s1 =>
      between 0 31 a || between 127 127 a
      || match s1 with String b _ => between 194 194 a && between 128 159 b | "" => false end
      || any_control s1
  end.

Definition startup_warnings (config : ProxyConfig) : list string :=
  (if is_loopback (sa_ip (px_bind_addr config)) then []
   else ["proxy exposed on non-loopback address {}; auth_enabled={}"])
  ++ match px_cors config with CorsDisabled => [] | _ => ["proxy CORS is enabled with explicit origins"] end.

Definition validate_cors (cors : ProxyCors) : result ProxyConfigError unit :=
  match cors with
  | AllowOrigins origins =>
      bail CorsRequiresExplicitOrigins
        when match origins with [] => true | _ => existsb (λ origin, is_empty (trim origin)) origins end;
      bail WildcardCorsRejected when existsb (λ origin, origin =?= "*") origins;
      bail CorsOriginMustBeHeaderSafe
        when existsb (λ origin, negb (trim origin =?= origin) || any_control origin) origins;
      Ok tt
  | CorsDisabled | AllowAnyOrigin => Ok tt
  end.

Definition validate (config : ProxyConfig) : result ProxyConfigError ProxyStartupPlan :=
  let exposed := negb (is_loopback (sa_ip (px_bind_addr config))) in
  bail (NonLoopbackRequiresAuth (px_bind_addr config)) when exposed && negb (requires_authentication (px_auth config));
  bail (NonLoopbackRequiresTlsOrReverseProxy (px_bind_addr config))
    when exposed && negb (protects_non_loopback (px_transport config));
  bail BearerTokenCannotBeEmpty when match px_auth config with BearerToken token _ => is_empty token | _ => false end;
  bail WildcardCorsRejected when match px_cors config with AllowAnyOrigin => true | _ => false end;
  _ ← validate_cors (px_cors config);
  Ok {| sp_bind_addr := px_bind_addr config; sp_exposed := exposed; sp_auth := px_auth config;
        sp_auth_enabled := requires_authentication (px_auth config); sp_transport := px_transport config;
        sp_cors := px_cors config; sp_startup_warnings := startup_warnings config |}.

Inductive ProxyServerError :=
| ServerConfig (error : ProxyConfigError) | ServerIo | ServerBadRequest (message : string)
| UnsupportedTransport (message : string).

(** [ProxyServer::bind], [tcp_bind] telling whether the address can be bound. *)
Definition bind (tcp_bind : SocketAddr → bool) (config : ProxyConfig) : result ProxyServerError ProxyStartupPlan :=
  plan ← map_err ServerConfig (validate config);
  bail (UnsupportedTransport "the built-in HTTP server only binds loopback addresses; use a secure reverse proxy or TLS server integration for exposed deployments")
    when sp_exposed plan;
  bail (UnsupportedTransport "the built-in HTTP server currently supports plain HTTP loopback transport only")
    when match sp_transport plan with PlainHttpLoopbackOnly => false | _ => true end;
  bail ServerIo when negb (tcp_bind (sp_bind_addr plan));
  Ok plan.

(** [Display], with the values it interpolates left as placeholders. *)
Definition config_error_text (error : ProxyConfigError) : string :=
  match error with
  | NonLoopbackRequiresAuth _ => "proxy bind address {bind_addr} is non-loopback and requires authentication"
  | NonLoopbackRequiresTlsOrReverseProxy _ =>
      "proxy bind address {bind_addr} is non-loopback and requires TLS, mTLS, or a secure reverse proxy"
  | BearerTokenCannotBeEmpty => "proxy bearer token authentication requires a non-empty token"
  | WildcardCorsRejected => "proxy CORS must use explicit origins, not wildcard"
  | CorsRequiresExplicitOrigins => "proxy CORS requires at least one explicit origin"
  | CorsOriginMustBeHeaderSafe => "proxy CORS origins must be header-safe exact values"
  end.
Definition server_error_text (error : ProxyServerError) : string :=
  match error with
  | ServerConfig error => config_error_text error
  | ServerIo => "{error}"
  | ServerBadRequest message => "bad proxy HTTP request: " +:+ message
  | UnsupportedTransport message => message
  end.

(** ** Authentication *)

Definition bearer_token (token : string) : ProxyAuth := BearerToken token "configured-bearer-token".

(** [constant_time_eq]: the length, then the bits of every byte. *)
Definition constant_time_eq (left right : string) : bool :=
  if negb (String.length left =? String.length right)%nat then false
  else let difference :=
         fold_left (λ difference pair, N.lor difference (N.lxor (code pair.1) (code pair.2)))
           (zip (bytes left) (bytes right)) 0%N in
       (difference =? 0)%N.

Definition request_authorized (auth : ProxyAuth) (request : ProxyHttpRequest) : bool :=
  match auth with
  | LoopbackOnly | StrongExternalAuth _ => true
  | BearerToken token _ =>
      match header request "authorization" ≫= strip_prefix "Bearer " with
      | Some candidate => constant_time_eq candidate token
      | None => false
      end
  end.

(** ** Responses *)

Definition status_header_value (status : VerificationStatus) : string :=
  match status with
  | StatusVerified => "verified" | StatusPartial => "partial" | StatusFailed => "failed"
  | StatusUnreachable => "unreachable" | StatusDisabled => "disabled"
  end.
Definition integrity_header_value (result : ResponseIntegrityResult) : string :=
  match result with
  | RespChannelBound => "channel_bound" | RespReceiptBound => "receipt_bound"
  | RespNotBound => "not_bound" | RespUnknown => "unknown"
  end.

(** The parts of the client the proxy calls, and the JSON of what they take and
    give ([None] where [serde_json] fails). [W] is the client's world. *)
Class ProxySdk (W : Type) := {
  (** [ChatCompletionRequestPayload], [ResponseCreateRequest] and the responses. *)
  sdk_payload : Type;
  sdk_create : Type;
  sdk_chat : Type;
  sdk_created : Type;
  sdk_payload_from_json : string → option sdk_payload;
  sdk_create_from_slice : string → option sdk_create;
  sdk_value_from_str : string → option Value;
  sdk_chat_from_json : string → option (ConfidentialResponse sdk_chat);
  sdk_chat_json : sdk_chat → option string;
  sdk_chat_response_json : ConfidentialResponse sdk_chat → option string;
  sdk_created_json : sdk_created → option string;
  sdk_created_response_json : ConfidentialResponse sdk_created → option string;
  sdk_verdict_json : AttestationVerdict → option string;
  sdk_models_json : option string;
  sdk_confidential_models_json : option string;
  sdk_send_chat : sdk_payload → eff W ClientError string;
  sdk_create_response : sdk_create → eff W ClientError (ConfidentialResponse sdk_created);
  sdk_verify_route : string → string → eff W ClientError AttestationVerdict;
}.

Section Responses.
Context {prim : Primitives}.

Definition proxy_error_body (error_code message : string) : string :=
  "{" +:+ json_string "error" +:+ ":{" +:+ json_string "code" +:+ ":" +:+ json_string error_code +:+ ","
  +:+ json_string "message" +:+ ":" +:+ json_string (redact_proxy_error_message message) +:+ ","
  +:+ json_string "type" +:+ ":" +:+ json_string "confidential_inference_proxy_error" +:+ "}}".

Definition proxy_error_response_with_headers (status : Z) (error_code message : string)
    (headers : list (string * string)) : ProxyHttpResponse := {|
  pr_status := status; pr_content_type := "application/json"; pr_headers := headers;
  pr_body := proxy_error_body error_code message; pr_verdict_json := None; pr_confidential_response_json := None |}.
Definition proxy_error_response (status : Z) (error_code message : string) : ProxyHttpResponse :=
  proxy_error_response_with_headers status error_code message [].
Definition method_not_allowed_response (method : string) : ProxyHttpResponse :=
  proxy_error_response_with_headers 405 "method_not_allowed"
    ("HTTP method " +:+ method +:+ " is not supported by the proxy") [("allow", "GET, POST, OPTIONS")].

Definition json_response (status : Z) (json : option string) : ProxyHttpResponse := {|
  pr_status := status; pr_content_type := "application/json"; pr_headers := [];
  pr_body := default (proxy_error_body "response_serialization_failed"
                        "failed to serialize proxy response JSON: {error}") json;
  pr_verdict_json := None; pr_confidential_response_json := None |}.

Definition error_dispatch (error : ClientError) : string :=
  match dispatch_outcome error with
  | NotDispatched => "not_dispatched" | Rejected _ => "rejected" | OutcomeUnknown => "unknown"
  end.

Definition client_error_status (error : ClientError) : Z * string :=
  match error with
  | RouteNotFound _ _ | UnknownProvider _ => (404%Z, "route_not_found")
  | RouteSelectionFailed _ _ _ | MissingModel | MissingMessages | ResponseCompatibility _
  | StreamingNotSupported _ | StreamingPathRequired | MissingInput | VerifiedRouteModelMismatch _ _ _
  | InvalidProviderRouting _ _ => (400%Z, "invalid_request")
  | PolicyDenied _ _ => (403%Z, "policy_denied")
  | VerifiedRouteExpired _ => (409%Z, "verified_route_expired")
  | InsecurePolicyRequiresOptIn _ | MissingOperatorSigningKeys _ | BundledSourceRequiresTrust _
  | FixtureFallbackNotBundled _ => (500%Z, "client_configuration_failed")
  | ResponseJsonSerialization _ => (500%Z, "response_serialization_failed")
  | RegistryCache _ => (503%Z, "registry_cache_failed")
  | ReferenceValuesCache _ => (503%Z, "reference_values_cache_failed")
  | Attestation _ | Provider _ | VerificationWaitQueueFull _ _ | VerificationWaitTimeout _
  | RouteAttemptsFailed _ _ | ProviderChat _ _ _ | ResponseVerificationFailed _ _
  | EmbeddingsRouteAttemptsFailed _ _ | ProviderEmbeddings _ _ _ | ProviderResponseManage _ _ _ =>
      (502%Z, "upstream_verification_failed")
  end.
Definition client_error_response (error : ClientError) : ProxyHttpResponse :=
  let '(status, error_code) := client_error_status error in
  proxy_error_response_with_headers status error_code (client_error_text error)
    [("x-confidential-inference-dispatch", error_dispatch error)].

Definition confidential_response_body {W} {sdk : ProxySdk W} {T} (to_json : T → option string)
    (response_json : ConfidentialResponse T → option string) (response : ConfidentialResponse T) : ProxyHttpResponse := {|
  pr_status := 200; pr_content_type := "application/json";
  pr_headers :=
    [("x-confidential-inference-verdict-status", status_header_value (v_status (cf_verdict response)));
     ("x-confidential-inference-route-id", v_route_id (cf_verdict response));
     ("x-confidential-inference-provider", cf_provider _ response);
     ("x-confidential-inference-provider-model", cf_provider_model _ response);
     ("x-confidential-inference-response-integrity", integrity_header_value (cf_response_integrity_result _ response))];
  pr_body := default (proxy_error_body "response_serialization_failed"
                        "failed to serialize OpenAI-compatible response JSON: {error}") (to_json (cf_response response));
  pr_verdict_json := sdk_verdict_json (cf_verdict response);
  pr_confidential_response_json := response_json response |}.

(** ** Checks of a request *)

Definition cors_allowed_origin (plan : ProxyStartupPlan) (request : ProxyHttpRequest) : option string :=
  origin ← header request "origin";
  match sp_cors plan with
  | CorsDisabled | AllowAnyOrigin => None
  | AllowOrigins origins => List.find (λ allowed, allowed =?= origin) origins
  end.

Definition cors_origin_error (plan : ProxyStartupPlan) (request : ProxyHttpRequest) (cors_origin_allowed : bool)
    : option ProxyHttpResponse :=
  _ ← header request "origin";
  let refused := proxy_error_response 403 "cors_origin_not_allowed" "request Origin is not allowed by proxy CORS policy" in
  match sp_cors plan with
  | CorsDisabled => Some refused
  | _ => if cors_origin_allowed then None else Some refused
  end.

Definition host_header_is_loopback (host : string) : bool :=
  let host := trim host in
  let name :=
    match strip_prefix "[" host with
    | Some rest => to_ascii_lowercase <$> head (split_byte "]" rest)
    | None =>
        match rsplit_once ":" host with
        | Some (name, port) =>
            if negb (any_byte (λ c, c =?= ":"%char) name) && all_bytes is_ascii_digit port
            then Some (to_ascii_lowercase name) else None
        | None => Some (to_ascii_lowercase host)
        end
    end in
  match name with
  | Some name => (name =?= "localhost") || (name =?= "127.0.0.1") || (name =?= "::1")
  | None => false
  end.
Definition host_header_error (plan : ProxyStartupPlan) (request : ProxyHttpRequest) : option ProxyHttpResponse :=
  match sp_auth plan with
  | LoopbackOnly =>
      if host_header_is_loopback (default "" (header request "host")) then None
      else Some (proxy_error_response 403 "host_not_loopback"
                   "proxy requires a loopback Host header when authentication is LoopbackOnly")
  | _ => None
  end.

Definition media_type (content_type : string) : string :=
  to_ascii_lowercase (trim (default "" (head (split_byte ";" content_type)))).
Definition content_type_error (request : ProxyHttpRequest) : option ProxyHttpResponse :=
  match px_method request with
  | Post =>
      if media_type (default "" (header request "content-type")) =?= "application/json" then None
      else Some (proxy_error_response 415 "unsupported_media_type" "POST requests must use content-type application/json")
  | _ => None
  end.

Definition authorization_error (plan : ProxyStartupPlan) (request : ProxyHttpRequest) : option ProxyHttpResponse :=
  if request_authorized (sp_auth plan) request then None
  else Some (proxy_error_response_with_headers 401 "unauthorized" "proxy request is missing valid authentication"
               [("www-authenticate", "Bearer")]).

(** ** CORS preflight *)

Definition is_cors_preflight (plan : ProxyStartupPlan) (request : ProxyHttpRequest) : bool :=
  match sp_cors plan with CorsDisabled => false | _ => true end
  && match px_method request with Options => true | _ => false end
  && is_some (header request "origin")
  && is_some (header request "access-control-request-method").

Definition cors_method_allowed (method : string) : bool := (method =?= "GET") || (method =?= "POST").
Definition cors_requested_headers_allowed (headers : option string) : bool :=
  match headers with
  | None => true
  | Some headers =>
      forallb (λ header, let name := to_ascii_lowercase (trim header) in
        (name =?= "") || (name =?= "authorization") || (name =?= "content-type")) (split_byte "," headers)
  end.
Definition handle_cors_preflight (request : ProxyHttpRequest) : ProxyHttpResponse :=
  let requested_method := default "" (header request "access-control-request-method") in
  if negb (cors_method_allowed requested_method) then method_not_allowed_response requested_method
  else if negb (cors_requested_headers_allowed (header request "access-control-request-headers"))
  then proxy_error_response 403 "cors_headers_not_allowed" "requested CORS headers are not allowed by proxy CORS policy"
  else {| pr_status := 204; pr_content_type := "text/plain";
          pr_headers := [("access-control-allow-methods", "GET, POST, OPTIONS");
                         ("access-control-allow-headers", "authorization, content-type");
                         ("access-control-max-age", "600")];
          pr_body := ""; pr_verdict_json := None; pr_confidential_response_json := None |}.

Definition decorate_response (cors_origin : option string) (preflight : bool) (response : ProxyHttpResponse)
    : ProxyHttpResponse :=
  match cors_origin with
  | None => response
  | Some origin =>
      let vary := if preflight then "origin, access-control-request-method, access-control-request-headers" else "origin" in
      {| pr_status := pr_status response; pr_content_type := pr_content_type response;
         pr_headers := pr_headers response ++ [("access-control-allow-origin", origin); ("vary", vary)];
         pr_body := pr_body response; pr_verdict_json := pr_verdict_json response;
         pr_confidential_response_json := pr_confidential_response_json response |}
  end.
End Responses.

(** ** Routes *)

Definition is_slash (c : ascii) : bool := c =?= "/"%char.
Definition normalized_path (path : string) : string :=
  let trimmed := trim_end_set is_slash (default path (head (split_byte "?" path))) in
  if is_empty trimmed then "/" else trimmed.

Fixpoint join_slash (parts : list string) : string :=
  match parts with [] => "" | [part] => part | part :: parts => part +:+ "/" +:+ join_slash parts end.
Definition attestation_path_parts (path : string) : option (string * string) :=
  match List.filter (λ part, negb (is_empty part)) (split_byte "/" (trim_start_set is_slash path)) with
  | v1 :: attestation :: provider :: model =>
      if (v1 =?= "v1") && (attestation =?= "attestation")
      then let model := join_slash model in
           if is_empty provider || is_empty model then None else Some (provider, model)
      else None
  | _ => None
  end.

Section Handlers.
Context {prim : Primitives} {W : Type} {sdk : ProxySdk W}.

Definition request_requests_streaming (request_json : string) : bool :=
  default false (value ← sdk_value_from_str request_json; stream ← value_get "stream" value; value_as_bool stream).

Definition handle_chat_completions (body : string) (w : W) : ProxyHttpResponse * W :=
  if negb (valid_utf8 body)
  then (proxy_error_response 400 "invalid_request_json" "OpenAI chat completion request body is not UTF-8: {error}", w)
  else if request_requests_streaming body
  then (proxy_error_response 400 "streaming_not_supported" "the proxy does not support streaming chat completions", w)
  else match sdk_payload_from_json body with
  | None =>
      (proxy_error_response 400 "invalid_request_json" "failed to parse OpenAI chat completion request JSON: {error}", w)
  | Some request =>
      match sdk_send_chat request w with
      | (Ok response_json, w) =>
          (match sdk_chat_from_json response_json with
           | Some response => confidential_response_body sdk_chat_json sdk_chat_response_json response
           | None => proxy_error_response 500 "response_serialization_failed"
                       "failed to deserialize SDK chat response JSON: {error}"
           end, w)
      | (Err error, w) => (client_error_response error, w)
      end
  end.

Definition handle_responses (body : string) (w : W) : ProxyHttpResponse * W :=
  match sdk_create_from_slice body with
  | None => (proxy_error_response 400 "invalid_request_json" "failed to parse OpenAI Responses request JSON: {error}", w)
  | Some request =>
      match sdk_create_response request w with
      | (Ok response, w) => (confidential_response_body sdk_created_json sdk_created_response_json response, w)
      | (Err error, w) => (client_error_response error, w)
      end
  end.

Definition handle_attestation (path : string) (w : W) : ProxyHttpResponse * W :=
  match attestation_path_parts path with
  | None => (proxy_error_response 400 "invalid_attestation_path" "expected /v1/attestation/{provider}/{model}", w)
  | Some (provider, model) =>
      match sdk_verify_route provider model w with
      | (Ok verdict, w) => (json_response 200 (sdk_verdict_json verdict), w)
      | (Err error, w) => (client_error_response error, w)
      end
  end.

Definition route_request (request : ProxyHttpRequest) (w : W) : ProxyHttpResponse * W :=
  let path := normalized_path (px_path request) in
  let not_found := proxy_error_response 404 "not_found" "proxy route not found" in
  match px_method request with
  | Post =>
      if path =?= "/v1/chat/completions" then handle_chat_completions (px_body request) w
      else if path =?= "/v1/responses" then handle_responses (px_body request) w
      else (not_found, w)
  | Get =>
      if path =?= "/v1/models" then (json_response 200 sdk_models_json, w)
      else if path =?= "/v1/confidentiality" then (json_response 200 sdk_confidential_models_json, w)
      else if starts_with "/v1/attestation/" path then handle_attestation path w
      else (not_found, w)
  | Options => (method_not_allowed_response "OPTIONS", w)
  | Other method =>
      (proxy_error_response 405 "method_not_allowed" ("HTTP method " +:+ method +:+ " is not supported by the proxy"), w)
  end.

Definition handle (plan : ProxyStartupPlan) (request : ProxyHttpRequest) (w : W) : ProxyHttpResponse * W :=
  let cors_origin := cors_allowed_origin plan request in
  let preflight := is_cors_preflight plan request in
  let '(response, w) :=
    match cors_origin_error plan request (is_some cors_origin) with
    | Some response => (response, w)
    | None =>
        match host_header_error plan request with
        | Some response => (response, w)
        | None =>
            match content_type_error request with
            | Some response => (response, w)
            | None =>
                if preflight then (handle_cors_preflight request, w)
                else match authorization_error plan request with
                     | Some response => (response, w)
                     | None => route_request request w
                     end
            end
        end
    end in
  (decorate_response cors_origin preflight response, w).

(** [handle_connection]: the bytes written back. [timed_out] tells whether the
    request was not received in time. *)
Definition handle_connection (plan : ProxyStartupPlan) (timed_out : bool) (connection : Connection) (w : W)
    : option (result ProxyServerError string * W) :=
  if timed_out
  then Some (Ok (write_http_response (proxy_error_response 408 "request_timeout"
                   "HTTP request was not received within the proxy timeout")), w)
  else match read_http_request connection with
  | None => None
  | Some (Ok request) => let '(response, w) := handle plan request w in Some (Ok (write_http_response response), w)
  | Some (Err (BadRequest message)) =>
      Some (Ok (write_http_response (proxy_error_response 400 "bad_request" message)), w)
  | Some (Err IoError) => Some (Err ServerIo, w)
  end.
End Handlers.

(** ** Authentication compares the whole token *)

Lemma fold_lor_zero (pairs : list (ascii * ascii)) acc :
  fold_left (λ difference pair, N.lor difference (N.lxor (code pair.1) (code pair.2))) pairs acc = 0%N
  ↔ acc = 0%N ∧ Forall (λ pair, pair.1 = pair.2) pairs.
Proof.
  revert acc. induction pairs as [|[a b] pairs IH]; intros acc; cbn.
  - split; [by split|tauto].
  - rewrite IH, N.lor_eq_0_iff, N.lxor_eq_0_iff, List.Forall_cons_iff. cbn. split.
    + intros [[-> E] H]. split; [done|]. split; [by apply code_inj|done].
    + intros [-> [-> H]]. done.
Qed.
Lemma zip_bytes_equal (l k : list ascii) : length l = length k → Forall (λ pair, pair.1 = pair.2) (zip l k) → l = k.
Proof.
  revert k. induction l as [|a l IH]; intros [|b k]; try done. cbn. intros [= Hl] [Hab H]%List.Forall_cons_iff.
  cbn in Hab. by rewrite Hab, (IH k).
Qed.
Lemma zip_self (l : list ascii) : Forall (λ pair, pair.1 = pair.2) (zip l l).
Proof. by induction l; constructor. Qed.
Lemma bytes_length s : length (bytes s) = String.length s.
Proof. unfold bytes. induction s as [|c s IH]; [done|]. cbn. by f_equal. Qed.

(** The comparison that touches every byte decides equality. *)
Lemma constant_time_eq_iff left right : constant_time_eq left right = true ↔ left = right.
Proof.
  unfold constant_time_eq. destruct (Nat.eqb_spec (String.length left) (String.length right)) as [Hl|Hl]; cbn.
  - rewrite N.eqb_eq, fold_lor_zero. split.
    + intros [_ H]. apply bytes_inj, zip_bytes_equal; [by rewrite !bytes_length|done].
    + intros ->. split; [done|apply zip_self].
  - split; [done|]. by intros ->.
Qed.

Lemma authorized_bearer token label request :
  request_authorized (BearerToken token label) request = true
  ↔ header request "authorization" = Some ("Bearer " +:+ token).
Proof.
  unfold request_authorized. destruct (header request "authorization") as [value|]; [|done].
  change (Some value ≫= strip_prefix "Bearer ") with (strip_prefix "Bearer " value).
  destruct (strip_prefix "Bearer " value) as [candidate|] eqn:E.
  - apply strip_prefix_Some in E as ->. rewrite constant_time_eq_iff. split; [by intros ->|].
    intros [= H]. by apply append_inj_length in H as [_ ->].
  - split; [done|]. intros [= ->]. by rewrite strip_prefix_app in E.
Qed.

(** ** What an accepted configuration guarantees *)

Definition header_safe_origin (origin : string) : Prop :=
  origin ≠ "*" ∧ origin ≠ "" ∧ trim origin = origin ∧ any_control origin = false.

Definition safe_plan (plan : ProxyStartupPlan) : Prop :=
  (sp_exposed plan = negb (is_loopback (sa_ip (sp_bind_addr plan))))
  ∧ (sp_exposed plan = true → requires_authentication (sp_auth plan) = true ∧ protects_non_loopback (sp_transport plan) = true)
  ∧ (∀ token label, sp_auth plan = BearerToken token label → token ≠ "")
  ∧ sp_cors plan ≠ AllowAnyOrigin
  ∧ (∀ origins, sp_cors plan = AllowOrigins origins → origins ≠ [] ∧ Forall header_safe_origin origins).

Lemma existsb_Forall {A} (p : A → bool) l : existsb p l = false → Forall (λ a, p a = false) l.
Proof. induction l as [|a l IH]; cbn; [constructor|]. intros [H1 H2]%orb_false_iff. constructor; auto. Qed.

Lemma validate_cors_safe origins :
  validate_cors (AllowOrigins origins) = Ok tt → origins ≠ [] ∧ Forall header_safe_origin origins.
Proof.
  cbn. intros H. inv_ok. destruct origins as [|o origins]; [done|]. split; [done|].
  set (l := o :: origins) in *. clearbody l.
  repeat match goal with E : existsb _ l = false |- _ => apply existsb_Forall in E end.
  apply List.Forall_forall. intros x Hx.
  repeat match goal with E : Forall _ l |- _ => rewrite List.Forall_forall in E; specialize (E x Hx); cbn in E end.
  bools. split; [done|]. split; [|done]. by intros ->.
Qed.
Lemma validated_plan_safe config plan : validate config = Ok plan → safe_plan plan.
Proof.
  unfold validate. intros H. inv_ok. split; [done|]. cbn. split; [|split; [|split]].
  - intros E. rewrite E in *. cbn in *. bools. done.
  - intros token label E. rewrite E in *. by destruct token.
  - intros E. by rewrite E in *.
  - intros origins E. rewrite E in *. 
    match goal with Hv : validate_cors _ = Ok ?u |- _ => destruct u; by apply validate_cors_safe end.
Qed.

(** ** Requests that reach the client *)

Definition loopback_name (name : string) : Prop :=
  to_ascii_lowercase name ∈ ["localhost"; "127.0.0.1"; "::1"].
(** A Host header naming loopback: a name, a name and a port, or a bracketed name. *)
Definition names_loopback (host : string) : Prop :=
  loopback_name (trim host)
  ∨ (∃ name port, trim host = name +:+ String ":" port ∧ loopback_name name ∧ all_bytes is_ascii_digit port = true)
  ∨ (∃ name rest, trim host = String "[" (name +:+ rest) ∧ loopback_name name ∧ (rest = "" ∨ starts_with "]" rest = true)).

Lemma split_byte_head c s :
  ∃ part rest, head (split_byte c s) = Some part ∧ s = part +:+ rest ∧ (rest = "" ∨ starts_with (String c "") rest = true).
Proof.
  induction s as [|x s (part & rest & Hh & Hs & Hr)]; cbn [split_byte].
  - exists "", "". split; [done|]. split; [done|]. by left.
  - case_bool_decide as E.
    + subst x. exists "", (String c s). split; [done|]. split; [done|]. right.
      exact (starts_with_app (String c "") s).
    + destruct (split_byte c s) as [|p ps]; [done|]. injection Hh as ->. exists (String x part), rest.
      split; [done|]. split; [by rewrite append_cons, <-Hs|done].
Qed.

Lemma host_header_names host : host_header_is_loopback host = true → names_loopback host.
Proof.
  unfold host_header_is_loopback, names_loopback.
  assert (∀ name, (name =?= "localhost") || (name =?= "127.0.0.1") || (name =?= "::1") = true
                  → name ∈ ["localhost"; "127.0.0.1"; "::1"]) as Hn.
  { intros name H. repeat apply orb_true_iff in H as [H|H]; apply bool_decide_eq_true in H as ->; repeat constructor. }
  destruct (strip_prefix "[" (trim host)) as [rest|] eqn:E.
  - apply strip_prefix_Some in E. destruct (split_byte_head "]" rest) as (part & tl & Hh & -> & Ht). rewrite Hh.
    intros H. right. right. exists part, tl. split; [done|]. split; [by apply Hn|done].
  - pose proof (rsplit_byte ":" (trim host)) as Hr. destruct (rsplit_once ":" (trim host)) as [[name port]|].
    + destruct Hr as [-> _]. destruct (negb _ && all_bytes is_ascii_digit port) eqn:Ep; [|done].
      intros H%Hn. apply andb_true_iff in Ep as [_ Ep]. right. left. by exists name, port.
    + intros H. left. by apply Hn.
Qed.

(** What every request handed to the client has been checked for. *)
Record admitted (plan : ProxyStartupPlan) (request : ProxyHttpRequest) : Prop := {
  ad_origin origin : header request "origin" = Some origin →
    ∃ origins, sp_cors plan = AllowOrigins origins ∧ origin ∈ origins;
  ad_host : sp_auth plan = LoopbackOnly → ∃ host, header request "host" = Some host ∧ names_loopback host;
  ad_json : px_method request = Post →
    ∃ content_type, header request "content-type" = Some content_type ∧ media_type content_type = "application/json";
  ad_token token label : sp_auth plan = BearerToken token label →
    header request "authorization" = Some ("Bearer " +:+ token);
}.

Section Admission.
Context {prim : Primitives} {W : Type} {sdk : ProxySdk W}.

Lemma cors_origin_passes plan request origin :
  cors_origin_error plan request (is_some (cors_allowed_origin plan request)) = None →
  header request "origin" = Some origin → ∃ origins, sp_cors plan = AllowOrigins origins ∧ origin ∈ origins.
Proof.
  unfold cors_origin_error, cors_allowed_origin. intros H E. rewrite E in H. cbn in H.
  destruct (sp_cors plan) as [|origins|]; [done| |done]. exists origins. split; [done|].
  destruct (List.find _ origins) as [o|] eqn:Ef; [|done]. apply List.find_some in Ef as [Hin Ho].
  apply bool_decide_eq_true in Ho as ->. by apply list_elem_of_In.
Qed.
Lemma host_passes plan request :
  host_header_error plan request = None → sp_auth plan = LoopbackOnly →
  ∃ host, header request "host" = Some host ∧ names_loopback host.
Proof.
  unfold host_header_error. intros H E. rewrite E in H.
  destruct (header request "host") as [host|].
  - exists host. split; [done|]. apply host_header_names.
    change (default "" (Some host)) with host in H. by destruct (host_header_is_loopback host).
  - by vm_compute in H.
Qed.
Lemma content_type_passes request :
  content_type_error request = None → px_method request = Post →
  ∃ content_type, header request "content-type" = Some content_type ∧ media_type content_type = "application/json".
Proof.
  unfold content_type_error. intros H E. rewrite E in H. destruct (header request "content-type") as [ct|].
  - exists ct. split; [done|]. change (default "" (Some ct)) with ct in H. by case_bool_decide.
  - by vm_compute in H.
Qed.
Lemma authorization_passes plan request token label :
  authorization_error plan request = None → sp_auth plan = BearerToken token label →
  header request "authorization" = Some ("Bearer " +:+ token).
Proof.
  unfold authorization_error. intros H E. rewrite E in H.
  destruct (request_authorized _ request) eqn:Ea; [|done]. by apply authorized_bearer in Ea.
Qed.

(** The calls of the proxy to the client, and the one a request asks for. *)
Inductive SdkCall := SendChat (payload : sdk_payload) | CreateResponse (create : sdk_create) | VerifyRoute (provider model : string).
Definition call_world (call : SdkCall) (w : W) : W :=
  match call with
  | SendChat payload => (sdk_send_chat payload w).2
  | CreateResponse create => (sdk_create_response create w).2
  | VerifyRoute provider model => (sdk_verify_route provider model w).2
  end.
Definition requested_call (request : ProxyHttpRequest) : option SdkCall :=
  let path := normalized_path (px_path request) in
  match px_method request with
  | Post =>
      if path =?= "/v1/chat/completions"
      then if valid_utf8 (px_body request) && negb (request_requests_streaming (px_body request))
           then SendChat <$> sdk_payload_from_json (px_body request) else None
      else if path =?= "/v1/responses" then CreateResponse <$> sdk_create_from_slice (px_body request)
      else None
  | Get =>
      if starts_with "/v1/attestation/" path
      then (λ '(provider, model), VerifyRoute provider model) <$> attestation_path_parts path else None
  | Options | Other _ => None
  end.

Lemma route_request_world request w :
  (route_request request w).2 = from_option (λ call, call_world call w) w (requested_call request).
Proof.
  unfold route_request, requested_call. destruct (px_method request); try done.
  - case_bool_decide as E1; [by rewrite E1|]. case_bool_decide as E2; [by rewrite E2|].
    destruct (starts_with "/v1/attestation/" _); [|done]. unfold handle_attestation.
    destruct (attestation_path_parts _) as [[provider model]|]; [|done]. cbn.
    by destruct (sdk_verify_route provider model w) as [[?|?] ?].
  - case_bool_decide.
    + unfold handle_chat_completions. destruct (valid_utf8 _); [|done]. destruct (request_requests_streaming _); [done|]. cbn.
      destruct (sdk_payload_from_json _) as [p|]; [|done]. cbn. by destruct (sdk_send_chat p w) as [[?|?] ?].
    + case_bool_decide; [|done]. unfold handle_responses. destruct (sdk_create_from_slice _) as [c|]; [|done]. cbn.
      by destruct (sdk_create_response c w) as [[?|?] ?].
Qed.

(** The checks before the route is taken. *)
Definition refused (plan : ProxyStartupPlan) (request : ProxyHttpRequest) : bool :=
  is_some (cors_origin_error plan request (is_some (cors_allowed_origin plan request)))
  || is_some (host_header_error plan request) || is_some (content_type_error request)
  || is_cors_preflight plan request || is_some (authorization_error plan request).

Lemma handle_world plan request w :
  (handle plan request w).2 = if refused plan request then w else (route_request request w).2.
Proof.
  unfold handle, refused. destruct (cors_origin_error _ _ _); [done|]. destruct (host_header_error _ _); [done|].
  destruct (content_type_error _); [done|]. destruct (is_cors_preflight _ _); [done|].
  destruct (authorization_error _ _); [done|]. cbn. by destruct (route_request request w).
Qed.
Lemma is_some_false {A} (o : option A) : is_some o = false → o = None.
Proof. by destruct o. Qed.
Lemma not_refused_admitted plan request : refused plan request = false → admitted plan request.
Proof.
  unfold refused. rewrite !orb_false_iff. intros [[[[Ho%is_some_false Hh%is_some_false] Hc%is_some_false] _] Ha%is_some_false].
  constructor; eauto using cors_origin_passes, host_passes, content_type_passes, authorization_passes.
Qed.

(** C36: a request reaches the client only when its origin, host, content type
    and authentication were all accepted, and then the client is called once, for
    what the request asks; a request that is refused leaves it as it was. *)
Theorem proxy_calls_guarded plan request w :
  (handle plan request w).2 = w
  ∨ (admitted plan request
     ∧ ∃ call, requested_call request = Some call ∧ (handle plan request w).2 = call_world call w).
Proof.
  rewrite handle_world. destruct (refused plan request) eqn:E; [by left|]. rewrite route_request_world.
  destruct (requested_call request) as [call|]; [|by left]. right. eauto using not_refused_admitted.
Qed.

(** C37: an exposed proxy answers no request from the client without
    authentication: its configuration was only accepted with a protected transport
    and authentication, and a request that reaches the client carries the whole
    bearer token, which is not empty, or was authenticated outside the proxy. *)
Theorem exposed_proxy_authenticated config plan request w :
  validate config = Ok plan → is_loopback (sa_ip (px_bind_addr config)) = false → (handle plan request w).2 ≠ w →
  protects_non_loopback (sp_transport plan) = true
  ∧ match sp_auth plan with
    | LoopbackOnly => False
    | BearerToken token _ => token ≠ "" ∧ header request "authorization" = Some ("Bearer " +:+ token)
    | StrongExternalAuth _ => True
    end.
Proof.
  intros Hv Hl Hw. pose proof (validated_plan_safe _ _ Hv) as (He & Hx & Ht & _).
  assert (sp_bind_addr plan = px_bind_addr config) as Hb by (unfold validate in Hv; by inv_ok).
  rewrite Hb, Hl in He. destruct (Hx He) as [Hr Hp]. split; [done|].
  rewrite handle_world in Hw. destruct (refused plan request) eqn:E; [done|].
  apply not_refused_admitted in E. destruct (sp_auth plan) as [|token label|] eqn:Ea; [done| |done].
  split; [by eapply Ht|]. by eapply (ad_token _ _ E).
Qed.

(** ** The origin a response allows *)

Definition ALLOW_ORIGIN : string := "access-control-allow-origin".
Definition allows_origin (response : ProxyHttpResponse) : bool :=
  existsb (λ h, h.1 =?= ALLOW_ORIGIN) (pr_headers response).

Lemma error_allows_none status error_code message : allows_origin (proxy_error_response status error_code message) = false.
Proof. done. Qed.
Lemma client_error_allows_none error : allows_origin (client_error_response error) = false.
Proof. unfold client_error_response. by destruct (client_error_status error). Qed.
Lemma method_error_allows_none method : allows_origin (method_not_allowed_response method) = false.
Proof. done. Qed.
Lemma body_allows_none {T} (j : T → option string) k r : allows_origin (confidential_response_body j k r) = false.
Proof. done. Qed.
Lemma json_allows_none status json : allows_origin (json_response status json) = false.
Proof. done. Qed.
#[local] Create HintDb allows_none.
#[local] Hint Resolve error_allows_none client_error_allows_none method_error_allows_none body_allows_none json_allows_none : allows_none.

Lemma route_allows_none request w : allows_origin (route_request request w).1 = false.
Proof.
  unfold route_request, handle_chat_completions, handle_responses, handle_attestation.
  repeat (case_match; simplify_eq; cbn [fst]); eauto with allows_none.
Qed.
Lemma preflight_allows_none request : allows_origin (handle_cors_preflight request) = false.
Proof. unfold handle_cors_preflight. repeat case_match; eauto with allows_none. Qed.

Lemma handle_decorates plan request w :
  ∃ response, allows_origin response = false
    ∧ (handle plan request w).1
      = decorate_response (cors_allowed_origin plan request) (is_cors_preflight plan request) response.
Proof.
  unfold handle.
  destruct (cors_origin_error _ _ _) eqn:E1.
  { eexists. split; [|done]. unfold cors_origin_error in E1. destruct (header request "origin"); [|done].
    cbn in E1. repeat case_match; simplify_eq; eauto with allows_none. }
  destruct (host_header_error _ _) eqn:E2.
  { eexists. split; [|done]. unfold host_header_error in E2. repeat case_match; simplify_eq; eauto with allows_none. }
  destruct (content_type_error _) eqn:E3.
  { eexists. split; [|done]. unfold content_type_error in E3. repeat case_match; simplify_eq; eauto with allows_none. }
  destruct (is_cors_preflight _ _); [eexists; split; [|done]; apply preflight_allows_none|].
  destruct (authorization_error _ _) eqn:E4.
  { eexists. split; [|done]. unfold authorization_error in E4. repeat case_match; simplify_eq; done. }
  pose proof (route_allows_none request w) as H. destruct (route_request request w) as [r w']. by exists r.
Qed.

(** A response allows an origin only when it is the one the request came
    from, and the configuration lists exactly that origin; it is never a wildcard
    and never splits a header. *)
Theorem allowed_origin_configured config plan request w origin :
  validate config = Ok plan → In (ALLOW_ORIGIN, origin) (pr_headers (handle plan request w).1) →
  header request "origin" = Some origin
  ∧ ∃ origins, px_cors config = AllowOrigins origins ∧ origin ∈ origins ∧ header_safe_origin origin.
Proof.
  intros Hv Hin. pose proof (validated_plan_safe _ _ Hv) as (_ & _ & _ & _ & Ho).
  assert (sp_cors plan = px_cors config) as Hc by (unfold validate in Hv; by inv_ok).
  destruct (handle_decorates plan request w) as (response & Hr & E). rewrite E in Hin.
  assert (¬ In (ALLOW_ORIGIN, origin) (pr_headers response)) as Hn.
  { intros H. apply not_true_iff_false in Hr. apply Hr. apply existsb_exists. exists (ALLOW_ORIGIN, origin).
    split; [done|]. by apply bool_decide_eq_true. }
  destruct (cors_allowed_origin plan request) as [o|] eqn:Eo; [|done]. cbn in Hin.
  apply in_app_or in Hin as [Hin|[[= ->]|[Hin|[]]]]; [done| |done].
  unfold cors_allowed_origin in Eo. destruct (header request "origin") as [q|] eqn:Eq; [|done]. cbn in Eo.
  destruct (sp_cors plan) as [|origins|] eqn:Es; [done| |done].
  apply List.find_some in Eo as [Hi Hq]. apply bool_decide_eq_true in Hq as ->. split; [done|].
  exists origins. split; [done|]. split; [by apply list_elem_of_In|].
  destruct (Ho origins) as [_ Hf]; [done|]. by apply (proj1 (List.Forall_forall _ _) Hf).
Qed.

(** A chat request is answered with success only by the client: it was sent
    once, not as a stream, and the response carries the body, the verdict's status
    and the route of the client's own answer. *)
Theorem chat_success_from_client body (w : W) :
  pr_status (handle_chat_completions body w).1 = 200%Z →
  ∃ payload json response,
    sdk_payload_from_json body = Some payload ∧ request_requests_streaming body = false
    ∧ sdk_send_chat payload w = (Ok json, (handle_chat_completions body w).2)
    ∧ sdk_chat_from_json json = Some response
    ∧ (∀ chat_json, sdk_chat_json (cf_response response) = Some chat_json →
         pr_body (handle_chat_completions body w).1 = chat_json)
    ∧ In ("x-confidential-inference-verdict-status", status_header_value (v_status (cf_verdict response)))
        (pr_headers (handle_chat_completions body w).1)
    ∧ In ("x-confidential-inference-route-id", v_route_id (cf_verdict response))
        (pr_headers (handle_chat_completions body w).1).
Proof.
  unfold handle_chat_completions. destruct (valid_utf8 body); [|done].
  destruct (request_requests_streaming body); [done|]. cbn [negb].
  destruct (sdk_payload_from_json body) as [payload|]; [|done].
  destruct (sdk_send_chat payload w) as [[json|e] w'] eqn:E.
  - cbn [fst snd]. destruct (sdk_chat_from_json json) as [response|] eqn:Er; [|done]. intros _. exists payload, json, response.
    cbn. split_and!; try done; [|by left|by right; left]. intros chat_json ->. done.
  - unfold client_error_response. destruct e; cbn; done.
Qed.
End Admission.

(** ** Concrete inputs *)

(** A client that answers every chat request, counting its calls. *)
Definition proxied_answer : ConfidentialResponse string := {|
  cf_response := "{}"; cf_provider := "near"; cf_provider_model := "pm"; cf_requested_model := "m";
  cf_verdict := sample_verdict; cf_response_channel_bound := false; cf_response_integrity_result := RespReceiptBound;
  cf_route := sample_attested_route "f" KindNone TeeOnly |}.
#[local] Instance counting_sdk : ProxySdk nat := {|
  sdk_payload := string; sdk_create := string; sdk_chat := string; sdk_created := string;
  sdk_payload_from_json := Some; sdk_create_from_slice := Some;
  sdk_value_from_str s := Some (if s =?= "stream" then VObject [("stream", VBool true)] else VNull);
  sdk_chat_from_json _ := Some proxied_answer;
  sdk_chat_json := Some; sdk_chat_response_json _ := None; sdk_created_json := Some; sdk_created_response_json _ := None;
  sdk_verdict_json _ := None; sdk_models_json := Some "[]"; sdk_confidential_models_json := Some "[]";
  sdk_send_chat _ n := (Ok "{}", S n); sdk_create_response _ n := (Ok proxied_answer, S n);
  sdk_verify_route _ _ n := (Ok sample_verdict, S n) |}.

Definition exposed_config : ProxyConfig := {|
  px_bind_addr := {| sa_ip := V4 10 0 0 1; sa_port := 443 |}; px_auth := BearerToken "token" "label";
  px_transport := Tls; px_cors := AllowOrigins ["https://app.example"] |}.
Definition chat_request (headers : list (string * string)) (body : string) : ProxyHttpRequest := {|
  px_method := Post; px_path := "/v1/chat/completions/?x";
  px_headers := ("Content-Type", "application/JSON; charset=utf-8") :: headers; px_body := body |}.
Definition trusted_chat : ProxyHttpRequest :=
  chat_request [("origin", "https://app.example"); ("authorization", "Bearer token")] "{}".

(** The checks are the ones that decide: the same request without its token, with
    another origin, or asking for a stream never reaches the client. *)
Example exposed_requests :
  (plan ← validate exposed_config; Ok (map (λ request, (pr_status (handle plan request O).1, (handle plan request O).2))
     [trusted_chat; chat_request [("origin", "https://app.example"); ("authorization", "Bearer toke")] "{}";
      chat_request [("origin", "https://app.example.evil"); ("authorization", "Bearer token")] "{}";
      chat_request [("authorization", "Bearer token")] "stream"]))
  = Ok [(200, 1%nat); (401, O); (403, O); (400, O)]%Z.
Proof. by vm_compute. Qed.
Example host_headers :
  map host_header_is_loopback ["localhost"; " LOCALHOST:8787"; "[::1]:80"; "127.0.0.1"; "127.0.0.1.evil"; "::1"; "evil:80"; ""]
  = [true; true; true; true; false; false; false; false].
Proof. by vm_compute. Qed.

Lemma exposed_proxy_authenticated_witness : header trusted_chat "authorization" = Some ("Bearer " +:+ "token").
Proof.
  destruct (is_ok_inv (validate exposed_config)) as [plan Hp]; [by vm_compute|].
  pose proof (exposed_proxy_authenticated exposed_config plan trusted_chat O Hp) as H.
  vm_compute in Hp. injection Hp as <-. apply (proj2 (proj2 (H eq_refl ltac:(by vm_compute)))).
Defined.
Lemma allowed_origin_configured_witness : header_safe_origin "https://app.example".
Proof.
  destruct (is_ok_inv (validate exposed_config)) as [plan Hp]; [by vm_compute|].
  pose proof (allowed_origin_configured exposed_config plan trusted_chat O "https://app.example" Hp) as H.
  vm_compute in Hp. injection Hp as <-.
  destruct H as (_ & origins & _ & _ & H); [|exact H]. vm_compute. tauto.
Defined.
Lemma chat_success_from_client_witness :
  ∃ payload json, sdk_payload_from_json "{}" = Some payload ∧ sdk_send_chat payload O = (Ok json, 1%nat).
Proof.
  destruct (chat_success_from_client "{}" O) as (payload & json & _ & Hp & _ & Hs & _); [by vm_compute|].
  by exists payload, json.
Defined.
