(* ===== verification/CollateralResolver.v ===== *)
(** * Resolving TDX collateral

    providers/dcap_tdx.rs: where the collateral for a quote comes from. Bundles are
    kept in memory for the platform of a quote (its FMSPC and certificate
    authority) or for the quote itself, then in files, and otherwise fetched under a
    policy of retries, with a bounded number of fetches and of calls waiting for
    one. The network, the file system's failures and the decoders are parameters. *)

From Stdlib Require Import Ascii String ZArith Lia.
From stdpp Require Import base strings list numbers gmap countable sorting.
From S2P Require Import Prelude RustStr Errors Timestamps Collections Canonical JsonInjective Signature EvidenceDocuments QuoteInterfaces TdxCollateral ProviderRequest ProxyRedaction.

Open Scope string_scope.

(** ** The key of a quote's collateral *)

Inductive CollateralCacheKey := PlatformKey (fmspc ca : string) | QuoteKey (digest : string).
#[export] Instance CollateralCacheKey_eq_dec : EqDecision CollateralCacheKey.
Proof. solve_decision. Defined.
#[export] Instance CollateralCacheKey_countable : Countable CollateralCacheKey.
Proof.
  refine (inj_countable' (λ k, match k with PlatformKey f c => inl (f, c) | QuoteKey d => inr d end)
                         (λ s, match s with inl (f, c) => PlatformKey f c | inr d => QuoteKey d end) _).
  by intros [].
Defined.

Definition describe (key : CollateralCacheKey) : string :=
  match key with PlatformKey fmspc ca => "platform:" +:+ fmspc +:+ ":" +:+ ca | QuoteKey digest => digest end.

(** What the code reads of a PCK certificate: its SGX extension, an error, nothing
    or the bytes, and the authority it names. *)
Record PckCertificate := { pk_sgx_extension : option (option string); pk_ca : option string }.
Class PckReader := {
  (** [Quote::parse]: the type and the data of the inner certificate. *)
  quote_inner_cert : string → option (Z * string);
  pck_certificate_from_der : string → option PckCertificate;
  pck_base64_decode : string → option string;
  (** The elements of a DER sequence, each the values of a sequence or something else. *)
  sgx_extension_pairs : string → option (list (option (list string)));
  (** [dcap_qvl::oids::FMSPC]. *)
  FMSPC_OID : string;
  (** [PckCa::Processor.as_id_str()]. *)
  PROCESSOR_CA : string;
}.

Definition upper_hex_digit (n : N) : ascii := if (n <? 10)%N then ascii_of_N (48 + n) else ascii_of_N (55 + n).
Fixpoint encode_hex_upper (s : string) : string :=
  match s with
  | "" => ""
  | String c s => String (upper_hex_digit (N.shiftr (code c) 4)) (String (upper_hex_digit (N.land (code c) 15)) (encode_hex_upper s))
  end.

Definition BEGIN_CERTIFICATE : string := "-----BEGIN CERTIFICATE-----".
Definition END_CERTIFICATE : string := "-----END CERTIFICATE-----".
(** [chars().filter(|c| !c.is_whitespace())]. *)
Definition without_whitespace (s : string) : string := String.concat "" (whitespace_parts s).

Section Keys.
Context {prim : Primitives} {pck : PckReader}.

(** The loop over a PEM bundle; a turn takes a marker out of the text. *)
Fixpoint pem_certificates_fuel (fuel : nat) (remainder : string) : option (list string) :=
  match fuel, position BEGIN_CERTIFICATE remainder with
  | S fuel, Some start =>
      let remainder := slice remainder (start + String.length BEGIN_CERTIFICATE) (String.length remainder) in
      finish ← position END_CERTIFICATE remainder;
      certificate ← pck_base64_decode (without_whitespace (slice remainder 0 finish));
      rest ← pem_certificates_fuel fuel (slice remainder finish (String.length remainder));
      Some (certificate :: rest)
  | _, _ => Some []
  end.
Definition pem_certificates (pem_chain : string) : option (list string) :=
  if valid_utf8 pem_chain then pem_certificates_fuel (String.length pem_chain) pem_chain else None.

Fixpoint octet_value_of (pairs : list (option (list string))) (oid : string) : option string :=
  match pairs with
  | [] => None
  | None :: _ => None
  | Some (name :: value :: _) :: pairs => if name =?= oid then Some value else octet_value_of pairs oid
  | Some _ :: pairs => octet_value_of pairs oid
  end.
Definition sgx_extension_octet_value (extension oid : string) : option string :=
  pairs ← sgx_extension_pairs extension; octet_value_of pairs oid.

Definition fmspc_and_ca_from_pem (pem_chain : string) : option (string * string) :=
  certificates ← pem_certificates pem_chain;
  cert_der ← head certificates;
  parsed ← pck_certificate_from_der cert_der;
  found ← pk_sgx_extension parsed;
  extension ← found;
  fmspc ← sgx_extension_octet_value extension FMSPC_OID;
  Some (encode_hex_upper fmspc, default PROCESSOR_CA (pk_ca parsed)).

Definition collateral_key_for_quote (quote_bytes : string) : CollateralCacheKey :=
  let fallback := QuoteKey (sha256_digest quote_bytes) in
  match quote_inner_cert quote_bytes with
  | None => fallback
  | Some (cert_type, cert_data) =>
      if negb (cert_type =? 5)%Z then fallback
      else match fmspc_and_ca_from_pem cert_data with
           | Some (fmspc, ca) => PlatformKey fmspc ca
           | None => fallback
           end
  end.
End Keys.

(** ** The store *)

Definition COLLATERAL_STORE_MAX_ENTRIES : nat := 256.
Record CollateralStore := {
  st_entries : gmap CollateralCacheKey (Z * DcapTdxCollateralBundle);
  st_sequence : Z;
}.
Definition empty_store : CollateralStore := {| st_entries := ∅; st_sequence := 0 |}.

(** The derived order of the keys. *)
Definition cache_key_cmp (a b : CollateralCacheKey) : comparison :=
  match a, b with
  | PlatformKey fmspc ca, PlatformKey fmspc' ca' => match str_cmp fmspc fmspc' with Eq => str_cmp ca ca' | c => c end
  | PlatformKey _ _, QuoteKey _ => Lt
  | QuoteKey _, PlatformKey _ _ => Gt
  | QuoteKey digest, QuoteKey digest' => str_cmp digest digest'
  end.
(** [min_by_key]: the first entry, in key order, with the least sequence number. *)
Definition older_entry (e b : CollateralCacheKey * (Z * DcapTdxCollateralBundle)) : bool := (e.2.1 <? b.2.1)%Z.
Definition oldest (entries : gmap CollateralCacheKey (Z * DcapTdxCollateralBundle)) : option CollateralCacheKey :=
  fst <$> min_by older_entry (sort_by (λ p q, cache_key_cmp p.1 q.1) (map_to_list entries)).
Fixpoint evict_oldest (fuel : nat) (entries : gmap CollateralCacheKey (Z * DcapTdxCollateralBundle))
    : gmap CollateralCacheKey (Z * DcapTdxCollateralBundle) :=
  match fuel with
  | O => entries
  | S fuel =>
      if (size entries <=? COLLATERAL_STORE_MAX_ENTRIES)%nat then entries
      else match oldest entries with
           | Some key => evict_oldest fuel (delete key entries)
           | None => entries
           end
  end.
Definition collateral_insert (key : CollateralCacheKey) (value : DcapTdxCollateralBundle) (store : CollateralStore) : CollateralStore :=
  let entries := <[key := (st_sequence store, value)]> (st_entries store) in
  {| st_entries := evict_oldest (size entries) entries; st_sequence := ((st_sequence store + 1) mod 2 ^ 64)%Z |}.

(** ** Fetching *)

Definition provider_attestation_error (error : AttestationError) : ProviderError := Compatibility (error_to_string error).

(** Durations in nanoseconds; a [Duration] holds less than [2^64] seconds. *)
Definition DURATION_LIMIT : Z := 18446744073709551616000000000.
Record DcapTdxCollateralFetchPolicy := {
  fp_max_attempts : nat;
  fp_per_attempt_timeout : option Z;
  fp_initial_backoff : Z;
  fp_max_backoff : Z;
  fp_max_concurrent_fetches : nat;
  fp_max_queued_fetches : nat;
  fp_queue_timeout : option Z;
}.
Definition seconds (n : Z) : Z := n * 1000000000.
Definition default_fetch_policy : DcapTdxCollateralFetchPolicy := {|
  fp_max_attempts := 2; fp_per_attempt_timeout := Some (seconds 30); fp_initial_backoff := 250000000;
  fp_max_backoff := seconds 2; fp_max_concurrent_fetches := 4; fp_max_queued_fetches := 16;
  fp_queue_timeout := Some (seconds 30) |}.
Definition with_max_attempts (policy : DcapTdxCollateralFetchPolicy) (max_attempts : nat) : DcapTdxCollateralFetchPolicy := {|
  fp_max_attempts := Nat.max max_attempts 1; fp_per_attempt_timeout := fp_per_attempt_timeout policy;
  fp_initial_backoff := fp_initial_backoff policy; fp_max_backoff := fp_max_backoff policy;
  fp_max_concurrent_fetches := fp_max_concurrent_fetches policy; fp_max_queued_fetches :=
  fp_max_queued_fetches policy; fp_queue_timeout := fp_queue_timeout policy |}.
Definition with_per_attempt_timeout (policy : DcapTdxCollateralFetchPolicy) (timeout : Z) : DcapTdxCollateralFetchPolicy := {|
  fp_max_attempts := fp_max_attempts policy; fp_per_attempt_timeout := Some timeout; fp_initial_backoff :=
  fp_initial_backoff policy; fp_max_backoff := fp_max_backoff policy; fp_max_concurrent_fetches :=
  fp_max_concurrent_fetches policy; fp_max_queued_fetches := fp_max_queued_fetches policy; fp_queue_timeout :=
  fp_queue_timeout policy |}.
Definition without_per_attempt_timeout (policy : DcapTdxCollateralFetchPolicy) : DcapTdxCollateralFetchPolicy := {|
  fp_max_attempts := fp_max_attempts policy; fp_per_attempt_timeout := None; fp_initial_backoff :=
  fp_initial_backoff policy; fp_max_backoff := fp_max_backoff policy; fp_max_concurrent_fetches :=
  fp_max_concurrent_fetches policy; fp_max_queued_fetches := fp_max_queued_fetches policy; fp_queue_timeout :=
  fp_queue_timeout policy |}.
Definition with_backoff (policy : DcapTdxCollateralFetchPolicy) (initial_backoff max_backoff : Z) : DcapTdxCollateralFetchPolicy := {|
  fp_max_attempts := fp_max_attempts policy; fp_per_attempt_timeout := fp_per_attempt_timeout policy;
  fp_initial_backoff := initial_backoff; fp_max_backoff := Z.max max_backoff initial_backoff;
  fp_max_concurrent_fetches := fp_max_concurrent_fetches policy; fp_max_queued_fetches :=
  fp_max_queued_fetches policy; fp_queue_timeout := fp_queue_timeout policy |}.
Definition with_max_concurrent_fetches (policy : DcapTdxCollateralFetchPolicy) (max_concurrent_fetches : nat) : DcapTdxCollateralFetchPolicy := {|
  fp_max_attempts := fp_max_attempts policy; fp_per_attempt_timeout := fp_per_attempt_timeout policy;
  fp_initial_backoff := fp_initial_backoff policy; fp_max_backoff := fp_max_backoff policy;
  fp_max_concurrent_fetches := Nat.max max_concurrent_fetches 1; fp_max_queued_fetches :=
  fp_max_queued_fetches policy; fp_queue_timeout := fp_queue_timeout policy |}.
Definition with_max_queued_fetches (policy : DcapTdxCollateralFetchPolicy) (max_queued_fetches : nat) : DcapTdxCollateralFetchPolicy := {|
  fp_max_attempts := fp_max_attempts policy; fp_per_attempt_timeout := fp_per_attempt_timeout policy;
  fp_initial_backoff := fp_initial_backoff policy; fp_max_backoff := fp_max_backoff policy;
  fp_max_concurrent_fetches := fp_max_concurrent_fetches policy; fp_max_queued_fetches := max_queued_fetches;
  fp_queue_timeout := fp_queue_timeout policy |}.
Definition with_queue_timeout (policy : DcapTdxCollateralFetchPolicy) (timeout : Z) : DcapTdxCollateralFetchPolicy := {|
  fp_max_attempts := fp_max_attempts policy; fp_per_attempt_timeout := fp_per_attempt_timeout policy;
  fp_initial_backoff := fp_initial_backoff policy; fp_max_backoff := fp_max_backoff policy;
  fp_max_concurrent_fetches := fp_max_concurrent_fetches policy; fp_max_queued_fetches :=
  fp_max_queued_fetches policy; fp_queue_timeout := Some timeout |}.
Definition without_queue_timeout (policy : DcapTdxCollateralFetchPolicy) : DcapTdxCollateralFetchPolicy := {|
  fp_max_attempts := fp_max_attempts policy; fp_per_attempt_timeout := fp_per_attempt_timeout policy;
  fp_initial_backoff := fp_initial_backoff policy; fp_max_backoff := fp_max_backoff policy;
  fp_max_concurrent_fetches := fp_max_concurrent_fetches policy; fp_max_queued_fetches :=
  fp_max_queued_fetches policy; fp_queue_timeout := None |}.

Definition should_retry_fetch_error (error : ProviderError) : bool := is_retryable_outage error.
Definition next_backoff (current max_backoff : Z) : Z :=
  if (current =? 0)%Z || (max_backoff =? 0)%Z then 0%Z
  else Z.min (if (2 * current <? DURATION_LIMIT)%Z then (2 * current)%Z else max_backoff) max_backoff.

Definition provider_error_kind (error : ProviderError) : string :=
  match error with
  | Unavailable _ => "unavailable" | Adapter _ => "adapter" | Compatibility _ => "compatibility"
  | KeyRotation _ _ => "key_rotation" | Http _ => "http" | HttpStatus _ _ => "http_status" | JsonError _ => "json"
  end.

(** What one attempt meets: how long the fetcher takes, what it gives, and the
    time the loop measures. *)
Record FetchAnswer := { fa_duration : Z; fa_result : ProviderResult DcapTdxCollateralBundle; fa_elapsed : Z }.
Inductive FetchEvent := FetchSuccess | FetchRetry | FetchFailure.
Record FetchMetric := {
  fm_quote_sha256 : string; fm_attempt : nat; fm_max_attempts : nat; fm_event : FetchEvent;
  fm_duration_ms : Z; fm_backoff_ms : option Z; fm_error_kind : option string;
}.
Definition elapsed_millis (duration : Z) : Z := Z.min (duration / 1000000) u64_max.

Definition fetch_bundle_once (policy : DcapTdxCollateralFetchPolicy) (answer : FetchAnswer)
    : ProviderResult DcapTdxCollateralBundle :=
  match fp_per_attempt_timeout policy with
  | None => fa_result answer
  | Some timeout =>
      if (timeout =? 0)%Z then fa_result answer
      else if (timeout <? fa_duration answer)%Z then Err (Http "TDX collateral fetch timed out after {}ms")
      else fa_result answer
  end.

(** The loop, with the metrics it records; [answers] by attempt, from one. *)
Section FetchLoop.
Context (policy : DcapTdxCollateralFetchPolicy) (answers : nat → FetchAnswer) (digest : string) (max_attempts : nat).

Definition fetch_metric (attempt : nat) (event : FetchEvent) (backoff_ms : option Z) (error_kind : option string) : FetchMetric := {|
  fm_quote_sha256 := digest; fm_attempt := attempt; fm_max_attempts := max_attempts; fm_event := event;
  fm_duration_ms := elapsed_millis (fa_elapsed (answers attempt)); fm_backoff_ms := backoff_ms;
  fm_error_kind := error_kind |}.
Fixpoint fetch_loop (fuel attempt : nat) (backoff : Z) : option (ProviderResult DcapTdxCollateralBundle * list FetchMetric) :=
  match fuel with
  | O => None
  | S fuel =>
      match fetch_bundle_once policy (answers attempt) with
      | Ok bundle => Some (Ok bundle, [fetch_metric attempt FetchSuccess None None])
      | Err error =>
          let kind := Some (provider_error_kind error) in
          if (attempt <? max_attempts)%nat && should_retry_fetch_error error then
            '(r, metrics) ← fetch_loop fuel (S attempt) (next_backoff backoff (fp_max_backoff policy));
            Some (r, fetch_metric attempt FetchRetry (Some (elapsed_millis backoff)) kind :: metrics)
          else
            let metrics := [fetch_metric attempt FetchFailure None kind] in
            if should_retry_fetch_error error && (1 <? max_attempts)%nat
            then Some (Err (Http "TDX collateral fetch failed after {attempt} attempts: {error}"), metrics)
            else Some (Err error, metrics)
      end
  end.
End FetchLoop.
(** One turn per attempt; [fetch_loop_ends] shows that they are enough. *)
Definition fetch_bundle_with_policy (policy : DcapTdxCollateralFetchPolicy) (answers : nat → FetchAnswer) (digest : string)
    : ProviderResult DcapTdxCollateralBundle * list FetchMetric :=
  let max_attempts := Nat.max (fp_max_attempts policy) 1 in
  default (Err (Adapter ""), []) (fetch_loop policy answers digest max_attempts max_attempts 1 (fp_initial_backoff policy)).

(** *** The fetcher over PCCS *)

Definition MAX_PCCS_RESPONSE_BYTES : Z := 64 * 1024 * 1024.
(** The body of a PCCS answer, read in chunks. *)
Fixpoint read_pccs_body (body : string) (chunks : list string) : option string :=
  match chunks with
  | [] => Some body
  | chunk :: chunks =>
      if (Z.of_nat (String.length body) + Z.of_nat (String.length chunk) <=? MAX_PCCS_RESPONSE_BYTES)%Z
      then read_pccs_body (body +:+ chunk) chunks else None
  end.

(** ** Files *)

Definition cache_filename_for_digest (digest : string) : ProviderResult string :=
  hex ← ok_or (strip_prefix "sha256:" digest) (Adapter "TDX collateral cache key is not a sha256 digest");
  bail (Adapter "TDX collateral cache key is not valid hex")
    when negb (String.length hex =? 64)%nat || negb (all_bytes is_ascii_hexdigit hex);
  Ok ("sha256-" +:+ hex +:+ ".json").
(** The file of a key inside the cache directory, when there is one. *)
Definition cache_path_for_key (has_cache_dir : bool) (key : CollateralCacheKey) : ProviderResult (option string) :=
  if negb has_cache_dir then Ok None
  else match key with
  | QuoteKey digest => filename ← cache_filename_for_digest digest; Ok (Some filename)
  | PlatformKey fmspc ca =>
      let fmspc := trim fmspc in let ca := trim ca in
      bail (Adapter "TDX collateral platform key is malformed")
        when is_empty fmspc || is_empty ca || negb (all_bytes is_ascii_hexdigit fmspc) || negb (all_bytes is_ascii_alphanumeric ca);
      Ok (Some ("platform-" +:+ fmspc +:+ "-" +:+ ca +:+ ".json"))
  end.

(** Which file operations fail in a call: [NotFound] is not a failure. *)
Record FileFaults := { ff_read : bool; ff_remove : bool; ff_create_dir : bool; ff_write : bool; ff_rename : bool }.
(** [DcapTdxCollateralBundle::to_json] and the decoding of [from_json]. *)
Class BundleJson := {
  bundle_to_json : DcapTdxCollateralBundle → option string;
  bundle_decode : string → option DcapTdxCollateralBundle;
}.

Inductive CacheEvent := MemoryHit | FileHit | CacheMiss | Invalidated.
(** The memory cache, the store and the metrics of a resolver, and the cache
    directory, which outlives it. *)
Inductive Metric := CacheMetric (quote_sha256 : string) (event : CacheEvent) | Fetched (metric : FetchMetric).
Record ResolverState := {
  rv_memory : gmap string DcapTdxCollateralBundle;
  rv_store : CollateralStore;
  rv_disk : gmap string string;
  rv_metrics : list Metric;
}.

Section Resolver.
Context {prim : Primitives} {crypto : SignatureCrypto} {dcap : DcapLibrary} {pck : PckReader} {json : BundleJson}.

Definition with_disk (f : gmap string string → gmap string string) (s : ResolverState) : ResolverState :=
  {| rv_memory := rv_memory s; rv_store := rv_store s; rv_disk := f (rv_disk s); rv_metrics := rv_metrics s |}.
Definition with_store (f : CollateralStore → CollateralStore) (s : ResolverState) : ResolverState :=
  {| rv_memory := rv_memory s; rv_store := f (rv_store s); rv_disk := rv_disk s; rv_metrics := rv_metrics s |}.
Definition record_cache_metric (name : string) (event : CacheEvent) (s : ResolverState) : ResolverState :=
  {| rv_memory := rv_memory s; rv_store := rv_store s; rv_disk := rv_disk s; rv_metrics := rv_metrics s ++ [CacheMetric name event] |}.
Definition record_fetch_metrics (metrics : list FetchMetric) (s : ResolverState) : ResolverState :=
  {| rv_memory := rv_memory s; rv_store := rv_store s; rv_disk := rv_disk s; rv_metrics := rv_metrics s ++ (Fetched <$> metrics) |}.

(** [PccsDcapTdxCollateralFetcher::fetch_bundle_at], for what the client fetched. *)
Definition pccs_fetch_bundle_at (pccs_url : string) (fetched : option QuoteCollateralV3) (quote_bytes : string) (fetched_at : Z)
    : ProviderResult DcapTdxCollateralBundle :=
  collateral ← ok_or fetched (Http "{error}");
  map_err provider_attestation_error (from_collateral_at collateral fetched_at (pccs pccs_url) (Some quote_bytes)).

Definition verifier_of (bundle : DcapTdxCollateralBundle) (now : Z) : ProviderResult TinfoilQuoteVerifier :=
  map_err provider_attestation_error (verifier_at bundle now).
(** A bundle that is still valid, as a verifier. *)
Definition usable_verifier (bundle : option DcapTdxCollateralBundle) (now : Z) : ProviderResult (option TinfoilQuoteVerifier) :=
  match bundle with
  | None => Ok None
  | Some bundle =>
      if negb (is_valid_at bundle now) then Ok None
      else verifier ← verifier_of bundle now; Ok (Some verifier)
  end.
Definition memory_verifier_for_quote (s : ResolverState) (quote_bytes : string) (now : Z) : ProviderResult (option TinfoilQuoteVerifier) :=
  usable_verifier (bundle_for_quote quote_bytes (rv_memory s)) now.
Definition stored_verifier_for_key (s : ResolverState) (key : CollateralCacheKey) (now : Z) : ProviderResult (option TinfoilQuoteVerifier) :=
  usable_verifier (snd <$> st_entries (rv_store s) !! key) now.

(** Platform bundles lose what belongs to one quote. *)
Definition without_pck_chain (c : QuoteCollateralV3) : QuoteCollateralV3 := {|
  qc_tcb_info := qc_tcb_info c; qc_qe_identity := qc_qe_identity c; qc_root_ca_crl := qc_root_ca_crl c;
  qc_pck_crl := qc_pck_crl c; qc_pck_certificate_chain := None; qc_rest := qc_rest c |}.
Definition shared_bundle (b : DcapTdxCollateralBundle) : DcapTdxCollateralBundle := {|
  cb_schema := cb_schema b; cb_source := cb_source b; cb_fetched_at := cb_fetched_at b;
  cb_fetched_at_epoch_ms := cb_fetched_at_epoch_ms b; cb_valid_until := cb_valid_until b;
  cb_valid_until_epoch_ms := cb_valid_until_epoch_ms b; cb_quote_sha256 := None;
  cb_collateral := without_pck_chain (cb_collateral b) |}.
Definition stored_form (key : CollateralCacheKey) (bundle : DcapTdxCollateralBundle) : DcapTdxCollateralBundle :=
  match key with PlatformKey _ _ => shared_bundle bundle | QuoteKey _ => bundle end.
Definition insert_fetched_bundle (key : CollateralCacheKey) (bundle : DcapTdxCollateralBundle) (s : ResolverState)
    : DcapTdxCollateralBundle * ResolverState :=
  let bundle := stored_form key bundle in (bundle, with_store (collateral_insert key bundle) s).

Definition remove_cache_file (faults : FileFaults) (path : string) (s : ResolverState) : ProviderResult unit * ResolverState :=
  if ff_remove faults then (Err (Adapter "failed to remove stale TDX collateral cache {}: {error}"), s)
  else (Ok tt, with_disk (delete path) s).
(** A file that cannot be used is removed, and the call goes on without it. *)
Definition invalidate (faults : FileFaults) (path : string) (key : CollateralCacheKey) (s : ResolverState)
    : ProviderResult (option TinfoilQuoteVerifier) * ResolverState :=
  match remove_cache_file faults path s with
  | (Err e, s) => (Err e, s)
  | (Ok _, s) => (Ok None, record_cache_metric (describe key) Invalidated s)
  end.
Definition bundle_matches (key : CollateralCacheKey) (bundle : DcapTdxCollateralBundle) : bool :=
  match key with
  | PlatformKey _ _ => negb (is_some (qc_pck_certificate_chain (cb_collateral bundle)))
  | QuoteKey digest => cb_quote_sha256 bundle =?= Some digest
  end.
Definition file_verifier_for_key (has_cache_dir : bool) (faults : FileFaults) (key : CollateralCacheKey) (now : Z) (s : ResolverState)
    : ProviderResult (option TinfoilQuoteVerifier) * ResolverState :=
  match cache_path_for_key has_cache_dir key with
  | Err e => (Err e, s)
  | Ok None => (Ok None, s)
  | Ok (Some path) =>
      match rv_disk s !! path with
      | None => (Ok None, s)
      | Some bytes =>
          if ff_read faults then (Err (Adapter "failed to read TDX collateral cache {}: {error}"), s)
          else match bundle_from_json (bundle_decode bytes) with
          | Err _ => invalidate faults path key s
          | Ok bundle =>
              if negb (bundle_matches key bundle) then invalidate faults path key s
              else if negb (is_valid_at bundle now) then invalidate faults path key s
              else let '(bundle, s) := insert_fetched_bundle key bundle s in
                   (Some <$> verifier_of bundle now, s)
          end
      end
  end.

Definition write_file_bundle (has_cache_dir : bool) (pid : string) (faults : FileFaults) (key : CollateralCacheKey)
    (bundle : DcapTdxCollateralBundle) (s : ResolverState) : ProviderResult unit * ResolverState :=
  match cache_path_for_key has_cache_dir key with
  | Err e => (Err e, s)
  | Ok None => (Ok tt, s)
  | Ok (Some path) =>
      if ff_create_dir faults then (Err (Adapter "failed to create TDX collateral cache directory {}: {error}"), s)
      else match bundle_to_json bundle with
      | None => (Err (provider_attestation_error (InvalidEvidence "{err}")), s)
      | Some bytes =>
          let temp_path := path +:+ ".tmp-" +:+ pid in
          if ff_write faults then (Err (Adapter "failed to write TDX collateral cache {}: {error}"), s)
          else let s := with_disk (<[temp_path := bytes]>) s in
               if ff_rename faults then (Err (Adapter "failed to commit TDX collateral cache {}: {error}"), s)
               else (Ok tt, with_disk (λ disk, <[path := bytes]> (delete temp_path disk)) s)
      end
  end.

(** A new resolver over a cache directory's files, and the collateral an operator
    gives it. *)
Definition new_resolver (disk : gmap string string) : ResolverState :=
  {| rv_memory := ∅; rv_store := empty_store; rv_disk := disk; rv_metrics := [] |}.
Definition with_memory_cache (cache : gmap string DcapTdxCollateralBundle) (s : ResolverState) : ResolverState :=
  {| rv_memory := cache; rv_store := rv_store s; rv_disk := rv_disk s; rv_metrics := rv_metrics s |}.
Definition with_offline_bundle_for_quote (quote_bytes : string) (bundle : DcapTdxCollateralBundle) (s : ResolverState)
    : ProviderResult ResolverState :=
  cache ← map_err provider_attestation_error (insert_for_quote quote_bytes bundle (rv_memory s));
  Ok (with_memory_cache cache s).
Definition with_signed_offline_bundle_for_quote (quote_bytes : string) (envelope : DcapTdxCollateralBundleEnvelope)
    (trusted_signing_keys : list TrustedSigningKey) (s : ResolverState) : ProviderResult ResolverState :=
  bundle ← map_err provider_attestation_error (into_verified_bundle_with_keys envelope trusted_signing_keys);
  with_offline_bundle_for_quote quote_bytes bundle s.

(** [verifier_for_quote_at]; [slot] is the outcome of waiting for a fetch. *)
Record Environment := {
  en_has_cache_dir : bool; en_pid : string; en_faults : FileFaults;
  en_slot : ProviderResult unit; en_answers : nat → FetchAnswer;
}.
Definition resolve (policy : DcapTdxCollateralFetchPolicy) (env : Environment) (quote_bytes : string) (now : Z) (s : ResolverState)
    : ProviderResult TinfoilQuoteVerifier * ResolverState :=
  let digest := sha256_digest quote_bytes in
  let key := collateral_key_for_quote quote_bytes in
  match memory_verifier_for_quote s quote_bytes now with
  | Err e => (Err e, s)
  | Ok (Some verifier) => (Ok verifier, record_cache_metric digest MemoryHit s)
  | Ok None =>
      match stored_verifier_for_key s key now with
      | Err e => (Err e, s)
      | Ok (Some verifier) => (Ok verifier, record_cache_metric digest MemoryHit s)
      | Ok None =>
          match file_verifier_for_key (en_has_cache_dir env) (en_faults env) key now s with
          | (Err e, s) => (Err e, s)
          | (Ok (Some verifier), s) => (Ok verifier, record_cache_metric digest FileHit s)
          | (Ok None, s) =>
              let s := record_cache_metric digest CacheMiss s in
              match en_slot env with
              | Err e => (Err e, s)
              | Ok _ =>
                  match fetch_bundle_with_policy policy (en_answers env) digest with
                  | (Err e, metrics) => (Err e, record_fetch_metrics metrics s)
                  | (Ok bundle, metrics) =>
                      let s := record_fetch_metrics metrics s in
                      let '(bundle, s) := insert_fetched_bundle key bundle s in
                      match write_file_bundle (en_has_cache_dir env) (en_pid env) (en_faults env) key bundle s with
                      | (Err e, s) => (Err e, s)
                      | (Ok _, s) => (verifier_of bundle now, s)
                      end
                  end
              end
          end
      end
  end.
End Resolver.

(** ** Policies

    The default and what the setters make of it; a [Duration] is not negative. *)
Inductive built_policy : DcapTdxCollateralFetchPolicy → Prop :=
| built_default : built_policy default_fetch_policy
| built_max_attempts policy n : built_policy policy → built_policy (with_max_attempts policy n)
| built_attempt_timeout policy t : built_policy policy → (0 ≤ t)%Z → built_policy (with_per_attempt_timeout policy t)
| built_no_attempt_timeout policy : built_policy policy → built_policy (without_per_attempt_timeout policy)
| built_backoff policy initial max : built_policy policy → (0 ≤ initial)%Z → (0 ≤ max)%Z → built_policy (with_backoff policy initial max)
| built_max_concurrent policy n : built_policy policy → built_policy (with_max_concurrent_fetches policy n)
| built_max_queued policy n : built_policy policy → built_policy (with_max_queued_fetches policy n)
| built_queue_timeout policy t : built_policy policy → (0 ≤ t)%Z → built_policy (with_queue_timeout policy t)
| built_no_queue_timeout policy : built_policy policy → built_policy (without_queue_timeout policy).
Lemma built_policy_ok policy :
  built_policy policy →
  (1 ≤ fp_max_attempts policy)%nat ∧ (1 ≤ fp_max_concurrent_fetches policy)%nat
  ∧ (0 ≤ fp_initial_backoff policy ≤ fp_max_backoff policy)%Z.
Proof. induction 1; cbn in *; unfold seconds in *; lia. Qed.

(** ** The fetch loop *)

Section FetchFacts.
Context (policy : DcapTdxCollateralFetchPolicy) (answers : nat → FetchAnswer) (digest : string).

(** What a run of the loop records: retries, each after an error that may pass and
    with a pause within the policy, then one success or failure. *)
Inductive fetch_run (max : nat) : nat → ProviderResult DcapTdxCollateralBundle → list FetchMetric → Prop :=
| run_success attempt bundle :
    fetch_bundle_once policy (answers attempt) = Ok bundle → (attempt ≤ max)%nat →
    fetch_run max attempt (Ok bundle) [fetch_metric answers digest max attempt FetchSuccess None None]
| run_failure attempt error reported :
    fetch_bundle_once policy (answers attempt) = Err error → (attempt ≤ max)%nat →
    (should_retry_fetch_error error = true → attempt = max) →
    is_retryable_outage reported = is_retryable_outage error →
    fetch_run max attempt (Err reported) [fetch_metric answers digest max attempt FetchFailure None (Some (provider_error_kind error))]
| run_retry attempt error pause r metrics :
    fetch_bundle_once policy (answers attempt) = Err error → should_retry_fetch_error error = true → (attempt < max)%nat →
    (0 ≤ pause ≤ fp_max_backoff policy)%Z →
    fetch_run max (S attempt) r metrics →
    fetch_run max attempt r
      (fetch_metric answers digest max attempt FetchRetry (Some (elapsed_millis pause)) (Some (provider_error_kind error)) :: metrics).

Lemma next_backoff_bounds current max : (0 ≤ current)%Z → (0 ≤ max)%Z → (0 ≤ next_backoff current max ≤ max)%Z.
Proof. unfold next_backoff. intros. repeat case_match; bools; lia. Qed.

Lemma fetch_loop_ends max fuel attempt backoff :
  (0 ≤ backoff ≤ fp_max_backoff policy)%Z →
  (attempt ≤ max)%nat → (max < attempt + fuel)%nat →
  ∃ r metrics, fetch_loop policy answers digest max fuel attempt backoff = Some (r, metrics) ∧ fetch_run max attempt r metrics.
Proof.
  revert attempt backoff. induction fuel as [|fuel IH]; intros attempt backoff Hb Ha Hf; [lia|]. cbn [fetch_loop].
  destruct (fetch_bundle_once _ _) as [bundle|error] eqn:E; [eauto using fetch_run|].
  destruct (Nat.ltb_spec attempt max) as [Hlt|Hge]; cbn [andb].
  - destruct (should_retry_fetch_error error) eqn:Er; cbn [andb].
    + pose proof (next_backoff_bounds backoff (fp_max_backoff policy)).
      destruct (IH (S attempt) (next_backoff backoff (fp_max_backoff policy))) as (r & metrics & -> & Hr); try lia.
      cbn. eauto 10 using fetch_run.
    + eexists _, _. split; [done|]. apply run_failure; try done; congruence.
  - assert (attempt = max) as -> by lia.
    destruct (should_retry_fetch_error error) eqn:Er; cbn [andb]; [destruct (1 <? max)%nat|];
      eexists _, _; (split; [done|]); apply run_failure; try done.
Qed.

Lemma fetch_run_length max attempt r metrics :
  fetch_run max attempt r metrics → (1 ≤ length metrics)%nat ∧ (attempt + length metrics ≤ S max)%nat.
Proof. induction 1; cbn in *; lia. Qed.
Lemma fetch_run_answer max attempt bundle metrics :
  fetch_run max attempt (Ok bundle) metrics → ∃ n, fa_result (answers n) = Ok bundle.
Proof.
  remember (Ok bundle) as r eqn:Er. induction 1 as [attempt b H _|attempt error|attempt error pause r metrics _ _ _ _ _ IH]; [|done|auto].
  injection Er as ->. exists attempt. unfold fetch_bundle_once in H. by repeat case_match.
Qed.

Lemma fetch_runs : built_policy policy →
  ∃ r metrics, fetch_bundle_with_policy policy answers digest = (r, metrics)
    ∧ fetch_run (Nat.max (fp_max_attempts policy) 1) 1 r metrics.
Proof.
  intros (_ & _ & Hi & Hm)%built_policy_ok. unfold fetch_bundle_with_policy.
  destruct (fetch_loop_ends (Nat.max (fp_max_attempts policy) 1) (Nat.max (fp_max_attempts policy) 1) 1 (fp_initial_backoff policy))
    as (r & metrics & -> & Hr); try lia. eauto.
Qed.
Lemma fetched_from_answer bundle : built_policy policy →
  (fetch_bundle_with_policy policy answers digest).1 = Ok bundle → ∃ n, fa_result (answers n) = Ok bundle.
Proof. intros (r & metrics & -> & Hr)%fetch_runs. cbn. intros ->. by eapply fetch_run_answer. Qed.

(** A fetch of collateral always ends, with the attempts the policy allows at
    most: every attempt but the last met an error that may pass and was followed by
    a pause no longer than the policy's, and an error that cannot pass is never
    retried. *)
Theorem fetch_ends_within_policy :
  built_policy policy →
  ∃ r metrics, fetch_bundle_with_policy policy answers digest = (r, metrics)
    ∧ fetch_run (fp_max_attempts policy) 1 r metrics ∧ (1 ≤ length metrics ≤ fp_max_attempts policy)%nat.
Proof.
  intros Hp. destruct (fetch_runs Hp) as (r & metrics & E & Hr). apply built_policy_ok in Hp as (H1 & _).
  rewrite Nat.max_l in Hr by done. exists r, metrics. split_and!; try done; apply fetch_run_length in Hr; lia.
Qed.
End FetchFacts.

(** A PCCS answer is read whole or refused, and never exceeds its bound. *)
Lemma read_pccs_body_spec body chunks : (Z.of_nat (String.length body) ≤ MAX_PCCS_RESPONSE_BYTES)%Z →
  read_pccs_body body chunks =
    (let all := body +:+ String.concat "" chunks in
     if (Z.of_nat (String.length all) <=? MAX_PCCS_RESPONSE_BYTES)%Z then Some all else None).
Proof.
  revert body. induction chunks as [|chunk chunks IH]; intros body Hb; cbn [read_pccs_body].
  - cbn. rewrite append_nil_r. by apply Z.leb_le in Hb as ->.
  - assert (String.concat "" (chunk :: chunks) = chunk +:+ String.concat "" chunks) as ->.
    { destruct chunks; cbn; [by rewrite append_nil_r|done]. }
    destruct (Z.leb_spec (Z.of_nat (String.length body) + Z.of_nat (String.length chunk)) MAX_PCCS_RESPONSE_BYTES) as [Hl|Hl].
    + rewrite IH by (rewrite append_length; lia). by rewrite append_assoc.
    + cbn zeta. destruct (Z.leb_spec (Z.of_nat (String.length (body +:+ chunk +:+ String.concat "" chunks))) MAX_PCCS_RESPONSE_BYTES); [|done].
      rewrite !append_length in *. lia.
Qed.

(** ** The store *)

Lemma oldest_spec entries : entries ≠ ∅ →
  ∃ k e, oldest entries = Some k ∧ entries !! k = Some e ∧ ∀ k' e', entries !! k' = Some e' → (e.1 ≤ e'.1)%Z.
Proof.
  intros Hne. unfold oldest, sort_by. set (l := merge_sort _ _).
  assert (∀ x, x ∈ l ↔ entries !! x.1 = Some x.2) as Hl.
  { intros [k e]. unfold l. rewrite merge_sort_Permutation. apply elem_of_map_to_list. }
  destruct (min_by_exists older_entry l) as [[k e] Hf].
  { intros E. apply Hne, map_eq. intros k. rewrite lookup_empty. destruct (entries !! k) as [e|] eqn:Ek; [|done].
    apply (Hl (k, e)) in Ek. rewrite E in Ek. by apply elem_of_nil in Ek. }
  rewrite Hf. apply (min_by_Some older_entry (order := number_order _)) in Hf as [Hin Hle]. apply Hl in Hin.
  exists k, e. split_and!; try done. intros k' e' Hk%(Hl (k', e')). apply Hle in Hk. by apply Z.ltb_ge in Hk.
Qed.

(** Eviction drops the oldest entries, and only as many as it must. *)
Lemma evict_oldest_spec fuel entries :
  evict_oldest fuel entries ⊆ entries
  ∧ (Nat.min (size entries) 256 ≤ size (evict_oldest fuel entries))%nat
  ∧ ((size entries ≤ 256 + fuel)%nat → (size (evict_oldest fuel entries) ≤ 256)%nat)
  ∧ (∀ k e k' e', entries !! k = Some e → evict_oldest fuel entries !! k = None → evict_oldest fuel entries !! k' = Some e' → (e.1 ≤ e'.1)%Z).
Proof.
  revert entries. induction fuel as [|fuel IH]; intros entries; cbn [evict_oldest].
  - split_and!; [done|lia|lia|congruence].
  - unfold COLLATERAL_STORE_MAX_ENTRIES. destruct (Nat.leb_spec (size entries) 256) as [Hs|Hs]; [split_and!; [done|lia|lia|congruence]|].
    destruct (oldest_spec entries) as (k & e & -> & Hk & Hle). { intros ->. rewrite map_size_empty in Hs. lia. }
    destruct (IH (delete k entries)) as (Hsub & Hlow & Hhigh & Hold). rewrite map_size_delete, Hk in *. unfold id in *.
    split_and!; [|lia|lia|].
    + etrans; [exact Hsub|]. apply delete_subseteq.
    + intros k1 e1 k2 e2 H1 Hn H2. destruct (decide (k1 = k)) as [->|Hne].
      * assert (e1 = e) as -> by congruence. apply (Hle k2).
        eapply lookup_weaken; [|apply (delete_subseteq entries k)]. by eapply lookup_weaken.
      * eapply Hold; [|done|done]. by rewrite lookup_delete_ne.
Qed.

Lemma collateral_insert_lookup key value store k e :
  st_entries (collateral_insert key value store) !! k = Some e →
  k = key ∧ e = (st_sequence store, value) ∨ k ≠ key ∧ st_entries store !! k = Some e.
Proof.
  cbn. set (entries := <[key := _]> _). intros H. apply (lookup_weaken _ entries) in H; [|apply evict_oldest_spec].
  apply lookup_insert_Some in H as [[<- <-]|[? ?]]; auto.
Qed.
Lemma collateral_insert_size key value store : (size (st_entries (collateral_insert key value store)) ≤ 256)%nat.
Proof. cbn. apply evict_oldest_spec. lia. Qed.

(** The entries are numbered in the order they came. *)
Record store_numbered (store : CollateralStore) : Prop := {
  sn_before k e : st_entries store !! k = Some e → (0 ≤ e.1 < st_sequence store)%Z;
  sn_distinct k e k' e' : st_entries store !! k = Some e → st_entries store !! k' = Some e' → e.1 = e'.1 → k = k';
}.
Lemma collateral_insert_numbered key value store :
  store_numbered store → (0 ≤ st_sequence store < 2 ^ 64 - 1)%Z → store_numbered (collateral_insert key value store).
Proof.
  intros [Hb Hd] Hs. assert (st_sequence (collateral_insert key value store) = st_sequence store + 1)%Z as Hq.
  { cbn [collateral_insert st_sequence]. apply Z.mod_small. lia. }
  constructor.
  - intros k e H. rewrite Hq. apply collateral_insert_lookup in H as [[-> ->]|[_ H]]; cbn; [lia|]. apply Hb in H. lia.
  - intros k e k' e' [[-> ->]|[_ H]]%collateral_insert_lookup [[-> ->]|[_ H']]%collateral_insert_lookup He; try done; cbn in He.
    + apply Hb in H'. lia.
    + apply Hb in H. lia.
    + by eapply Hd.
Qed.

(** An insertion into a numbered store keeps what it inserted; an entry it loses is
    older_entry than every entry it keeps. *)
Lemma collateral_insert_keeps key value store :
  store_numbered store →
  st_entries (collateral_insert key value store) !! key = Some (st_sequence store, value)
  ∧ (∀ k e k' e', k ≠ key → st_entries store !! k = Some e → st_entries (collateral_insert key value store) !! k = None →
       st_entries (collateral_insert key value store) !! k' = Some e' → (e.1 < e'.1)%Z).
Proof.
  intros [Hb Hd]. pose proof (collateral_insert_lookup key value store) as Hin. cbn in *. set (entries := <[key := _]> _) in *.
  destruct (evict_oldest_spec (size entries) entries) as (Hsub & Hlow & _ & Hold). split.
  - destruct (evict_oldest _ _ !! key) as [e|] eqn:E; [apply Hin in E as [[_ ->]|[? _]]; done|].
    assert (entries !! key = Some (st_sequence store, value)) as Hk by apply lookup_insert_eq.
    assert (evict_oldest (size entries) entries ≠ ∅) as [k [e He]]%map_choose.
    { intros Hem. rewrite Hem, map_size_empty in Hlow. assert (size entries ≠ 0%nat); [|lia].
      rewrite map_size_non_empty_iff. intros Hem'. by rewrite Hem', lookup_empty in Hk. }
    pose proof (Hold _ _ _ _ Hk E He) as Hle. cbn in Hle.
    destruct (Hin _ _ He) as [[-> _]|[_ H]]; [congruence|]. apply Hb in H. lia.
  - intros k e k' e' Hne Hk Hn Hk'. assert (entries !! k = Some e) as Hk1 by (unfold entries; by rewrite lookup_insert_ne).
    pose proof (Hold _ _ _ _ Hk1 Hn Hk'). destruct (Hin _ _ Hk') as [[-> ->]|[_ H']]; [apply Hb in Hk; cbn in *; lia|].
    destruct (decide (e.1 = e'.1)) as [E|]; [|lia]. rewrite (Hd _ _ _ _ Hk H' E) in Hn. congruence.
Qed.

(** ** Resolution *)

Section ResolverFacts.
Context {prim : Primitives} {crypto : SignatureCrypto} {dcap : DcapLibrary} {pck : PckReader} {json : BundleJson}.

Lemma verifier_of_Ok bundle now v :
  verifier_of bundle now = Ok v ↔
    bundle_valid bundle ∧ (now < cb_valid_until_epoch_ms bundle)%Z
    ∧ v = DcapTdxTinfoilQuoteVerifier (cb_collateral bundle) now.
Proof.
  unfold verifier_of, verifier_at. rewrite map_err_Ok, unit_bind_Ok, validate_Ok, guard_Ok, Z.leb_gt. naive_solver.
Qed.
Lemma usable_Some bundle now v :
  usable_verifier bundle now = Ok (Some v) ↔ ∃ b, bundle = Some b ∧ verifier_of b now = Ok v.
Proof.
  unfold usable_verifier. destruct bundle as [b|]; [|naive_solver]. unfold is_valid_at.
  destruct (Z.ltb_spec now (cb_valid_until_epoch_ms b)) as [Hl|Hl]; cbn [negb].
  - split; [intros H; inv_ok; eauto|]. by intros (b' & [= <-] & ->).
  - split; [done|]. intros (b' & [= <-] & (_ & ? & _)%verifier_of_Ok). lia.
Qed.

(** What may be kept under a key: a bundle without anything of one quote, or a
    bundle of the quote. *)
Definition entry_fits (key : CollateralCacheKey) (bundle : DcapTdxCollateralBundle) : Prop :=
  match key with
  | PlatformKey _ _ => cb_quote_sha256 bundle = None ∧ qc_pck_certificate_chain (cb_collateral bundle) = None
  | QuoteKey digest => cb_quote_sha256 bundle = Some digest
  end.
(** The fetcher marks what it fetches for a quote, as the one over PCCS does. *)
Definition tagging (env : Environment) (quote_bytes : string) : Prop :=
  ∀ n bundle, fa_result (en_answers env n) = Ok bundle → cb_quote_sha256 bundle = Some (sha256_digest quote_bytes).
Lemma pccs_fetch_tags pccs_url fetched quote_bytes fetched_at bundle :
  pccs_fetch_bundle_at pccs_url fetched quote_bytes fetched_at = Ok bundle →
  cb_quote_sha256 bundle = Some (sha256_digest quote_bytes).
Proof. unfold pccs_fetch_bundle_at, from_collateral_at. intros H. by inv_ok. Qed.

Lemma quote_key_digest quote_bytes digest :
  collateral_key_for_quote quote_bytes = QuoteKey digest → digest = sha256_digest quote_bytes.
Proof. unfold collateral_key_for_quote. repeat case_match; naive_solver. Qed.
Lemma fetched_fits quote_bytes bundle :
  cb_quote_sha256 bundle = Some (sha256_digest quote_bytes) →
  entry_fits (collateral_key_for_quote quote_bytes) (stored_form (collateral_key_for_quote quote_bytes) bundle).
Proof. intros H. destruct (collateral_key_for_quote quote_bytes) eqn:E; [done|]. by apply quote_key_digest in E as ->. Qed.
Lemma matching_fits key bundle : bundle_matches key bundle = true → entry_fits key (stored_form key bundle).
Proof. destruct key; cbn; [done|]. by intros ?%bool_decide_eq_true_1. Qed.
Lemma fits_matches key bundle : entry_fits key bundle → bundle_matches key bundle = true ∧ stored_form key bundle = bundle.
Proof.
  destruct key; cbn.
  - intros [Ht Hc]. rewrite Hc. split; [done|]. unfold shared_bundle, without_pck_chain.
    destruct bundle as [? ? ? ? ? ? tag []]. cbn in *. by subst.
  - intros H. split; [by apply bool_decide_eq_true_2|done].
Qed.

(** What a step of a resolver leaves alone, and what it may add to the store. *)
Definition extends (key : CollateralCacheKey) (s s' : ResolverState) : Prop :=
  rv_memory s' = rv_memory s
  ∧ (rv_store s' = rv_store s
     ∨ ∃ bundle, entry_fits key bundle ∧ rv_store s' = collateral_insert key bundle (rv_store s)).

Lemma invalidate_store faults path key s r s' :
  invalidate faults path key s = (r, s') → (∀ v, r ≠ Ok (Some v)) ∧ rv_memory s' = rv_memory s ∧ rv_store s' = rv_store s.
Proof. unfold invalidate, remove_cache_file. destruct (ff_remove faults); naive_solver. Qed.
Lemma write_file_store has_dir pid faults key bundle s r s' :
  write_file_bundle has_dir pid faults key bundle s = (r, s') → rv_memory s' = rv_memory s ∧ rv_store s' = rv_store s.
Proof. unfold write_file_bundle. intros H. repeat case_match; by simplify_eq/=. Qed.

(** A verifier from a file comes from a bundle that decodes, fits its key and is
    valid, and which is in the store afterwards. *)
Definition from_file (has_dir : bool) (key : CollateralCacheKey) (now : Z) (s : ResolverState) (v : TinfoilQuoteVerifier)
    (s' : ResolverState) : Prop :=
  ∃ path bytes bundle,
    cache_path_for_key has_dir key = Ok (Some path) ∧ rv_disk s !! path = Some bytes
    ∧ bundle_from_json (bundle_decode bytes) = Ok bundle ∧ bundle_matches key bundle = true ∧ is_valid_at bundle now = true
    ∧ verifier_of (stored_form key bundle) now = Ok v ∧ s' = with_store (collateral_insert key (stored_form key bundle)) s.
Lemma file_verifier_spec has_dir faults key now s r s' :
  file_verifier_for_key has_dir faults key now s = (r, s') →
  extends key s s' ∧ (∀ v, r = Ok (Some v) → from_file has_dir key now s v s')
  ∧ (r = Ok None → rv_store s' = rv_store s).
Proof.
  unfold file_verifier_for_key, extends. intros H.
  destruct (cache_path_for_key has_dir key) as [[path|]|e] eqn:Ep; [|simplify_eq; split_and!; auto; done..].
  destruct (rv_disk s !! path) as [bytes|] eqn:Ed; [|simplify_eq; split_and!; auto; done].
  destruct (ff_read faults); [simplify_eq; split_and!; auto; done|].
  destruct (bundle_from_json (bundle_decode bytes)) as [bundle|e] eqn:Ej;
    [|apply invalidate_store in H as (? & ? & ?); split_and!; auto; naive_solver].
  destruct (bundle_matches key bundle) eqn:Em; cbn [negb] in H;
    [|apply invalidate_store in H as (? & ? & ?); split_and!; auto; naive_solver].
  destruct (is_valid_at bundle now) eqn:Ev; cbn [negb] in H;
    [|apply invalidate_store in H as (? & ? & ?); split_and!; auto; naive_solver].
  cbn [insert_fetched_bundle] in H. injection H as <- <-. split_and!.
  - done.
  - right. eexists. split; [|done]. by apply matching_fits.
  - intros v Hv. exists path, bytes, bundle. split_and!; try done. destruct (verifier_of _ now); cbn in Hv; congruence.
  - destruct (verifier_of _ now); cbn; congruence.
Qed.

(** Where a call found its verifier. *)
Definition from_memory (quote_bytes : string) (now : Z) (s : ResolverState) (v : TinfoilQuoteVerifier) : Prop :=
  ∃ bundle, bundle_for_quote quote_bytes (rv_memory s) = Some bundle ∧ verifier_of bundle now = Ok v.
Definition from_store (key : CollateralCacheKey) (now : Z) (s : ResolverState) (v : TinfoilQuoteVerifier) : Prop :=
  ∃ n bundle, st_entries (rv_store s) !! key = Some (n, bundle) ∧ verifier_of bundle now = Ok v.
(** From the fetcher: the bundle was stored, and written when there is a directory. *)
Definition from_fetcher (env : Environment) (key : CollateralCacheKey) (now : Z) (s : ResolverState) (v : TinfoilQuoteVerifier)
    (s' : ResolverState) : Prop :=
  ∃ n bundle, fa_result (en_answers env n) = Ok bundle ∧ verifier_of (stored_form key bundle) now = Ok v
    ∧ rv_store s' = collateral_insert key (stored_form key bundle) (rv_store s)
    ∧ (en_has_cache_dir env = true →
         ∃ path bytes, cache_path_for_key true key = Ok (Some path)
           ∧ bundle_to_json (stored_form key bundle) = Some bytes ∧ rv_disk s' !! path = Some bytes).

Lemma cache_path_dir key o : cache_path_for_key true key = Ok o → is_Some o.
Proof. unfold cache_path_for_key. destruct key; cbn [negb]; intros H; inv_ok; eauto. Qed.
Lemma write_file_Ok pid faults key bundle s s' :
  write_file_bundle true pid faults key bundle s = (Ok tt, s') →
  ∃ path bytes, cache_path_for_key true key = Ok (Some path) ∧ bundle_to_json bundle = Some bytes ∧ rv_disk s' !! path = Some bytes.
Proof.
  unfold write_file_bundle. intros H. destruct (cache_path_for_key true key) as [o|e] eqn:Ep; [|done].
  destruct (cache_path_dir _ _ Ep) as [path ->]. repeat case_match; simplify_eq/=.
  eexists _, _. split_and!; try done. apply lookup_insert_eq.
Qed.

Lemma resolve_spec policy env quote_bytes now s r s' :
  built_policy policy → tagging env quote_bytes → resolve policy env quote_bytes now s = (r, s') →
  extends (collateral_key_for_quote quote_bytes) s s'
  ∧ ∀ v, r = Ok v →
      from_memory quote_bytes now s v ∧ rv_store s' = rv_store s
      ∨ from_store (collateral_key_for_quote quote_bytes) now s v ∧ rv_store s' = rv_store s
      ∨ (∃ s1, from_file (en_has_cache_dir env) (collateral_key_for_quote quote_bytes) now s v s1
           ∧ s' = record_cache_metric (sha256_digest quote_bytes) FileHit s1)
      ∨ from_fetcher env (collateral_key_for_quote quote_bytes) now s v s'.
Proof.
  intros Hp Ht. unfold resolve. set (key := collateral_key_for_quote quote_bytes). set (digest := sha256_digest quote_bytes). cbn zeta.
  destruct (memory_verifier_for_quote s quote_bytes now) as [[v|]|e] eqn:Em;
    [|destruct (stored_verifier_for_key s key now) as [[v|]|e] eqn:Es;
      [|destruct (file_verifier_for_key _ _ key now s) as [[[v|]|e] s1] eqn:Ef|]|].
  - intros [= <- <-]. split; [by split; [|left]|]. intros v' [= ->]. left. split; [|done]. by apply usable_Some.
  - intros [= <- <-]. split; [by split; [|left]|]. intros v' [= ->]. right. left. split; [|done].
    apply usable_Some in Es as (b & Eb & Hv). destruct (st_entries (rv_store s) !! key) as [[n b']|] eqn:Ek; [|done].
    injection Eb as ->. by exists n, b.
  - apply file_verifier_spec in Ef as ((Hm & Hst) & Hv & _). intros [= <- <-]. split; [done|].
    intros v' [= ->]. right. right. left. eauto.
  - apply file_verifier_spec in Ef as ((Hm & _) & _ & Hst). specialize (Hst eq_refl).
    set (s2 := record_cache_metric digest CacheMiss s1).
    assert (rv_memory s2 = rv_memory s ∧ rv_store s2 = rv_store s) as [Hm2 Hs2] by done. clearbody s2.
    destruct (en_slot env); [|intros [= <- <-]; split; [split; auto|done]].
    destruct (fetch_bundle_with_policy policy (en_answers env) digest) as [[bundle|e] metrics] eqn:Eb;
      [|intros [= <- <-]; split; [split; auto|done]].
    destruct (fetched_from_answer policy (en_answers env) digest bundle Hp) as [n Hn]; [by rewrite Eb|].
    cbn [insert_fetched_bundle]. set (s3 := with_store _ _).
    assert (rv_memory s3 = rv_memory s ∧ rv_store s3 = collateral_insert key (stored_form key bundle) (rv_store s)) as [Hm3 Hs3].
    { split; [exact Hm2|]. cbn. by rewrite Hs2. }
    clearbody s3. assert (entry_fits key (stored_form key bundle)) as Hfit by (by eapply fetched_fits, Ht).
    destruct (write_file_bundle _ _ _ _ _ _) as [[[]|e] s4] eqn:Ew; pose proof (write_file_store _ _ _ _ _ _ _ _ Ew) as [Hm4 Hs4];
      intros [= <- <-]; (split; [split; [congruence|right; eexists; split; [done|congruence]]|]); [|done].
    intros v Hv. right. right. right. exists n, bundle. split_and!; try done; [congruence|].
    intros Hd. rewrite Hd in Ew. by eapply write_file_Ok.
  - apply file_verifier_spec in Ef as (Hext & _). by intros [= <- <-].
  - intros [= <- <-]. split; [by split; [|left]|done].
  - intros [= <- <-]. split; [by split; [|left]|done].
Qed.

(** ** A resolver over time

    Calls resolve quotes, an operator adds bundles, the files change in any way, and
    the program restarts with what is on disk. *)

Inductive resolver_step : ResolverState → ResolverState → Prop :=
| step_resolve policy env quote_bytes now r s s' :
    built_policy policy → tagging env quote_bytes → resolve policy env quote_bytes now s = (r, s') → resolver_step s s'
| step_offline quote_bytes bundle s s' :
    with_offline_bundle_for_quote quote_bytes bundle s = Ok s' → resolver_step s s'
| step_signed quote_bytes envelope keys s s' :
    with_signed_offline_bundle_for_quote quote_bytes envelope keys s = Ok s' → resolver_step s s'
| step_files f s : resolver_step s (with_disk f s)
| step_restart disk s : resolver_step s (new_resolver disk).

Record resolver_ok (n : nat) (s : ResolverState) : Prop := {
  ro_memory : cache_ok (rv_memory s);
  ro_size : (size (st_entries (rv_store s)) ≤ 256)%nat;
  ro_fits k m bundle : st_entries (rv_store s) !! k = Some (m, bundle) → entry_fits k bundle;
  ro_sequence : (0 ≤ st_sequence (rv_store s))%Z;
  ro_numbered : (Z.of_nat n < 2 ^ 64)%Z → store_numbered (rv_store s) ∧ (st_sequence (rv_store s) ≤ Z.of_nat n)%Z;
}.

Lemma new_resolver_ok disk n : resolver_ok n (new_resolver disk).
Proof.
  constructor; cbn; rewrite ?map_size_empty; try lia; [by constructor; [rewrite map_size_empty; lia|..]|done|].
  intros _. by split; [constructor|lia].
Qed.
Lemma extends_ok key n s s' : resolver_ok n s → extends key s s' → resolver_ok (S n) s'.
Proof.
  intros [Hm Hz Hf Hq Hn] [Em [Es|(bundle & Hb & Es)]]; constructor; rewrite ?Em, ?Es; auto.
  - intros Hl. destruct Hn as [? ?]; [lia|]. split; [done|lia].
  - apply collateral_insert_size.
  - intros k m b [[-> [= -> ->]]|[_ H]]%collateral_insert_lookup; [done|by eapply Hf].
  - cbn. apply Z.mod_pos_bound. lia.
  - intros Hl. destruct Hn as [Hnum Hs]; [lia|]. split; [apply collateral_insert_numbered; [done|lia]|].
    cbn [collateral_insert st_sequence]. rewrite Z.mod_small; lia.
Qed.
Lemma offline_ok quote_bytes bundle n s s' :
  resolver_ok n s → with_offline_bundle_for_quote quote_bytes bundle s = Ok s' → resolver_ok (S n) s'.
Proof.
  intros [Hm Hz Hf Hq Hn] H. unfold with_offline_bundle_for_quote in H. inv_ok.
  constructor; try done; cbn; [by eapply insert_keeps|]. intros Hl. destruct Hn as [? ?]; [lia|]. split; [done|lia].
Qed.
Lemma step_ok n s s' : resolver_ok n s → resolver_step s s' → resolver_ok (S n) s'.
Proof.
  intros Hs. destruct 1 as [policy env quote now r s s' Hp Ht H|quote bundle s s' H|quote envelope keys s s' H|f s|disk s].
  - apply resolve_spec in H as [H _]; [|done..]. by eapply extends_ok.
  - by eapply offline_ok.
  - unfold with_signed_offline_bundle_for_quote in H. inv_ok. by eapply offline_ok.
  - apply (extends_ok (QuoteKey "") n s _ Hs). by split; [|left].
  - apply new_resolver_ok.
Qed.
Lemma steps_ok disk n s : nsteps resolver_step n (new_resolver disk) s → resolver_ok n s.
Proof.
  revert s. induction n as [|n IH]; intros s.
  - inversion 1; subst. apply new_resolver_ok.
  - intros (s1 & H & Hs)%nsteps_inv_r. eapply step_ok; eauto.
Qed.

(** What a bundle's verifier accepts: quotes that the library verified against the
    bundle's collateral, until the collateral ends. *)
Lemma resolved_quotes bundle now quote_bytes verified :
  bundle_valid bundle →
  @verify_tdx_quote (DcapTdxTinfoilQuoteVerifier (cb_collateral bundle) now) quote_bytes = Ok verified →
  td_expires_at_epoch_ms verified = cb_valid_until_epoch_ms bundle
  ∧ ∃ report, dcap_verify quote_bytes (cb_collateral bundle) (now / 1000) = DcapVerified report ∧ up_to_date report.
Proof.
  intros Hb H. apply dcap_quote_iff in H as (expires & v & parsed & report & He & _ & Hv & Hu & _ & _ & ->).
  rewrite (bv_until _ Hb) in He. injection He as <-. split; [done|]. by exists v.
Qed.

(** C16: Whatever calls, operator bundles, changes of the cache files and restarts
    came before, a verifier that the resolver gives for a quote uses the collateral
    of a bundle that is consistent and not expired. The bundle is one the operator
    gave for this very quote, or it fits the quote's key: a bundle shared by a
    platform carries neither a PCK chain nor a quote's mark, and any other bundle is
    marked with this quote's digest. What the verifier then accepts, the DCAP library
    verified as up to date, and the acceptance ends with the collateral. The store
    never exceeds 256 entries. The fetcher is assumed to mark its bundles with the
    quote they were fetched for, as the repository's PCCS fetcher is proved to. *)
Theorem resolved_verifier_sound disk n s policy env quote_bytes now verifier s' :
  nsteps resolver_step n (new_resolver disk) s → built_policy policy → tagging env quote_bytes →
  resolve policy env quote_bytes now s = (Ok verifier, s') →
  (size (st_entries (rv_store s')) ≤ 256)%nat
  ∧ ∃ bundle,
      verifier = DcapTdxTinfoilQuoteVerifier (cb_collateral bundle) now
      ∧ bundle_valid bundle ∧ (now < cb_valid_until_epoch_ms bundle)%Z
      ∧ (bundle_for_quote quote_bytes (rv_memory s) = Some bundle
           ∧ (∀ d, cb_quote_sha256 bundle = Some d → d = sha256_digest quote_bytes)
         ∨ entry_fits (collateral_key_for_quote quote_bytes) bundle)
      ∧ ∀ quote verified, @verify_tdx_quote verifier quote = Ok verified →
          td_expires_at_epoch_ms verified = cb_valid_until_epoch_ms bundle
          ∧ ∃ report, dcap_verify quote (cb_collateral bundle) (now / 1000) = DcapVerified report ∧ up_to_date report.
Proof.
  intros Hs%steps_ok Hp Ht H. apply resolve_spec in H as [Hext Hv]; [|done..].
  split; [by eapply ro_size, extends_ok|]. destruct Hs as [Hm _ Hf _ _].
  assert (∃ bundle, verifier_of bundle now = Ok verifier
            ∧ (bundle_for_quote quote_bytes (rv_memory s) = Some bundle ∨ entry_fits (collateral_key_for_quote quote_bytes) bundle))
    as (bundle & Hb & Hfit).
  { destruct (Hv _ eq_refl) as [[(b & Hb & Ev) _]|[[(m & b & Hb & Ev) _]
      |[(s1 & (path & bytes & b & _ & _ & _ & Hma & _ & Ev & _) & _)|(m & b & Ha & Ev & _)]]];
      (eexists; split; [exact Ev|]); [by left|right..]; [by eapply Hf|by apply matching_fits|by eapply fetched_fits, Ht]. }
  apply verifier_of_Ok in Hb as (Hb & Hn & ->). exists bundle. split_and!; try done.
  - destruct Hfit as [Hfit|Hfit]; [left; split; [done|]|by right]. intros d Hd. by eapply co_pinned.
  - intros quote verified Hq. by eapply resolved_quotes.
Qed.

(** A usable stored bundle answers a call, before any file or fetch. *)
Lemma stored_answers policy env quote_bytes now s m bundle :
  bundle_for_quote quote_bytes (rv_memory s) = None →
  st_entries (rv_store s) !! collateral_key_for_quote quote_bytes = Some (m, bundle) →
  bundle_valid bundle → is_valid_at bundle now = true →
  resolve policy env quote_bytes now s
  = (Ok (DcapTdxTinfoilQuoteVerifier (cb_collateral bundle) now), record_cache_metric (sha256_digest quote_bytes) MemoryHit s).
Proof.
  intros Hm Hk Hb Hv. unfold resolve, memory_verifier_for_quote, stored_verifier_for_key. cbn zeta. rewrite Hm, Hk. cbn.
  rewrite Hv. cbn [negb]. apply Z.ltb_lt in Hv.
  by rewrite (proj2 (verifier_of_Ok bundle now _) (conj Hb (conj Hv eq_refl))).
Qed.

(** A verifier that did not come from an operator's bundle leaves its bundle in the
    store. *)
Lemma resolved_stored disk n s policy env quote_bytes now verifier s' :
  nsteps resolver_step n (new_resolver disk) s → (Z.of_nat n < 2 ^ 64 - 1)%Z → built_policy policy → tagging env quote_bytes →
  resolve policy env quote_bytes now s = (Ok verifier, s') → bundle_for_quote quote_bytes (rv_memory s) = None →
  ∃ m bundle, st_entries (rv_store s') !! collateral_key_for_quote quote_bytes = Some (m, bundle)
    ∧ verifier_of bundle now = Ok verifier ∧ rv_memory s' = rv_memory s.
Proof.
  intros Hs%steps_ok Hl Hp Ht H Hm. apply resolve_spec in H as [[Hmem _] Hv]; [|done..].
  destruct (ro_numbered _ _ Hs) as [Hnum _]; [lia|].
  destruct (Hv _ eq_refl) as [[(b & Hb & Ev) _]|[[(m & b & Hb & Ev) Hst]
      |[(s1 & (path & bytes & b & _ & _ & _ & _ & _ & Ev & ->) & ->)|(m & b & Ha & Ev & Hst & _)]]]; [congruence| | |].
  - rewrite Hst. eauto.
  - do 2 eexists. split; [|eauto]. by apply collateral_insert_keeps.
  - rewrite Hst. do 2 eexists. split; [|eauto]. by apply collateral_insert_keeps.
Qed.

(** Collateral is fetched once for a platform. Once a call found collateral for a
    quote, any later call for any quote with the same key is answered from memory
    with the same collateral until that ends, whatever the files, the fetcher and the
    queue do then; nothing is fetched, written or evicted. *)
Theorem platform_collateral_reused disk n s policy env quote_bytes now verifier s' :
  nsteps resolver_step n (new_resolver disk) s → (Z.of_nat n < 2 ^ 64 - 1)%Z → built_policy policy → tagging env quote_bytes →
  resolve policy env quote_bytes now s = (Ok verifier, s') → bundle_for_quote quote_bytes (rv_memory s) = None →
  ∃ bundle, verifier = DcapTdxTinfoilQuoteVerifier (cb_collateral bundle) now ∧ (now < cb_valid_until_epoch_ms bundle)%Z
    ∧ ∀ policy' env' quote' later,
        collateral_key_for_quote quote' = collateral_key_for_quote quote_bytes →
        bundle_for_quote quote' (rv_memory s) = None → (later < cb_valid_until_epoch_ms bundle)%Z →
        resolve policy' env' quote' later s'
        = (Ok (DcapTdxTinfoilQuoteVerifier (cb_collateral bundle) later), record_cache_metric (sha256_digest quote') MemoryHit s').
Proof.
  intros Hs Hl Hp Ht H Hm. destruct (resolved_stored _ _ _ _ _ _ _ _ _ Hs Hl Hp Ht H Hm) as (m & bundle & Hk & Ev & Hmem).
  apply verifier_of_Ok in Ev as (Hb & Hn & ->). exists bundle. split_and!; try done.
  intros policy' env' quote' later Hkey Hm' Hlt. eapply stored_answers; try done; [by rewrite Hmem|by rewrite Hkey|by apply Z.ltb_lt].
Qed.

(** ** Files *)

(** Decoding undoes encoding. *)
Class BundleJsonLaws := bundle_json_roundtrip bundle bytes : bundle_to_json bundle = Some bytes → bundle_decode bytes = Some bundle.

Lemma file_answers policy env quote_bytes now disk path bytes bundle v :
  en_has_cache_dir env = true → ff_read (en_faults env) = false →
  cache_path_for_key true (collateral_key_for_quote quote_bytes) = Ok (Some path) → disk !! path = Some bytes →
  bundle_from_json (bundle_decode bytes) = Ok bundle → bundle_matches (collateral_key_for_quote quote_bytes) bundle = true →
  is_valid_at bundle now = true → verifier_of (stored_form (collateral_key_for_quote quote_bytes) bundle) now = Ok v →
  (resolve policy env quote_bytes now (new_resolver disk)).1 = Ok v.
Proof.
  intros Hd Hr Hp Hk Hj Hm Hn Hv. unfold resolve. cbn zeta.
  unfold memory_verifier_for_quote, stored_verifier_for_key, bundle_for_quote, file_verifier_for_key.
  cbn [new_resolver rv_memory rv_store rv_disk empty_store st_entries]. rewrite !lookup_empty. cbn [usable_verifier fmap option_fmap option_map].
  rewrite Hd, Hp, Hk, Hr, Hj, Hm, Hn. cbn [negb insert_fetched_bundle]. by rewrite Hv.
Qed.
Lemma stored_form_until key bundle : cb_valid_until_epoch_ms (stored_form key bundle) = cb_valid_until_epoch_ms bundle.
Proof. by destruct key. Qed.

(** What was fetched survives a restart. When a resolver with a cache directory
    found no collateral in memory and its call succeeded, a new resolver over the
    files it left answers every quote with the same key from them, with the same
    collateral until that ends, as long as the file can be read. *)
Theorem collateral_survives_restart {laws : BundleJsonLaws} policy env quote_bytes now s verifier s' :
  built_policy policy → tagging env quote_bytes → en_has_cache_dir env = true →
  bundle_for_quote quote_bytes (rv_memory s) = None →
  st_entries (rv_store s) !! collateral_key_for_quote quote_bytes = None →
  resolve policy env quote_bytes now s = (Ok verifier, s') →
  ∃ bundle, verifier = DcapTdxTinfoilQuoteVerifier (cb_collateral bundle) now ∧ (now < cb_valid_until_epoch_ms bundle)%Z
    ∧ ∀ policy' env' quote' later,
        collateral_key_for_quote quote' = collateral_key_for_quote quote_bytes →
        en_has_cache_dir env' = true → ff_read (en_faults env') = false → (later < cb_valid_until_epoch_ms bundle)%Z →
        (resolve policy' env' quote' later (new_resolver (rv_disk s'))).1
        = Ok (DcapTdxTinfoilQuoteVerifier (cb_collateral bundle) later).
Proof.
  intros Hp Ht Hd Hm Hs H. apply resolve_spec in H as [_ Hv]; [|done..]. set (key := collateral_key_for_quote quote_bytes) in *.
  assert (∃ path bytes b, cache_path_for_key true key = Ok (Some path) ∧ rv_disk s' !! path = Some bytes
            ∧ bundle_from_json (bundle_decode bytes) = Ok b ∧ bundle_matches key b = true
            ∧ verifier_of (stored_form key b) now = Ok verifier) as (path & bytes & b & Hpath & Hk & Hj & Hma & Ev).
  { destruct (Hv _ eq_refl) as [[(b & Hb & _) _]|[[(m & b & Hb & _) _]
      |[(s1 & (path & bytes & b & Hpa & Hk & Hj & Hma & _ & Ev & ->) & ->)|(m & b & Ha & Ev & _ & Hw)]]]; try congruence.
    - rewrite Hd in Hpa. by exists path, bytes, b.
    - destruct (Hw Hd) as (path & bytes & Hpa & Hj & Hk).
      destruct (fits_matches key (stored_form key b)) as [Hma Hsf]; [by eapply fetched_fits, Ht|].
      exists path, bytes, (stored_form key b). rewrite Hsf. split_and!; try done. unfold bundle_from_json.
      rewrite (bundle_json_roundtrip _ _ Hj). cbn [ok_or mbind result_bind].
      apply verifier_of_Ok in Ev as (Hb & _ & _). by rewrite (proj2 (validate_Ok _) Hb). }
  apply verifier_of_Ok in Ev as (Hb & Hn & ->). exists (stored_form key b). split_and!; try done.
  intros policy' env' quote' later Hkey Hd' Hr Hlt.
  eapply (file_answers policy' env' quote' later _ path bytes b); rewrite ?Hkey; try done.
  - rewrite stored_form_until in Hlt. by apply Z.ltb_lt.
  - by apply verifier_of_Ok.
Qed.

(** A cache file stays inside its directory. *)
Lemma cache_path_plain has_dir key path : cache_path_for_key has_dir key = Ok (Some path) → no_byte "/" path.
Proof.
  unfold cache_path_for_key, cache_filename_for_digest. destruct has_dir; [|done]. destruct key as [fmspc ca|digest]; cbn [negb]; intros H; inv_ok; bools.
  - destruct_and?. rewrite !no_byte_app. split_and!; try done; (eapply class_excludes; [|eassumption]; done).
  - destruct_and?. rewrite !no_byte_app. split_and!; try done. eapply class_excludes; [|eassumption]; done.
Qed.

(** The reading of a PEM bundle has enough turns. *)
Lemma pem_fuel_enough fuel fuel' text : (String.length text ≤ fuel)%nat → (String.length text ≤ fuel')%nat →
  pem_certificates_fuel fuel text = pem_certificates_fuel fuel' text.
Proof.
  revert fuel' text. induction fuel as [|fuel IH]; intros fuel' text Hf Hf'.
  - destruct text; [|cbn in Hf; lia]. by destruct fuel'.
  - destruct fuel' as [|fuel']; [destruct text; [done|cbn in Hf'; lia]|]. cbn [pem_certificates_fuel].
    destruct (position BEGIN_CERTIFICATE text) as [start|] eqn:E; [|done]. apply position_bound in E.
    set (r := slice text _ _). assert (String.length r < String.length text)%nat as Hr.
    { unfold r, slice. rewrite substring_length. cbn in *. lia. }
    clearbody r. destruct (position END_CERTIFICATE r); [|done]. cbn [mbind option_bind].
    destruct (pck_base64_decode _); [|done]. cbn [mbind option_bind].
    rewrite (IH fuel'); [done|..]; unfold slice; rewrite substring_length; lia.
Qed.
End ResolverFacts.

(** ** Concrete inputs *)

#[local] Instance resolver_crypto : SignatureCrypto := {|
  base64url_decode s := Some s; public_key_from_slice s := Some s; signature_from_slice s := Some s;
  ed25519_verify _ _ _ := true |}.
#[local] Instance resolver_dcap : DcapLibrary := {|
  dcap_verify _ _ _ := DcapFailed; quote_parse _ := None;
  collateral_json json := Some (VObject [("nextUpdate", VString json)]);
  crl_next_update der := Some None; collateral_value := qc_rest |}.
(** Every quote embeds the chain of the same platform. *)
Definition platform_pem : string := BEGIN_CERTIFICATE +:+ "cert" +:+ END_CERTIFICATE.
#[local] Instance resolver_pck : PckReader := {|
  quote_inner_cert quote := Some (5%Z, platform_pem);
  pck_certificate_from_der der := Some {| pk_sgx_extension := Some (Some der); pk_ca := None |};
  pck_base64_decode := Some; sgx_extension_pairs _ := Some [Some ["other"]; Some ["fmspc"; "Pf"]];
  FMSPC_OID := "fmspc"; PROCESSOR_CA := "processor" |}.
Example platform_key : collateral_key_for_quote "nonce 1" = PlatformKey "5066" "processor".
Proof. by vm_compute. Qed.

Definition platform_collateral : QuoteCollateralV3 := {|
  qc_tcb_info := "2026-03-02T00:00:00Z"; qc_qe_identity := "2026-04-01T00:00:00Z"; qc_root_ca_crl := "";
  qc_pck_crl := ""; qc_pck_certificate_chain := Some "chain"; qc_rest := VNull |}.
Definition march_first : Z := 1772323200000.
Definition platform_bundle : option DcapTdxCollateralBundle :=
  match from_collateral_at platform_collateral march_first (pccs "https://pccs") None with
  | Ok bundle => Some (shared_bundle bundle) | Err _ => None
  end.
(** A codec that knows the one bundle. *)
Definition bundle_fields (b : DcapTdxCollateralBundle) :=
  (cb_schema b, (cs_kind (cb_source b), cs_url (cb_source b)), (cb_fetched_at b, cb_fetched_at_epoch_ms b),
   (cb_valid_until b, cb_valid_until_epoch_ms b), cb_quote_sha256 b,
   (qc_tcb_info (cb_collateral b), qc_qe_identity (cb_collateral b), qc_root_ca_crl (cb_collateral b), qc_pck_crl (cb_collateral b),
    qc_pck_certificate_chain (cb_collateral b))).
Definition is_platform_bundle (b : DcapTdxCollateralBundle) : bool :=
  bool_decide (Some (bundle_fields b) = bundle_fields <$> platform_bundle)
  && match qc_rest (cb_collateral b) with VNull => true | _ => false end.
#[local] Instance resolver_json : BundleJson := {|
  bundle_to_json bundle := if is_platform_bundle bundle then Some "bundle" else None;
  bundle_decode bytes := if bytes =?= "bundle" then platform_bundle else None |}.
#[local] Instance resolver_json_laws : BundleJsonLaws.
Proof.
  intros bundle bytes. cbn. destruct (is_platform_bundle bundle) eqn:E; [|done]. intros [= <-]. rewrite bool_decide_eq_true_2 by done.
  unfold is_platform_bundle in E. bools. destruct E as [E Er]. vm_compute in E. vm_compute.
  destruct bundle as [? [] ? ? ? ? ? []]. cbn in Er. case_match; [|done..]. cbn in E. by simplify_eq.
Qed.

Definition healthy_files : FileFaults := {| ff_read := false; ff_remove := false; ff_create_dir := false; ff_write := false; ff_rename := false |}.
(** The first attempt takes too long, the second gives the collateral. *)
Definition second_answers (quote_bytes : string) (n : nat) : FetchAnswer := {|
  fa_duration := if (n =? 1)%nat then seconds 31 else seconds 1;
  fa_result := pccs_fetch_bundle_at "https://pccs" (Some platform_collateral) quote_bytes march_first; fa_elapsed := seconds 1 |}.
Definition online (quote_bytes : string) : Environment := {|
  en_has_cache_dir := true; en_pid := "7"; en_faults := healthy_files; en_slot := Ok tt; en_answers := second_answers quote_bytes |}.
Definition offline : Environment := {|
  en_has_cache_dir := true; en_pid := "8"; en_faults := healthy_files; en_slot := Err (Adapter "TDX collateral fetch queue is full ({}/{})");
  en_answers := λ _, {| fa_duration := 0; fa_result := Err (Unavailable ""); fa_elapsed := 0 |} |}.
Lemma online_tags quote_bytes : tagging (online quote_bytes) quote_bytes.
Proof. intros n bundle. apply pccs_fetch_tags. Qed.
Definition first_call : ProviderResult TinfoilQuoteVerifier * ResolverState :=
  resolve default_fetch_policy (online "nonce 1") "nonce 1" march_first (new_resolver ∅).
Lemma first_call_Ok : ∃ v, first_call = (Ok v, first_call.2).
Proof.
  assert (is_ok first_call.1 = true) as H by (vm_compute; reflexivity). destruct first_call as [[v|e] s]; [eauto|done].
Qed.

Lemma fetch_ends_within_policy_witness :
  ∃ r metrics, fetch_bundle_with_policy default_fetch_policy (second_answers "nonce 1") "digest" = (r, metrics)
    ∧ length metrics = 2%nat.
Proof.
  destruct (fetch_ends_within_policy default_fetch_policy (second_answers "nonce 1") "digest" built_default) as (r & metrics & E & _ & _).
  exists r, metrics. split; [exact E|]. transitivity (length (fetch_bundle_with_policy default_fetch_policy (second_answers "nonce 1") "digest").2);
    [by rewrite E|vm_compute; reflexivity].
Defined.
Lemma resolved_verifier_sound_witness :
  ∃ v bundle, first_call.1 = Ok v ∧ bundle_valid bundle ∧ v = DcapTdxTinfoilQuoteVerifier (cb_collateral bundle) march_first.
Proof.
  destruct first_call_Ok as [v E].
  destruct (resolved_verifier_sound ∅ 0 (new_resolver ∅) _ _ _ _ v _ (nsteps_O _ _) built_default (online_tags "nonce 1") E)
    as [_ (bundle & Hv & Hb & _)].
  exists v, bundle. split; [exact (f_equal fst E)|]. split; [exact Hb|exact Hv].
Defined.
Lemma platform_collateral_reused_witness :
  ∃ collateral, (resolve default_fetch_policy offline "nonce 2" march_first first_call.2).1
                = Ok (DcapTdxTinfoilQuoteVerifier collateral march_first).
Proof.
  destruct first_call_Ok as [v E].
  destruct (platform_collateral_reused ∅ 0 (new_resolver ∅) _ _ _ _ v _ (nsteps_O _ _) eq_refl built_default
              (online_tags "nonce 1") E eq_refl) as (bundle & Hv & Hn & Hr).
  exists (cb_collateral bundle). rewrite Hr; [reflexivity|reflexivity|reflexivity|exact Hn].
Defined.
Lemma collateral_survives_restart_witness :
  ∃ collateral, (resolve default_fetch_policy offline "nonce 2" march_first (new_resolver (rv_disk first_call.2))).1
                = Ok (DcapTdxTinfoilQuoteVerifier collateral march_first).
Proof.
  destruct first_call_Ok as [v E].
  destruct (collateral_survives_restart default_fetch_policy (online "nonce 1") "nonce 1" march_first (new_resolver ∅) v _
              built_default (online_tags "nonce 1") eq_refl eq_refl eq_refl E) as (bundle & Hv & Hn & Hr).
  exists (cb_collateral bundle). apply Hr; [reflexivity|reflexivity|reflexivity|exact Hn].
Defined.
