(* ===== verification/FetchQueue.v ===== *)
(** * The queue for collateral fetches

    providers/dcap_tdx.rs: calls that need a fetch take one of a fixed number of
    permits; the others wait, a bounded number of them at a time. The calls run
    concurrently, and a step below is what one of them does between two points where
    another may run: one operation on the semaphore or on the counter. Every
    interleaving of these steps is covered. *)

From Stdlib Require Import String ZArith Lia.
From stdpp Require Import base strings list numbers relations.
From S2P Require Import Prelude RustStr ProviderRequest CollateralResolver.

Open Scope string_scope.

(** ** The state *)

(** How far a call is: before [try_acquire_owned]; refused a permit; counted, with
    the count it saw; waiting for a permit; given one and still counted; fetching. *)
Inductive FetchCall := Arrived | NoPermits | Counted (queued : nat) | Waiting | Granted | Fetching.
#[export] Instance FetchCall_eq_dec : EqDecision FetchCall.
Proof. solve_decision. Defined.
Record FetchQueue := { fq_permits : nat; fq_queued_fetches : nat; fq_calls : list FetchCall }.

(** [new] and [with_fetch_policy]: a semaphore with all its permits, a counter at zero. *)
Definition new_queue (policy : DcapTdxCollateralFetchPolicy) : FetchQueue :=
  {| fq_permits := fp_max_concurrent_fetches policy; fq_queued_fetches := 0; fq_calls := [] |}.

Definition full_error : ProviderError := Adapter "TDX collateral fetch queue is full ({}/{})".
Definition queue_timeout_error : ProviderError := Adapter "TDX collateral fetch queue timed out after {}ms".

(** What one call does next, with its new phase, or none when it has left, and what
    [acquire_fetch_slot] returned if it did. A permit and the counter's guard are
    given back when they are dropped, also when the call is cancelled. *)
Inductive call_step (policy : DcapTdxCollateralFetchPolicy)
    : nat * nat → FetchCall → nat * nat → option FetchCall → option (ProviderResult unit) → Prop :=
| try_acquire permits queued :
    call_step policy (S permits, queued) Arrived (permits, queued) (Some Fetching) (Some (Ok tt))
| try_acquire_none queued :
    call_step policy (0%nat, queued) Arrived (0%nat, queued) (Some NoPermits) None
| enter permits queued :
    call_step policy (permits, queued) NoPermits (permits, S queued) (Some (Counted queued)) None
| queue_full permits queued seen :
    (fp_max_queued_fetches policy ≤ seen)%nat →
    call_step policy (permits, queued) (Counted seen) (permits, pred queued) None (Some (Err full_error))
| start_waiting permits queued seen :
    (seen < fp_max_queued_fetches policy)%nat →
    call_step policy (permits, queued) (Counted seen) (permits, queued) (Some Waiting) None
| acquire permits queued :
    call_step policy (S permits, queued) Waiting (permits, queued) (Some Granted) None
| wait_timeout permits queued timeout :
    fp_queue_timeout policy = Some timeout → timeout ≠ 0%Z →
    call_step policy (permits, queued) Waiting (permits, pred queued) None (Some (Err queue_timeout_error))
| leave permits queued :
    call_step policy (permits, queued) Granted (permits, pred queued) (Some Fetching) (Some (Ok tt))
| release permits queued :
    call_step policy (permits, queued) Fetching (S permits, queued) None None
| cancel_waiting permits queued :
    call_step policy (permits, queued) Waiting (permits, pred queued) None None.

Definition of_option (phase : option FetchCall) : list FetchCall := match phase with Some phase => [phase] | None => [] end.

Inductive queue_step (policy : DcapTdxCollateralFetchPolicy) : FetchQueue → FetchQueue → Prop :=
| queue_arrive permits queued calls :
    queue_step policy {| fq_permits := permits; fq_queued_fetches := queued; fq_calls := calls |}
                      {| fq_permits := permits; fq_queued_fetches := queued; fq_calls := Arrived :: calls |}
| queue_call permits queued permits' queued' before call call' after answer :
    call_step policy (permits, queued) call (permits', queued') call' answer →
    queue_step policy {| fq_permits := permits; fq_queued_fetches := queued; fq_calls := before ++ call :: after |}
                      {| fq_permits := permits'; fq_queued_fetches := queued'; fq_calls := before ++ of_option call' ++ after |}.
(** A step of a call that is already there, whatever it is. *)
Definition moved (policy : DcapTdxCollateralFetchPolicy) (q q' : FetchQueue) : Prop :=
  queue_step policy q q' ∧ (length (fq_calls q') ≤ length (fq_calls q))%nat.
(** A call that waits gives up when it leaves without a permit: its wait timed out or it
    was cancelled. *)
Definition gives_up (call : FetchCall) (call' : option FetchCall) : Prop := call = Waiting ∧ call' = None.
(** A step the queue owes a call, with no call giving up: it is let in, turned away at
    the door, given a permit, or done. *)
Inductive served (policy : DcapTdxCollateralFetchPolicy) : FetchQueue → FetchQueue → Prop :=
| serve permits queued permits' queued' before call call' after answer :
    call_step policy (permits, queued) call (permits', queued') call' answer → ¬ gives_up call call' →
    served policy {| fq_permits := permits; fq_queued_fetches := queued; fq_calls := before ++ call :: after |}
                  {| fq_permits := permits'; fq_queued_fetches := queued'; fq_calls := before ++ of_option call' ++ after |}.

(** ** The invariant *)

#[local] Arguments Nat.ltb : simpl never.

Definition holds_permit (call : FetchCall) : nat := match call with Granted | Fetching => 1 | _ => 0 end.
Definition is_counted (call : FetchCall) : nat := match call with Counted _ | Waiting | Granted => 1 | _ => 0 end.
(** Waiting, or going to. *)
Definition queue_admitted (policy : DcapTdxCollateralFetchPolicy) (call : FetchCall) : nat :=
  match call with
  | Counted seen => if (seen <? fp_max_queued_fetches policy)%nat then 1 else 0
  | Waiting | Granted => 1
  | _ => 0
  end.
Definition is_waiting (call : FetchCall) : nat := match call with Waiting => 1 | _ => 0 end.
(** How many steps a call can still take. *)
Definition rank (call : FetchCall) : nat :=
  match call with Arrived => 6 | NoPermits => 5 | Counted _ => 4 | Waiting => 3 | Granted => 2 | Fetching => 1 end.
Definition total (f : FetchCall → nat) (calls : list FetchCall) : nat := sum_list_with f calls.

Lemma total_call f before call after : total f (before ++ call :: after) = (total f before + f call + total f after)%nat.
Proof. unfold total. rewrite sum_list_with_app. cbn. lia. Qed.
Lemma total_left f before call after :
  total f (before ++ of_option call ++ after) = (total f before + total f (of_option call) + total f after)%nat.
Proof. unfold total. rewrite !sum_list_with_app. lia. Qed.
Lemma total_le f g calls : (∀ call, f call ≤ g call)%nat → (total f calls ≤ total g calls)%nat.
Proof. intros H. unfold total. induction calls as [|c calls IH]; cbn; [lia|]. specialize (H c). lia. Qed.

Record queue_ok (policy : DcapTdxCollateralFetchPolicy) (q : FetchQueue) : Prop := {
  qo_permits : (fq_permits q + total holds_permit (fq_calls q) = fp_max_concurrent_fetches policy)%nat;
  qo_queued : fq_queued_fetches q = total is_counted (fq_calls q);
  qo_admitted : (total (queue_admitted policy) (fq_calls q) ≤ fp_max_queued_fetches policy)%nat;
}.

Lemma new_queue_ok policy : queue_ok policy (new_queue policy).
Proof. constructor; cbn; lia. Qed.
Lemma admitted_counted policy call : (queue_admitted policy call ≤ is_counted call)%nat.
Proof. destruct call; cbn; try lia. case_match; lia. Qed.

Lemma queue_step_ok policy q q' : queue_ok policy q → queue_step policy q q' → queue_ok policy q'.
Proof.
  intros [Hp Hq Ha] Hs. destruct Hs as [|permits queued permits' queued' before call call' after answer Hc]; cbn in *.
  - constructor; cbn; unfold total in *; cbn; lia.
  - pose proof (total_le _ _ (before ++ call :: after) (admitted_counted policy)) as Hle.
    rewrite !total_call in *.
    inversion Hc; subst; constructor; cbn [fq_permits fq_queued_fetches fq_calls]; rewrite total_left;
      cbn [of_option total sum_list_with holds_permit is_counted queue_admitted] in *; unfold total in *; cbn in *;
      repeat match goal with
        | |- context [(?a <? ?b)%nat] => destruct (Nat.ltb_spec a b)
        | H : context [(?a <? ?b)%nat] |- _ => destruct (Nat.ltb_spec a b) end; lia.
Qed.
Lemma reached_ok policy q : rtc (queue_step policy) (new_queue policy) q → queue_ok policy q.
Proof.
  intros H. generalize (new_queue_ok policy). induction H as [|x y z Hs _ IH]; [done|].
  intros Hx. by eapply IH, queue_step_ok.
Qed.

(** C34: In every interleaving of calls that arrive, take permits, wait, time out, are
    cancelled and finish, no more calls fetch at a time than the policy allows, no
    more wait than it allows, and no permit or place is lost: what is not held is
    free. *)
Theorem fetch_queue_bounded policy q :
  rtc (queue_step policy) (new_queue policy) q →
  (total holds_permit (fq_calls q) ≤ fp_max_concurrent_fetches policy)%nat
  ∧ (total is_waiting (fq_calls q) ≤ fp_max_queued_fetches policy)%nat
  ∧ (fq_permits q = fp_max_concurrent_fetches policy - total holds_permit (fq_calls q))%nat
  ∧ fq_queued_fetches q = total is_counted (fq_calls q).
Proof.
  intros [Hp Hq Ha]%reached_ok. split_and!; [lia| |lia|done].
  etrans; [apply (total_le _ (queue_admitted policy))|exact Ha]. intros []; cbn; lia.
Qed.

(** ** Every call is served *)

Lemma moved_ranks policy q q' : moved policy q q' → (total rank (fq_calls q') < total rank (fq_calls q))%nat.
Proof.
  intros [Hs Hl]. destruct Hs as [|permits queued permits' queued' before call call' after answer Hc]; cbn in *; [lia|].
  rewrite total_call, total_left. inversion Hc; subst; cbn; lia.
Qed.
Lemma moved_bound policy n q q' : nsteps (moved policy) n q q' → (n + total rank (fq_calls q') ≤ total rank (fq_calls q))%nat.
Proof. induction 1 as [|n x y z Hs _ IH]; [lia|]. apply moved_ranks in Hs. lia. Qed.
Lemma moved_reached policy n q q' :
  rtc (queue_step policy) (new_queue policy) q → nsteps (moved policy) n q q' → rtc (queue_step policy) (new_queue policy) q'.
Proof. intros Hr Hn. etrans; [exact Hr|]. clear Hr. induction Hn as [|n x y z [Hs _] _ IH]; [done|by eapply rtc_l]. Qed.
Lemma served_moved policy q q' : served policy q q' → moved policy q q'.
Proof.
  intros [permits queued permits' queued' before call call' after answer Hc _]. split; [by eapply queue_call|].
  cbn. rewrite !length_app. destruct call'; cbn; lia.
Qed.
Lemma rank_bound calls : (total rank calls ≤ 6 * length calls)%nat.
Proof. unfold total. induction calls as [|[] calls IH]; cbn in *; lia. Qed.
Lemma permit_held calls : (1 ≤ total holds_permit calls)%nat → ∃ call, call ∈ calls ∧ (call = Granted ∨ call = Fetching).
Proof.
  unfold total. induction calls as [|c calls IH]; cbn; intros H; [lia|].
  destruct c; try (exists Granted; split; [by left|by left]); try (exists Fetching; split; [by left|by right]);
    (destruct IH as (call & Hin & Hh); [cbn in H; lia|]; exists call; split; [by right|done]).
Qed.

(** A free permit serves any call; when there is none, some call holds one and can go
    on. Only this case needs that there are permits at all. *)
Lemma can_serve policy q : queue_ok policy q → (1 ≤ fp_max_concurrent_fetches policy)%nat → fq_calls q ≠ [] → ∃ q', served policy q q'.
Proof.
  intros [Hp _ _] Hm Hne. destruct q as [[|permits] queued calls]; cbn [fq_permits fq_calls] in Hne, Hp.
  - destruct (permit_held calls) as (call & (before & after & ->)%list_elem_of_split & [-> | ->]); [lia|..];
      eexists; eapply serve; [apply leave|by intros [? _]|apply release|by intros [? _]].
  - destruct calls as [|call after]; [done|].
    assert (∃ permits' queued' call' answer, call_step policy (S permits, queued) call (permits', queued') call' answer
              ∧ ¬ gives_up call call') as (permits' & queued' & call' & answer & Hc & Hg).
    { destruct call as [| |seen| | |]; [| |destruct (decide (fp_max_queued_fetches policy ≤ seen)%nat)|..];
        do 4 eexists;
        (split; [first [apply try_acquire|apply enter|by apply queue_full|apply start_waiting; lia|apply acquire|apply leave|apply release]
                |by intros [? ?]]). }
    eexists. by eapply (serve _ _ _ _ _ []).
Qed.
Lemma empty_is_new policy q : queue_ok policy q → fq_calls q = [] → q = new_queue policy.
Proof.
  intros [Hp Hq _] He. destruct q as [p n calls]. cbn in *. subst. unfold new_queue. f_equal. unfold total in *. cbn in *. lia.
Qed.

(** C30: The queue never deadlocks, and every call that does not give up waiting is served.
    From any reachable state, under any policy the setters make: however the calls that
    are there are scheduled, with their timeouts and cancellations or without, they take
    at most six steps each; at any point of such a run either the queue is as new, with
    every permit free and nothing counted, or one of its calls has a next step other
    than giving up; and whenever no call is left the queue is as new. *)
Theorem fetch_queue_drains policy q :
  rtc (queue_step policy) (new_queue policy) q → built_policy policy →
  (∀ n q', nsteps (moved policy) n q q' →
     (n ≤ 6 * length (fq_calls q))%nat ∧ (q' = new_queue policy ∨ ∃ q'', served policy q' q'' ∧ moved policy q' q''))
  ∧ (fq_calls q = [] → q = new_queue policy).
Proof.
  intros Hr (_ & Hm & _)%built_policy_ok. split; [|apply empty_is_new; by apply reached_ok].
  intros n q' Hn. split; [apply moved_bound in Hn; pose proof (rank_bound (fq_calls q)); lia|].
  assert (queue_ok policy q') as Hok by (eapply reached_ok, moved_reached; done).
  destruct (decide (fq_calls q' = [])) as [He|Hne]; [left; by apply empty_is_new|right].
  destruct (can_serve _ _ Hok Hm Hne) as [q'' Hs]. exists q''. split; [done|by apply served_moved].
Qed.

(** Without the setter's lower bound the queue would deadlock: with no permits a call that
    waits is never served, and can only give up. *)
Lemma no_permits_no_service policy queued :
  ¬ ∃ q, served policy {| fq_permits := 0; fq_queued_fetches := queued; fq_calls := [Waiting] |} q.
Proof.
  intros [q Hs]. remember {| fq_permits := 0; fq_queued_fetches := queued; fq_calls := [Waiting] |} as start eqn:Es.
  destruct Hs as [permits n permits' n' before call call' after answer Hc Hg].
  injection Es as -> -> Ec. destruct before as [|x [|y before]]; try discriminate. injection Ec as -> ->.
  inversion Hc; subst; by apply Hg.
Qed.

(** ** Concrete inputs *)

(** One fetch at a time and one waiting: of three calls the first fetches, the second
    waits and the third is counted as the second in the queue. *)
Definition narrow_policy : DcapTdxCollateralFetchPolicy :=
  with_max_queued_fetches (with_max_concurrent_fetches default_fetch_policy 1) 1.
Definition crowded : FetchQueue := {| fq_permits := 0; fq_queued_fetches := 2; fq_calls := [Counted 1; Waiting; Fetching] |}.
Lemma crowded_reached : rtc (queue_step narrow_policy) (new_queue narrow_policy) crowded.
Proof.
  eapply rtc_l; [apply queue_arrive|]. eapply rtc_l; [eapply (queue_call _ _ _ _ _ [] _ _ []), try_acquire|].
  eapply rtc_l; [apply queue_arrive|]. eapply rtc_l; [eapply (queue_call _ _ _ _ _ [] _ _ [Fetching]), try_acquire_none|].
  eapply rtc_l; [eapply (queue_call _ _ _ _ _ [] _ _ [Fetching]), enter|].
  eapply rtc_l; [eapply (queue_call _ _ _ _ _ [] _ _ [Fetching]), start_waiting; cbn; lia|].
  eapply rtc_l; [apply queue_arrive|]. eapply rtc_l; [eapply (queue_call _ _ _ _ _ [] _ _ [Waiting; Fetching]), try_acquire_none|].
  eapply rtc_l; [eapply (queue_call _ _ _ _ _ [] _ _ [Waiting; Fetching]), enter|]. apply rtc_refl.
Qed.
Lemma fetch_queue_bounded_witness :
  (total is_waiting (fq_calls crowded) ≤ fp_max_queued_fetches narrow_policy)%nat ∧ total is_waiting (fq_calls crowded) = 1%nat.
Proof. split; [apply (fetch_queue_bounded _ _ crowded_reached)|reflexivity]. Defined.
(** The call that fetches ends, and the one that waits is given its permit: a run of
    three steps, after which somebody can still be served. *)
Definition relieved : FetchQueue := {| fq_permits := 0; fq_queued_fetches := 1; fq_calls := [Granted] |}.
Lemma crowded_relieved : nsteps (moved narrow_policy) 3 crowded relieved.
Proof.
  eapply nsteps_l; [split; [eapply (queue_call _ _ _ _ _ [] _ _ [Waiting; Fetching]), queue_full; cbn; lia|cbn; lia]|].
  eapply nsteps_l; [split; [eapply (queue_call _ _ _ _ _ [Waiting] _ _ []), release|cbn; lia]|].
  eapply nsteps_l; [split; [eapply (queue_call _ _ _ _ _ [] _ _ []), acquire|cbn; lia]|]. apply nsteps_O.
Qed.
Lemma fetch_queue_drains_witness : relieved = new_queue narrow_policy ∨ ∃ q, served narrow_policy relieved q ∧ moved narrow_policy relieved q.
Proof.
  apply (proj1 (fetch_queue_drains _ _ crowded_reached (built_max_queued _ _ (built_max_concurrent _ _ built_default))) 3), crowded_relieved.
Defined.
