(* ===== verification/VcekCache.v ===== *)
(** * Fetching AMD's certificates

    providers/sev_snp.rs: the resolver that asks AMD's key service for the VCEK
    certificate of a chip at a firmware level, and remembers certificates and, for a
    while, failures. Calls run concurrently: each looks into the cache under the
    lock, fetches without it, and stores under the lock again, so any number of other
    calls may finish in between. *)

From Stdlib Require Import Ascii String ZArith Lia.
From stdpp Require Import base strings list numbers gmap countable relations.
From S2P Require Import Prelude RustStr Collections ProviderRequest ProxyRedaction.

Open Scope string_scope.

(** ** The service *)

(** The product, the chip's identifier and the four levels of its firmware. *)
Abbreviation VcekKey := (string * string * (Z * Z * Z * Z))%type.

Definition MAX_VCEK_BYTES : Z := 1024 * 1024.
Definition resolver_base_url (base_url : string) : string := trim_end_set (λ c, c =?= "/"%char) base_url.
Definition vcek_url (base_url product hwid : string) : string :=
  base_url +:+ "/vcek/v1/" +:+ product +:+ "/" +:+ lower_hex hwid.
Definition vcek_query (tcb : Z * Z * Z * Z) : list (string * string) :=
  let '(bl, tee, snp, ucode) := tcb in
  [("blSPL", dec_string bl); ("teeSPL", dec_string tee); ("snpSPL", dec_string snp); ("ucodeSPL", dec_string ucode)].

(** What the service answers: nothing usable, or a status, a stated length and the
    body in chunks, of which one may fail. *)
Record KdsResponse := { kr_status : Z; kr_content_length : option Z; kr_chunks : list (option string) }.
Definition kds_success (status : Z) : bool := (200 <=? status)%Z && (status <=? 299)%Z.
Fixpoint read_vcek (bytes : string) (chunks : list (option string)) : ProviderResult string :=
  match chunks with
  | [] => Ok bytes
  | None :: _ => Err (Http "{e}")
  | Some chunk :: chunks =>
      bail (Http "AMD KDS VCEK response exceeds size limit")
        when (MAX_VCEK_BYTES <? Z.of_nat (String.length bytes) + Z.of_nat (String.length chunk))%Z;
      read_vcek (bytes +:+ chunk) chunks
  end.
Definition fetch_vcek (response : option KdsResponse) : ProviderResult string :=
  response ← ok_or response (Http "{e}");
  bail (Http "AMD KDS returned {}") when negb (kds_success (kr_status response));
  bail (Http "AMD KDS VCEK response exceeds size limit")
    when match kr_content_length response with Some length => (MAX_VCEK_BYTES <? length)%Z | None => false end;
  read_vcek "" (kr_chunks response).

(** ** The cache *)

Definition VCEK_FAILURE_TTL : Z := 300000000000.
Definition VCEK_CACHE_MAX_ENTRIES : nat := 256.
Record VcekCacheEntry := { ve_result : result string string; ve_stored_at : Z }.
Abbreviation VcekCache := (gmap VcekKey VcekCacheEntry).

(** A [HashMap] is iterated in some order. *)
Class HashOrder := {
  hash_iter : VcekCache → list (VcekKey * VcekCacheEntry);
  hash_iter_permutes cache : hash_iter cache ≡ₚ map_to_list cache;
}.

(** The first section: an answer from the cache, at a reading of the clock. *)
Definition cached_vcek (now : Z) (key : VcekKey) (cache : VcekCache) : option (ProviderResult string) :=
  entry ← cache !! key;
  match ve_result entry with
  | Ok cert => Some (Ok cert)
  | Err message =>
      if (Z.max 0 (now - ve_stored_at entry) <? VCEK_FAILURE_TTL)%Z
      then Some (Err (Http ("AMD KDS VCEK lookup failed recently: " +:+ message))) else None
  end.

Section Cache.
Context {order : HashOrder}.

(** [min_by_key]. *)
Definition stored_first (e b : VcekKey * VcekCacheEntry) : bool := (ve_stored_at e.2 <? ve_stored_at b.2)%Z.
Definition make_vcek_room (key : VcekKey) (cache : VcekCache) : VcekCache :=
  if negb (is_some (cache !! key)) && (VCEK_CACHE_MAX_ENTRIES <=? size cache)%nat
  then match min_by stored_first (hash_iter cache) with
       | Some (oldest, _) => delete oldest cache
       | None => cache
       end
  else cache.

(** The second section: what a fetch gave is stored, but a failure never replaces a
    certificate that came in the meantime. *)
Definition store_vcek (now : Z) (key : VcekKey) (fetched : ProviderResult string) (cache : VcekCache)
    : ProviderResult string * VcekCache :=
  let cache := make_vcek_room key cache in
  match fetched with
  | Ok cert => (Ok cert, <[key := {| ve_result := Ok cert; ve_stored_at := now |}]> cache)
  | Err error =>
      match cache !! key with
      | Some {| ve_result := Ok cert |} => (Ok cert, cache)
      | _ => (Err error, <[key := {| ve_result := Err (provider_error_display error); ve_stored_at := now |}]> cache)
      end
  end.

(** [resolve_vcek], when no other call runs. *)
Definition resolve_vcek (now : Z) (key : VcekKey) (response : option KdsResponse) (cache : VcekCache)
    : ProviderResult string * VcekCache :=
  match cached_vcek now key cache with
  | Some answer => (answer, cache)
  | None => store_vcek now key (fetch_vcek response) cache
  end.

(** ** Calls over time

    The calls that are fetching, the certificates the service has given, and what
    calls were answered. *)
Record VcekWorld := {
  vw_cache : VcekCache;
  vw_now : Z;
  vw_fetching : list VcekKey;
  vw_given : list (VcekKey * string);
  vw_answers : list (VcekKey * ProviderResult string);
}.
Definition fresh_world (now : Z) : VcekWorld :=
  {| vw_cache := ∅; vw_now := now; vw_fetching := []; vw_given := []; vw_answers := [] |}.
Definition given (key : VcekKey) (fetched : ProviderResult string) : list (VcekKey * string) :=
  match fetched with Ok cert => [(key, cert)] | Err _ => [] end.

Inductive vcek_step : VcekWorld → VcekWorld → Prop :=
| vcek_tick now w : (vw_now w ≤ now)%Z →
    vcek_step w {| vw_cache := vw_cache w; vw_now := now; vw_fetching := vw_fetching w; vw_given := vw_given w;
                   vw_answers := vw_answers w |}
| vcek_hit key answer w : cached_vcek (vw_now w) key (vw_cache w) = Some answer →
    vcek_step w {| vw_cache := vw_cache w; vw_now := vw_now w; vw_fetching := vw_fetching w; vw_given := vw_given w;
                   vw_answers := (key, answer) :: vw_answers w |}
| vcek_miss key w : cached_vcek (vw_now w) key (vw_cache w) = None →
    vcek_step w {| vw_cache := vw_cache w; vw_now := vw_now w; vw_fetching := key :: vw_fetching w; vw_given := vw_given w;
                   vw_answers := vw_answers w |}
| vcek_fetched key before after response answer cache w :
    vw_fetching w = (before ++ key :: after)%list →
    store_vcek (vw_now w) key (fetch_vcek response) (vw_cache w) = (answer, cache) →
    vcek_step w {| vw_cache := cache; vw_now := vw_now w; vw_fetching := (before ++ after)%list;
                   vw_given := (given key (fetch_vcek response) ++ vw_given w)%list; vw_answers := (key, answer) :: vw_answers w |}.

(** ** The cache is safe *)

(** Making room: nothing changes, or a full cache without the key loses an entry
    stored no later than any other. *)
Lemma make_vcek_room_spec key cache :
  make_vcek_room key cache = cache ∧ (is_Some (cache !! key) ∨ (size cache < 256)%nat)
  ∨ ∃ k e, cache !! k = Some e ∧ cache !! key = None ∧ make_vcek_room key cache = delete k cache
      ∧ (256 ≤ size cache)%nat ∧ ∀ k' e', cache !! k' = Some e' → (ve_stored_at e ≤ ve_stored_at e')%Z.
Proof.
  unfold make_vcek_room, VCEK_CACHE_MAX_ENTRIES.
  destruct (cache !! key) as [x|] eqn:Ek; [left; cbn; eauto|]. cbn [is_some negb andb].
  destruct (Nat.leb_spec 256 (size cache)) as [Hs|Hs]; [|by left; auto].
  assert (∀ k e, (k, e) ∈ hash_iter cache ↔ cache !! k = Some e) as Hl.
  { intros k e. rewrite hash_iter_permutes. apply elem_of_map_to_list. }
  right. destruct (min_by_exists stored_first (hash_iter cache)) as [[k e] Hf].
  { intros E. pose proof (hash_iter_permutes cache) as Hp. rewrite E in Hp. apply Permutation_length in Hp.
    rewrite length_map_to_list in Hp. cbn in Hp. lia. }
  rewrite Hf. apply (min_by_Some stored_first (order := number_order _)) in Hf as [Hin Hle].
  exists k, e. split_and!; try done; [by apply Hl|]. intros k' e' Hk'%Hl. apply Hle in Hk'. by apply Z.ltb_ge in Hk'.
Qed.
Lemma vcek_room_lookup key cache k e : make_vcek_room key cache !! k = Some e → cache !! k = Some e.
Proof.
  destruct (make_vcek_room_spec key cache) as [[-> _]|(k' & e' & _ & _ & -> & _)]; [done|].
  by intros [_ ?]%lookup_delete_Some.
Qed.
Lemma vcek_room_own key cache : make_vcek_room key cache !! key = cache !! key.
Proof.
  destruct (make_vcek_room_spec key cache) as [[-> _]|(k & e & Hk & Hn & -> & _)]; [done|].
  rewrite lookup_delete_ne; congruence.
Qed.
Lemma vcek_room_size key entry cache :
  (size cache ≤ 256)%nat → (size (<[key := entry]> (make_vcek_room key cache)) ≤ 256)%nat ∧ (size (make_vcek_room key cache) ≤ 256)%nat.
Proof.
  intros Hs. destruct (make_vcek_room_spec key cache) as [[-> [[x Hx]|Hlt]]|(k & e & Hk & Hn & -> & Hf & _)].
  - rewrite map_size_insert, Hx. done.
  - rewrite map_size_insert. destruct (cache !! key); unfold id; lia.
  - rewrite map_size_insert, map_size_delete, Hk. destruct (delete k cache !! key); unfold id; lia.
Qed.

(** What storing does. *)
Lemma store_vcek_spec now key fetched cache answer cache' :
  store_vcek now key fetched cache = (answer, cache') →
  cache' = make_vcek_room key cache ∧ (∃ cert at_, cache !! key = Some {| ve_result := Ok cert; ve_stored_at := at_ |} ∧ answer = Ok cert)
  ∨ ∃ kept, cache' = <[key := {| ve_result := kept; ve_stored_at := now |}]> (make_vcek_room key cache) ∧ answer = fetched
      ∧ (∀ cert, kept = Ok cert ↔ fetched = Ok cert)
      ∧ (∀ e cert, cache !! key = Some e → ve_result e = Ok cert → is_ok fetched = true).
Proof.
  unfold store_vcek. rewrite vcek_room_own. destruct fetched as [cert|error].
  - intros [= <- <-]. right. exists (Ok cert). naive_solver.
  - destruct (cache !! key) as [[[cert|m] at_]|] eqn:Ek; intros [= <- <-].
    + left. split; [done|]. by exists cert, at_.
    + right. eexists. split_and!; try done. intros e c [= <-] [=].
    + right. eexists. split_and!; done.
Qed.

Record world_ok (w : VcekWorld) : Prop := {
  wo_size : (size (vw_cache w) ≤ 256)%nat;
  wo_certs k e cert : vw_cache w !! k = Some e → ve_result e = Ok cert → (k, cert) ∈ vw_given w;
  wo_times k e : vw_cache w !! k = Some e → (ve_stored_at e ≤ vw_now w)%Z;
  wo_answers k cert : (k, Ok cert) ∈ vw_answers w → (k, cert) ∈ vw_given w;
}.
Lemma cached_vcek_Ok now key cache cert :
  cached_vcek now key cache = Some (Ok cert) → ∃ e, cache !! key = Some e ∧ ve_result e = Ok cert.
Proof. unfold cached_vcek. destruct (cache !! key) as [e|]; cbn; [|done]. destruct (ve_result e) eqn:E; [naive_solver|]. by case_match. Qed.

Lemma vcek_step_ok w w' : world_ok w → vcek_step w w' → world_ok w'.
Proof.
  intros [Hs Hc Ht Ha]. destruct 1 as [now w Hn|key answer w Hh|key w Hm|key before after response answer cache w Hw Hst]; constructor; cbn; auto.
  - intros k e He. apply Ht in He. lia.
  - intros k cert [[= -> <-]|Hin]%elem_of_cons; [|by apply Ha]. apply cached_vcek_Ok in Hh as (e & He & Hr). by eapply Hc.
  - apply store_vcek_spec in Hst as [[-> _]|(kept & -> & _)]; by apply (vcek_room_size key {| ve_result := Ok ""; ve_stored_at := 0 |}) || apply vcek_room_size.
  - intros k e cert He Hr. apply elem_of_app. apply store_vcek_spec in Hst as [[-> _]|(kept & -> & _ & Hk & _)].
    + right. eapply Hc; [|done]. by eapply vcek_room_lookup.
    + apply lookup_insert_Some in He as [[<- <-]|[_ He]]; [|right; eapply Hc; [|done]; by eapply vcek_room_lookup].
      left. cbn in Hr. apply Hk in Hr as ->. by left.
  - intros k e He. apply store_vcek_spec in Hst as [[-> _]|(kept & -> & _)]; [by eapply Ht, vcek_room_lookup|].
    apply lookup_insert_Some in He as [[<- <-]|[_ He]]; [done|]. by eapply Ht, vcek_room_lookup.
  - intros k cert. rewrite elem_of_cons, elem_of_app. intros [[= -> <-]|Hin]; [|right; by apply Ha].
    apply store_vcek_spec in Hst as [[_ (c & at_ & He & [= ->])]|(kept & _ & <- & _)]; [right; by eapply Hc|left; by left].
Qed.
Lemma reached_world_ok now w : rtc vcek_step (fresh_world now) w → world_ok w.
Proof.
  assert (world_ok (fresh_world now)) as H0.
  { constructor; cbn; [rewrite map_size_empty; lia|done..|]. intros k cert []%elem_of_nil. }
  intros H. revert H0. induction H as [|x y z Hs _ IH]; [done|]. intros Hx. by eapply IH, vcek_step_ok.
Qed.

(** However calls interleave, every certificate a call is given for a chip at a
    firmware level is one the service gave for that very chip and level; the cache
    holds at most 256 entries; and a call is refused without asking the service only
    within five minutes of a failure for the same key. *)
Theorem vcek_answers_sound now w :
  rtc vcek_step (fresh_world now) w →
  (size (vw_cache w) ≤ 256)%nat
  ∧ (∀ key cert, (key, Ok cert) ∈ vw_answers w → (key, cert) ∈ vw_given w)
  ∧ (∀ key cert, cached_vcek (vw_now w) key (vw_cache w) = Some (Ok cert) → (key, cert) ∈ vw_given w)
  ∧ (∀ key error, cached_vcek (vw_now w) key (vw_cache w) = Some (Err error) →
       ∃ e message, vw_cache w !! key = Some e ∧ ve_result e = Err message
         ∧ (ve_stored_at e ≤ vw_now w < ve_stored_at e + VCEK_FAILURE_TTL)%Z).
Proof.
  intros Hw%reached_world_ok. split_and!; [apply Hw|apply Hw| |].
  - intros key cert (e & He & Hr)%cached_vcek_Ok. by eapply wo_certs.
  - intros key error. unfold cached_vcek. destruct (vw_cache w !! key) as [e|] eqn:Ee; cbn; [|done].
    destruct (ve_result e) as [|m] eqn:Er; [done|]. case_match eqn:El; [|done]. intros _. bools.
    pose proof (wo_times _ Hw _ _ Ee). exists e, m. split_and!; try done; lia.
Qed.

(** A certificate in the cache is never lost to a failure: a call for its key that
    started earlier and whose fetch failed is given the certificate, and any other
    call leaves the certificate in place unless the cache was full and nothing in it
    was older. *)
Theorem certificate_survives_failures now key cert stored_at other fetched cache answer cache' :
  cache !! key = Some {| ve_result := Ok cert; ve_stored_at := stored_at |} →
  store_vcek now other fetched cache = (answer, cache') →
  (other = key ∧ is_ok fetched = false → answer = Ok cert ∧ cache' = cache)
  ∧ (other = key → ∀ c, fetched = Ok c → cached_vcek now key cache' = Some (Ok c))
  ∧ (other ≠ key → cache' !! key = cache !! key
       ∨ (256 ≤ size cache)%nat ∧ ∀ k e, cache !! k = Some e → (stored_at ≤ ve_stored_at e)%Z).
Proof.
  intros Hk Hs. split_and!.
  - intros [-> Hf]. unfold store_vcek in Hs. rewrite vcek_room_own, Hk in Hs. destruct fetched; [done|].
    injection Hs as <- <-. split; [done|]. destruct (make_vcek_room_spec key cache) as [[-> _]|(k & e' & _ & Hn & _)]; [done|congruence].
  - intros -> c ->. unfold store_vcek in Hs. injection Hs as <- <-. unfold cached_vcek. by rewrite lookup_insert_eq.
  - intros Hne. assert (cache' !! key = make_vcek_room other cache !! key) as ->.
    { apply store_vcek_spec in Hs as [[-> _]|(kept & -> & _)]; [done|]. by rewrite lookup_insert_ne. }
    destruct (make_vcek_room_spec other cache) as [[-> _]|(k & e & He & Hn & -> & Hsz & Hle)]; [by left|].
    destruct (decide (k = key)) as [->|]; [right|left; by rewrite lookup_delete_ne].
    split; [done|]. rewrite Hk in He. injection He as <-. exact Hle.
Qed.
End Cache.

(** A certificate is read whole, and never exceeds its bound. *)
Lemma read_vcek_bounded bytes chunks cert :
  (Z.of_nat (String.length bytes) ≤ MAX_VCEK_BYTES)%Z → read_vcek bytes chunks = Ok cert →
  (Z.of_nat (String.length cert) ≤ MAX_VCEK_BYTES)%Z ∧ ∃ parts, chunks = Some <$> parts ∧ cert = foldl String.append bytes parts.
Proof.
  revert bytes. induction chunks as [|[chunk|] chunks IH]; intros bytes Hb H; cbn in H; [..|done].
  - injection H as <-. split; [done|]. by exists [].
  - inv_ok. bools. apply IH in H as (Hc & parts & -> & ->); [|rewrite append_length; lia].
    split; [done|]. by exists (chunk :: parts).
Qed.

(** ** Concrete inputs *)

#[local] Instance sample_order : HashOrder := {| hash_iter := map_to_list; hash_iter_permutes cache := reflexivity _ |}.
Definition genoa : VcekKey := ("Genoa", "chip", (1, 2, 3, 4)%Z).
Definition kds_answer : option KdsResponse :=
  Some {| kr_status := 200; kr_content_length := Some 4%Z; kr_chunks := [Some "ce"; Some "rt"] |}.
(** Two calls miss; one is given the certificate, the other's fetch fails. *)
Definition raced (w : VcekWorld) : Prop :=
  vw_answers w = [(genoa, Ok "cert"); (genoa, Ok "cert")] ∧ vw_given w = [(genoa, "cert")].
Lemma raced_reached : ∃ w, rtc vcek_step (fresh_world 0) w ∧ raced w.
Proof.
  eexists. split.
  - eapply rtc_l; [apply (vcek_miss genoa); reflexivity|]. eapply rtc_l; [apply (vcek_miss genoa); reflexivity|].
    eapply rtc_l; [apply (vcek_fetched genoa [] [genoa] kds_answer); reflexivity|].
    eapply rtc_l; [apply (vcek_fetched genoa [] [] None); reflexivity|]. apply rtc_refl.
  - by split.
Qed.
Lemma vcek_answers_sound_witness : ∃ w, raced w ∧ (∀ key cert, (key, Ok cert) ∈ vw_answers w → (key, cert) ∈ vw_given w).
Proof.
  destruct raced_reached as (w & Hw & Hr). exists w. split; [exact Hr|]. apply (vcek_answers_sound 0 w Hw).
Defined.
Lemma certificate_survives_failures_witness :
  ∃ answer cache', store_vcek 7 genoa (Err (Http "down")) {[ genoa := {| ve_result := Ok "cert"; ve_stored_at := 5 |} ]} = (answer, cache')
    ∧ answer = Ok "cert".
Proof.
  destruct (store_vcek 7 genoa (Err (Http "down")) {[ genoa := {| ve_result := Ok "cert"; ve_stored_at := 5 |} ]}) as [answer cache'] eqn:E.
  exists answer, cache'. split; [reflexivity|].
  destruct (certificate_survives_failures 7 genoa "cert" 5 _ _ _ _ _ (lookup_singleton_eq _ _) E) as [H _]. by apply H.
Defined.
