(* ===== verification/ChutesLive.v ===== *)
(** * The live Chutes adapter

    providers/chutes_live.rs: the adapter discovers an instance and its one-time
    invocation nonces, captures evidence for it, and encrypts every prompt to the
    instance's ML-KEM key from the evidence the prompt was verified by. ML-KEM, HKDF,
    ChaCha20-Poly1305, gzip, JSON decoding and URL parsing are parameters; the network
    is a script of what the server answers. *)

From Stdlib Require Import Ascii String ZArith Lia.
From stdpp Require Import base gmap strings list numbers relations.
From S2P Require Import Prelude RustStr Errors Collections Canonical JsonInjective Bindings EvidenceDocuments Registry ProviderRequest.
From S2P Require Import Compatibility Redpill Effects ClientVerify HttpTransport HttpProviders.

Open Scope string_scope.

(** ** Data *)

Definition ML_KEM_768_PUBLIC_KEY_BYTES : nat := 1184.
Definition ML_KEM_768_CIPHERTEXT_BYTES : nat := 1088.
Definition CHACHA_NONCE_BYTES : nat := 12.
Definition CHACHA_TAG_BYTES : nat := 16.
Definition MAX_DECRYPTED_RESPONSE_BYTES : Z := 64 * 1024 * 1024.
Definition E2EE_REQUEST_INFO : string := "e2e-req-v1".
Definition E2EE_RESPONSE_INFO : string := "e2e-resp-v1".

Record AttestedChutesInstance := {
  ai_chute_id : string;
  ai_instance_id : string;
  ai_e2e_public_key_base64 : string;
  ai_invocation_nonces : list string;
}.
Record ChutesModel := { cm_id : string; cm_chute_id : option string }.
Record ChutesDiscoveredInstance := { cd_instance_id : string; cd_e2e_pubkey : string; cd_nonces : list string }.
Record ChutesInstanceEvidence := {
  ce_quote : string; ce_gpu_evidence : list Value; ce_certificate : string; ce_instance_id : option string;
}.

(** A request on the wire. *)
Record ChutesCall := {
  cc_method : string; cc_url : string; cc_query : list (string * string); cc_headers : list (string * string);
  cc_body : option string; cc_bearer : string;
}.
(** The instances captured, what the server will answer to requests it receives, none
    for an answer that is lost, and what was sent. *)
Record ChutesAdapter := {
  ca_instances : EvidenceStateStore AttestedChutesInstance;
  ca_script : list (option HttpReply);
  ca_sent : list ChutesCall;
}.
Definition new_chutes_adapter (script : list (option HttpReply)) : ChutesAdapter :=
  {| ca_instances := store_new; ca_script := script; ca_sent := [] |}.

(** ** Cryptography *)

Class ChutesCrypto := {
  (** [EncapsulationKey::new_from_slice] succeeds. *)
  mlkem_public_key : string → bool;
  (** From fresh randomness: a ciphertext and the secret it carries; a key pair. *)
  encapsulate : string → string → string * string;
  generate_keypair : string → string * string;
  decapsulate : string → string → string;
  gzip : string → option string;
  (** What decompression yields, and whether it came to a proper end. *)
  gunzip_stream : string → string * bool;
}.
(** The randomness of one request. *)
Record ChutesRandom := { rn_encapsulation : string; rn_keypair : string; rn_nonce : string }.
Record EncryptedChutesRequest := { ec_blob : string; ec_response_decapsulation_key : string }.

Section Crypto.
Context {crypto : RequestCrypto} {chutes : ChutesCrypto}.

Definition derive_key (shared_secret ciphertext info : string) : ProviderResult string :=
  bail (Adapter "Chutes ML-KEM ciphertext is too short for HKDF salt") when (String.length ciphertext <? 16)%nat;
  ok_or (hkdf_expand (slice ciphertext 0 16) shared_secret info) (Adapter "Chutes HKDF expansion failed").

Definition encrypt_request (e2e_public_key_base64 : string) (body : Value) (random : ChutesRandom)
    : ProviderResult EncryptedChutesRequest :=
  public_key ← ok_or (standard_decode e2e_public_key_base64) (Adapter "Chutes E2EE public key is not base64: {error}");
  bail (Adapter "Chutes ML-KEM-768 public key is invalid") when negb (mlkem_public_key public_key);
  let '(request_ciphertext, shared_secret) := encapsulate public_key (rn_encapsulation random) in
  request_key ← derive_key shared_secret request_ciphertext E2EE_REQUEST_INFO;
  let '(response_decapsulation_key, response_public_key) := generate_keypair (rn_keypair random) in
  fields ← match body with VObject fields => Ok fields | _ => Err (Adapter "Chutes chat payload is not a JSON object") end;
  let payload := VObject (insert_member "e2e_response_pk" (VString (standard_encode response_public_key)) fields) in
  plaintext ← ok_or (value_to_vec payload) (JsonError "{error}");
  compressed ← ok_or (gzip plaintext) (Adapter "Chutes gzip failed: {error}");
  encrypted ← ok_or (aead_encrypt request_key (rn_nonce random) "" compressed) (Adapter "Chutes request encryption failed");
  Ok {| ec_blob := request_ciphertext +:+ rn_nonce random +:+ encrypted;
        ec_response_decapsulation_key := response_decapsulation_key |}.

Definition gunzip_bounded (bytes : string) : ProviderResult string :=
  let '(out, complete) := gunzip_stream bytes in
  if (MAX_DECRYPTED_RESPONSE_BYTES <? Z.of_nat (String.length out))%Z
  then Err (Adapter "Chutes decrypted response exceeds size limit")
  else if complete then Ok out else Err (Adapter "Chutes gunzip failed: {error}").

Definition decrypt_response (blob response_decapsulation_key : string) : ProviderResult string :=
  bail (Adapter "Chutes E2EE response is truncated")
    when (String.length blob <? ML_KEM_768_CIPHERTEXT_BYTES + CHACHA_NONCE_BYTES + CHACHA_TAG_BYTES)%nat;
  let ciphertext := slice blob 0 ML_KEM_768_CIPHERTEXT_BYTES in
  let rest := slice blob ML_KEM_768_CIPHERTEXT_BYTES (String.length blob) in
  let nonce := slice rest 0 CHACHA_NONCE_BYTES in
  let encrypted := slice rest CHACHA_NONCE_BYTES (String.length rest) in
  response_key ← derive_key (decapsulate response_decapsulation_key ciphertext) ciphertext E2EE_RESPONSE_INFO;
  compressed ← ok_or (aead_decrypt response_key nonce "" encrypted) (Adapter "Chutes response authentication failed");
  gunzip_bounded compressed.
End Crypto.

(** ** The adapter *)

Definition chutes_validate_nonce (nonce : string) : ProviderResult unit :=
  if (String.length nonce =? 64)%nat && all_bytes is_ascii_hexdigit nonce then Ok tt
  else Err (Adapter "{field} must be exactly 32 bytes of hex").
Definition chutes_require_https (url : string) : ProviderResult unit :=
  if https_or_test_loopback url then Ok tt else Err (Compatibility "route {route_id} {field} must use https").
Definition ensure_chutes_route (route : RouteDefinition) (provider : string) : ProviderResult unit :=
  bail (Adapter "route {} belongs to provider {}, not {}") when negb (rd_provider route =?= provider);
  bail (Compatibility "route {} is not a Chutes live-E2EE route") when negb (rd_evidence_family route =?= "chutes_live_e2ee");
  _ ← chutes_require_https (rd_api_base_url route);
  chutes_require_https (rd_evidence_endpoint route).

Section Adapter.
Context {prim : Primitives} {crypto : RequestCrypto} {chutes : ChutesCrypto}.
Context (provider_id api_key : string).
(** The parsed form of a URL: scheme, host and port. *)
Context (url_parse : string → option (string * option string * option Z)).
(** [serde_json]. *)
Context {Chat : Type} (chat_from_slice : string → option Chat).
Context (models_from_slice : string → option (list ChutesModel)).
Context (instances_from_slice : string → option (list ChutesDiscoveredInstance)).
Context (evidence_from_slice : string → option ChutesInstanceEvidence).
Context (capture_to_vec : ChutesLiveEvidence → option string) (gpu_to_vec : list Value → option string).
(** The remote NRAS client, when one is configured. *)
Context (nras_client : option (NvidiaGpuAttestationEvidence → ProviderResult NvidiaGpuAttestationEvidence)).

Definition control_api_base (evidence_endpoint : string) : ProviderResult string :=
  '(scheme, host, port) ← ok_or (url_parse evidence_endpoint) (Compatibility "invalid Chutes evidence endpoint: {error}");
  host ← ok_or host (Compatibility "Chutes evidence endpoint has no host");
  let base := scheme +:+ "://" +:+ host in
  Ok (match port with Some port => base +:+ ":" +:+ dec_string port | None => base end).

Definition send_chutes (call : ChutesCall) : eff ChutesAdapter ProviderError HttpResponse := λ s,
  match ca_script s with
  | [] => (Err (Http "{error}"), s)
  | reply :: script =>
      (match reply with
       | Some reply => Ok {| hp_status := rp_status reply; hp_peer_certificate := None; hp_chunks := rp_chunks reply |}
       | None => Err (Http "{error}")
       end, {| ca_instances := ca_instances s; ca_script := script; ca_sent := ca_sent s ++ [call] |})
  end.
Definition chutes_get (url : string) (query : list (string * string)) : ChutesCall := {|
  cc_method := "GET"; cc_url := url; cc_query := query; cc_headers := []; cc_body := None; cc_bearer := api_key |}.

Definition resolve_chute_id (route : RouteDefinition) : eff ChutesAdapter ProviderError string :=
  response ← send_chutes (chutes_get (trim_end_slashes (rd_api_base_url route) +:+ "/models") []);
  body ← pure_result (checked_response_bytes response);
  models ← pure_result (ok_or (models_from_slice body) (JsonError "{error}"));
  pure_result (ok_or (model ← List.find (λ m, cm_id m =?= rd_provider_model route) models;
                      chute_id ← cm_chute_id model;
                      if is_empty (trim chute_id) then None else Some chute_id)
                 (Adapter "Chutes model {} did not resolve to a chute_id")).

Definition usable_instance (instance : ChutesDiscoveredInstance) : bool :=
  negb (is_empty (trim (cd_instance_id instance))) && negb (bool_decide (cd_nonces instance = []))
  && match standard_decode (cd_e2e_pubkey instance) with
     | Some key => (String.length key =? ML_KEM_768_PUBLIC_KEY_BYTES)%nat
     | None => false
     end.
Definition discover_instance (route : RouteDefinition) (chute_id : string)
    : eff ChutesAdapter ProviderError ChutesDiscoveredInstance :=
  control_base ← pure_result (control_api_base (rd_evidence_endpoint route));
  response ← send_chutes (chutes_get (trim_end_slashes control_base +:+ "/e2e/instances/" +:+ chute_id) []);
  body ← pure_result (checked_response_bytes response);
  instances ← pure_result (ok_or (instances_from_slice body) (JsonError "{error}"));
  pure_result (ok_or (List.find usable_instance instances) (Unavailable "Chutes has no active ML-KEM-768 E2EE instance")).

Definition fetch_instance_evidence (route : RouteDefinition) (instance_id nonce : string)
    : eff ChutesAdapter ProviderError ChutesInstanceEvidence :=
  control_base ← pure_result (control_api_base (rd_evidence_endpoint route));
  response ← send_chutes (chutes_get (trim_end_slashes control_base +:+ "/instances/" +:+ instance_id +:+ "/evidence")
                            [("nonce", nonce)]);
  body ← pure_result (checked_response_bytes response);
  evidence ← pure_result (ok_or (evidence_from_slice body) (JsonError "{error}"));
  pure_result (bail (KeyRotation (rd_route_id route) "Chutes evidence returned a different instance_id")
                 when match ce_instance_id evidence with Some returned => negb (returned =?= instance_id) | None => false end;
               Ok evidence).

Definition chutes_gpu_attestation (gpu_evidence : list Value) (nonce : string)
    : ProviderResult (option NvidiaGpuAttestationEvidence) :=
  match gpu_evidence with
  | [] => Ok None
  | first :: _ =>
      payload ← ok_or (gpu_to_vec gpu_evidence) (JsonError "{error}");
      let evidence := {|
        ng_schema := NVIDIA_EVIDENCE_SCHEMA; ng_attestation_format := NRAS_GPU_EVIDENCE_V3; ng_nonce := nonce;
        ng_arch := string_member "arch" first; ng_payload_sha256 := Some (sha256_digest payload);
        ng_raw_payload_base64 := Some (standard_encode payload); ng_nras_token := None |} in
      match nras_client with
      | Some attest_gpu_evidence => attested ← attest_gpu_evidence evidence; Ok (Some attested)
      | None => Ok (Some evidence)
      end
  end.

Definition chutes_capture (route : RouteDefinition) (request : EvidenceRequest) (nonce chute_id : string)
    (instance : ChutesDiscoveredInstance) (evidence : ChutesInstanceEvidence) (gpu : option NvidiaGpuAttestationEvidence)
    : ChutesLiveEvidence := {|
  cl_schema := CHUTES_LIVE_SCHEMA; cl_provider := rd_provider route; cl_route_id := rd_route_id route;
  cl_evidence_family := rd_evidence_family route; cl_requested_model := er_requested_model request;
  cl_policy_digest := er_policy_digest request; cl_request_nonce := nonce;
  cl_evidence_endpoint := rd_evidence_endpoint route; cl_chute_id := chute_id; cl_instance_id := cd_instance_id instance;
  cl_e2e_public_key_base64 := cd_e2e_pubkey instance; cl_quote_base64 := ce_quote evidence;
  cl_certificate_der_base64 := ce_certificate evidence; cl_gpu_attestation := gpu |}.
Definition remember_instance (route_id digest : string) (instance : AttestedChutesInstance)
    : eff ChutesAdapter ProviderError unit := λ s,
  (Ok tt, {| ca_instances := store_insert route_id digest instance (ca_instances s);
             ca_script := ca_script s; ca_sent := ca_sent s |}).

Definition chutes_fetch_evidence (route : RouteDefinition) (request : EvidenceRequest) : eff ChutesAdapter ProviderError string :=
  _ ← pure_result (ensure_chutes_route route provider_id);
  nonce ← pure_result (ok_or (er_nonce request) (Compatibility "Chutes live evidence requires a per-request 32-byte nonce"));
  _ ← pure_result (chutes_validate_nonce nonce);
  chute_id ← resolve_chute_id route;
  instance ← discover_instance route chute_id;
  evidence ← fetch_instance_evidence route (cd_instance_id instance) nonce;
  gpu_nonce ← pure_result (ok_or (chutes_expected_report_data_prefix nonce (cd_e2e_pubkey instance))
                             (Adapter "Chutes evidence challenge or E2EE public key is malformed"));
  gpu ← pure_result (chutes_gpu_attestation (ce_gpu_evidence evidence) gpu_nonce);
  serialized ← pure_result (ok_or (capture_to_vec (chutes_capture route request nonce chute_id instance evidence gpu)) (JsonError "{error}"));
  _ ← remember_instance (rd_route_id route) (sha256_digest serialized)
        {| ai_chute_id := chute_id; ai_instance_id := cd_instance_id instance;
           ai_e2e_public_key_base64 := cd_e2e_pubkey instance; ai_invocation_nonces := cd_nonces instance |};
  mret serialized.

(** The instance of the verified evidence, and the nonce taken from it. *)
Definition with_nonces (nonces : list string) (instance : AttestedChutesInstance) : AttestedChutesInstance := {|
  ai_chute_id := ai_chute_id instance; ai_instance_id := ai_instance_id instance;
  ai_e2e_public_key_base64 := ai_e2e_public_key_base64 instance; ai_invocation_nonces := nonces |}.
Definition take_attested_invocation (route : RouteDefinition) (request : ProviderChatRequest)
    : eff ChutesAdapter ProviderError (AttestedChutesInstance * string) := λ s,
  match verified_digest_for_request request with
  | Err e => (Err e, s)
  | Ok digest =>
      match es_entries (ca_instances s) !! (rd_route_id route, digest) with
      | None => (Err (KeyRotation (rd_route_id route)
                        "no {state_name} captured for the verified evidence digest; refetch evidence"), s)
      | Some (sequence, instance) =>
          match ai_invocation_nonces instance with
          | [] => (Err (KeyRotation (rd_route_id route) "attested Chutes instance has no unused invocation nonces"), s)
          | nonce :: nonces =>
              let instance := with_nonces nonces instance in
              (Ok (instance, nonce),
               {| ca_instances := {| es_entries := <[(rd_route_id route, digest) := (sequence, instance)]> (es_entries (ca_instances s));
                                     es_next_sequence := es_next_sequence (ca_instances s) |};
                  ca_script := ca_script s; ca_sent := ca_sent s |})
          end
      end
  end.

Definition invoke_call (control_base : string) (instance : AttestedChutesInstance) (nonce blob : string) : ChutesCall := {|
  cc_method := "POST"; cc_url := trim_end_slashes control_base +:+ "/e2e/invoke"; cc_query := [];
  cc_headers := [("X-Chute-Id", ai_chute_id instance); ("X-Instance-Id", ai_instance_id instance); ("X-E2E-Nonce", nonce);
                 ("X-E2E-Stream", "false"); ("X-E2E-Path", "/v1/chat/completions"); ("Content-Type", "application/octet-stream")];
  cc_body := Some blob; cc_bearer := api_key |}.

Definition chutes_chat (random : ChutesRandom) (route : RouteDefinition) (request : ProviderChatRequest)
    : eff ChutesAdapter ProviderError Chat :=
  _ ← pure_result (ensure_chutes_route route provider_id);
  _ ← pure_result (bail (Compatibility "Chutes live chat requires adapter-managed E2EE")
                     when negb (pq_confidentiality request =?= AdapterManagedEncrypted); Ok tt);
  '(instance, invocation_nonce) ← take_attested_invocation route request;
  encrypted ← pure_result (encrypt_request (ai_e2e_public_key_base64 instance) (pq_body request) random);
  control_base ← pure_result (control_api_base (rd_evidence_endpoint route));
  response ← send_chutes (invoke_call control_base instance invocation_nonce (ec_blob encrypted));
  body ← pure_result (checked_response_bytes response);
  plaintext ← pure_result (decrypt_response body (ec_response_decapsulation_key encrypted));
  pure_result (ok_or (chat_from_slice plaintext) (JsonError "{error}")).

(** ** What a run sends *)

Definition header_value (name : string) (call : ChutesCall) : option string :=
  snd <$> List.find (λ h, fst h =?= name) (cc_headers call).
(** The invocation nonces used, and those still held for captured instances. *)
Definition used_nonces (sent : list ChutesCall) : list string := omap (header_value "X-E2E-Nonce") sent.
Definition held_nonces (entries : gmap (string * string) (Z * AttestedChutesInstance)) : list string :=
  map_to_list entries ≫= λ e, ai_invocation_nonces e.2.2.

Lemma held_insert k seq instance entries : entries !! k = None →
  held_nonces (<[k := (seq, instance)]> entries) ≡ₚ (ai_invocation_nonces instance ++ held_nonces entries)%list.
Proof. intros Hk. unfold held_nonces. by rewrite map_to_list_insert. Qed.
Lemma held_lookup k seq instance entries : entries !! k = Some (seq, instance) →
  held_nonces entries ≡ₚ (ai_invocation_nonces instance ++ held_nonces (delete k entries))%list.
Proof. intros Hk. unfold held_nonces. by rewrite <-(map_to_list_delete entries k (seq, instance) Hk). Qed.
Lemma held_subset entries entries' : entries ⊆ entries' → held_nonces entries ⊆+ held_nonces entries'.
Proof.
  intros H. unfold held_nonces. apply map_to_list_submseteq in H. revert H. generalize (map_to_list entries), (map_to_list entries').
  intros l l' (l2 & ->)%submseteq_Permutation. rewrite bind_app. by apply submseteq_inserts_r.
Qed.

(** Sections that only ask: they keep the instances, use no nonce and read answers of
    the server. *)
Definition asks (s s' : ChutesAdapter) : Prop :=
  ca_instances s' = ca_instances s ∧ used_nonces (ca_sent s') = used_nonces (ca_sent s)
  ∧ ∀ reply, reply ∈ ca_script s' → reply ∈ ca_script s.
Definition only_asks {A} (m : eff ChutesAdapter ProviderError A) : Prop := ∀ s, asks s (m s).2.
Lemma pure_asks {A} (r : ProviderResult A) : only_asks (pure_result r).
Proof. done. Qed.
Lemma bind_asks {A B} (m : eff ChutesAdapter ProviderError A) (f : A → eff ChutesAdapter ProviderError B) :
  only_asks m → (∀ a, only_asks (f a)) → only_asks (m ≫= f).
Proof.
  intros Hm Hf s. unfold mbind, eff_bind. specialize (Hm s). destruct (m s) as [[a|e] s1]; [|done].
  destruct Hm as (H1 & H2 & H3), (Hf a s1) as (H4 & H5 & H6). cbn in *. split_and!; [congruence..|auto].
Qed.
Lemma get_asks url query : only_asks (send_chutes (chutes_get url query)).
Proof.
  intros s. unfold send_chutes. destruct (ca_script s) as [|reply script] eqn:E; [done|]. split; [done|]. cbn.
  unfold used_nonces. rewrite omap_app, app_nil_r, E. split; [done|]. by right.
Qed.
#[local] Hint Resolve pure_asks bind_asks get_asks : core.
Lemma resolve_asks route : only_asks (resolve_chute_id route).
Proof. unfold resolve_chute_id. auto. Qed.
Lemma discover_asks route chute_id : only_asks (discover_instance route chute_id).
Proof. unfold discover_instance. auto. Qed.
Lemma evidence_asks route instance_id nonce : only_asks (fetch_instance_evidence route instance_id nonce).
Proof. unfold fetch_instance_evidence. auto. Qed.

(** An instance in a list the server answered with. *)
Definition discovered_in (script : list (option HttpReply)) (discovered : ChutesDiscoveredInstance) : Prop :=
  ∃ reply body instances, Some reply ∈ script
    ∧ checked_response_bytes {| hp_status := rp_status reply; hp_peer_certificate := None; hp_chunks := rp_chunks reply |} = Ok body
    ∧ instances_from_slice body = Some instances ∧ discovered ∈ instances.
Lemma discover_run route chute_id s discovered s' :
  discover_instance route chute_id s = (Ok discovered, s') → discovered_in (ca_script s) discovered.
Proof.
  unfold discover_instance, send_chutes. intros H. remember (Ok discovered) as r eqn:Er. pure_step H base Hb; [done|].
  apply eff_bind_run in H as [(e & _ & ->)|(response & s1 & Hs & H)]; [done|].
  destruct (ca_script s) as [|[reply|] script]; [done| |done]. injection Hs as <- <-.
  pure_step H body Hbody; [done|]. pure_step H instances Hi; [done|]. apply pure_run in H as [_ Hf]. subst. symmetry in Hbody, Hi, Hf.
  apply ok_or_Ok in Hi, Hf. exists reply, body, instances. split_and!; [by left|done|done|].
  apply find_some in Hf as [Hf _]. by apply list_elem_of_In.
Qed.
Lemma discovered_mono script script' discovered :
  (∀ reply, reply ∈ script → reply ∈ script') → discovered_in script discovered → discovered_in script' discovered.
Proof. intros Hs (reply & body & instances & Hr & H). exists reply, body, instances. auto. Qed.

(** What was captured for an entry of the store: evidence with its digest, for its
    route, chute, instance and key, under a nonce of 32 bytes; and its invocation
    nonces are among those the server listed for that instance and key. *)
Definition captured (script : list (option HttpReply)) (route_id digest : string) (instance : AttestedChutesInstance) : Prop :=
  ∃ capture bytes discovered, capture_to_vec capture = Some bytes ∧ digest = sha256_digest bytes ∧ cl_route_id capture = route_id
    ∧ cl_chute_id capture = ai_chute_id instance ∧ cl_instance_id capture = ai_instance_id instance
    ∧ cl_e2e_public_key_base64 capture = ai_e2e_public_key_base64 instance
    ∧ String.length (cl_request_nonce capture) = 64%nat
    ∧ discovered_in script discovered ∧ cd_instance_id discovered = cl_instance_id capture
    ∧ cd_e2e_pubkey discovered = cl_e2e_public_key_base64 capture
    ∧ ∀ nonce, nonce ∈ ai_invocation_nonces instance → nonce ∈ cd_nonces discovered.

Definition fetch_outcome (route : RouteDefinition) (s : ChutesAdapter) (out : ProviderResult string * ChutesAdapter) : Prop :=
  (asks s out.2 ∧ is_ok out.1 = false)
  ∨ ∃ s1 serialized instance, asks s s1 ∧ out.1 = Ok serialized
      ∧ captured (ca_script s) (rd_route_id route) (sha256_digest serialized) instance
      ∧ out.2 = {| ca_instances := store_insert (rd_route_id route) (sha256_digest serialized) instance (ca_instances s1);
                   ca_script := ca_script s1; ca_sent := ca_sent s1 |}.

Lemma asks_then {A B} (m : eff ChutesAdapter ProviderError A) (f : A → eff ChutesAdapter ProviderError B)
    (P : ProviderResult B * ChutesAdapter → Prop) s0 s :
  asks s0 s → only_asks m → (∀ e s1, asks s0 s1 → P (Err e, s1)) →
  (∀ a s1, asks s0 s1 → m s = (Ok a, s1) → P (f a s1)) → P ((m ≫= f) s).
Proof.
  intros (H1 & H2 & H3) Hm He Hok. unfold mbind, eff_bind. pose proof (Hm s) as (H4 & H5 & H6). destruct (m s) as [[a|e] s1]; cbn in *.
  - apply Hok; [split_and!; [congruence..|auto]|done].
  - apply He. split_and!; [congruence..|auto].
Qed.
Lemma fetch_cases route request s : fetch_outcome route s (chutes_fetch_evidence route request s).
Proof.
  assert (∀ e s1, asks s s1 → fetch_outcome route s (Err e, s1)) as He by (left; by split).
  unfold chutes_fetch_evidence.
  apply (asks_then _ _ _ s); [done|auto|done|]. intros [] s1 H1 _.
  apply (asks_then _ _ _ s); [done|auto|done|]. intros nonce s2 H2 _.
  apply (asks_then _ _ _ s); [done|auto|done|]. intros [] s3 H3 [Hn ->]%pure_result_Ok.
  apply (asks_then _ _ _ s); [done|apply resolve_asks|done|]. intros chute_id s4 H4 _.
  apply (asks_then _ _ _ s); [done|apply discover_asks|done|]. intros instance s5 H5 Hd%discover_run.
  apply (asks_then _ _ _ s); [done|apply evidence_asks|done|]. intros evidence s6 H6 _.
  apply (asks_then _ _ _ s); [done|auto|done|]. intros gpu_nonce s7 H7 _.
  apply (asks_then _ _ _ s); [done|auto|done|]. intros gpu s8 H8 _.
  apply (asks_then _ _ _ s); [done|auto|done|]. intros serialized s9 H9 [Hs ->]%pure_result_Ok.
  apply ok_or_Ok in Hs. right. eexists _, serialized, _. split; [exact H8|]. split; [done|]. split; [|done].
  eexists _, serialized, instance. split; [exact Hs|]. split_and!; try done; cbn.
  - unfold chutes_validate_nonce in Hn. case_match eqn:E; [|done]. bools. tauto.
  - eapply discovered_mono; [|exact Hd]. apply H4.
Qed.

(** What a chat does: it is refused; or it takes the next nonce of the instance of its
    evidence and fails, or sends one invocation, encrypted to that instance's key. *)
Definition popped (route_id digest : string) (seq : Z) (nonces : list string) (instance : AttestedChutesInstance)
    (s : ChutesAdapter) : EvidenceStateStore AttestedChutesInstance :=
  {| es_entries := <[(route_id, digest) := (seq, with_nonces nonces instance)]> (es_entries (ca_instances s));
     es_next_sequence := es_next_sequence (ca_instances s) |}.
Definition chat_outcome (random : ChutesRandom) (route : RouteDefinition) (request : ProviderChatRequest) (s : ChutesAdapter)
    (out : ProviderResult Chat * ChutesAdapter) : Prop :=
  (out.2 = s ∧ is_ok out.1 = false)
  ∨ ∃ digest seq instance nonce nonces,
      pq_confidentiality request = AdapterManagedEncrypted ∧ pq_verified_evidence_digest request = Some digest
      ∧ es_entries (ca_instances s) !! (rd_route_id route, digest) = Some (seq, instance)
      ∧ ai_invocation_nonces instance = nonce :: nonces
      ∧ ca_instances out.2 = popped (rd_route_id route) digest seq nonces instance s
      ∧ (ca_sent out.2 = ca_sent s ∧ is_ok out.1 = false
         ∨ ∃ encrypted base,
             encrypt_request (ai_e2e_public_key_base64 instance) (pq_body request) random = Ok encrypted
             ∧ control_api_base (rd_evidence_endpoint route) = Ok base
             ∧ ca_sent out.2 = (ca_sent s ++ [invoke_call base instance nonce (ec_blob encrypted)])%list
             ∧ late out.1
             ∧ ∀ answer, out.1 = Ok answer →
                 ∃ response plaintext, decrypt_response response (ec_response_decapsulation_key encrypted) = Ok plaintext
                   ∧ chat_from_slice plaintext = Some answer).

Lemma decrypt_response_late blob key : late (decrypt_response blob key).
Proof.
  unfold decrypt_response, derive_key, gunzip_bounded. apply late_guard; [discriminate|]. apply late_bind; [solve_late|]. intros response_key.
  apply late_bind; [solve_late|]. intros compressed. destruct (gunzip_stream compressed). solve_late.
Qed.
Lemma chat_cases random route request s : chat_outcome random route request s (chutes_chat random route request s).
Proof.
  unfold chutes_chat, pure_result, mbind, eff_bind.
  destruct (ensure_chutes_route route provider_id) as [[]|e]; [|by left].
  destruct (pq_confidentiality request =?= AdapterManagedEncrypted) eqn:Ec; cbn [negb]; [|by left]. apply bool_decide_eq_true_1 in Ec.
  unfold take_attested_invocation, verified_digest_for_request.
  destruct (pq_verified_evidence_digest request) as [digest|] eqn:Ed; cbn [ok_or]; [|by left].
  destruct (es_entries (ca_instances s) !! (rd_route_id route, digest)) as [[seq instance]|] eqn:Ei; [|by left].
  destruct (ai_invocation_nonces instance) as [|nonce nonces] eqn:En; [by left|].
  cbn [ai_e2e_public_key_base64 with_nonces].
  assert (∀ e, chat_outcome random route request s
    (Err e, {| ca_instances := popped (rd_route_id route) digest seq nonces instance s; ca_script := ca_script s; ca_sent := ca_sent s |})) as Hkept.
  { intros e. right. exists digest, seq, instance, nonce, nonces. split_and!; try done. by left. }
  destruct (encrypt_request (ai_e2e_public_key_base64 instance) (pq_body request) random) as [encrypted|e] eqn:Ee; [|apply Hkept].
  destruct (control_api_base (rd_evidence_endpoint route)) as [base|e] eqn:Eb; [|apply Hkept].
  unfold send_chutes. cbn [ca_script]. destruct (ca_script s) as [|reply script] eqn:Es; [apply Hkept|].
  assert (∀ e script', late (A := Chat) (Err e) →
    let out := (Err e, {| ca_instances := popped (rd_route_id route) digest seq nonces instance s; ca_script := script';
                          ca_sent := ca_sent s ++ [invoke_call base instance nonce (ec_blob encrypted)] |}) in
    chat_outcome random route request s out) as Hlost.
  { intros e script' Hl. right. exists digest, seq, instance, nonce, nonces. split_and!; try done. right. exists encrypted, base. by split_and!. }
  destruct reply as [reply|]; [|apply Hlost; solve_late].
  destruct (checked_response_bytes _) as [body|e] eqn:Ek;
    [|apply Hlost; eapply late_transfer; [symmetry; exact Ek|solve_late]].
  destruct (decrypt_response body _) as [plaintext|e] eqn:Ep;
    [|apply Hlost; eapply late_transfer; [symmetry; exact Ep|apply decrypt_response_late]].
  right. exists digest, seq, instance, nonce, nonces. split_and!; try done. right. exists encrypted, base. split_and!; try done; cbn; [solve_late|].
  intros answer Ha%ok_or_Ok. eauto.
Qed.

(** ** Calls over time

    [issued] collects the nonces that came with captured instances. *)

Definition captured_nonces (route : RouteDefinition) (r : ProviderResult string) (s : ChutesAdapter) : list string :=
  match r with
  | Ok bytes => from_option ai_invocation_nonces [] (store_get (rd_route_id route) (sha256_digest bytes) (ca_instances s))
  | Err _ => []
  end.
Inductive chutes_step : ChutesAdapter * list string → ChutesAdapter * list string → Prop :=
| chutes_fetches route request s r s' issued :
    chutes_fetch_evidence route request s = (r, s') →
    chutes_step (s, issued) (s', captured_nonces route r s' ++ issued)%list
| chutes_chats random route request s r s' issued :
    chutes_chat random route request s = (r, s') → chutes_step (s, issued) (s', issued).

(** A call reads the server's answers in order. *)
Definition reads {A} (m : eff ChutesAdapter ProviderError A) : Prop := ∀ s reply, reply ∈ ca_script (m s).2 → reply ∈ ca_script s.
Lemma bind_reads {A B} (m : eff ChutesAdapter ProviderError A) (f : A → eff ChutesAdapter ProviderError B) :
  reads m → (∀ a, reads (f a)) → reads (m ≫= f).
Proof. intros Hm Hf s reply. unfold mbind, eff_bind. specialize (Hm s reply). destruct (m s) as [[a|e] s1]; [|done]. intros H%Hf. by apply Hm. Qed.
Lemma pure_reads {A} (r : ProviderResult A) : reads (pure_result r).
Proof. by intros s reply. Qed.
Lemma send_reads call : reads (send_chutes call).
Proof. intros s reply. unfold send_chutes. destruct (ca_script s) as [|r script] eqn:E; cbn; [by rewrite E|by right]. Qed.
Lemma take_reads route request : reads (take_attested_invocation route request).
Proof. intros s reply. unfold take_attested_invocation. by repeat case_match. Qed.
Lemma chat_reads random route request : reads (chutes_chat random route request).
Proof.
  unfold chutes_chat. do 2 (apply bind_reads; [apply pure_reads|intros _]).
  apply bind_reads; [apply take_reads|intros [instance nonce]]. do 2 (apply bind_reads; [apply pure_reads|intros ?]).
  apply bind_reads; [apply send_reads|intros response]. do 2 (apply bind_reads; [apply pure_reads|intros ?]). apply pure_reads.
Qed.

Record chutes_inv (script : list (option HttpReply)) (st : ChutesAdapter * list string) : Prop := {
  ci_script reply : reply ∈ ca_script st.1 → reply ∈ script;
  ci_captured route_id digest seq instance :
    es_entries (ca_instances st.1) !! (route_id, digest) = Some (seq, instance) → captured script route_id digest instance;
  ci_nonces : (used_nonces (ca_sent st.1) ++ held_nonces (es_entries (ca_instances st.1)))%list ⊆+ st.2;
}.

Lemma captured_mono script script' route_id digest instance :
  (∀ reply, reply ∈ script → reply ∈ script') → captured script route_id digest instance → captured script' route_id digest instance.
Proof.
  intros Hs (capture & bytes & discovered & Hv & Hd & Hr & Hch & Hi & Hk & Hl & Hin & H). exists capture, bytes, discovered.
  split_and!; try done; [by eapply discovered_mono|apply H..].
Qed.
Lemma fetch_inv script route request s issued r s' :
  chutes_inv script (s, issued) → chutes_fetch_evidence route request s = (r, s') →
  chutes_inv script (s', captured_nonces route r s' ++ issued)%list.
Proof.
  intros [Hsc Hc Hn] E. pose proof (fetch_cases route request s) as H. rewrite E in H.
  destruct H as [[(Hi & Hu & Hread) He]|(s1 & serialized & instance & (Hi & Hu & Hread) & Hr & Hcap & Hs)]; cbn in *.
  - destruct r; [done|]. constructor; cbn; rewrite ?Hi; [auto|done|]. by rewrite Hu.
  - apply (captured_mono _ script) in Hcap; [|done]. subst. set (key := (rd_route_id route, sha256_digest serialized)).
    remember (<[key := (es_next_sequence (ca_instances s), instance)]> (es_entries (ca_instances s))) as entries eqn:Hent.
    assert (evict (size entries) entries ⊆ entries) as Hsub by apply evict_subset.
    assert (store_insert (rd_route_id route) (sha256_digest serialized) instance (ca_instances s1)
            = {| es_entries := evict (size entries) entries;
                 es_next_sequence := ((es_next_sequence (ca_instances s) + 1) mod u64_modulus)%Z |}) as -> by (rewrite Hi, Hent; done).
    constructor; cbn [fst snd].
    + cbn. auto.
    + cbn [ca_instances es_entries]. intros route_id digest seq inst Hk. eapply lookup_weaken in Hk; [|exact Hsub].
      rewrite Hent in Hk. apply lookup_insert_Some in Hk as [[[= <- <-] [= _ <-]]|[_ Hk]]; [done|by eapply Hc].
    + unfold captured_nonces, store_get. cbn [ca_instances es_entries ca_sent]. rewrite Hu. fold key.
      destruct (evict (size entries) entries !! key) as [[seq inst]|] eqn:Ek; cbn.
      * assert (inst = instance) as ->.
        { eapply lookup_weaken in Ek; [|exact Hsub]. rewrite Hent, lookup_insert_eq in Ek. congruence. }
        rewrite (held_lookup _ _ _ _ Ek), !app_assoc, (Permutation_app_comm (used_nonces _)), <-app_assoc.
        apply submseteq_app; [done|]. etrans; [|exact Hn]. apply submseteq_app; [done|]. apply held_subset.
        etrans; [apply delete_mono, Hsub|]. rewrite Hent, delete_insert_eq. apply delete_subseteq.
      * etrans; [|exact Hn]. apply submseteq_app; [done|]. apply held_subset.
        rewrite <-(delete_id _ _ Ek). etrans; [apply delete_mono, Hsub|]. rewrite Hent, delete_insert_eq. apply delete_subseteq.
Qed.
Lemma chat_inv script random route request s issued r s' :
  chutes_inv script (s, issued) → chutes_chat random route request s = (r, s') → chutes_inv script (s', issued).
Proof.
  intros [Hsc Hc Hn] E. pose proof (chat_cases random route request s) as H. pose proof (chat_reads random route request s) as Hread.
  rewrite E in H, Hread.
  unfold chat_outcome in H. cbn [fst snd] in *.
  destruct H as [[-> _]|(digest & seq & instance & nonce & nonces & _ & _ & Hk & Hno & Hi & Hs)]; [by constructor|]. constructor; cbn [fst snd]; rewrite ?Hi.
  - auto.
  - cbn. intros route_id d q inst [[[= <- <-] [= _ <-]]|[_ Hl]]%lookup_insert_Some; [|by eapply Hc].
    destruct (Hc _ _ _ _ Hk) as (capture & bytes & discovered & Hv & Hd & Hr & Hch & Hin & Hpk & Hl & Hdi & Hdid & Hdk & Hno').
    exists capture, bytes, discovered. split_and!; try done. cbn. intros n Hn'. apply Hno'. rewrite Hno. by right.
  - cbn [popped es_entries]. rewrite <-insert_delete_eq, held_insert by apply lookup_delete_eq. cbn [ai_invocation_nonces with_nonces].
    rewrite (held_lookup _ _ _ _ Hk), Hno in Hn.
    destruct Hs as [[-> _]|(encrypted & base & _ & _ & -> & _ & _)].
    + etrans; [|exact Hn]. apply submseteq_app; [done|]. cbn. by apply submseteq_cons.
    + unfold used_nonces. rewrite omap_app. etrans; [|exact Hn]. by rewrite <-app_assoc.
Qed.
Lemma new_chutes_inv script : chutes_inv script (new_chutes_adapter script, []).
Proof. constructor; [done|done|]. cbn. unfold held_nonces. by rewrite map_to_list_empty. Qed.
Lemma reached_inv script st : rtc chutes_step (new_chutes_adapter script, []) st → chutes_inv script st.
Proof.
  intros H. generalize (new_chutes_inv script). induction H as [|x y z Hs _ IH]; [done|]. intros Hx. apply IH.
  destruct Hs; [by eapply fetch_inv|by eapply chat_inv].
Qed.

(** C5: After any evidence fetches and chats of the adapter, a chat call either sends
    nothing and fails, or sends one invocation whose body is the prompt encrypted to
    the ML-KEM key in evidence captured for this route, the very evidence whose digest
    the request was verified by; it goes to the instance of that evidence, under a
    nonce that an answer of the server listed for this instance with this key; its
    failure is never reported as nothing having been sent; and an answer is what the
    holder of the response key, made for this request, decrypted. *)
Theorem chutes_prompts_encrypted_to_attested_key script s issued random route request r s' :
  rtc chutes_step (new_chutes_adapter script, []) (s, issued) → chutes_chat random route request s = (r, s') →
  (ca_sent s' = ca_sent s ∧ is_ok r = false)
  ∨ ∃ capture bytes discovered nonce encrypted call,
      capture_to_vec capture = Some bytes ∧ pq_verified_evidence_digest request = Some (sha256_digest bytes)
      ∧ cl_route_id capture = rd_route_id route
      ∧ pq_confidentiality request = AdapterManagedEncrypted
      ∧ encrypt_request (cl_e2e_public_key_base64 capture) (pq_body request) random = Ok encrypted
      ∧ ca_sent s' = (ca_sent s ++ [call])%list ∧ cc_body call = Some (ec_blob encrypted)
      ∧ header_value "X-Instance-Id" call = Some (cl_instance_id capture)
      ∧ header_value "X-E2E-Nonce" call = Some nonce ∧ nonce ∈ issued
      ∧ discovered_in script discovered ∧ cd_instance_id discovered = cl_instance_id capture
      ∧ cd_e2e_pubkey discovered = cl_e2e_public_key_base64 capture ∧ nonce ∈ cd_nonces discovered
      ∧ (∀ e, r = Err e → chat_dispatch_outcome e ≠ NotDispatched)
      ∧ ∀ answer, r = Ok answer →
          ∃ response plaintext, decrypt_response response (ec_response_decapsulation_key encrypted) = Ok plaintext
            ∧ chat_from_slice plaintext = Some answer.
Proof.
  intros [_ Hc Hn]%reached_inv E. pose proof (chat_cases random route request s) as H. rewrite E in H.
  unfold chat_outcome in H. cbn [fst snd] in *.
  destruct H as [[-> Hr]|(digest & seq & instance & nonce & nonces & Hconf & Hd & Hk & Hno & _ & [[Hs Hr]|Hs])]; [by left|by left|].
  destruct Hs as (encrypted & base & He & _ & Hs & Hl & Ha). right.
  destruct (Hc _ _ _ _ Hk) as (capture & bytes & discovered & Hv & -> & Hroute & _ & Hi & Hpk & _ & Hdi & Hdid & Hdk & Hdn).
  exists capture, bytes, discovered, nonce, encrypted, (invoke_call base instance nonce (ec_blob encrypted)).
  split_and!; try done; [by rewrite Hpk|by rewrite Hi| |apply Hdn; rewrite Hno; by left].
  eapply elem_of_submseteq; [|exact Hn]. rewrite (held_lookup _ _ _ _ Hk), Hno. apply elem_of_app. right. by left.
Qed.

(** No invocation nonce is used twice: the nonces of everything ever sent are a
    part of those that came with captured instances, each counted as often as it was
    issued, so nonces that were issued once are used once at most. *)
Theorem chutes_nonces_used_once script s issued :
  rtc chutes_step (new_chutes_adapter script, []) (s, issued) →
  used_nonces (ca_sent s) ⊆+ issued ∧ (NoDup issued → NoDup (used_nonces (ca_sent s))).
Proof.
  intros [_ _ Hn]%reached_inv. cbn in Hn. assert (used_nonces (ca_sent s) ⊆+ issued) as H.
  { etrans; [|exact Hn]. by apply submseteq_inserts_r. }
  split; [done|]. apply submseteq_Permutation in H as [rest ->]. by intros (? & _ & _)%NoDup_app.
Qed.
End Adapter.

(** ** The protocol *)

(** What the adapter relies on. *)
Class ChutesCryptoLaws `{!RequestCrypto} `{!ChutesCrypto} : Prop := {
  encapsulation_agrees seed random :
    decapsulate (generate_keypair seed).1 (encapsulate (generate_keypair seed).2 random).1
    = (encapsulate (generate_keypair seed).2 random).2;
  ciphertext_length key random : String.length (encapsulate key random).1 = ML_KEM_768_CIPHERTEXT_BYTES;
  gzip_roundtrip bytes compressed : gzip bytes = Some compressed → gunzip_stream compressed = (bytes, true);
  aead_tag key nonce aad msg c : aead_encrypt key nonce aad msg = Some c → (CHACHA_TAG_BYTES ≤ String.length c)%nat;
}.

Section Protocol.
Context {crypto : RequestCrypto} {chutes : ChutesCrypto} {laws : RequestCryptoLaws} {claws : ChutesCryptoLaws}.

(** The instance's half: reading a request with its key, and sealing an answer to the
    key a request carried. *)
Definition instance_open (decapsulation_key blob : string) : ProviderResult Value :=
  let ciphertext := slice blob 0 ML_KEM_768_CIPHERTEXT_BYTES in
  let rest := slice blob ML_KEM_768_CIPHERTEXT_BYTES (String.length blob) in
  key ← derive_key (decapsulate decapsulation_key ciphertext) ciphertext E2EE_REQUEST_INFO;
  compressed ← ok_or (aead_decrypt key (slice rest 0 CHACHA_NONCE_BYTES) "" (slice rest CHACHA_NONCE_BYTES (String.length rest)))
                 (Adapter "authentication");
  ok_or (value_of_slice (gunzip_stream compressed).1) (JsonError "{error}").
Definition instance_seal (public_key random nonce plaintext : string) : ProviderResult string :=
  let '(ciphertext, shared_secret) := encapsulate public_key random in
  key ← derive_key shared_secret ciphertext E2EE_RESPONSE_INFO;
  compressed ← ok_or (gzip plaintext) (Adapter "gzip");
  encrypted ← ok_or (aead_encrypt key nonce "" compressed) (Adapter "encryption");
  Ok (ciphertext +:+ nonce +:+ encrypted).

Lemma slice_rest a b : slice (a +:+ b) (String.length a) (String.length (a +:+ b)) = b.
Proof. by rewrite append_length, slice_app_r, slice_all. Qed.
(** A blob is taken apart into what it was put together from. *)
Lemma blob_parts ciphertext nonce encrypted :
  String.length ciphertext = ML_KEM_768_CIPHERTEXT_BYTES → String.length nonce = CHACHA_NONCE_BYTES →
  let blob := ciphertext +:+ nonce +:+ encrypted in
  slice blob 0 ML_KEM_768_CIPHERTEXT_BYTES = ciphertext
  ∧ slice blob ML_KEM_768_CIPHERTEXT_BYTES (String.length blob) = nonce +:+ encrypted
  ∧ slice (nonce +:+ encrypted) 0 CHACHA_NONCE_BYTES = nonce
  ∧ slice (nonce +:+ encrypted) CHACHA_NONCE_BYTES (String.length (nonce +:+ encrypted)) = encrypted.
Proof. intros <- <-. cbn zeta. by rewrite !slice_app_l, !slice_rest. Qed.

Lemma encrypt_request_inv key body random encrypted :
  encrypt_request key body random = Ok encrypted →
  ∃ public_key fields request_key plaintext compressed c,
    standard_decode key = Some public_key ∧ body = VObject fields
    ∧ derive_key (encapsulate public_key (rn_encapsulation random)).2 (encapsulate public_key (rn_encapsulation random)).1 E2EE_REQUEST_INFO
      = Ok request_key
    ∧ value_to_vec (VObject (insert_member "e2e_response_pk" (VString (standard_encode (generate_keypair (rn_keypair random)).2)) fields))
      = Some plaintext
    ∧ gzip plaintext = Some compressed ∧ aead_encrypt request_key (rn_nonce random) "" compressed = Some c
    ∧ ec_blob encrypted = (encapsulate public_key (rn_encapsulation random)).1 +:+ rn_nonce random +:+ c
    ∧ ec_response_decapsulation_key encrypted = (generate_keypair (rn_keypair random)).1.
Proof.
  unfold encrypt_request. intros H. inv_ok.
  destruct (encapsulate _ _) as [ct shared] eqn:Ee. inv_ok. destruct (generate_keypair _) as [sk pk] eqn:Eg. inv_ok.
  destruct body; inv_ok. do 6 eexists. rewrite ?Ee. cbn. split_and!; eauto.
Qed.

(** C19: The instance that holds the attested key reads from an invocation the prompt
    with the response key added, and what it seals to that response key the adapter
    decrypts to the instance's answer, for any answer within the size limit. *)
Theorem chutes_encryption_roundtrip seed body random encrypted :
  encrypt_request (standard_encode (generate_keypair seed).2) body random = Ok encrypted →
  String.length (rn_nonce random) = CHACHA_NONCE_BYTES →
  ∃ fields seen, body = VObject fields
    ∧ instance_open (generate_keypair seed).1 (ec_blob encrypted) = Ok seen
    ∧ value_equiv (VObject (insert_member "e2e_response_pk"
                              (VString (standard_encode (generate_keypair (rn_keypair random)).2)) fields)) seen
    ∧ ∀ instance_random nonce plaintext blob,
        String.length nonce = CHACHA_NONCE_BYTES → (Z.of_nat (String.length plaintext) ≤ MAX_DECRYPTED_RESPONSE_BYTES)%Z →
        instance_seal (generate_keypair (rn_keypair random)).2 instance_random nonce plaintext = Ok blob →
        decrypt_response blob (ec_response_decapsulation_key encrypted) = Ok plaintext.
Proof.
  intros (pk & fields & key & plaintext & compressed & c & Hpk & -> & Hkey & Hv & Hz & Hc & Hb & Hsk)%encrypt_request_inv Hn.
  rewrite standard_roundtrip in Hpk. injection Hpk as <-. destruct (value_roundtrip _ _ Hv) as (seen & Hseen & Heq).
  exists fields, seen. split; [done|]. split; [|split; [done|]].
  - unfold instance_open. rewrite Hb. destruct (blob_parts _ _ c (ciphertext_length (generate_keypair seed).2 (rn_encapsulation random)) Hn)
      as (-> & -> & -> & ->). cbn zeta. rewrite encapsulation_agrees, Hkey. cbn [mbind result_bind].
    rewrite (aead_roundtrip _ _ _ _ _ Hc). cbn [ok_or mbind result_bind]. rewrite (gzip_roundtrip _ _ Hz). cbn [fst]. by rewrite Hseen.
  - intros instance_random nonce answer blob Hnonce Hlen Hseal. unfold instance_seal in Hseal.
    set (rpk := (generate_keypair (rn_keypair random)).2) in *.
    destruct (encapsulate rpk instance_random) as [ct shared] eqn:Ee. inv_ok.
    pose proof (ciphertext_length rpk instance_random) as Hct. pose proof (encapsulation_agrees (rn_keypair random) instance_random) as Hag.
    fold rpk in Hag. rewrite Ee in Hct, Hag. cbn [fst snd] in Hct, Hag.
    unfold decrypt_response. rewrite Hsk.
    match goal with H : aead_encrypt _ _ _ _ = Some ?e |- _ => pose proof (aead_tag _ _ _ _ _ H) as Htag;
      pose proof (aead_roundtrip _ _ _ _ _ H) as Hdec; destruct (blob_parts ct nonce e Hct Hnonce) as (-> & -> & -> & ->) end.
    rewrite !append_length, Hct, Hnonce. case_match eqn:El; [apply Nat.ltb_lt in El; lia|]. cbn zeta. rewrite Hag.
    match goal with H : derive_key _ _ _ = Ok _ |- _ => rewrite H end. cbn [mbind result_bind]. rewrite Hdec. cbn [ok_or mbind result_bind].
    unfold gunzip_bounded. match goal with H : gzip _ = Some _ |- _ => rewrite (gzip_roundtrip _ _ H) end.
    case_match eqn:Em; [bools; lia|done].
Qed.
End Protocol.

(** ** Concrete inputs *)

#[local] Instance chutes_request_crypto : RequestCrypto := {|
  standard_encode s := s; standard_decode s := Some s;
  value_to_vec := @value_to_vec sample_request_crypto; value_of_slice := @value_of_slice sample_request_crypto;
  x25519_public _ := zeros 32; diffie_hellman _ _ := "shared"; hkdf_expand _ _ info := Some info;
  aead_encrypt _ _ _ msg := Some (zeros 16 +:+ msg);
  aead_decrypt _ _ _ c := Some (slice c 16 (String.length c)) |}.
#[local] Instance chutes_request_laws : RequestCryptoLaws.
Proof.
  split; try done.
  - apply (@value_roundtrip _ sample_request_laws).
  - cbn [aead_encrypt aead_decrypt chutes_request_crypto]. intros key nonce aad msg c [= <-]. by rewrite (slice_rest (zeros 16)).
Qed.
#[local] Instance sample_chutes_crypto : ChutesCrypto := {|
  mlkem_public_key _ := true; encapsulate _ _ := (zeros 1088, "shared"); generate_keypair seed := ("secret", "public");
  decapsulate _ _ := "shared"; gzip := Some; gunzip_stream bytes := (bytes, true) |}.
#[local] Instance sample_chutes_laws : ChutesCryptoLaws.
Proof.
  split; try (intros; by vm_compute).
  - by intros bytes compressed [= ->].
  - cbn [aead_encrypt chutes_request_crypto]. intros key nonce aad msg c [= <-]. rewrite append_length. unfold CHACHA_TAG_BYTES. cbn. lia.
Qed.

Definition chutes_route : RouteDefinition := tls_route "chutes" "chutes_live_e2ee".
Definition answered : option HttpReply := Some {| rp_status := 200; rp_chunks := [Some "body"] |}.
Definition sealed_answer : option HttpReply :=
  Some {| rp_status := 200; rp_chunks := [Some (zeros 1088 +:+ zeros 12 +:+ zeros 16 +:+ "answer")] |}.
Definition chutes_script : list (option HttpReply) := [answered; answered; answered; sealed_answer].
Definition sample_random : ChutesRandom := {| rn_encapsulation := "r"; rn_keypair := "k"; rn_nonce := zeros 12 |}.
Definition chutes_vec (c : ChutesLiveEvidence) : option string := Some (cl_instance_id c).
Definition chutes_parse (url : string) : option (string * option string * option Z) := Some ("https", Some "api", None).
Abbreviation sample_fetch := (chutes_fetch_evidence "chutes" "key" chutes_parse
  (λ _, Some [{| cm_id := rd_provider_model chutes_route; cm_chute_id := Some "chute" |}])
  (λ _, Some [{| cd_instance_id := "i1"; cd_e2e_pubkey := zeros 1184; cd_nonces := ["n1"; "n2"] |}])
  (λ _, Some {| ce_quote := "q"; ce_gpu_evidence := []; ce_certificate := "c"; ce_instance_id := Some "i1" |})
  chutes_vec (λ _, None) None).
Abbreviation sample_chat := (chutes_chat "chutes" "key" chutes_parse Some).
Definition chutes_fetched : ProviderResult string * ChutesAdapter :=
  sample_fetch chutes_route http_evidence_request (new_chutes_adapter chutes_script).
Definition chutes_prompt : ProviderChatRequest :=
  with_verified_evidence_digest (sha256_digest "i1") (adapter_managed_encrypt (VObject [("prompt", VString "hello")])).
Definition chutes_answered : ProviderResult string * ChutesAdapter :=
  sample_chat sample_random chutes_route chutes_prompt chutes_fetched.2.

Example chutes_run :
  chutes_fetched.1 = Ok "i1" ∧ chutes_answered.1 = Ok "answer" ∧ used_nonces (ca_sent chutes_answered.2) = ["n1"].
Proof. by vm_compute. Qed.
Abbreviation sample_step := (chutes_step "chutes" "key" chutes_parse Some
  (λ _, Some [{| cm_id := rd_provider_model chutes_route; cm_chute_id := Some "chute" |}])
  (λ _, Some [{| cd_instance_id := "i1"; cd_e2e_pubkey := zeros 1184; cd_nonces := ["n1"; "n2"] |}])
  (λ _, Some {| ce_quote := "q"; ce_gpu_evidence := []; ce_certificate := "c"; ce_instance_id := Some "i1" |})
  chutes_vec (λ _, None) None).
Lemma chutes_fetched_reached : rtc sample_step (new_chutes_adapter chutes_script, []) (chutes_fetched.2, ["n1"; "n2"]).
Proof.
  apply rtc_once. pose proof (chutes_fetches "chutes" "key" chutes_parse Some
    (λ _, Some [{| cm_id := rd_provider_model chutes_route; cm_chute_id := Some "chute" |}])
    (λ _, Some [{| cd_instance_id := "i1"; cd_e2e_pubkey := zeros 1184; cd_nonces := ["n1"; "n2"] |}])
    (λ _, Some {| ce_quote := "q"; ce_gpu_evidence := []; ce_certificate := "c"; ce_instance_id := Some "i1" |})
    chutes_vec (λ _, None) None chutes_route http_evidence_request (new_chutes_adapter chutes_script)
    chutes_fetched.1 chutes_fetched.2 [] (surjective_pairing _)) as H.
  assert (captured_nonces chutes_route chutes_fetched.1 chutes_fetched.2 = ["n1"; "n2"]) as En by (vm_compute; reflexivity).
  rewrite En in H. exact H.
Qed.
Lemma chutes_answered_reached : rtc sample_step (new_chutes_adapter chutes_script, []) (chutes_answered.2, ["n1"; "n2"]).
Proof.
  eapply rtc_r; [apply chutes_fetched_reached|]. eapply chutes_chats. apply surjective_pairing.
Qed.

Lemma chutes_prompts_encrypted_to_attested_key_witness :
  ∃ capture bytes call, chutes_vec capture = Some bytes ∧ ca_sent chutes_answered.2 = (ca_sent chutes_fetched.2 ++ [call])%list
    ∧ header_value "X-Instance-Id" call = Some (cl_instance_id capture).
Proof.
  destruct (chutes_prompts_encrypted_to_attested_key _ _ _ _ _ _ _ _ _ _ chutes_script chutes_fetched.2 ["n1"; "n2"]
              sample_random chutes_route chutes_prompt chutes_answered.1 chutes_answered.2 chutes_fetched_reached (surjective_pairing _))
    as [[H _]|(capture & bytes & discovered & nonce & encrypted & call & Hv & _ & _ & _ & _ & Hs & _ & Hi & _)].
  - exfalso. apply (f_equal length) in H. vm_compute in H. discriminate H.
  - exists capture, bytes, call. split; [exact Hv|]. split; [exact Hs|exact Hi].
Defined.
Lemma chutes_nonces_used_once_witness : NoDup (used_nonces (ca_sent chutes_answered.2)) ∧ used_nonces (ca_sent chutes_answered.2) = ["n1"].
Proof.
  split; [|vm_compute; reflexivity].
  destruct (chutes_nonces_used_once _ _ _ _ _ _ _ _ _ _ chutes_script chutes_answered.2 ["n1"; "n2"] chutes_answered_reached) as [_ H].
  apply H. apply NoDup_cons. split; [by rewrite list_elem_of_singleton|apply NoDup_singleton].
Defined.
Lemma chutes_encryption_roundtrip_witness :
  ∃ encrypted seen, encrypt_request "public" (pq_body chutes_prompt) sample_random = Ok encrypted
    ∧ instance_open "secret" (ec_blob encrypted) = Ok seen.
Proof.
  destruct (is_ok_inv (encrypt_request "public" (pq_body chutes_prompt) sample_random)) as [encrypted E]; [vm_compute; reflexivity|].
  destruct (chutes_encryption_roundtrip "k" (pq_body chutes_prompt) sample_random encrypted E eq_refl) as (fields & seen & _ & Hs & _).
  exists encrypted, seen. split; [exact E|exact Hs].
Defined.
