(* ===== verification/RedpillAdapter.v ===== *)
(** * The RedPill adapter

    providers/redpill.rs: the adapter captures the gateway's report and a model
    session over a connection pinned to the gateway's key, sends a prompt only over
    such a connection and only to the captured session, and accepts the answer only
    with a receipt, signed by a key of the attested keyset, for exactly the bytes
    sent and received. Verified sessions are reused in later captures for as long as
    the session and its GPU token last. *)

From Stdlib Require Import Ascii String ZArith Lia.
From stdpp Require Import base gmap strings list numbers relations.
From S2P Require Import Prelude RustStr Errors Collections Canonical JsonInjective Bindings Signature EvidenceDocuments LiveEvidence Redpill.
From S2P Require Import Registry ProviderRequest Compatibility Effects ClientVerify HttpTransport HttpProviders.

Open Scope string_scope.

(** ** State *)

Record SessionState := {
  ss_tls : LiveTlsPeer;
  ss_session_id : string;
  ss_session : Value;
  ss_gateway_report : Value;
  ss_gpu_attestation : option NvidiaGpuAttestationEvidence;
}.
Record CachedSession := {
  cn_session_id : string;
  cn_session : Value;
  cn_gpu_attestation : option NvidiaGpuAttestationEvidence;
  cn_not_after : Z;
}.
Record RedpillAdapter := {
  ra_state : EvidenceStateStore SessionState;
  ra_session_cache : gmap string CachedSession;
  ra_pinned_clients : PinnedSpkiClientCache;
  ra_net : Net;
}.
Definition new_redpill_adapter (net : Net) : RedpillAdapter := {|
  ra_state := store_new; ra_session_cache := ∅; ra_pinned_clients := {| px_clients := ∅; px_sequence := 0 |}; ra_net := net |}.

(** [Value]'s equality, the text of a body in an error, and a response's receipt
    header. *)
Class RedpillWire := {
  value_eqb : Value → Value → bool;
  response_body_preview : string → string;
  receipt_header : HttpResponse → option string;
}.

(** ** Sessions *)

Section Sessions.
Context {crypto : RequestCrypto} {signatures : SignatureCrypto}.

Definition matches_listed (c : CachedSession) (entry : Value) (now : Z) : bool :=
  bool_decide (get_str "session_id" entry = Some (cn_session_id c))
  && match value_pointer ["evidence"; "digest"] entry ≫= value_as_str with
     | Some digest => bool_decide (value_pointer ["evidence"; "digest"] (cn_session c) ≫= value_as_str = Some digest)
     | None => false
     end
  && (now <? cn_not_after c)%Z.

Definition jwt_exp (token : string) : option Z :=
  claims ← split_byte "." token !! 1%nat;
  bytes ← base64url_decode claims;
  value ← value_of_slice bytes;
  get_u64 "exp" value.
Definition cache_not_after (session : Value) (gpu_attestation : option NvidiaGpuAttestationEvidence) : option Z :=
  session_expiry ← get_u64 "expires_at" session;
  gpu ← gpu_attestation;
  token ← ng_nras_token gpu;
  exp ← jwt_exp token;
  Some (Z.min session_expiry exp).
End Sessions.

Definition session_id_shaped (id : string) : bool := (String.length id =? 64)%nat && all_bytes is_lower_hexdigit id.
Definition established_at (session : Value) : Z := default 0%Z (get_u64 "established_at" session).
(** [max_by_key]: the last of the greatest. *)
Definition newer_session (best : option Value) (session : Value) : option Value :=
  match best with
  | Some b => if (established_at session <? established_at b)%Z then Some b else Some session
  | None => Some session
  end.
Definition newest_session (list : Value) : ProviderResult Value :=
  ok_or (fold_left newer_session
           (List.filter (λ s, match get_str "session_id" s with Some id => session_id_shaped id | None => false end)
              (default [] (get_array "sessions" list))) None)
    (Unavailable "RedPill has no current model session").

Definition ensure_redpill_route (route : RouteDefinition) (provider : string) : ProviderResult unit :=
  bail (Compatibility "route is not a RedPill ACI verified TLS route")
    when negb (rd_provider route =?= provider) || negb (rd_evidence_family route =?= "redpill_aci_verified_tls");
  bail (Compatibility "RedPill endpoints must use HTTPS")
    when negb (https_or_test_loopback (rd_api_base_url route)) || negb (https_or_test_loopback (rd_evidence_endpoint route));
  Ok tt.

Definition constrain_request (body : Value) (session_id : string) : ProviderResult Value :=
  match body with
  | VObject fields =>
      Ok (VObject (insert_member "provider" (VObject [("aci_session_ids", VArray [VString session_id])]) fields))
  | _ => Err (Compatibility "RedPill request must be an object")
  end.
(** [ProviderChatRequest::model]. *)
Definition request_model (body : Value) : option string :=
  match value_get "model" body with
  | Some v => value_as_str v
  | None => get_str "provider_model" body
  end.

(** ** Receipts *)

Definition lower_hex_decode (s : string) : option string :=
  if Nat.even (String.length s) && all_bytes is_lower_hexdigit s then Some (hex_pairs s) else None.
Definition invalid_receipt : ProviderError := Adapter "RedPill receipt verification failed after dispatch".
Definition events_of (kind : string) (events : list Value) : list Value :=
  List.filter (λ e, bool_decide (get_str "type" e = Some kind)) events.
Definition is_signing_key (key_id : string) (key : Value) : bool :=
  bool_decide (get_str "key_id" key = Some key_id) && bool_decide (get_str "algo" key = Some "ed25519").
Definition upstream_verified (session_id : string) (event : Value) : bool :=
  bool_decide (get_str "result" event = Some "verified")
  && bool_decide (value_get "required" event ≫= value_as_bool = Some true)
  && bool_decide (get_str "session_id" event = Some session_id).
Definition body_hash_is (event : Value) (bytes : string) {prim : Primitives} : bool :=
  bool_decide (get_str "body_hash" event = Some (sha256_digest bytes)).

Section Receipts.
Context {prim : Primitives} {signatures : SignatureCrypto} {redpill : RedpillReaders} {wire_ops : RedpillWire}.

Definition same_value (a b : option Value) : bool :=
  match a, b with Some a, Some b => value_eqb a b | None, None => true | _, _ => false end.

Definition verify_receipt (receipt : Value) (receipt_id wire response : string) (state : SessionState) : ProviderResult unit :=
  fields ← match receipt with VObject fields => Ok fields | _ => Err invalid_receipt end;
  sig ← ok_or (get_str "signature" receipt ≫= lower_hex_decode) invalid_receipt;
  let receipt := VObject (List.filter (λ e, negb (fst e =?= "signature")) fields) in
  key_id ← ok_or (get_str "key_id" receipt) invalid_receipt;
  keyset ← ok_or (value_pointer ["attestation"; "workload_keyset"] (ss_gateway_report state)) invalid_receipt;
  keys ← ok_or (get_array "receipt_signing_keys" keyset) invalid_receipt;
  key ← match List.filter (is_signing_key key_id) keys with [key] => Ok key | _ => Err invalid_receipt end;
  public_key ← ok_or (get_str "public_key" key ≫= lower_hex_decode) invalid_receipt;
  _ ← map_err (λ _, invalid_receipt) (verify_redpill_aci_signature receipt public_key sig);
  served ← ok_or (get_u64 "served_at" receipt) invalid_receipt;
  established ← ok_or (get_u64 "established_at" (ss_session state)) invalid_receipt;
  expires ← ok_or (get_u64 "expires_at" (ss_session state)) invalid_receipt;
  key_expiry ← ok_or (get_u64 "not_after" keyset) invalid_receipt;
  bail invalid_receipt
    when negb (bool_decide (get_str "api_version" receipt = Some "aci/1"))
         || negb (bool_decide (get_str "receipt_id" receipt = Some receipt_id))
         || negb (same_value (value_get "workload_keyset_digest" receipt)
                    (value_get "workload_keyset_digest" (ss_gateway_report state)))
         || (served <? established)%Z || (expires <=? served)%Z || (key_expiry <=? served)%Z;
  events ← ok_or (get_array "event_log" receipt) invalid_receipt;
  let upstream := events_of "upstream.verified" events in
  bail invalid_receipt
    when match events_of "request.received" events, events_of "response.returned" events with
         | [received], [returned] =>
             negb (same_value (head events) (Some received)) || negb (body_hash_is received wire)
             || negb (body_hash_is returned response)
         | _, _ => true
         end || (length upstream =? 0)%nat || negb (forallb (upstream_verified (ss_session_id state)) upstream);
  Ok tt.
End Receipts.

(** ** The adapter *)

Section Adapter.
Context {prim : Primitives} {x509 : CertificateReader} {platform : PlatformVerifier} {crypto : RequestCrypto}.
Context {signatures : SignatureCrypto} {redpill : RedpillReaders} {wire_ops : RedpillWire}.
Context (built : ProviderResult unit) (provider_id api_key : string).
Context (nras_client : option (NvidiaGpuAttestationEvidence → eff Net ProviderError NvidiaGpuAttestationEvidence)).
(** [serde_json] for the capture and the answer. *)
Context (capture_to_vec : RedpillAciLiveEvidence → option string) {Chat : Type} (chat_from_slice : string → option Chat).

Definition redpill_net {A} (m : eff Net ProviderError A) : eff RedpillAdapter ProviderError A := λ s,
  let '(r, net) := m (ra_net s) in
  (r, {| ra_state := ra_state s; ra_session_cache := ra_session_cache s; ra_pinned_clients := ra_pinned_clients s; ra_net := net |}).
Definition redpill_client (spki_sha256 : string) : eff RedpillAdapter ProviderError HttpClient := λ s,
  let '(r, pins) := pinned_client built spki_sha256 (ra_pinned_clients s) in
  (r, {| ra_state := ra_state s; ra_session_cache := ra_session_cache s; ra_pinned_clients := pins; ra_net := ra_net s |}).
Definition cached_session (route_id : string) (entry : Value) (now : Z) : eff RedpillAdapter ProviderError (option CachedSession) := λ s,
  (Ok (c ← ra_session_cache s !! route_id; if matches_listed c entry now then Some c else None), s).
Definition cache_session (route_id : string) (c : CachedSession) : eff RedpillAdapter ProviderError unit := λ s,
  (Ok tt, {| ra_state := ra_state s; ra_session_cache := <[route_id := c]> (ra_session_cache s);
             ra_pinned_clients := ra_pinned_clients s; ra_net := ra_net s |}).
Definition remember_session (route_id digest : string) (state : SessionState) : eff RedpillAdapter ProviderError unit := λ s,
  (Ok tt, {| ra_state := store_insert route_id digest state (ra_state s); ra_session_cache := ra_session_cache s;
             ra_pinned_clients := ra_pinned_clients s; ra_net := ra_net s |}).
Definition session_for_request (route : RouteDefinition) (request : ProviderChatRequest)
    : eff RedpillAdapter ProviderError SessionState := λ s, (lookup_for_request route request (ra_state s), s).

Definition session_gpu_attestation (session : Value) : eff Net ProviderError (option NvidiaGpuAttestationEvidence) :=
  data ← pure_result (ok_or (text ← value_pointer ["evidence"; "data"] session ≫= value_as_str;
                             strip_prefix "data:application/json;base64," text)
                        (Adapter "RedPill session evidence is not a JSON data URI"));
  bytes ← pure_result (ok_or (standard_decode data) (Adapter "RedPill session evidence is not base64: {e}"));
  value ← pure_result (ok_or (value_of_slice bytes) (JsonError "{error}"));
  match get_str "nvidia_payload" value with
  | None => mret None
  | Some payload =>
      nonce ← pure_result (ok_or (match get_str "request_nonce" value with
                                  | Some nonce => if is_empty nonce then None else Some nonce
                                  | None => None
                                  end) (Adapter "RedPill GPU evidence has no nonce"));
      payload_value ← pure_result (ok_or (value_of_slice payload) (JsonError "{error}"));
      let evidence := {|
        ng_schema := NVIDIA_EVIDENCE_SCHEMA; ng_attestation_format := NRAS_GPU_EVIDENCE_V3; ng_nonce := nonce;
        ng_arch := get_str "arch" payload_value; ng_payload_sha256 := Some (sha256_digest payload);
        ng_raw_payload_base64 := Some (standard_encode payload); ng_nras_token := None |} in
      match nras_client with
      | Some attest_gpu_evidence => attested ← attest_gpu_evidence evidence; mret (Some attested)
      | None => mret (Some evidence)
      end
  end.

Definition authorized_request (method url : string) (query : list (string * string)) (body : option Value) : HttpRequest := {|
  hr_method := method; hr_url := url; hr_query := query; hr_body := body; hr_bearer := Some api_key |}.
Definition redpill_get (client : HttpClient) (url : string) (query : list (string * string)) : eff Net ProviderError HttpResponse :=
  map_eff_err (λ _, Http "{e}") (send client (authorized_request "GET" url query None)).
Definition redpill_json (response : HttpResponse) : ProviderResult Value :=
  body ← checked_response_bytes response; ok_or (value_of_slice body) (JsonError "{error}").

Definition redpill_capture (route : RouteDefinition) (request : EvidenceRequest) (nonce : string) (state : SessionState)
    : RedpillAciLiveEvidence := {|
  rp_schema := REDPILL_SCHEMA; rp_provider := rd_provider route; rp_route_id := rd_route_id route;
  rp_evidence_family := rd_evidence_family route; rp_requested_model := er_requested_model request;
  rp_policy_digest := er_policy_digest request; rp_request_nonce := nonce; rp_evidence_endpoint := rd_evidence_endpoint route;
  rp_live_tls_spki_sha256 := lp_spki_sha256 (ss_tls state);
  rp_live_tls_leaf_certificate_der_base64 := standard_encode (lp_leaf_certificate_der (ss_tls state));
  rp_gateway_report := ss_gateway_report state; rp_session := ss_session state; rp_session_id := ss_session_id state;
  rp_gpu_attestation := ss_gpu_attestation state |}.

Definition redpill_fetch_evidence (now : Z) (route : RouteDefinition) (request : EvidenceRequest)
    : eff RedpillAdapter ProviderError string :=
  _ ← pure_result (ensure_redpill_route route provider_id);
  nonce ← pure_result (ok_or (match er_nonce request with
                              | Some s => if (String.length s =? 64)%nat && all_bytes is_ascii_hexdigit s then Some s else None
                              | None => None
                              end) (Compatibility "RedPill requires a fresh 32-byte hexadecimal nonce"));
  response ← redpill_net (redpill_get evidence_client (rd_evidence_endpoint route) [("nonce", nonce)]);
  tls ← pure_result (require_tls_peer response);
  report ← pure_result (redpill_json response);
  client ← redpill_client (lp_spki_sha256 tls);
  let base := trim_end_slashes (rd_api_base_url route) in
  response ← redpill_net (redpill_get client (base +:+ "/aci/sessions") [("model", rd_provider_model route)]);
  list ← pure_result (redpill_json response);
  _ ← pure_result (bail (Adapter "RedPill sessions has invalid API version")
                     when negb (bool_decide (get_str "api_version" list = Some "aci/1")); Ok tt);
  entry ← pure_result (newest_session list);
  let session_id := default "" (get_str "session_id" entry) in
  cached ← cached_session (rd_route_id route) entry now;
  '(session, gpu_attestation) ←
    match cached with
    | Some c => mret (cn_session c, cn_gpu_attestation c)
    | None =>
        response ← redpill_net (redpill_get client (base +:+ "/aci/sessions/" +:+ session_id) []);
        session ← pure_result (redpill_json response);
        gpu_attestation ← redpill_net (session_gpu_attestation session);
        mret (session, gpu_attestation)
    end;
  let state := {| ss_tls := tls; ss_session_id := session_id; ss_session := session; ss_gateway_report := report;
                  ss_gpu_attestation := gpu_attestation |} in
  serialized ← pure_result (ok_or (capture_to_vec (redpill_capture route request nonce state)) (JsonError "{error}"));
  _ ← remember_session (rd_route_id route) (sha256_digest serialized) state;
  mret serialized.

(** [checked_response_bytes] with the text of its error. *)
Definition chat_response_bytes (response : HttpResponse) : ProviderResult string :=
  body ← read_body "" (hp_chunks response);
  if is_success (hp_status response) then Ok body
  else Err (HttpStatus (hp_status response) ("RedPill chat: " +:+ response_body_preview body)).
Definition is_session_refusal (message : string) : bool :=
  bool_decide ((text ← strip_prefix "RedPill chat: " message; body ← value_of_slice text;
                value_pointer ["error"; "type"] body ≫= value_as_str) = Some "session_not_accepted").
Definition session_refusal (route_id : string) (error : ProviderError) : ProviderError :=
  match error with
  | HttpStatus status message =>
      if (status =? 412)%Z && is_session_refusal message
      then KeyRotation route_id "RedPill session was superseded before dispatch" else error
  | _ => error
  end.

Definition receipt_id_shaped (id : string) : bool :=
  negb (is_empty id) && all_bytes (λ b, is_ascii_alphanumeric b || (b =?= "-"%char) || (b =?= "_"%char)) id.
Definition response_receipt_id (response : HttpResponse) : option string :=
  match receipt_header response with Some id => if receipt_id_shaped id then Some id else None | None => None end.

(** What follows the check of the session: the prompt, the answer and its receipt.
    The request's body stands for [wire], its serialisation. *)
Definition redpill_exchange (route : RouteDefinition) (body : Value) (wire : string) (client : HttpClient) (state : SessionState)
    : eff Net ProviderError Chat :=
  let base := trim_end_slashes (rd_api_base_url route) in
  response ← map_eff_err (map_send_error (rd_route_id route))
               (send client (authorized_request "POST" (base +:+ "/chat/completions") [] (Some body)));
  observed ← pure_result (map_err (λ _, Adapter "RedPill chat TLS: {e}") (require_tls_peer response));
  _ ← pure_result (bail (Adapter "RedPill chat TLS SPKI changed despite handshake pin")
                     when negb (lp_spki_sha256 observed =?= lp_spki_sha256 (ss_tls state)); Ok tt);
  response_body ← pure_result (map_err (session_refusal (rd_route_id route)) (chat_response_bytes response));
  receipt_id ← pure_result (ok_or (response_receipt_id response) (Adapter "RedPill response has no valid receipt ID"));
  receipt_response ← map_eff_err (λ _, Adapter "RedPill receipt fetch failed after dispatch: {e}")
                       (send client (authorized_request "GET" (base +:+ "/aci/receipts/" +:+ receipt_id) [] None));
  receipt_bytes ← pure_result (map_err (λ _, Adapter "RedPill receipt fetch failed after dispatch: {e}")
                                 (checked_response_bytes receipt_response));
  receipt ← pure_result (ok_or (value_of_slice receipt_bytes) (JsonError "{error}"));
  _ ← pure_result (verify_receipt receipt receipt_id wire response_body state);
  pure_result (ok_or (chat_from_slice response_body) (JsonError "{error}")).

Definition redpill_chat (now : Z) (route : RouteDefinition) (request : ProviderChatRequest) : eff RedpillAdapter ProviderError Chat :=
  _ ← pure_result (ensure_redpill_route route provider_id);
  _ ← pure_result (bail (Compatibility "RedPill requires the attested TLS channel")
                     when negb (pq_confidentiality request =?= Plaintext); Ok tt);
  _ ← pure_result (bail (Compatibility "RedPill request model does not match verified route")
                     when negb (bool_decide (request_model (pq_body request) = Some (rd_provider_model route))); Ok tt);
  state ← session_for_request route request;
  let valid_until := default 0%Z (get_u64 "expires_at" (ss_session state)) in
  let key_until := default 0%Z (value_pointer ["attestation"; "workload_keyset"; "not_after"] (ss_gateway_report state)
                                  ≫= value_as_u64) in
  _ ← pure_result (bail (KeyRotation (rd_route_id route) "RedPill session or gateway keyset expired")
                     when (valid_until <=? now)%Z || (key_until <=? now)%Z; Ok tt);
  _ ← match cache_not_after (ss_session state) (ss_gpu_attestation state) with
      | Some not_after =>
          cache_session (rd_route_id route)
            {| cn_session_id := ss_session_id state; cn_session := ss_session state;
               cn_gpu_attestation := ss_gpu_attestation state; cn_not_after := not_after |}
      | None => mret tt
      end;
  body ← pure_result (constrain_request (pq_body request) (ss_session_id state));
  wire ← pure_result (ok_or (value_to_vec body) (JsonError "{error}"));
  client ← redpill_client (lp_spki_sha256 (ss_tls state));
  redpill_net (redpill_exchange route body wire client state).
End Adapter.

(** ** What a receipt says *)

Section ReceiptFacts.
Context {prim : Primitives} {signatures : SignatureCrypto} {redpill : RedpillReaders} {wire_ops : RedpillWire}.

(** The receipt's signature: by the one key of the keyset the receipt names. *)
Definition signed_by_keyset (keyset signed : Value) (sig : string) : Prop :=
  ∃ key_id keys key public_key, get_str "key_id" signed = Some key_id
    ∧ get_array "receipt_signing_keys" keyset = Some keys ∧ List.filter (is_signing_key key_id) keys = [key]
    ∧ get_str "public_key" key ≫= lower_hex_decode = Some public_key
    ∧ verify_redpill_aci_signature signed public_key sig = Ok tt.
(** The time of serving: while session and keyset were valid. *)
Definition served_within (session keyset signed : Value) : Prop :=
  ∃ served established expires until, get_u64 "served_at" signed = Some served
    ∧ get_u64 "established_at" session = Some established ∧ get_u64 "expires_at" session = Some expires
    ∧ get_u64 "not_after" keyset = Some until ∧ (established ≤ served < expires)%Z ∧ (served < until)%Z.
(** The log: one request and one response, the request first, with the digests of
    these bytes, and upstreams, all required and verified for the session. *)
Definition log_records (wire response session_id : string) (signed : Value) : Prop :=
  ∃ events received returned, get_array "event_log" signed = Some events
    ∧ events_of "request.received" events = [received] ∧ events_of "response.returned" events = [returned]
    ∧ same_value (head events) (Some received) = true
    ∧ get_str "body_hash" received = Some (sha256_digest wire) ∧ get_str "body_hash" returned = Some (sha256_digest response)
    ∧ events_of "upstream.verified" events ≠ []
    ∧ Forall (λ e, get_str "result" e = Some "verified" ∧ value_get "required" e ≫= value_as_bool = Some true
                   ∧ get_str "session_id" e = Some session_id) (events_of "upstream.verified" events).
(** A receipt for these bytes under this report, session and session identifier. *)
Definition receipted (receipt : Value) (receipt_id wire response : string) (report session : Value) (session_id : string) : Prop :=
  ∃ fields sig keyset, receipt = VObject fields
    ∧ let signed := VObject (List.filter (λ e, negb (fst e =?= "signature")) fields) in
      get_str "signature" receipt ≫= lower_hex_decode = Some sig
      ∧ value_pointer ["attestation"; "workload_keyset"] report = Some keyset
      ∧ signed_by_keyset keyset signed sig
      ∧ get_str "api_version" signed = Some "aci/1" ∧ get_str "receipt_id" signed = Some receipt_id
      ∧ same_value (value_get "workload_keyset_digest" signed) (value_get "workload_keyset_digest" report) = true
      ∧ served_within session keyset signed
      ∧ log_records wire response session_id signed.

Lemma upstream_verified_iff session_id e :
  upstream_verified session_id e = true →
  get_str "result" e = Some "verified" ∧ value_get "required" e ≫= value_as_bool = Some true ∧ get_str "session_id" e = Some session_id.
Proof. unfold upstream_verified. intros H. bools. destruct_and?. by bools. Qed.

Lemma verify_receipt_Ok receipt receipt_id wire response state :
  verify_receipt receipt receipt_id wire response state = Ok tt →
  receipted receipt receipt_id wire response (ss_gateway_report state) (ss_session state) (ss_session_id state).
Proof.
  unfold verify_receipt. destruct receipt as [| | | | |fields]; try done. rewrite ok_bind. intros H. inv_ok.
  destruct (List.filter (is_signing_key _) _) as [|key [|? ?]] eqn:Ek; try done. inv_ok.
  destruct (events_of "request.received" _) as [|received [|? ?]] eqn:Er; try done.
  destruct (events_of "response.returned" _) as [|returned [|? ?]] eqn:Et; try done.
  bools. destruct_and?. bools. unfold body_hash_is in *. bools.
  eexists fields, _, _. split; [done|]. cbn zeta. split_and!; try eassumption; try done.
  - eexists _, _, _, _. by split_and!.
  - eexists _, _, _, _. split_and!; try eassumption; lia.
  - eexists _, received, returned. split_and!; try eassumption.
    + intros Hn. rewrite Hn in *. done.
    + apply Forall_forall. intros e He. apply upstream_verified_iff.
      match goal with H : forallb _ _ = true |- _ => rewrite forallb_forall in H; apply H end. by apply list_elem_of_In.
Qed.
End ReceiptFacts.

(** ** What leaves the adapter *)

Section Facts.
Context {prim : Primitives} {x509 : CertificateReader} {platform : PlatformVerifier} {crypto : RequestCrypto}.
Context {signatures : SignatureCrypto} {redpill : RedpillReaders} {wire_ops : RedpillWire}.
Context (built : ProviderResult unit) (provider_id api_key : string).
Context (nras_client : option (NvidiaGpuAttestationEvidence → eff Net ProviderError NvidiaGpuAttestationEvidence)).
Context (capture_to_vec : RedpillAciLiveEvidence → option string) {Chat : Type} (chat_from_slice : string → option Chat).
Abbreviation sent s := (nt_sent (ra_net s)).
Abbreviation fetch := (redpill_fetch_evidence built provider_id api_key nras_client capture_to_vec).
Abbreviation chat := (redpill_chat built provider_id api_key chat_from_slice).
Abbreviation exchange := (redpill_exchange api_key chat_from_slice).

(** A delivery over TLS to a server with this key. *)
Definition to_key (pin : string) (d : Delivery) : Prop :=
  ∃ certificate, dl_peer d = Some certificate ∧ platform_verify (hr_url (dl_request d)) certificate = true
    ∧ certificate_spki_sha256_hex certificate = Ok pin.

Lemma send_to_key {F A} pin request (f : SendError → F) (k : HttpResponse → eff Net F A) net r net' :
  is_https (hr_url request) = true →
  (response ← map_eff_err f (send {| hc_pin := Some pin; hc_tls_info := true |} request); k response) net = (r, net') →
  (nt_sent net' = nt_sent net ∧ is_ok r = false)
  ∨ ∃ d, dl_request d = request ∧ to_key pin d
      ∧ ((nt_sent net' = (nt_sent net ++ [d])%list ∧ is_ok r = false)
         ∨ ∃ response net1, nt_sent net1 = (nt_sent net ++ [d])%list ∧ k response net1 = (r, net')).
Proof.
  intros Hh [(e & (rs & Hs & Hr)%map_run & ->)|(response & net1 & (rs & Hs & Hr)%map_run & Hk)]%eff_bind_run;
    apply send_sent in Hs as [[Hsame Ho]|(peer & Hsent & _ & Htls & _)].
  - by left.
  - destruct (Htls Hh) as (certificate & -> & Hv & Hp). right.
    exists {| dl_request := request; dl_peer := Some certificate |}. split_and!; [done|exists certificate; by split_and!; [..|apply Hp]|].
    left. by split.
  - destruct rs; by simplify_eq/=.
  - destruct (Htls Hh) as (certificate & -> & Hv & Hp). right.
    exists {| dl_request := request; dl_peer := Some certificate |}. split_and!; [done|exists certificate; by split_and!; [..|apply Hp]|]. right. eauto.
Qed.

(** The deliveries of an exchange: at most the prompt and the request for the
    receipt, both to the key; and an answer is receipted. *)
Definition chat_url (route : RouteDefinition) : string := trim_end_slashes (rd_api_base_url route) +:+ "/chat/completions".
Definition receipt_url (route : RouteDefinition) (id : string) : string := trim_end_slashes (rd_api_base_url route) +:+ "/aci/receipts/" +:+ id.

Definition exchanged (route : RouteDefinition) (body : Value) (ds : list Delivery) : Prop :=
  ds = [] ∨ ∃ d ds', ds = d :: ds' ∧ dl_request d = authorized_request api_key "POST" (chat_url route) [] (Some body)
             ∧ (ds' = [] ∨ ∃ id d', ds' = [d'] ∧ dl_request d' = authorized_request api_key "GET" (receipt_url route id) [] None).

Definition answered_with_receipt (wire : string) (report session : Value) (session_id : string) (answer : Chat) : Prop :=
  ∃ response receipt receipt_id, receipt_id_shaped receipt_id = true
    ∧ receipted receipt receipt_id wire response report session session_id
    ∧ chat_from_slice response = Some answer.

Definition exchange_outcome (route : RouteDefinition) (body : Value) (wire : string) (state : SessionState) (before after : list Delivery)
    (r : ProviderResult Chat) : Prop :=
  ∃ ds, after = (before ++ ds)%list ∧ Forall (to_key (lp_spki_sha256 (ss_tls state))) ds ∧ exchanged route body ds
    ∧ ∀ answer, r = Ok answer → length ds = 2%nat ∧ answered_with_receipt wire (ss_gateway_report state) (ss_session state) (ss_session_id state) answer.

Lemma nothing_delivered route body wire state before r : is_ok r = false → exchange_outcome route body wire state before before r.
Proof. intros Hr. exists []. rewrite app_nil_r. split_and!; [done|done|by left|]. by intros ? ->. Qed.
Lemma only_prompt_delivered route body wire state before d r :
  dl_request d = authorized_request api_key "POST" (chat_url route) [] (Some body) → to_key (lp_spki_sha256 (ss_tls state)) d →
  is_ok r = false → exchange_outcome route body wire state before (before ++ [d]) r.
Proof.
  intros Hd Hk Hr. exists [d]. split_and!; [done|by constructor| |by intros ? ->].
  right. exists d, []. split_and!; [done|done|by left].
Qed.
Lemma receipt_checked wire state response_body receipt_id receipt_response net r net' :
  (receipt_bytes ← pure_result (W := Net) (map_err (λ _, Adapter "RedPill receipt fetch failed after dispatch: {e}")
                                  (checked_response_bytes receipt_response));
   receipt ← pure_result (ok_or (value_of_slice receipt_bytes) (JsonError "{error}"));
   _ ← pure_result (verify_receipt receipt receipt_id wire response_body state);
   pure_result (ok_or (chat_from_slice response_body) (JsonError "{error}")) : eff Net ProviderError Chat) net = (r, net') →
  receipt_id_shaped receipt_id = true →
  net' = net ∧ ∀ answer, r = Ok answer → answered_with_receipt wire (ss_gateway_report state) (ss_session state) (ss_session_id state) answer.
Proof.
  intros H Hs. pure_step H raw Hb; [done|]. pure_step H receipt Hr; [done|]. pure_step H u Hu; [done|]. apply pure_run in H as [-> ->]. split; [done|]. intros answer Hok%ok_or_Ok.
  destruct u. symmetry in Hu. apply verify_receipt_Ok in Hu. eexists _, _, receipt_id. by split_and!.
Qed.

Lemma exchange_run route body wire state net r net' :
  starts_with "https://" (rd_api_base_url route) = true →
  exchange route body wire {| hc_pin := Some (lp_spki_sha256 (ss_tls state)); hc_tls_info := true |} state net = (r, net') →
  exchange_outcome route body wire state (nt_sent net) (nt_sent net') r.
Proof.
  intros Hh H. unfold redpill_exchange in H.
  apply send_to_key in H as [[-> Hr]|(d & Hd & Hk & H)]; [by apply nothing_delivered| |by apply https_base_url].
  destruct H as [[-> Hr]|(response & net1 & Hn1 & H)]; [by apply only_prompt_delivered|].
  pure_step H observed Ho; [rewrite Hn1; by apply only_prompt_delivered|].
  pure_step H checked Hc; [rewrite Hn1; by apply only_prompt_delivered|].
  pure_step H response_body Hb; [rewrite Hn1; by apply only_prompt_delivered|].
  pure_step H rid Hid; [rewrite Hn1; by apply only_prompt_delivered|].
  assert (receipt_id_shaped rid = true) as Hs.
  { symmetry in Hid. apply ok_or_Ok in Hid. unfold response_receipt_id in Hid. destruct (receipt_header response); [|done].
    by destruct (receipt_id_shaped _) eqn:E; simplify_eq. }
  apply send_to_key in H as [[-> Hr]|(d' & Hd' & Hk' & H)]; [rewrite Hn1; by apply only_prompt_delivered| |by apply https_base_url].
  assert (nt_sent net' = (nt_sent net ++ [d; d'])%list ∧ ∀ answer, r = Ok answer → answered_with_receipt wire (ss_gateway_report state) (ss_session state) (ss_session_id state) answer) as [-> Ha].
  { destruct H as [[-> Hr]|(response' & net2 & Hn2 & [-> Ha]%receipt_checked)]; [|rewrite Hn2|done];
      rewrite Hn1, <-app_assoc; (split; [done|]); [by intros ? ->|done]. }
  exists [d; d']. split_and!; [done|by repeat constructor| |auto].
  right. exists d, [d']. split_and!; [done|done|]. right. by exists rid, d'.
Qed.

(** *** The invariant *)

(** The captured evidence a state belongs to. *)
Definition capture_of (route_id digest : string) (state : SessionState) (capture : RedpillAciLiveEvidence) : Prop :=
  (∃ serialized, capture_to_vec capture = Some serialized ∧ digest = sha256_digest serialized)
  ∧ rp_route_id capture = route_id ∧ String.length (rp_request_nonce capture) = 64%nat
  ∧ rp_live_tls_spki_sha256 capture = lp_spki_sha256 (ss_tls state) ∧ rp_gateway_report capture = ss_gateway_report state
  ∧ rp_session capture = ss_session state ∧ rp_session_id capture = ss_session_id state
  ∧ rp_gpu_attestation capture = ss_gpu_attestation state ∧ session_id_shaped (ss_session_id state) = true.

Record redpill_inv (s : RedpillAdapter) : Prop := {
  ri_pins : pins_ok (ra_pinned_clients s);
  ri_store route digest state : store_get route digest (ra_state s) = Some state → ∃ capture, capture_of route digest state capture;
  ri_cache route c : ra_session_cache s !! route = Some c →
    cache_not_after (cn_session c) (cn_gpu_attestation c) = Some (cn_not_after c)
    ∧ ∃ digest state capture, capture_of route digest state capture ∧ cn_session_id c = rp_session_id capture
        ∧ cn_session c = rp_session capture ∧ cn_gpu_attestation c = rp_gpu_attestation capture;
}.

(** Captures and chats, at times that are whole seconds since the epoch. *)
Inductive redpill_step : RedpillAdapter → RedpillAdapter → Prop :=
| redpill_fetches now route request s r s' : fetch now route request s = (r, s') → redpill_step s s'
| redpill_chats now route request s r s' : (0 ≤ now)%Z → chat now route request s = (r, s') → redpill_step s s'.

Lemma new_redpill_inv net : redpill_inv (new_redpill_adapter net).
Proof.
  constructor; cbn; [constructor; cbn; [intros ? ? ? H; by rewrite lookup_empty in H|rewrite map_size_empty; lia]|..].
  - intros route digest state. unfold store_get. cbn. by rewrite lookup_empty.
  - intros route c H. by rewrite lookup_empty in H.
Qed.
Lemma redpill_net_run {A} (m : eff Net ProviderError A) s r s' :
  redpill_net m s = (r, s') → m (ra_net s) = (r, ra_net s') ∧ (redpill_inv s → redpill_inv s').
Proof.
  unfold redpill_net. destruct (m (ra_net s)) as [r0 net]. intros [= <- <-]. split; [done|]. intros [Hp Hs Hc]. by constructor.
Qed.
Lemma redpill_client_run pin s r s' :
  redpill_inv s → redpill_client built pin s = (r, s') →
  redpill_inv s' ∧ ra_net s' = ra_net s ∧ ∀ client, r = Ok client → client = {| hc_pin := Some pin; hc_tls_info := true |}.
Proof.
  intros [Hp Hs Hc]. unfold redpill_client. destruct (pinned_client built pin (ra_pinned_clients s)) as [r0 pins] eqn:E.
  destruct (pinned_client_ok _ _ _ _ _ Hp E) as [Hp' Hcl]. intros [= <- <-]. split; [by constructor|done].
Qed.
Lemma remember_session_inv route digest state capture s r s' :
  capture_of route digest state capture → redpill_inv s → remember_session route digest state s = (r, s') → redpill_inv s'.
Proof.
  intros Hcap [Hp Hs Hc] [= <- <-]. constructor; cbn; [done| |done].
  intros r0 d st [(-> & -> & ->)|H]%store_insert_get; [eauto|by apply Hs].
Qed.

Lemma newest_session_shaped list entry :
  newest_session list = Ok entry → ∃ id, get_str "session_id" entry = Some id ∧ session_id_shaped id = true.
Proof.
  unfold newest_session. intros H%ok_or_Ok. revert H.
  set (shaped := λ s, match get_str "session_id" s with Some id => session_id_shaped id | None => false end).
  assert (Forall (λ s, shaped s = true) (List.filter shaped (default [] (get_array "sessions" list)))) as Hall.
  { apply Forall_forall. by intros s [_ Hs]%list_elem_of_In%filter_In. }
  assert (∀ s : Value, None = Some s → shaped s = true) as Hb by done. revert Hb Hall. generalize (None (A := Value)).
  induction (List.filter _ _) as [|s l IH]; intros best Hb Hall.
  { cbn. intros ->. specialize (Hb entry eq_refl). unfold shaped in Hb. destruct (get_str _ entry); [eauto|done]. }
  apply Forall_cons in Hall as [Hs Hall]. cbn [fold_left]. apply IH; [|done].
  intros s'. unfold newer_session. destruct best as [b|]; [destruct (_ <? _)%Z|]; intros [= <-]; auto.
Qed.
Lemma session_or_cached_inv client url cached (s : RedpillAdapter) (r : ProviderResult (Value * option NvidiaGpuAttestationEvidence)) s' :
  redpill_inv s →
  match cached with
  | Some c => mret (cn_session c, cn_gpu_attestation c)
  | None =>
      response ← redpill_net (redpill_get api_key client url []);
      session ← pure_result (redpill_json response);
      gpu_attestation ← redpill_net (session_gpu_attestation nras_client session);
      mret (session, gpu_attestation)
  end s = (r, s') → redpill_inv s'.
Proof.
  intros Hi. destruct cached as [c|]; [by intros [= <- <-]|]. intros H.
  apply eff_bind_run in H as [(e & [_ Hx]%redpill_net_run & ->)|(response & s1 & [_ Hx]%redpill_net_run & H)];
    specialize (Hx Hi); [done|].
  pure_step H session Hs; [done|].
  apply eff_bind_run in H as [(e & [_ Hy]%redpill_net_run & ->)|(gpu & s2 & [_ Hy]%redpill_net_run & [= <- <-])]; auto.
Qed.

Lemma redpill_fetch_inv now route request s r s' : redpill_inv s → fetch now route request s = (r, s') → redpill_inv s'.
Proof.
  intros Hi H. unfold redpill_fetch_evidence in H.
  pure_step H u Hu; [done|]. pure_step H nonce Hn; [done|].
  apply eff_bind_run in H as [(e & [_ Hx]%redpill_net_run & ->)|(response & s1 & [_ Hx]%redpill_net_run & H)];
    specialize (Hx Hi); [done|].
  pure_step H tls Ht; [done|]. pure_step H report Hr; [done|].
  apply eff_bind_run in H as [(e & [Hi2 _]%redpill_client_run & ->)|(client & s2 & (Hi2 & _ & _)%redpill_client_run & H)]; try done.
  apply eff_bind_run in H as [(e & [_ Hy]%redpill_net_run & ->)|(response2 & s3 & [_ Hy]%redpill_net_run & H)];
    specialize (Hy Hi2); [done|].
  pure_step H listed Hl; [done|]. pure_step H u' Hu'; [done|]. pure_step H entry He; [done|].
  apply eff_bind_run in H as [(e & [=] & _)|(cached & s4 & [= Hc <-] & H)].
  apply eff_bind_run in H as [(e & Hm & ->)|([session gpu] & s5 & Hm & H)];
    assert (redpill_inv _) as Hi5 by (exact (session_or_cached_inv _ _ _ _ _ _ Hy Hm)); [done|].
  pure_step H serialized Hv; [done|]. symmetry in Hv. apply ok_or_Ok in Hv.
  symmetry in He. apply newest_session_shaped in He as (id & Hid & Hs). rewrite Hid in *. cbn [default] in *.
  apply eff_bind_run in H as [(e & Hm' & _)|([] & s6 & Hm' & [= <- <-])];
    (eapply remember_session_inv; [|exact Hi5|exact Hm']); (split; [eauto|]); split_and!; try done.
  symmetry in Hn. apply ok_or_Ok in Hn. cbn. destruct (er_nonce request) as [n|]; [|done].
  destruct (_ =? _)%nat eqn:El; cbn in Hn; [|done]. destruct (all_bytes _ _); simplify_eq. by apply Nat.eqb_eq in El.
Qed.

Lemma remember_cache_inv route digest state capture (s : RedpillAdapter) r s' :
  capture_of route digest state capture → redpill_inv s →
  match cache_not_after (ss_session state) (ss_gpu_attestation state) with
  | Some not_after =>
      cache_session route {| cn_session_id := ss_session_id state; cn_session := ss_session state;
                             cn_gpu_attestation := ss_gpu_attestation state; cn_not_after := not_after |}
  | None => mret tt
  end s = (r, s') →
  r = Ok tt ∧ redpill_inv s' ∧ ra_net s' = ra_net s.
Proof.
  intros Hcap [Hp Hs Hc]. destruct (cache_not_after _ _) as [not_after|] eqn:E; intros [= <- <-]; [|done].
  split; [done|]. split; [|done]. constructor; cbn; [done|done|].
  intros rid c [[<- <-]|[_ H]]%lookup_insert_Some; [|by eapply Hc]. cbn. split; [done|].
  exists digest, state, capture. split; [exact Hcap|]. destruct Hcap as (_ & _ & _ & _ & _ & -> & -> & -> & _). done.
Qed.

Lemma redpill_route_https route : ensure_redpill_route route provider_id = Ok tt → starts_with "https://" (rd_api_base_url route) = true.
Proof. unfold ensure_redpill_route, https_or_test_loopback. intros H. inv_ok. bools. destruct_and?. by bools. Qed.

(** What a chat does: nothing, or an exchange for the evidence the request was
    verified by. *)
Definition redpill_chat_outcome (now : Z) (route : RouteDefinition) (request : ProviderChatRequest) (before after : list Delivery)
    (r : ProviderResult Chat) : Prop :=
  (after = before ∧ is_ok r = false)
  ∨ ∃ serialized capture body wire ds,
      capture_to_vec capture = Some serialized ∧ pq_verified_evidence_digest request = Some (sha256_digest serialized)
      ∧ rp_route_id capture = rd_route_id route ∧ session_id_shaped (rp_session_id capture) = true
      ∧ (∃ until, get_u64 "expires_at" (rp_session capture) = Some until ∧ (now < until)%Z)
      ∧ constrain_request (pq_body request) (rp_session_id capture) = Ok body ∧ value_to_vec body = Some wire
      ∧ after = (before ++ ds)%list ∧ Forall (to_key (rp_live_tls_spki_sha256 capture)) ds ∧ exchanged route body ds
      ∧ ∀ answer, r = Ok answer → length ds = 2%nat
          ∧ answered_with_receipt wire (rp_gateway_report capture) (rp_session capture) (rp_session_id capture) answer.

Lemma redpill_chat_run now route request s r s' :
  (0 ≤ now)%Z → redpill_inv s → chat now route request s = (r, s') →
  redpill_inv s' ∧ redpill_chat_outcome now route request (sent s) (sent s') r.
Proof.
  intros Hnow Hi H. unfold redpill_chat in H.
  pure_step H u Hu; [split; [done|by left]|]. destruct u. symmetry in Hu. apply redpill_route_https in Hu.
  pure_step H u Hq; [split; [done|by left]|]. pure_step H u' Hm; [split; [done|by left]|].
  apply eff_bind_run in H as [(e & [= _ <-] & ->)|(state & s1 & [= Hl <-] & H)]; [split; [done|by left]|].
  pure_step H u'' Ht; [split; [done|by left]|].
  unfold lookup_for_request, verified_digest_for_request in Hl. inv_ok. rename x into digest.
  match goal with Hg : store_get _ _ _ = Some state |- _ => destruct (ri_store _ Hi _ _ _ Hg) as [capture Hcap] end.
  apply eff_bind_run in H as [(e & Hc & ->)|(u3 & s2 & Hc & H)];
    apply (remember_cache_inv _ _ _ _ _ _ _ Hcap Hi) in Hc as ([=] & Hi2 & Hn2).
  pure_step H body Hb; [rewrite Hn2; split; [done|by left]|].
  pure_step H wire Hw; [rewrite Hn2; split; [done|by left]|].
  apply eff_bind_run in H as [(e & Hc & ->)|(client & s3 & Hc & H)];
    apply (redpill_client_run _ _ _ _ Hi2) in Hc as (Hi3 & Hn3 & Hcl); [rewrite Hn3, Hn2; split; [done|by left]|].
  specialize (Hcl _ eq_refl) as ->.
  apply redpill_net_run in H as [(ds & Hs & Hk & Hx & Ha)%exchange_run Hi4]; [|done]. split; [auto|]. right.
  destruct Hcap as ((serialized & Hv & ->) & Hroute & _ & Etls & Erep & Eses & Esid & _ & Hid).
  rewrite <-Etls in Hk.
  exists serialized, capture, body, wire, ds. rewrite Hs, Hn3, Hn2, Eses, Erep, Esid.
  split_and!; try done.
  - case_match; [done|]. bools. destruct (get_u64 _ _) as [until|]; cbn in *; [eauto with lia|lia].
  - symmetry in Hw. by apply ok_or_Ok in Hw.
Qed.

Lemma redpill_reachable net s : rtc redpill_step (new_redpill_adapter net) s → redpill_inv s.
Proof.
  intros H. pose proof (new_redpill_inv net) as Hi. revert Hi. induction H as [|s1 s2 s3 [] _ IH]; [done|..]; intros Hi; apply IH.
  - by eapply redpill_fetch_inv.
  - by eapply redpill_chat_run.
Qed.

(** C6: after any captures and chats of a RedPill adapter, whatever a chat returns, it
    sent nothing, or it sent at most the prompt, addressed to the session of the very
    evidence the request was verified by and while that session had not expired, and a
    request for the receipt, each over TLS to a server with the key in that evidence;
    and an answer it returns comes with a receipt signed by a key of the gateway's
    keyset in that evidence, served while session and keyset were valid, for exactly
    the bytes sent and the bytes the answer was read from. *)
Theorem redpill_answers_receipted net s now route request r s' :
  rtc redpill_step (new_redpill_adapter net) s → (0 ≤ now)%Z → chat now route request s = (r, s') →
  redpill_chat_outcome now route request (sent s) (sent s') r.
Proof. intros Hi%redpill_reachable Hn H. by apply (redpill_chat_run _ _ _ _ _ _ Hn Hi H). Qed.

(** A capture reuses a session only while the gateway lists it with the same evidence
    digest and neither the session nor its GPU token has expired; and it is the
    session of evidence captured for the same route. *)
Theorem redpill_reused_session_fresh net s route_id entry now c s' :
  rtc redpill_step (new_redpill_adapter net) s → cached_session route_id entry now s = (Ok (Some c), s') →
  get_str "session_id" entry = Some (cn_session_id c)
  ∧ (∃ digest, value_pointer ["evidence"; "digest"] entry ≫= value_as_str = Some digest
       ∧ value_pointer ["evidence"; "digest"] (cn_session c) ≫= value_as_str = Some digest)
  ∧ (∃ expiry gpu token exp, get_u64 "expires_at" (cn_session c) = Some expiry ∧ cn_gpu_attestation c = Some gpu
       ∧ ng_nras_token gpu = Some token ∧ jwt_exp token = Some exp ∧ (now < expiry)%Z ∧ (now < exp)%Z)
  ∧ ∃ digest state capture, capture_of route_id digest state capture ∧ cn_session_id c = rp_session_id capture
      ∧ cn_session c = rp_session capture ∧ cn_gpu_attestation c = rp_gpu_attestation capture.
Proof.
  intros [_ _ Hc]%redpill_reachable. unfold cached_session. intros [= H <-].
  destruct (ra_session_cache s !! route_id) as [c'|] eqn:E; cbn in H; [|done].
  destruct (matches_listed c' entry now) eqn:Em; simplify_eq. destruct (Hc _ _ E) as [Hna Hcap].
  unfold matches_listed in Em. destruct (value_pointer _ entry ≫= _) as [digest|]; bools; destruct_and?; bools; [|done].
  split_and!; [done|by eauto| |done].
  unfold cache_not_after in Hna. destruct (get_u64 "expires_at" _) as [expiry|]; cbn in Hna; [|done].
  destruct (cn_gpu_attestation c) as [gpu|]; cbn in Hna; [|done]. destruct (ng_nras_token gpu) as [token|] eqn:Et; cbn in Hna; [|done].
  destruct (jwt_exp token) as [exp|] eqn:Ee; cbn in Hna; [|done]. simplify_eq.
  exists expiry, gpu, token, exp. split_and!; try done; lia.
Qed.
End Facts.

(** ** Concrete inputs *)

#[local] Instance adapter_reader : CertificateReader := {|
  certificate_from_der der := Some {| cert_spki_der := Some der; cert_not_before_secs := 0; cert_not_after_secs := 0 |} |}.
#[local] Instance adapter_platform : PlatformVerifier := {| platform_verify _ _ := true |}.
#[local] Instance adapter_signatures : SignatureCrypto := {|
  base64url_decode s := Some s; public_key_from_slice s := Some s; signature_from_slice s := Some s;
  ed25519_verify key message sig := key =?= sig |}.
#[local] Instance adapter_readers : RedpillReaders := {|
  redpill_from_slice _ := None; values_from_str _ := None; jcs_to_vec _ := Some "jcs"; sha384 s := s |}.
#[local] Instance adapter_wire : RedpillWire := {|
  value_eqb a b := match a, b with VString a, VString b => a =?= b | VObject a, VObject b => (length a =? length b)%nat | _, _ => false end;
  response_body_preview s := s; receipt_header _ := Some "r-1" |}.

Definition secs (n : Z) : Value := VNumber (PosInt n).
Definition sample_id : string := zeros 64.
Definition gateway_document : Value :=
  VObject [("workload_keyset_digest", VString "keyset");
           ("attestation", VObject [("workload_keyset", VObject [("not_after", secs 200);
              ("receipt_signing_keys", VArray [VObject [("key_id", VString "k"); ("algo", VString "ed25519"); ("public_key", VString "aa")]])])])].
Definition session_document (data : list (string * Value)) : Value :=
  VObject (("session_id", VString sample_id) :: ("established_at", secs 10) :: ("expires_at", secs 100)
           :: [("evidence", VObject (("digest", VString "digest") :: data))]).
Definition sample_event (kind : string) (fields : list (string * Value)) : Value := VObject (("type", VString kind) :: fields).
Definition sample_receipt : Value :=
  VObject [("signature", VString "aa"); ("key_id", VString "k"); ("api_version", VString "aci/1"); ("receipt_id", VString "r-1");
           ("workload_keyset_digest", VString "keyset"); ("served_at", secs 50);
           ("event_log", VArray [sample_event "request.received" [("body_hash", VString (sha256_digest "wire"))];
              sample_event "upstream.verified" [("result", VString "verified"); ("required", VBool true); ("session_id", VString sample_id)];
              sample_event "response.returned" [("body_hash", VString (sha256_digest "answer"))]])].
Definition sample_documents (s : string) : option Value :=
  if s =?= "report" then Some gateway_document
  else if s =?= "list" then Some (VObject [("api_version", VString "aci/1"); ("sessions", VArray [session_document []])])
  else if s =?= "session" then Some (session_document [("data", VString "data:application/json;base64,gpu")])
  else if s =?= "gpu" then Some (VObject [("nvidia_payload", VString "payload"); ("request_nonce", VString "nonce")])
  else if s =?= "payload" then Some (VObject [("arch", VString "HOPPER")])
  else if s =?= "claims" then Some (VObject [("exp", secs 90)])
  else if s =?= "receipt" then Some sample_receipt
  else None.
#[local] Instance adapter_crypto : RequestCrypto := {|
  standard_encode s := s; standard_decode s := Some s; value_to_vec _ := Some "wire"; value_of_slice := sample_documents;
  x25519_public s := s; diffie_hellman _ _ := ""; hkdf_expand _ _ _ := None; aead_encrypt _ _ _ _ := None; aead_decrypt _ _ _ _ := None |}.

Definition replying (certificate body : string) : Exchange :=
  Peer certificate (Some {| rp_status := 200; rp_chunks := [Some body] |}).
Definition token_client : NvidiaGpuAttestationEvidence → eff Net ProviderError NvidiaGpuAttestationEvidence := λ e net,
  (Ok {| ng_schema := ng_schema e; ng_attestation_format := ng_attestation_format e; ng_nonce := ng_nonce e; ng_arch := ng_arch e;
         ng_payload_sha256 := ng_payload_sha256 e; ng_raw_payload_base64 := ng_raw_payload_base64 e; ng_nras_token := Some "h.claims.s" |}, net).
Definition redpill_vec (c : RedpillAciLiveEvidence) : option string := Some (rp_live_tls_spki_sha256 c).
Definition redpill_route : RouteDefinition := tls_route "redpill" "redpill_aci_verified_tls".
Definition redpill_script (answering_key : string) : list Exchange :=
  [replying "cert" "report"; replying "cert" "list"; replying "cert" "session"; replying answering_key "answer"; replying "cert" "receipt"].
Definition redpill_net_of (key : string) : Net := {| nt_script := redpill_script key; nt_sent := [] |}.
Definition redpill_prompt : ProviderChatRequest :=
  with_verified_evidence_digest (sha256_digest (sha256_hex "cert"))
    (with_confidentiality (VObject [("model", VString (rd_provider_model redpill_route))]) Plaintext).
Abbreviation sample_redpill_fetch := (redpill_fetch_evidence (Ok tt) "redpill" "key" (Some token_client) redpill_vec).
Abbreviation sample_redpill_chat := (redpill_chat (Ok tt) "redpill" "key" Some).
Definition redpill_fetched (key : string) : ProviderResult string * RedpillAdapter :=
  sample_redpill_fetch 50 redpill_route http_evidence_request (new_redpill_adapter (redpill_net_of key)).
Definition redpill_answered (key : string) : ProviderResult string * RedpillAdapter :=
  sample_redpill_chat 50 redpill_route redpill_prompt (redpill_fetched key).2.

#[local] Strategy expand [redpill_fetched redpill_answered].
Example redpill_runs :
  (redpill_answered "cert").1 = Ok "answer" ∧ length (nt_sent (ra_net (redpill_answered "cert").2)) = 5%nat.
Proof. vm_compute. by split. Qed.
Example redpill_other_server_refused :
  (redpill_answered "other").1 = Err (KeyRotation "r1" "live TLS SPKI does not match the verified evidence pin")
  ∧ length (nt_sent (ra_net (redpill_answered "other").2)) = 3%nat.
Proof. vm_compute. by split. Qed.

Abbreviation sample_redpill_step := (redpill_step (Ok tt) "redpill" "key" (Some token_client) redpill_vec Some).
Lemma redpill_fetched_reached : rtc sample_redpill_step (new_redpill_adapter (redpill_net_of "cert")) (redpill_fetched "cert").2.
Proof. apply rtc_once. eapply redpill_fetches. apply surjective_pairing. Qed.
Lemma redpill_answered_reached : rtc sample_redpill_step (new_redpill_adapter (redpill_net_of "cert")) (redpill_answered "cert").2.
Proof. eapply rtc_r; [apply redpill_fetched_reached|]. eapply (redpill_chats _ _ _ _ _ _ 50); [lia|]. apply surjective_pairing. Qed.

Lemma redpill_answers_receipted_witness :
  ∃ serialized capture wire, redpill_vec capture = Some serialized
    ∧ pq_verified_evidence_digest redpill_prompt = Some (sha256_digest serialized)
    ∧ answered_with_receipt Some wire (rp_gateway_report capture) (rp_session capture) (rp_session_id capture) "answer".
Proof.
  assert (Hn : (0 ≤ 50)%Z) by lia.
  destruct (redpill_answers_receipted (Ok tt) "redpill" "key" (Some token_client) redpill_vec Some (redpill_net_of "cert")
              (redpill_fetched "cert").2 50 redpill_route redpill_prompt (redpill_answered "cert").1 (redpill_answered "cert").2
              redpill_fetched_reached Hn (surjective_pairing _))
    as [[_ H]|(serialized & capture & body & wire & ds & Hv & Hd & _ & _ & _ & _ & _ & _ & _ & _ & Ha)].
  - exfalso. vm_compute in H. discriminate H.
  - exists serialized, capture, wire. split; [exact Hv|split; [exact Hd|]]. apply (Ha "answer"). vm_compute. reflexivity.
Defined.
Lemma redpill_reused_session_fresh_witness :
  ∃ c expiry, (cached_session "r1" (session_document []) 60 (redpill_answered "cert").2).1 = Ok (Some c)
    ∧ get_u64 "expires_at" (cn_session c) = Some expiry ∧ (60 < expiry)%Z.
Proof.
  destruct (ra_session_cache (redpill_answered "cert").2 !! "r1") as [c|] eqn:E; [|vm_compute in E; discriminate E].
  assert (H : cached_session "r1" (session_document []) 60 (redpill_answered "cert").2 = (Ok (Some c), (redpill_answered "cert").2)).
  { vm_compute in E. injection E as <-. vm_compute. reflexivity. }
  destruct (redpill_reused_session_fresh (Ok tt) "redpill" "key" (Some token_client) redpill_vec Some (redpill_net_of "cert")
              (redpill_answered "cert").2 "r1" (session_document []) 60 c _ redpill_answered_reached H)
    as (_ & _ & (expiry & _ & _ & _ & He & _ & _ & _ & Hl & _) & _).
  exists c, expiry. split; [by rewrite H|]. split; [exact He|exact Hl].
Defined.
