(* ===== verification/Ehbp.v ===== *)
(** * Encrypted HTTP bodies

    providers/ehbp.rs: HPKE (RFC 9180, X25519, HKDF-SHA256, AES-256-GCM) in base mode
    for a request body, and the chunked response encrypted under a secret the request
    exports. X25519, HMAC and AES-GCM are parameters; the key schedule, the nonces and
    the framing are the source's. *)

From Stdlib Require Import Ascii String ZArith NArith Lia.
From stdpp Require Import base strings list numbers.
From S2P Require Import Prelude RustStr Errors Collections Canonical ProviderRequest SigstoreSct.

Open Scope string_scope.
#[local] Arguments be_bytes : simpl never.

(** ** Cryptography *)

Class EhbpCrypto := {
  hmac_sha256 : string → string → string;
  (** [SharedSecret::was_contributory]. *)
  was_contributory : string → bool;
  (** AES-256-GCM without associated data: key, nonce and message; the ciphertext
      ends with the tag. *)
  aes_seal : string → string → string → option string;
  aes_open : string → string → string → option string;
}.
(** What the code relies on. *)
Class EhbpCryptoLaws `{!EhbpCrypto} : Prop := {
  hmac_length key message : String.length (hmac_sha256 key message) = 32%nat;
  aes_roundtrip key nonce message c : aes_seal key nonce message = Some c → aes_open key nonce c = Some message;
  aes_length key nonce message c : aes_seal key nonce message = Some c → String.length c = (String.length message + 16)%nat;
}.

Definition KEM_SUITE : string := "KEM" +:+ be_bytes 2 32.
Definition HPKE_SUITE : string := "HPKE" +:+ be_bytes 2 32 +:+ be_bytes 2 1 +:+ be_bytes 2 2.
Definition TAG_LEN : N := 16.
Definition byte_one : string := String "001" "".

Record EncryptedRequest := { en_enc : string; en_body : string; en_exported_secret : string }.

Definition ehbp_error (message : string) : ProviderError := Adapter ("EHBP " +:+ message).

Section Ehbp.
Context {crypto : RequestCrypto} {ehbp : EhbpCrypto}.

Definition mac (key : string) (parts : list string) : string := hmac_sha256 key (String.concat "" parts).
Definition extract (suite salt label ikm : string) : string := mac salt ["HPKE-v1"; suite; label; ikm].
Definition expand (suite prk label info : string) (len : N) : string :=
  mac prk [be_bytes 2 len; "HPKE-v1"; suite; label; info; byte_one].
(** [UnboundKey::new] takes keys of 32 bytes. *)
Definition aes_key (key message : string) : ProviderResult string :=
  bail (ehbp_error message) when negb (String.length key =? 32)%nat; Ok key.
Definition nonce_bytes (nonce : string) : string := slice nonce 0 12.

(** *** Requests *)

(** The sender's key pair from its randomness. *)
Definition derive_secret (seed : string) : string := expand KEM_SUITE (extract KEM_SUITE "" "dkp_prk" seed) "sk" "" 32.
(** The secret both sides share: from the Diffie-Hellman value and the two public
    keys. *)
Definition kem_shared (dh enc public_key : string) : string :=
  expand KEM_SUITE (extract KEM_SUITE "" "eae_prk" dh) "shared_secret" (enc +:+ public_key) 32.
(** Key, base nonce and exported secret. *)
Definition key_schedule (shared : string) : string * string * string :=
  let context := String "000" (extract HPKE_SUITE "" "psk_id_hash" "" +:+ extract HPKE_SUITE "" "info_hash" "ehbp request") in
  let key_schedule_secret := extract HPKE_SUITE shared "secret" "" in
  (expand HPKE_SUITE key_schedule_secret "key" context 32,
   expand HPKE_SUITE key_schedule_secret "base_nonce" context 12,
   expand HPKE_SUITE (expand HPKE_SUITE key_schedule_secret "exp" context 32) "sec" "ehbp response" 32).

Definition encrypt_with_seed (public_key plaintext seed : string) : ProviderResult EncryptedRequest :=
  bail (ehbp_error "requires non-empty body") when is_empty plaintext;
  let ciphertext_len := (N.of_nat (String.length plaintext) + TAG_LEN)%N in
  bail (ehbp_error "request body is too large") when (Z.to_N u32_max <? ciphertext_len)%N;
  let secret := derive_secret seed in
  let enc := x25519_public secret in
  let dh := diffie_hellman secret public_key in
  bail (ehbp_error "invalid recipient public key") when negb (was_contributory dh);
  let '(key, nonce, exported_secret) := key_schedule (kem_shared dh enc public_key) in
  key ← aes_key key "invalid request key";
  ciphertext ← ok_or (aes_seal key (nonce_bytes nonce) plaintext) (ehbp_error "request encryption failed");
  Ok {| en_enc := enc; en_body := be_bytes 4 ciphertext_len +:+ ciphertext; en_exported_secret := exported_secret |}.
(** [seed] is what the system's randomness yields. *)
Definition encrypt (public_key plaintext : string) (seed : option string) : ProviderResult EncryptedRequest :=
  seed ← ok_or seed (ehbp_error "randomness unavailable");
  encrypt_with_seed public_key plaintext seed.

(** *** Responses *)

Fixpoint xor_bytes (a b : string) : string :=
  match a, b with
  | String x a, String y b => String (ascii_of_N (N.lxor (code x) (code y))) (xor_bytes a b)
  | _, _ => ""
  end.
Definition chunk_nonce (nonce_base : string) (seq : N) : string :=
  let nonce := nonce_bytes nonce_base in slice nonce 0 4 +:+ xor_bytes (slice nonce 4 12) (be_bytes 8 seq).

(** The loop; [None] when the fuel runs out. *)
Fixpoint open_chunks (fuel : nat) (key nonce_base remaining : string) (seq : N) (plaintext : string) : option (ProviderResult string) :=
  match fuel with
  | O => None
  | S fuel =>
      if is_empty remaining then Some (Ok plaintext)
      else if (String.length remaining <? 4)%nat then Some (Err (ehbp_error "truncated chunk length"))
      else
        let len := N.to_nat (be_value (slice remaining 0 4)) in
        let remaining := slice remaining 4 (String.length remaining) in
        if (len =? 0)%nat then open_chunks fuel key nonce_base remaining seq plaintext
        else if (String.length remaining <? len)%nat then Some (Err (ehbp_error "truncated ciphertext chunk"))
        else
          let chunk := slice remaining 0 len in
          let remaining := slice remaining len (String.length remaining) in
          match aes_open key (chunk_nonce nonce_base seq) chunk with
          | None => Some (Err (ehbp_error "response authentication failed"))
          | Some opened =>
              if (Z.to_N u64_modulus <=? seq + 1)%N then Some (Err (ehbp_error "too many response chunks"))
              else open_chunks fuel key nonce_base remaining (seq + 1) (plaintext +:+ opened)
          end
  end.

(** The response's key and base nonce. *)
Definition response_keys (exported_secret request_enc response_nonce : string) : string * string :=
  let prk := mac (request_enc +:+ response_nonce) [exported_secret] in
  (mac prk ["key"; byte_one], mac prk ["nonce"; byte_one]).
Definition decrypt (exported_secret request_enc response_nonce body : string) : ProviderResult string :=
  bail (ehbp_error "response nonce must be 32 bytes") when negb (String.length response_nonce =? 32)%nat;
  let '(key, nonce_base) := response_keys exported_secret request_enc response_nonce in
  key ← aes_key key "invalid response key";
  default (Err (ehbp_error "loop")) (open_chunks (S (String.length body)) key nonce_base body 0 "").
End Ehbp.

(** ** Responses are exactly sequences of opened chunks *)

Section Responses.
Context {crypto : RequestCrypto} {ehbp : EhbpCrypto} {laws : EhbpCryptoLaws}.

(** What a response may be from the chunk numbered [seq] on: frames, each a length and
    as many bytes, empty ones or ones that open under the nonce of their number. *)
Inductive opens (key nonce_base : string) : N → string → string → Prop :=
| opens_end seq : opens key nonce_base seq "" ""
| opens_empty seq header rest plaintext :
    String.length header = 4%nat → be_value header = 0%N → opens key nonce_base seq rest plaintext →
    opens key nonce_base seq (header +:+ rest) plaintext
| opens_chunk seq header chunk rest opened plaintext :
    String.length header = 4%nat → be_value header = N.of_nat (String.length chunk) → chunk ≠ "" →
    aes_open key (chunk_nonce nonce_base seq) chunk = Some opened → (seq + 1 < Z.to_N u64_modulus)%N →
    opens key nonce_base (seq + 1) rest plaintext →
    opens key nonce_base seq (header +:+ chunk +:+ rest) (opened +:+ plaintext).

Lemma cut_at n s : (n ≤ String.length s)%nat →
  ∃ a b, s = a +:+ b ∧ String.length a = n ∧ slice s 0 n = a ∧ slice s n (String.length s) = b ∧ String.length b = (String.length s - n)%nat.
Proof.
  intros H. pose proof (slice_cut n s H) as E. exists (slice s 0 n), (slice s n (String.length s)).
  assert (String.length (slice s 0 n) = n) as Hl by (unfold slice; rewrite substring_length; lia).
  split_and!; try done. apply (f_equal String.length) in E. rewrite append_length in E. lia.
Qed.

(** Every turn reads at least four bytes: the fuel suffices. *)
Lemma open_chunks_ends key nonce_base fuel remaining seq plaintext :
  (String.length remaining < fuel)%nat → is_Some (open_chunks fuel key nonce_base remaining seq plaintext).
Proof.
  revert remaining seq plaintext. induction fuel as [|fuel IH]; intros remaining seq plaintext Hf; [lia|].
  cbn [open_chunks]. destruct (is_empty remaining); [eauto|]. destruct (Nat.ltb_spec (String.length remaining) 4); [eauto|].
  destruct (cut_at 4 remaining) as (h & rest & _ & _ & -> & -> & Hl); [lia|]. case_match; [apply IH; lia|].
  destruct (Nat.ltb_spec (String.length rest) (N.to_nat (be_value h))) as [|Hle]; [eauto|].
  destruct (cut_at _ rest Hle) as (c & rest' & _ & _ & -> & -> & Hl'). case_match; [|eauto]. case_match; [eauto|]. apply IH. lia.
Qed.

(** A frame at the front: its header and what follows. *)
Lemma opens_frame key nonce_base seq header rest q :
  String.length header = 4%nat →
  opens key nonce_base seq (header +:+ rest) q ↔
  (be_value header = 0%N ∧ opens key nonce_base seq rest q)
  ∨ ∃ chunk rest' opened q', rest = chunk +:+ rest' ∧ q = opened +:+ q' ∧ be_value header = N.of_nat (String.length chunk) ∧ chunk ≠ ""
      ∧ aes_open key (chunk_nonce nonce_base seq) chunk = Some opened ∧ (seq + 1 < Z.to_N u64_modulus)%N
      ∧ opens key nonce_base (seq + 1) rest' q'.
Proof.
  intros Hh. split.
  - intros H. remember (header +:+ rest) as s eqn:E.
    destruct H as [|seq header' rest' q Hh' Hz Ho|seq header' chunk rest' opened q' Hh' Hz Hc Hopen Hs Ho].
    + by destruct header.
    + apply append_inj_length in E as [-> ->]; [by left|congruence].
    + apply append_inj_length in E as [-> <-]; [|congruence]. right. by exists chunk, rest', opened, q'.
  - intros [[Hz Ho]|(chunk & rest' & opened & q' & -> & -> & Hz & Hc & Hopen & Hs & Ho)]; by constructor.
Qed.
Lemma opens_short key nonce_base seq s q : opens key nonce_base seq s q → s = "" ∨ (4 ≤ String.length s)%nat.
Proof. intros []; [by left|right; rewrite append_length; lia..]. Qed.

Lemma open_chunks_iff key nonce_base fuel remaining seq acc p :
  (String.length remaining < fuel)%nat →
  open_chunks fuel key nonce_base remaining seq acc = Some (Ok p) ↔ ∃ q, p = acc +:+ q ∧ opens key nonce_base seq remaining q.
Proof.
  revert remaining seq acc. induction fuel as [|fuel IH]; intros remaining seq acc Hf; [lia|]. cbn [open_chunks].
  destruct (is_empty remaining) eqn:Ee.
  { destruct remaining; [|done]. split; [intros [= <-]; exists ""; by rewrite append_nil_r; split; [|constructor]|].
    intros (q & -> & Hq). inversion Hq; subst; [by rewrite append_nil_r|destruct header; by simplify_eq/=..]. }
  destruct (Nat.ltb_spec (String.length remaining) 4) as [Hs|Hs].
  { split; [done|]. intros (q & _ & [->|?]%opens_short); [done|lia]. }
  destruct (cut_at 4 remaining) as (h & rest & Er & Hh & -> & -> & Hl); [lia|]. rewrite Er. setoid_rewrite (opens_frame _ _ _ _ _ _ Hh).
  destruct (Nat.eqb_spec (N.to_nat (be_value h)) 0) as [Hz|Hz].
  { rewrite IH by lia. split; intros (q & -> & H); exists q; (split; [done|]); [left; split; [lia|done]|].
    destruct H as [[_ H]|(c & ? & ? & ? & _ & _ & H & Hc & _)]; [done|]. destruct c; [done|cbn in H; lia]. }
  destruct (Nat.ltb_spec (String.length rest) (N.to_nat (be_value h))) as [Hr|Hr].
  { split; [done|]. intros (q & _ & [[? _]|(c & ? & ? & ? & -> & _ & H & _)]); [lia|]. rewrite append_length in Hr. lia. }
  destruct (cut_at _ rest Hr) as (c & rest' & -> & Hc & -> & -> & Hl').
  assert (∀ c0 r0, c +:+ rest' = c0 +:+ r0 → be_value h = N.of_nat (String.length c0) → c0 = c ∧ r0 = rest') as Hsame.
  { intros c0 r0 E H. apply append_inj_length in E as [-> ->]; [done|lia]. }
  destruct (aes_open key (chunk_nonce nonce_base seq) c) as [opened|] eqn:Eo.
  2: { split; [done|]. intros (q & _ & [[? _]|(c0 & r0 & ? & ? & E & _ & H & _ & Ho & _)]); [lia|].
       destruct (Hsame _ _ E H) as [-> ->]. congruence. }
  destruct (N.leb_spec (Z.to_N u64_modulus) (seq + 1)) as [Hn|Hn].
  { split; [done|]. intros (q & _ & [[? _]|(c0 & r0 & ? & ? & E & _ & H & _ & _ & Hb & _)]); lia. }
  rewrite IH by lia. split.
  - intros (q & -> & Hq). exists (opened +:+ q). split; [by rewrite append_assoc|]. right. exists c, rest', opened, q.
    split_and!; try done; [lia|]. intros ->. cbn in Hc. lia.
  - intros (q & -> & [[? _]|(c0 & r0 & o & q' & E & -> & H & _ & Ho & _ & Hq)]); [lia|].
    destruct (Hsame _ _ E H) as [-> ->]. rewrite Eo in Ho. injection Ho as <-. exists q'. by rewrite append_assoc.
Qed.

(** C28: a response decrypts to a plaintext exactly when its nonce is 32 bytes long and
    its body is a sequence of frames, each empty or a chunk that opens under the
    response key and the nonce of its number, whose openings joined are the plaintext.
    In particular the loop over the body always ends. *)
Theorem decrypt_accepts_iff exported_secret enc nonce body p :
  decrypt exported_secret enc nonce body = Ok p ↔
  String.length nonce = 32%nat
  ∧ let '(key, nonce_base) := response_keys exported_secret enc nonce in opens key nonce_base 0 body p.
Proof.
  unfold decrypt. destruct (Nat.eqb_spec (String.length nonce) 32) as [Hn|Hn]; cbn [negb]; [|by split; [done|intros [? _]]].
  destruct (response_keys exported_secret enc nonce) as [key nonce_base] eqn:Ek.
  assert (String.length key = 32%nat) as Hk by (injection Ek as <- _; apply hmac_length).
  unfold aes_key. rewrite Hk. cbn [Nat.eqb negb]. rewrite ok_bind.
  destruct (open_chunks_ends key nonce_base (S (String.length body)) body 0 "") as [r Er]; [lia|]. rewrite Er.
  change (default _ (Some r)) with r.
  transitivity (open_chunks (S (String.length body)) key nonce_base body 0 "" = Some (Ok p)); [rewrite Er; split; congruence|].
  rewrite open_chunks_iff by lia. split; [intros (q & -> & H); by split|]. intros [_ H]. by exists p.
Qed.
End Responses.

(** ** Chunk nonces *)

Lemma lxor_byte a b : (a < 256)%N → (b < 256)%N → (N.lxor a b < 256)%N.
Proof.
  intros Ha Hb. assert (N.lxor a b = N.lxor a b mod 2 ^ 8)%N as ->; [|by apply N.mod_lt].
  rewrite <-N.land_ones. apply N.bits_inj. intros i. rewrite N.land_spec.
  destruct (N.ltb_spec i 8) as [Hi|Hi]; [by rewrite N.ones_spec_low, andb_true_r|]. rewrite N.lxor_spec.
  assert (∀ n, (n < 256)%N → N.testbit n i = false) as Hbit.
  { intros n Hn. destruct (decide (n = 0%N)) as [->|Hz]; [apply N.bits_0|]. apply N.bits_above_log2.
    apply (N.lt_le_trans _ 8); [|done]. apply N.log2_lt_pow2; lia. }
  by rewrite !Hbit.
Qed.
Lemma code_bound c : (code c < 256)%N.
Proof. apply N_ascii_bounded. Qed.
Lemma xor_bytes_inj a b c :
  String.length b = String.length a → String.length c = String.length a → xor_bytes a b = xor_bytes a c → b = c.
Proof.
  revert b c. induction a as [|x a IH]; intros [|y b] [|z c]; cbn; try done. intros [= Hb] [= Hc] [= E Er].
  f_equal; [|by apply IH]. apply (f_equal N_of_ascii) in E.
  rewrite !N_ascii_embedding in E by (apply lxor_byte; apply code_bound).
  apply (f_equal (N.lxor (code x))) in E. rewrite <-!N.lxor_assoc, N.lxor_nilpotent, !N.lxor_0_l in E.
  apply (f_equal ascii_of_N) in E. unfold code in E. by rewrite !ascii_N_embedding in E.
Qed.

(** No two chunks of a response share a nonce, which is what AES-GCM asks of the
    uses of a key. *)
Theorem chunk_nonces_unique nonce_base seq seq' :
  (12 ≤ String.length nonce_base)%nat → (seq < Z.to_N u64_modulus)%N → (seq' < Z.to_N u64_modulus)%N →
  seq ≠ seq' → chunk_nonce nonce_base seq ≠ chunk_nonce nonce_base seq'.
Proof.
  intros Hb Hs Hs' Hne [_ E]%append_inj_length; [|done]. apply Hne.
  apply xor_bytes_inj in E; rewrite ?be_bytes_size; try (unfold nonce_bytes, slice; rewrite !substring_length; lia).
  by rewrite <-(be_bytes_value 8 seq), <-(be_bytes_value 8 seq'), E.
Qed.

(** ** The recipient

    What the enclave that holds the private key does, by the same schedule. *)

Section Recipient.
Context {crypto : RequestCrypto} {ehbp : EhbpCrypto}.

Definition recipient_open (secret_key enc body : string) : option (string * string) :=
  let dh := diffie_hellman secret_key enc in
  let '(key, nonce, exported_secret) := key_schedule (kem_shared dh enc (x25519_public secret_key)) in
  if (be_value (slice body 0 4) =? N.of_nat (String.length body - 4))%N then
    message ← aes_open key (nonce_bytes nonce) (slice body 4 (String.length body));
    Some (message, exported_secret)
  else None.
Fixpoint seal_chunks (key nonce_base : string) (seq : N) (chunks : list string) : option string :=
  match chunks with
  | [] => Some ""
  | chunk :: chunks =>
      c ← aes_seal key (chunk_nonce nonce_base seq) chunk;
      rest ← seal_chunks key nonce_base (seq + 1) chunks;
      Some (be_bytes 4 (N.of_nat (String.length c)) +:+ c +:+ rest)
  end.
Definition recipient_respond (exported_secret enc response_nonce : string) (chunks : list string) : option string :=
  let '(key, nonce_base) := response_keys exported_secret enc response_nonce in seal_chunks key nonce_base 0 chunks.

Context {rlaws : RequestCryptoLaws} {laws : EhbpCryptoLaws}.

Lemma seal_opens key nonce_base seq chunks blob :
  Forall (λ m, (N.of_nat (String.length m) + TAG_LEN < 2 ^ 32)%N) chunks →
  (seq + N.of_nat (length chunks) < Z.to_N u64_modulus)%N →
  seal_chunks key nonce_base seq chunks = Some blob → opens key nonce_base seq blob (String.concat "" chunks).
Proof.
  intros Hall. revert seq blob. induction Hall as [|m chunks Hm _ IH]; intros seq blob Hn; cbn [seal_chunks].
  { intros [= <-]. constructor. }
  destruct (aes_seal key (chunk_nonce nonce_base seq) m) as [c|] eqn:Ec; cbn [mbind option_bind]; [|done].
  destruct (seal_chunks key nonce_base (seq + 1) chunks) as [rest|] eqn:Er; cbn [mbind option_bind]; [|done]. intros [= <-].
  assert (String.concat "" (m :: chunks) = m +:+ String.concat "" chunks) as ->.
  { cbn. destruct chunks; [by rewrite append_nil_r|done]. }
  pose proof (aes_length _ _ _ _ Ec) as Hl. cbn [length] in Hn. unfold TAG_LEN in Hm.
  apply (opens_chunk _ _ _ (be_bytes 4 (N.of_nat (String.length c))) c rest m); [apply be_bytes_size| | |by apply aes_roundtrip|lia|apply IH; [lia|done]].
  - apply be_bytes_value. change (256 ^ N.of_nat 4)%N with (2 ^ 32)%N. lia.
  - intros ->. cbn in Hl. lia.
Qed.

(** What is encrypted to a public key, the holder of the private key reads, with
    the same exported secret; and the chunks it then sends back under that secret,
    each shorter than 4 GiB, decrypt to their concatenation. *)
Theorem ehbp_roundtrip secret_key plaintext seed e :
  encrypt_with_seed (x25519_public secret_key) plaintext seed = Ok e →
  recipient_open secret_key (en_enc e) (en_body e) = Some (plaintext, en_exported_secret e)
  ∧ ∀ nonce chunks blob, String.length nonce = 32%nat →
      Forall (λ m, (N.of_nat (String.length m) + TAG_LEN < 2 ^ 32)%N) chunks → (N.of_nat (length chunks) < Z.to_N u64_modulus)%N →
      recipient_respond (en_exported_secret e) (en_enc e) nonce chunks = Some blob →
      decrypt (en_exported_secret e) (en_enc e) nonce blob = Ok (String.concat "" chunks).
Proof.
  unfold encrypt_with_seed. intros H. inv_ok.
  destruct (key_schedule _) as [[key nonce] exported] eqn:Ek. inv_ok. unfold aes_key in *. inv_ok. bools.
  cbn [en_enc en_body en_exported_secret]. split.
  - unfold recipient_open. rewrite <-x25519_agree, Ek.
    match goal with H : aes_seal _ _ _ = Some ?c |- _ => pose proof (aes_length _ _ _ _ H) as Hl; pose proof (aes_roundtrip _ _ _ _ H) as Hr end.
    set (header := be_bytes 4 _). assert (String.length header = 4%nat) as Hh by apply be_bytes_size.
    rewrite append_length, <-Hh, slice_app_l, slice_suffix, Hh.
    unfold header. rewrite be_bytes_value by (unfold TAG_LEN, u32_max in *; cbn in *; lia).
    rewrite (proj2 (N.eqb_eq _ _)) by (unfold TAG_LEN; lia). by rewrite Hr.
  - intros n chunks blob Hn Hall Hlen Hb. apply decrypt_accepts_iff. split; [done|]. unfold recipient_respond in Hb.
    destruct (response_keys _ _ _) as [rkey rbase]. apply seal_opens; [done|lia|done].
Qed.
End Recipient.

(** ** Concrete inputs *)

#[local] Existing Instances sample_request_crypto sample_request_laws.
#[local] Instance sample_ehbp_crypto : EhbpCrypto := {|
  hmac_sha256 _ _ := zeros 32; was_contributory _ := true;
  aes_seal _ _ message := Some (message +:+ zeros 16);
  aes_open _ _ c := if (String.length c <? 16)%nat then None else Some (slice c 0 (String.length c - 16)) |}.
#[local] Instance sample_ehbp_laws : EhbpCryptoLaws.
Proof.
  split; cbn [hmac_sha256 aes_seal aes_open sample_ehbp_crypto]; [done| |].
  - intros key nonce message c H. injection H as <-. rewrite append_length. cbn [String.length].
    rewrite Nat.add_sub, slice_app_l. destruct (Nat.ltb_spec (String.length message + 16) 16); [lia|done].
  - intros key nonce message c H. injection H as <-. by rewrite append_length.
Qed.

(** A response of two chunks with an empty frame between them; the same, cut inside
    the second chunk. *)
Definition chunk_frame (message : string) : string := be_bytes 4 (N.of_nat (String.length message + 16)) +:+ message +:+ zeros 16.
Definition two_chunks : string := chunk_frame "he" +:+ be_bytes 4 0 +:+ chunk_frame "llo".
Example chunks_decrypt : decrypt "secret" "enc" (zeros 32) two_chunks = Ok "hello".
Proof. by vm_compute. Qed.
Example cut_chunk_refused :
  decrypt "secret" "enc" (zeros 32) (slice two_chunks 0 (String.length two_chunks - 1)) = Err (ehbp_error "truncated ciphertext chunk").
Proof. by vm_compute. Qed.

Lemma decrypt_accepts_iff_witness :
  ∃ key nonce_base, response_keys "secret" "enc" (zeros 32) = (key, nonce_base) ∧ opens key nonce_base 0 two_chunks "hello".
Proof.
  pose proof (proj1 (decrypt_accepts_iff "secret" "enc" (zeros 32) two_chunks "hello") chunks_decrypt) as [_ H].
  destruct (response_keys _ _ _) as [key nonce_base]. exists key, nonce_base. split; [reflexivity|exact H].
Defined.
Lemma chunk_nonces_unique_witness : chunk_nonce (zeros 12) 0 ≠ chunk_nonce (zeros 12) 1.
Proof. apply (chunk_nonces_unique (zeros 12) 0 1); [cbn; lia|reflexivity|reflexivity|discriminate]. Defined.
Lemma ehbp_roundtrip_witness :
  ∃ e, encrypt_with_seed (x25519_public "sk") "hello" "seed" = Ok e
    ∧ recipient_open "sk" (en_enc e) (en_body e) = Some ("hello", en_exported_secret e).
Proof.
  destruct (encrypt_with_seed (x25519_public "sk") "hello" "seed") as [e|] eqn:E; [|vm_compute in E; discriminate E].
  exists e. split; [reflexivity|]. exact (proj1 (ehbp_roundtrip "sk" "hello" "seed" e E)).
Defined.
