(* ===== verification/PpqAdapter.v ===== *)
(** * The PPQ adapter

    providers/ppq.rs: the adapter captures an attestation bundle, keeps the enclave's
    HPKE key and domain from it, and encrypts every prompt to the key of the evidence
    the prompt was verified by. The network is a script of what the server answers. *)

From Stdlib Require Import Ascii String ZArith Lia.
From stdpp Require Import base gmap strings list numbers relations.
From S2P Require Import Prelude RustStr Errors Collections Canonical JsonInjective Bindings EvidenceDocuments QuoteInterfaces SevSnp Ppq.
From S2P Require Import Registry ProviderRequest Compatibility Effects ClientVerify HttpTransport HttpProviders Ehbp.

Open Scope string_scope.

(** ** State *)

Record Enclave := { ev_key : string; ev_domain : string }.
(** A reply with its headers, and a request on the wire. *)
Record PpqReply := { pr_reply : HttpReply; pr_headers : list (string * string) }.
Record PpqCall := {
  pc_method : string; pc_url : string; pc_headers : list (string * string); pc_body : option string; pc_bearer : option string;
}.
(** What the server will answer to requests it receives, none for an answer that is
    lost, and what was sent. *)
Record PpqAdapter := {
  pa_state : EvidenceStateStore Enclave;
  pa_script : list (option PpqReply);
  pa_sent : list PpqCall;
}.
Definition new_ppq_adapter (script : list (option PpqReply)) : PpqAdapter :=
  {| pa_state := store_new; pa_script := script; pa_sent := [] |}.

Definition ensure_ppq_route (route : RouteDefinition) : ProviderResult unit :=
  bail (Compatibility "PPQ requires a ppq_ehbp route with HTTPS endpoints")
    when negb (rd_provider route =?= "ppq") || negb (rd_evidence_family route =?= "ppq_ehbp")
         || negb (https_or_test_loopback (rd_api_base_url route)) || negb (https_or_test_loopback (rd_evidence_endpoint route));
  Ok tt.

(** A header by its name, whatever its case; [HeaderValue::to_str] takes visible ASCII,
    spaces and tabs. *)
Definition reply_header (name : string) (reply : PpqReply) : option string :=
  snd <$> List.find (λ h, eq_ignore_ascii_case (fst h) name) (pr_headers reply).
Definition header_text (value : string) : option string :=
  if all_bytes (λ c, between 32 126 c || between 9 9 c) value then Some value else None.
Definition response_nonce_header (reply : PpqReply) : option string :=
  match reply_header "Ehbp-Response-Nonce" reply with
  | Some value => header_text value
  | None => reply_header "X-EHbp-Response-Nonce" reply ≫= header_text
  end.
Definition ppq_decode_hex (value : string) : ProviderResult string :=
  bail (Adapter "invalid PPQ response nonce") when negb (Nat.even (String.length value)) || negb (is_ascii value);
  ok_or (hex_bytes_of value) (Adapter "invalid PPQ response nonce").

(** [body["model"] = model]; indexing anything but an object or null panics. *)
Definition with_model (body : Value) (model : string) : ProviderResult Value :=
  match body with
  | VObject fields => Ok (VObject (insert_member "model" (VString model) fields))
  | VNull => Ok (VObject [("model", VString model)])
  | _ => Err (Adapter "panic: cannot access key in JSON value")
  end.
Definition enclave_model (route : RouteDefinition) : string :=
  default (rd_provider_model route) (strip_prefix "private/" (rd_provider_model route)).

(** ** The adapter *)

Section Adapter.
Context {prim : Primitives} {x509 : CertificateReader} {tinfoil : TinfoilReaders} {readers : EvidenceReaders} {ppq : PpqReaders}.
Context {crypto : RequestCrypto} {ehbp : EhbpCrypto}.
Context (api_key : string).
(** [serde_json]. *)
Context (capture_to_vec : PpqEhbpLiveEvidence → option string) {Chat : Type} (chat_from_slice : string → option Chat).

Definition send_ppq (call : PpqCall) : eff PpqAdapter ProviderError PpqReply := λ s,
  match pa_script s with
  | [] => (Err (Http "{error}"), s)
  | reply :: script =>
      (ok_or reply (Http "{error}"), {| pa_state := pa_state s; pa_script := script; pa_sent := pa_sent s ++ [call] |})
  end.
Definition ppq_body (reply : PpqReply) : ProviderResult string :=
  checked_response_bytes {| hp_status := rp_status (pr_reply reply); hp_peer_certificate := None; hp_chunks := rp_chunks (pr_reply reply) |}.
Definition remember_enclave (route_id digest : string) (enclave : Enclave) : eff PpqAdapter ProviderError unit := λ s,
  (Ok tt, {| pa_state := store_insert route_id digest enclave (pa_state s); pa_script := pa_script s; pa_sent := pa_sent s |}).
Definition enclave_for_request (route : RouteDefinition) (request : ProviderChatRequest) : eff PpqAdapter ProviderError Enclave := λ s,
  (lookup_for_request route request (pa_state s), s).

Definition ppq_capture (route : RouteDefinition) (request : EvidenceRequest) (bundle : string) : PpqEhbpLiveEvidence := {|
  pq_schema := PPQ_SCHEMA; pq_provider := rd_provider route; pq_route_id := rd_route_id route;
  pq_evidence_family := rd_evidence_family route; pq_requested_model := er_requested_model request;
  pq_policy_digest := er_policy_digest request; pq_evidence_endpoint := rd_evidence_endpoint route;
  pq_raw_bundle_base64 := standard_encode bundle |}.
Definition bundle_call (route : RouteDefinition) : PpqCall := {|
  pc_method := "GET"; pc_url := rd_evidence_endpoint route; pc_headers := []; pc_body := None; pc_bearer := None |}.

Definition ppq_fetch_evidence (route : RouteDefinition) (request : EvidenceRequest) : eff PpqAdapter ProviderError string :=
  _ ← pure_result (ensure_ppq_route route);
  response ← send_ppq (bundle_call route);
  bundle ← pure_result (ppq_body response);
  let capture := ppq_capture route request bundle in
  parsed ← pure_result (map_err (λ _, Adapter "{error}") (parse_ppq_ehbp_evidence capture));
  raw ← pure_result (ok_or (capture_to_vec capture) (JsonError "{error}"));
  _ ← remember_enclave (rd_route_id route) (sha256_digest raw)
        {| ev_key := pp_hpke_public_key parsed; ev_domain := pp_domain parsed |};
  mret raw.

Definition ppq_call (route : RouteDefinition) (domain : string) (encrypted : EncryptedRequest) : PpqCall := {|
  pc_method := "POST"; pc_url := trim_end_slashes (rd_api_base_url route) +:+ "/chat/completions";
  pc_headers := [("Content-Type", "application/json"); ("Ehbp-Encapsulated-Key", lower_hex (en_enc encrypted));
                 ("X-Tinfoil-Enclave-Url", "https://" +:+ domain); ("X-Private-Model", rd_provider_model route);
                 ("x-query-source", "api")];
  pc_body := Some (en_body encrypted); pc_bearer := Some api_key |}.

(** [seed] is what the system's randomness yields. *)
Definition ppq_chat (seed : option string) (route : RouteDefinition) (request : ProviderChatRequest) : eff PpqAdapter ProviderError Chat :=
  _ ← pure_result (ensure_ppq_route route);
  _ ← pure_result (bail (Compatibility "PPQ requires adapter-managed E2EE")
                     when negb (pq_confidentiality request =?= AdapterManagedEncrypted); Ok tt);
  enclave ← enclave_for_request route request;
  body ← pure_result (with_model (pq_body request) (enclave_model route));
  plaintext ← pure_result (ok_or (value_to_vec body) (JsonError "{error}"));
  encrypted ← pure_result (encrypt (ev_key enclave) plaintext seed);
  response ← send_ppq (ppq_call route (ev_domain enclave) encrypted);
  ciphertext ← pure_result (ppq_body response);
  nonce ← pure_result (ok_or (response_nonce_header response) (Adapter "PPQ response missing EHBP nonce"));
  nonce ← pure_result (ppq_decode_hex nonce);
  plaintext ← pure_result (decrypt (en_exported_secret encrypted) (en_enc encrypted) nonce ciphertext);
  pure_result (ok_or (chat_from_slice plaintext) (JsonError "{error}")).
End Adapter.

(** ** What leaves the adapter *)

Section Facts.
Context {prim : Primitives} {x509 : CertificateReader} {tinfoil : TinfoilReaders} {readers : EvidenceReaders} {ppq : PpqReaders}.
Context {crypto : RequestCrypto} {ehbp : EhbpCrypto}.
Context (api_key : string) (capture_to_vec : PpqEhbpLiveEvidence → option string).
Context {Chat : Type} (chat_from_slice : string → option Chat).
Abbreviation fetch := (ppq_fetch_evidence capture_to_vec).
Abbreviation chat := (ppq_chat api_key chat_from_slice).

Lemma open_chunks_late fuel key nonce_base remaining seq plaintext r :
  open_chunks fuel key nonce_base remaining seq plaintext = Some r → late r.
Proof.
  revert remaining seq plaintext. induction fuel as [|fuel IH]; intros remaining seq plaintext; cbn [open_chunks]; [done|].
  repeat case_match; try (intros [= <-]; solve_late); apply IH.
Qed.
Lemma ehbp_decrypt_late exported enc nonce body : late (decrypt exported enc nonce body).
Proof.
  unfold decrypt, aes_key. apply late_guard; [discriminate|]. destruct (response_keys _ _ _) as [key nonce_base].
  apply late_bind; [solve_late|]. intros k. destruct (open_chunks _ _ _ _ _ _) as [r|] eqn:E; [by eapply open_chunks_late|].
  apply late_Err. discriminate.
Qed.

Lemma send_ppq_run call s r s' :
  send_ppq call s = (r, s') →
  pa_state s' = pa_state s ∧ late r
  ∧ ((pa_sent s' = pa_sent s ∧ is_ok r = false) ∨ pa_sent s' = (pa_sent s ++ [call])%list).
Proof.
  unfold send_ppq. destruct (pa_script s); intros [= <- <-]; (split; [done|]); (split; [solve_late|]); [by left|by right].
Qed.

(** The evidence an enclave was read from. *)
Definition ppq_captured (route_id digest : string) (enclave : Enclave) : Prop :=
  ∃ capture raw parsed, capture_to_vec capture = Some raw ∧ digest = sha256_digest raw ∧ pq_route_id capture = route_id
    ∧ parse_ppq_ehbp_evidence capture = Ok parsed
    ∧ enclave = {| ev_key := pp_hpke_public_key parsed; ev_domain := pp_domain parsed |}.
Definition ppq_inv (s : PpqAdapter) : Prop :=
  ∀ route digest enclave, store_get route digest (pa_state s) = Some enclave → ppq_captured route digest enclave.

Inductive ppq_step : PpqAdapter → PpqAdapter → Prop :=
| ppq_fetches route request s r s' : fetch route request s = (r, s') → ppq_step s s'
| ppq_chats seed route request s r s' : chat seed route request s = (r, s') → ppq_step s s'.

Lemma ppq_fetch_inv route request s r s' : ppq_inv s → fetch route request s = (r, s') → ppq_inv s'.
Proof.
  intros Hi H. unfold ppq_fetch_evidence in H. pure_step H u Hu; [done|].
  apply eff_bind_run in H as [(e & (Hs & _)%send_ppq_run & _)|(response & s1 & (Hs & _)%send_ppq_run & H)];
    [by unfold ppq_inv; rewrite Hs|].
  assert (ppq_inv s1) as Hi1 by (by unfold ppq_inv; rewrite Hs).
  pure_step H bundle Hb; [done|]. pure_step H parsed Hp; [done|]. pure_step H raw Hr; [done|].
  apply eff_bind_run in H as [(e & [=] & _)|([] & s2 & [= <-] & [= <- <-])].
  intros route_id digest enclave [(-> & -> & ->)|Hg]%store_insert_get; [|by apply Hi1].
  symmetry in Hr, Hp. apply ok_or_Ok in Hr. eexists _, raw, parsed. split_and!; [exact Hr|done|done| |done].
  destruct (parse_ppq_ehbp_evidence _); [|done]. cbn in Hp. congruence.
Qed.

(** What a chat does: nothing, or one request, encrypted to the key of the evidence the
    request was verified by. *)
Definition ppq_chat_outcome (seed : option string) (route : RouteDefinition) (request : ProviderChatRequest)
    (before after : list PpqCall) (r : ProviderResult Chat) : Prop :=
  (after = before ∧ is_ok r = false)
  ∨ ∃ capture raw parsed body plaintext encrypted,
      capture_to_vec capture = Some raw ∧ pq_verified_evidence_digest request = Some (sha256_digest raw)
      ∧ pq_route_id capture = rd_route_id route ∧ parse_ppq_ehbp_evidence capture = Ok parsed
      ∧ with_model (pq_body request) (enclave_model route) = Ok body ∧ value_to_vec body = Some plaintext
      ∧ encrypt (pp_hpke_public_key parsed) plaintext seed = Ok encrypted
      ∧ after = (before ++ [ppq_call api_key route (pp_domain parsed) encrypted])%list ∧ late r
      ∧ ∀ answer, r = Ok answer → ∃ nonce ciphertext opened,
          decrypt (en_exported_secret encrypted) (en_enc encrypted) nonce ciphertext = Ok opened ∧ chat_from_slice opened = Some answer.

Lemma ppq_answer_run encrypted response (s : PpqAdapter) (r : ProviderResult Chat) s' :
  (ciphertext ← pure_result (W := PpqAdapter) (ppq_body response);
   nonce ← pure_result (ok_or (response_nonce_header response) (Adapter "PPQ response missing EHBP nonce"));
   nonce ← pure_result (ppq_decode_hex nonce);
   plaintext ← pure_result (decrypt (en_exported_secret encrypted) (en_enc encrypted) nonce ciphertext);
   pure_result (ok_or (chat_from_slice plaintext) (JsonError "{error}")) : eff PpqAdapter ProviderError Chat) s = (r, s') →
  s' = s ∧ late r ∧ ∀ answer, r = Ok answer → ∃ nonce ciphertext opened,
    decrypt (en_exported_secret encrypted) (en_enc encrypted) nonce ciphertext = Ok opened ∧ chat_from_slice opened = Some answer.
Proof.
  intros H.
  pure_step H ciphertext Hc; [split_and!; [done| |done]; eapply late_transfer; [eassumption|unfold ppq_body; solve_late]|].
  pure_step H header Hh; [split_and!; [done| |done]; eapply late_transfer; [eassumption|solve_late]|].
  pure_step H nonce Hn; [split_and!; [done| |done]; eapply late_transfer; [eassumption|unfold ppq_decode_hex; solve_late]|].
  pure_step H opened Ho; [split_and!; [done| |done]; eapply late_transfer; [eassumption|apply ehbp_decrypt_late]|].
  apply pure_run in H as [-> ->]. split_and!; [done|solve_late|]. intros answer Ha%ok_or_Ok. by exists nonce, ciphertext, opened.
Qed.

Lemma ppq_chat_run seed route request s r s' :
  ppq_inv s → chat seed route request s = (r, s') →
  ppq_inv s' ∧ ppq_chat_outcome seed route request (pa_sent s) (pa_sent s') r.
Proof.
  intros Hi H. unfold ppq_chat in H.
  pure_step H u Hu; [split; [done|by left]|]. pure_step H u' Hq; [split; [done|by left]|].
  apply eff_bind_run in H as [(e & [= _ <-] & ->)|(enclave & s1 & [= Hl <-] & H)]; [split; [done|by left]|].
  unfold lookup_for_request, verified_digest_for_request in Hl. inv_ok. rename x into digest.
  match goal with Hg : store_get _ _ _ = Some enclave |- _ =>
    destruct (Hi _ _ _ Hg) as (capture & raw & parsed & Hv & -> & Hr & Hp & ->) end. cbn [ev_key ev_domain] in H.
  pure_step H body Hb; [split; [done|by left]|]. pure_step H plaintext Hw; [split; [done|by left]|].
  pure_step H encrypted He; [split; [done|by left]|]. symmetry in Hb, Hw, He. apply ok_or_Ok in Hw.
  apply eff_bind_run in H as [(e & (Hs & Hlate & Hsent)%send_ppq_run & ->)|(response & s1 & (Hs & _ & Hsent)%send_ppq_run & H)].
  - split; [by unfold ppq_inv; rewrite Hs|]. destruct Hsent as [[-> _]|Hsent]; [by left|]. right.
    exists capture, raw, parsed, body, plaintext, encrypted. split_and!; try done. by apply late_Err, Hlate.
  - destruct Hsent as [[_ [=]]|Hsent]. apply ppq_answer_run in H as (-> & Hlate & Ha).
    split; [by unfold ppq_inv; rewrite Hs|]. right. exists capture, raw, parsed, body, plaintext, encrypted. by split_and!.
Qed.

(** C4: after any captures and chats of a PPQ adapter a chat sends nothing and fails,
    or sends one request: the prompt under the enclave's name for the model, encrypted
    to the HPKE key that the certificate in the evidence the request was verified by
    spells, and addressed to the enclave of that evidence; its failures are never
    reported as nothing sent, and an answer was decrypted with the secret of this
    request. *)
Theorem ppq_prompts_encrypted_to_attested_key script s seed route request r s' :
  rtc ppq_step (new_ppq_adapter script) s → chat seed route request s = (r, s') →
  ppq_chat_outcome seed route request (pa_sent s) (pa_sent s') r.
Proof.
  intros Hr H. assert (ppq_inv (new_ppq_adapter script)) as Hi.
  { intros route0 digest enclave. unfold store_get. cbn. by rewrite lookup_empty. }
  revert Hi. induction Hr as [s|s1 s2 s3 [] _ IH]; intros Hi.
  - by apply (ppq_chat_run _ _ _ _ _ _ Hi H).
  - apply IH; [done|]. by eapply ppq_fetch_inv.
  - apply IH; [done|]. by eapply ppq_chat_run.
Qed.
End Facts.

(** ** Concrete inputs *)

#[local] Existing Instances sample_x509 sample_tinfoil_readers sample_ppq_readers ppq_evidence_readers sample_request_crypto sample_ehbp_crypto.

Definition ppq_replying (body : string) (headers : list (string * string)) : option PpqReply :=
  Some {| pr_reply := {| rp_status := 200; rp_chunks := [Some body] |}; pr_headers := headers |}.
Definition ppq_script : list (option PpqReply) :=
  [ppq_replying "bundle" []; ppq_replying (chunk_frame "ans" +:+ chunk_frame "wer") [("ehbp-response-nonce", zeros 64)]].
Definition ppq_route : RouteDefinition := tls_route "ppq" "ppq_ehbp".
Definition ppq_prompt : ProviderChatRequest :=
  with_verified_evidence_digest (sha256_digest "bundle") (adapter_managed_encrypt (VObject [("prompt", VString "hello")])).
Definition ppq_vec (c : PpqEhbpLiveEvidence) : option string := Some (pq_raw_bundle_base64 c).
Definition ppq_fetched : ProviderResult string * PpqAdapter :=
  ppq_fetch_evidence ppq_vec ppq_route http_evidence_request (new_ppq_adapter ppq_script).
Definition ppq_answered : ProviderResult string * PpqAdapter :=
  ppq_chat "key" Some (Some "seed") ppq_route ppq_prompt ppq_fetched.2.
#[local] Strategy expand [ppq_fetched ppq_answered].
Example ppq_runs : ppq_fetched.1 = Ok "bundle" ∧ ppq_answered.1 = Ok "answer" ∧ length (pa_sent ppq_answered.2) = 2%nat.
Proof. by vm_compute. Qed.
(** A prompt verified by other evidence is not sent. *)
Example ppq_other_evidence_refused :
  let run := ppq_chat "key" Some (Some "seed") ppq_route (with_verified_evidence_digest "other" ppq_prompt) ppq_fetched.2 in
  is_ok run.1 = false ∧ length (pa_sent run.2) = 1%nat.
Proof. by vm_compute. Qed.

Lemma ppq_fetched_reached : rtc (ppq_step "key" ppq_vec Some) (new_ppq_adapter ppq_script) ppq_fetched.2.
Proof.
  apply rtc_once. exact (ppq_fetches "key" ppq_vec Some ppq_route http_evidence_request _ ppq_fetched.1 _ (surjective_pairing ppq_fetched)).
Qed.
Lemma ppq_answered_run : ppq_chat "key" Some (Some "seed") ppq_route ppq_prompt ppq_fetched.2 = (ppq_answered.1, ppq_answered.2).
Proof. exact (surjective_pairing ppq_answered). Qed.
Lemma ppq_answered_ok : is_ok ppq_answered.1 = true.
Proof. vm_compute. reflexivity. Qed.

Lemma ppq_prompts_encrypted_to_attested_key_witness :
  ∃ capture parsed encrypted, parse_ppq_ehbp_evidence capture = Ok parsed
    ∧ pa_sent ppq_answered.2 = (pa_sent ppq_fetched.2 ++ [ppq_call "key" ppq_route (pp_domain parsed) encrypted])%list.
Proof.
  destruct (ppq_prompts_encrypted_to_attested_key "key" ppq_vec Some ppq_script ppq_fetched.2 (Some "seed") ppq_route ppq_prompt
              ppq_answered.1 ppq_answered.2 ppq_fetched_reached ppq_answered_run)
    as [[_ H]|(capture & raw & parsed & body & plaintext & encrypted & _ & _ & _ & Hp & _ & _ & _ & Hs & _)].
  - exfalso. rewrite ppq_answered_ok in H. discriminate H.
  - exists capture, parsed, encrypted. split; [exact Hp|exact Hs].
Defined.
